(* ===== verification/_CoqProject ===== *)
-Q . S2P
Prelude.v
ListEntry.v
Memory.v
PeParser.v
Bitmap.v
Cpu.v
Spinlock.v
SpinlockSteps.v
RwSpinlock.v
Pmm.v
HashTable.v
Heap.v
RefCnt.v
CheckinQueue.v
StrUtils.v
ClString.v
Vsnprintf.v
VmReservation.v
VmReservationSpec.v
BitField.v
PageTables.v
PageTablesSpec.v
PageTablesProps.v
PageWalk.v
PagingTypes.v
Slices.v
Fat.v
FatSpec.v
FatFiles.v
FatProps.v
Io.v
IoSpec.v
IoProps.v
Disk.v
DiskSpec.v
Mmu.v
MmuSpec.v
MmuExample.v
MmuProps.v
Vmm.v
BufferSpec.v
VmmSpec.v
VmmProps.v
Mdl.v
MdlSpec.v
MdlProps.v
SchedSpec.v
Sched.v
SchedRefine.v
SchedMutex.v
SchedProps.v
SchedRuns.v
