(* ===== verification/Prelude.v ===== *)
(** * A verification library for the HAL9000 operating system

    HAL9000 is a 64-bit multiprocessor kernel in C. This library translates its core into
    Rocq, function by function and under the names of the source, and proves what the code is
    there to do. The translation covers the support library CommonLib and, of the kernel, the
    allocators of physical frames, address space and heap, the scheduler with the mutexes and
    events on top of it, and the components listed below.

    ** How the code is modelled

    An integer of w bits is a [Z] in [0, 2^w), and every operation that can wrap is written
    with its [u32], [u64], [s64]. A function is a program of the state monad [M] below. A run
    ends with a result ([Ret]), in a failed ASSERT ([Panic]), in an access to memory that the
    model does not have, such as NULL or the byte behind a buffer ([Fault]), or, where a loop
    of the source has no bound that can be computed in advance, because the fuel is used up
    ([OutOfFuel]). A theorem that says [Ret] therefore says that the code returns, asserts
    nothing that is false and stays within its memory; the theorems about loops ask for more
    fuel than the list, string or number has elements, which is enough for every round. [for]
    loops with a bound need no fuel.

    Memory is seen through two interfaces: a store of bytes ([Memory.HasBytes]) and a store of
    list nodes ([ListEntry.HasNodes]), each by address. A state that holds both keeps them
    apart ([Memory.NodesBytes]). Static structures are fields of a state, reached through a
    [lens]; a pointer to a structure that a caller owns is the record, which the operations
    return when they change it.

    ** The parts

    - Prelude: the integers and macros of CommonLib/inc/base.h, the status codes of status.h,
      the monad, its loops and its rules, alignment, lenses.
    - ListEntry: CommonLib/src/list.c, the doubly linked list. The operations refine those on
      sequences, in any order; iteration with removal visits every entry.
    - Memory: CommonLib/src/cl_memory.c; words of several bytes in memory.
    - Bitmap: CommonLib/src/bitmap.c over byte memory. The scans find the first run of bits,
      and reserve it.
    - Cpu, Spinlock, SpinlockSteps: the flags register (HAL/inc/cpu_utils.h), spinlock.c,
      monlock.c, lock_common.c; SpinlockSteps interleaves the accesses of several CPUs and
      proves mutual exclusion and progress.
    - RwSpinlock: rw_spinlock.c and rec_rw_spinlock.c, with the same two views.
    - Pmm: HAL9000/src/pmm.c, the physical memory manager: which frames are free after the
      start, and that a reservation is the first fit.
    - HashTable: CommonLib/src/hash_table.c: the table refines a finite map.
    - Heap: CommonLib/src/cl_heap.c: blocks are disjoint, aligned and inside the heap;
      releasing gives back what allocating took.
    - RefCnt, CheckinQueue: ref_cnt.c and checkin_queue.c under interleaving.
    - StrUtils, ClString, Vsnprintf: strutils.c and cl_string.c: numbers to strings and back,
      the string functions, formatted output.
    - VmReservation, VmReservationSpec: HAL9000/src/vm_reservation_space.c, the reservations of
      an address space, against the list of regions and committed pages it stands for.
    - Sched, SchedSpec, SchedRefine, SchedMutex, SchedProps, SchedRuns: HAL9000/src/thread.c,
      mutex.c, ex_event.c, and what thread.c calls in isr.c and process.c. Sched is the code as
      a machine of several CPUs whose threads have stacks of positions in the code; SchedSpec
      is an abstract scheduler with its invariant; SchedRefine proves that the code refines it
      and that no assertion fails; SchedMutex adds the mutexes; SchedProps states the theorems
      for every run from the initial state; SchedRuns computes runs, among them those in which
      the code does not do what it means to do.
    - PeParser: PE_Parser/src/pe_parser.c, the headers of an executable image: nothing outside
      of the image is read or described.
    - BitField, PageTables, PageTablesSpec, PageTablesProps: HAL/src/pte.c and the part of
      HAL9000/src/vmm.c that creates and walks the paging structures. BitField holds the
      bit-fields of an entry; PageTables is the code, over the words of the area that holds the
      structures; PageTablesSpec defines the walk of the processor and the invariant of the
      tables, PageTablesProps proves that the code refines a map from pages to frames.
      PageWalk proves that every walk ends, with the fuel that its level gives; PagingTypes that
      the entries, addresses and indices stay within their widths.
    - Mmu, MmuSpec, MmuProps, MmuExample: HAL9000/src/mmu.c and the part of vmm.c behind it:
      mapping, unmapping and translating ranges for a paging structure, on memory that is
      shared with the frames of Pmm; MmuExample is a small machine to evaluate them on.
    - Vmm, VmmSpec, VmmProps, BufferSpec: the regions and the page faults of vmm.c. VmmProps
      says which faults MmuSolvePageFault solves and what is mapped then, BufferSpec that the
      check of a user buffer is the access rights of each of its bytes.
    - Mdl, MdlSpec, MdlProps: HAL9000/src/mdl.c, MmuProbeMemory with the exception handler of
      isr.c, and the system address of a user buffer: an MDL describes the buffer, in order.
    - Slices, Fat, FatSpec, FatFiles, FatProps: FAT32/src/fat_utils.c and the mounting, reading and
      writing of FAT32/src/fat_operations.c, on a volume that is a store of bytes, of which
      Slices reads and writes parts. FatSpec
      defines the links of the table and the chains of clusters, FatFiles the bytes of a file
      and its entry in the directory; FatProps states that a file holds what was written to it,
      how a chain grows, and which layout mounting establishes.
    - Io, IoSpec, IoProps: requests of HAL9000/src/io_devices.c and their way over the handlers of
      Volume/src/volume_dispatch.c, Disk/src/disk_dispatch.c and Ata/src/ata_dispatch.c, with the
      locks of the devices and the medium of the controller. IoSpec runs a request through the
      stack of devices; IoProps proves that a volume is an array of sectors of its own, which is
      what Fat relies on for its device.
    - Disk, DiskSpec: Disk/src/disk.c, the table of partitions: the boot records as bytes of the
      medium, and that the two passes over them find the partitions that they describe.
    The bitmaps are used by Pmm and VmReservation through the theorems of Bitmap, the lists by
    HashTable and Heap through those of ListEntry, the locks and lists in Sched are the
    abstractions that SpinlockSteps and ListEntry justify.

    ** The theorems

    Data structures: refinement of sequences, maps, lists of blocks and lists of regions, on
    every branch, the errors included ([ListEntry.list_ops_refine_sequence],
    [HashTable.hash_table_refines_map], [Heap.ClHeapAllocatePoolWithTag_allocates],
    [VmReservationSpec.VmReservationSpaceAllocRegion_reserves],
    [PageTablesProps.page_tables_refine_page_map], ...). Memory management: what a page fault,
    a user buffer, a mapping and an MDL come to ([VmmProps.MmuSolvePageFault_decides],
    [BufferSpec.MmuIsBufferValid_decides], [MmuProps.mmu_map_get_unmap],
    [MdlProps.MdlAllocateEx_describes]), with termination and typing of the walks
    ([PageWalk.paging_walks_end], [PagingTypes.paging_well_typed]). Files:
    [FatProps.FatWriteFile_then_FatReadFile], [FatProps.NextSectorInClusterChain_extends]. Devices:
    [IoProps.volume_refines_sectors], [DiskSpec.DiskRetrievePartitionsFromDisk_finds].
    Concurrency: safety of
    the locks under every interleaving ([SpinlockSteps.spinlock_mutual_exclusion],
    [RwSpinlock.rw_spinlock_exclusion], [CheckinQueue.checkin_queue_barrier],
    [RefCnt.RfcDereference_frees_once]) and of the scheduler on several CPUs
    ([SchedProps.no_assertion_fails], [SchedProps.mutex_exclusion],
    [SchedProps.no_thread_lost], ...). Strings and numbers: round trips and functional
    correctness ([StrUtils.itoa_atoi_roundtrip], [Vsnprintf.cl_vsnprintf_formats], ...).

    ** Parameters and bounds

    Code outside of the modelled files is a parameter of the operations that call it, with what is
    relied on as a named hypothesis: MmuUnmapMemoryEx and IoCloseFile of VmReservation,
    MmuReleaseMemory of PageTables, IoReadFile of Vmm, the allocator ExAllocatePoolWithTag of Mdl,
    Fat, Io and Disk, the requests to the device of a volume in Fat, the transfer of sectors by the
    registers of the controller in Io (AtaTransfer), the hash and free functions of HashTable, the
    callbacks of the lists. Every theorem with such a hypothesis has a witness that instantiates it.
    DEBUG stands for the preprocessor symbol that compiles the validation of list entries in; the
    theorems hold with and without. A heap has at most 4 GB, beyond which the 32-bit sizes of its
    blocks wrap. The theorems on files are about volumes with sectors of 512 bytes, for which the
    FSINFO is a sector; their fuel is above the number of clusters, which bounds every chain and
    every search. A request goes through three devices, which is the fuel of IoCallDriver; the boot
    records of a disk need as much fuel as the chain has records, and a chain may have no end
    ([DiskSpec.cyclic_extended_partition_never_ends]). The theorems on requests are about transfers
    that do not wait for an interrupt.

    ** Not modelled

    In the modelled files: log output and statistics; of thread.c the creation and destruction
    of threads (allocation, initial stacks, the list of all threads) and what happens when the
    last reference to a thread goes; of the scheduler the change of the address space; of mmu.c
    the start-up, the heaps and the thread that zeroes frames; of the file system the search of
    directories by name, the creation of entries and the names, which are string processing on
    top of what is modelled, and the handlers that unpack requests in fat32.c; of the drivers of
    volumes, disks and the controller the creation of their devices at start-up.
    Speculative reordering of memory accesses: interleavings are those of atomic accesses in
    program order, which the interlocked instructions of the locks guarantee on this machine.
    Other parts: the other device drivers, the programming of interrupt controllers, descriptor tables
    and timers, and the start-up code are sequences of accesses to hardware whose meaning is
    not in the source; the command interpreter, dumps and tests are console output; the ACPI
    library is third-party code. The network stack forwards frames between devices and threads;
    the I/O manager registers drivers, devices and interrupts at start-up. *)
From Stdlib Require Export ZArith Lia.
From stdpp Require Export base gmap fin_maps numbers option sorting.
From stdpp Require Export list.

#[global] Open Scope Z_scope.
#[export] Set Warnings "-clear-no-such-hyp".

#[global] Arguments Z.eqb : simpl never.
#[global] Arguments Z.ltb : simpl never.
#[global] Arguments Z.leb : simpl never.

(** * Machine integers: a w-bit unsigned value is a [Z] in [0, 2^w). *)
Definition u8 (z : Z) : Z := z mod 2 ^ 8.
Definition u16 (z : Z) : Z := z mod 2 ^ 16.
Definition u32 (z : Z) : Z := z mod 2 ^ 32.
Definition u64 (z : Z) : Z := z mod 2 ^ 64.

(** Two's complement reading of a w-bit pattern. *)
Definition s32 (z : Z) : Z := if u32 z <? 2 ^ 31 then u32 z else u32 z - 2 ^ 32.
Definition s64 (z : Z) : Z := if u64 z <? 2 ^ 63 then u64 z else u64 z - 2 ^ 64.

(** Values that do not wrap. *)
Lemma s64_id z : - 2 ^ 63 ≤ z < 2 ^ 63 → s64 z = z.
Proof.
  intros Hz. unfold s64, u64. destruct (Z.leb_spec 0 z).
  - rewrite Z.mod_small by lia. by rewrite (proj2 (Z.ltb_lt z _)) by lia.
  - rewrite <-(Z_mod_plus_full z 1), Z.mod_small by lia.
    rewrite (proj2 (Z.ltb_ge _ _)) by lia. lia.
Qed.
Lemma u64_id z : 0 ≤ z < 2 ^ 64 → u64 z = z.
Proof. intros Hz. by apply Z.mod_small. Qed.
Lemma u32_id z : 0 ≤ z < 2 ^ 32 → u32 z = z.
Proof. intros Hz. by apply Z.mod_small. Qed.
Lemma u16_id z : 0 ≤ z < 2 ^ 16 → u16 z = z.
Proof. intros Hz. by apply Z.mod_small. Qed.

Definition MAX_BYTE : Z := 0xFF.
Definition MAX_WORD : Z := 0xFFFF.
Definition MAX_DWORD : Z := 0xFFFFFFFF.
Definition MAX_QWORD : Z := 0xFFFFFFFFFFFFFFFF.
Definition NULL : Z := 0.

(** * Macros of CommonLib/inc/base.h *)
Definition KB_SIZE : Z := 1024.
Definition MB_SIZE : Z := 1024 * KB_SIZE.
Definition PAGE_SIZE : Z := 0x1000.
Definition SECTOR_SIZE : Z := 512.
Definition MBR_BOOT_SIGNATURE : Z := 0xAA55.
(** shared/kernel/heap_tags.h *)
Definition HEAP_TEMP_TAG : Z := 0x3A504D54.

Definition IsFlagOn (x f : Z) : bool := negb (Z.land x f =? 0).
Definition IsBooleanFlagOn (x f : Z) : bool := f =? Z.land x f.

Definition AlignAddressLower (addr alig : Z) : Z :=
  Z.land (u64 addr) (u64 (Z.lnot (u64 (u64 alig - 1)))).
Definition AlignAddressUpper (addr alig : Z) : Z :=
  AlignAddressLower (u64 (u64 (u64 addr + alig) - 1)) alig.
Definition IsAddressAligned (addr alig : Z) : bool :=
  0 =? Z.land (u64 addr) (u64 (u64 alig - 1)).
Definition PtrDiff (x y : Z) : Z := s64 (x - y).
Definition PtrOffset (x y : Z) : Z := u64 (x + y).

Definition CHECK_BOUNDS (p ps b s : Z) : bool :=
  (u64 b <=? u64 p) && (u64 (u64 p + u64 ps) <=? u64 (u64 b + u64 s)).

(** shared/common/mem_structures.h *)
Definition PAGE_RIGHTS_READ : Z := 0.
Definition PAGE_RIGHTS_WRITE : Z := 1.
Definition PAGE_RIGHTS_EXECUTE : Z := 2.
Definition PAGE_RIGHTS_READWRITE : Z := Z.lor PAGE_RIGHTS_READ PAGE_RIGHTS_WRITE.
Definition VMM_ALLOC_TYPE_RESERVE : Z := 1.
Definition VMM_ALLOC_TYPE_COMMIT : Z := 2.
Definition VMM_FREE_TYPE_DECOMMIT : Z := 1.
Definition VMM_FREE_TYPE_RELEASE : Z := 2.

(** * STATUS codes of CommonLib/inc/status.h *)
Definition FAIL_MASK : Z := 2 ^ 31.
Definition ERROR_MASK : Z := 3 * 2 ^ 30.
Definition INFO_MASK : Z := 2 ^ 30.
Definition CUSTOMER_BIT : Z := 2 ^ 29.
Definition GENERAL_MASK : Z := 2 ^ 27.
Definition HEAP_MASK : Z := 2 ^ 21.
Definition DISK_MASK : Z := 2 ^ 18.
Definition DEVICE_MASK : Z := 2 ^ 16.
Definition MEMORY_MASK : Z := 2 ^ 20.
Definition error_status (kind code : Z) : Z :=
  Z.lor ERROR_MASK (Z.lor CUSTOMER_BIT (Z.lor kind code)).

Definition STATUS_SUCCESS : Z := 0.
Definition STATUS_UNSUPPORTED : Z := error_status GENERAL_MASK 0x1.
Definition STATUS_ELEMENT_NOT_FOUND : Z := error_status GENERAL_MASK 0x4.
Definition STATUS_INCOMPATIBLE_INTERFACE : Z := error_status GENERAL_MASK 0x9.
Definition STATUS_INVALID_PARAMETER1 : Z := error_status GENERAL_MASK 0x11.
Definition STATUS_INVALID_PARAMETER2 : Z := error_status GENERAL_MASK 0x12.
Definition STATUS_INVALID_PARAMETER3 : Z := error_status GENERAL_MASK 0x13.
Definition STATUS_UNSUCCESSFUL : Z := error_status GENERAL_MASK 0x3.
Definition STATUS_INVALID_PARAMETER4 : Z := error_status GENERAL_MASK 0x14.
Definition STATUS_PARSE_FAILED : Z := error_status GENERAL_MASK 0x21.
Definition STATUS_JOB_INTERRUPTED : Z := error_status GENERAL_MASK 0x22.
Definition STATUS_DISK_MBR_NOT_PRESENT : Z := error_status DISK_MASK 0x1.
Definition STATUS_HEAP_TOO_SMALL : Z := error_status HEAP_MASK 0x1.
Definition STATUS_HEAP_NO_MORE_MEMORY : Z := error_status HEAP_MASK 0x3.
Definition STATUS_HEAP_INSUFFICIENT_RESOURCES : Z := error_status HEAP_MASK 0x4.
Definition STATUS_BUFFER_TOO_SMALL : Z := error_status MEMORY_MASK 0x2.
Definition STATUS_MEMORY_IS_NOT_RESERVED : Z := error_status MEMORY_MASK 0x6.
Definition STATUS_MEMORY_CANNOT_BE_RESERVED : Z := error_status MEMORY_MASK 0x9.
Definition STATUS_MEMORY_CANNOT_BE_COMMITED : Z := error_status MEMORY_MASK 0xB.
Definition STATUS_MEMORY_CONFLICTING_ACCESS_RIGHTS : Z := error_status MEMORY_MASK 0xC.
Definition STATUS_MEMORY_CONFLICTING_CACHEABILITY : Z := error_status MEMORY_MASK 0xD.
Definition STATUS_MEMORY_ALREADY_RESERVED : Z := error_status MEMORY_MASK 0xF.
Definition STATUS_MEMORY_IS_NOT_COMMITED : Z := error_status MEMORY_MASK 0x10.

Definition SUCCEEDED (x : Z) : bool := 0 =? Z.land x FAIL_MASK.

(** * The effects of the C code: a state monad with the three ways a run
    can end without a result. [Panic] is a failed [ASSERT], [Fault] an access
    the model has no memory for (NULL, freed, out of range), [OutOfFuel] a loop
    that has not ended within the given number of iterations. *)
Inductive outcome (A : Type) : Type :=
  | Ret (a : A)
  | Panic
  | Fault
  | OutOfFuel.
Arguments Ret {A} a.
Arguments Panic {A}.
Arguments Fault {A}.
Arguments OutOfFuel {A}.

Definition M (St A : Type) : Type := St → outcome (A * St).

#[export] Instance M_ret St : MRet (M St) := λ A a s, Ret (a, s).
#[export] Instance M_bind St : MBind (M St) := λ A B k m s,
  match m s with
  | Ret (a, s') => k a s'
  | Panic => Panic
  | Fault => Fault
  | OutOfFuel => OutOfFuel
  end.

Definition get {St} : M St St := λ s, Ret (s, s).
Definition gets {St A} (f : St → A) : M St A := λ s, Ret (f s, s).
Definition modify {St} (f : St → St) : M St unit := λ s, Ret (tt, f s).
Definition fault {St A} : M St A := λ _, Fault.
Definition ASSERT {St} (b : bool) : M St unit := λ s, if b then Ret (tt, s) else Panic.
Definition from_option_fault {St A} (o : option A) : M St A :=
  λ s, match o with Some a => Ret (a, s) | None => Fault end.

(** A C loop: [inl] goes round again, [inr] leaves it. *)
Fixpoint loop {St A B} (fuel : nat) (body : A → M St (A + B)) (a : A) : M St B :=
  match fuel with
  | O => λ _, OutOfFuel
  | S f =>
      r ← body a;
      match r with
      | inl a' => loop f body a'
      | inr b => mret b
      end
  end.

#[global] Arguments loop : simpl never.

(** [for (i = start; n more rounds; ++i) body], the body leaving the loop early
    with [Some r]; and the same loop without an early exit. *)
Fixpoint for_until {St R} (n : nat) (i : Z) (body : Z → M St (option R)) : M St (option R) :=
  match n with
  | O => mret None
  | S n' =>
      r ← body i;
      match r with
      | Some v => mret (Some v)
      | None => for_until n' (i + 1) body
      end
  end.
Fixpoint for_each {St} (n : nat) (i : Z) (body : Z → M St unit) : M St unit :=
  match n with
  | O => mret tt
  | S n' => body i;; for_each n' (i + 1) body
  end.
(** The same loop with local variables that the body updates. *)
Fixpoint for_fold {St Acc} (n : nat) (i : Z) (acc : Acc) (body : Z → Acc → M St Acc) : M St Acc :=
  match n with
  | O => mret acc
  | S n' => acc' ← body i acc; for_fold n' (i + 1) acc' body
  end.

(** ** Laws of the monad, as rewriting steps of a symbolic run *)
Lemma bind_Ret {St A B} (m : M St A) (k : A → M St B) s a s' :
  m s = Ret (a, s') → (m ≫= k) s = k a s'.
Proof. intros H. unfold mbind, M_bind. by rewrite H. Qed.

Lemma bind_unfold {St A B} (m : M St A) (k : A → M St B) s o :
  m s = o → (m ≫= k) s = match o with
    | Ret (a, s') => k a s' | Panic => Panic | Fault => Fault | OutOfFuel => OutOfFuel end.
Proof. intros <-. done. Qed.

Lemma bind_Ret_inv {St A B} (m : M St A) (k : A → M St B) s r :
  (m ≫= k) s = Ret r → ∃ a s', m s = Ret (a, s') ∧ k a s' = Ret r.
Proof.
  unfold mbind, M_bind. destruct (m s) as [[a s']| | |]; intros H; try done. eauto.
Qed.

Lemma bind_Fault {St A B} (m : M St A) (k : A → M St B) s :
  m s = Fault → (m ≫= k) s = Fault.
Proof. intros H. unfold mbind, M_bind. by rewrite H. Qed.
Lemma bind_Panic {St A B} (m : M St A) (k : A → M St B) s :
  m s = Panic → (m ≫= k) s = Panic.
Proof. intros H. unfold mbind, M_bind. by rewrite H. Qed.
Lemma bind_OutOfFuel {St A B} (m : M St A) (k : A → M St B) s : m s = OutOfFuel → (x ← m; k x) s = OutOfFuel.
Proof. intros Hm. unfold mbind, M_bind. by rewrite Hm. Qed.

Lemma bind_assoc {St A B C} (m : M St A) (f : A → M St B) (g : B → M St C) s :
  ((m ≫= f) ≫= g) s = (m ≫= (λ a, f a ≫= g)) s.
Proof. unfold mbind, M_bind. by destruct (m s) as [[a s']| | |]. Qed.

Lemma loop_S {St A B} f (body : A → M St (A + B)) a s :
  loop (S f) body a s =
  (body a ≫= λ r, match r with inl a' => loop f body a' | inr b => mret b end) s.
Proof. done. Qed.

Lemma loop_continue {St A B} f (body : A → M St (A + B)) a a' s s' :
  body a s = Ret (inl a', s') → loop (S f) body a s = loop f body a' s'.
Proof. intros H. rewrite loop_S. by rewrite (bind_Ret _ _ _ _ _ H). Qed.

Lemma loop_break {St A B} f (body : A → M St (A + B)) a b s s' :
  body a s = Ret (inr b, s') → loop (S f) body a s = Ret (b, s').
Proof. intros H. rewrite loop_S. by rewrite (bind_Ret _ _ _ _ _ H). Qed.

Lemma ASSERT_true {St} (b : bool) (s : St) : b = true → ASSERT b s = Ret (tt, s).
Proof. by intros ->. Qed.

Lemma ASSERT_inv {St} (b : bool) (s s' : St) u :
  ASSERT b s = Ret (u, s') → b = true ∧ s' = s.
Proof. unfold ASSERT. destruct b; intros H; by simplify_eq. Qed.

Lemma for_until_S {St R} n i (body : Z → M St (option R)) s :
  for_until (S n) i body s =
  (body i ≫= λ r, match r with Some v => mret (Some v) | None => for_until n (i + 1) body end) s.
Proof. done. Qed.

Lemma for_each_app {St} n m i (body : Z → M St unit) s :
  for_each (n + m) i body s = (for_each n i body ≫= λ _, for_each m (i + Z.of_nat n) body) s.
Proof.
  revert i s. induction n as [|n IH]; intros i s; cbn [for_each Nat.add].
  { rewrite Z.add_0_r. done. }
  rewrite bind_assoc. unfold mbind, M_bind. destruct (body i s) as [[u s1]| | |]; try done.
  rewrite IH. unfold mbind, M_bind. replace (i + 1 + Z.of_nat n) with (i + Z.of_nat (S n)) by lia. done.
Qed.

Lemma gets_run {St A} (f : St → A) s : gets f s = Ret (f s, s).
Proof. done. Qed.
Lemma deref_Some {St A} (a : A) (s : St) : from_option_fault (Some a) s = Ret (a, s).
Proof. done. Qed.

(** One symbolic step with a known result of the next statement. *)
Ltac mrun H := rewrite (bind_Ret _ _ _ _ _ H); cbn beta iota.
(** Pass an assertion whose condition [tac] establishes. *)
Ltac massert tac := erewrite bind_Ret; [cbn beta iota|apply ASSERT_true; tac].
(** Pass the dereference of a pointer that is not NULL. *)
Ltac mderef := erewrite bind_Ret; [cbn beta iota|apply deref_Some].
Ltac munfold := unfold mbind, M_bind, mret, M_ret, get, gets, modify, fault, from_option_fault.
(** Invert a successful run statement by statement. *)
Ltac minv H :=
  let a := fresh "a" in let s := fresh "s" in let E := fresh "E" in
  apply bind_Ret_inv in H as (a & s & E & H).

(** A loop whose rounds preserve [P] faults when one of them faults under [P]. *)
Lemma for_each_fault {St} (body : Z → M St unit) (P : St → Prop) n k i s :
  (∀ j s, P s → (∃ s', body j s = Ret (tt, s') ∧ P s') ∨ body j s = Fault) →
  (k < n)%nat → (∀ s, P s → body (i + Z.of_nat k) s = Fault) → P s → for_each n i body s = Fault.
Proof.
  intros Hstep. revert n i s. induction k as [|k IH]; intros [|n] i s Hk Hbad Hs; try lia; cbn [for_each].
  - apply bind_Fault. rewrite Z.add_0_r in Hbad. by apply Hbad.
  - destruct (Hstep i s Hs) as [(s' & Hr & Hs')|Hr]; [|by apply bind_Fault].
    mrun Hr. apply IH; [lia| |done]. intros s2 Hs2.
    replace (i + 1 + Z.of_nat k) with (i + Z.of_nat (S k)) by lia. by apply Hbad.
Qed.

(** * Flags *)
Lemma IsBooleanFlagOn_testbit x k :
  0 ≤ k → IsBooleanFlagOn x (Z.shiftl 1 k) = Z.testbit x k.
Proof.
  intros Hk. unfold IsBooleanFlagOn. rewrite Z.shiftl_1_l.
  destruct (Z.testbit x k) eqn:E; [apply Z.eqb_eq|apply Z.eqb_neq].
  - apply Z.bits_inj'. intros n Hn. rewrite Z.land_spec, Z.pow2_bits_eqb by lia.
    destruct (Z.eqb_spec k n) as [->|]; [by rewrite E|by rewrite andb_false_r].
  - intros Heq. apply (f_equal (λ z, Z.testbit z k)) in Heq.
    by rewrite Z.land_spec, Z.pow2_bits_true, E in Heq.
Qed.

(** * Alignment to a power of two *)
Section Align.
Variables (k : Z).
Hypotheses (Hk : 0 ≤ k < 64).

Lemma pow2_lt_64 : 0 < 2 ^ k < 2 ^ 64.
Proof. split; [apply Z.pow_pos_nonneg|apply Z.pow_lt_mono_r]; lia. Qed.

Lemma AlignAddressLower_pow2 x :
  0 ≤ x < 2 ^ 64 → AlignAddressLower x (2 ^ k) = 2 ^ k * (x / 2 ^ k).
Proof.
  intros Hx. pose proof pow2_lt_64. unfold AlignAddressLower, u64.
  rewrite !Z.mod_small with (a := 2 ^ k) by lia. rewrite (Z.mod_small (2 ^ k - 1)) by lia.
  rewrite (Z.mod_small x) by lia.
  replace (2 ^ k - 1) with (Z.ones k) by (rewrite Z.ones_equiv; lia).
  rewrite <-Z.land_ones, Z.land_comm, <-Z.land_assoc by lia.
  rewrite (Z.land_comm (Z.ones 64)), Z.land_ones, (Z.mod_small x) by lia.
  rewrite Z.land_comm, <-Z.ldiff_land, Z.ldiff_ones_r by lia.
  rewrite Z.shiftl_mul_pow2, Z.shiftr_div_pow2 by lia. lia.
Qed.
Lemma AlignAddressUpper_pow2 x :
  0 ≤ x → x + 2 ^ k ≤ 2 ^ 64 → AlignAddressUpper x (2 ^ k) = 2 ^ k * ((x + 2 ^ k - 1) / 2 ^ k).
Proof.
  intros Hx Hb. pose proof pow2_lt_64. unfold AlignAddressUpper.
  replace (u64 (u64 (u64 x + 2 ^ k) - 1)) with (x + 2 ^ k - 1).
  - apply AlignAddressLower_pow2. lia.
  - unfold u64. rewrite (Z.mod_small x) by lia. rewrite Zminus_mod_idemp_l.
    rewrite Z.mod_small; lia.
Qed.
Lemma IsAddressAligned_pow2 x :
  0 ≤ x < 2 ^ 64 → IsAddressAligned x (2 ^ k) = (x mod 2 ^ k =? 0).
Proof.
  intros Hx. pose proof pow2_lt_64. unfold IsAddressAligned, u64.
  rewrite (Z.mod_small (2 ^ k)) by lia. rewrite (Z.mod_small (2 ^ k - 1)) by lia.
  rewrite (Z.mod_small x) by lia.
  replace (2 ^ k - 1) with (Z.ones k) by (rewrite Z.ones_equiv; lia).
  rewrite Z.land_ones by lia. apply Z.eqb_sym.
Qed.
End Align.

(** * Fields of a state *)
(** A component that keeps an object in a field (of a static structure, of the
    state of a client) works on it through a lens. *)
Record lens (St A : Type) := mkLens {
  lget : St → A;
  lset : A → St → St;
  lget_lset a s : lget (lset a s) = a;
  lset_lset a a' s : lset a (lset a' s) = lset a s;
  lset_lget s : lset (lget s) s = s
}.
Arguments mkLens {St A}.
Arguments lget {St A} l s.
Arguments lset {St A} l a s.
Create Rewrite HintDb lens.
#[export] Hint Rewrite @lget_lset @lset_lset @lset_lget : lens.

Definition lread {St A} (l : lens St A) : M St A := gets (lget l).
Definition lwrite {St A} (l : lens St A) (a : A) : M St unit := modify (lset l a).
Definition lmodify {St A} (l : lens St A) (f : A → A) : M St unit :=
  modify (λ s, lset l (f (lget l s)) s).
(** Reads of a function of the field, and an atomic read-modify-write. *)
Definition lreads {St A B} (l : lens St A) (f : A → B) : M St B := gets (λ s, f (lget l s)).
Definition lupdate {St A B} (l : lens St A) (f : A → B * A) : M St B :=
  λ s, let '(b, a) := f (lget l s) in Ret (b, lset l a s).

Lemma lread_run {St A} (l : lens St A) s : lread l s = Ret (lget l s, s).
Proof. done. Qed.
Lemma lreads_run {St A B} (l : lens St A) (f : A → B) s : lreads l f s = Ret (f (lget l s), s).
Proof. done. Qed.
Lemma lwrite_run {St A} (l : lens St A) a s : lwrite l a s = Ret (tt, lset l a s).
Proof. done. Qed.
Lemma lmodify_run {St A} (l : lens St A) f s : lmodify l f s = Ret (tt, lset l (f (lget l s)) s).
Proof. done. Qed.

Definition id_lens {St} : lens St St.
Proof. by refine (mkLens (λ s, s) (λ a _, a) _ _ _). Defined.

(** A program of the field, run in the whole state. *)
Definition zoom {St A X} (l : lens St A) (m : M A X) : M St X := λ s,
  match m (lget l s) with
  | Ret (x, a) => Ret (x, lset l a s)
  | Panic => Panic
  | Fault => Fault
  | OutOfFuel => OutOfFuel
  end.
Lemma zoom_run {St A X} (l : lens St A) (m : M A X) s x a :
  m (lget l s) = Ret (x, a) → zoom l m s = Ret (x, lset l a s).
Proof. intros H. unfold zoom. by rewrite H. Qed.

(** * Loops over an array *)
(** The loop over the elements [l] of an array, as a function of the list. *)
Fixpoint fold_list {St A Acc} (f : A → Acc → M St Acc) (l : list A) (acc : Acc) : M St Acc :=
  match l with
  | [] => mret acc
  | x :: l' => acc' ← f x acc; fold_list f l' acc'
  end.

Lemma for_fold_list {St A Acc} (f : A → Acc → M St Acc) (body : Z → Acc → M St Acc) l :
  (∀ i acc s, body i acc s = (from_option_fault (l !! Z.to_nat i) ≫= λ x, f x acc) s) →
  ∀ acc s, for_fold (length l) 0 acc body s = fold_list f l acc s.
Proof.
  intros Hbody.
  enough (∀ l2 l1 acc s, l = l1 ++ l2 →
    for_fold (length l2) (Z.of_nat (length l1)) acc body s = fold_list f l2 acc s) as Hgen.
  { intros acc s. by apply (Hgen l []). }
  intros l2. induction l2 as [|x l2 IH]; intros l1 acc s Hl; cbn [for_fold fold_list length]; [done|].
  unfold mbind at 1, M_bind at 1. rewrite Hbody, Nat2Z.id, Hl, list_lookup_middle by done.
  rewrite (bind_Ret _ _ _ _ _ (deref_Some x s)). unfold mbind, M_bind.
  destruct (f x acc s) as [[acc' s']| | |]; try done.
  replace (Z.of_nat (length l1) + 1) with (Z.of_nat (length (l1 ++ [x])))
    by (rewrite length_app; simpl; lia).
  apply IH. by rewrite Hl, <-app_assoc.
Qed.

Lemma for_each_list_fold {St A} (f : A → M St unit) (body : Z → M St unit) l :
  (∀ i s, body i s = (from_option_fault (l !! Z.to_nat i) ≫= f) s) →
  ∀ s, for_each (length l) 0 body s = fold_list (λ x _, f x) l tt s.
Proof.
  intros Hbody s. rewrite <-(for_fold_list (λ x _, f x) (λ i _, body i) l); [|done].
  generalize 0. generalize (length l). clear. intros n. revert s.
  induction n as [|n IH]; intros s i; cbn [for_each for_fold]; [done|].
  unfold mbind, M_bind. destruct (body i s) as [[[] s']| | |]; done.
Qed.

(** * Lists *)
Lemma drop_insert_lt {A} (l : list A) i n x : (i < n)%nat → drop n (<[i := x]> l) = drop n l.
Proof.
  intros Hi. apply list_eq. intros j. by rewrite !lookup_drop, list_lookup_insert_ne by lia.
Qed.
Lemma List_last_cons {A} (x d : A) l : List.last (x :: l) d = List.last l x.
Proof.
  revert x d. induction l as [|y l IH]; intros x d; [done|].
  change (List.last (y :: l) d = List.last (y :: l) x). by rewrite !IH.
Qed.
