(* ===== verification/ListEntry.v ===== *)
(** CommonLib/src/list.c: the intrusive doubly linked list.

    A [LIST_ENTRY] lives at an address of the store of list nodes; every
    operation of list.c is a program of the state monad over any state that
    holds such a store ([HasNodes]), so that the components which embed lists
    (hash table, heap, scheduler, ...) reuse the operations and their theorems.
    [dlist n hd xs] says that the ring of the head [hd] holds the entries [xs]
    in that order. *)
From S2P Require Import Prelude.

(** inc/list.h *)
Record LIST_ENTRY := mkLE { Flink : Z; Blink : Z }.
Record LIST_ITERATOR := mkLI { ListHead : Z; CurrentEntry : Z }.

Definition INVALID_LIST_SIZE : Z := MAX_DWORD.

(** The part of a state list.c reads and writes. *)
Class HasNodes (St : Type) := {
  get_nodes : St → gmap Z LIST_ENTRY;
  set_nodes : gmap Z LIST_ENTRY → St → St;
  get_set_nodes n s : get_nodes (set_nodes n s) = n;
  set_set_nodes n n' s : set_nodes n (set_nodes n' s) = set_nodes n s;
  set_get_nodes s : set_nodes (get_nodes s) s = s
}.
#[export] Instance nodes_HasNodes : HasNodes (gmap Z LIST_ENTRY).
Proof. by refine {| get_nodes n := n; set_nodes n _ := n |}. Defined.

Create HintDb nodes.
Create Rewrite HintDb nodes.
#[export] Hint Rewrite @get_set_nodes @set_set_nodes @set_get_nodes : nodes.

Section Ops.
Context {St : Type} `{HasNodes St}.

(** [DEBUG] is the preprocessor symbol that compiles the list validations in. *)
Variable DEBUG : bool.

Definition read_node (p : Z) : M St LIST_ENTRY :=
  n ← gets get_nodes; from_option_fault (n !! p).
Definition read_Flink (p : Z) : M St Z := e ← read_node p; mret (Flink e).
Definition read_Blink (p : Z) : M St Z := e ← read_node p; mret (Blink e).
Definition write_node (p : Z) (e : LIST_ENTRY) : M St unit :=
  modify (λ s, set_nodes (<[p := e]> (get_nodes s)) s).
Definition write_Flink (p v : Z) : M St unit :=
  e ← read_node p; write_node p (mkLE v (Blink e)).
Definition write_Blink (p v : Z) : M St unit :=
  e ← read_node p; write_node p (mkLE (Flink e) v).

(** [ASSERT(_ValidateListEntry(Entry))] under [#ifdef DEBUG]. *)
Definition _ValidateListEntry (Entry : Z) : M St bool :=
  f ← read_Flink Entry;
  fb ← read_Blink f;
  if negb (fb =? Entry) then mret false else
  b ← read_Blink Entry;
  bf ← read_Flink b;
  if negb (bf =? Entry) then mret false else
  mret true.
Definition debug_validate (Entry : Z) : M St unit :=
  if DEBUG then ok ← _ValidateListEntry Entry; ASSERT ok else mret tt.

Definition InitializeListHead (ListHead : Z) : M St unit :=
  write_Blink ListHead ListHead;;
  write_Flink ListHead ListHead.

Definition IsListEmpty (ListHead : Z) : M St bool :=
  debug_validate ListHead;;
  f ← read_Flink ListHead;
  mret (f =? ListHead).

Definition RemoveEntryList (Entry : Z) : M St bool :=
  debug_validate Entry;;
  Flink ← read_Flink Entry;
  Blink ← read_Blink Entry;
  write_Flink Blink Flink;;
  write_Blink Flink Blink;;
  mret (Flink =? Blink).

Definition RemoveHeadList (ListHead : Z) : M St Z :=
  debug_validate ListHead;;
  Entry ← read_Flink ListHead;
  Flink ← read_Flink Entry;
  write_Flink ListHead Flink;;
  write_Blink Flink ListHead;;
  mret Entry.

Definition RemoveTailList (ListHead : Z) : M St Z :=
  debug_validate ListHead;;
  Entry ← read_Blink ListHead;
  Blink ← read_Blink Entry;
  write_Blink ListHead Blink;;
  write_Flink Blink ListHead;;
  mret Entry.

Definition InsertTailList (ListHead Entry : Z) : M St unit :=
  debug_validate ListHead;;
  Blink ← read_Blink ListHead;
  write_Flink Entry ListHead;;
  write_Blink Entry Blink;;
  write_Flink Blink Entry;;
  write_Blink ListHead Entry.

Definition InsertHeadList (ListHead Entry : Z) : M St unit :=
  debug_validate ListHead;;
  Flink ← read_Flink ListHead;
  write_Flink Entry Flink;;
  write_Blink Entry ListHead;;
  write_Blink Flink Entry;;
  write_Flink ListHead Entry.

(** A compare or list function reads and updates what its [Context] points
    to; the pointee is threaded as a value. *)
Definition FUNC_CompareFunction (Ctx : Type) : Type := Z → Z → Ctx → M St (Z * Ctx).
Definition FUNC_ListFunction (Ctx : Type) : Type := Z → Ctx → M St (Z * Ctx).

Definition InsertOrderedList {Ctx} (fuel : nat) (ListHead Entry : Z)
    (CompareFunction : FUNC_CompareFunction Ctx) (Context : Ctx) : M St Ctx :=
  debug_validate ListHead;;
  first ← read_Flink ListHead;
  '(pCurrentEntry, ctx) ← loop fuel (λ '(pCurrentEntry, ctx),
      if pCurrentEntry =? ListHead then mret (inr (pCurrentEntry, ctx)) else
      '(r, ctx') ← CompareFunction Entry pCurrentEntry ctx;
      if r <? 0 then mret (inr (pCurrentEntry, ctx')) else
      next ← read_Flink pCurrentEntry;
      mret (inl (next, ctx'))) (first, Context);
  InsertTailList pCurrentEntry Entry;;
  mret ctx.

Definition GetListElemByIndex (fuel : nat) (ListHead ListIndex : Z) : M St Z :=
  if NULL =? ListHead then mret NULL else
  debug_validate ListHead;;
  first ← read_Flink ListHead;
  loop fuel (λ '(index, pCurEntry),
    if pCurEntry =? ListHead then mret (inr NULL) else
    ASSERT (negb (NULL =? pCurEntry));;
    if index =? ListIndex then mret (inr pCurEntry) else
    next ← read_Flink pCurEntry;
    mret (inl (u32 (index + 1), next))) (0, first).

Definition ListSize (fuel : nat) (ListHead : Z) : M St Z :=
  if NULL =? ListHead then mret INVALID_LIST_SIZE else
  debug_validate ListHead;;
  first ← read_Flink ListHead;
  loop fuel (λ '(count, pCurEntry),
    if pCurEntry =? ListHead then mret (inr count) else
    ASSERT (negb (NULL =? pCurEntry));;
    next ← read_Flink pCurEntry;
    mret (inl (u32 (count + 1), next))) (0, first).

Definition ForEachElementExecute {Ctx} (fuel : nat) (ListHead : Z)
    (Function : option (FUNC_ListFunction Ctx)) (Context : Ctx)
    (AllMustSucceed : bool) : M St (Z * Ctx) :=
  if NULL =? ListHead then mret (STATUS_INVALID_PARAMETER1, Context) else
  match Function with
  | None => mret (STATUS_INVALID_PARAMETER2, Context)
  | Some f =>
    debug_validate ListHead;;
    first ← read_Flink ListHead;
    loop fuel (λ '(status, ctx, pCurListEntry),
      if pCurListEntry =? ListHead then mret (inr (status, ctx)) else
      ASSERT (negb (NULL =? pCurListEntry));;
      '(status', ctx') ← f pCurListEntry ctx;
      if AllMustSucceed && negb (SUCCEEDED status') then mret (inr (status', ctx')) else
      next ← read_Flink pCurListEntry;
      mret (inl (status', ctx', next))) (STATUS_SUCCESS, Context, first)
  end.

Definition ListSearchForElement {Ctx} (fuel : nat) (ListHead ElementToSearchFor : Z)
    (IsListOrdered : bool) (CompareFunction : option (FUNC_CompareFunction Ctx))
    (Context : Ctx) : M St (Z * Ctx) :=
  if NULL =? ListHead then mret (NULL, Context) else
  if NULL =? ElementToSearchFor then mret (NULL, Context) else
  match CompareFunction with
  | None => mret (NULL, Context)
  | Some cmp =>
    debug_validate ListHead;;
    first ← read_Flink ListHead;
    loop fuel (λ '(pCurEntry, ctx),
      if pCurEntry =? ListHead then mret (inr (NULL, ctx)) else
      '(cmpResult, ctx') ← cmp pCurEntry ElementToSearchFor ctx;
      if cmpResult =? 0 then mret (inr (pCurEntry, ctx')) else
      if IsListOrdered && (0 <? cmpResult) then mret (inr (NULL, ctx')) else
      next ← read_Flink pCurEntry;
      mret (inl (next, ctx'))) (first, Context)
  end.

Definition ListIteratorInit (List : Z) : M St LIST_ITERATOR :=
  ASSERT (negb (List =? NULL));;
  f ← read_Flink List;
  mret (mkLI List f).

Definition ListIteratorNext (it : LIST_ITERATOR) : M St (Z * LIST_ITERATOR) :=
  if negb (CurrentEntry it =? ListHead it) then
    next ← read_Flink (CurrentEntry it);
    mret (CurrentEntry it, mkLI (ListHead it) next)
  else mret (NULL, it).

End Ops.

(** * The ring a head and its entries form *)
Definition flink (n : gmap Z LIST_ENTRY) (p : Z) : option Z := Flink <$> n !! p.
Definition blink (n : gmap Z LIST_ENTRY) (p : Z) : option Z := Blink <$> n !! p.

(** [chain n p xs e]: following Flink from [p] visits [xs] and then [e], and
    every Blink on the way points back. *)
Fixpoint chain (n : gmap Z LIST_ENTRY) (p : Z) (xs : list Z) (e : Z) : Prop :=
  match xs with
  | [] => flink n p = Some e ∧ blink n e = Some p
  | x :: xs' => flink n p = Some x ∧ blink n x = Some p ∧ chain n x xs' e
  end.

Definition dlist (n : gmap Z LIST_ENTRY) (hd : Z) (xs : list Z) : Prop :=
  NoDup (hd :: xs) ∧ chain n hd xs hd.

(** The neighbours of a position of the ring. *)
Definition pred_of (hd : Z) (xs : list Z) : Z := List.last xs hd.
Definition succ_of (xs : list Z) (hd : Z) : Z := List.hd hd xs.
#[global] Arguments pred_of : simpl never.

Definition upd_flink (n : gmap Z LIST_ENTRY) (p v : Z) : gmap Z LIST_ENTRY :=
  alter (λ e, mkLE v (Blink e)) p n.
Definition upd_blink (n : gmap Z LIST_ENTRY) (p v : Z) : gmap Z LIST_ENTRY :=
  alter (λ e, mkLE (Flink e) v) p n.

Lemma flink_upd_flink n p v q :
  flink (upd_flink n p v) q = if decide (p = q) then (λ _, v) <$> n !! q else flink n q.
Proof.
  unfold flink, upd_flink. destruct (decide (p = q)) as [->|Hne].
  - rewrite lookup_alter_eq. by destruct (n !! q).
  - by rewrite lookup_alter_ne.
Qed.
Lemma blink_upd_blink n p v q :
  blink (upd_blink n p v) q = if decide (p = q) then (λ _, v) <$> n !! q else blink n q.
Proof.
  unfold blink, upd_blink. destruct (decide (p = q)) as [->|Hne].
  - rewrite lookup_alter_eq. by destruct (n !! q).
  - by rewrite lookup_alter_ne.
Qed.
Lemma flink_upd_blink n p v q : flink (upd_blink n p v) q = flink n q.
Proof.
  unfold flink, upd_blink. destruct (decide (p = q)) as [->|Hne].
  - rewrite lookup_alter_eq. by destruct (n !! q).
  - by rewrite lookup_alter_ne.
Qed.
Lemma blink_upd_flink n p v q : blink (upd_flink n p v) q = blink n q.
Proof.
  unfold blink, upd_flink. destruct (decide (p = q)) as [->|Hne].
  - rewrite lookup_alter_eq. by destruct (n !! q).
  - by rewrite lookup_alter_ne.
Qed.
Lemma node_upd_flink n p v q : is_Some (upd_flink n p v !! q) ↔ is_Some (n !! q).
Proof.
  unfold upd_flink. destruct (decide (p = q)) as [->|].
  - rewrite lookup_alter_eq. by rewrite fmap_is_Some.
  - by rewrite lookup_alter_ne.
Qed.
Lemma node_upd_blink n p v q : is_Some (upd_blink n p v !! q) ↔ is_Some (n !! q).
Proof.
  unfold upd_blink. destruct (decide (p = q)) as [->|].
  - rewrite lookup_alter_eq. by rewrite fmap_is_Some.
  - by rewrite lookup_alter_ne.
Qed.
Lemma lookup_upd_flink_ne n p v q : p ≠ q → upd_flink n p v !! q = n !! q.
Proof. intros. by apply lookup_alter_ne. Qed.
Lemma lookup_upd_blink_ne n p v q : p ≠ q → upd_blink n p v !! q = n !! q.
Proof. intros. by apply lookup_alter_ne. Qed.
#[export] Hint Rewrite flink_upd_flink blink_upd_blink flink_upd_blink blink_upd_flink
  node_upd_flink node_upd_blink : nodes.

Lemma fmap_const_Some {A B} (o : option A) (v : B) : is_Some o → (λ _, v) <$> o = Some v.
Proof. by intros [a ->]. Qed.
Lemma flink_is_Some n p v : flink n p = Some v → is_Some (n !! p).
Proof. unfold flink. destruct (n !! p); naive_solver. Qed.
Lemma blink_is_Some n p v : blink n p = Some v → is_Some (n !! p).
Proof. unfold blink. destruct (n !! p); naive_solver. Qed.
#[export] Hint Resolve flink_is_Some blink_is_Some : nodes.

(** ** Chains *)
Lemma chain_app n p xs y ys e :
  chain n p (xs ++ y :: ys) e ↔ chain n p xs y ∧ chain n y ys e.
Proof. revert p. induction xs as [|x xs IH]; intros p; simpl; [tauto|]. rewrite IH. tauto. Qed.

Lemma pred_of_cons hd x xs : pred_of hd (x :: xs) = pred_of x xs.
Proof.
  unfold pred_of. revert hd x. induction xs as [|y ys IH]; intros hd x; [done|].
  change (List.last (y :: ys) hd = List.last (y :: ys) x). by rewrite !IH.
Qed.
Lemma pred_of_snoc hd xs x : pred_of hd (xs ++ [x]) = x.
Proof. unfold pred_of. apply List.last_last. Qed.
Lemma pred_of_app_cons hd xs x ys : pred_of hd (xs ++ x :: ys) = pred_of x ys.
Proof.
  revert hd. induction xs as [|y xs IH]; intros hd; simpl; [apply pred_of_cons|].
  rewrite pred_of_cons. apply IH.
Qed.
Lemma pred_of_elem hd xs : pred_of hd xs ∈ hd :: xs.
Proof.
  revert hd. induction xs as [|x xs IH]; intros hd; [by left|].
  rewrite pred_of_cons. right. apply IH.
Qed.
Lemma succ_of_elem hd xs : succ_of xs hd ∈ hd :: xs.
Proof. destruct xs; simpl; [by left|right; by left]. Qed.

Lemma chain_last n p xs e : chain n p xs e → flink n (pred_of p xs) = Some e.
Proof.
  revert p. induction xs as [|x xs IH]; intros p; simpl; [naive_solver|].
  intros (_ & _ & Hc). rewrite pred_of_cons. by apply IH.
Qed.
Lemma chain_end n p xs e : chain n p xs e → blink n e = Some (pred_of p xs).
Proof.
  revert p. induction xs as [|x xs IH]; intros p; simpl; [naive_solver|].
  intros (_ & _ & Hc). rewrite pred_of_cons. by apply IH.
Qed.
Lemma chain_first n p xs e : chain n p xs e → flink n p = Some (succ_of xs e).
Proof. destruct xs; naive_solver. Qed.
Lemma chain_begin n p xs e : chain n p xs e → blink n (succ_of xs e) = Some p.
Proof. destruct xs; naive_solver. Qed.

(** A chain only depends on the Flinks of [p :: xs] and the Blinks of
    [xs ++ [e]]. *)
Lemma chain_frame n n' p xs e :
  chain n p xs e →
  (∀ q, q ∈ p :: xs → flink n' q = flink n q) →
  (∀ q, q ∈ e :: xs → blink n' q = blink n q) →
  chain n' p xs e.
Proof.
  revert p. induction xs as [|x xs IH]; intros p; simpl.
  - intros [H1 H2] Hf Hb. rewrite Hf, Hb; set_solver.
  - intros (H1 & H2 & Hc) Hf Hb. rewrite Hf, Hb by set_solver. split_and!; [done..|].
    apply IH; [done|intros; apply Hf; set_solver|intros; apply Hb; set_solver].
Qed.

(** Redirecting the last link of a chain. *)
Lemma chain_redirect n n' p xs e e' :
  NoDup (p :: xs) →
  chain n p xs e →
  (∀ q, q ∈ p :: xs → q ≠ pred_of p xs → flink n' q = flink n q) →
  (∀ q, q ∈ xs → blink n' q = blink n q) →
  flink n' (pred_of p xs) = Some e' →
  blink n' e' = Some (pred_of p xs) →
  chain n' p xs e'.
Proof.
  revert p. induction xs as [|x xs IH]; intros p Hnd; simpl; [done|].
  rewrite pred_of_cons. apply NoDup_cons in Hnd as [Hp Hnd].
  intros (H1 & H2 & Hc) Hf Hb Hl He'.
  assert (p ≠ pred_of x xs) by (pose proof (pred_of_elem x xs); set_solver).
  rewrite Hf, Hb by set_solver. split_and!; [done..|].
  apply IH; [done|done|intros; apply Hf; set_solver|intros; apply Hb; set_solver|done|done].
Qed.

(** Redirecting the first link of a chain. *)
Lemma chain_restart n n' p p' xs e :
  p ∉ xs → p' ∉ xs → e ∉ xs → NoDup xs →
  chain n p xs e →
  (∀ q, q ∈ xs → flink n' q = flink n q) →
  (∀ q, q ∈ e :: xs → q ≠ succ_of xs e → blink n' q = blink n q) →
  flink n' p' = Some (succ_of xs e) →
  blink n' (succ_of xs e) = Some p' →
  chain n' p' xs e.
Proof.
  destruct xs as [|x xs]; simpl; [done|].
  intros Hp Hp' He Hnd (H1 & H2 & Hc) Hf Hb H3 H4. split_and!; [done..|].
  apply NoDup_cons in Hnd as [Hx Hnd].
  apply (chain_frame n); [done|intros; apply Hf; set_solver|].
  intros q Hq. apply Hb; [set_solver|]. set_solver.
Qed.

(** [set_solver] without the frame hypotheses, which it would instantiate. *)
Ltac ring_solver :=
  repeat match goal with
  | H : ∀ q, q ∈ _ → _ → _ = _ |- _ => clear H
  | H : ∀ q, q ∈ _ → _ = _ |- _ => clear H
  | H : chain _ _ _ _ |- _ => clear H
  | H : flink _ _ = _ |- _ => clear H
  | H : blink _ _ = _ |- _ => clear H
  end; set_solver.

(** ** The two structural edits every operation of list.c makes *)
Lemma ring_disjoint hd (l1 l2 : list Z) q :
  hd ∉ l1 ++ l2 → (∀ x, x ∈ l1 → x ∉ l2) → q ∈ hd :: l1 → q ∈ l2 → False.
Proof. rewrite elem_of_cons, elem_of_app. naive_solver. Qed.

Lemma dlist_insert n n' hd l1 x l2 :
  dlist n hd (l1 ++ l2) →
  x ∉ hd :: l1 ++ l2 →
  flink n' (pred_of hd l1) = Some x → blink n' x = Some (pred_of hd l1) →
  flink n' x = Some (succ_of l2 hd) → blink n' (succ_of l2 hd) = Some x →
  (∀ q, q ∈ hd :: l1 ++ l2 → q ≠ pred_of hd l1 → flink n' q = flink n q) →
  (∀ q, q ∈ hd :: l1 ++ l2 → q ≠ succ_of l2 hd → blink n' q = blink n q) →
  dlist n' hd (l1 ++ x :: l2).
Proof.
  intros [Hnd Hc] Hx F1 B1 F2 B2 Hf Hb. split.
  { apply NoDup_cons in Hnd as [H1 H2]. apply NoDup_app in H2 as (H2 & H3 & H4).
    apply NoDup_cons. split; [ring_solver|]. apply NoDup_app.
    split_and!; [done|ring_solver|]. apply NoDup_cons. split; [ring_solver|done]. }
  apply NoDup_cons in Hnd as [Hhd Hnd]. apply NoDup_app in Hnd as (Hn1 & Hd & Hn2).
  apply chain_app.
  assert (Hp : pred_of hd l1 ∈ hd :: l1) by apply pred_of_elem.
  assert (Hs : succ_of l2 hd ∈ hd :: l2) by apply succ_of_elem.
  destruct l2 as [|y l2].
  - rewrite app_nil_r in *. simpl in *. split; [|done].
    apply (chain_redirect n _ _ _ hd); try done.
    + apply NoDup_cons. ring_solver.
    + intros q Hq. apply Hb; ring_solver.
  - apply chain_app in Hc as [Hc1 Hc2]. simpl in Hs, F2, B2. split.
    + apply (chain_redirect n _ _ _ y); try done.
      * apply NoDup_cons. ring_solver.
      * intros q Hq Hne. apply Hf; [ring_solver|done].
      * intros q Hq. apply Hb; ring_solver.
    + simpl. split_and!; [done|done|]. apply (chain_frame n); [done| |].
      * intros q Hq. apply Hf; [ring_solver|]. intros ->.
        by apply (ring_disjoint hd l1 (y :: l2) (pred_of hd l1)).
      * intros q Hq. apply Hb; [ring_solver|]. apply NoDup_cons in Hn2 as [? ?].
        ring_solver.
Qed.

Lemma dlist_remove n n' hd l1 x l2 :
  dlist n hd (l1 ++ x :: l2) →
  flink n' (pred_of hd l1) = Some (succ_of l2 hd) →
  blink n' (succ_of l2 hd) = Some (pred_of hd l1) →
  (∀ q, q ∈ hd :: l1 ++ l2 → q ≠ pred_of hd l1 → flink n' q = flink n q) →
  (∀ q, q ∈ hd :: l1 ++ l2 → q ≠ succ_of l2 hd → blink n' q = blink n q) →
  dlist n' hd (l1 ++ l2).
Proof.
  intros [Hnd Hc] F1 B1 Hf Hb.
  assert (NoDup (hd :: l1 ++ l2)) as Hnd'.
  { apply NoDup_cons in Hnd as [H1 H2]. apply NoDup_app in H2 as (H2 & H3 & H4).
    apply NoDup_cons in H4 as [H4 H5]. apply NoDup_cons. split; [ring_solver|].
    apply NoDup_app. split_and!; [done|ring_solver|done]. }
  split; [done|]. apply NoDup_cons in Hnd' as [Hhd Hnd']. apply NoDup_app in Hnd' as (Hn1 & Hd & Hn2).
  assert (Hp : pred_of hd l1 ∈ hd :: l1) by apply pred_of_elem.
  assert (Hs : succ_of l2 hd ∈ hd :: l2) by apply succ_of_elem.
  apply chain_app in Hc as [Hc1 Hc2].
  destruct l2 as [|y l2].
  - rewrite app_nil_r in *. simpl in *.
    apply (chain_redirect n _ _ _ x); try done.
    + apply NoDup_cons. ring_solver.
    + intros q Hq. apply Hb; ring_solver.
  - simpl in Hs, F1, B1. apply chain_app. simpl in Hc2. destruct Hc2 as (_ & _ & Hc2). split.
    + apply (chain_redirect n _ _ _ x); try done.
      * apply NoDup_cons. ring_solver.
      * intros q Hq Hne. apply Hf; [ring_solver|done].
      * intros q Hq. apply Hb; ring_solver.
    + apply (chain_frame n); [done| |].
      * intros q Hq. apply Hf; [ring_solver|]. intros ->.
        by apply (ring_disjoint hd l1 (y :: l2) (pred_of hd l1)).
      * intros q Hq. apply Hb; [ring_solver|]. apply NoDup_cons in Hn2 as [? ?]. ring_solver.
Qed.

Lemma dlist_remove_last n n' hd l1 x :
  dlist n hd (l1 ++ [x]) →
  flink n' (pred_of hd l1) = Some hd →
  blink n' hd = Some (pred_of hd l1) →
  (∀ q, q ∈ hd :: l1 → q ≠ pred_of hd l1 → flink n' q = flink n q) →
  (∀ q, q ∈ hd :: l1 → q ≠ hd → blink n' q = blink n q) →
  dlist n' hd l1.
Proof.
  pose proof (dlist_remove n n' hd l1 x []) as Hr. rewrite app_nil_r in Hr. exact Hr.
Qed.

(** Every node of the ring validates. *)
Lemma dlist_split_node n hd xs p :
  dlist n hd xs → p ∈ hd :: xs →
  ∃ f b, flink n p = Some f ∧ blink n p = Some b ∧ blink n f = Some p ∧ flink n b = Some p
    ∧ f ∈ hd :: xs ∧ b ∈ hd :: xs.
Proof.
  intros [Hnd Hc] Hp. apply list_elem_of_split in Hp as (l1 & l2 & Heq).
  destruct l1 as [|h l1]; simplify_eq/=.
  - exists (succ_of l2 p), (pred_of p l2).
    rewrite (chain_first _ _ _ _ Hc), (chain_end _ _ _ _ Hc), (chain_begin _ _ _ _ Hc),
      (chain_last _ _ _ _ Hc).
    pose proof (pred_of_elem p l2). pose proof (succ_of_elem p l2). done.
  - apply chain_app in Hc as [Hc1 Hc2].
    exists (succ_of l2 h), (pred_of h l1).
    rewrite (chain_first _ _ _ _ Hc2), (chain_end _ _ _ _ Hc1), (chain_begin _ _ _ _ Hc2),
      (chain_last _ _ _ _ Hc1).
    pose proof (pred_of_elem h l1). pose proof (succ_of_elem h l2). ring_solver.
Qed.

(** * Runs of the operations on a well-formed ring *)
(** Only the nodes of [X] change, and no node appears or disappears. *)
Definition nodes_frame (X : list Z) (n n' : gmap Z LIST_ENTRY) : Prop :=
  (∀ q, q ∉ X → n' !! q = n !! q) ∧ (∀ q, is_Some (n' !! q) ↔ is_Some (n !! q)).

#[export] Instance nodes_frame_refl X : Reflexive (nodes_frame X).
Proof. by split. Qed.
Lemma nodes_frame_id X n : nodes_frame X n n.
Proof. by split. Qed.
#[export] Instance nodes_frame_trans X : Transitive (nodes_frame X).
Proof.
  intros n1 n2 n3 [H1 H2] [H3 H4]. split.
  - intros q Hq. by rewrite H3, H1.
  - intros q. by rewrite H4, H2.
Qed.
Lemma nodes_frame_upd_flink X n n' p v :
  nodes_frame X n n' → p ∈ X → nodes_frame X n (upd_flink n' p v).
Proof.
  intros [H1 H2] Hp. split.
  - intros q Hq. rewrite lookup_upd_flink_ne; [by apply H1|]. intros ->. done.
  - intros q. by rewrite node_upd_flink.
Qed.
Lemma nodes_frame_upd_blink X n n' p v :
  nodes_frame X n n' → p ∈ X → nodes_frame X n (upd_blink n' p v).
Proof.
  intros [H1 H2] Hp. split.
  - intros q Hq. rewrite lookup_upd_blink_ne; [by apply H1|]. intros ->. done.
  - intros q. by rewrite node_upd_blink.
Qed.
Lemma nodes_frame_weaken X Y n n' :
  nodes_frame X n n' → (∀ q, q ∈ X → q ∈ Y) → nodes_frame Y n n'.
Proof. intros [H1 H2] HXY. split; [|done]. intros q Hq. apply H1. naive_solver. Qed.
#[export] Hint Resolve nodes_frame_upd_flink nodes_frame_upd_blink nodes_frame_id : nodes.

(** A ring outside the changed nodes is unaffected. *)
Lemma dlist_frame X n n' hd xs :
  nodes_frame X n n' → dlist n hd xs → (∀ q, q ∈ hd :: xs → q ∉ X) → dlist n' hd xs.
Proof.
  intros [HX _] [Hnd Hc] Hdisj. split; [done|].
  apply (chain_frame n); [done| |]; intros q Hq; unfold flink, blink; rewrite HX; auto.
Qed.

Lemma dlist_nodes n hd xs p : dlist n hd xs → p ∈ hd :: xs → is_Some (n !! p).
Proof. intros H1 H2. destruct (dlist_split_node _ _ _ _ H1 H2) as (f & b & Hf & _). eauto with nodes. Qed.

Lemma dlist_hd_notin n hd xs : dlist n hd xs → (hd ∉ xs) ∧ NoDup xs.
Proof. intros [H _]. by apply NoDup_cons in H. Qed.

Lemma dlist_unique n hd xs ys : dlist n hd xs → dlist n hd ys → xs = ys.
Proof.
  intros [Hn1 H1] [Hn2 H2]. revert H1 H2.
  apply NoDup_cons in Hn1 as [Hn1 _]. apply NoDup_cons in Hn2 as [Hn2 _].
  enough (∀ p, chain n p xs hd → chain n p ys hd → xs = ys) by eauto.
  revert ys Hn2. induction xs as [|x xs IH]; intros [|y ys] Hn2 p; simpl; [done| | |].
  - intros [H1 _] (H2 & _). simplify_eq. set_solver.
  - intros (H1 & _) [H2 _]. simplify_eq. set_solver.
  - intros (H1 & _ & Hx) (H2 & _ & Hy). simplify_eq. f_equal.
    eapply IH; [..|done|done]; set_solver.
Qed.

Section Specs.
Context {St : Type} `{HasNodes St}.
Variable DEBUG : bool.
Implicit Types (s : St) (hd x p : Z) (xs : list Z).

Lemma read_Flink_ok s p v : flink (get_nodes s) p = Some v → read_Flink p s = Ret (v, s).
Proof.
  unfold flink, read_Flink, read_node. intros Hf. munfold.
  destruct (get_nodes s !! p); by simplify_eq/=.
Qed.
Lemma read_Blink_ok s p v : blink (get_nodes s) p = Some v → read_Blink p s = Ret (v, s).
Proof.
  unfold blink, read_Blink, read_node. intros Hf. munfold.
  destruct (get_nodes s !! p); by simplify_eq/=.
Qed.
Lemma write_Flink_ok s p v :
  is_Some (get_nodes s !! p) →
  write_Flink p v s = Ret (tt, set_nodes (upd_flink (get_nodes s) p v) s).
Proof.
  intros [e He]. unfold write_Flink, read_node, write_node, upd_flink. munfold. rewrite He.
  f_equal. f_equal. f_equal. apply map_eq. intros q. destruct (decide (p = q)) as [->|].
  - by rewrite lookup_insert_eq, lookup_alter_eq, He.
  - by rewrite lookup_insert_ne, lookup_alter_ne.
Qed.
Lemma write_Blink_ok s p v :
  is_Some (get_nodes s !! p) →
  write_Blink p v s = Ret (tt, set_nodes (upd_blink (get_nodes s) p v) s).
Proof.
  intros [e He]. unfold write_Blink, read_node, write_node, upd_blink. munfold. rewrite He.
  f_equal. f_equal. f_equal. apply map_eq. intros q. destruct (decide (p = q)) as [->|].
  - by rewrite lookup_insert_eq, lookup_alter_eq, He.
  - by rewrite lookup_insert_ne, lookup_alter_ne.
Qed.

Lemma debug_validate_ok s hd xs p :
  dlist (get_nodes s) hd xs → p ∈ hd :: xs → debug_validate DEBUG p s = Ret (tt, s).
Proof.
  intros Hd Hp. unfold debug_validate. destruct DEBUG; [|done].
  destruct (dlist_split_node _ _ _ _ Hd Hp) as (f & b & Hf & Hb & Hfb & Hbf & _).
  unfold _ValidateListEntry. munfold.
  rewrite (read_Flink_ok _ _ _ Hf), (read_Blink_ok _ _ _ Hfb). rewrite Z.eqb_refl. simpl.
  rewrite (read_Blink_ok _ _ _ Hb), (read_Flink_ok _ _ _ Hbf), Z.eqb_refl. done.
Qed.

(** The links at a position of the ring. *)
Lemma dlist_flink_pred n hd l1 l2 :
  dlist n hd (l1 ++ l2) → flink n (pred_of hd l1) = Some (succ_of l2 hd).
Proof.
  intros [_ Hc]. destruct l2 as [|y l2].
  - rewrite app_nil_r in Hc. by apply chain_last in Hc.
  - apply chain_app in Hc as [Hc _]. by apply chain_last in Hc.
Qed.
Lemma dlist_blink_succ n hd l1 l2 :
  dlist n hd (l1 ++ l2) → blink n (succ_of l2 hd) = Some (pred_of hd l1).
Proof.
  intros [_ Hc]. destruct l2 as [|y l2].
  - rewrite app_nil_r in Hc. by apply chain_end in Hc.
  - apply chain_app in Hc as [Hc _]. by apply chain_end in Hc.
Qed.
Lemma pred_in_ring hd l1 l2 : pred_of hd l1 ∈ hd :: l1 ++ l2.
Proof. pose proof (pred_of_elem hd l1). set_solver. Qed.
Lemma succ_in_ring hd l1 l2 : succ_of l2 hd ∈ hd :: l1 ++ l2.
Proof. pose proof (succ_of_elem hd l2). set_solver. Qed.
End Specs.

#[export] Hint Resolve read_Flink_ok read_Blink_ok write_Flink_ok write_Blink_ok
  debug_validate_ok dlist_flink_pred dlist_blink_succ pred_in_ring succ_in_ring : nodes.

(** Run the next statement of a list operation. *)
Ltac node_known :=
  autorewrite with nodes; eauto using dlist_nodes with nodes.
Ltac lstep := erewrite bind_Ret; [|solve [
   eapply read_Flink_ok; node_known
 | eapply read_Blink_ok; node_known
 | eapply write_Flink_ok; node_known
 | eapply write_Blink_ok; node_known
 | eapply debug_validate_ok; node_known ]]; cbn beta iota.
Ltac links :=
  autorewrite with nodes; repeat case_decide; simplify_eq;
  first [ apply fmap_const_Some; node_known | congruence | eauto with nodes ].

Section OpSpecs.
Context {St : Type} `{HasNodes St}.
Variable DEBUG : bool.

Lemma dlist_member n hd l1 x l2 :
  dlist n hd (l1 ++ x :: l2) →
  flink n x = Some (succ_of l2 hd) ∧ blink n x = Some (pred_of hd l1).
Proof.
  intros Hd. split.
  - replace x with (pred_of hd (l1 ++ [x])) at 1 by apply pred_of_snoc.
    apply dlist_flink_pred. by rewrite <-app_assoc.
  - by apply (dlist_blink_succ _ _ l1 (x :: l2)).
Qed.

(** The neighbours of an entry [x] of a ring. *)
Lemma ring_neighbours n hd l1 x l2 :
  dlist n hd (l1 ++ x :: l2) →
  is_Some (n !! pred_of hd l1) ∧ is_Some (n !! succ_of l2 hd)
  ∧ (succ_of l2 hd = pred_of hd l1 ↔ l1 ++ l2 = [])
  ∧ x ≠ pred_of hd l1 ∧ x ≠ succ_of l2 hd.
Proof.
  intros Hd.
  assert (Hp : pred_of hd l1 ∈ hd :: l1) by apply pred_of_elem.
  assert (Hs : succ_of l2 hd ∈ hd :: l2) by apply succ_of_elem.
  assert (Hnd := Hd). apply dlist_hd_notin in Hnd as [Hhd Hnd].
  rewrite elem_of_app, elem_of_cons in Hhd.
  apply NoDup_app in Hnd as (Hn1 & Hdis & Hn2). apply NoDup_cons in Hn2 as [Hx Hn2].
  setoid_rewrite elem_of_cons in Hdis. rewrite elem_of_cons in Hp, Hs.
  split_and!.
  - apply (dlist_nodes _ _ _ _ Hd). rewrite elem_of_cons, elem_of_app. naive_solver.
  - apply (dlist_nodes _ _ _ _ Hd). rewrite elem_of_cons, elem_of_app, elem_of_cons. naive_solver.
  - split; [|by destruct l1, l2]. intros Heq.
    destruct l2 as [|y l2]; simpl in *.
    + destruct l1 as [|z l1]; [done|]. rewrite pred_of_cons in Heq.
      pose proof (pred_of_elem z l1). naive_solver.
    + rewrite elem_of_cons in Hhd. setoid_rewrite elem_of_cons in Hdis. naive_solver.
  - naive_solver.
  - naive_solver.
Qed.

Lemma RemoveEntryList_run (s : St) hd l1 x l2 :
  dlist (get_nodes s) hd (l1 ++ x :: l2) →
  ∃ n', RemoveEntryList DEBUG x s = Ret (bool_decide (l1 ++ l2 = []), set_nodes n' s)
    ∧ dlist n' hd (l1 ++ l2)
    ∧ nodes_frame (hd :: l1 ++ l2) (get_nodes s) n'.
Proof.
  intros Hd. destruct (dlist_member _ _ _ _ _ Hd) as [Hf Hb].
  assert (Hin : x ∈ hd :: l1 ++ x :: l2) by set_solver.
  destruct (ring_neighbours _ _ _ _ _ Hd) as (Hp & Hs & Hsp & _).
  eexists. split_and!.
  - unfold RemoveEntryList.
    do 5 lstep. autorewrite with nodes. unfold mret, M_ret. f_equal. f_equal.
    apply eq_bool_prop_intro. by rewrite Is_true_true, Z.eqb_eq, bool_decide_spec.
  - autorewrite with nodes. eapply dlist_remove; [done|..];
      [links|links|intros q Hq Hne; links..].
  - autorewrite with nodes. eauto with nodes.
Qed.

Lemma insert_frame hd l1 x l2 n n' :
  nodes_frame (x :: hd :: l1 ++ l2) n n' → nodes_frame (hd :: l1 ++ x :: l2) n n'.
Proof.
  intros Hf. apply (nodes_frame_weaken _ _ _ _ Hf). intros q.
  rewrite !elem_of_cons, !elem_of_app, elem_of_cons. tauto.
Qed.

Lemma InsertTailList_run (s : St) hd l1 x l2 :
  dlist (get_nodes s) hd (l1 ++ l2) → x ∉ hd :: l1 ++ l2 → is_Some (get_nodes s !! x) →
  ∃ n', InsertTailList DEBUG (succ_of l2 hd) x s = Ret (tt, set_nodes n' s)
    ∧ dlist n' hd (l1 ++ x :: l2)
    ∧ nodes_frame (hd :: l1 ++ x :: l2) (get_nodes s) n'.
Proof.
  intros Hd Hx Hxs. set (p := pred_of hd l1). set (e := succ_of l2 hd).
  assert (Hp : p ∈ hd :: l1 ++ l2) by apply pred_in_ring.
  assert (He : e ∈ hd :: l1 ++ l2) by apply succ_in_ring.
  assert (p ≠ x) by congruence. assert (e ≠ x) by congruence.
  pose proof (dlist_blink_succ _ _ _ _ Hd) as Hb. fold p e in Hb.
  pose proof (dlist_nodes _ _ _ _ Hd Hp). pose proof (dlist_nodes _ _ _ _ Hd He).
  eexists. split_and!.
  - unfold InsertTailList. do 5 lstep. erewrite write_Blink_ok by node_known.
    autorewrite with nodes. done.
  - eapply dlist_insert; [done|done|fold p e..];
      [links|links|links|links|intros q Hq Hne; assert (q ≠ x) by congruence; links..].
  - by apply insert_frame; repeat first
      [apply nodes_frame_upd_blink | apply nodes_frame_upd_flink | apply nodes_frame_id];
      rewrite elem_of_cons; auto.
Qed.

Lemma InsertHeadList_run (s : St) hd l1 x l2 :
  dlist (get_nodes s) hd (l1 ++ l2) → x ∉ hd :: l1 ++ l2 → is_Some (get_nodes s !! x) →
  ∃ n', InsertHeadList DEBUG (pred_of hd l1) x s = Ret (tt, set_nodes n' s)
    ∧ dlist n' hd (l1 ++ x :: l2)
    ∧ nodes_frame (hd :: l1 ++ x :: l2) (get_nodes s) n'.
Proof.
  intros Hd Hx Hxs. set (p := pred_of hd l1). set (e := succ_of l2 hd).
  assert (Hp : p ∈ hd :: l1 ++ l2) by apply pred_in_ring.
  assert (He : e ∈ hd :: l1 ++ l2) by apply succ_in_ring.
  assert (p ≠ x) by congruence. assert (e ≠ x) by congruence.
  pose proof (dlist_flink_pred _ _ _ _ Hd) as Hf. fold p e in Hf.
  pose proof (dlist_nodes _ _ _ _ Hd Hp). pose proof (dlist_nodes _ _ _ _ Hd He).
  eexists. split_and!.
  - unfold InsertHeadList. do 5 lstep. erewrite write_Flink_ok by node_known.
    autorewrite with nodes. done.
  - eapply dlist_insert; [done|done|fold p e..];
      [links|links|links|links|intros q Hq Hne; assert (q ≠ x) by congruence; links..].
  - by apply insert_frame; repeat first
      [apply nodes_frame_upd_blink | apply nodes_frame_upd_flink | apply nodes_frame_id];
      rewrite elem_of_cons; auto.
Qed.

Lemma RemoveHeadList_run (s : St) hd xs :
  dlist (get_nodes s) hd xs →
  ∃ n', RemoveHeadList DEBUG hd s = Ret (succ_of xs hd, set_nodes n' s)
    ∧ dlist n' hd (tail xs) ∧ nodes_frame (hd :: xs) (get_nodes s) n'.
Proof.
  intros Hd. assert (Hin : hd ∈ hd :: xs) by by left.
  pose proof (dlist_nodes _ _ _ _ Hd Hin).
  destruct xs as [|x xs]; simpl.
  - destruct (Hd) as [_ [Hf Hb]]. eexists. split_and!.
    + unfold RemoveHeadList. do 5 lstep. autorewrite with nodes. done.
    + split; [apply NoDup_singleton|]. split; links.
    + eauto with nodes.
  - pose proof (dlist_flink_pred _ _ [] (x :: xs) Hd) as Hf. simpl in Hf.
    destruct (dlist_member _ _ [] _ _ Hd) as [Hfx Hbx].
    destruct (ring_neighbours _ _ [] _ _ Hd) as (Hp & Hs & _ & Hx1 & Hx2).
    eexists. split_and!.
    + unfold RemoveHeadList. do 5 lstep. autorewrite with nodes. done.
    + eapply (dlist_remove _ _ _ []); [done|..];
        [links|links|intros q Hq Hne; links..].
    + repeat first
      [apply nodes_frame_upd_blink | apply nodes_frame_upd_flink | apply nodes_frame_id];
      [by left|]. pose proof (succ_of_elem hd xs). rewrite !elem_of_cons in *. tauto.
Qed.

Lemma RemoveTailList_run (s : St) hd xs :
  dlist (get_nodes s) hd xs →
  ∃ n', RemoveTailList DEBUG hd s = Ret (pred_of hd xs, set_nodes n' s)
    ∧ dlist n' hd (removelast xs) ∧ nodes_frame (hd :: xs) (get_nodes s) n'.
Proof.
  intros Hd. assert (Hin : hd ∈ hd :: xs) by by left.
  pose proof (dlist_nodes _ _ _ _ Hd Hin).
  destruct xs as [|x xs _] using rev_ind; simpl.
  - destruct (Hd) as [_ [Hf Hb]]. eexists. split_and!.
    + unfold RemoveTailList. do 5 lstep. autorewrite with nodes. done.
    + split; [apply NoDup_singleton|]. split; links.
    + eauto with nodes.
  - rewrite pred_of_snoc, List.removelast_last.
    pose proof (dlist_blink_succ (get_nodes s) hd (xs ++ [x]) []) as Hb. simpl in Hb.
    rewrite app_nil_r, pred_of_snoc in Hb. specialize (Hb Hd).
    destruct (dlist_member _ _ xs x [] Hd) as [Hfx Hbx].
    destruct (ring_neighbours _ _ xs x [] Hd) as (Hp & Hs & _ & Hx1 & Hx2).
    eexists. split_and!.
    + unfold RemoveTailList. do 5 lstep. autorewrite with nodes. done.
    + eapply dlist_remove_last; [done|..];
        [links|links|intros q Hq Hne; links..].
    + repeat first
      [apply nodes_frame_upd_blink | apply nodes_frame_upd_flink | apply nodes_frame_id];
      [by left|]. pose proof (pred_of_elem hd xs).
      rewrite !elem_of_cons, !elem_of_app in *. tauto.
Qed.

Lemma InitializeListHead_run (s : St) hd :
  is_Some (get_nodes s !! hd) →
  ∃ n', InitializeListHead hd s = Ret (tt, set_nodes n' s)
    ∧ dlist n' hd [] ∧ nodes_frame [hd] (get_nodes s) n'.
Proof.
  intros Hd. eexists. split_and!.
  - unfold InitializeListHead. lstep. erewrite write_Flink_ok by node_known.
    autorewrite with nodes. done.
  - split; [apply NoDup_singleton|]. split; links.
  - repeat first
      [apply nodes_frame_upd_blink | apply nodes_frame_upd_flink | apply nodes_frame_id]; by left.
Qed.

Lemma IsListEmpty_run (s : St) hd xs :
  dlist (get_nodes s) hd xs → IsListEmpty DEBUG hd s = Ret (bool_decide (xs = []), s).
Proof.
  intros Hd. assert (Hin : hd ∈ hd :: xs) by by left.
  pose proof (dlist_flink_pred _ _ [] xs Hd) as Hf. simpl in Hf.
  unfold IsListEmpty. do 2 lstep. unfold mret, M_ret. f_equal. f_equal.
  destruct xs as [|x xs]; simpl; [by rewrite Z.eqb_refl|].
  apply Z.eqb_neq. intros ->. apply dlist_hd_notin in Hd as [Hd _]. set_solver.
Qed.
End OpSpecs.

(** * Walks along a ring *)
(** The pure functions the walking operations compute from the list of
    entries. [cmp] and [act] stand for the caller's callback. *)
Fixpoint ordered_split {Ctx} (cmp : Z → Ctx → Z * Ctx) (xs : list Z) (ctx : Ctx)
    : list Z * list Z * Ctx :=
  match xs with
  | [] => ([], [], ctx)
  | x :: xs' =>
      let '(r, ctx') := cmp x ctx in
      if r <? 0 then ([], xs, ctx')
      else let '(l1, l2, c) := ordered_split cmp xs' ctx' in (x :: l1, l2, c)
  end.

Fixpoint search_list {Ctx} (cmp : Z → Ctx → Z * Ctx) (ordered : bool) (xs : list Z)
    (ctx : Ctx) : Z * Ctx :=
  match xs with
  | [] => (NULL, ctx)
  | x :: xs' =>
      let '(r, ctx') := cmp x ctx in
      if r =? 0 then (x, ctx')
      else if ordered && (0 <? r) then (NULL, ctx')
      else search_list cmp ordered xs' ctx'
  end.

Fixpoint for_each_list {Ctx} (act : Z → Ctx → Z * Ctx) (all : bool) (xs : list Z)
    (status : Z) (ctx : Ctx) : Z * Ctx :=
  match xs with
  | [] => (status, ctx)
  | x :: xs' =>
      let '(st, ctx') := act x ctx in
      if all && negb (SUCCEEDED st) then (st, ctx') else for_each_list act all xs' st ctx'
  end.

Lemma ordered_split_app {Ctx} (cmp : Z → Ctx → Z * Ctx) xs ctx l1 l2 c :
  ordered_split cmp xs ctx = (l1, l2, c) → xs = l1 ++ l2.
Proof.
  revert ctx l1 l2 c. induction xs as [|x xs IH]; intros ctx l1 l2 c; simpl; [naive_solver|].
  destruct (cmp x ctx) as [r ctx']. destruct (r <? 0); [naive_solver|].
  destruct (ordered_split cmp xs ctx') as [[a b] c'] eqn:E. intros ?; simplify_eq/=.
  f_equal. by eapply IH.
Qed.

Section Walks.
Context {St : Type} `{HasNodes St}.
Variable DEBUG : bool.

Lemma read_first (s : St) hd xs :
  dlist (get_nodes s) hd xs → read_Flink hd s = Ret (succ_of xs hd, s).
Proof. intros Hd. apply read_Flink_ok. by apply (dlist_flink_pred _ _ []). Qed.
Lemma read_next (s : St) hd l1 x l2 :
  dlist (get_nodes s) hd (l1 ++ x :: l2) → read_Flink x s = Ret (succ_of l2 hd, s).
Proof. intros Hd. apply read_Flink_ok. by apply (dlist_member _ _ l1). Qed.
Lemma member_not_head (s : St) hd l1 x l2 :
  dlist (get_nodes s) hd (l1 ++ x :: l2) → (x =? hd) = false.
Proof.
  intros [Hd _]%dlist_hd_notin. apply Z.eqb_neq. intros ->. set_solver.
Qed.
Lemma head_in_ring hd (xs : list Z) : hd ∈ hd :: xs.
Proof. by left. Qed.
Lemma debug_validate_head (s : St) hd xs :
  dlist (get_nodes s) hd xs → debug_validate DEBUG hd s = Ret (tt, s).
Proof. intros Hd. eapply debug_validate_ok; [done|]. apply head_in_ring. Qed.

Lemma assert_member (l1 : list Z) x l2 (s : St) :
  NULL ∉ l1 ++ x :: l2 → ASSERT (negb (NULL =? x)) s = Ret (tt, s).
Proof. intros Hx. apply ASSERT_true, negb_true_iff, Z.eqb_neq. intros <-. set_solver. Qed.

Lemma ListSize_run (s : St) fuel hd xs :
  dlist (get_nodes s) hd xs → NULL ∉ hd :: xs → (length xs < fuel)%nat →
  ListSize DEBUG fuel hd s = Ret (u32 (Z.of_nat (length xs)), s).
Proof.
  intros Hd H0 Hfuel. apply not_elem_of_cons in H0 as [Hhd Hxs].
  unfold ListSize. rewrite (proj2 (Z.eqb_neq NULL hd)) by done.
  mrun (debug_validate_head _ _ _ Hd). mrun (read_first _ _ _ Hd).
  enough (∀ l1 l2 f c, xs = l1 ++ l2 → (length l2 < f)%nat →
    loop f (λ '(count, pCurEntry),
      if pCurEntry =? hd then mret (inr count) else
      ASSERT (negb (NULL =? pCurEntry));;
      next ← read_Flink pCurEntry;
      mret (inl (u32 (count + 1), next))) (u32 c, succ_of l2 hd) s
    = Ret (u32 (c + Z.of_nat (length l2)), s)) as Hgen.
  { by apply (Hgen [] xs fuel 0). }
  intros l1 l2. revert l1. induction l2 as [|x l2 IH]; intros l1 f c -> Hf;
    destruct f as [|f]; simpl in Hf; try lia.
  - erewrite loop_break; [|simpl; by rewrite Z.eqb_refl]. by rewrite Z.add_0_r.
  - erewrite loop_continue.
    + rewrite (IH (l1 ++ [x]) f (c + 1)); [|by rewrite <-app_assoc|lia].
      f_equal. f_equal. f_equal. simpl. lia.
    + simpl. rewrite (member_not_head _ _ _ _ _ Hd).
      mrun (assert_member _ _ _ s Hxs).
      mrun (read_next _ _ _ _ _ Hd). unfold mret, M_ret. do 4 f_equal.
      unfold u32. by rewrite Zplus_mod_idemp_l.
Qed.

Lemma GetListElemByIndex_run (s : St) fuel hd xs (i : nat) :
  dlist (get_nodes s) hd xs → NULL ∉ hd :: xs → (length xs < fuel)%nat →
  Z.of_nat i < 2 ^ 32 →
  GetListElemByIndex DEBUG fuel hd (Z.of_nat i) s = Ret (default NULL (xs !! i), s).
Proof.
  intros Hd H0 Hfuel Hi. apply not_elem_of_cons in H0 as [Hhd Hxs].
  unfold GetListElemByIndex. rewrite (proj2 (Z.eqb_neq NULL hd)) by done.
  mrun (debug_validate_head _ _ _ Hd). mrun (read_first _ _ _ Hd).
  enough (∀ l1 l2 f, xs = l1 ++ l2 → (length l2 < f)%nat → (length l1 <= i)%nat →
    loop f (λ '(index, pCurEntry),
      if pCurEntry =? hd then mret (inr NULL) else
      ASSERT (negb (NULL =? pCurEntry));;
      if index =? Z.of_nat i then mret (inr pCurEntry) else
      next ← read_Flink pCurEntry;
      mret (inl (u32 (index + 1), next))) (Z.of_nat (length l1), succ_of l2 hd) s
    = Ret (default NULL (xs !! i), s)) as Hgen.
  { apply (Hgen [] xs fuel); [done..|simpl; lia]. }
  intros l1 l2. revert l1. induction l2 as [|x l2 IH]; intros l1 f -> Hf Hl;
    destruct f as [|f]; simpl in Hf; try lia.
  - erewrite loop_break; [|simpl; by rewrite Z.eqb_refl].
    rewrite lookup_ge_None_2; [done|]. rewrite app_nil_r. lia.
  - destruct (decide (length l1 = i)) as [Heq|Hne].
    + erewrite loop_break; [rewrite list_lookup_middle by done; done|].
      simpl. rewrite (member_not_head _ _ _ _ _ Hd).
      mrun (assert_member _ _ _ s Hxs).
      rewrite Heq, Z.eqb_refl. done.
    + erewrite loop_continue.
      * rewrite <-(IH (l1 ++ [x]) f); [..|by rewrite <-app_assoc|lia|rewrite length_app; simpl; lia].
        done.
      * simpl. rewrite (member_not_head _ _ _ _ _ Hd).
        mrun (assert_member _ _ _ s Hxs).
        rewrite (proj2 (Z.eqb_neq (Z.of_nat (length l1)) (Z.of_nat i))) by lia.
        mrun (read_next _ _ _ _ _ Hd). unfold mret, M_ret. do 4 f_equal.
        rewrite length_app. unfold u32. rewrite Z.mod_small; simpl; lia.
Qed.

Lemma ListSearchForElement_run {Ctx} (s : St) fuel hd xs e ordered
    (cmp : FUNC_CompareFunction (St:=St) Ctx) (cmpf : Z → Ctx → Z * Ctx) ctx :
  dlist (get_nodes s) hd xs → NULL ≠ hd → NULL ≠ e → (length xs < fuel)%nat →
  (∀ x c, x ∈ xs → cmp x e c s = Ret (cmpf x c, s)) →
  ListSearchForElement DEBUG fuel hd e ordered (Some cmp) ctx s
    = Ret (search_list cmpf ordered xs ctx, s).
Proof.
  intros Hd Hhd He Hfuel Hcmp. unfold ListSearchForElement.
  rewrite (proj2 (Z.eqb_neq NULL hd)), (proj2 (Z.eqb_neq NULL e)) by done.
  mrun (debug_validate_head _ _ _ Hd). mrun (read_first _ _ _ Hd).
  match goal with |- loop _ ?b _ _ = _ => set (body := b) end.
  enough (∀ l2 l1 f c, xs = l1 ++ l2 → (length l2 < f)%nat →
    loop f body (succ_of l2 hd, c) s = Ret (search_list cmpf ordered l2 c, s)) as Hgen
    by by apply (Hgen xs []).
  induction l2 as [|x l2 IH]; intros l1 f c -> Hf; destruct f as [|f]; simpl in Hf; try lia.
  - erewrite loop_break; [done|]. unfold body. simpl. by rewrite Z.eqb_refl.
  - assert (Hb : body (x, c) s = let '(r, c') := cmpf x c in
      if r =? 0 then Ret (inr (x, c'), s)
      else if ordered && (0 <? r) then Ret (inr (NULL, c'), s)
      else Ret (inl (succ_of l2 hd, c'), s)).
    { unfold body. rewrite (member_not_head _ _ _ _ _ Hd).
      rewrite (bind_Ret _ _ _ _ _ (Hcmp x c ltac:(set_solver))).
      destruct (cmpf x c) as [r c']. destruct (r =? 0); [done|].
      destruct (ordered && (0 <? r)); [done|]. by mrun (read_next _ _ _ _ _ Hd). }
    simpl. destruct (cmpf x c) as [r c'].
    destruct (r =? 0); [by erewrite loop_break|].
    destruct (ordered && (0 <? r)); [by erewrite loop_break|].
    erewrite loop_continue by done. apply (IH (l1 ++ [x])); [by rewrite <-app_assoc|lia].
Qed.

Lemma ForEachElementExecute_run {Ctx} (s : St) fuel hd xs all
    (act : FUNC_ListFunction (St:=St) Ctx) (actf : Z → Ctx → Z * Ctx) ctx :
  dlist (get_nodes s) hd xs → NULL ∉ hd :: xs → (length xs < fuel)%nat →
  (∀ x c, x ∈ xs → act x c s = Ret (actf x c, s)) →
  ForEachElementExecute DEBUG fuel hd (Some act) ctx all s
    = Ret (for_each_list actf all xs STATUS_SUCCESS ctx, s).
Proof.
  intros Hd H0 Hfuel Hact. apply not_elem_of_cons in H0 as [Hhd Hxs].
  unfold ForEachElementExecute. rewrite (proj2 (Z.eqb_neq NULL hd)) by done.
  mrun (debug_validate_head _ _ _ Hd). mrun (read_first _ _ _ Hd).
  match goal with |- loop _ ?b _ _ = _ => set (body := b) end.
  enough (∀ l2 l1 f st c, xs = l1 ++ l2 → (length l2 < f)%nat →
    loop f body (st, c, succ_of l2 hd) s = Ret (for_each_list actf all l2 st c, s)) as Hgen
    by by apply (Hgen xs []).
  induction l2 as [|x l2 IH]; intros l1 f st c -> Hf; destruct f as [|f]; simpl in Hf; try lia.
  - erewrite loop_break; [done|]. unfold body. simpl. by rewrite Z.eqb_refl.
  - assert (Hb : body (st, c, x) s = let '(st', c') := actf x c in
      if all && negb (SUCCEEDED st') then Ret (inr (st', c'), s)
      else Ret (inl (st', c', succ_of l2 hd), s)).
    { unfold body. rewrite (member_not_head _ _ _ _ _ Hd). mrun (assert_member _ _ _ s Hxs).
      rewrite (bind_Ret _ _ _ _ _ (Hact x c ltac:(set_solver))).
      destruct (actf x c) as [st' c']. destruct (all && negb (SUCCEEDED st')); [done|].
      by mrun (read_next _ _ _ _ _ Hd). }
    simpl. destruct (actf x c) as [st' c'].
    destruct (all && negb (SUCCEEDED st')); [by erewrite loop_break|].
    erewrite loop_continue by done. apply (IH (l1 ++ [x])); [by rewrite <-app_assoc|lia].
Qed.

Lemma InsertOrderedList_run {Ctx} (s : St) fuel hd xs e
    (cmp : FUNC_CompareFunction (St:=St) Ctx) (cmpf : Z → Ctx → Z * Ctx) ctx l1 l2 c :
  dlist (get_nodes s) hd xs → e ∉ hd :: xs → is_Some (get_nodes s !! e) →
  (length xs < fuel)%nat →
  (∀ x c, x ∈ xs → cmp e x c s = Ret (cmpf x c, s)) →
  ordered_split cmpf xs ctx = (l1, l2, c) →
  ∃ n', InsertOrderedList DEBUG fuel hd e cmp ctx s = Ret (c, set_nodes n' s)
    ∧ dlist n' hd (l1 ++ e :: l2)
    ∧ nodes_frame (hd :: l1 ++ e :: l2) (get_nodes s) n'.
Proof.
  intros Hd He Hes Hfuel Hcmp Hsplit. assert (Hxs := ordered_split_app _ _ _ _ _ _ Hsplit).
  enough (Hrun : ∃ n', InsertTailList DEBUG (succ_of l2 hd) e s = Ret (tt, set_nodes n' s)
     ∧ dlist n' hd (l1 ++ e :: l2) ∧ nodes_frame (hd :: l1 ++ e :: l2) (get_nodes s) n').
  2: { subst xs. by apply InsertTailList_run. }
  destruct Hrun as (n' & Hins & Hrest). exists n'. split; [|exact Hrest]. clear Hrest.
  unfold InsertOrderedList.
  mrun (debug_validate_head _ _ _ Hd). mrun (read_first _ _ _ Hd).
  match goal with |- context [loop _ ?b] => set (body := b) end.
  enough (∀ r p f c0 a b cx, xs = p ++ r → (length r < f)%nat →
    ordered_split cmpf r c0 = (a, b, cx) →
    loop f body (succ_of r hd, c0) s = Ret (succ_of b hd, cx, s)) as Hgen.
  { rewrite (bind_Ret _ _ _ _ _ (Hgen xs [] fuel ctx l1 l2 c eq_refl Hfuel Hsplit)).
    by mrun Hins. }
  clear Hsplit Hins Hxs l1 l2 c n'.
  induction r as [|x r IH]; intros p f c0 a b cx -> Hf Hsp; destruct f as [|f];
    simpl in Hf, Hsp; try lia.
  - simplify_eq. erewrite loop_break; [done|]. unfold body. simpl. by rewrite Z.eqb_refl.
  - assert (Hb : body (x, c0) s = let '(v, c') := cmpf x c0 in
      if v <? 0 then Ret (inr (x, c'), s) else Ret (inl (succ_of r hd, c'), s)).
    { unfold body. rewrite (member_not_head _ _ _ _ _ Hd).
      rewrite (bind_Ret _ _ _ _ _ (Hcmp x c0 ltac:(set_solver))).
      destruct (cmpf x c0) as [v c']. destruct (v <? 0); [done|].
      by mrun (read_next _ _ _ _ _ Hd). }
    destruct (cmpf x c0) as [v c']. destruct (v <? 0).
    + simplify_eq/=. by erewrite loop_break.
    + destruct (ordered_split cmpf r c') as [[a' b'] cx'] eqn:E. simplify_eq/=.
      erewrite loop_continue by done. eapply (IH (p ++ [x])); [by rewrite <-app_assoc|lia|done].
Qed.

(** An iterator positioned before [rest]. *)
Definition iterator_at (it : LIST_ITERATOR) (hd : Z) (rest : list Z) : Prop :=
  ListHead it = hd ∧ CurrentEntry it = succ_of rest hd.

Lemma ListIteratorInit_run (s : St) hd xs :
  dlist (get_nodes s) hd xs → NULL ≠ hd →
  ∃ it, ListIteratorInit hd s = Ret (it, s) ∧ iterator_at it hd xs.
Proof.
  intros Hd Hhd. eexists. split.
  - unfold ListIteratorInit.
    erewrite bind_Ret; [|by apply ASSERT_true, negb_true_iff, Z.eqb_neq].
    by mrun (read_first _ _ _ Hd).
  - done.
Qed.
Lemma ListIteratorNext_run (s : St) hd l1 l2 it :
  dlist (get_nodes s) hd (l1 ++ l2) → iterator_at it hd l2 →
  ∃ it', ListIteratorNext it s =
      Ret (match l2 with [] => NULL | x :: _ => x end, it', s)
    ∧ iterator_at it' hd (tail l2).
Proof.
  intros Hd [Hh Hc]. unfold ListIteratorNext. rewrite Hh, Hc.
  destruct l2 as [|x l2]; simpl.
  - rewrite Z.eqb_refl. by eexists.
  - rewrite (member_not_head _ _ _ _ _ Hd). simpl.
    mrun (read_next _ _ _ _ _ Hd). eexists. split; [done|]. done.
Qed.
End Walks.

(** * Specification: a ring is the sequence of its entries *)
(** Every operation of list.c. The callbacks compute their result from the entries and, for
    ForEachElementExecute, from what the context points to, which they may change. *)
Inductive list_op :=
  | OpInit
  | OpInsertHead (x : Z)
  | OpInsertTail (x : Z)
  | OpRemoveHead
  | OpRemoveTail
  | OpRemoveEntry (x : Z)
  | OpIsEmpty
  | OpSize
  | OpInsertOrdered (x : Z) (cmp : Z → Z → Z)
  | OpByIndex (i : Z)
  | OpSearch (e : Z) (ordered : bool) (cmp : Z → Z → Z)
  | OpForEach (all : bool) (act : Z → Z → Z * Z) (c : Z)
  | OpIterate (k : nat).

Definition op_entry (o : list_op) : list Z :=
  match o with OpInsertHead x | OpInsertTail x | OpInsertOrdered x _ => [x] | _ => [] end.

Fixpoint op_entries (os : list list_op) : list Z :=
  match os with [] => [] | o :: os' => op_entry o ++ op_entries os' end.

(** The entries in front of the first one for which [P] holds, and the sequence with [x] there. *)
Fixpoint before (P : Z → bool) (xs : list Z) : list Z :=
  match xs with [] => [] | y :: ys => if P y then [] else y :: before P ys end.
Definition insert_before (P : Z → bool) (x : Z) (xs : list Z) : list Z :=
  before P xs ++ x :: drop (length (before P xs)) xs.

(** The abstract operation: the values returned and the new sequence; [None]
    outside the precondition. *)
Definition spec_op (hd : Z) (o : list_op) (xs : list Z) : option (list Z * list Z) :=
  match o with
  | OpInit => Some ([], [])
  | OpInsertHead x => if decide (x ∈ hd :: xs) then None else Some ([], x :: xs)
  | OpInsertTail x => if decide (x ∈ hd :: xs) then None else Some ([], xs ++ [x])
  | OpRemoveHead => Some ([succ_of xs hd], tail xs)
  | OpRemoveTail => Some ([pred_of hd xs], removelast xs)
  | OpRemoveEntry x =>
      if decide (x ∈ xs) then
        let rest := filter (λ y, y ≠ x) xs in
        Some ([Z.b2z (bool_decide (rest = []))], rest)
      else None
  | OpIsEmpty => Some ([Z.b2z (bool_decide (xs = []))], xs)
  | OpSize => Some ([u32 (Z.of_nat (length xs))], xs)
  | OpInsertOrdered x cmp =>
      if decide (x ∈ hd :: xs) then None else Some ([], insert_before (λ y, cmp x y <? 0) x xs)
  | OpByIndex i =>
      if decide (0 ≤ i < 2 ^ 32) then Some ([default NULL (xs !! Z.to_nat i)], xs) else None
  | OpSearch e ordered cmp =>
      let searched := if ordered then before (λ y, 0 <? cmp y e) xs else xs in
      Some ([if e =? NULL then NULL else default NULL (List.find (λ y, cmp y e =? 0) searched)], xs)
  | OpForEach all act c =>
      let '(status, c') := for_each_list act all xs STATUS_SUCCESS c in Some ([status; c'], xs)
  | OpIterate k => Some (take k (xs ++ replicate k NULL), xs)
  end.

(** [k] calls of ListIteratorNext. *)
Fixpoint iterate {St} `{HasNodes St} (k : nat) (it : LIST_ITERATOR) : M St (list Z) :=
  match k with
  | O => mret []
  | S k => '(x, it) ← ListIteratorNext it; xs ← iterate k it; mret (x :: xs)
  end.
Definition run_op {St} `{HasNodes St} (DEBUG : bool) (fuel : nat) (hd : Z) (o : list_op)
    : M St (list Z) :=
  match o with
  | OpInit => InitializeListHead hd;; mret []
  | OpInsertHead x => InsertHeadList DEBUG hd x;; mret []
  | OpInsertTail x => InsertTailList DEBUG hd x;; mret []
  | OpRemoveHead => x ← RemoveHeadList DEBUG hd; mret [x]
  | OpRemoveTail => x ← RemoveTailList DEBUG hd; mret [x]
  | OpRemoveEntry x => b ← RemoveEntryList DEBUG x; mret [Z.b2z b]
  | OpIsEmpty => b ← IsListEmpty DEBUG hd; mret [Z.b2z b]
  | OpSize => n ← ListSize DEBUG fuel hd; mret [n]
  | OpInsertOrdered x cmp => InsertOrderedList DEBUG fuel hd x (λ a b c, mret (cmp a b, c)) tt;; mret []
  | OpByIndex i => x ← GetListElemByIndex DEBUG fuel hd i; mret [x]
  | OpSearch e ordered cmp =>
      '(x, _) ← ListSearchForElement DEBUG fuel hd e ordered (Some (λ a b c, mret (cmp a b, c))) tt; mret [x]
  | OpForEach all act c =>
      '(status, c) ← ForEachElementExecute DEBUG fuel hd (Some (λ x c, mret (act x c))) c all; mret [status; c]
  | OpIterate k => it ← ListIteratorInit hd; iterate k it
  end.

Fixpoint spec_ops (hd : Z) (os : list list_op) (xs : list Z) : option (list (list Z) * list Z) :=
  match os with
  | [] => Some ([], xs)
  | o :: os' =>
      '(r, xs') ← spec_op hd o xs;
      '(rs, xs'') ← spec_ops hd os' xs';
      Some (r :: rs, xs'')
  end.
Fixpoint run_ops {St} `{HasNodes St} (DEBUG : bool) (fuel : nat) (hd : Z) (os : list list_op)
    : M St (list (list Z)) :=
  match os with
  | [] => mret []
  | o :: os' => r ← run_op DEBUG fuel hd o; rs ← run_ops DEBUG fuel hd os'; mret (r :: rs)
  end.

Lemma filter_ne_split (l1 l2 : list Z) x :
  x ∉ l1 → x ∉ l2 → filter (λ y, y ≠ x) (l1 ++ x :: l2) = l1 ++ l2.
Proof.
  intros H1 H2.
  assert (Hid : ∀ l : list Z, x ∉ l → filter (λ y, y ≠ x) l = l).
  { induction l as [|y l IH]; [done|]. intros [Hxy Hl]%not_elem_of_cons.
    rewrite filter_cons_True by congruence. by rewrite IH. }
  rewrite filter_app, filter_cons_False by congruence. by rewrite !Hid.
Qed.

Lemma before_split cmpf xs :
  ordered_split (λ x (u : unit), (cmpf x, u)) xs tt
  = (before (λ y, cmpf y <? 0) xs, drop (length (before (λ y, cmpf y <? 0) xs)) xs, tt).
Proof.
  induction xs as [|x xs IH]; cbn; [done|]. destruct (cmpf x <? 0); [done|]. by rewrite IH.
Qed.
Lemma before_drop P xs : before P xs ++ drop (length (before P xs)) xs = xs.
Proof. induction xs as [|x xs IH]; cbn; [done|]. destruct (P x); [done|]. cbn. by rewrite IH. Qed.
Lemma insert_before_split P x xs : ∃ l1 l2, insert_before P x xs = l1 ++ x :: l2 ∧ xs = l1 ++ l2.
Proof. exists (before P xs), (drop (length (before P xs)) xs). by rewrite before_drop. Qed.
Lemma search_before cmpf ordered xs :
  search_list (λ x (u : unit), (cmpf x, u)) ordered xs tt
  = (default NULL (List.find (λ y, cmpf y =? 0) (if ordered then before (λ y, 0 <? cmpf y) xs else xs)), tt).
Proof.
  induction xs as [|x xs IH]; cbn; [by destruct ordered|]. rewrite IH. clear IH.
  destruct (cmpf x =? 0) eqn:E.
  - destruct ordered; cbn [andb]; [rewrite (proj1 (Z.eqb_eq _ _) E); change (0 <? 0) with false|]; cbn; by rewrite E.
  - destruct ordered; cbn [andb]; [destruct (0 <? cmpf x)|]; cbn; by rewrite ?E.
Qed.

Section Refinement.
Context {St : Type} `{HasNodes St}.
Variables (DEBUG : bool) (fuel : nat) (hd : Z).

Lemma iterate_run (s : St) k : ∀ l1 l2 it,
  dlist (get_nodes s) hd (l1 ++ l2) → iterator_at it hd l2 →
  iterate k it s = Ret (take k (l2 ++ replicate k NULL), s).
Proof.
  induction k as [|k IH]; intros l1 l2 it Hd Hit; [done|]. cbn [iterate].
  destruct (ListIteratorNext_run s hd l1 l2 it Hd Hit) as (it' & Hn & Hit'). mrun Hn.
  destruct l2 as [|x l2]; cbn [tail] in Hit'.
  - mrun (IH l1 [] it' Hd Hit'). done.
  - mrun (IH (l1 ++ [x]) l2 it' ltac:(by rewrite <-app_assoc) Hit'). unfold mret, M_ret. cbn [app take].
    do 3 f_equal. rewrite !take_app, !take_replicate. do 2 f_equal. lia.
Qed.

Lemma run_op_refines (s : St) o xs r xs' :
  spec_op hd o xs = Some (r, xs') →
  dlist (get_nodes s) hd xs → NULL ∉ hd :: xs → (length xs < fuel)%nat →
  (∀ x, x ∈ op_entry o → is_Some (get_nodes s !! x)) →
  ∃ n', run_op DEBUG fuel hd o s = Ret (r, set_nodes n' s) ∧ dlist n' hd xs'
    ∧ (∀ q, is_Some (n' !! q) ↔ is_Some (get_nodes s !! q)).
Proof.
  intros Hspec Hd H0 Hfuel Hent.
  assert (Hhd : NULL ≠ hd) by (intros E; apply H0; rewrite E; by left).
  destruct o as [|x|x| | |x| | |x cmp|i|e ordered cmp|all act c|k]; simpl in Hspec, Hent |- *.
  - simplify_eq. destruct (InitializeListHead_run s hd) as (n' & Hr & Hd' & [_ Hf]);
      [eapply dlist_nodes; [done|by left]|]. exists n'. by mrun Hr.
  - case_decide; simplify_eq.
    destruct (InsertHeadList_run DEBUG s hd [] x xs) as (n' & Hr & Hd' & [_ Hf]);
      [done|done|apply Hent; set_solver|]. exists n'. by mrun Hr.
  - case_decide; simplify_eq.
    destruct (InsertTailList_run DEBUG s hd xs x []) as (n' & Hr & Hd' & [_ Hf]);
      [by rewrite app_nil_r|by rewrite app_nil_r|apply Hent; set_solver|].
    exists n'. by mrun Hr.
  - simplify_eq. destruct (RemoveHeadList_run DEBUG s hd xs Hd) as (n' & Hr & Hd' & [_ Hf]).
    exists n'. by mrun Hr.
  - simplify_eq. destruct (RemoveTailList_run DEBUG s hd xs Hd) as (n' & Hr & Hd' & [_ Hf]).
    exists n'. by mrun Hr.
  - case_decide as Hx; [|done]. simplify_eq.
    apply list_elem_of_split in Hx as (l1 & l2 & ->).
    assert (Hnd := Hd). apply dlist_hd_notin in Hnd as [_ Hnd].
    apply NoDup_app in Hnd as (Hn1 & Hdis & [Hx2 Hn2]%NoDup_cons).
    rewrite filter_ne_split by (try done; set_solver).
    destruct (RemoveEntryList_run DEBUG s hd l1 x l2 Hd) as (n' & Hr & Hd' & [_ Hf]).
    exists n'. by mrun Hr.
  - simplify_eq. exists (get_nodes s). rewrite set_get_nodes.
    by mrun (IsListEmpty_run DEBUG s hd _ Hd).
  - simplify_eq. exists (get_nodes s). rewrite set_get_nodes.
    by mrun (ListSize_run DEBUG s fuel hd _ Hd H0 Hfuel).
  - case_decide; simplify_eq.
    destruct (InsertOrderedList_run DEBUG s fuel hd xs x (λ a b c, mret (cmp a b, c))
      (λ y (u : unit), (cmp x y, u)) tt _ _ _ Hd ltac:(done) ltac:(apply Hent; set_solver) Hfuel ltac:(done)
      (before_split (cmp x) xs)) as (n' & Hr & Hd' & [_ Hf]).
    exists n'. by mrun Hr.
  - case_decide as Hi; simplify_eq. exists (get_nodes s). rewrite set_get_nodes.
    pose proof (GetListElemByIndex_run DEBUG s fuel hd xs' (Z.to_nat i) Hd H0 Hfuel ltac:(lia)) as Hr.
    rewrite Z2Nat.id in Hr by lia. by mrun Hr.
  - simplify_eq. exists (get_nodes s). rewrite set_get_nodes. destruct (Z.eqb_spec e NULL) as [->|He].
    { unfold ListSearchForElement. rewrite (proj2 (Z.eqb_neq NULL hd)) by done. done. }
    mrun (ListSearchForElement_run DEBUG s fuel hd xs' e ordered (λ a b c, mret (cmp a b, c))
      (λ y (u : unit), (cmp y e, u)) tt Hd Hhd ltac:(done) Hfuel ltac:(done)).
    rewrite (search_before (λ y, cmp y e)). done.
  - destruct (for_each_list act all xs STATUS_SUCCESS c) as [st c'] eqn:E. simplify_eq.
    exists (get_nodes s). rewrite set_get_nodes.
    mrun (ForEachElementExecute_run DEBUG s fuel hd xs' all (λ x c, mret (act x c)) act c Hd H0 Hfuel ltac:(done)).
    by rewrite E.
  - simplify_eq. exists (get_nodes s). rewrite set_get_nodes.
    destruct (ListIteratorInit_run s hd xs' Hd Hhd) as (it & Hi & Hit). mrun Hi.
    by rewrite (iterate_run s k [] xs' it Hd Hit).
Qed.

Lemma spec_op_entries o xs r xs' :
  spec_op hd o xs = Some (r, xs') →
  (∀ q, q ∈ xs' → q ∈ xs ∨ q ∈ op_entry o) ∧ (length xs' <= length xs + length (op_entry o))%nat.
Proof.
  destruct o as [|x|x| | |x| | |x cmp|i|e ordered cmp|all act c|k]; simpl; intros Hs; try case_decide; try (simplify_eq; simpl).
  - split; [set_solver|lia].
  - split; [intros q; rewrite !elem_of_cons; naive_solver|lia].
  - split; [intros q; rewrite elem_of_app; naive_solver|rewrite length_app; simpl; lia].
  - destruct xs; simpl; (split; [intros q; rewrite ?elem_of_cons; naive_solver|lia]).
  - destruct xs as [|y l _] using rev_ind; [simpl; split; [naive_solver|lia]|].
    rewrite List.removelast_last, length_app. simpl.
    split; [intros q; rewrite elem_of_app; naive_solver|lia].
  - split; [intros q; rewrite list_elem_of_filter; naive_solver|].
    pose proof (length_filter (λ y, y ≠ x) xs). lia.
  - split; [naive_solver|lia].
  - split; [naive_solver|lia].
  - destruct (insert_before_split (λ y, cmp x y <? 0) x xs) as (l1 & l2 & -> & ->).
    split; [intros q; rewrite !elem_of_app, !elem_of_cons; tauto|].
    rewrite !length_app. simpl. lia.
  - split; [naive_solver|lia].
  - split; [naive_solver|lia].
  - destruct (for_each_list _ _ _ _ _); simplify_eq. split; [naive_solver|lia].
  - split; [naive_solver|lia].
Qed.

(** C18: any sequence of calls of the functions of list.c on one head behaves like the same
    sequence of operations on a mathematical sequence: initialising the head, the four insertions
    and removals at the ends, removing an entry, inserting in order (in front of the first entry
    that the new one is smaller than), the test for emptiness, the size, the entry at an index,
    the search (which stops at the first greater entry in an ordered list), the execution of a
    function for each entry, and an iteration from the beginning. The entries that are inserted
    are not in the list yet, those that are removed are; no address is NULL; the callbacks do not
    touch the list. *)
Theorem list_ops_refine_sequence (s : St) os xs rs xs' :
  spec_ops hd os xs = Some (rs, xs') →
  dlist (get_nodes s) hd xs →
  NULL ∉ hd :: xs ++ op_entries os →
  (length xs + length (op_entries os) < fuel)%nat →
  (∀ x, x ∈ op_entries os → is_Some (get_nodes s !! x)) →
  ∃ s', run_ops DEBUG fuel hd os s = Ret (rs, s') ∧ dlist (get_nodes s') hd xs'.
Proof.
  revert s xs rs. induction os as [|o os IH]; intros s xs rs Hspec Hd H0 Hfuel Hent; simpl in *.
  - simplify_eq. eauto.
  - destruct (spec_op hd o xs) as [[r xs1]|] eqn:Ho; [|done]. simpl in Hspec.
    destruct (spec_ops hd os xs1) as [[rs1 xs2]|] eqn:Hos; [|done]. simplify_eq/=.
    destruct (spec_op_entries _ _ _ _ Ho) as [He Hl]. rewrite length_app in Hfuel.
    assert (H1 : NULL ∉ hd :: xs) by set_solver.
    destruct (run_op_refines s o xs r xs1) as (n1 & Hr & Hd1 & Hdom); [done|done|done|lia| |].
    { intros x Hx. apply Hent. set_solver. }
    destruct (IH (set_nodes n1 s) xs1 rs1) as (s' & Hr' & Hd'); [done|..].
    + by rewrite get_set_nodes.
    + rewrite elem_of_cons, elem_of_app in *. set_solver.
    + lia.
    + intros x Hx. rewrite get_set_nodes. apply Hdom, Hent. set_solver.
    + exists s'. split; [|done]. mrun Hr. by mrun Hr'.
Qed.
End Refinement.

(** * Ordered lists *)
Section Ordered.
Context {St : Type} `{HasNodes St}.
Variables (DEBUG : bool) (fuel : nat) (hd : Z).

(** Lists ordered by a key, as the compare functions of the kernel do. *)
Variable key : Z → Z.
Definition key_le (a b : Z) : Prop := key a ≤ key b.

Lemma ordered_split_sorted e xs l1 l2 c :
  Sorted key_le xs →
  ordered_split (λ x (u : unit), (key e - key x, u)) xs tt = (l1, l2, c) →
  Sorted key_le (l1 ++ e :: l2) ∧ Forall (λ x, key x ≤ key e) l1 ∧ Forall (λ x, key e < key x) l2.
Proof.
  intros Hs. assert (Hss : StronglySorted key_le xs).
  { apply Sorted_StronglySorted; [|done]. intros a b d; unfold key_le; lia. }
  intros Hsp. enough (StronglySorted key_le (l1 ++ e :: l2) ∧
    Forall (λ x, key x ≤ key e) l1 ∧ Forall (λ x, key e < key x) l2)
    as (H1 & H2 & H3) by (split_and!; [by apply Sorted.StronglySorted_Sorted|done..]).
  clear Hs. revert l1 l2 c Hsp. induction Hss as [|x xs Hss IH Hall]; intros l1 l2 c; simpl.
  { intros ?; simplify_eq/=. split_and!; repeat constructor. }
  destruct (Z.ltb_spec (key e - key x) 0) as [Hlt|Hge]; intros Hsp.
  - simplify_eq/=. split_and!; [|constructor|].
    + constructor; [by constructor|]. constructor; [unfold key_le; lia|].
      eapply Forall_impl; [done|]. unfold key_le; simpl; lia.
    + constructor; [lia|]. eapply Forall_impl; [done|]. unfold key_le; simpl; lia.
  - destruct (ordered_split _ xs tt) as [[a b] c'] eqn:E. simplify_eq/=.
    destruct (IH _ _ _ eq_refl) as (H1 & H2 & H3). split_and!; [|constructor; [lia|done]|done].
    constructor; [done|]. apply Forall_app. rewrite Forall_cons.
    rewrite (ordered_split_app _ _ _ _ _ _ E), Forall_app in Hall. destruct Hall.
    split_and!; [done|unfold key_le; lia|done].
Qed.

(** InsertOrderedList keeps an ordered list ordered, places the entry behind all
    entries that do not exceed it, and loses nothing. *)
Theorem InsertOrderedList_keeps_order (s : St) xs e
    (cmp : FUNC_CompareFunction (St:=St) unit) :
  dlist (get_nodes s) hd xs → e ∉ hd :: xs → is_Some (get_nodes s !! e) →
  (length xs < fuel)%nat → Sorted key_le xs →
  (∀ x c, x ∈ xs → cmp e x c s = Ret ((key e - key x, c), s)) →
  ∃ l1 l2 s', InsertOrderedList DEBUG fuel hd e cmp tt s = Ret (tt, s')
    ∧ xs = l1 ++ l2 ∧ dlist (get_nodes s') hd (l1 ++ e :: l2)
    ∧ Sorted key_le (l1 ++ e :: l2)
    ∧ Forall (λ x, key x ≤ key e) l1 ∧ Forall (λ x, key e < key x) l2.
Proof.
  intros Hd He Hes Hf Hs Hcmp.
  destruct (ordered_split (λ x (u : unit), (key e - key x, u)) xs tt) as [[l1 l2] []] eqn:Hsp.
  destruct (InsertOrderedList_run DEBUG s fuel hd xs e cmp
    (λ x (u : unit), (key e - key x, u)) tt l1 l2 tt) as (n' & Hr & Hd' & _);
    [done..|].
  destruct (ordered_split_sorted _ _ _ _ _ Hs Hsp) as (H1 & H2 & H3).
  exists l1, l2, (set_nodes n' s). rewrite get_set_nodes.
  split_and!; try done. by eapply ordered_split_app.
Qed.

Lemma search_list_key k ordered xs :
  Sorted key_le xs →
  let r := (search_list (λ x (u : unit), (key x - k, u)) ordered xs tt).1 in
  (r ∈ xs ∧ key r = k) ∨ (r = NULL ∧ ∀ x, x ∈ xs → key x ≠ k).
Proof.
  intros Hs. assert (Hss : StronglySorted key_le xs).
  { apply Sorted_StronglySorted; [|done]. intros a b d; unfold key_le; lia. }
  clear Hs. induction Hss as [|x xs Hss IH Hall]; simpl; [right; set_solver|].
  destruct (Z.eqb_spec (key x - k) 0) as [Heq|Hne]; simpl.
  - left. split; [set_solver|lia].
  - destruct (ordered && (0 <? key x - k)) eqn:Hb; simpl.
    + right. split; [done|]. apply andb_true_iff in Hb as [_ Hlt%Z.ltb_lt].
      rewrite Forall_forall in Hall. intros y [->|Hy]%elem_of_cons; [lia|].
      specialize (Hall y Hy). unfold key_le in Hall. lia.
    + destruct IH as [[Hin Hk]|[Hn Hno]]; [left; set_solver|right].
      split; [done|]. intros y [->|Hy]%elem_of_cons; [lia|by apply Hno].
Qed.

(** ListSearchForElement on an ordered list, with or without the early exit,
    returns an entry with the searched key, and NULL exactly when there is none. *)
Theorem ListSearchForElement_finds (s : St) xs e ordered
    (cmp : FUNC_CompareFunction (St:=St) unit) :
  dlist (get_nodes s) hd xs → NULL ∉ hd :: xs → NULL ≠ e → (length xs < fuel)%nat →
  Sorted key_le xs →
  (∀ x c, x ∈ xs → cmp x e c s = Ret ((key x - key e, c), s)) →
  ∃ r, ListSearchForElement DEBUG fuel hd e ordered (Some cmp) tt s = Ret ((r, tt), s)
    ∧ (r ≠ NULL → r ∈ xs ∧ key r = key e)
    ∧ (r = NULL ↔ ∀ x, x ∈ xs → key x ≠ key e).
Proof.
  intros Hd H0 He Hf Hs Hcmp. apply not_elem_of_cons in H0 as [Hhd Hxs].
  pose proof (search_list_key (key e) ordered xs Hs) as Hk. simpl in Hk.
  destruct (search_list (λ x (u : unit), (key x - key e, u)) ordered xs tt) as [r []] eqn:E.
  exists r. split.
  - rewrite (ListSearchForElement_run DEBUG s fuel hd xs e ordered cmp
      (λ x (u : unit), (key x - key e, u))); [by rewrite E|done..].
  - simpl in Hk. destruct Hk as [[Hin Hk]|[-> Hno]]; [|naive_solver].
    assert (r ≠ NULL) by (intros ->; done). naive_solver.
Qed.
End Ordered.

(** * Removal while iterating *)
(** The loop the documentation of list.h and hash_table.h shows: walk with an
    iterator and unlink some of the entries it returns. *)
Section Iteration.
Context {St : Type} `{HasNodes St}.
Variables (DEBUG : bool) (hd : Z) (drop : Z → bool).

Definition iterate_and_remove (fuel : nat) : M St (list Z) :=
  it ← ListIteratorInit hd;
  loop fuel (λ '(it, seen),
    '(e, it') ← ListIteratorNext it;
    if e =? NULL then mret (inr seen) else
    (if drop e then RemoveEntryList DEBUG e;; mret tt else mret tt);;
    mret (inl (it', seen ++ [e]))) (it, []).

(** An iteration that unlinks entries it has been given still visits every entry
    once and in order, and leaves exactly the others in the list. *)
Theorem iterate_and_remove_visits_all (s : St) fuel xs :
  dlist (get_nodes s) hd xs → NULL ∉ hd :: xs → (length xs < fuel)%nat →
  ∃ s', iterate_and_remove fuel s = Ret (xs, s')
    ∧ dlist (get_nodes s') hd (filter (λ x, drop x = false) xs).
Proof.
  intros Hd H0 Hf. apply not_elem_of_cons in H0 as [Hhd Hxs].
  unfold iterate_and_remove.
  destruct (ListIteratorInit_run s hd xs Hd Hhd) as (it & Hi & Hat). mrun Hi.
  match goal with |- context [loop _ ?b] => set (body := b) end.
  enough (∀ l2 l1 s it f, xs = l1 ++ l2 → (length l2 < f)%nat →
    dlist (get_nodes s) hd (filter (λ x, drop x = false) l1 ++ l2) → iterator_at it hd l2 →
    ∃ s', loop f body (it, l1) s = Ret (xs, s')
      ∧ dlist (get_nodes s') hd (filter (λ x, drop x = false) xs)) as Hgen
    by by apply (Hgen xs [] s it fuel).
  clear Hd Hf Hi Hat it s fuel. intros l2. induction l2 as [|x l2 IH]; intros l1 s it f -> Hf Hd Hat;
    destruct f as [|f]; simpl in Hf; try lia.
  - destruct (ListIteratorNext_run s hd _ _ it Hd Hat) as (it' & Hn & Hat').
    exists s. rewrite !app_nil_r in *. split; [|done]. erewrite loop_break; [done|].
    unfold body. by mrun Hn.
  - destruct (ListIteratorNext_run s hd _ _ it Hd Hat) as (it' & Hn & Hat').
    assert (Hx0 : (x =? NULL) = false) by (apply Z.eqb_neq; set_solver).
    assert (Hstep : ∃ s', body (it, l1) s = Ret (inl (it', l1 ++ [x]), s') ∧
      dlist (get_nodes s') hd (filter (λ x, drop x = false) (l1 ++ [x]) ++ l2)).
    { unfold body. mrun Hn. rewrite Hx0, filter_app. destruct (drop x) eqn:Hdrop.
      - destruct (RemoveEntryList_run DEBUG s hd _ x l2 Hd) as (n' & Hr & Hd' & _).
        rewrite filter_cons_False, filter_nil, app_nil_r by congruence.
        exists (set_nodes n' s). rewrite get_set_nodes. split; [|done].
        erewrite bind_Ret; [|by mrun Hr]. done.
      - rewrite filter_cons_True, filter_nil, <-app_assoc by congruence. by exists s. }
    destruct Hstep as (s1 & Hs1 & Hd1). rewrite (loop_continue _ _ _ _ _ _ Hs1).
    apply (IH (l1 ++ [x])); [by rewrite <-app_assoc|lia|done|done].
Qed.
End Iteration.

(** * The status ForEachElementExecute returns *)
Section ForEach.
Context {St : Type} `{HasNodes St}.
Variables (DEBUG : bool) (fuel : nat) (hd : Z) (stf : Z → Z).
#[local] Abbreviation visit := (λ (x : Z) (c : list Z), (stf x, c ++ [x])).

Lemma for_each_list_any xs st c :
  for_each_list visit false xs st c = (default st (stf <$> last xs), c ++ xs).
Proof.
  revert st c. induction xs as [|x xs IH]; intros st c; [simpl; by rewrite app_nil_r|].
  cbn [for_each_list andb]. rewrite IH, <-app_assoc. f_equal. rewrite last_cons. by destruct (last xs).
Qed.
Lemma for_each_list_all xs st c :
  SUCCEEDED st = true →
  ∃ r vis rest, for_each_list visit true xs st c = (r, c ++ vis) ∧ xs = vis ++ rest ∧
    (SUCCEEDED r = true → rest = [] ∧ Forall (λ x, SUCCEEDED (stf x) = true) vis) ∧
    (SUCCEEDED r = false → ∃ l x, vis = l ++ [x] ∧ r = stf x ∧
      Forall (λ x, SUCCEEDED (stf x) = true) l).
Proof.
  revert st c. induction xs as [|x xs IH]; intros st c Hst; simpl.
  { exists st, [], []. rewrite app_nil_r. split_and!; [done|done|done|]. by rewrite Hst. }
  destruct (SUCCEEDED (stf x)) eqn:Hx; simpl.
  - destruct (IH (stf x) (c ++ [x]) Hx) as (r & vis & rest & -> & -> & H1 & H2).
    exists r, (x :: vis), rest. rewrite <-app_assoc. split_and!; [done|done| |].
    + intros Hr. destruct (H1 Hr). split; [done|]. by constructor.
    + intros Hr. destruct (H2 Hr) as (l & y & -> & -> & Hl).
      exists (x :: l), y. split_and!; [done|done|by constructor].
  - exists (stf x), [x], xs. split_and!; [done|done|by rewrite Hx|].
    intros _. by exists [], x.
Qed.

(** ForEachElementExecute with AllMustSucceed stops behind the first failing entry and
    returns its status; without it every entry is visited and the result is the status
    of the last entry alone, whatever the others returned. *)
Theorem ForEachElementExecute_status (s : St) xs all (act : FUNC_ListFunction (St:=St) (list Z)) :
  dlist (get_nodes s) hd xs → NULL ∉ hd :: xs → (length xs < fuel)%nat →
  (∀ x c, x ∈ xs → act x c s = Ret ((stf x, c ++ [x]), s)) →
  ∃ r vis rest, ForEachElementExecute DEBUG fuel hd (Some act) [] all s = Ret ((r, vis), s)
    ∧ xs = vis ++ rest
    ∧ (all = false → rest = [] ∧ r = default STATUS_SUCCESS (stf <$> last xs))
    ∧ (all = true →
        (SUCCEEDED r = true ∧ rest = [] ∧ Forall (λ x, SUCCEEDED (stf x) = true) xs)
        ∨ (SUCCEEDED r = false ∧ ∃ l x, vis = l ++ [x] ∧ r = stf x ∧
             Forall (λ x, SUCCEEDED (stf x) = true) l)).
Proof.
  intros Hd H0 Hf Hact.
  rewrite (ForEachElementExecute_run DEBUG s fuel hd xs all act visit) by done.
  destruct all.
  - destruct (for_each_list_all xs STATUS_SUCCESS [] eq_refl) as (r & vis & rest & -> & Hxs & H1 & H2).
    exists r, vis, rest. split_and!; [done|done|done|]. intros _.
    destruct (SUCCEEDED r); [left|right; by auto].
    destruct (H1 eq_refl) as [-> ?]. rewrite app_nil_r in Hxs. by subst.
  - rewrite for_each_list_any. eexists _, xs, []. rewrite app_nil_r. by split_and!.
Qed.
End ForEach.

(** * Concrete runs: a ring of three entries at 100, 200, 300 *)
Module ListExample.
Definition nodes : gmap Z LIST_ENTRY := list_to_map
  [(10, mkLE 100 300); (100, mkLE 200 10); (200, mkLE 300 100); (300, mkLE 10 200);
   (150, mkLE 0 0); (400, mkLE 0 0)].
Definition key_cmp {St} : FUNC_CompareFunction (St:=St) unit := λ a b c, mret (a - b, c).

Lemma ring : dlist (get_nodes nodes) 10 [100; 200; 300].
Proof.
  split; [|by vm_compute].
  repeat (apply NoDup_cons; split; [set_solver|]). by apply NoDup_nil.
Qed.
Lemma ring_sorted : Sorted (key_le (λ x, x)) [100; 200; 300].
Proof. repeat constructor; unfold key_le; lia. Qed.

Definition calls : list list_op :=
  [OpInsertHead 150; OpRemoveTail; OpRemoveEntry 100; OpInsertTail 400; OpSize; OpInsertOrdered 300 Z.sub;
   OpByIndex 2; OpSearch 250 true Z.sub; OpForEach false (λ x c, (STATUS_SUCCESS, c + x)) 0; OpIterate 5].
Lemma list_ops_refine_sequence_witness : ∃ s',
  run_ops true 9 10 calls nodes
    = Ret ([[]; [300]; [0]; []; [3]; []; [300]; [NULL]; [STATUS_SUCCESS; 1050]; [150; 200; 300; 400; NULL]], s')
  ∧ dlist (get_nodes s') 10 [150; 200; 300; 400].
Proof.
  destruct (list_ops_refine_sequence true 9 10 nodes calls [100; 200; 300]
    [[]; [300]; [0]; []; [3]; []; [300]; [NULL]; [STATUS_SUCCESS; 1050]; [150; 200; 300; 400; NULL]]
    [150; 200; 300; 400]) as (s' & H1 & H2).
  - vm_compute. reflexivity.
  - apply ring.
  - set_solver.
  - simpl. lia.
  - simpl. intros x Hx. rewrite !elem_of_cons in Hx. vm_compute.
    destruct Hx as [-> | [-> | [-> | Hx]]]; [by eexists..|by apply not_elem_of_nil in Hx].
  - by exists s'.
Defined.

Lemma InsertOrderedList_keeps_order_witness : ∃ s',
  InsertOrderedList true 9 10 150 key_cmp tt nodes = Ret (tt, s').
Proof.
  destruct (InsertOrderedList_keeps_order true 9 10 (λ x, x) nodes [100; 200; 300] 150 key_cmp)
    as (l1 & l2 & s' & Hr & _); [apply ring|set_solver|by eexists|simpl; lia|apply ring_sorted|done|].
  by exists s'.
Defined.

Lemma ListSearchForElement_finds_witness : ∃ r,
  ListSearchForElement true 9 10 200 true (Some key_cmp) tt nodes = Ret ((r, tt), nodes).
Proof.
  destruct (ListSearchForElement_finds true 9 10 (λ x, x) nodes [100; 200; 300] 200 true key_cmp)
    as (r & Hr & _); [apply ring|set_solver|done|simpl; lia|apply ring_sorted|done|].
  by exists r.
Defined.

Lemma iterate_and_remove_visits_all_witness : ∃ s',
  iterate_and_remove true 10 (λ x, x =? 200) 9 nodes = Ret ([100; 200; 300], s').
Proof.
  destruct (iterate_and_remove_visits_all true 10 (λ x, x =? 200) nodes 9 [100; 200; 300])
    as (s' & Hr & _); [apply ring|set_solver|simpl; lia|]. by exists s'.
Defined.

Lemma ForEachElementExecute_status_witness : ∃ r,
  ForEachElementExecute true 9 10
    (Some (λ x c, mret (if x =? 100 then STATUS_SUCCESS else STATUS_UNSUPPORTED, c ++ [x])))
    [] false nodes = Ret (r, nodes).
Proof.
  destruct (ForEachElementExecute_status true 9 10
    (λ x, if x =? 100 then STATUS_SUCCESS else STATUS_UNSUPPORTED) nodes [100; 200; 300] false
    (λ x c, mret (if x =? 100 then STATUS_SUCCESS else STATUS_UNSUPPORTED, c ++ [x])))
    as (r & vis & rest & Hr & _); [apply ring|set_solver|simpl; lia|done|].
  by exists (r, vis).
Defined.
End ListExample.
