(* ===== verification/Memory.v ===== *)
(** CommonLib/src/cl_memory.c: raw memory.

    Memory is a store of bytes by address; an address outside the store
    faults. [bytes_at b p bs] says that the bytes [bs] lie at [p]. *)
From S2P Require Import Prelude ListEntry.

Class HasBytes (St : Type) := {
  get_bytes : St → gmap Z Z;
  set_bytes : gmap Z Z → St → St;
  get_set_bytes n s : get_bytes (set_bytes n s) = n;
  set_set_bytes n n' s : set_bytes n (set_bytes n' s) = set_bytes n s;
  set_get_bytes s : set_bytes (get_bytes s) s = s
}.
#[export] Instance bytes_HasBytes : HasBytes (gmap Z Z).
Proof. by refine {| get_bytes n := n; set_bytes n _ := n |}. Defined.

Create HintDb bytes.
Create Rewrite HintDb bytes.
#[export] Hint Rewrite @get_set_bytes @set_set_bytes @set_get_bytes : bytes.

(** Where list nodes and bytes are parts of one state, they do not overlap. *)
Class NodesBytes (St : Type) `{HasNodes St} `{HasBytes St} : Prop := {
  bytes_set_nodes n s : get_bytes (set_nodes n s) = get_bytes s;
  nodes_set_bytes b s : get_nodes (set_bytes b s) = get_nodes s
}.

Section Ops.
Context {St : Type} `{HasBytes St}.

Definition read_byte (p : Z) : M St Z :=
  b ← gets get_bytes; from_option_fault (b !! p).
Definition write_byte (p v : Z) : M St unit :=
  b ← gets get_bytes;
  match b !! p with
  | Some _ => modify (λ s, set_bytes (<[p := u8 v]> (get_bytes s)) s)
  | None => fault
  end.

(** A load and a store of several bytes: all of them are read before the first
    is written. *)
Fixpoint read_bytes (p : Z) (n : nat) : M St (list Z) :=
  match n with
  | O => mret []
  | S n' => b ← read_byte p; bs ← read_bytes (p + 1) n'; mret (b :: bs)
  end.
Fixpoint write_bytes (p : Z) (bs : list Z) : M St unit :=
  match bs with
  | [] => mret tt
  | b :: bs' => write_byte p b;; write_bytes (p + 1) bs'
  end.
Definition copy_word (dst src : Z) (n : nat) : M St unit :=
  bs ← read_bytes src n; write_bytes dst bs.

(** The compiler intrinsic: [count] quadword moves, ascending. *)
Definition __movsq (dst src : Z) (count : nat) : M St unit :=
  for_each count 0 (λ i, copy_word (dst + 8 * i) (src + 8 * i) 8).

Definition cl_memset (address value size : Z) : M St unit :=
  if NULL =? address then mret tt else
  for_each (Z.to_nat size) 0 (λ i, write_byte (address + i) value).

Definition cl_memcpy (Destination Source Count : Z) : M St unit :=
  if (NULL =? Destination) || (NULL =? Source) then mret tt else
  let unalignedCount := Z.land Count 0x7 in
  let alignedCount := Count - unalignedCount in
  let dst := Destination in
  let src := Source in
  '(dst, src) ← (if negb (Z.land unalignedCount 0x4 =? 0)
    then copy_word dst src 4;; mret (dst + 4, src + 4) else mret (dst, src));
  '(dst, src) ← (if negb (Z.land unalignedCount 0x2 =? 0)
    then copy_word dst src 2;; mret (dst + 2, src + 2) else mret (dst, src));
  '(dst, src) ← (if negb (Z.land unalignedCount 0x1 =? 0)
    then copy_word dst src 1;; mret (dst + 1, src + 1) else mret (dst, src));
  if negb (alignedCount =? 0) then
    ASSERT (IsAddressAligned alignedCount 8);;
    __movsq (Destination + unalignedCount) (Source + unalignedCount)
      (Z.to_nat (alignedCount / 8))
  else mret tt.

Definition cl_memmove (Destination Source Count : Z) : M St unit :=
  if (NULL =? Destination) || (NULL =? Source) then mret tt else
  for_each (Z.to_nat Count) 0 (λ i,
    v ← read_byte (Source + i); write_byte (Destination + i) v).

Definition cl_memcmp (ptr1 ptr2 size : Z) : M St Z :=
  if (NULL =? ptr1) || (NULL =? ptr2) then mret (s32 size) else
  r ← for_until (Z.to_nat size) 0 (λ i,
    a ← read_byte (ptr1 + i);
    b ← read_byte (ptr2 + i);
    mret (if negb (a =? b) then Some (a - b) else None));
  mret (default 0 r).

(** The descending loop [for (i = size - 1; i >= 0; --i)]. [size - 1] is computed
    in 32 bits before it is widened to the 64-bit [i]: with [size = 0] the loop
    starts at [MAX_DWORD]. After [k] rounds [i] is [start - k]. *)
Definition cl_rmemcmp (ptr1 ptr2 size : Z) : M St Z :=
  if (NULL =? ptr1) || (NULL =? ptr2) then mret (s32 size) else
  let start := u32 (size - 1) in
  r ← for_until (Z.to_nat (start + 1)) 0 (λ k,
    a ← read_byte (ptr1 + (start - k));
    b ← read_byte (ptr2 + (start - k));
    mret (if negb (a =? b) then Some (a - b) else None));
  mret (default 0 r).

Definition cl_memscan (buffer size value : Z) : M St Z :=
  if NULL =? buffer then mret 0 else
  r ← for_until (Z.to_nat size) 0 (λ i,
    b ← read_byte (buffer + i);
    mret (if negb (b =? value) then Some i else None));
  mret (s32 (default size r)).
End Ops.

(** * Byte ranges *)
Definition bytes_at (b : gmap Z Z) (p : Z) (bs : list Z) : Prop :=
  ∀ i x, bs !! i = Some x → b !! (p + Z.of_nat i) = Some x.
Definition mapped (b : gmap Z Z) (p n : Z) : Prop :=
  ∀ q, p ≤ q < p + n → is_Some (b !! q).

(** The store after writing [bs] at [p], one byte after the other. *)
Fixpoint store (b : gmap Z Z) (p : Z) (bs : list Z) : gmap Z Z :=
  match bs with
  | [] => b
  | x :: bs' => store (<[p := u8 x]> b) (p + 1) bs'
  end.

Lemma bytes_at_cons b p x bs :
  bytes_at b p (x :: bs) ↔ b !! p = Some x ∧ bytes_at b (p + 1) bs.
Proof.
  split.
  - intros H. split; [rewrite <-(H O x eq_refl); f_equal; lia|].
    intros i y Hy. rewrite <-(H (S i) y Hy). f_equal. lia.
  - intros [H1 H2] [|i] y Hy; simpl in Hy; simplify_eq.
    + rewrite <-H1. f_equal. lia.
    + rewrite <-(H2 i y Hy). f_equal. lia.
Qed.
Lemma bytes_at_nil b p : bytes_at b p [].
Proof. intros i x. by rewrite lookup_nil. Qed.
Lemma bytes_at_app b p xs ys :
  bytes_at b p (xs ++ ys) ↔ bytes_at b p xs ∧ bytes_at b (p + Z.of_nat (length xs)) ys.
Proof.
  revert p. induction xs as [|x xs IH]; intros p; simpl.
  - rewrite Z.add_0_r. pose proof (bytes_at_nil b p). tauto.
  - rewrite !bytes_at_cons, IH. replace (p + 1 + Z.of_nat (length xs)) with
      (p + Z.of_nat (S (length xs))) by lia. tauto.
Qed.
Lemma bytes_at_mapped b p bs : bytes_at b p bs → mapped b p (Z.of_nat (length bs)).
Proof.
  intros H q Hq. destruct (lookup_lt_is_Some_2 bs (Z.to_nat (q - p))) as [x Hx]; [lia|].
  exists x. rewrite <-(H _ _ Hx). f_equal. lia.
Qed.
(** A check of concrete memory. *)
Fixpoint bytes_atb (b : gmap Z Z) (p : Z) (bs : list Z) : bool :=
  match bs with
  | [] => true
  | x :: bs' => match b !! p with Some y => x =? y | None => false end && bytes_atb b (p + 1) bs'
  end.
Lemma bytes_atb_sound b p bs : bytes_atb b p bs = true → bytes_at b p bs.
Proof.
  revert p. induction bs as [|x bs IH]; intros p Hb; simpl in Hb; [apply bytes_at_nil|].
  apply andb_true_iff in Hb as [H1 H2]. apply bytes_at_cons. split; [|by apply IH].
  destruct (b !! p); [|done]. f_equal. symmetry. by apply Z.eqb_eq.
Qed.
Lemma bytes_at_inj b p xs ys :
  bytes_at b p xs → bytes_at b p ys → length xs = length ys → xs = ys.
Proof.
  intros H1 H2 Hl. apply list_eq. intros i.
  destruct (xs !! i) as [x|] eqn:Ex.
  - destruct (lookup_lt_is_Some_2 ys i) as [y Hy];
      [apply lookup_lt_Some in Ex; lia|].
    rewrite Hy. specialize (H1 _ _ Ex). specialize (H2 _ _ Hy). congruence.
  - apply lookup_ge_None in Ex. symmetry. apply lookup_ge_None. lia.
Qed.

Lemma store_out b p bs q :
  (q < p ∨ p + Z.of_nat (length bs) ≤ q) → store b p bs !! q = b !! q.
Proof.
  revert b p. induction bs as [|x bs IH]; intros b p Hq; simpl in *; [done|].
  rewrite IH by lia. rewrite lookup_insert_ne; [done|lia].
Qed.
Lemma store_at b p bs : bytes_at (store b p bs) p (map u8 bs).
Proof.
  revert b p. induction bs as [|x bs IH]; intros b p; simpl; [apply bytes_at_nil|].
  apply bytes_at_cons. split; [|apply IH].
  rewrite store_out by lia. apply lookup_insert_eq.
Qed.
Lemma store_dom b p bs q :
  is_Some (b !! q) → is_Some (store b p bs !! q).
Proof.
  revert b p. induction bs as [|x bs IH]; intros b p Hq; simpl; [done|].
  apply IH. destruct (decide (p = q)) as [->|].
  - by rewrite lookup_insert_eq.
  - by rewrite lookup_insert_ne.
Qed.
Lemma bytes_at_store_frame b p bs q ys :
  bytes_at b q ys →
  (q + Z.of_nat (length ys) ≤ p ∨ p + Z.of_nat (length bs) ≤ q) →
  bytes_at (store b p bs) q ys.
Proof.
  intros H Hd i x Hi. rewrite store_out; [by apply H|].
  apply lookup_lt_Some in Hi. lia.
Qed.
Lemma store_app b p xs ys :
  store b p (xs ++ ys) = store (store b p xs) (p + Z.of_nat (length xs)) ys.
Proof.
  revert b p. induction xs as [|x xs IH]; intros b p; simpl; [by rewrite Z.add_0_r|].
  rewrite IH. f_equal. lia.
Qed.

Definition byte_ok (x : Z) : Prop := 0 ≤ x < 256.
Lemma u8_id x : byte_ok x → u8 x = x.
Proof. intros H. unfold u8. apply Z.mod_small. exact H. Qed.
Lemma u8_ok x : byte_ok (u8 x).
Proof. unfold byte_ok, u8. apply Z.mod_pos_bound. lia. Qed.
Lemma map_u8_id bs : Forall byte_ok bs → map u8 bs = bs.
Proof. induction 1; simpl; [done|]. by rewrite u8_id, IHForall. Qed.

(** * Runs *)
Section Specs.
Context {St : Type} `{HasBytes St}.
Implicit Types (s : St) (p v : Z).

Lemma read_byte_ok s p v : get_bytes s !! p = Some v → read_byte p s = Ret (v, s).
Proof. intros Hp. unfold read_byte. munfold. by rewrite Hp. Qed.
Lemma read_byte_fault s p : get_bytes s !! p = None → read_byte p s = Fault.
Proof. intros Hp. unfold read_byte. munfold. by rewrite Hp. Qed.
Lemma write_byte_ok s p v :
  is_Some (get_bytes s !! p) →
  write_byte p v s = Ret (tt, set_bytes (<[p := u8 v]> (get_bytes s)) s).
Proof. intros [x Hx]. unfold write_byte. munfold. by rewrite Hx. Qed.

Lemma read_bytes_ok s p bs :
  bytes_at (get_bytes s) p bs → read_bytes p (length bs) s = Ret (bs, s).
Proof.
  revert p. induction bs as [|x bs IH]; intros p Hb; [done|].
  apply bytes_at_cons in Hb as [H1 H2]. simpl.
  mrun (read_byte_ok _ _ _ H1). by mrun (IH _ H2).
Qed.
Lemma write_bytes_ok s p bs :
  mapped (get_bytes s) p (Z.of_nat (length bs)) →
  write_bytes p bs s = Ret (tt, set_bytes (store (get_bytes s) p bs) s).
Proof.
  revert s p. induction bs as [|x bs IH]; intros s p Hm; simpl in *.
  { unfold mret, M_ret. by rewrite set_get_bytes. }
  erewrite bind_Ret by (apply write_byte_ok, Hm; lia).
  rewrite IH; autorewrite with bytes; [done|].
  intros q Hq. destruct (decide (p = q)) as [->|].
  - by rewrite lookup_insert_eq.
  - rewrite lookup_insert_ne by done. apply Hm. lia.
Qed.
Lemma copy_word_ok s dst src bs :
  bytes_at (get_bytes s) src bs → mapped (get_bytes s) dst (Z.of_nat (length bs)) →
  copy_word dst src (length bs) s = Ret (tt, set_bytes (store (get_bytes s) dst bs) s).
Proof.
  intros H1 H2. unfold copy_word. mrun (read_bytes_ok _ _ _ H1). by apply write_bytes_ok.
Qed.

Lemma mapped_store (b : gmap Z Z) p bs q n : mapped b q n → mapped (store b p bs) q n.
Proof. intros Hm r Hr. by apply store_dom, Hm. Qed.
Lemma mapped_sub (b : gmap Z Z) p n q m :
  mapped b p n → p ≤ q → q + m ≤ p + n → mapped b q m.
Proof. intros Hm H1 H2 r Hr. apply Hm. lia. Qed.

Lemma cl_memset_run s p v n :
  p ≠ NULL → 0 ≤ n → mapped (get_bytes s) p n →
  cl_memset p v n s = Ret (tt, set_bytes (store (get_bytes s) p (replicate (Z.to_nat n) v)) s).
Proof.
  intros Hp Hn Hm. unfold cl_memset. rewrite (proj2 (Z.eqb_neq NULL p)) by done.
  enough (∀ k i s, mapped (get_bytes s) (p + i) (Z.of_nat k) →
    for_each k i (λ i, write_byte (p + i) v) s
    = Ret (tt, set_bytes (store (get_bytes s) (p + i) (replicate k v)) s)) as Hgen.
  { rewrite (Hgen (Z.to_nat n) 0 s); rewrite Z.add_0_r; [done|]. by rewrite Z2Nat.id. }
  clear. intros k. induction k as [|k IH]; intros i s Hm; simpl.
  { unfold mret, M_ret. by rewrite set_get_bytes. }
  erewrite bind_Ret by (apply write_byte_ok, Hm; lia). rewrite IH.
  - autorewrite with bytes. do 4 f_equal. lia.
  - rewrite get_set_bytes. intros q Hq. destruct (decide (p + i = q)) as [->|].
    + by rewrite lookup_insert_eq.
    + rewrite lookup_insert_ne by done. apply Hm. lia.
Qed.

(** A byte that cannot be written. *)
Lemma cl_memset_fault p v n k s :
  p ≠ NULL → 0 ≤ k < n → get_bytes s !! (p + k) = None → cl_memset p v n s = Fault.
Proof.
  intros Hp Hk Hn. unfold cl_memset. rewrite (proj2 (Z.eqb_neq NULL p)) by done.
  apply (for_each_fault _ (λ s, get_bytes s !! (p + k) = None) _ (Z.to_nat k)); [|lia| |done].
  - intros j s' Hs'. destruct (get_bytes s' !! (p + j)) as [x|] eqn:E.
    + left. eexists. split; [by apply write_byte_ok|]. rewrite get_set_bytes.
      rewrite lookup_insert_ne; [done|]. intros He. rewrite He in E. congruence.
    + right. unfold write_byte. munfold. by rewrite E.
  - intros s' Hs'. rewrite Z2Nat.id, Z.add_0_l by lia. unfold write_byte. munfold. by rewrite Hs'.
Qed.

(** A forward byte copy that never overwrites a byte it has still to read. *)
Lemma cl_memmove_run s dst src bs :
  dst ≠ NULL → src ≠ NULL → Forall byte_ok bs →
  bytes_at (get_bytes s) src bs → mapped (get_bytes s) dst (Z.of_nat (length bs)) →
  (dst ≤ src ∨ src + Z.of_nat (length bs) ≤ dst) →
  cl_memmove dst src (Z.of_nat (length bs)) s
    = Ret (tt, set_bytes (store (get_bytes s) dst bs) s).
Proof.
  intros Hd Hs Hok Hb Hm Hov. unfold cl_memmove.
  rewrite (proj2 (Z.eqb_neq NULL dst)), (proj2 (Z.eqb_neq NULL src)) by done. simpl.
  rewrite Nat2Z.id. set (len := Z.of_nat (length bs)) in *.
  enough (∀ ys i s, 0 ≤ i → i + Z.of_nat (length ys) = len → Forall byte_ok ys →
    bytes_at (get_bytes s) (src + i) ys → mapped (get_bytes s) dst len →
    for_each (length ys) i (λ i, v ← read_byte (src + i); write_byte (dst + i) v) s
    = Ret (tt, set_bytes (store (get_bytes s) (dst + i) ys) s)) as Hgen.
  { rewrite (Hgen bs 0 s); rewrite ?Z.add_0_r; done. }
  clear - Hov. intros ys. induction ys as [|y ys IH]; intros i s Hi Hlen Hok Hb Hm; simpl.
  { unfold mret, M_ret. by rewrite set_get_bytes. }
  apply bytes_at_cons in Hb as [H1 H2]. apply Forall_cons in Hok as [Hy Hok]. simpl in Hlen.
  erewrite bind_Ret; [|mrun (read_byte_ok _ _ _ H1); apply write_byte_ok, Hm; lia].
  rewrite IH; autorewrite with bytes; [do 4 f_equal; lia|lia|lia|done|..].
  - replace (src + (i + 1)) with (src + i + 1) by lia.
    apply (bytes_at_store_frame _ _ [y] _ _ H2). simpl. lia.
  - by apply (mapped_store _ _ [y]).
Qed.

(** A source byte that cannot be read. *)
Lemma cl_memmove_fault s dst src k n :
  dst ≠ NULL → src ≠ NULL → Z.of_nat k < n → get_bytes s !! (src + Z.of_nat k) = None →
  cl_memmove dst src n s = Fault.
Proof.
  intros Hd Hs Hk Hn. unfold cl_memmove.
  rewrite (proj2 (Z.eqb_neq NULL dst)), (proj2 (Z.eqb_neq NULL src)) by done. cbn [orb].
  apply (for_each_fault _ (λ s, get_bytes s !! (src + Z.of_nat k) = None) _ k); [|lia| |done].
  - intros j s1 H1. unfold read_byte, write_byte. munfold.
    destruct (get_bytes s1 !! (src + j)) as [x|] eqn:E1; [|by right].
    destruct (get_bytes s1 !! (dst + j)) as [y|] eqn:E2; [|by right].
    left. eexists. split; [done|]. rewrite get_set_bytes, lookup_insert_ne; [done|]. congruence.
  - intros s1 H1. apply bind_Fault, read_byte_fault. by rewrite Z.add_0_l.
Qed.

(** Cl_memmove copies the source range when it lies ahead of the destination or is
    disjoint from it. *)
Theorem cl_memmove_copies s dst src bs :
  dst ≠ NULL → src ≠ NULL → Forall byte_ok bs →
  bytes_at (get_bytes s) src bs → mapped (get_bytes s) dst (Z.of_nat (length bs)) →
  (dst ≤ src ∨ src + Z.of_nat (length bs) ≤ dst) →
  ∃ s', cl_memmove dst src (Z.of_nat (length bs)) s = Ret (tt, s')
    ∧ bytes_at (get_bytes s') dst bs
    ∧ (∀ q, ¬ (dst ≤ q < dst + Z.of_nat (length bs)) → get_bytes s' !! q = get_bytes s !! q).
Proof.
  intros Hd Hs Hok Hb Hm Hov. eexists. split; [by apply cl_memmove_run|].
  rewrite get_set_bytes. split.
  - rewrite <-(map_u8_id bs) at 2 by done. apply store_at.
  - intros q Hq. apply store_out. lia.
Qed.
End Specs.

Section Memcpy.
Context {St : Type} `{HasBytes St}.
Variables (s0 : St) (dst src : Z) (bs : list Z).
#[local] Abbreviation len := (Z.of_nat (length bs)).
Hypotheses (Hok : Forall byte_ok bs)
  (Hsrc : bytes_at (get_bytes s0) src bs) (Hdst : mapped (get_bytes s0) dst len)
  (Hdisj : dst + len ≤ src ∨ src + len ≤ dst).

(** The state in which the first [k] bytes have been copied. *)
Definition copied (k : nat) : St := set_bytes (store (get_bytes s0) dst (take k bs)) s0.

Lemma copy_chunk k m (Z_k := Z.of_nat k) :
  (k + m <= length bs)%nat →
  copy_word (dst + Z_k) (src + Z_k) m (copied k) = Ret (tt, copied (k + m)).
Proof.
  intros Hkm. unfold copied, Z_k.
  assert (Hbs : bs = take k bs ++ take m (drop k bs) ++ drop (k + m) bs).
  { rewrite <-drop_drop, take_drop, take_drop. done. }
  set (pre := take k bs) in *. set (c := take m (drop k bs)) in *.
  assert (Hpre : length pre = k) by (unfold pre; rewrite length_take; lia).
  assert (Hc : length c = m) by (unfold c; rewrite length_take, length_drop; lia).
  assert (Htk : take (k + m) bs = pre ++ c).
  { unfold pre, c. rewrite take_take_drop. done. }
  rewrite <-Hc at 1. erewrite copy_word_ok; autorewrite with bytes.
  - rewrite Htk, store_app, Hpre. done.
  - apply bytes_at_store_frame; [|rewrite Hpre, Hc; lia].
    rewrite Hbs, !bytes_at_app in Hsrc. rewrite Hpre in Hsrc. tauto.
  - apply mapped_store. apply (mapped_sub _ _ _ _ _ Hdst); lia.
Qed.

Lemma __movsq_run u (n : nat) :
  (u + 8 * n <= length bs)%nat →
  __movsq (dst + Z.of_nat u) (src + Z.of_nat u) n (copied u) = Ret (tt, copied (u + 8 * n)).
Proof.
  intros Hn. unfold __movsq.
  enough (∀ j k, (j + k = n)%nat →
    for_each k (Z.of_nat j) (λ i, copy_word (dst + Z.of_nat u + 8 * i) (src + Z.of_nat u + 8 * i) 8)
      (copied (u + 8 * j)) = Ret (tt, copied (u + 8 * n))) as Hgen.
  { rewrite <-(Hgen 0%nat n) by done. by rewrite Nat.mul_0_r, Nat.add_0_r. }
  intros j k. revert j. induction k as [|k IH]; intros j Hj; cbn [for_each].
  { unfold mret, M_ret. do 3 f_equal. lia. }
  replace (dst + Z.of_nat u + 8 * Z.of_nat j) with (dst + Z.of_nat (u + 8 * j)) by lia.
  replace (src + Z.of_nat u + 8 * Z.of_nat j) with (src + Z.of_nat (u + 8 * j)) by lia.
  erewrite bind_Ret by (apply copy_chunk; lia).
  replace (Z.of_nat j + 1) with (Z.of_nat (S j)) by lia.
  replace (u + 8 * j + 8)%nat with (u + 8 * S j)%nat by lia. apply IH. lia.
Qed.

(** One of the three conditional moves of the unaligned head. *)
Lemma copy_chunk_if (flag : Z) k m :
  (k + m <= length bs)%nat ∨ flag = 0 →
  (if negb (flag =? 0)
   then copy_word (dst + Z.of_nat k) (src + Z.of_nat k) m;;
        mret (dst + Z.of_nat k + Z.of_nat m, src + Z.of_nat k + Z.of_nat m)
   else mret (dst + Z.of_nat k, src + Z.of_nat k)) (copied k)
  = let k' := if flag =? 0 then k else (k + m)%nat in
    Ret ((dst + Z.of_nat k', src + Z.of_nat k'), copied k').
Proof.
  intros Hk. destruct (Z.eqb_spec flag 0) as [->|Hne]; simpl; [done|].
  erewrite bind_Ret by (apply copy_chunk; tauto).
  unfold mret, M_ret. do 3 f_equal; lia.
Qed.

Lemma cl_memcpy_run :
  dst ≠ NULL → src ≠ NULL → len < 2 ^ 64 →
  cl_memcpy dst src len s0 = Ret (tt, set_bytes (store (get_bytes s0) dst bs) s0).
Proof.
  intros Hd Hs Hlen. unfold cl_memcpy.
  rewrite (proj2 (Z.eqb_neq NULL dst)), (proj2 (Z.eqb_neq NULL src)) by done. 
  assert (Hu : Z.land len 7 = len mod 8) by apply (Z.land_ones len 3 ltac:(lia)).
  pose proof (Z.mod_pos_bound len 8 ltac:(lia)) as Hb.
  pose proof (Z.div_mod len 8 ltac:(lia)) as Hdm.
  set (u := len mod 8) in *. set (w := len / 8) in *.
  rewrite Hu. cbv zeta. assert (Hend : copied (length bs) =
    set_bytes (store (get_bytes s0) dst bs) s0) by (unfold copied; by rewrite take_ge).
  assert (H0 : s0 = copied 0) by (unfold copied; simpl; by rewrite set_get_bytes).
  assert (Htail : (if negb (len - u =? 0) then
      ASSERT (IsAddressAligned (len - u) 8);;
      __movsq (dst + u) (src + u) (Z.to_nat ((len - u) / 8)) else mret tt)
      (copied (Z.to_nat u)) = Ret (tt, copied (length bs))).
  { replace (len - u) with (8 * w) by lia. destruct (Z.eqb_spec (8 * w) 0) as [Hw|Hw]; simpl.
    - unfold mret, M_ret. do 3 f_equal. lia.
    - erewrite bind_Ret.
      2: { apply ASSERT_true. unfold IsAddressAligned. apply Z.eqb_eq. symmetry.
           unfold u64. change ((8 mod 2 ^ 64 - 1) mod 2 ^ 64) with (Z.ones 3).
           rewrite Z.land_ones by lia. rewrite (Z.mod_small (8 * w)) by lia.
           change (2 ^ 3) with 8. rewrite Z.mul_comm. apply Z.mod_mul. lia. }
      replace (8 * w / 8) with w by (rewrite Z.mul_comm, Z.div_mul; lia).
      replace (dst + u) with (dst + Z.of_nat (Z.to_nat u)) by lia.
      replace (src + u) with (src + Z.of_nat (Z.to_nat u)) by lia.
      rewrite __movsq_run by lia. do 3 f_equal. lia. }
  rewrite <-Hend, <-Htail. clear Htail Hend Hu. rewrite H0 at 1. clearbody u w.
  set (k1 := if Z.land u 4 =? 0 then 0%nat else 4%nat).
  set (k2 := if Z.land u 2 =? 0 then k1 else (k1 + 2)%nat).
  set (k3 := if Z.land u 1 =? 0 then k2 else (k2 + 1)%nat).
  assert (Hk : k3 = Z.to_nat u).
  { assert (u ∈ [0; 1; 2; 3; 4; 5; 6; 7]) as Hcases by (rewrite !elem_of_cons; lia).
    unfold k3, k2, k1. clear - Hcases.
    repeat (apply elem_of_cons in Hcases as [->|Hcases]; [reflexivity|]).
    by apply not_elem_of_nil in Hcases. }
  assert (k1 <= k2 <= k3)%nat by (unfold k3, k2; repeat case_match; lia).
  assert (E1 : (0 + 4 <= length bs)%nat ∨ Z.land u 4 = 0).
  { unfold k1 in *. destruct (Z.eqb_spec (Z.land u 4) 0); [by right|left; lia]. }
  apply copy_chunk_if in E1.
  assert (E2 : (k1 + 2 <= length bs)%nat ∨ Z.land u 2 = 0).
  { unfold k2 in *. destruct (Z.eqb_spec (Z.land u 2) 0); [by right|left; lia]. }
  apply copy_chunk_if in E2.
  assert (E3 : (k2 + 1 <= length bs)%nat ∨ Z.land u 1 = 0).
  { unfold k3 in *. destruct (Z.eqb_spec (Z.land u 1) 0); [by right|left; lia]. }
  apply copy_chunk_if in E3.
  cbv zeta in E1, E2, E3. rewrite !Z.add_0_r in E1.
  change (Z.of_nat 4) with 4 in E1. change (Z.of_nat 2) with 2 in E2.
  change (Z.of_nat 1) with 1 in E3. cbn [orb].
  mrun E1. mrun E2. mrun E3. by rewrite <-Hk.
Qed.

(** Cl_memcpy between disjoint ranges leaves the destination equal to the source and
    touches nothing else, whatever the count's remainder modulo 8. *)
Theorem cl_memcpy_copies :
  dst ≠ NULL → src ≠ NULL → len < 2 ^ 64 →
  ∃ s', cl_memcpy dst src len s0 = Ret (tt, s')
    ∧ bytes_at (get_bytes s') dst bs ∧ bytes_at (get_bytes s') src bs
    ∧ (∀ q, ¬ (dst ≤ q < dst + len) → get_bytes s' !! q = get_bytes s0 !! q).
Proof.
  intros Hd Hs Hl. eexists. split; [by apply cl_memcpy_run|].
  rewrite get_set_bytes. split_and!.
  - rewrite <-(map_u8_id bs) at 2 by done. apply store_at.
  - by apply bytes_at_store_frame; [|lia].
  - intros q Hq. apply store_out. lia.
Qed.
End Memcpy.

(** * Comparison: cl_rmemcmp compares little-endian integers *)
Fixpoint le_value (bs : list Z) : Z :=
  match bs with [] => 0 | x :: bs' => x + 256 * le_value bs' end.

Lemma le_value_app xs ys :
  le_value (xs ++ ys) = le_value xs + 256 ^ Z.of_nat (length xs) * le_value ys.
Proof.
  induction xs as [|x xs IH]; cbn [app le_value length].
  - rewrite Z.pow_0_r. lia.
  - rewrite IH, Nat2Z.inj_succ, Z.pow_succ_r by lia. lia.
Qed.
Lemma le_value_bound xs : Forall byte_ok xs → 0 ≤ le_value xs < 256 ^ Z.of_nat (length xs).
Proof.
  unfold byte_ok. induction 1 as [|x xs Hx _ IH]; cbn [le_value length]; [by rewrite Z.pow_0_r|].
  rewrite Nat2Z.inj_succ, Z.pow_succ_r by lia. lia.
Qed.
Lemma le_value_inj xs ys :
  Forall byte_ok xs → Forall byte_ok ys → length xs = length ys →
  le_value xs = le_value ys → xs = ys.
Proof.
  unfold byte_ok. intros Hx. revert ys. induction Hx as [|x xs Hx Hxs IH]; intros [|y ys] Hy Hl;
    cbn [le_value length] in *; try done.
  apply Forall_cons in Hy as [Hy Hys]. intros Heq.
  assert (x = y ∧ le_value xs = le_value ys) as [-> He] by lia.
  f_equal. apply IH; [done|lia|done].
Qed.

(** * Words: little-endian integers of n bytes *)
(** The bytes of an n-byte integer, least significant first. *)
Fixpoint le_bytes (n : nat) (v : Z) : list Z :=
  match n with O => [] | S n' => v mod 256 :: le_bytes n' (v / 256) end.

Lemma le_bytes_length n v : length (le_bytes n v) = n.
Proof. revert v. induction n as [|n IH]; intros v; simpl; [done|]. by rewrite IH. Qed.
Lemma le_bytes_ok n v : Forall byte_ok (le_bytes n v).
Proof.
  revert v. induction n as [|n IH]; intros v; cbn [le_bytes]; constructor; [|apply IH].
  unfold byte_ok. pose proof (Z.mod_pos_bound v 256). lia.
Qed.
Lemma le_value_le_bytes n v : 0 ≤ v < 256 ^ Z.of_nat n → le_value (le_bytes n v) = v.
Proof.
  revert v. induction n as [|n IH]; intros v Hv; cbn [le_bytes le_value].
  - rewrite Z.pow_0_r in Hv. lia.
  - rewrite Nat2Z.inj_succ, Z.pow_succ_r in Hv by lia.
    rewrite IH; [pose proof (Z.div_mod v 256); lia|].
    split; [apply Z.div_pos; lia|apply Z.div_lt_upper_bound; lia].
Qed.
Lemma le_bytes_le_value bs : Forall byte_ok bs → le_bytes (length bs) (le_value bs) = bs.
Proof.
  intros Hb. apply le_value_inj; [apply le_bytes_ok|done|apply le_bytes_length|].
  apply le_value_le_bytes. by apply le_value_bound.
Qed.

Section Words.
Context {St : Type} `{HasBytes St}.
Implicit Types (s : St) (p v : Z) (bs : list Z) (n : nat).

Definition read_le (p : Z) (n : nat) : M St Z := bs ← read_bytes p n; mret (le_value bs).
Definition write_le (p : Z) (n : nat) (v : Z) : M St unit := write_bytes p (le_bytes n v).

Lemma read_le_run s p bs :
  bytes_at (get_bytes s) p bs → read_le p (length bs) s = Ret (le_value bs, s).
Proof. intros Hb. unfold read_le. by mrun (read_bytes_ok _ _ _ Hb). Qed.
Lemma write_le_run s p n v :
  mapped (get_bytes s) p (Z.of_nat n) →
  write_le p n v s = Ret (tt, set_bytes (store (get_bytes s) p (le_bytes n v)) s).
Proof. intros Hm. apply write_bytes_ok. by rewrite le_bytes_length. Qed.
(** The n-byte integer [v] lies at [p]. *)
Definition word_at (b : gmap Z Z) p n v : Prop := bytes_at b p (le_bytes n v).

Lemma read_le_word s p n v :
  word_at (get_bytes s) p n v → 0 ≤ v < 256 ^ Z.of_nat n → read_le p n s = Ret (v, s).
Proof.
  intros Hw Hv. rewrite <-(le_bytes_length n v) at 1.
  rewrite (read_le_run _ _ _ Hw). by rewrite le_value_le_bytes.
Qed.
(** The integer that lies at [p], whatever it is. *)
Definition bytes_from (b : gmap Z Z) p n : list Z := (λ i, default 0 (b !! (p + Z.of_nat i))) <$> seq 0 n.
Definition word (b : gmap Z Z) p n : Z := le_value (bytes_from b p n).
Lemma bytes_from_at b p n : mapped b p (Z.of_nat n) → bytes_at b p (bytes_from b p n).
Proof.
  intros Hm i x Hi. unfold bytes_from in Hi. rewrite list_lookup_fmap in Hi.
  destruct (seq 0 n !! i) as [j|] eqn:Ej; [|done]. apply lookup_seq in Ej as [-> Hj]. simpl in Hi.
  destruct (Hm (p + Z.of_nat i)) as [y Hy]; [lia|]. rewrite Hy in Hi. simpl in Hi. congruence.
Qed.
Lemma read_le_mapped s p n :
  mapped (get_bytes s) p (Z.of_nat n) → read_le p n s = Ret (word (get_bytes s) p n, s).
Proof.
  intros Hm. pose proof (read_le_run s p _ (bytes_from_at _ _ _ Hm)) as Hr.
  unfold bytes_from in Hr at 1. by rewrite length_fmap, length_seq in Hr.
Qed.
Lemma read_le_fault s p n :
  (0 < n)%nat → get_bytes s !! (p + Z.of_nat n - 1) = None → read_le p n s = Fault.
Proof.
  intros Hn Hp. apply bind_Fault. revert p Hp. induction n as [|n IH]; intros p Hp; [lia|].
  cbn [read_bytes]. destruct (get_bytes s !! p) as [x|] eqn:Ex.
  - rewrite (bind_Ret _ _ _ _ _ (read_byte_ok _ _ _ Ex)). destruct n as [|n].
    + rewrite Z.add_simpl_r in Hp. congruence.
    + apply bind_Fault, IH; [lia|]. rewrite <-Hp. f_equal. lia.
  - by apply bind_Fault, read_byte_fault.
Qed.
Lemma word_bound b p n :
  (∀ q x, b !! q = Some x → byte_ok x) → 0 ≤ word b p n < 256 ^ Z.of_nat n.
Proof.
  intros Hb. assert (Hok : Forall byte_ok (bytes_from b p n)).
  { apply Forall_forall. intros x (i & -> & _)%list_elem_of_fmap.
    destruct (b !! (p + Z.of_nat i)) as [y|] eqn:Ey; simpl; [by eapply Hb|unfold byte_ok; lia]. }
  pose proof (le_value_bound _ Hok) as Hv. unfold bytes_from in Hv at 3.
  by rewrite length_fmap, length_seq in Hv.
Qed.
Lemma word_at_store_frame b p bs q n v :
  word_at b q n v → q + Z.of_nat n ≤ p ∨ p + Z.of_nat (length bs) ≤ q →
  word_at (store b p bs) q n v.
Proof. intros Hw Hd. apply bytes_at_store_frame; [done|]. rewrite le_bytes_length. lia. Qed.
Lemma word_at_store b p n v : word_at (store b p (le_bytes n v)) p n v.
Proof.
  unfold word_at. rewrite <-(map_u8_id (le_bytes n v)) at 2 by apply le_bytes_ok. apply store_at.
Qed.
End Words.


(** The difference of the most significant bytes that differ. *)
Fixpoint rmem_result (xs ys : list Z) : Z :=
  match xs, ys with
  | x :: xs', y :: ys' => let r := rmem_result xs' ys' in if r =? 0 then x - y else r
  | _, _ => 0
  end.
Lemma rmem_result_sgn xs ys :
  Forall byte_ok xs → Forall byte_ok ys → length xs = length ys →
  Z.sgn (rmem_result xs ys) = Z.sgn (le_value xs - le_value ys).
Proof.
  intros Hx. revert ys. unfold byte_ok. induction Hx as [|x xs Hx Hxs IH]; intros [|y ys] Hy Hl;
    cbn [rmem_result le_value length] in *; try done.
  apply Forall_cons in Hy as [Hy Hys]. specialize (IH ys Hys ltac:(lia)). cbv zeta. unfold byte_ok in *.
  destruct (Z.eqb_spec (rmem_result xs ys) 0) as [Hz|Hnz].
  - rewrite Hz in IH. simpl in IH. symmetry in IH. apply Z.sgn_null_iff in IH. f_equal. lia.
  - rewrite IH. assert (Hd : le_value xs - le_value ys ≠ 0).
    { intros Hz. apply Hnz, Z.sgn_null_iff. by rewrite IH, Hz. }
    destruct (Z.lt_trichotomy (le_value xs) (le_value ys)) as [?|[?|?]]; [|lia|].
    + rewrite !Z.sgn_neg; lia.
    + rewrite !Z.sgn_pos; lia.
Qed.
Lemma rmem_result_snoc xs ys x y :
  length xs = length ys →
  rmem_result (xs ++ [x]) (ys ++ [y]) = if x =? y then rmem_result xs ys else x - y.
Proof.
  revert ys. induction xs as [|a xs IH]; intros [|b ys] Hl; simpl in *; try done.
  - destruct (Z.eqb_spec x y); lia.
  - rewrite IH by lia. destruct (Z.eqb_spec x y); [done|].
    by rewrite (proj2 (Z.eqb_neq (x - y) 0)) by lia.
Qed.

Section Compare.
Context {St : Type} `{HasBytes St}.
Variables (s : St) (p1 p2 : Z).

(** Both pointers are read at offset [i] and compared. *)
Definition cmp_at (off : Z → Z) (k : Z) : M St (option Z) :=
  a ← read_byte (p1 + off k);
  b ← read_byte (p2 + off k);
  mret (if negb (a =? b) then Some (a - b) else None).

Lemma cmp_at_run off k a b :
  get_bytes s !! (p1 + off k) = Some a → get_bytes s !! (p2 + off k) = Some b →
  cmp_at off k s = Ret (if negb (a =? b) then Some (a - b) else None, s).
Proof. intros Ha Hb. unfold cmp_at. mrun (read_byte_ok _ _ _ Ha). by mrun (read_byte_ok _ _ _ Hb). Qed.

Lemma cl_rmemcmp_run xs ys :
  p1 ≠ NULL → p2 ≠ NULL → xs ≠ [] → length xs = length ys → Z.of_nat (length xs) < 2 ^ 32 →
  bytes_at (get_bytes s) p1 xs → bytes_at (get_bytes s) p2 ys →
  cl_rmemcmp p1 p2 (Z.of_nat (length xs)) s = Ret (rmem_result xs ys, s).
Proof.
  intros Hp1 Hp2 Hne Hl Hlen Hx Hy. unfold cl_rmemcmp.
  rewrite (proj2 (Z.eqb_neq NULL p1)), (proj2 (Z.eqb_neq NULL p2)) by done. cbn [orb].
  assert (Hpos : (0 < length xs)%nat) by (destruct xs; [done|simpl; lia]).
  assert (Hst : u32 (Z.of_nat (length xs) - 1) = Z.of_nat (length xs) - 1)
    by (unfold u32; apply Z.mod_small; lia).
  rewrite Hst. set (st := Z.of_nat (length xs) - 1).
  change (λ k, a ← read_byte (p1 + (st - k)); b ← read_byte (p2 + (st - k));
    mret (if negb (a =? b) then Some (a - b) else None)) with (cmp_at (λ k, st - k)).
  replace (Z.to_nat (st + 1)) with (length xs) by lia.
  enough (∀ xl yl h, xs = xl ++ h → length xl = length yl → bytes_at (get_bytes s) p2 yl →
    ∃ o, for_until (length xl) (Z.of_nat (length xs) - Z.of_nat (length xl))
        (cmp_at (λ k, st - k)) s = Ret (o, s)
      ∧ default 0 o = rmem_result xl yl) as Hgen.
  { destruct (Hgen xs ys [] ltac:(by rewrite app_nil_r) Hl Hy) as (o & Ho & Hd).
    rewrite Z.sub_diag in Ho. mrun Ho. by rewrite Hd. }
  intros xl. induction xl as [|x xl IH] using rev_ind; intros yl h Hex Hll Hyl.
  { destruct yl; [|done]. by exists None. }
  destruct yl as [|y yl _] using rev_ind; [rewrite length_app in Hll; simpl in Hll; lia|].
  rewrite !length_app in Hll. simpl in Hll. rewrite <-app_assoc in Hex. simpl in Hex.
  rewrite length_app, Nat.add_1_r. cbn [for_until].
  assert (Hlx : length xs = (length xl + S (length h))%nat) by (subst xs; by rewrite length_app).
  erewrite bind_Ret.
  2: { apply (cmp_at_run _ _ x y).
    - rewrite <-(Hx (length xl) x); [f_equal; lia|]. subst xs. by apply list_lookup_middle.
    - rewrite <-(Hyl (length yl) y); [f_equal; lia|]. by apply list_lookup_middle. }
  cbn beta iota. rewrite rmem_result_snoc by lia.
  destruct (Z.eqb_spec x y) as [<-|Hxy]; cbn [negb].
  - destruct (IH yl (x :: h) Hex) as (o & Ho & Hs); [lia|by apply bytes_at_app in Hyl as [? _]|].
    exists o. split; [|done]. rewrite <-Ho. f_equal. lia.
  - by exists (Some (x - y)).
Qed.

(** Cl_rmemcmp is the comparison of the two buffers as little-endian unsigned
    integers. *)
Theorem cl_rmemcmp_le_order xs ys :
  p1 ≠ NULL → p2 ≠ NULL → xs ≠ [] → length xs = length ys → Z.of_nat (length xs) < 2 ^ 32 →
  Forall byte_ok xs → Forall byte_ok ys →
  bytes_at (get_bytes s) p1 xs → bytes_at (get_bytes s) p2 ys →
  ∃ r, cl_rmemcmp p1 p2 (Z.of_nat (length xs)) s = Ret (r, s)
    ∧ Z.sgn r = Z.sgn (le_value xs - le_value ys).
Proof.
  intros. eexists. split; [by apply cl_rmemcmp_run|]. by apply rmem_result_sgn.
Qed.

(** A size of zero makes cl_rmemcmp read 4 GB beyond both buffers: the 32-bit
    [size - 1] is not negative when it is widened to the 64-bit index. *)
Theorem cl_rmemcmp_size_zero :
  p1 ≠ NULL → p2 ≠ NULL → get_bytes s !! (p1 + MAX_DWORD) = None →
  cl_rmemcmp p1 p2 0 s = Fault.
Proof.
  intros Hp1 Hp2 Hb. unfold cl_rmemcmp.
  rewrite (proj2 (Z.eqb_neq NULL p1)), (proj2 (Z.eqb_neq NULL p2)) by done. cbn [orb].
  assert (Hu : u32 (0 - 1) = MAX_DWORD) by reflexivity. rewrite Hu.
  rewrite Z.add_1_r, Z2Nat.inj_succ by (unfold MAX_DWORD; lia).
  generalize (Z.to_nat MAX_DWORD). intros n. apply bind_Fault. rewrite for_until_S.
  apply bind_Fault, bind_Fault, read_byte_fault. by rewrite Z.sub_0_r.
Qed.
End Compare.

(** * Concrete runs: six bytes at 1000 and room at 2000 *)
Module MemoryExample.
Definition mem : gmap Z Z := list_to_map
  (imap (λ i v, (1000 + Z.of_nat i, v)) [7; 1; 2; 3; 250; 9]
   ++ imap (λ i v, (2000 + Z.of_nat i, v)) (replicate 6 0)).
Definition bs : list Z := [7; 1; 2; 3; 250; 9].

Lemma bs_ok : Forall byte_ok bs.
Proof. repeat (apply Forall_cons; split; [by split|]); by apply Forall_nil. Qed.
Lemma mem_bytes : bytes_at (get_bytes mem) 1000 bs.
Proof. repeat (apply bytes_at_cons; split; [by vm_compute|]). apply bytes_at_nil. Qed.
Lemma mem_room : bytes_at (get_bytes mem) 2000 (replicate 6 0).
Proof. repeat (apply bytes_at_cons; split; [by vm_compute|]). apply bytes_at_nil. Qed.
Lemma mem_mapped : mapped (get_bytes mem) 2000 (Z.of_nat (length bs)).
Proof. apply (bytes_at_mapped _ _ (replicate 6 0)), mem_room. Qed.

Lemma cl_memmove_copies_witness : ∃ s', cl_memmove 2000 1000 6 mem = Ret (tt, s').
Proof.
  destruct (cl_memmove_copies mem 2000 1000 bs) as (s' & Hr & _);
    [done|done|apply bs_ok|apply mem_bytes|apply mem_mapped|simpl; lia|]. by exists s'.
Defined.
Lemma cl_memcpy_copies_witness : ∃ s', cl_memcpy 2000 1000 6 mem = Ret (tt, s').
Proof.
  destruct (cl_memcpy_copies mem 2000 1000 bs) as (s' & Hr & _);
    [apply bs_ok|apply mem_bytes|apply mem_mapped|simpl; lia|done|done|by vm_compute|].
  by exists s'.
Defined.
Lemma cl_rmemcmp_le_order_witness : ∃ r, cl_rmemcmp 1000 2000 6 mem = Ret (r, mem) ∧ Z.sgn r = 1.
Proof.
  destruct (cl_rmemcmp_le_order mem 1000 2000 bs (replicate 6 0)) as (r & Hr & Hs);
    [done|done|done|done|by vm_compute|apply bs_ok|repeat (apply Forall_cons; split; [by split|]); by apply Forall_nil
    |apply mem_bytes|apply mem_room|]. by exists r.
Defined.
Lemma cl_rmemcmp_size_zero_witness : cl_rmemcmp 1000 2000 0 mem = Fault.
Proof. by apply (cl_rmemcmp_size_zero mem 1000 2000). Defined.

(** A destination that overlaps behind the source receives the first byte over and over. *)
Lemma cl_memmove_overlap :
  match cl_memmove 1001 1000 3 mem with
  | Ret (_, s') => map (λ p, s' !! p) [1000; 1001; 1002; 1003]
  | _ => []
  end = [Some 7; Some 7; Some 7; Some 7].
Proof. by vm_compute. Qed.
End MemoryExample.
