(* ===== verification/PeParser.v ===== *)
(** PE_Parser/src/pe_parser.c: the headers of a PE image.

    The image lies in byte memory. A pointer to a structure the caller provides is an
    [option]: [None] is NULL, and the operations return what it points to afterwards. *)
From S2P Require Import Prelude ListEntry Memory.

Definition STATUS_INVALID_MZ_IMAGE : Z := error_status GENERAL_MASK 0x23.
Definition STATUS_INVALID_IMAGE_SIZE : Z := error_status GENERAL_MASK 0x24.
Definition STATUS_INVALID_PE_IMAGE : Z := error_status GENERAL_MASK 0x25.

(** PE_Parser/headers/pe_structures.h: signatures, sizes and offsets of the packed
    structures. An IMAGE_NT_HEADERS64 is a DWORD, a file header of 20 bytes and an optional
    header of 240 bytes. *)
Definition MZ_SIGNATURE : Z := 0x5A4D.
Definition NT_SIGNATURE : Z := 0x00004550.
Definition IMAGE_FILE_MACHINE_AMD64 : Z := 0x8664.
Definition IMAGE_DIRECTORY_ENTRY_COM_DESCRIPTOR : Z := 14.
Definition sizeof_IMAGE_DOS_HEADER : Z := 64.
Definition sizeof_IMAGE_FILE_HEADER : Z := 20.
Definition sizeof_IMAGE_NT_HEADERS64 : Z := 264.
Definition sizeof_IMAGE_SECTION_HEADER : Z := 40.
Definition sizeof_IMAGE_DATA_DIRECTORY : Z := 8.
Definition e_magic (dos : Z) : Z := dos.
Definition e_lfanew (dos : Z) : Z := dos + 60.
Definition Signature (nt : Z) : Z := nt.
Definition FileHeader_Machine (nt : Z) : Z := nt + 4.
Definition FileHeader_NumberOfSections (nt : Z) : Z := nt + 6.
Definition FileHeader_SizeOfOptionalHeader (nt : Z) : Z := nt + 20.
Definition OptionalHeader_AddressOfEntryPoint (nt : Z) : Z := nt + 40.
Definition OptionalHeader_ImageBase (nt : Z) : Z := nt + 48.
Definition OptionalHeader_SectionAlignment (nt : Z) : Z := nt + 56.
Definition OptionalHeader_FileAlignment (nt : Z) : Z := nt + 60.
Definition OptionalHeader_SizeOfImage (nt : Z) : Z := nt + 80.
Definition OptionalHeader_SizeOfHeaders (nt : Z) : Z := nt + 84.
Definition OptionalHeader_Subsystem (nt : Z) : Z := nt + 92.
Definition OptionalHeader_NumberOfRvaAndSizes (nt : Z) : Z := nt + 132.
Definition OptionalHeader_DataDirectory (nt i : Z) : Z := nt + 136 + sizeof_IMAGE_DATA_DIRECTORY * i.
Definition Section_VirtualSize (sec : Z) : Z := sec + 8.
Definition Section_VirtualAddress (sec : Z) : Z := sec + 12.
Definition Section_Characteristics (sec : Z) : Z := sec + 36.

(** PE_Parser/inc/pe_exports.h *)
Record PE_NT_HEADER_INFO := mkNtInfo {
  ImageBase : Z;
  NtBase : Z;
  AddressOfEntryPoint : Z;
  ImageAlignment : Z;
  FileAlignment : Z;
  Preferred_ImageBase : Z;
  Preferred_AddressOfEntryPoint : Z;
  Size : Z;
  Machine : Z;
  Subsystem : Z;
  SizeOfHeaders : Z;
  NumberOfSections : Z
}.
Record PE_SECTION_INFO := mkSection { Section_BaseAddress : Z; Section_Size : Z; Characteristics : Z }.
Record PE_DATA_DIRECTORY := mkDirectory { Directory_BaseAddress : Z; Directory_Size : Z }.

Section Ops.
Context {St : Type} `{HasBytes St}.

Definition PeRetrieveNtHeader (ImageBase_ ImageSize : Z) (NtInfo : option PE_NT_HEADER_INFO)
    : M St (Z * option PE_NT_HEADER_INFO) :=
  if NULL =? ImageBase_ then mret (STATUS_INVALID_PARAMETER1, NtInfo) else
  if 0 =? ImageSize then mret (STATUS_INVALID_PARAMETER2, NtInfo) else
  match NtInfo with
  | None => mret (STATUS_INVALID_PARAMETER3, NtInfo)
  | Some _ =>
      let pDos := ImageBase_ in
      magic ← read_le (e_magic pDos) 2;
      if negb (MZ_SIGNATURE =? magic) then mret (STATUS_INVALID_MZ_IMAGE, NtInfo) else
      lfanew ← read_le (e_lfanew pDos) 4;
      let nt := u64 (pDos + s32 lfanew) in
      if negb (CHECK_BOUNDS nt sizeof_IMAGE_NT_HEADERS64 ImageBase_ ImageSize)
      then mret (STATUS_INVALID_IMAGE_SIZE, NtInfo) else
      signature ← read_le (Signature nt) 4;
      if negb (NT_SIGNATURE =? signature) then mret (STATUS_INVALID_PE_IMAGE, NtInfo) else
      sizeOfImage ← read_le (OptionalHeader_SizeOfImage nt) 4;
      machine ← read_le (FileHeader_Machine nt) 2;
      subsystem ← read_le (OptionalHeader_Subsystem nt) 2;
      entry ← read_le (OptionalHeader_AddressOfEntryPoint nt) 4;
      sizeOfHeaders ← read_le (OptionalHeader_SizeOfHeaders nt) 4;
      sections ← read_le (FileHeader_NumberOfSections nt) 2;
      sectionAlignment ← read_le (OptionalHeader_SectionAlignment nt) 4;
      fileAlignment ← read_le (OptionalHeader_FileAlignment nt) 4;
      preferredBase ← read_le (OptionalHeader_ImageBase nt) 8;
      mret (STATUS_SUCCESS, Some (mkNtInfo ImageBase_ nt (PtrOffset ImageBase_ entry)
        sectionAlignment fileAlignment preferredBase (PtrOffset preferredBase entry)
        sizeOfImage machine subsystem sizeOfHeaders sections))
  end.

(** The fields of SectionInfo are written before its bounds are checked. *)
Definition PeRetrieveSection (NtInfo : option PE_NT_HEADER_INFO) (SectionIndex : Z)
    (SectionInfo : option PE_SECTION_INFO) : M St (Z * option PE_SECTION_INFO) :=
  match NtInfo with
  | None => mret (STATUS_INVALID_PARAMETER1, SectionInfo)
  | Some info =>
      if NumberOfSections info <=? SectionIndex then mret (STATUS_INVALID_PARAMETER2, SectionInfo) else
      match SectionInfo with
      | None => mret (STATUS_INVALID_PARAMETER3, SectionInfo)
      | Some _ =>
          if negb (IMAGE_FILE_MACHINE_AMD64 =? Machine info)
          then mret (STATUS_UNSUPPORTED, SectionInfo) else
          let pNt := NtBase info in
          sizeOfOptionalHeader ← read_le (FileHeader_SizeOfOptionalHeader pNt) 2;
          let pSections := u64 (pNt + 4 + sizeof_IMAGE_FILE_HEADER + sizeOfOptionalHeader) in
          if negb (CHECK_BOUNDS pSections (sizeof_IMAGE_SECTION_HEADER * NumberOfSections info)
                     (ImageBase info) (Size info))
          then mret (STATUS_INVALID_IMAGE_SIZE, SectionInfo) else
          let pSection := pSections + sizeof_IMAGE_SECTION_HEADER * SectionIndex in
          virtualAddress ← read_le (Section_VirtualAddress pSection) 4;
          virtualSize ← read_le (Section_VirtualSize pSection) 4;
          characteristics ← read_le (Section_Characteristics pSection) 4;
          let baseAddress := u64 (ImageBase info + virtualAddress) in
          let SectionInfo := Some (mkSection baseAddress virtualSize characteristics) in
          if negb (CHECK_BOUNDS baseAddress virtualSize (ImageBase info) (Size info))
          then mret (STATUS_INVALID_IMAGE_SIZE, SectionInfo)
          else mret (STATUS_SUCCESS, SectionInfo)
      end
  end.

Definition PeRetrieveDataDirectory (NtInfo : option PE_NT_HEADER_INFO) (DataDirectory : Z)
    (DataDirectoryInfo : option PE_DATA_DIRECTORY) : M St (Z * option PE_DATA_DIRECTORY) :=
  match NtInfo with
  | None => mret (STATUS_INVALID_PARAMETER1, DataDirectoryInfo)
  | Some info =>
      if IMAGE_DIRECTORY_ENTRY_COM_DESCRIPTOR <? DataDirectory
      then mret (STATUS_INVALID_PARAMETER2, DataDirectoryInfo) else
      match DataDirectoryInfo with
      | None => mret (STATUS_INVALID_PARAMETER3, DataDirectoryInfo)
      | Some _ =>
          if negb (IMAGE_FILE_MACHINE_AMD64 =? Machine info)
          then mret (STATUS_UNSUPPORTED, DataDirectoryInfo) else
          let pNt := NtBase info in
          numberOfRvaAndSizes ← read_le (OptionalHeader_NumberOfRvaAndSizes pNt) 4;
          if numberOfRvaAndSizes <=? DataDirectory
          then mret (STATUS_INVALID_PARAMETER2, DataDirectoryInfo) else
          let pDataDirectory := OptionalHeader_DataDirectory pNt DataDirectory in
          if negb (CHECK_BOUNDS pDataDirectory sizeof_IMAGE_DATA_DIRECTORY (ImageBase info) (Size info))
          then mret (STATUS_INVALID_IMAGE_SIZE, DataDirectoryInfo) else
          virtualAddress ← read_le pDataDirectory 4;
          size ← read_le (pDataDirectory + 4) 4;
          let baseAddress := u64 (ImageBase info + virtualAddress) in
          let DataDirectoryInfo := Some (mkDirectory baseAddress size) in
          if negb (CHECK_BOUNDS baseAddress size (ImageBase info) (Size info))
          then mret (STATUS_INVALID_IMAGE_SIZE, DataDirectoryInfo)
          else mret (STATUS_SUCCESS, DataDirectoryInfo)
      end
  end.
End Ops.

(** * An image in memory *)
Lemma CHECK_BOUNDS_small p ps b s :
  0 ≤ p → 0 ≤ ps → 0 ≤ b → 0 ≤ s → p + ps < 2 ^ 64 → b + s < 2 ^ 64 →
  CHECK_BOUNDS p ps b s = (b <=? p) && (p + ps <=? b + s).
Proof.
  intros. unfold CHECK_BOUNDS, u64. rewrite (Z.mod_small p), (Z.mod_small ps), (Z.mod_small b) by lia.
  by rewrite (Z.mod_small s), !Z.mod_small by lia.
Qed.

Section Image.
Context {St : Type} `{HasBytes St}.
Variables (s : St) (base size : Z).
Abbreviation b := (get_bytes s).
(** The image lies at [base] and has [size] bytes: at least a DOS header. *)
Hypotheses (Hbytes : ∀ q x, b !! q = Some x → byte_ok x) (Hmapped : mapped b base size)
  (Hbase : 2 ^ 31 ≤ base) (Hsize : sizeof_IMAGE_DOS_HEADER ≤ size < 2 ^ 32)
  (Htop : base + 2 ^ 34 ≤ 2 ^ 64).

Lemma image_word p n :
  base ≤ p → p + Z.of_nat n ≤ base + size → read_le p n s = Ret (word b p n, s).
Proof. intros H1 H2. apply read_le_mapped. by eapply mapped_sub. Qed.

(** Read the next field of the image. *)
Ltac field := erewrite bind_Ret by (apply image_word; lia); cbn beta iota.

Definition nt_of : Z := base + s32 (word b (e_lfanew base) 4).
Definition header_info (nt : Z) : PE_NT_HEADER_INFO :=
  let entry := word b (OptionalHeader_AddressOfEntryPoint nt) 4 in
  let preferred := word b (OptionalHeader_ImageBase nt) 8 in
  mkNtInfo base nt (PtrOffset base entry) (word b (OptionalHeader_SectionAlignment nt) 4)
    (word b (OptionalHeader_FileAlignment nt) 4) preferred (PtrOffset preferred entry)
    (word b (OptionalHeader_SizeOfImage nt) 4) (word b (FileHeader_Machine nt) 2)
    (word b (OptionalHeader_Subsystem nt) 2) (word b (OptionalHeader_SizeOfHeaders nt) 4)
    (word b (FileHeader_NumberOfSections nt) 2).

Lemma s32_range z : - 2 ^ 31 ≤ s32 z < 2 ^ 31.
Proof.
  unfold s32, u32. pose proof (Z.mod_pos_bound z (2 ^ 32)). destruct (Z.ltb_spec (z mod 2 ^ 32) (2 ^ 31)); lia.
Qed.

(** PeRetrieveNtHeader on every branch. *)
Lemma PeRetrieveNtHeader_run i :
  PeRetrieveNtHeader base size (Some i) s =
  Ret (if negb (MZ_SIGNATURE =? word b base 2) then (STATUS_INVALID_MZ_IMAGE, Some i)
       else if negb ((base <=? nt_of) && (nt_of + sizeof_IMAGE_NT_HEADERS64 <=? base + size))
       then (STATUS_INVALID_IMAGE_SIZE, Some i)
       else if negb (NT_SIGNATURE =? word b nt_of 4) then (STATUS_INVALID_PE_IMAGE, Some i)
       else (STATUS_SUCCESS, Some (header_info nt_of)), s).
Proof.
  unfold PeRetrieveNtHeader, sizeof_IMAGE_DOS_HEADER in *.
  rewrite (proj2 (Z.eqb_neq NULL base)), (proj2 (Z.eqb_neq 0 size)) by (unfold NULL; lia).
  unfold e_magic, Signature. field. destruct (MZ_SIGNATURE =? word b base 2); cbn [negb]; [|done].
  erewrite bind_Ret by (apply image_word; unfold e_lfanew; lia). cbn beta iota. fold nt_of.
  assert (Hnt : 0 ≤ nt_of < 2 ^ 64 - 2 ^ 33)
    by (unfold nt_of; pose proof (s32_range (word b (e_lfanew base) 4)); lia).
  rewrite u64_id by lia. unfold sizeof_IMAGE_NT_HEADERS64.
  rewrite CHECK_BOUNDS_small by lia.
  destruct (Z.leb_spec base nt_of), (Z.leb_spec (nt_of + 264) (base + size)); cbn [andb negb]; try done.
  field. destruct (NT_SIGNATURE =? word b nt_of 4); cbn [negb]; [|done].
  unfold header_info, OptionalHeader_SizeOfImage, FileHeader_Machine, OptionalHeader_Subsystem,
    OptionalHeader_AddressOfEntryPoint, OptionalHeader_SizeOfHeaders, FileHeader_NumberOfSections,
    OptionalHeader_SectionAlignment, OptionalHeader_FileAlignment, OptionalHeader_ImageBase.
  do 9 field. done.
Qed.

(** The headers an image is accepted with, when all of it was loaded. *)
Record info_ok (info : PE_NT_HEADER_INFO) : Prop := {
  io_base : ImageBase info = base;
  io_size : 0 ≤ Size info ≤ size;
  io_nt : base ≤ NtBase info ∧ NtBase info + sizeof_IMAGE_NT_HEADERS64 ≤ base + size;
  io_sections : 0 ≤ NumberOfSections info < 2 ^ 16
}.

(** A range that the information about an image describes. *)
Definition in_image (info : PE_NT_HEADER_INFO) (p n : Z) : Prop :=
  base ≤ p ∧ 0 ≤ n ∧ p + n ≤ base + Size info.

Lemma described_range info va n :
  info_ok info → 0 ≤ va < 2 ^ 32 → 0 ≤ n < 2 ^ 32 →
  u64 (ImageBase info + va) = base + va
  ∧ (CHECK_BOUNDS (base + va) n (ImageBase info) (Size info) = true → in_image info (base + va) n).
Proof.
  intros [Hb Hs _ _] Hva Hn. rewrite Hb. split; [by rewrite u64_id by lia|].
  rewrite CHECK_BOUNDS_small by lia. intros [H1 H2]%andb_true_iff. apply Z.leb_le in H1, H2.
  unfold in_image. lia.
Qed.

Lemma PeRetrieveSection_stays info i sec :
  info_ok info → 0 ≤ i →
  ∃ st sec', PeRetrieveSection (Some info) i (Some sec) s = Ret ((st, Some sec'), s)
    ∧ (st = STATUS_SUCCESS → in_image info (Section_BaseAddress sec') (Section_Size sec')).
Proof.
  intros Hok Hi. pose proof Hok as [Hb Hs [Hn1 Hn2] Hc].
  unfold PeRetrieveSection, sizeof_IMAGE_NT_HEADERS64 in *.
  destruct (Z.leb_spec (NumberOfSections info) i); [by eexists _, sec|].
  destruct (IMAGE_FILE_MACHINE_AMD64 =? Machine info); cbn [negb]; [|by eexists _, sec].
  erewrite bind_Ret by (apply image_word; unfold FileHeader_SizeOfOptionalHeader; lia). cbn beta iota.
  set (opt := word b (FileHeader_SizeOfOptionalHeader (NtBase info)) 2).
  pose proof (word_bound b (FileHeader_SizeOfOptionalHeader (NtBase info)) 2 Hbytes) as Hopt. fold opt in Hopt.
  change (256 ^ Z.of_nat 2) with (2 ^ 16) in Hopt.
  unfold sizeof_IMAGE_FILE_HEADER, sizeof_IMAGE_SECTION_HEADER. 
  rewrite (u64_id (NtBase info + 4 + 20 + opt)) by lia.
  rewrite CHECK_BOUNDS_small by lia. rewrite Hb.
  set (p := NtBase info + 4 + 20 + opt).
  destruct (Z.leb_spec base p), (Z.leb_spec (p + 40 * NumberOfSections info) (base + Size info));
    cbn [andb negb]; try by eexists _, sec.
  unfold Section_VirtualAddress, Section_VirtualSize, Section_Characteristics.
  do 3 field.
  set (va := word b (p + 40 * i + 12) 4). set (vs := word b (p + 40 * i + 8) 4).
  destruct (described_range info va vs Hok) as [Hva Hin]; [apply (word_bound _ _ 4); done..|].
  rewrite Hb in Hva, Hin. rewrite Hva.
  destruct (CHECK_BOUNDS (base + va) vs base (Size info)); cbn [negb]; [|by eexists _, _].
  eexists _, _. split; [reflexivity|]. intros _. by apply Hin.
Qed.

Lemma PeRetrieveDataDirectory_stays info d dir :
  info_ok info → 0 ≤ d →
  ∃ st dir', PeRetrieveDataDirectory (Some info) d (Some dir) s = Ret ((st, Some dir'), s)
    ∧ (st = STATUS_SUCCESS → in_image info (Directory_BaseAddress dir') (Directory_Size dir')).
Proof.
  intros Hok Hd. pose proof Hok as [Hb Hs [Hn1 Hn2] _].
  unfold PeRetrieveDataDirectory, sizeof_IMAGE_NT_HEADERS64 in *.
  destruct (Z.ltb_spec IMAGE_DIRECTORY_ENTRY_COM_DESCRIPTOR d) as [|Hd14]; [by eexists _, dir|].
  unfold IMAGE_DIRECTORY_ENTRY_COM_DESCRIPTOR in Hd14.
  destruct (IMAGE_FILE_MACHINE_AMD64 =? Machine info); cbn [negb]; [|by eexists _, dir].
  erewrite bind_Ret by (apply image_word; unfold OptionalHeader_NumberOfRvaAndSizes; lia). cbn beta iota.
  destruct (_ <=? d); [by eexists _, dir|].
  unfold OptionalHeader_DataDirectory, sizeof_IMAGE_DATA_DIRECTORY.
  rewrite CHECK_BOUNDS_small by lia. rewrite Hb. set (p := NtBase info + 136 + 8 * d).
  destruct (Z.leb_spec base p), (Z.leb_spec (p + 8) (base + Size info));
    cbn [andb negb]; try by eexists _, dir.
  do 2 field.
  set (va := word b p 4). set (vs := word b (p + 4) 4).
  destruct (described_range info va vs Hok) as [Hva Hin]; [apply (word_bound _ _ 4); done..|].
  rewrite Hb in Hva, Hin. rewrite Hva.
  destruct (CHECK_BOUNDS (base + va) vs base (Size info)); cbn [negb]; [|by eexists _, _].
  eexists _, _. split; [reflexivity|]. intros _. by apply Hin.
Qed.

(** C36: parsing an image of at least 64 bytes never reads outside of it: PeRetrieveNtHeader
    always returns, and for the headers it accepts, provided the image is at least as long as
    its SizeOfImage says, PeRetrieveSection and PeRetrieveDataDirectory return for every index,
    and a section or directory they accept lies within the image. *)
Theorem pe_parser_stays_in_image i :
  ∃ st i', PeRetrieveNtHeader base size (Some i) s = Ret ((st, i'), s)
  ∧ (st = STATUS_SUCCESS → ∃ info, i' = Some info
     ∧ base ≤ NtBase info ∧ NtBase info + sizeof_IMAGE_NT_HEADERS64 ≤ base + size
     ∧ (Size info ≤ size → ∀ idx sec dir, 0 ≤ idx →
        (∃ st1 sec', PeRetrieveSection (Some info) idx (Some sec) s = Ret ((st1, Some sec'), s)
           ∧ (st1 = STATUS_SUCCESS → in_image info (Section_BaseAddress sec') (Section_Size sec')))
        ∧ (∃ st2 dir', PeRetrieveDataDirectory (Some info) idx (Some dir) s = Ret ((st2, Some dir'), s)
           ∧ (st2 = STATUS_SUCCESS → in_image info (Directory_BaseAddress dir') (Directory_Size dir'))))).
Proof.
  rewrite PeRetrieveNtHeader_run.
  destruct (MZ_SIGNATURE =? word b base 2); cbn [negb]; [|by eexists _, _].
  destruct (Z.leb_spec base nt_of) as [H1|], (Z.leb_spec (nt_of + sizeof_IMAGE_NT_HEADERS64) (base + size)) as [H2|];
    cbn [andb negb]; try by eexists _, _.
  destruct (NT_SIGNATURE =? word b nt_of 4); cbn [negb]; [|by eexists _, _].
  eexists _, _. split; [reflexivity|]. intros _. eexists. split; [reflexivity|].
  split; [exact H1|]. split; [exact H2|]. intros Hsz idx sec dir Hidx.
  assert (Hok : info_ok (header_info nt_of)).
  { split; [done| |done|apply (word_bound _ _ 2); done].
    split; [|exact Hsz]. by apply (word_bound b (OptionalHeader_SizeOfImage nt_of) 4). }
  split; [by apply PeRetrieveSection_stays|by apply PeRetrieveDataDirectory_stays].
Qed.
End Image.

(** * A small image: the NT headers at offset 64, one section of 32 bytes at offset 0x200 *)
Module PeExample.
Definition base : Z := 0x80000000.
Definition zeros (size : Z) : gmap Z Z :=
  foldr (λ i m, <[base + i := 0]> m) ∅ (seqZ 0 size).
Definition put (off : Z) (n : nat) (v : Z) (m : gmap Z Z) : gmap Z Z := store m (base + off) (le_bytes n v).
Definition image (sizeOfImage : Z) : gmap Z Z :=
  put 0 2 MZ_SIGNATURE $ put 60 4 64 $ put 64 4 NT_SIGNATURE $ put 68 2 IMAGE_FILE_MACHINE_AMD64 $
  put 70 2 1 $ put 84 2 240 $ put 144 4 sizeOfImage $
  put (64 + 24 + 240 + 8) 4 32 $ put (64 + 24 + 240 + 12) 4 0x200 $ zeros 0x240.

Definition byte_okb (x : Z) : bool := (0 <=? x) && (x <? 256).
Lemma image_bytes q x : get_bytes (image 0x240) !! q = Some x → byte_ok x.
Proof.
  assert (Hall : forallb (λ p, byte_okb p.2) (map_to_list (image 0x240)) = true) by (vm_compute; reflexivity).
  intros Hq. change (get_bytes (image 0x240)) with (image 0x240) in Hq.
  apply elem_of_map_to_list in Hq. rewrite forallb_forall in Hall.
  specialize (Hall _ (proj1 (list_elem_of_In _ _) Hq)). unfold byte_okb in Hall. cbn in Hall.
  apply andb_true_iff in Hall as [H1 H2]. apply Z.leb_le in H1. apply Z.ltb_lt in H2. done.
Qed.
Definition mappedb (m : gmap Z Z) (p n : Z) : bool :=
  forallb (λ i, match m !! (p + i) with Some _ => true | None => false end) (seqZ 0 n).
Lemma mappedb_sound m p n : mappedb m p n = true → mapped m p n.
Proof.
  unfold mappedb. rewrite forallb_forall. intros Hall q Hq. specialize (Hall (q - p)).
  replace (p + (q - p)) with q in Hall by lia. destruct (m !! q); [by eexists|].
  discriminate Hall. apply list_elem_of_In, elem_of_seqZ. lia.
Qed.
Lemma image_mapped : mapped (get_bytes (image 0x240)) base 0x240.
Proof. apply mappedb_sound. vm_compute. reflexivity. Qed.
Lemma image_place : 2 ^ 31 ≤ base ∧ sizeof_IMAGE_DOS_HEADER ≤ 0x240 < 2 ^ 32 ∧ base + 2 ^ 34 ≤ 2 ^ 64.
Proof. unfold base, sizeof_IMAGE_DOS_HEADER. lia. Qed.

Definition no_info : PE_NT_HEADER_INFO := mkNtInfo 0 0 0 0 0 0 0 0 0 0 0 0.
Definition info_of {A} (o : outcome (Z * option A * gmap Z Z)) : option A :=
  match o with Ret (_, a, _) => a | _ => None end.
Definition status_of {A} (o : outcome (Z * A * gmap Z Z)) : option Z :=
  match o with Ret (st, _, _) => Some st | _ => None end.
Abbreviation parse := (PeRetrieveNtHeader base 0x240 (Some no_info) (image 0x240)).
Abbreviation first_section info := (PeRetrieveSection info 0 (Some (mkSection 0 0 0)) (image 0x240)).
Lemma accepted : status_of parse = Some STATUS_SUCCESS ∧ Size <$> info_of parse = Some 0x240
  ∧ status_of (first_section (info_of parse)) = Some STATUS_SUCCESS.
Proof. vm_compute. by split_and!. Qed.

#[local] Opaque image.
Lemma pe_parser_stays_in_image_witness :
  ∃ info sec', parse = Ret ((STATUS_SUCCESS, Some info), image 0x240)
    ∧ first_section (Some info) = Ret ((STATUS_SUCCESS, Some sec'), image 0x240)
    ∧ in_image base info (Section_BaseAddress sec') (Section_Size sec').
Proof.
  destruct accepted as (A1 & A2 & A3). destruct image_place as (P1 & P2 & P3).
  destruct (pe_parser_stays_in_image (image 0x240) base 0x240 image_bytes image_mapped P1 P2 P3 no_info) as (st & i' & Hrun & Hok).
  rewrite Hrun in A1, A2, A3. cbn [status_of info_of] in A1, A2, A3. injection A1 as ->.
  destruct (Hok eq_refl) as (info & -> & _ & _ & Hsec). injection A2 as A2.
  destruct (Hsec ltac:(by rewrite A2) 0 (mkSection 0 0 0) (mkDirectory 0 0) ltac:(done))
    as [(st1 & sec' & Hs & Hin) _].
  rewrite Hs in A3. cbn [status_of] in A3. injection A3 as ->.
  exists info, sec'. split; [exact Hrun|]. split; [exact Hs|by apply Hin].
Defined.

#[local] Transparent image.

(** PeRetrieveNtHeader reads a DOS header also from a shorter image, and an image whose
    SizeOfImage exceeds what was loaded is read beyond its end. *)
Definition outcome_kind {A} (o : outcome A) : outcome unit :=
  match o with Ret _ => Ret tt | Panic => Panic | Fault => Fault | OutOfFuel => OutOfFuel end.
Lemma short_image_faults :
  outcome_kind (PeRetrieveNtHeader base 2 (Some no_info) (put 0 2 MZ_SIGNATURE (zeros 2))) = Fault.
Proof. vm_compute. reflexivity. Qed.
Definition far_sections : gmap Z Z := put 84 2 0x300 (image 0x10000).
Lemma unloaded_image_faults :
  let r := PeRetrieveNtHeader base 0x240 (Some no_info) far_sections in
  status_of r = Some STATUS_SUCCESS
  ∧ outcome_kind (PeRetrieveSection (info_of r) 0 (Some (mkSection 0 0 0)) far_sections) = Fault.
Proof. vm_compute. by split. Qed.
End PeExample.
