(* ===== verification/Bitmap.v ===== *)
(** CommonLib/src/bitmap.c: bitmaps over a caller-supplied buffer.

    A [PBITMAP] is an [option BITMAP] (None is NULL); the buffer lies in the byte
    memory of Memory.v. [bitmap_rep] relates the bytes to a list of booleans, on
    which every operation is specified. *)
From S2P Require Import Prelude Memory.

Record BITMAP := mkBITMAP {
  BitCount : Z;
  BufferSize : Z;
  BitmapBuffer : Z
}.
Definition BITMAP_zero : BITMAP := mkBITMAP 0 0 NULL.

Definition BITMAP_ENTRY_BITS : Z := 8.

Section Ops.
Context {St : Type} `{HasBytes St}.

(** The caller's structure is returned, with the size of the buffer it needs. *)
Definition BitmapPreinit (NumberOfElements : Z) : M St (BITMAP * Z) :=
  ASSERT (negb (0 =? NumberOfElements));;
  let size := u32 (AlignAddressUpper NumberOfElements BITMAP_ENTRY_BITS / BITMAP_ENTRY_BITS) in
  mret (mkBITMAP NumberOfElements size NULL, size).

Definition BitmapInitEx (Bitmap : BITMAP) (Buffer : Z) (Set_ : bool) : M St BITMAP :=
  ASSERT (negb (NULL =? Buffer));;
  cl_memset Buffer (if Set_ then MAX_BYTE else 0) (BufferSize Bitmap);;
  mret (mkBITMAP (BitCount Bitmap) (BufferSize Bitmap) Buffer).

Definition BitmapUninit (Bitmap : BITMAP) : BITMAP := BITMAP_zero.

Definition BitmapGetMaxElementCount (Bitmap : option BITMAP) : M St Z :=
  ASSERT (bool_decide (is_Some Bitmap));;
  bm ← from_option_fault Bitmap;
  mret (BitCount bm).

Definition _BitmapChangeBit (Buffer Index : Z) (Set_ : bool) : M St unit :=
  ASSERT (negb (NULL =? Buffer));;
  let byteIndex := Index / BITMAP_ENTRY_BITS in
  let bitIndex := Index mod BITMAP_ENTRY_BITS in
  v ← read_byte (Buffer + byteIndex);
  if Set_ then write_byte (Buffer + byteIndex) (Z.lor v (Z.shiftl 1 bitIndex))
  else write_byte (Buffer + byteIndex) (Z.land v (Z.lnot (Z.shiftl 1 bitIndex))).

Definition _BitmapChangeBits (Buffer Index : Z) (Set_ : bool) (Count : Z) : M St unit :=
  for_each (Z.to_nat Count) 0 (λ i, _BitmapChangeBit Buffer (u32 (Index + i)) Set_).

Definition _BitmapGetBit (Buffer Index : Z) : M St bool :=
  ASSERT (negb (NULL =? Buffer));;
  let byteIndex := Index / BITMAP_ENTRY_BITS in
  let bitIndex := Index mod BITMAP_ENTRY_BITS in
  v ← read_byte (Buffer + byteIndex);
  mret (IsBooleanFlagOn v (Z.shiftl 1 bitIndex)).

Definition BitmapSetBitValue (Bitmap : option BITMAP) (Index : Z) (Set_ : bool) : M St unit :=
  ASSERT (bool_decide (is_Some Bitmap));;
  bm ← from_option_fault Bitmap;
  ASSERT (Index <? BitCount bm);;
  _BitmapChangeBit (BitmapBuffer bm) Index Set_.

Definition BitmapGetBitValue (Bitmap : option BITMAP) (Index : Z) : M St bool :=
  ASSERT (bool_decide (is_Some Bitmap));;
  bm ← from_option_fault Bitmap;
  ASSERT (Index <? BitCount bm);;
  _BitmapGetBit (BitmapBuffer bm) Index.

Definition BitmapSetBitsValue (Bitmap : option BITMAP) (Index Count : Z) (Set_ : bool)
    : M St unit :=
  ASSERT (bool_decide (is_Some Bitmap));;
  bm ← from_option_fault Bitmap;
  ASSERT (Index <? BitCount bm);;
  ASSERT (Index <=? u32 (BitCount bm - Count));;
  _BitmapChangeBits (BitmapBuffer bm) Index Set_ Count.

(** The inner loop of the scan: are the [ConsecutiveBits] bits from [i] all [Set_]? *)
Definition _BitmapRunAt (Buffer i ConsecutiveBits : Z) (Set_ : bool) : M St bool :=
  r ← for_until (Z.to_nat ConsecutiveBits) 0 (λ j,
    b ← _BitmapGetBit Buffer (u32 (i + j));
    mret (if negb (eqb Set_ b) then Some false else None));
  mret (default true r).

Definition _BitmapScanInternal (bm : BITMAP)
    (StartIndex FirstInvalidBitIndex ConsecutiveBits : Z) (Set_ : bool) : M St Z :=
  ASSERT (negb (0 =? ConsecutiveBits));;
  ASSERT (StartIndex <=? FirstInvalidBitIndex);;
  ASSERT (FirstInvalidBitIndex <=? BitCount bm);;
  if FirstInvalidBitIndex - StartIndex <? ConsecutiveBits then mret MAX_DWORD else
  let lastIndex := FirstInvalidBitIndex - ConsecutiveBits in
  r ← for_until (Z.to_nat (lastIndex - StartIndex + 1)) StartIndex (λ i,
    found ← _BitmapRunAt (BitmapBuffer bm) i ConsecutiveBits Set_;
    mret (if (found : bool) then Some i else None));
  mret (default MAX_DWORD r).

Definition BitmapScanFromTo (Bitmap : option BITMAP)
    (Index FirstInvalidBitIndex ConsecutiveBits : Z) (Set_ : bool) : M St Z :=
  match Bitmap with
  | None => mret MAX_DWORD
  | Some bm =>
      if 0 =? ConsecutiveBits then mret MAX_DWORD else
      if (FirstInvalidBitIndex <? Index) || (BitCount bm <? FirstInvalidBitIndex)
      then mret MAX_DWORD else
      _BitmapScanInternal bm Index FirstInvalidBitIndex ConsecutiveBits Set_
  end.

Definition BitmapScan (Bitmap : option BITMAP) (ConsecutiveBits : Z) (Set_ : bool) : M St Z :=
  bm ← from_option_fault Bitmap;
  BitmapScanFromTo Bitmap 0 (BitCount bm) ConsecutiveBits Set_.
Definition BitmapScanFrom (Bitmap : option BITMAP) (Index ConsecutiveBits : Z) (Set_ : bool)
    : M St Z :=
  bm ← from_option_fault Bitmap;
  BitmapScanFromTo Bitmap Index (BitCount bm) ConsecutiveBits Set_.

Definition BitmapScanFromToAndFlip (Bitmap : option BITMAP)
    (Index FirstInvalidBitIndex ConsecutiveBits : Z) (Set_ : bool) : M St Z :=
  match Bitmap with
  | None => mret MAX_DWORD
  | Some bm =>
      if 0 =? ConsecutiveBits then mret MAX_DWORD else
      if (FirstInvalidBitIndex <? Index) || (BitCount bm <? FirstInvalidBitIndex)
      then mret MAX_DWORD else
      bitmapIndex ← _BitmapScanInternal bm Index FirstInvalidBitIndex ConsecutiveBits Set_;
      if MAX_DWORD =? bitmapIndex then mret MAX_DWORD else
      _BitmapChangeBits (BitmapBuffer bm) bitmapIndex (negb Set_) ConsecutiveBits;;
      mret bitmapIndex
  end.
Definition BitmapScanAndFlip (Bitmap : option BITMAP) (ConsecutiveBits : Z) (Set_ : bool)
    : M St Z :=
  bm ← from_option_fault Bitmap;
  BitmapScanFromToAndFlip Bitmap 0 (BitCount bm) ConsecutiveBits Set_.
Definition BitmapScanFromAndFlip (Bitmap : option BITMAP) (Index ConsecutiveBits : Z)
    (Set_ : bool) : M St Z :=
  bm ← from_option_fault Bitmap;
  BitmapScanFromToAndFlip Bitmap Index (BitCount bm) ConsecutiveBits Set_.
End Ops.

(** * Bits in memory *)
Definition bit_at (b : gmap Z Z) (buf i : Z) (v : bool) : Prop :=
  ∃ x, b !! (buf + i / 8) = Some x ∧ byte_ok x ∧ Z.testbit x (i mod 8) = v.

(** The bitmap [bm] holds the bits [bits]. *)
Record bitmap_rep (b : gmap Z Z) (bm : BITMAP) (bits : list bool) : Prop := {
  rep_count : BitCount bm = Z.of_nat (length bits);
  rep_bound : Z.of_nat (length bits) ≤ MAX_DWORD;
  rep_buffer : BitmapBuffer bm ≠ NULL;
  rep_bits : ∀ i v, bits !! i = Some v → bit_at b (BitmapBuffer bm) (Z.of_nat i) v
}.

(** Bits [i .. i + n) are all [v]. *)
Definition is_run (bits : list bool) (i n : nat) (v : bool) : Prop :=
  ∀ j, (j < n)%nat → bits !! (i + j)%nat = Some v.
Fixpoint set_range (bits : list bool) (i n : nat) (v : bool) : list bool :=
  match n with O => bits | S n' => set_range (<[i := v]> bits) (S i) n' v end.

Lemma length_set_range bits i n v : length (set_range bits i n v) = length bits.
Proof. revert bits i. induction n; intros; simpl; [done|]. by rewrite IHn, length_insert. Qed.
Lemma lookup_set_range bits i n v j :
  set_range bits i n v !! j =
    if decide (i <= j < i + n)%nat then (λ _, v) <$> bits !! j else bits !! j.
Proof.
  revert bits i. induction n as [|n IH]; intros bits i; simpl.
  { rewrite decide_False by lia. done. }
  rewrite IH. destruct (decide (i = j)) as [->|Hne].
  - rewrite decide_False, decide_True by lia.
    destruct (bits !! j) eqn:E; simpl.
    + apply list_lookup_insert_eq. by apply lookup_lt_Some in E.
    + apply lookup_ge_None. rewrite length_insert. by apply lookup_ge_None.
  - rewrite list_lookup_insert_ne by done.
    destruct (decide (S i <= j < S i + n)%nat).
    + rewrite decide_True by lia. done.
    + rewrite decide_False by lia. done.
Qed.

(** The byte stored by the change of bit [k]. *)
Definition change_byte (x k : Z) (v : bool) : Z :=
  if v then Z.lor x (Z.shiftl 1 k) else Z.land x (Z.lnot (Z.shiftl 1 k)).
Lemma testbit_change_byte x k v j :
  0 ≤ k → 0 ≤ j < 8 →
  Z.testbit (u8 (change_byte x k v)) j = if j =? k then v else Z.testbit x j.
Proof.
  intros Hk Hj. unfold u8, change_byte. rewrite Z.mod_pow2_bits_low by lia.
  rewrite Z.shiftl_1_l.
  destruct v; rewrite ?Z.lor_spec, ?Z.land_spec, ?Z.lnot_spec, Z.pow2_bits_eqb by lia;
    rewrite (Z.eqb_sym k j); destruct (j =? k); simpl; by rewrite ?orb_true_r, ?orb_false_r,
      ?andb_false_r, ?andb_true_r.
Qed.

Section Specs.
Context {St : Type} `{HasBytes St}.
Implicit Types (s : St) (bits : list bool).

Lemma _BitmapGetBit_run s buf i v :
  buf ≠ NULL → bit_at (get_bytes s) buf i v → _BitmapGetBit buf i s = Ret (v, s).
Proof.
  intros Hb (x & Hx & _ & Hv). unfold _BitmapGetBit.
  massert ltac:(apply negb_true_iff, Z.eqb_neq; congruence).
  mrun (read_byte_ok s _ x Hx). unfold mret, M_ret. do 2 f_equal.
  rewrite IsBooleanFlagOn_testbit; [done|]. by apply Z.mod_pos_bound.
Qed.

Lemma _BitmapChangeBit_run s buf i v v0 :
  buf ≠ NULL → bit_at (get_bytes s) buf i v0 →
  ∃ b', _BitmapChangeBit buf i v s = Ret (tt, set_bytes b' s)
    ∧ bit_at b' buf i v
    ∧ (∀ j w, j ≠ i → bit_at (get_bytes s) buf j w → bit_at b' buf j w)
    ∧ (∀ q, q ≠ buf + i / 8 → b' !! q = get_bytes s !! q).
Proof.
  intros Hb (x & Hx & Hok & Hv). unfold _BitmapChangeBit.
  exists (<[buf + i / 8 := u8 (change_byte x (i mod 8) v)]> (get_bytes s)).
  pose proof (Z.mod_pos_bound i 8 ltac:(lia)) as Hm. split_and!.
  - massert ltac:(apply negb_true_iff, Z.eqb_neq; congruence).
    mrun (read_byte_ok s _ x Hx). unfold change_byte.
    destruct v; by rewrite write_byte_ok by (by exists x).
  - eexists. split; [apply lookup_insert_eq|]. split; [apply u8_ok|].
    rewrite testbit_change_byte by lia. by rewrite Z.eqb_refl.
  - intros j w Hne (y & Hy & Hyok & Hw). unfold bit_at.
    destruct (decide (i / 8 = j / 8)) as [He|He].
    + rewrite <-He, lookup_insert_eq. eexists. split; [done|]. split; [apply u8_ok|].
      pose proof (Z.mod_pos_bound j 8 ltac:(lia)). rewrite testbit_change_byte by lia.
      destruct (Z.eqb_spec (j mod 8) (i mod 8)) as [Hej|_].
      * pose proof (Z.div_mod i 8). pose proof (Z.div_mod j 8). lia.
      * rewrite <-Hw, He in *. congruence.
    + rewrite lookup_insert_ne by lia. eauto.
  - intros q Hq. by rewrite lookup_insert_ne.
Qed.

(** Setting a range of bits, in the terms of the represented list. *)
Lemma _BitmapChangeBits_run s bm bits i n v :
  bitmap_rep (get_bytes s) bm bits → (i + n <= length bits)%nat →
  ∃ b', _BitmapChangeBits (BitmapBuffer bm) (Z.of_nat i) v (Z.of_nat n) s
      = Ret (tt, set_bytes b' s)
    ∧ bitmap_rep b' bm (set_range bits i n v)
    ∧ (∀ q, ¬ (BitmapBuffer bm ≤ q ≤ BitmapBuffer bm + (BitCount bm - 1) / 8) →
        b' !! q = get_bytes s !! q).
Proof.
  intros Hrep Hn. unfold _BitmapChangeBits. rewrite Nat2Z.id.
  enough (∀ k s bits, bitmap_rep (get_bytes s) bm bits → (i + k + n <= length bits)%nat →
    ∃ b', for_each n (Z.of_nat k)
        (λ i0, _BitmapChangeBit (BitmapBuffer bm) (u32 (Z.of_nat i + i0)) v) s
        = Ret (tt, set_bytes b' s)
      ∧ bitmap_rep b' bm (set_range bits (i + k) n v)
      ∧ (∀ q, ¬ (BitmapBuffer bm ≤ q ≤ BitmapBuffer bm + (BitCount bm - 1) / 8) →
          b' !! q = get_bytes s !! q)) as Hgen.
  { specialize (Hgen O s bits Hrep). rewrite Nat.add_0_r in Hgen. by apply Hgen. }
  clear. induction n as [|n IH]; intros k s bits Hrep Hk; cbn [for_each set_range].
  { exists (get_bytes s). unfold mret, M_ret. rewrite set_get_bytes. done. }
  destruct Hrep as [Hc Hbd Hbuf Hbits].
  replace (u32 (Z.of_nat i + Z.of_nat k)) with (Z.of_nat (i + k)).
  2: { unfold u32, MAX_DWORD in *. rewrite Z.mod_small; lia. }
  destruct (lookup_lt_is_Some_2 bits (i + k)) as [v0 Hv0]; [lia|].
  destruct (_BitmapChangeBit_run s (BitmapBuffer bm) (Z.of_nat (i + k)) v v0 Hbuf (Hbits _ _ Hv0))
    as (b1 & Hrun & Hset & Hkeep & Hframe).
  mrun Hrun. destruct (IH (S k) (set_bytes b1 s) (<[(i + k)%nat := v]> bits))
    as (b2 & Hrun2 & Hrep2 & Hframe2).
  - rewrite get_set_bytes. split; rewrite ?length_insert; [done..|].
    intros j w Hj. destruct (decide ((i + k)%nat = j)) as [<-|Hne].
    + rewrite list_lookup_insert_eq in Hj by lia. by simplify_eq.
    + rewrite list_lookup_insert_ne in Hj by done. apply Hkeep; [lia|by apply Hbits].
  - rewrite length_insert. lia.
  - exists b2. replace (Z.of_nat k + 1) with (Z.of_nat (S k)) by lia.
    rewrite Hrun2, set_set_bytes. split; [done|]. split.
    { by replace (S (i + k)) with (i + S k)%nat by lia. }
    intros q Hq. rewrite Hframe2, get_set_bytes by done. apply Hframe.
    intros ->. apply Hq. rewrite Hc.
    pose proof (Z.div_pos (Z.of_nat (i + k)) 8 ltac:(lia) ltac:(lia)).
    pose proof (Z.div_le_mono (Z.of_nat (i + k)) (Z.of_nat (length bits) - 1) 8). lia.
Qed.

(** The pure version of the inner loop. *)
Lemma _BitmapRunAt_run s bm bits i n v :
  bitmap_rep (get_bytes s) bm bits → (i + n <= length bits)%nat →
  ∃ f : bool, _BitmapRunAt (BitmapBuffer bm) (Z.of_nat i) (Z.of_nat n) v s = Ret (f, s)
    ∧ (f = true ↔ is_run bits i n v).
Proof.
  intros [Hc Hbd Hbuf Hbits] Hn. unfold _BitmapRunAt, is_run. rewrite Nat2Z.id.
  enough (∀ m k, (k + m = n)%nat →
    ∃ o, for_until m (Z.of_nat k) (λ j,
        b ← _BitmapGetBit (BitmapBuffer bm) (u32 (Z.of_nat i + j));
        mret (if negb (eqb v b) then Some false else None)) s = Ret (o, s)
      ∧ (default true o = true ↔ ∀ j, (k <= j < n)%nat → bits !! (i + j)%nat = Some v)) as Hgen.
  { destruct (Hgen n O) as (o & Ho & Hiff); [lia|].
    exists (default true o). split; [by mrun Ho|]. rewrite Hiff. split; intros Hj j ?; apply Hj; lia. }
  intros m. induction m as [|m IH]; intros k Hk; cbn [for_until].
  { exists None. split; [done|]. split; [|done]. intros _ j. lia. }
  destruct (lookup_lt_is_Some_2 bits (i + k)) as [w Hw]; [lia|].
  replace (u32 (Z.of_nat i + Z.of_nat k)) with (Z.of_nat (i + k)).
  2: { unfold u32, MAX_DWORD in *. rewrite Z.mod_small; lia. }
  erewrite bind_Ret by (mrun (_BitmapGetBit_run s _ _ w Hbuf (Hbits _ _ Hw)); done).
  destruct (eqb v w) eqn:Evw; cbn [negb].
  - apply eqb_prop in Evw as ->. destruct (IH (S k)) as (o & Ho & Hiff); [lia|].
    exists o. replace (Z.of_nat k + 1) with (Z.of_nat (S k)) by lia. split; [done|].
    rewrite Hiff. split; intros Hj j ?; [|apply Hj; lia].
    destruct (decide (k = j)) as [->|]; [done|apply Hj; lia].
  - exists (Some false). split; [done|]. split; [done|]. intros Hj.
    rewrite (Hj k) in Hw by lia. simplify_eq. by rewrite eqb_reflx in Evw.
Qed.

(** What a scan answers for a run of [n] bits [v] between [lo] and [hi]. *)
Definition scan_answer bits (lo hi n : nat) (v : bool) (r : Z) : Prop :=
  (r = MAX_DWORD ∧ ∀ i, (lo <= i)%nat → (i + n <= hi)%nat → ¬ is_run bits i n v)
  ∨ (∃ i, r = Z.of_nat i ∧ (lo <= i)%nat ∧ (i + n <= hi)%nat ∧ is_run bits i n v
      ∧ ∀ i', (lo <= i' < i)%nat → ¬ is_run bits i' n v).

Lemma _BitmapScanInternal_run s bm bits lo hi n v :
  bitmap_rep (get_bytes s) bm bits → n ≠ 0%nat → (lo <= hi <= length bits)%nat →
  ∃ r, _BitmapScanInternal bm (Z.of_nat lo) (Z.of_nat hi) (Z.of_nat n) v s = Ret (r, s)
    ∧ scan_answer bits lo hi n v r.
Proof.
  intros Hrep Hn Hlo. unfold _BitmapScanInternal.
  massert ltac:(apply negb_true_iff, Z.eqb_neq; lia).
  massert ltac:(apply Z.leb_le; lia).
  pose proof (rep_count _ _ _ Hrep) as Hc.
  massert ltac:(apply Z.leb_le; lia).
  destruct (Z.ltb_spec (Z.of_nat hi - Z.of_nat lo) (Z.of_nat n)) as [Hlt|Hge].
  { exists MAX_DWORD. split; [done|]. left. split; [done|]. intros i. lia. }
  replace (Z.to_nat (Z.of_nat hi - Z.of_nat n - Z.of_nat lo + 1)) with (hi - n - lo + 1)%nat by lia.
  enough (∀ m k, (k + m = hi - n + 1)%nat → (lo <= k)%nat →
    (∀ i', (lo <= i' < k)%nat → ¬ is_run bits i' n v) →
    ∃ o, for_until m (Z.of_nat k) (λ i, found ← _BitmapRunAt (BitmapBuffer bm) i (Z.of_nat n) v;
        mret (if (found : bool) then Some i else None)) s = Ret (o, s)
      ∧ scan_answer bits lo hi n v (default MAX_DWORD o)) as Hgen.
  { destruct (Hgen (hi - n - lo + 1)%nat lo) as (o & Ho & Hans); [lia|lia|lia|].
    eexists. split; [by mrun Ho|done]. }
  intros m. induction m as [|m IH]; intros k Hk Hlk Hnone; cbn [for_until].
  { exists None. split; [done|]. left. split; [done|]. intros i ? ?. apply Hnone. lia. }
  destruct (_BitmapRunAt_run s bm bits k n v Hrep) as (f & Hf & Hiff); [lia|].
  erewrite bind_Ret by (by mrun Hf). destruct f.
  - exists (Some (Z.of_nat k)). split; [done|]. right. exists k. split_and!; [done|lia|lia| |done].
    by apply Hiff.
  - destruct (IH (S k)) as (o & Ho & Hans); [lia|lia| |].
    { intros i' Hi'. destruct (decide (i' = k)) as [->|]; [|apply Hnone; lia].
      intros Hr. by apply Hiff in Hr. }
    exists o. replace (Z.of_nat k + 1) with (Z.of_nat (S k)) by lia. done.
Qed.

Lemma scan_guard bm bits lo hi :
  BitCount bm = Z.of_nat (length bits) → (lo <= hi <= length bits)%nat →
  (Z.of_nat hi <? Z.of_nat lo) || (BitCount bm <? Z.of_nat hi) = false.
Proof. intros -> ?. apply orb_false_iff. rewrite !Z.ltb_ge. lia. Qed.

Lemma BitmapScanFromTo_run s bm bits lo hi n v :
  bitmap_rep (get_bytes s) bm bits → n ≠ 0%nat → (lo <= hi <= length bits)%nat →
  ∃ r, BitmapScanFromTo (Some bm) (Z.of_nat lo) (Z.of_nat hi) (Z.of_nat n) v s = Ret (r, s)
    ∧ scan_answer bits lo hi n v r.
Proof.
  intros Hrep Hn Hlo. unfold BitmapScanFromTo.
  rewrite (proj2 (Z.eqb_neq 0 (Z.of_nat n))) by lia.
  rewrite (scan_guard bm bits lo hi (rep_count _ _ _ Hrep)) by done.
  by apply _BitmapScanInternal_run.
Qed.

Lemma BitmapScanFromToAndFlip_run s bm bits lo hi n v :
  bitmap_rep (get_bytes s) bm bits → n ≠ 0%nat → (lo <= hi <= length bits)%nat →
  ∃ r b', BitmapScanFromToAndFlip (Some bm) (Z.of_nat lo) (Z.of_nat hi) (Z.of_nat n) v s
      = Ret (r, set_bytes b' s)
    ∧ scan_answer bits lo hi n v r
    ∧ bitmap_rep b' bm (if r =? MAX_DWORD then bits
                        else set_range bits (Z.to_nat r) n (negb v))
    ∧ (∀ q, ¬ (BitmapBuffer bm ≤ q ≤ BitmapBuffer bm + (BitCount bm - 1) / 8) →
        b' !! q = get_bytes s !! q).
Proof.
  intros Hrep Hn Hlo. unfold BitmapScanFromToAndFlip.
  rewrite (proj2 (Z.eqb_neq 0 (Z.of_nat n))) by lia.
  rewrite (scan_guard bm bits lo hi (rep_count _ _ _ Hrep)) by done.
  destruct (_BitmapScanInternal_run s bm bits lo hi n v Hrep Hn Hlo) as (r & Hr & Hans).
  mrun Hr. exists r. pose proof (rep_bound _ _ _ Hrep).
  destruct Hans as [[-> Hno]|(i & -> & Hi1 & Hi2 & Hi3 & Hi4)].
  - exists (get_bytes s). unfold mret, M_ret. rewrite set_get_bytes. simpl.
    split_and!; [done|by left|done|done].
  - rewrite (proj2 (Z.eqb_neq MAX_DWORD (Z.of_nat i))), (proj2 (Z.eqb_neq (Z.of_nat i) MAX_DWORD))
      by lia.
    destruct (_BitmapChangeBits_run s bm bits i n (negb v) Hrep) as (b' & Hb & Hrep' & Hfr); [lia|].
    exists b'. mrun Hb. rewrite Nat2Z.id. split_and!; [done|right; by exists i|done|done].
Qed.

(** BitmapScanFromTo answers the first run: the least index in the window from which
    the requested bits all have the requested value, or MAX_DWORD when there is none. *)
Theorem BitmapScanFromTo_first_run s bm bits lo hi n v :
  bitmap_rep (get_bytes s) bm bits → n ≠ 0%nat → (lo <= hi <= length bits)%nat →
  ∃ r, BitmapScanFromTo (Some bm) (Z.of_nat lo) (Z.of_nat hi) (Z.of_nat n) v s = Ret (r, s)
    ∧ ((r = MAX_DWORD ∧ ∀ i, (lo <= i)%nat → (i + n <= hi)%nat → ¬ is_run bits i n v)
      ∨ (∃ i, r = Z.of_nat i ∧ (lo <= i)%nat ∧ (i + n <= hi)%nat ∧ is_run bits i n v
          ∧ ∀ i', (lo <= i' < i)%nat → ¬ is_run bits i' n v)).
Proof. apply BitmapScanFromTo_run. Qed.

(** C21: BitmapScanAndFlip allocates: a run it returns consisted of bits of the requested
    value, exactly that run is flipped, every other bit and every other byte of memory
    keeps its value, and a failed scan changes nothing. *)
Theorem BitmapScanAndFlip_allocates s bm bits n v :
  bitmap_rep (get_bytes s) bm bits → n ≠ 0%nat →
  ∃ r s', BitmapScanAndFlip (Some bm) (Z.of_nat n) v s = Ret (r, s')
    ∧ (∀ q, ¬ (BitmapBuffer bm ≤ q ≤ BitmapBuffer bm + (BitCount bm - 1) / 8) →
        get_bytes s' !! q = get_bytes s !! q)
    ∧ ((r = MAX_DWORD ∧ bitmap_rep (get_bytes s') bm bits ∧ ∀ i, ¬ is_run bits i n v)
       ∨ ∃ i bits', r = Z.of_nat i ∧ is_run bits i n v ∧ bitmap_rep (get_bytes s') bm bits'
           ∧ is_run bits' i n (negb v)
           ∧ ∀ j, ¬ (i <= j < i + n)%nat → bits' !! j = bits !! j).
Proof.
  intros Hrep Hn. unfold BitmapScanAndFlip.
  destruct (BitmapScanFromToAndFlip_run s bm bits 0 (length bits) n v Hrep Hn ltac:(lia))
    as (r & b' & Hrun & Hans & Hrep' & Hfr).
  exists r, (set_bytes b' s).
  split; [mderef; rewrite (rep_count _ _ _ Hrep); exact Hrun|]. rewrite get_set_bytes.
  split; [exact Hfr|].
  pose proof (rep_bound _ _ _ Hrep).
  destruct Hans as [[-> Hno]|(i & -> & _ & Hi & Hr & _)].
  - left. split_and!; [done|done|]. intros i Hr. apply (Hno i); [lia| |done].
    destruct n as [|n]; [done|]. specialize (Hr n ltac:(lia)). apply lookup_lt_Some in Hr. lia.
  - right. exists i, (set_range bits i n (negb v)).
    rewrite (proj2 (Z.eqb_neq (Z.of_nat i) MAX_DWORD)), Nat2Z.id in Hrep' by lia.
    split_and!; [done|done|done| |].
    + intros j Hj. rewrite lookup_set_range, decide_True by lia. by rewrite (Hr j Hj).
    + intros j Hj. by rewrite lookup_set_range, decide_False.
Qed.

Lemma BitmapSetBitsValue_run s bm bits i n v :
  bitmap_rep (get_bytes s) bm bits → (i < length bits)%nat → (i + n <= length bits)%nat →
  ∃ b', BitmapSetBitsValue (Some bm) (Z.of_nat i) (Z.of_nat n) v s = Ret (tt, set_bytes b' s)
    ∧ bitmap_rep b' bm (set_range bits i n v)
    ∧ (∀ q, ¬ (BitmapBuffer bm ≤ q ≤ BitmapBuffer bm + (BitCount bm - 1) / 8) →
        b' !! q = get_bytes s !! q).
Proof.
  intros Hrep Hi Hn. unfold BitmapSetBitsValue.
  destruct (_BitmapChangeBits_run s bm bits i n v Hrep Hn) as (b' & Hrun & Hrep' & Hfr).
  destruct Hrep as [Hc Hbd Hbuf Hbits]. exists b'. split_and!; [|done|done].
  massert ltac:(by apply bool_decide_eq_true). mderef. unfold MAX_DWORD in Hbd.
  massert ltac:(apply Z.ltb_lt; lia).
  massert ltac:(apply Z.leb_le; unfold u32; rewrite Z.mod_small; lia).
  exact Hrun.
Qed.

(** BitmapSetBitsValue sets exactly the given range, BitmapGetBitValue reads the
    represented bit. *)
Theorem BitmapSetBitsValue_sets s bm bits i n v :
  bitmap_rep (get_bytes s) bm bits → (i < length bits)%nat → (i + n <= length bits)%nat →
  ∃ s', BitmapSetBitsValue (Some bm) (Z.of_nat i) (Z.of_nat n) v s = Ret (tt, s')
    ∧ bitmap_rep (get_bytes s') bm (set_range bits i n v)
    ∧ ∀ j w, (j < length bits)%nat → set_range bits i n v !! j = Some w →
        BitmapGetBitValue (Some bm) (Z.of_nat j) s' = Ret (w, s').
Proof.
  intros Hrep Hi Hn. destruct (BitmapSetBitsValue_run s bm bits i n v Hrep Hi Hn)
    as (b' & Hrun & Hrep' & _).
  exists (set_bytes b' s). rewrite get_set_bytes. split_and!; [done|done|].
  intros j w Hj Hw. unfold BitmapGetBitValue. pose proof (rep_count _ _ _ Hrep).
  massert ltac:(by apply bool_decide_eq_true). mderef.
  massert ltac:(apply Z.ltb_lt; lia).
  apply _BitmapGetBit_run; [apply (rep_buffer _ _ _ Hrep)|]. rewrite get_set_bytes.
  by apply (rep_bits _ _ _ Hrep').
Qed.
End Specs.

(** * Initialisation and an unguarded count *)
Section Init.
Context {St : Type} `{HasBytes St}.
Implicit Types (s : St) (bits : list bool).

Lemma BitmapPreinit_run s n :
  0 < n ≤ MAX_DWORD →
  BitmapPreinit n s = Ret ((mkBITMAP n ((n + 7) / 8) NULL, (n + 7) / 8), s).
Proof.
  intros Hn. unfold BitmapPreinit, MAX_DWORD in *.
  massert ltac:(apply negb_true_iff, Z.eqb_neq; lia).
  replace (u32 (AlignAddressUpper n BITMAP_ENTRY_BITS / BITMAP_ENTRY_BITS)) with ((n + 7) / 8);
    [done|].
  change BITMAP_ENTRY_BITS with (2 ^ 3). rewrite AlignAddressUpper_pow2 by lia.
  change (2 ^ 3) with 8. rewrite (Z.mul_comm 8), Z.div_mul by lia.
  replace (n + 8 - 1) with (n + 7) by lia.
  unfold u32. rewrite Z.mod_small; [done|]. split; [apply Z.div_pos; lia|].
  apply Z.div_lt_upper_bound; lia.
Qed.

Lemma BitmapInitEx_run s n buf v (size := (n + 7) / 8) :
  0 < n ≤ MAX_DWORD → buf ≠ NULL → mapped (get_bytes s) buf size →
  ∃ b', BitmapInitEx (mkBITMAP n size NULL) buf v s = Ret (mkBITMAP n size buf, set_bytes b' s)
    ∧ bitmap_rep b' (mkBITMAP n size buf) (replicate (Z.to_nat n) v)
    ∧ (∀ q, ¬ (buf ≤ q < buf + size) → b' !! q = get_bytes s !! q).
Proof.
  intros Hn Hb Hm. pose proof (Z.div_pos (n + 7) 8 ltac:(lia) ltac:(lia)) as Hs.
  eexists. split.
  { unfold BitmapInitEx. massert ltac:(apply negb_true_iff, Z.eqb_neq; congruence).
    erewrite bind_Ret by (apply cl_memset_run; [done|exact Hs|exact Hm]). done. }
  cbn [BufferSize BitCount]. fold size in Hs |- *. split.
  - split; cbn [BitCount BitmapBuffer]; rewrite ?length_replicate; [lia|lia|done|].
    intros i w Hi. apply lookup_replicate in Hi as [-> Hi].
    set (x := if v then MAX_BYTE else 0).
    assert (Hx : byte_ok x) by (unfold x, byte_ok, MAX_BYTE; destruct v; lia).
    exists x. split_and!; [|done|].
    + pose proof (store_at (get_bytes s) buf (replicate (Z.to_nat size) x)) as Hst.
      rewrite fmap_replicate, (u8_id x Hx) in Hst.
      rewrite <-(Hst (Z.to_nat (Z.of_nat i / 8)) x).
      * f_equal. pose proof (Z.div_pos (Z.of_nat i) 8). lia.
      * apply lookup_replicate. split; [done|].
        pose proof (Z.div_pos (Z.of_nat i) 8).
        assert (Z.of_nat i / 8 < size); [|lia]. unfold size.
        apply Z.div_lt_upper_bound; [lia|]. pose proof (Z.mul_succ_div_gt (n + 7) 8). lia.
    + pose proof (Z.mod_pos_bound (Z.of_nat i) 8 ltac:(lia)) as Hr.
      unfold x. destruct v; [|apply Z.bits_0].
      change MAX_BYTE with (Z.ones 8). by apply Z.ones_spec_low.
  - intros q Hq. apply store_out. rewrite length_replicate. lia.
Qed.

(** A buffer of the size BitmapPreinit asks for is enough for every bit, and BitmapInitEx
    makes the bitmap represent that many copies of the initial value. *)
Theorem BitmapInit_fills s n buf v (size := (n + 7) / 8) :
  0 < n ≤ MAX_DWORD → buf ≠ NULL → mapped (get_bytes s) buf size →
  ∃ bm bm' s', BitmapPreinit n s = Ret ((bm, size), s)
    ∧ BitmapInitEx bm buf v s = Ret (bm', s')
    ∧ bitmap_rep (get_bytes s') bm' (replicate (Z.to_nat n) v)
    ∧ (∀ q, ¬ (buf ≤ q < buf + size) → get_bytes s' !! q = get_bytes s !! q).
Proof.
  intros Hn Hb Hm. destruct (BitmapInitEx_run s n buf v Hn Hb Hm) as (b' & Hr & Hrep & Hfr).
  eexists _, _, _. split; [by apply BitmapPreinit_run|]. split; [exact Hr|].
  by rewrite get_set_bytes.
Qed.

(** The bound of BitmapSetBitsValue is computed in 32 bits: a count larger than the
    whole bitmap wraps it, passes the assertion and runs off the end of the buffer. *)
Theorem BitmapSetBitsValue_count_wraps s bm bits i n v :
  bitmap_rep (get_bytes s) bm bits → (i < length bits)%nat →
  Z.of_nat (length bits) < n ≤ MAX_DWORD →
  Z.of_nat i ≤ 2 ^ 32 + Z.of_nat (length bits) - n →
  Z.of_nat (length bits) mod 8 = 0 →
  get_bytes s !! (BitmapBuffer bm + Z.of_nat (length bits) / 8) = None →
  BitmapSetBitsValue (Some bm) (Z.of_nat i) n v s = Fault.
Proof.
  intros Hrep Hi Hn Hw Hal Hend. unfold BitmapSetBitsValue.
  massert ltac:(by apply bool_decide_eq_true). mderef.
  rewrite (rep_count _ _ _ Hrep). unfold MAX_DWORD in *.
  massert ltac:(apply Z.ltb_lt; lia).
  assert (Hu : u32 (Z.of_nat (length bits) - n) = 2 ^ 32 + Z.of_nat (length bits) - n).
  { unfold u32. symmetry. apply (Z.mod_unique _ _ (-1)); lia. }
  rewrite Hu. massert ltac:(apply Z.leb_le; lia).
  set (len := length bits) in *.
  assert (Hsplit : Z.to_nat n = ((len - i) + S (Z.to_nat n - (len - i) - 1))%nat) by lia.
  unfold _BitmapChangeBits. rewrite Hsplit. generalize (Z.to_nat n - (len - i) - 1)%nat. intros tl.
  destruct (_BitmapChangeBits_run s bm bits i (len - i) v Hrep) as (b' & Hrun & _ & Hfr); [lia|].
  unfold _BitmapChangeBits in Hrun. rewrite Nat2Z.id in Hrun.
  rewrite for_each_app, (bind_Ret _ _ _ _ _ Hrun). cbn [for_each]. apply bind_Fault.
  unfold _BitmapChangeBit. pose proof (rep_bound _ _ _ Hrep) as Hbd. fold len in Hbd.
  assert (Hidx : u32 (Z.of_nat i + (0 + Z.of_nat (len - i))) = Z.of_nat len)
    by (unfold u32, MAX_DWORD in *; rewrite Z.mod_small; lia).
  rewrite Hidx. pose proof (rep_buffer _ _ _ Hrep).
  massert ltac:(apply negb_true_iff, Z.eqb_neq; congruence).
  apply bind_Fault, read_byte_fault. rewrite get_set_bytes. rewrite Hfr; [done|].
  pose proof (Z.div_mod (Z.of_nat len) 8 ltac:(lia)).
  rewrite (rep_count _ _ _ Hrep). fold len.
  pose proof (Z.div_lt_upper_bound (Z.of_nat len - 1) 8 (Z.of_nat len / 8)).
  change BITMAP_ENTRY_BITS with 8. lia.
Qed.
End Init.

(** * Concrete runs *)
Module BitmapExample.
Definition mem : gmap Z Z := list_to_map [(0x1000, 5); (0x1001, 2)].
Definition bm : BITMAP := mkBITMAP 16 2 0x1000.
Definition bits : list bool := [true; false; true; false; false; false; false; false;
  false; true; false; false; false; false; false; false].
Lemma rep : bitmap_rep (get_bytes mem) bm bits.
Proof.
  split; [done|done|done|]. intros i v Hi.
  do 16 (destruct i as [|i]; [simpl in Hi; simplify_eq; eexists; split_and!;
    [vm_compute; reflexivity|by split|vm_compute; reflexivity]|]). done.
Qed.

Lemma BitmapScanFromTo_first_run_witness : ∃ r,
  BitmapScanFromTo (Some bm) 1 16 3 false mem = Ret (r, mem).
Proof.
  destruct (BitmapScanFromTo_first_run mem bm bits 1 16 3 false rep) as (r & Hr & _);
    [done|simpl; lia|]. by exists r.
Defined.
Lemma BitmapScanAndFlip_allocates_witness : ∃ r s',
  BitmapScanAndFlip (Some bm) 3 false mem = Ret (r, s').
Proof.
  destruct (BitmapScanAndFlip_allocates mem bm bits 3 false rep) as (r & s' & Hr & _); [done|].
  by exists r, s'.
Defined.
Lemma BitmapSetBitsValue_sets_witness : ∃ s',
  BitmapSetBitsValue (Some bm) 2 5 true mem = Ret (tt, s').
Proof.
  destruct (BitmapSetBitsValue_sets mem bm bits 2 5 true rep) as (s' & Hr & _);
    [simpl; lia..|]. by exists s'.
Defined.
Lemma BitmapInit_fills_witness : ∃ bm bm' s',
  BitmapPreinit 12 mem = Ret ((bm, 2), mem) ∧ BitmapInitEx bm 0x1000 true mem = Ret (bm', s').
Proof.
  destruct (BitmapInit_fills mem 12 0x1000 true) as (b & b' & s' & H1 & H2 & _);
    [done|done| |by exists b, b', s'].
  change ((12 + 7) / 8) with 2. intros q Hq.
  assert (q = 0x1000 ∨ q = 0x1001) as [-> | ->] by lia; by eexists.
Defined.
Lemma BitmapSetBitsValue_count_wraps_witness :
  BitmapSetBitsValue (Some bm) 3 100 true mem = Fault.
Proof.
  apply (BitmapSetBitsValue_count_wraps mem bm bits 3 100 true rep);
    [simpl; lia|split; [simpl; lia|done]|simpl; lia|done|reflexivity].
Defined.
End BitmapExample.
