(* ===== verification/Cpu.v ===== *)
(** HAL/inc/cpu_utils.h, HAL9000/headers/cpumu.h: the part of a logical CPU the
    synchronisation code sees, its flags register and its APIC id. *)
From S2P Require Import Prelude.

Class HasCpu (St : Type) := {
  get_rflags : St → Z;
  set_rflags : Z → St → St;
  get_apic_id : St → Z;
  get_set_rflags f s : get_rflags (set_rflags f s) = f;
  set_set_rflags f f' s : set_rflags f (set_rflags f' s) = set_rflags f s;
  set_get_rflags s : set_rflags (get_rflags s) s = s;
  apic_set_rflags f s : get_apic_id (set_rflags f s) = get_apic_id s
}.

Definition RFLAGS_INTERRUPT_FLAG_BIT : Z := Z.shiftl 1 9.
Definition INTR_OFF : bool := false.
Definition INTR_ON : bool := true.
Definition CURRENT_CPU_MASK : Z := 0x8000000000000000.

(** The flags with interrupts enabled or disabled. *)
Definition intr_flags (IntrState : bool) (rFlags : Z) : Z :=
  if IntrState then Z.lor rFlags RFLAGS_INTERRUPT_FLAG_BIT
  else Z.land rFlags (u64 (Z.lnot RFLAGS_INTERRUPT_FLAG_BIT)).
Definition intr_of (rFlags : Z) : bool := IsBooleanFlagOn rFlags RFLAGS_INTERRUPT_FLAG_BIT.
Definition cpu_of (apic : Z) : Z := Z.lor CURRENT_CPU_MASK apic.

#[global] Arguments intr_flags : simpl never.
#[global] Arguments intr_of : simpl never.
#[global] Arguments cpu_of : simpl never.

Section Ops.
Context {St : Type} `{HasCpu St}.

Definition CpuIntrGetState : M St bool := gets (λ s, intr_of (get_rflags s)).
Definition CpuIntrSetState (IntrState : bool) : M St bool :=
  rFlags ← gets get_rflags;
  let newFlags := intr_flags IntrState rFlags in
  modify (set_rflags newFlags);;
  mret (intr_of rFlags).
Definition CpuIntrDisable : M St bool := CpuIntrSetState false.
Definition CpuIntrEnable : M St bool := CpuIntrSetState true.
Definition CpuGetCurrent : M St Z := gets (λ s, cpu_of (get_apic_id s)).

Lemma CpuIntrSetState_run b s :
  CpuIntrSetState b s = Ret (intr_of (get_rflags s), set_rflags (intr_flags b (get_rflags s)) s).
Proof. done. Qed.
Lemma CpuIntrDisable_run s :
  CpuIntrDisable s = Ret (intr_of (get_rflags s), set_rflags (intr_flags false (get_rflags s)) s).
Proof. done. Qed.
Lemma CpuGetCurrent_run s : CpuGetCurrent s = Ret (cpu_of (get_apic_id s), s).
Proof. done. Qed.
End Ops.

(** An APIC id is a byte. *)
Definition apic_ok (a : Z) : Prop := 0 ≤ a < 256.

Lemma cpu_of_add a : apic_ok a → cpu_of a = CURRENT_CPU_MASK + a.
Proof.
  unfold apic_ok. intros Ha. unfold cpu_of. rewrite Z.add_nocarry_lxor, Z.lxor_lor; [done|..].
  all: change CURRENT_CPU_MASK with (2 ^ 63); apply Z.bits_inj'; intros n Hn;
    rewrite Z.land_spec, Z.pow2_bits_eqb, Z.bits_0 by lia;
    destruct (Z.eqb_spec 63 n) as [<-|]; [|done]; cbn [andb];
    apply Z.bits_above_log2; [lia|];
    destruct (decide (a = 0)) as [->|]; [done|];
    apply Z.log2_lt_pow2; lia.
Qed.
Lemma cpu_of_inj a b : apic_ok a → apic_ok b → cpu_of a = cpu_of b → a = b.
Proof. intros Ha Hb. rewrite !cpu_of_add by done. lia. Qed.
Lemma cpu_of_not_null a : apic_ok a → cpu_of a ≠ NULL.
Proof. intros Ha. rewrite cpu_of_add by done. unfold apic_ok, NULL, CURRENT_CPU_MASK in *. lia. Qed.

Lemma intr_of_testbit f : intr_of f = Z.testbit f 9.
Proof. by apply IsBooleanFlagOn_testbit. Qed.
Lemma intr_flags_idemp b f : intr_flags b (intr_flags b f) = intr_flags b f.
Proof.
  unfold intr_flags. destruct b.
  - by rewrite <-Z.lor_assoc, Z.lor_diag.
  - by rewrite <-Z.land_assoc, Z.land_diag.
Qed.
Lemma intr_of_flags b f : intr_of (intr_flags b f) = b.
Proof.
  rewrite intr_of_testbit. unfold intr_flags, RFLAGS_INTERRUPT_FLAG_BIT. destruct b.
  - rewrite Z.lor_spec. apply orb_true_r.
  - rewrite Z.land_spec. apply andb_false_r.
Qed.

(** A field that shares no memory with the CPU's registers. *)
Class LensCpu {St A} `{HasCpu St} (l : lens St A) : Prop := {
  lens_rflags a s : get_rflags (lset l a s) = get_rflags s;
  lens_apic a s : get_apic_id (lset l a s) = get_apic_id s;
  rflags_lens f s : lget l (set_rflags f s) = lget l s;
  lens_rflags_comm f a s : set_rflags f (lset l a s) = lset l a (set_rflags f s)
}.

Create Rewrite HintDb spin.
#[export] Hint Rewrite @get_set_rflags @set_set_rflags @set_get_rflags @apic_set_rflags
  @lget_lset @lset_lset @lset_lget @lens_rflags @lens_apic @rflags_lens @lens_rflags_comm intr_flags_idemp : spin.

