(* ===== verification/Spinlock.v ===== *)
(** CommonLib/src/spinlock.c, monlock.c, lock_common.c: the exclusive locks.

    The statements of an operation that touch shared memory are definitions of
    their own ([Spinlock_spin], [Spinlock_take], ...). The operations compose them
    the way the code does, for the components that take a lock in the course of
    their work; [spin_step] runs them one at a time, for the interleavings of
    several CPUs. *)
From S2P Require Import Prelude Cpu.

Record SPINLOCK := mkSPINLOCK {
  State : Z;
  Holder : Z;
  FunctionWhichTookLock : Z
}.
Definition SPINLOCK_zero : SPINLOCK := mkSPINLOCK 0 NULL NULL.
Definition LOCK_TAKEN : Z := 1.
Definition LOCK_FREE : Z := 0.

Definition with_State (v : Z) (k : SPINLOCK) : SPINLOCK :=
  mkSPINLOCK v (Holder k) (FunctionWhichTookLock k).
Definition with_Holder (v : Z) (k : SPINLOCK) : SPINLOCK :=
  mkSPINLOCK (State k) v (FunctionWhichTookLock k).
Definition with_Function (v : Z) (k : SPINLOCK) : SPINLOCK :=
  mkSPINLOCK (State k) (Holder k) v.

Section Ops.
Context {St : Type} `{HasCpu St}.
Variables (fuel : nat) (Lock : lens St SPINLOCK).

(** Interlocked operations on the State byte: they return the old value. *)
Definition cmpxchg_State (exchange comparand : Z) : M St Z :=
  lupdate Lock (λ k, (State k, if State k =? comparand then with_State exchange k else k)).
Definition xchg_State (v : Z) : M St Z := lupdate Lock (λ k, (State k, with_State v k)).

Definition SpinlockInit : M St unit :=
  lwrite Lock SPINLOCK_zero;;
  xchg_State LOCK_FREE;; mret tt.

Definition Spinlock_check_not_holder : M St unit :=
  pCurrentCpu ← CpuGetCurrent;
  h ← lreads Lock Holder;
  ASSERT (negb (pCurrentCpu =? h)).
(** One round of the spin loop: true when the lock has been taken. *)
Definition Spinlock_spin : M St bool :=
  old ← cmpxchg_State LOCK_TAKEN LOCK_FREE;
  mret (negb (old =? LOCK_TAKEN)).
Definition Spinlock_check_function : M St unit :=
  f ← lreads Lock FunctionWhichTookLock; ASSERT (NULL =? f).
Definition Spinlock_check_holder : M St unit :=
  h ← lreads Lock Holder; ASSERT (NULL =? h).
Definition Spinlock_set_holder : M St unit :=
  pCurrentCpu ← CpuGetCurrent;
  lmodify Lock (with_Holder pCurrentCpu).
Definition Spinlock_set_function (ret : Z) : M St unit := lmodify Lock (with_Function ret).
Definition Spinlock_check_taken : M St unit :=
  t ← lreads Lock State; ASSERT (LOCK_TAKEN =? t).

(** What follows a successful exchange. *)
Definition Spinlock_take (ret : Z) : M St unit :=
  Spinlock_check_function;;
  Spinlock_check_holder;;
  Spinlock_set_holder;;
  Spinlock_set_function ret;;
  Spinlock_check_taken.

(** [ret] is the return address the caller pushed; the result is [*IntrState]. *)
Definition SpinlockAcquire (ret : Z) : M St bool :=
  IntrState ← CpuIntrDisable;
  Spinlock_check_not_holder;;
  loop fuel (λ _, ok ← Spinlock_spin; mret (if (ok : bool) then inr tt else inl tt)) tt;;
  Spinlock_take ret;;
  mret IntrState.

Definition SpinlockTryAcquire (ret : Z) : M St (bool * bool) :=
  IntrState ← CpuIntrDisable;
  old ← cmpxchg_State LOCK_TAKEN LOCK_FREE;
  let acquired := old =? LOCK_FREE in
  (if acquired then Spinlock_take ret else CpuIntrSetState IntrState;; mret tt);;
  mret (acquired, IntrState).

Definition SpinlockIsOwner : M St bool :=
  pCurrentCpu ← CpuGetCurrent;
  h ← lreads Lock Holder;
  mret (pCurrentCpu =? h).

Definition Spinlock_check_release : M St unit :=
  pCurrentCpu ← CpuGetCurrent;
  h ← lreads Lock Holder;
  ASSERT (pCurrentCpu =? h);;
  i ← CpuIntrGetState;
  ASSERT (eqb INTR_OFF i).
Definition Spinlock_clear_holder : M St unit := lmodify Lock (with_Holder NULL).
Definition Spinlock_clear_function : M St unit := lmodify Lock (with_Function NULL).
Definition SpinlockRelease (OldIntrState : bool) : M St unit :=
  Spinlock_check_release;;
  Spinlock_clear_holder;;
  Spinlock_clear_function;;
  xchg_State LOCK_FREE;;
  CpuIntrSetState OldIntrState;; mret tt.

(** monlock.c: the same on the SPINLOCK inside the MONITOR_LOCK; _mm_monitor and
    _mm_mwait only suspend the CPU between two attempts. *)
Definition MonitorLockInit : M St unit :=
  lwrite Lock SPINLOCK_zero;;
  xchg_State LOCK_FREE;; mret tt.
Definition MonitorLockAcquire (ret : Z) : M St bool :=
  IntrState ← CpuIntrDisable;
  Spinlock_check_not_holder;;
  loop fuel (λ _,
    old ← cmpxchg_State LOCK_TAKEN LOCK_FREE;
    mret (if old =? LOCK_FREE then inr tt else inl tt)) tt;;
  Spinlock_take ret;;
  mret IntrState.
Definition MonitorLockTryAcquire (ret : Z) : M St (bool * bool) :=
  IntrState ← CpuIntrDisable;
  old ← cmpxchg_State LOCK_TAKEN LOCK_FREE;
  let acquired := old =? LOCK_FREE in
  (if acquired then Spinlock_take ret else CpuIntrSetState IntrState;; mret tt);;
  mret (acquired, IntrState).
Definition MonitorLockIsOwner : M St bool :=
  pCurrentCpu ← CpuGetCurrent;
  h ← lreads Lock Holder;
  mret (pCurrentCpu =? h).
Definition MonitorLockRelease (OldIntrState : bool) : M St unit :=
  Spinlock_check_release;;
  Spinlock_clear_holder;;
  Spinlock_clear_function;;
  xchg_State LOCK_FREE;;
  CpuIntrSetState OldIntrState;; mret tt.

End Ops.

(** lock_common.c: the function pointers every LOCK goes through. *)
Record LOCK_FUNCS (St : Type) := mkLOCK_FUNCS {
  LockInit : lens St SPINLOCK → M St unit;
  LockAcquire : lens St SPINLOCK → Z → M St bool;
  LockTryAcquire : lens St SPINLOCK → Z → M St (bool * bool);
  LockIsOwner : lens St SPINLOCK → M St bool;
  LockRelease : lens St SPINLOCK → bool → M St unit
}.
Arguments LockInit {St} _ _.
Arguments LockAcquire {St} _ _ _.
Arguments LockTryAcquire {St} _ _ _.
Arguments LockIsOwner {St} _ _.
Arguments LockRelease {St} _ _ _.
Definition LockSystemInit {St} `{HasCpu St} (fuel : nat) (MonitorSupport : bool) : LOCK_FUNCS St :=
  if MonitorSupport then
    mkLOCK_FUNCS St MonitorLockInit (MonitorLockAcquire fuel) MonitorLockTryAcquire
      MonitorLockIsOwner MonitorLockRelease
  else
    mkLOCK_FUNCS St SpinlockInit (SpinlockAcquire fuel) SpinlockTryAcquire
      SpinlockIsOwner SpinlockRelease.

(** A lock nobody holds, and one CPU [c] holds. *)
Definition lock_free (k : SPINLOCK) : Prop := k = mkSPINLOCK LOCK_FREE NULL NULL.
Definition lock_held (c ret : Z) : SPINLOCK := mkSPINLOCK LOCK_TAKEN c ret.

(** What a component may assume of the functions behind [LockSystemInit]. *)
Class LockLaws {St} `{HasCpu St} (L : LOCK_FUNCS St) : Prop := {
  LockInit_law l s : LockInit L l s = Ret (tt, lset l (mkSPINLOCK LOCK_FREE NULL NULL) s);
  LockAcquire_law l `{!LensCpu l} ret s :
    lock_free (lget l s) → apic_ok (get_apic_id s) →
    LockAcquire L l ret s = Ret (intr_of (get_rflags s),
      lset l (lock_held (cpu_of (get_apic_id s)) ret)
        (set_rflags (intr_flags false (get_rflags s)) s));
  LockRelease_law l `{!LensCpu l} ret old s :
    lget l s = lock_held (cpu_of (get_apic_id s)) ret → intr_of (get_rflags s) = false →
    LockRelease L l old s = Ret (tt,
      lset l (mkSPINLOCK LOCK_FREE NULL NULL) (set_rflags (intr_flags old (get_rflags s)) s))
}.

Section Laws.
Context {St : Type} `{HasCpu St}.
Variables (fuel : nat) (Hfuel : (0 < fuel)%nat).
Implicit Types (l : lens St SPINLOCK) (s : St).

Lemma cmpxchg_free l s :
  lock_free (lget l s) → cmpxchg_State l LOCK_TAKEN LOCK_FREE s
    = Ret (LOCK_FREE, lset l (mkSPINLOCK LOCK_TAKEN NULL NULL) s).
Proof. unfold lock_free, cmpxchg_State, lupdate. intros ->. done. Qed.

Lemma Spinlock_take_run l `{!LensCpu l} ret s :
  lget l s = mkSPINLOCK LOCK_TAKEN NULL NULL →
  Spinlock_take l ret s = Ret (tt, lset l (lock_held (cpu_of (get_apic_id s)) ret) s).
Proof.
  intros Hs. unfold Spinlock_take, Spinlock_check_function, Spinlock_check_holder,
    Spinlock_set_holder, Spinlock_set_function, Spinlock_check_taken, CpuGetCurrent, lreads, lmodify.
  munfold. unfold ASSERT. rewrite Hs. simpl. rewrite Hs. simpl.
  autorewrite with spin. by rewrite Hs.
Qed.

Lemma Spinlock_check_not_holder_run l `{!LensCpu l} s :
  lock_free (lget l s) → apic_ok (get_apic_id s) → Spinlock_check_not_holder l s = Ret (tt, s).
Proof.
  intros Hf Ha. unfold Spinlock_check_not_holder, CpuGetCurrent, lreads. munfold. rewrite Hf.
  cbn. by rewrite (proj2 (Z.eqb_neq _ _) (cpu_of_not_null _ Ha)).
Qed.

Lemma SpinlockAcquire_run l `{!LensCpu l} ret s :
  lock_free (lget l s) → apic_ok (get_apic_id s) →
  SpinlockAcquire fuel l ret s = Ret (intr_of (get_rflags s),
    lset l (lock_held (cpu_of (get_apic_id s)) ret)
      (set_rflags (intr_flags false (get_rflags s)) s)).
Proof.
  intros Hf Ha. unfold SpinlockAcquire.
  set (s1 := set_rflags (intr_flags false (get_rflags s)) s).
  assert (Hd : CpuIntrDisable s = Ret (intr_of (get_rflags s), s1)) by done. mrun Hd.
  assert (Hl1 : lget l s1 = lget l s) by (unfold s1; by autorewrite with spin).
  assert (Ha1 : get_apic_id s1 = get_apic_id s) by (unfold s1; by autorewrite with spin).
  erewrite bind_Ret by (apply Spinlock_check_not_holder_run; congruence).
  destruct fuel as [|f]; [lia|]. erewrite bind_Ret.
  2: { apply loop_break. unfold Spinlock_spin. rewrite bind_assoc.
       erewrite bind_Ret by (apply cmpxchg_free; congruence). done. }
  erewrite bind_Ret; [|apply Spinlock_take_run; [done|by autorewrite with spin]].
  autorewrite with spin. by rewrite Ha1. done.
Qed.

(** The wait loops of the two lock types differ only in the test. *)
Lemma MonitorLockAcquire_run l `{!LensCpu l} ret s :
  lock_free (lget l s) → apic_ok (get_apic_id s) →
  MonitorLockAcquire fuel l ret s = SpinlockAcquire fuel l ret s.
Proof.
  intros Hf Ha. unfold MonitorLockAcquire, SpinlockAcquire.
  set (s1 := set_rflags (intr_flags false (get_rflags s)) s).
  assert (Hd : CpuIntrDisable s = Ret (intr_of (get_rflags s), s1)) by done.
  assert (Hl1 : lget l s1 = lget l s) by (unfold s1; by autorewrite with spin).
  assert (Ha1 : get_apic_id s1 = get_apic_id s) by (unfold s1; by autorewrite with spin).
  mrun Hd. symmetry. mrun Hd.
  rewrite !(bind_Ret _ _ _ _ _ (Spinlock_check_not_holder_run l s1 ltac:(congruence) ltac:(congruence))).
  destruct fuel as [|f]; [lia|].
  assert (Hx := cmpxchg_free l s1 ltac:(congruence)).
  erewrite bind_Ret.
  2: { apply loop_break. unfold Spinlock_spin. rewrite bind_assoc. by mrun Hx. }
  symmetry. erewrite bind_Ret; [|apply loop_break; by mrun Hx]. done.
Qed.

Lemma SpinlockRelease_run l `{!LensCpu l} ret old s :
  lget l s = lock_held (cpu_of (get_apic_id s)) ret → intr_of (get_rflags s) = false →
  SpinlockRelease l old s = Ret (tt,
    lset l (mkSPINLOCK LOCK_FREE NULL NULL) (set_rflags (intr_flags old (get_rflags s)) s)).
Proof.
  intros Hl Hi. unfold SpinlockRelease, Spinlock_check_release, Spinlock_clear_holder,
    Spinlock_clear_function, CpuGetCurrent, CpuIntrGetState, CpuIntrSetState, xchg_State,
    lreads, lmodify, lupdate. munfold. rewrite Hl. cbn -[lget lset].
  rewrite Z.eqb_refl. cbn -[lget lset]. rewrite Hi. cbn -[lget lset].
  rewrite Hl. autorewrite with spin. cbn -[lget lset]. all: by autorewrite with spin.
Qed.

#[export] Instance LockSystemInit_laws mon : LockLaws (LockSystemInit fuel mon).
Proof using Hfuel.
  split.
  - intros l s. destruct mon; simpl; unfold MonitorLockInit, SpinlockInit, xchg_State, lupdate, lwrite;
      munfold; autorewrite with spin; done.
  - intros l Hl ret s Hf Ha. destruct mon; simpl; [rewrite MonitorLockAcquire_run by done|];
      by apply SpinlockAcquire_run.
  - intros l Hl ret old s Hk Hi. destruct mon; simpl; by apply (SpinlockRelease_run l ret).
Qed.
End Laws.

(** What one CPU sees: the shared lock and its own registers. *)
Record view := mkView { v_lock : SPINLOCK; v_rflags : Z; v_apic : Z }.
#[export] Instance view_HasCpu : HasCpu view.
Proof.
  by refine {| get_rflags := v_rflags; set_rflags f v := mkView (v_lock v) f (v_apic v);
    get_apic_id := v_apic |}; intros; destruct s.
Defined.
Definition view_lock : lens view SPINLOCK.
Proof.
  by refine (mkLens v_lock (λ k v, mkView k (v_rflags v) (v_apic v)) _ _ _); intros; destruct s.
Defined.

#[export] Instance view_LensCpu : LensCpu view_lock.
Proof. by split. Qed.

Section Bracket.
Context {St : Type} `{HasCpu St}.
Variables (fuel : nat) (mon : bool) (l : lens St SPINLOCK).
Context `{!LensCpu l}.
#[local] Abbreviation L := (LockSystemInit fuel mon).

Lemma reacquire_panics ret s r :
  lget l s = lock_held (cpu_of (get_apic_id s)) r → LockAcquire L l ret s = Panic.
Proof.
  intros Hl. destruct mon; simpl; unfold MonitorLockAcquire, SpinlockAcquire;
    mrun (CpuIntrDisable_run s); apply bind_Panic;
    unfold Spinlock_check_not_holder; rewrite (bind_Ret _ _ _ _ _ (CpuGetCurrent_run _));
    rewrite (bind_Ret _ _ _ _ _ (lreads_run l Holder _)); autorewrite with spin; try done;
    rewrite Hl; unfold ASSERT; simpl; by rewrite Z.eqb_refl.
Qed.

Lemma try_on_held ret s c r :
  lget l s = lock_held c r →
  LockTryAcquire L l ret s = Ret ((false, intr_of (get_rflags s)),
    set_rflags (intr_flags (intr_of (get_rflags s)) (intr_flags false (get_rflags s))) s).
Proof.
  intros Hl. assert (Hx : ∀ s', lget l s' = lget l s →
    cmpxchg_State l LOCK_TAKEN LOCK_FREE s' = Ret (LOCK_TAKEN, s')).
  { intros s' Hs'. unfold cmpxchg_State, lupdate. rewrite Hs', Hl. simpl.
    by rewrite <-Hl, <-Hs', lset_lget. }
  destruct mon; simpl; unfold MonitorLockTryAcquire, SpinlockTryAcquire;
    mrun (CpuIntrDisable_run s);
    (erewrite bind_Ret by (apply Hx; by autorewrite with spin));
    change (LOCK_TAKEN =? LOCK_FREE) with false; cbn zeta iota; rewrite bind_assoc;
    rewrite (bind_Ret _ _ _ _ _ (CpuIntrSetState_run _ _)); autorewrite with spin; done.
Qed.

(** With either implementation LockSystemInit selects, acquiring a free lock disables the
    interrupts and makes the CPU the owner; acquiring it again panics, trying it fails
    without changing the lock; the release frees it and restores the interrupt state. *)
Theorem lock_bracket ret s :
  (0 < fuel)%nat → lock_free (lget l s) → apic_ok (get_apic_id s) →
  ∃ s1 s2, LockAcquire L l ret s = Ret (intr_of (get_rflags s), s1)
    ∧ intr_of (get_rflags s1) = false
    ∧ LockIsOwner L l s1 = Ret (true, s1)
    ∧ LockAcquire L l ret s1 = Panic
    ∧ (∃ s1', LockTryAcquire L l ret s1 = Ret ((false, false), s1') ∧ lget l s1' = lget l s1
         ∧ intr_of (get_rflags s1') = false)
    ∧ LockRelease L l (intr_of (get_rflags s)) s1 = Ret (tt, s2)
    ∧ lock_free (lget l s2) ∧ intr_of (get_rflags s2) = intr_of (get_rflags s).
Proof.
  intros Hfuel Hf Ha. pose proof (LockSystemInit_laws fuel Hfuel mon).
  set (s1 := lset l (lock_held (cpu_of (get_apic_id s)) ret)
        (set_rflags (intr_flags false (get_rflags s)) s)).
  assert (Hl : lget l s1 = lock_held (cpu_of (get_apic_id s1)) ret)
    by (unfold s1; by autorewrite with spin).
  assert (Hi : intr_of (get_rflags s1) = false)
    by (unfold s1; autorewrite with spin; [apply intr_of_flags|done]).
  eexists s1, _. split_and!; [by apply LockAcquire_law|done| | | |by eapply LockRelease_law| |].
  - destruct mon; simpl; unfold MonitorLockIsOwner, SpinlockIsOwner, CpuGetCurrent, lreads;
      munfold; rewrite Hl; simpl; by rewrite Z.eqb_refl.
  - by eapply reacquire_panics.
  - eexists. split; [rewrite (try_on_held _ _ _ _ Hl), Hi; reflexivity|].
    autorewrite with spin; try done. split; [done|]. apply intr_of_flags.
  - unfold lock_free. by autorewrite with spin.
  - autorewrite with spin; [apply intr_of_flags|done].
Qed.
End Bracket.

Module SpinlockExample.
Lemma lock_bracket_witness : ∃ s1,
  LockAcquire (LockSystemInit 3 true) view_lock 0x401000
    (mkView (mkSPINLOCK LOCK_FREE NULL NULL) 514 2) = Ret (true, s1).
Proof.
  destruct (lock_bracket 3 true view_lock 0x401000
    (mkView (mkSPINLOCK LOCK_FREE NULL NULL) 514 2)) as (s1 & s2 & Hr & _);
    [lia|done|by split|]. by exists s1.
Defined.
End SpinlockExample.
