(* ===== verification/SpinlockSteps.v ===== *)
(** spinlock.c under interleaving: every CPU executes the operations of
    Spinlock.v one shared-memory access at a time, in any order.

    [spin_code] gives the statement a CPU is about to execute and the program point
    behind it; [spin_step] lets any CPU make the next step. The invariant
    [spin_inv] of the reachable states gives mutual exclusion and that no
    assertion of the code can fail. *)
From stdpp Require Import relations.
From S2P Require Import Prelude Cpu Spinlock.

(** Program points; [i] is the interrupt state the operation has saved. *)
Inductive spin_pc :=
  | Idle
  | AcqDisable | AcqCheck (i : bool) | AcqSpin (i : bool)
  | TryDisable | TryExchange (i : bool) | TryFailed (i : bool)
  | TakeFunction (i : bool) | TakeHolder (i : bool) | TakeSetHolder (i : bool)
  | TakeSetFunction (i : bool) | TakeTaken (i : bool)
  | Held (i : bool)
  | RelCheck (i : bool) | RelHolder (i : bool) | RelFunction (i : bool)
  | RelState (i : bool) | RelIntr (i : bool).

(** Between the successful exchange and the exchange that frees the lock. *)
Definition owning (p : spin_pc) : bool :=
  match p with
  | TakeFunction _ | TakeHolder _ | TakeSetHolder _ | TakeSetFunction _ | TakeTaken _
  | Held _ | RelCheck _ | RelHolder _ | RelFunction _ | RelState _ => true
  | _ => false
  end.
(** Inside an operation that has disabled the interrupts. *)
Definition intr_disabled (p : spin_pc) : bool :=
  match p with Idle | AcqDisable | TryDisable => false | _ => true end.

Section Steps.
(** The return address of the caller on each CPU. *)
Variable ret : Z → Z.

Definition spin_code (a : Z) (p : spin_pc) : M view spin_pc :=
  match p with
  | Idle => mret Idle
  | AcqDisable => i ← CpuIntrDisable; mret (AcqCheck i)
  | AcqCheck i => Spinlock_check_not_holder view_lock;; mret (AcqSpin i)
  | AcqSpin i =>
      ok ← Spinlock_spin view_lock;
      mret (if (ok : bool) then TakeFunction i else AcqSpin i)
  | TryDisable => i ← CpuIntrDisable; mret (TryExchange i)
  | TryExchange i =>
      old ← cmpxchg_State view_lock LOCK_TAKEN LOCK_FREE;
      mret (if old =? LOCK_FREE then TakeFunction i else TryFailed i)
  | TryFailed i => CpuIntrSetState i;; mret Idle
  | TakeFunction i => Spinlock_check_function view_lock;; mret (TakeHolder i)
  | TakeHolder i => Spinlock_check_holder view_lock;; mret (TakeSetHolder i)
  | TakeSetHolder i => Spinlock_set_holder view_lock;; mret (TakeSetFunction i)
  | TakeSetFunction i => Spinlock_set_function view_lock (ret a);; mret (TakeTaken i)
  | TakeTaken i => Spinlock_check_taken view_lock;; mret (Held i)
  | Held i => mret (Held i)
  | RelCheck i => Spinlock_check_release view_lock;; mret (RelHolder i)
  | RelHolder i => Spinlock_clear_holder view_lock;; mret (RelFunction i)
  | RelFunction i => Spinlock_clear_function view_lock;; mret (RelState i)
  | RelState i => xchg_State view_lock LOCK_FREE;; mret (RelIntr i)
  | RelIntr i => CpuIntrSetState i;; mret Idle
  end.

(** What the code around the lock does: start an acquisition, change the
    interrupt state while it holds nothing, release what it holds. *)
Inductive spin_client : spin_pc → Z → spin_pc → Z → Prop :=
  | client_acquire f : spin_client Idle f AcqDisable f
  | client_try f : spin_client Idle f TryDisable f
  | client_flags f f' : spin_client Idle f Idle f'
  | client_release i f : spin_client (Held i) f (RelCheck i) f.

Record spin_sys := mkSys { s_lock : SPINLOCK; s_cpus : gmap Z (spin_pc * Z) }.

Inductive spin_step : spin_sys → spin_sys → Prop :=
  | step_code k cs a p f p' v' :
      cs !! a = Some (p, f) → spin_code a p (mkView k f a) = Ret (p', v') →
      spin_step (mkSys k cs) (mkSys (v_lock v') (<[a := (p', v_rflags v')]> cs))
  | step_client k cs a p f p' f' :
      cs !! a = Some (p, f) → spin_client p f p' f' →
      spin_step (mkSys k cs) (mkSys k (<[a := (p', f')]> cs)).

(** A step of the code of the CPU [a]. *)
Definition own_step (a : Z) (s s' : spin_sys) : Prop :=
  ∃ p f p' v', s_cpus s !! a = Some (p, f) ∧ spin_code a p (mkView (s_lock s) f a) = Ret (p', v')
    ∧ s' = mkSys (v_lock v') (<[a := (p', v_rflags v')]> (s_cpus s)).
Lemma own_step_step a s s' : own_step a s s' → spin_step s s'.
Proof. intros (p & f & p' & v' & Ha & Hc & ->). destruct s as [k cs]. by eapply step_code. Qed.

Definition spin_init (s : spin_sys) : Prop :=
  lock_free (s_lock s) ∧ ∀ a p f, s_cpus s !! a = Some (p, f) → apic_ok a ∧ p = Idle.

(** The contents of the lock while the CPU [a] owns it. *)
Definition lock_at (a : Z) (p : spin_pc) : SPINLOCK :=
  mkSPINLOCK LOCK_TAKEN
    match p with
    | TakeSetFunction _ | TakeTaken _ | Held _ | RelCheck _ | RelHolder _ => cpu_of a
    | _ => NULL
    end
    match p with
    | TakeTaken _ | Held _ | RelCheck _ | RelHolder _ | RelFunction _ => ret a
    | _ => NULL
    end.

Record spin_inv_for (o : option Z) (s : spin_sys) : Prop := {
  inv_apic a p f : s_cpus s !! a = Some (p, f) → apic_ok a;
  inv_intr a p f : s_cpus s !! a = Some (p, f) → intr_disabled p = true → intr_of f = false;
  inv_owner a p f : s_cpus s !! a = Some (p, f) → (owning p = true ↔ o = Some a);
  inv_free : o = None → lock_free (s_lock s);
  inv_held a : o = Some a → ∃ p f, s_cpus s !! a = Some (p, f) ∧ s_lock s = lock_at a p
}.
Definition spin_inv (s : spin_sys) : Prop := ∃ o, spin_inv_for o s.

Lemma spin_inv_init s : spin_init s → spin_inv s.
Proof.
  intros [Hf Hi]. exists None. split; try done.
  - intros a p f Ha. by destruct (Hi a p f Ha).
  - intros a p f Ha. destruct (Hi a p f Ha) as [_ ->]. done.
  - intros a p f Ha. destruct (Hi a p f Ha) as [_ ->]. done.
Qed.

(** Replacing the state of one CPU. *)
Lemma spin_inv_update o o' k k' cs a p f p' f' :
  spin_inv_for o (mkSys k cs) → cs !! a = Some (p, f) →
  (intr_disabled p' = true → intr_of f' = false) →
  (owning p' = true ↔ o' = Some a) →
  (∀ b, b ≠ a → (o = Some b ↔ o' = Some b)) →
  (o' = None → lock_free k') →
  (∀ b, o' = Some b → if decide (b = a) then k' = lock_at a p' else k' = k) →
  spin_inv_for o' (mkSys k' (<[a := (p', f')]> cs)).
Proof.
  intros [I1 I2 I3 I4 I5] Ha Hi Ho Hb Hf Hk. simpl in *. split; simpl.
  - intros b q g. destruct (decide (a = b)) as [<-|].
    + intros _. by eapply I1.
    + rewrite lookup_insert_ne by done. apply I1.
  - intros b q g. destruct (decide (a = b)) as [<-|].
    + rewrite lookup_insert_eq. intros ?; by simplify_eq.
    + rewrite lookup_insert_ne by done. apply I2.
  - intros b q g. destruct (decide (a = b)) as [<-|].
    + rewrite lookup_insert_eq. intros ?; by simplify_eq.
    + rewrite lookup_insert_ne by done. intros Hq. rewrite (I3 _ _ _ Hq). by apply Hb.
  - done.
  - intros b Hob. specialize (Hk b Hob). destruct (decide (b = a)) as [->|Hne].
    + rewrite lookup_insert_eq. eauto.
    + rewrite lookup_insert_ne by done. subst k'. apply I5. by apply Hb.
Qed.

Lemma check_release_code a i f (k := lock_at a (RelCheck i)) :
  intr_of f = false →
  spin_code a (RelCheck i) (mkView k f a) = Ret (RelHolder i, mkView k f a).
Proof.
  intros Hf. cbn [spin_code]. erewrite bind_Ret; [done|].
  unfold Spinlock_check_release, CpuGetCurrent, lreads, CpuIntrGetState.
  erewrite bind_Ret by done. erewrite bind_Ret by done.
  erewrite bind_Ret by (apply ASSERT_true, Z.eqb_refl).
  erewrite bind_Ret by done. apply ASSERT_true. cbn [get_rflags view_HasCpu v_rflags].
  by rewrite Hf.
Qed.
Lemma check_not_holder_code a i k f :
  cpu_of a ≠ Holder k →
  spin_code a (AcqCheck i) (mkView k f a) = Ret (AcqSpin i, mkView k f a).
Proof.
  intros Hne. cbn [spin_code]. erewrite bind_Ret; [done|].
  unfold Spinlock_check_not_holder, CpuGetCurrent, lreads.
  erewrite bind_Ret by done. erewrite bind_Ret by done.
  by apply ASSERT_true, negb_true_iff, Z.eqb_neq.
Qed.

(** The statement a CPU is at runs without a failed assertion, and keeps the
    invariant. *)
Lemma spin_code_safe o k cs a p f :
  spin_inv_for o (mkSys k cs) → cs !! a = Some (p, f) →
  ∃ p' v', spin_code a p (mkView k f a) = Ret (p', v')
    ∧ spin_inv (mkSys (v_lock v') (<[a := (p', v_rflags v')]> cs)).
Proof.
  intros Hinv Ha. pose proof Hinv as [I1 I2 I3 I4 I5]. simpl in *.
  assert (Hak : apic_ok a) by by eapply I1.
  assert (Hnull := cpu_of_not_null a Hak).
  assert (Hcase : (owning p = true ∧ o = Some a ∧ k = lock_at a p) ∨
    (owning p = false ∧ ((o = None ∧ lock_free k) ∨
       ∃ b q g, o = Some b ∧ b ≠ a ∧ apic_ok b ∧ k = lock_at b q ∧ cs !! b = Some (q, g)))).
  { destruct (owning p) eqn:Ep.
    - left. assert (o = Some a) as -> by by apply (I3 a p f). destruct (I5 a eq_refl) as (? & ? & ? & ?).
      by simplify_eq.
    - right. split; [done|]. destruct o as [b|]; [right|left; auto].
      destruct (I5 b eq_refl) as (q & g & Hq & ->). exists b, q, g. split_and!; try done.
      + intros ->. pose proof (proj2 (I3 a p f Ha) eq_refl). congruence.
      + by eapply I1. }
  assert (Hdone : ∀ o' k' p' f', 
    (intr_disabled p' = true → intr_of f' = false) →
    (owning p' = true ↔ o' = Some a) →
    (∀ b, b ≠ a → (o = Some b ↔ o' = Some b)) →
    (o' = None → lock_free k') →
    (∀ b, o' = Some b → if decide (b = a) then k' = lock_at a p' else k' = k) →
    spin_inv (mkSys k' (<[a := (p', f')]> cs))).
  { intros. eexists. by eapply spin_inv_update. }
  specialize (I2 a p f Ha). clear I1 I3 I4 I5 Hinv.
  destruct Hcase as [(Ep & -> & ->)|(Ep & Hk)].
  - (* the owner *)
    destruct p; try discriminate Ep; eexists _, _; (split;
      [first [reflexivity|apply check_release_code, I2; reflexivity]|]);
      first [apply (Hdone (Some a)); [apply I2|done|done|done|];
             intros b [= <-]; rewrite decide_True by done; reflexivity|idtac].
    apply (Hdone None); [done|done| |done|done]. intros b Hb. split; [congruence|done].
  - (* another CPU *)
    assert (Hh : cpu_of a ≠ Holder k).
    { destruct Hk as [(_ & ->)|(b & q & g & _ & Hb & Hbk & -> & _)]; [done|].
      assert (cpu_of a ≠ cpu_of b) by (intros He; by apply cpu_of_inj in He).
      destruct q; simpl; done. }
    assert (Hst : (o = None ∧ lock_free k) ∨ (State k = LOCK_TAKEN ∧ o ≠ None)).
    { destruct Hk as [?|(b & q & g & -> & _ & _ & -> & _)]; [by left|right; done]. }
    assert (Hna : o ≠ Some a).
    { destruct Hk as [(-> & _)|(b & q & g & -> & ? & _)]; congruence. }
    assert (Hsame : ∀ p' f', owning p' = false → (intr_disabled p' = true → intr_of f' = false) →
      spin_inv (mkSys k (<[a := (p', f')]> cs))).
    { intros p' f' Hp Hf'. apply (Hdone o); [done| |done| |].
      - split; [congruence|]. by intros.
      - intros ->. by destruct Hst as [[_ ?]|[_ ?]].
      - intros b ->. by rewrite decide_False by congruence. }
    assert (Htake : ∀ i, o = None → intr_of f = false → lock_free k →
      spin_inv (mkSys (with_State LOCK_TAKEN k) (<[a := (TakeFunction i, f)]> cs))).
    { intros i -> Hi ->. apply (Hdone (Some a)); [done|done| |done|].
      - intros b Hb. split; congruence.
      - intros b [= <-]. by rewrite decide_True. }
    destruct p; try discriminate Ep.
    + eexists _, _. split; [reflexivity|]. by apply Hsame.
    + eexists _, _. split; [reflexivity|]. apply Hsame; [done|]. intros _. apply intr_of_flags.
    + eexists _, _. split; [by apply check_not_holder_code|]. by apply Hsame.
    + destruct Hst as [[-> Hf]|[Ht Hn]].
      * exists (TakeFunction i), (mkView (with_State LOCK_TAKEN k) f a).
        split; [rewrite Hf; reflexivity|]. apply Htake; [done|by apply I2|done].
      * exists (AcqSpin i), (mkView k f a). split; [|by apply Hsame].
        cbn [spin_code]. unfold Spinlock_spin, cmpxchg_State, lupdate. munfold. simpl. by rewrite Ht.
    + eexists _, _. split; [reflexivity|]. apply Hsame; [done|]. intros _. apply intr_of_flags.
    + destruct Hst as [[-> Hf]|[Ht Hn]].
      * exists (TakeFunction i), (mkView (with_State LOCK_TAKEN k) f a).
        split; [rewrite Hf; reflexivity|]. apply Htake; [done|by apply I2|done].
      * exists (TryFailed i), (mkView k f a). split; [|by apply Hsame].
        cbn [spin_code]. unfold cmpxchg_State, lupdate. munfold. simpl. by rewrite Ht.
    + eexists _, _. split; [reflexivity|]. by apply Hsame.
    + eexists _, _. split; [reflexivity|]. by apply Hsame.
Qed.

Lemma spin_inv_step s s' : spin_inv s → spin_step s s' → spin_inv s'.
Proof.
  intros [o Hinv] Hs. destruct Hs as [k cs a p f p' v' Ha Hc|k cs a p f p' f' Ha Hc].
  - destruct (spin_code_safe o k cs a p f Hinv Ha) as (q & w & Hq & Hi).
    rewrite Hc in Hq. by simplify_eq.
  - pose proof Hinv as [I1 I2 I3 I4 I5]. simpl in *. exists o.
    assert (Hown : owning p = owning p') by by destruct Hc.
    eapply spin_inv_update; [exact Hinv|exact Ha| | |done|done|].
    + specialize (I2 a p f Ha). destruct Hc; try done. 
    + rewrite <-Hown. by eapply I3.
    + intros b ->. destruct (decide (b = a)) as [->|]; [|done].
      destruct (I5 a eq_refl) as (q & g & Hq & ->). simplify_eq. by destruct Hc.
Qed.

Lemma spin_reachable s s' : spin_init s → rtc spin_step s s' → spin_inv s'.
Proof.
  intros Hi Hr. apply spin_inv_init in Hi. induction Hr; [done|]. eauto using spin_inv_step.
Qed.

(** C5: under every interleaving of any number of CPUs acquiring, trying and releasing one
    spinlock, no assertion of the code ever fails, at most one CPU is between its
    acquisition and its release, and a CPU that holds the lock is its recorded holder and
    runs with interrupts disabled. *)
Theorem spinlock_mutual_exclusion s0 s :
  spin_init s0 → rtc spin_step s0 s →
  (∀ a p f, s_cpus s !! a = Some (p, f) →
     ∃ r, spin_code a p (mkView (s_lock s) f a) = Ret r)
  ∧ (∀ a b p q f g, s_cpus s !! a = Some (p, f) → s_cpus s !! b = Some (q, g) →
      owning p = true → owning q = true → a = b)
  ∧ (∀ a i f, s_cpus s !! a = Some (Held i, f) →
      s_lock s = lock_held (cpu_of a) (ret a) ∧ intr_of f = false).
Proof.
  intros H0 Hr. destruct (spin_reachable s0 s H0 Hr) as [o Hinv].
  pose proof Hinv as [I1 I2 I3 I4 I5]. split_and!.
  - intros a p f Ha. destruct s as [k cs].
    destruct (spin_code_safe o k cs a p f Hinv Ha) as (p' & v' & Hc & _). by eexists.
  - intros a b p q f g Ha Hb Hp Hq. apply (I3 _ _ _ Ha) in Hp. apply (I3 _ _ _ Hb) in Hq. congruence.
  - intros a i f Ha. assert (o = Some a) as -> by by apply (I3 _ _ _ Ha).
    destruct (I5 a eq_refl) as (q & g & Hq & ->). simplify_eq. split; [done|]. by eapply I2.
Qed.

(** The straight-line part of the code: the program point behind each statement
    of an owner, and the number of statements up to [Held] or [Idle]. *)
Definition spin_next (p : spin_pc) : spin_pc :=
  match p with
  | TakeFunction i => TakeHolder i | TakeHolder i => TakeSetHolder i
  | TakeSetHolder i => TakeSetFunction i | TakeSetFunction i => TakeTaken i
  | TakeTaken i => Held i
  | RelCheck i => RelHolder i | RelHolder i => RelFunction i | RelFunction i => RelState i
  | RelState i => RelIntr i | RelIntr i => Idle
  | p => p
  end.
Definition spin_left (p : spin_pc) : nat :=
  match p with
  | TakeFunction _ | RelCheck _ => 5 | TakeHolder _ | RelHolder _ => 4
  | TakeSetHolder _ | RelFunction _ => 3 | TakeSetFunction _ | RelState _ => 2
  | TakeTaken _ | RelIntr _ => 1 | _ => 0
  end.

Lemma spin_code_next a p v p' v' :
  spin_left p ≠ O → spin_code a p v = Ret (p', v') → p' = spin_next p.
Proof.
  destruct p; simpl; intros Hn Hc; try done; minv Hc; unfold mret, M_ret in Hc; by simplify_eq.
Qed.

Lemma spin_rel_state s a i f :
  spin_inv s → s_cpus s !! a = Some (RelState i, f) →
  own_step a s (mkSys (mkSPINLOCK LOCK_FREE NULL NULL) (<[a := (RelIntr i, f)]> (s_cpus s))).
Proof.
  intros [o [I1 I2 I3 I4 I5]] Ha. assert (o = Some a) as -> by by apply (I3 _ _ _ Ha).
  destruct (I5 a eq_refl) as (q & g & Hq & Hk). destruct s as [k cs]. simpl in *. simplify_eq.
  eexists _, _, (RelIntr i), (mkView _ _ _). split; [exact Ha|]. split; reflexivity.
Qed.
(** A CPU in the straight-line part is never held up: it can make its step, which leads to the next
    statement. *)
Lemma own_step_next s a p f :
  spin_inv s → s_cpus s !! a = Some (p, f) → spin_left p ≠ O →
  (∃ s', own_step a s s') ∧ ∀ s', own_step a s s' →
    (∃ f', s_cpus s' !! a = Some (spin_next p, f')) ∧ spin_left p = S (spin_left (spin_next p)).
Proof.
  intros [o Hinv] Ha Hp. split.
  - destruct s as [k cs]. destruct (spin_code_safe o k cs a p f Hinv Ha) as (p' & v' & Hc & _).
    eexists _, p, f, p', v'. by split.
  - intros s' (q & g & p' & v' & Hq & Hc & ->). simplify_eq. split; [|by destruct p].
    rewrite (spin_code_next a p _ p' v' Hp Hc). eexists. apply lookup_insert_eq.
Qed.

(** From a point of the straight-line code the CPU gets to its end alone. *)
Lemma spin_run_alone s a p f :
  spin_inv s → s_cpus s !! a = Some (p, f) →
  owning p = true ∨ (((∃ i, p = RelIntr i) ∨ p = Idle) ∧ lock_free (s_lock s)) →
  ∃ s' p' f', nsteps (own_step a) (spin_left p) s s' ∧ s_cpus s' !! a = Some (p', f')
    ∧ ((∃ i, p' = Held i) ∨ (p' = Idle ∧ lock_free (s_lock s'))).
Proof.
  remember (spin_left p) as n eqn:Hn. revert s p f Hn. induction n as [|n IH]; intros s p f Hn Hinv Ha Hp.
  { exists s, p, f. split_and!; [constructor|done|].
    destruct Hp as [Hp|([[i ->]| ->] & Hf)]; [|simpl in Hn; lia|by right].
    destruct p; simpl in *; try lia; try done. left. eauto. }
  assert (Hcase : (∃ i, p = RelState i) ∨ (∀ i, p ≠ RelState i)).
  { destruct p; first [by right|left; by eexists]. }
  destruct Hcase as [[i ->]|Hnr].
  { pose proof (spin_rel_state _ _ _ _ Hinv Ha) as Hs.
    destruct (IH _ (RelIntr i) f ltac:(simpl in *; lia) (spin_inv_step _ _ Hinv (own_step_step _ _ _ Hs))
      (lookup_insert_eq _ _ _)) as (s' & p' & f' & H1 & H2); [right; split; [left; by exists i|done]|].
    exists s', p', f'. split; [by econstructor|done]. }
  destruct (own_step_next s a p f Hinv Ha ltac:(lia)) as [[s1 Hs] Hnext].
  destruct (Hnext s1 Hs) as [[f1 Ha1] Hleft].
  pose proof (spin_inv_step _ _ Hinv (own_step_step _ _ _ Hs)) as Hinv1.
  destruct (IH s1 (spin_next p) f1 ltac:(lia) Hinv1 Ha1) as (s' & q & g & H1 & H2).
  - destruct Hp as [Hp|([[i ->]| ->] & Hf)]; [left; destruct p; naive_solver| |done].
    right. split; [by right|]. destruct Hs as (q & g & p' & v' & Hq & Hc & ->). simplify_eq.
    assert (Hx : spin_code a (RelIntr i) (mkView (s_lock s) f a)
      = Ret (Idle, mkView (s_lock s) (intr_flags i f) a)) by done.
    rewrite Hx in Hc. by simplify_eq/=.
  - exists s', q, g. split; [by econstructor|done].
Qed.

(** C39: no deadlock inside the lock. In every reachable state, while nobody owns the lock a
    spinning CPU's next step takes it; a CPU that is behind its acquisition or in its release, and
    not yet in its critical section nor out of the operation, is not held up by any other: it can
    make its next step, each of its steps leads to the next statement, of at most five, and by steps
    of this CPU alone an owner reaches its critical section or leaves the lock free behind it. *)
Theorem spinlock_progress s0 s a p f :
  spin_init s0 → rtc spin_step s0 s → s_cpus s !! a = Some (p, f) →
  ((∀ b q g, s_cpus s !! b = Some (q, g) → owning q = false) → ∀ i, p = AcqSpin i →
     ∃ s', own_step a s s' ∧ s_cpus s' !! a = Some (TakeFunction i, f))
  ∧ (spin_left p ≠ O → (∃ s', own_step a s s') ∧ ∀ s', own_step a s s' →
       (∃ f', s_cpus s' !! a = Some (spin_next p, f')) ∧ spin_left p = S (spin_left (spin_next p)))
  ∧ (owning p = true → ∃ s' p' f', nsteps (own_step a) (spin_left p) s s' ∧ s_cpus s' !! a = Some (p', f')
       ∧ ((∃ i, p' = Held i) ∨ (p' = Idle ∧ lock_free (s_lock s')))).
Proof.
  intros H0 Hr Ha. pose proof (spin_reachable s0 s H0 Hr) as Hi. split_and!.
  - intros Hno i ->. destruct Hi as [o [I1 I2 I3 I4 I5]]. destruct s as [k cs]. simpl in *.
    assert (Hf : lock_free k).
    { apply I4. destruct o as [b|]; [|done]. destruct (I5 b eq_refl) as (q & g & Hq & _).
      specialize (Hno _ _ _ Hq). assert (owning q = true) by by apply (I3 _ _ _ Hq). congruence. }
    exists (mkSys (with_State LOCK_TAKEN k) (<[a := (TakeFunction i, f)]> cs)). split.
    + exists (AcqSpin i), f, (TakeFunction i), (mkView (with_State LOCK_TAKEN k) f a). split; [exact Ha|].
      cbn [s_lock]. rewrite Hf. split; reflexivity.
    + apply lookup_insert_eq.
  - intros Hp. by apply (own_step_next s a p f).
  - intros Hp. by eapply spin_run_alone; [| |left].
Qed.
End Steps.

(** * Two CPUs on one lock *)
Module SpinlockStepsExample.
Definition ret (a : Z) : Z := 0x400000 + a.
Definition s0 : spin_sys :=
  mkSys (mkSPINLOCK LOCK_FREE NULL NULL) (list_to_map [(0, (Idle, 512)); (1, (Idle, 0))]).
Definition s1 : spin_sys :=
  mkSys (mkSPINLOCK LOCK_FREE NULL NULL) (<[0 := (AcqDisable, 512)]> (s_cpus s0)).
Definition s2 : spin_sys :=
  mkSys (mkSPINLOCK LOCK_FREE NULL NULL) (<[0 := (AcqCheck true, 0)]> (s_cpus s1)).
Definition s3 : spin_sys :=
  mkSys (mkSPINLOCK LOCK_FREE NULL NULL) (<[0 := (AcqSpin true, 0)]> (s_cpus s2)).

Lemma s0_init : spin_init s0.
Proof.
  split; [done|]. intros a p f. unfold s0. cbn [s_cpus list_to_map foldr fst snd].
  rewrite !lookup_insert_Some, lookup_empty. unfold apic_ok. intros Ha.
  destruct Ha as [[<- [= <- _]]|[_ [[<- [= <- _]]|[_ Ha]]]]; [split; [lia|done]..|done].
Qed.
Lemma s0_run : rtc (spin_step ret) s0 s3.
Proof.
  eapply rtc_l; [by eapply (step_client _ _ _ 0 Idle 512); [vm_compute|constructor]|].
  eapply rtc_l; [by eapply (step_code _ _ _ 0 AcqDisable 512 _ (mkView _ _ _)); vm_compute|].
  eapply rtc_l; [by eapply (step_code _ _ _ 0 (AcqCheck true) 0 _ (mkView _ _ _)); vm_compute|].
  apply rtc_refl.
Qed.

Lemma spinlock_mutual_exclusion_witness :
  ∃ r, spin_code ret 0 (AcqSpin true) (mkView (s_lock s3) 0 0) = Ret r.
Proof.
  destruct (spinlock_mutual_exclusion ret s0 s3 s0_init s0_run) as (H & _).
  apply (H 0 (AcqSpin true) 0). by vm_compute.
Defined.
(** The CPU 0 waits, and a step later it owns the lock. *)
Definition s4 : spin_sys := mkSys (mkSPINLOCK LOCK_TAKEN NULL NULL) (<[0 := (TakeFunction true, 0)]> (s_cpus s3)).
Lemma s4_run : rtc (spin_step ret) s0 s4.
Proof.
  eapply rtc_r; [exact s0_run|]. by eapply (step_code _ _ _ 0 (AcqSpin true) 0 _ (mkView _ _ _)); vm_compute.
Qed.
Lemma spinlock_progress_witness :
  (∃ s', own_step ret 0 s3 s' ∧ s_cpus s' !! 0 = Some (TakeFunction true, 0))
  ∧ ∃ s' p' f', nsteps (own_step ret 0) 5 s4 s' ∧ s_cpus s' !! 0 = Some (p', f')
    ∧ ((∃ i, p' = Held i) ∨ (p' = Idle ∧ lock_free (s_lock s'))).
Proof.
  split.
  - destruct (spinlock_progress ret s0 s3 0 (AcqSpin true) 0 s0_init s0_run) as (H & _);
      [by vm_compute|]. apply H; [|done].
    intros b q g. unfold s3, s2, s1, s0. cbn [s_cpus list_to_map foldr fst snd].
    rewrite !lookup_insert_Some, lookup_empty. naive_solver.
  - destruct (spinlock_progress ret s0 s4 0 (TakeFunction true) 0 s0_init s4_run) as (_ & _ & H);
      [by vm_compute|]. by apply H.
Defined.
End SpinlockStepsExample.
