(* ===== verification/RwSpinlock.v ===== *)
(** CommonLib/src/rw_spinlock.c, rec_rw_spinlock.c: reader/writer spinlocks.

    As in Spinlock.v the accesses to shared memory are definitions of their own;
    the operations compose them, and [rw_step] interleaves them. The three
    counters are 16-bit words, exchanged two at a time as one 32-bit word. *)
From stdpp Require Import relations.
From S2P Require Import Prelude Cpu.

Record RW_SPINLOCK := mkRW { WaitingWriters : Z; ActiveWriter : Z; ActiveReaders : Z }.
Record REC_RW_SPINLOCK := mkREC {
  RwSpinlock : RW_SPINLOCK;
  CurrentRecursivityDepth : Z;
  MaxRecursivityDepth : Z;
  Holder : Z
}.
Definition RW_zero : RW_SPINLOCK := mkRW 0 0 0.
Definition RW_DEFAULT_RECURSIVITY_DEPTH_MAX : Z := 2.

(** The 32-bit word at WaitingWriters, and the one at ActiveWriter. *)
Definition waiting_dword (k : RW_SPINLOCK) : Z := Z.lor (WaitingWriters k) (Z.shiftl (ActiveWriter k) 16).
Definition active_dword (k : RW_SPINLOCK) : Z := Z.lor (ActiveWriter k) (Z.shiftl (ActiveReaders k) 16).
Definition set_waiting_dword (v : Z) (k : RW_SPINLOCK) : RW_SPINLOCK :=
  mkRW (u16 v) (u16 (Z.shiftr v 16)) (ActiveReaders k).
Definition set_active_dword (v : Z) (k : RW_SPINLOCK) : RW_SPINLOCK :=
  mkRW (WaitingWriters k) (u16 v) (u16 (Z.shiftr v 16)).

Section Ops.
Context {St : Type} `{HasCpu St}.
Variables (fuel : nat) (Spinlock : lens St RW_SPINLOCK).

Definition RwSpinlockInit : M St unit := lwrite Spinlock RW_zero.

(** _InterlockedIncrement16 and _InterlockedDecrement16 on a counter. *)
Definition Rw_waiting (d : Z) : M St unit :=
  lmodify Spinlock (λ k, mkRW (u16 (WaitingWriters k + d)) (ActiveWriter k) (ActiveReaders k)).
Definition Rw_writer (d : Z) : M St unit :=
  lmodify Spinlock (λ k, mkRW (WaitingWriters k) (u16 (ActiveWriter k + d)) (ActiveReaders k)).
Definition Rw_readers (d : Z) : M St unit :=
  lmodify Spinlock (λ k, mkRW (WaitingWriters k) (ActiveWriter k) (u16 (ActiveReaders k + d))).

(** One attempt of the writers' loop and of the readers' loop. *)
Definition Rw_writer_attempt : M St bool :=
  old ← lupdate Spinlock (λ k,
    (active_dword k, if active_dword k =? 0 then set_active_dword 1 k else k));
  mret (old =? 0).
Definition Rw_reader_attempt : M St bool :=
  let pseudoActiveWriter := MAX_WORD + 1 in
  old ← lupdate Spinlock (λ k,
    (waiting_dword k, if waiting_dword k =? 0 then set_waiting_dword pseudoActiveWriter k else k));
  mret (old =? 0).
Definition Rw_check_writer : M St unit :=
  w ← lreads Spinlock ActiveWriter; ASSERT (1 =? w).

Definition RwSpinlockAcquire (Exclusive : bool) : M St bool :=
  IntrState ← CpuIntrDisable;
  (if Exclusive then
     Rw_waiting 1;;
     loop fuel (λ _, ok ← Rw_writer_attempt; mret (if (ok : bool) then inr tt else inl tt)) tt;;
     Rw_waiting (-1)
   else
     loop fuel (λ _, ok ← Rw_reader_attempt; mret (if (ok : bool) then inr tt else inl tt)) tt;;
     Rw_readers 1;;
     Rw_check_writer;;
     Rw_writer (-1));;
  mret IntrState.

Definition RwSpinlockRelease (IntrState : bool) (Exclusive : bool) : M St unit :=
  (if Exclusive then
     Rw_check_writer;;
     Rw_writer (-1)
   else Rw_readers (-1));;
  CpuIntrSetState IntrState;; mret tt.
End Ops.

Section RecOps.
Context {St : Type} `{HasCpu St}.
Variables (fuel : nat) (Spinlock : lens St REC_RW_SPINLOCK).

Definition rec_rw : lens St RW_SPINLOCK.
Proof.
  refine (mkLens (λ s, RwSpinlock (lget Spinlock s))
    (λ k s, let r := lget Spinlock s in
       lset Spinlock (mkREC k (CurrentRecursivityDepth r) (MaxRecursivityDepth r) (Holder r)) s) _ _ _);
    cbv zeta.
  - intros a s. by rewrite lget_lset.
  - intros a a' s. by rewrite lget_lset, lset_lset.
  - intros s. transitivity (lset Spinlock (lget Spinlock s) s); [|apply lset_lget].
    f_equal. by destruct (lget Spinlock s).
Defined.

Definition RecRwSpinlockInit (RecursivityDepth : Z) : M St unit :=
  let recursivityDepth :=
    if 0 =? RecursivityDepth then RW_DEFAULT_RECURSIVITY_DEPTH_MAX else RecursivityDepth in
  lwrite Spinlock (mkREC RW_zero 0 0 NULL);;
  RwSpinlockInit rec_rw;;
  lmodify Spinlock (λ r, mkREC (RwSpinlock r) (CurrentRecursivityDepth r) recursivityDepth (Holder r)).

Definition RecRwSpinlockAcquire (Exclusive : bool) : M St bool :=
  IntrState ← CpuIntrDisable;
  pCurrentCpu ← CpuGetCurrent;
  r ← lread Spinlock;
  if Exclusive && (Holder r =? pCurrentCpu) then
    ASSERT (CurrentRecursivityDepth r <? MaxRecursivityDepth r);;
    lmodify Spinlock (λ r, mkREC (RwSpinlock r) (u8 (CurrentRecursivityDepth r + 1))
      (MaxRecursivityDepth r) (Holder r));;
    mret IntrState
  else
    RwSpinlockAcquire fuel rec_rw Exclusive;;
    h ← lreads Spinlock Holder;
    ASSERT (NULL =? h);;
    d ← lreads Spinlock CurrentRecursivityDepth;
    ASSERT (0 =? d);;
    (if Exclusive then
       cpu ← CpuGetCurrent;
       lmodify Spinlock (λ r, mkREC (RwSpinlock r) 1 (MaxRecursivityDepth r) cpu)
     else mret tt);;
    mret IntrState.

Definition RecRwSpinlockRelease (IntrState : bool) (Exclusive : bool) : M St unit :=
  i ← CpuIntrGetState;
  ASSERT (eqb INTR_OFF i);;
  pCurrentCpu ← CpuGetCurrent;
  (if Exclusive then
     h ← lreads Spinlock Holder;
     ASSERT (pCurrentCpu =? h);;
     lmodify Spinlock (λ r, mkREC (RwSpinlock r) (u8 (CurrentRecursivityDepth r - 1))
       (MaxRecursivityDepth r) (Holder r))
   else mret tt);;
  d ← lreads Spinlock CurrentRecursivityDepth;
  if (0 =? d) || negb Exclusive then
    lmodify Spinlock (λ r, mkREC (RwSpinlock r) (CurrentRecursivityDepth r)
      (MaxRecursivityDepth r) NULL);;
    RwSpinlockRelease rec_rw IntrState Exclusive
  else mret tt.
End RecOps.

(** * Interleaving *)
Record rw_view := mkRwView { rv_lock : RW_SPINLOCK; rv_rflags : Z; rv_apic : Z }.
#[export] Instance rw_view_HasCpu : HasCpu rw_view.
Proof.
  by refine {| get_rflags := rv_rflags; set_rflags f v := mkRwView (rv_lock v) f (rv_apic v);
    get_apic_id := rv_apic |}; intros; destruct s.
Defined.
Definition rw_view_lock : lens rw_view RW_SPINLOCK.
Proof.
  by refine (mkLens rv_lock (λ k v, mkRwView k (rv_rflags v) (rv_apic v)) _ _ _); intros; destruct s.
Defined.

Inductive rw_pc :=
  | RwIdle
  | WDisable | WEnter (i : bool) | WSpin (i : bool) | WLeave (i : bool) | WHeld (i : bool)
  | WCheck (i : bool) | WRelease (i : bool)
  | RDisable | RSpin (i : bool) | REnter (i : bool) | RCheck (i : bool) | RConfess (i : bool)
  | RHeld (i : bool) | RRelease (i : bool)
  | RwIntr (i : bool).

(** The CPUs each counter counts. *)
Definition waits (p : rw_pc) : bool :=
  match p with WSpin _ | WLeave _ => true | _ => false end.
Definition writes (p : rw_pc) : bool :=
  match p with WLeave _ | WHeld _ | WCheck _ | WRelease _ => true | _ => false end.
Definition pretends (p : rw_pc) : bool :=
  match p with REnter _ | RCheck _ | RConfess _ => true | _ => false end.
Definition reads (p : rw_pc) : bool :=
  match p with RCheck _ | RConfess _ | RHeld _ | RRelease _ => true | _ => false end.

Definition rw_code (p : rw_pc) : M rw_view rw_pc :=
  match p with
  | RwIdle => mret RwIdle
  | WDisable => i ← CpuIntrDisable; mret (WEnter i)
  | WEnter i => Rw_waiting rw_view_lock 1;; mret (WSpin i)
  | WSpin i => ok ← Rw_writer_attempt rw_view_lock; mret (if (ok : bool) then WLeave i else WSpin i)
  | WLeave i => Rw_waiting rw_view_lock (-1);; mret (WHeld i)
  | WHeld i => mret (WHeld i)
  | WCheck i => Rw_check_writer rw_view_lock;; mret (WRelease i)
  | WRelease i => Rw_writer rw_view_lock (-1);; mret (RwIntr i)
  | RDisable => i ← CpuIntrDisable; mret (RSpin i)
  | RSpin i => ok ← Rw_reader_attempt rw_view_lock; mret (if (ok : bool) then REnter i else RSpin i)
  | REnter i => Rw_readers rw_view_lock 1;; mret (RCheck i)
  | RCheck i => Rw_check_writer rw_view_lock;; mret (RConfess i)
  | RConfess i => Rw_writer rw_view_lock (-1);; mret (RHeld i)
  | RHeld i => mret (RHeld i)
  | RRelease i => Rw_readers rw_view_lock (-1);; mret (RwIntr i)
  | RwIntr i => CpuIntrSetState i;; mret RwIdle
  end.

Inductive rw_client : rw_pc → Z → rw_pc → Z → Prop :=
  | rw_client_write f : rw_client RwIdle f WDisable f
  | rw_client_read f : rw_client RwIdle f RDisable f
  | rw_client_flags f f' : rw_client RwIdle f RwIdle f'
  | rw_client_write_done i f : rw_client (WHeld i) f (WCheck i) f
  | rw_client_read_done i f : rw_client (RHeld i) f (RRelease i) f.

(** CPU number [n] of the list has the APIC id [n]. *)
Record rw_sys := mkRwSys { rs_lock : RW_SPINLOCK; rs_cpus : list (rw_pc * Z) }.

Inductive rw_step : rw_sys → rw_sys → Prop :=
  | rw_step_code k cs n p f p' v' :
      cs !! n = Some (p, f) → rw_code p (mkRwView k f (Z.of_nat n)) = Ret (p', v') →
      rw_step (mkRwSys k cs) (mkRwSys (rv_lock v') (<[n := (p', rv_rflags v')]> cs))
  | rw_step_client k cs n p f p' f' :
      cs !! n = Some (p, f) → rw_client p f p' f' →
      rw_step (mkRwSys k cs) (mkRwSys k (<[n := (p', f')]> cs)).

Definition rw_init (s : rw_sys) : Prop :=
  rs_lock s = RW_zero ∧ (length (rs_cpus s) <= 256)%nat
  ∧ ∀ n p f, rs_cpus s !! n = Some (p, f) → p = RwIdle.

(** The number of CPUs at a program point of a kind. *)
Fixpoint count (P : rw_pc → bool) (cs : list (rw_pc * Z)) : Z :=
  match cs with [] => 0 | (p, _) :: cs' => Z.b2z (P p) + count P cs' end.

Lemma count_bounds P cs : 0 ≤ count P cs ≤ Z.of_nat (length cs).
Proof. induction cs as [|[p f] cs IH]; simpl; [lia|]. destruct (P p); simpl; lia. Qed.
Lemma count_insert P cs n p f p' f' :
  cs !! n = Some (p, f) → count P (<[n := (p', f')]> cs) = count P cs - Z.b2z (P p) + Z.b2z (P p').
Proof.
  revert n. induction cs as [|[q g] cs IH]; intros [|n] Hn; simpl in *; simplify_eq; [lia|].
  rewrite (IH n Hn). lia.
Qed.
Lemma count_pos P cs n p f : cs !! n = Some (p, f) → P p = true → 1 ≤ count P cs.
Proof.
  revert n. induction cs as [|[q g] cs IH]; intros [|n] Hn Hp; simpl in *; simplify_eq.
  - rewrite Hp. pose proof (count_bounds P cs). simpl. lia.
  - specialize (IH n Hn Hp). destruct (P q); simpl; lia.
Qed.
Lemma count_two P cs m n p q f g :
  m ≠ n → cs !! m = Some (p, f) → cs !! n = Some (q, g) → P p = true → P q = true →
  2 ≤ count P cs.
Proof.
  intros Hne Hm Hn Hp Hq.
  revert m n Hne Hm Hn. induction cs as [|[r h] cs IH]; intros [|m] [|n] Hne Hm Hn;
    simpl in *; simplify_eq; try done.
  - rewrite Hp. pose proof (count_pos P cs n q g Hn Hq). simpl. lia.
  - rewrite Hq. pose proof (count_pos P cs m p f Hm Hp). simpl. lia.
  - assert (m ≠ n) by congruence. specialize (IH m n ltac:(done) Hm Hn).
    destruct (P r); simpl; lia.
Qed.

Lemma dword_zero a b : 0 ≤ a < 2 ^ 16 → 0 ≤ b < 2 ^ 16 →
  Z.lor a (Z.shiftl b 16) = 0 ↔ a = 0 ∧ b = 0.
Proof.
  intros Ha Hb. rewrite Z.lor_eq_0_iff, Z.shiftl_mul_pow2 by lia. lia.
Qed.

(** The counters say how many CPUs are where, and at most one CPU is (or, for
    the moment of a reader's entry, pretends to be) the active writer. *)
Record rw_inv (s : rw_sys) : Prop := {
  rwi_cpus : (length (rs_cpus s) <= 256)%nat;
  rwi_waiting : WaitingWriters (rs_lock s) = count waits (rs_cpus s);
  rwi_writer : ActiveWriter (rs_lock s) = count writes (rs_cpus s) + count pretends (rs_cpus s);
  rwi_readers : ActiveReaders (rs_lock s) = count reads (rs_cpus s);
  rwi_one : count writes (rs_cpus s) + count pretends (rs_cpus s) ≤ 1;
  rwi_excl : count writes (rs_cpus s) = 1 → count reads (rs_cpus s) = 0;
  rwi_intr n p f : rs_cpus s !! n = Some (p, f) →
    match p with RwIdle | WDisable | RDisable => True | _ => intr_of f = false end
}.

Lemma rw_inv_init s : rw_init s → rw_inv s.
Proof.
  intros (Hk & Hl & Hi).
  assert (H0 : ∀ P, P RwIdle = false → count P (rs_cpus s) = 0).
  { intros P HP. clear Hk Hl. induction (rs_cpus s) as [|[p f] cs IH]; [done|]. simpl.
    rewrite (Hi O p f eq_refl), HP. apply IH. intros n q g Hn. by apply (Hi (S n) q g). }
  split; rewrite ?Hk, ?(H0 waits), ?(H0 writes), ?(H0 pretends), ?(H0 reads) by done; try done.
  intros n p f Hn. by rewrite (Hi n p f Hn).
Qed.

Lemma rw_inv_update k k' cs n p f p' f' :
  rw_inv (mkRwSys k cs) → cs !! n = Some (p, f) →
  WaitingWriters k' = WaitingWriters k - Z.b2z (waits p) + Z.b2z (waits p') →
  ActiveWriter k' = ActiveWriter k - Z.b2z (writes p) - Z.b2z (pretends p)
    + Z.b2z (writes p') + Z.b2z (pretends p') →
  ActiveReaders k' = ActiveReaders k - Z.b2z (reads p) + Z.b2z (reads p') →
  (writes p' = true → ActiveReaders k' = 0) →
  ActiveWriter k' ≤ 1 →
  (reads p' = true → reads p = true ∨ pretends p = true) →
  (reads p' = true → writes p = false) →
  match p' with RwIdle | WDisable | RDisable => True | _ => intr_of f' = false end →
  rw_inv (mkRwSys k' (<[n := (p', f')]> cs)).
Proof.
  intros [I1 I2 I3 I4 I5 I6 I7] Hn H1 H2 H3 H4 H5 H6 H7 H8. simpl in *.
  pose proof (count_insert waits cs n p f p' f' Hn) as C1.
  pose proof (count_insert writes cs n p f p' f' Hn) as C2.
  pose proof (count_insert pretends cs n p f p' f' Hn) as C3.
  pose proof (count_insert reads cs n p f p' f' Hn) as C4.
  pose proof (count_bounds writes cs). pose proof (count_bounds pretends cs).
  split; simpl; rewrite ?C1, ?C2, ?C3, ?C4; [by rewrite length_insert|lia..| |].
  - intros Hw. destruct (writes p') eqn:Ew'; simpl in *.
    { rewrite <-H4, H3 by done. lia. }
    destruct (writes p) eqn:Ew; simpl in *; [lia|].
    assert (Hr0 : count reads cs = 0) by (apply I6; lia).
    destruct (reads p) eqn:Er; [pose proof (count_pos reads cs n p f Hn Er); lia|].
    destruct (reads p') eqn:Er'; simpl; [|lia]. destruct (H6 eq_refl) as [?|Hpr]; [done|].
    pose proof (count_pos pretends cs n p f Hn Hpr). lia.
  - intros m q g. destruct (decide (n = m)) as [<-|].
    + rewrite list_lookup_insert_eq by (by apply lookup_lt_Some in Hn). intros ?; by simplify_eq.
    + rewrite list_lookup_insert_ne by done. apply I7.
Qed.

Lemma writer_attempt_run v :
  0 ≤ ActiveWriter (rv_lock v) < 2 ^ 16 → 0 ≤ ActiveReaders (rv_lock v) < 2 ^ 16 →
  Rw_writer_attempt rw_view_lock v =
    if decide (ActiveWriter (rv_lock v) = 0 ∧ ActiveReaders (rv_lock v) = 0)
    then Ret (true, lset rw_view_lock (mkRW (WaitingWriters (rv_lock v)) 1 0) v)
    else Ret (false, v).
Proof.
  intros Hw Hr. unfold Rw_writer_attempt, lupdate. munfold. cbn [lget rw_view_lock].
  destruct (decide _) as [Hd|Hd].
  - apply dword_zero in Hd; [|done..]. unfold active_dword. rewrite Hd. reflexivity.
  - assert (active_dword (rv_lock v) ≠ 0) as Hne%Z.eqb_neq.
    { intros Hz. by apply dword_zero in Hz. }
    rewrite Hne. by destruct v.
Qed.
Lemma reader_attempt_run v :
  0 ≤ WaitingWriters (rv_lock v) < 2 ^ 16 → 0 ≤ ActiveWriter (rv_lock v) < 2 ^ 16 →
  Rw_reader_attempt rw_view_lock v =
    if decide (WaitingWriters (rv_lock v) = 0 ∧ ActiveWriter (rv_lock v) = 0)
    then Ret (true, lset rw_view_lock (mkRW 0 1 (ActiveReaders (rv_lock v))) v)
    else Ret (false, v).
Proof.
  intros Hw Hr. unfold Rw_reader_attempt, lupdate. munfold. cbn [lget rw_view_lock].
  destruct (decide _) as [Hd|Hd].
  - apply dword_zero in Hd; [|done..]. unfold waiting_dword. rewrite Hd. reflexivity.
  - assert (waiting_dword (rv_lock v) ≠ 0) as Hne%Z.eqb_neq.
    { intros Hz. by apply dword_zero in Hz. }
    rewrite Hne. by destruct v.
Qed.

Lemma check_writer_run v : ActiveWriter (rv_lock v) = 1 → Rw_check_writer rw_view_lock v = Ret (tt, v).
Proof. intros Hw. unfold Rw_check_writer. mrun (lreads_run rw_view_lock ActiveWriter v). simpl. by rewrite Hw. Qed.

Ltac rw_next := eapply rw_inv_update; [eassumption|eassumption|..]; simpl;
  rewrite ?u16_id by lia; first [done|lia|intros _; lia|by left|by right|idtac].

Lemma rw_code_safe k cs n p f :
  rw_inv (mkRwSys k cs) → cs !! n = Some (p, f) →
  ∃ p' v', rw_code p (mkRwView k f (Z.of_nat n)) = Ret (p', v')
    ∧ rw_inv (mkRwSys (rv_lock v') (<[n := (p', rv_rflags v')]> cs)).
Proof.
  intros Hinv Hn. pose proof Hinv as [I1 I2 I3 I4 I5 I6 I7]. specialize (I7 n p f Hn). simpl in *.
  pose proof (count_bounds waits cs). pose proof (count_bounds writes cs).
  pose proof (count_bounds pretends cs). pose proof (count_bounds reads cs).
  pose proof (count_pos waits cs n p f Hn) as P1. pose proof (count_pos writes cs n p f Hn) as P2.
  pose proof (count_pos pretends cs n p f Hn) as P3. pose proof (count_pos reads cs n p f Hn) as P4.
  assert (Hex : 1 ≤ count writes cs → count reads cs = 0) by lia. clear I6.
  destruct p; simpl in P1, P2, P3, P4.
  - exists RwIdle, (mkRwView k f (Z.of_nat n)). split; [done|rw_next].
  - exists (WEnter (intr_of f)), (mkRwView k (intr_flags false f) (Z.of_nat n)).
    split; [done|rw_next]. apply intr_of_flags.
  - exists (WSpin i), (mkRwView (mkRW (u16 (WaitingWriters k + 1)) (ActiveWriter k) (ActiveReaders k))
      f (Z.of_nat n)). split; [done|rw_next].
  - cbn [rw_code]. rewrite (bind_unfold _ _ _ _ (writer_attempt_run (mkRwView k f (Z.of_nat n))
      ltac:(simpl; lia) ltac:(simpl; lia))). cbn [rv_lock].
    destruct (decide _) as [[Hw Hr]|Hno].
    + exists (WLeave i), (mkRwView (mkRW (WaitingWriters k) 1 0) f (Z.of_nat n)). split; [done|rw_next].
    + exists (WSpin i), (mkRwView k f (Z.of_nat n)). split; [done|rw_next].
  - exists (WHeld i), (mkRwView (mkRW (u16 (WaitingWriters k + -1)) (ActiveWriter k) (ActiveReaders k))
      f (Z.of_nat n)). split; [done|rw_next].
  - exists (WHeld i), (mkRwView k f (Z.of_nat n)). split; [done|rw_next].
  - exists (WRelease i), (mkRwView k f (Z.of_nat n)). split; [|rw_next].
    cbn [rw_code]. by mrun (check_writer_run (mkRwView k f (Z.of_nat n)) ltac:(simpl; lia)).
  - exists (RwIntr i), (mkRwView (mkRW (WaitingWriters k) (u16 (ActiveWriter k + -1)) (ActiveReaders k))
      f (Z.of_nat n)). split; [done|rw_next].
  - exists (RSpin (intr_of f)), (mkRwView k (intr_flags false f) (Z.of_nat n)).
    split; [done|rw_next]. apply intr_of_flags.
  - cbn [rw_code]. rewrite (bind_unfold _ _ _ _ (reader_attempt_run (mkRwView k f (Z.of_nat n))
      ltac:(simpl; lia) ltac:(simpl; lia))). cbn [rv_lock].
    destruct (decide _) as [[Hw Hr]|Hno].
    + exists (REnter i), (mkRwView (mkRW 0 1 (ActiveReaders k)) f (Z.of_nat n)). split; [done|rw_next].
    + exists (RSpin i), (mkRwView k f (Z.of_nat n)). split; [done|rw_next].
  - exists (RCheck i), (mkRwView (mkRW (WaitingWriters k) (ActiveWriter k) (u16 (ActiveReaders k + 1)))
      f (Z.of_nat n)). split; [done|rw_next].
  - exists (RConfess i), (mkRwView k f (Z.of_nat n)). split; [|rw_next].
    cbn [rw_code]. by mrun (check_writer_run (mkRwView k f (Z.of_nat n)) ltac:(simpl; lia)).
  - exists (RHeld i), (mkRwView (mkRW (WaitingWriters k) (u16 (ActiveWriter k + -1)) (ActiveReaders k))
      f (Z.of_nat n)). split; [done|rw_next].
  - exists (RHeld i), (mkRwView k f (Z.of_nat n)). split; [done|rw_next].
  - exists (RwIntr i), (mkRwView (mkRW (WaitingWriters k) (ActiveWriter k) (u16 (ActiveReaders k + -1)))
      f (Z.of_nat n)). split; [done|rw_next].
  - exists RwIdle, (mkRwView k (intr_flags i f) (Z.of_nat n)). split; [done|rw_next].
Qed.

Lemma rw_inv_step s s' : rw_inv s → rw_step s s' → rw_inv s'.
Proof.
  intros Hinv Hs. destruct Hs as [k cs n p f p' v' Hn Hc|k cs n p f p' f' Hn Hc].
  - destruct (rw_code_safe k cs n p f Hinv Hn) as (q & w & Hq & Hi).
    rewrite Hc in Hq. by simplify_eq.
  - pose proof Hinv as [I1 I2 I3 I4 I5 I6 I7]. specialize (I7 n p f Hn). simpl in *.
    pose proof (count_pos writes cs n p f Hn) as P2.
    eapply rw_inv_update; [eassumption|eassumption|..]; destruct Hc; simpl in *; try lia; try done.
    intros _. rewrite I4. apply I6. pose proof (count_bounds pretends cs).
    specialize (P2 eq_refl). lia.
Qed.
Lemma rw_reachable s s' : rw_init s → rtc rw_step s s' → rw_inv s'.
Proof. intros Hi Hr. apply rw_inv_init in Hi. induction Hr; [done|]. eauto using rw_inv_step. Qed.

(** C19: under every interleaving of at most 256 CPUs no assertion of the reader/writer lock
    fails, a writer holds it alone, readers only share it with readers, and while a
    writer waits no reader gets in. *)
Theorem rw_spinlock_exclusion s0 s :
  rw_init s0 → rtc rw_step s0 s →
  (∀ n p f, rs_cpus s !! n = Some (p, f) →
     ∃ r, rw_code p (mkRwView (rs_lock s) f (Z.of_nat n)) = Ret r)
  ∧ (∀ m n i p f g, rs_cpus s !! m = Some (WHeld i, f) → rs_cpus s !! n = Some (p, g) → m ≠ n →
       (∀ j, p ≠ WHeld j) ∧ (∀ j, p ≠ RHeld j))
  ∧ (∀ n i f, rs_cpus s !! n = Some (WHeld i, f) ∨ rs_cpus s !! n = Some (RHeld i, f) →
       intr_of f = false)
  ∧ (∀ m n i j f g, rs_cpus s !! m = Some (WSpin i, f) → rs_cpus s !! n = Some (RSpin j, g) →
       rw_code (RSpin j) (mkRwView (rs_lock s) g (Z.of_nat n))
         = Ret (RSpin j, mkRwView (rs_lock s) g (Z.of_nat n))).
Proof.
  intros H0 Hr. pose proof (rw_reachable s0 s H0 Hr) as Hinv. destruct s as [k cs].
  pose proof Hinv as [I1 I2 I3 I4 I5 I6 I7]. simpl in *.
  pose proof (count_bounds waits cs). pose proof (count_bounds writes cs).
  pose proof (count_bounds pretends cs). pose proof (count_bounds reads cs). split_and!.
  - intros n p f Hn. destruct (rw_code_safe k cs n p f Hinv Hn) as (p' & v' & Hc & _). by eexists.
  - intros m n i p f g Hm Hn Hne. pose proof (count_pos writes cs m _ _ Hm eq_refl). split.
    + intros j ->. pose proof (count_two writes cs m n _ _ _ _ Hne Hm Hn eq_refl eq_refl). lia.
    + intros j ->. pose proof (count_pos reads cs n _ _ Hn eq_refl). lia.
  - intros n i f [Hn|Hn]; apply (I7 _ _ _ Hn).
  - intros m n i j f g Hm Hn. pose proof (count_pos waits cs m _ _ Hm eq_refl).
    cbn [rw_code]. rewrite (bind_unfold _ _ _ _ (reader_attempt_run (mkRwView k g (Z.of_nat n))
      ltac:(simpl; lia) ltac:(simpl; lia))). cbn [rv_lock].
    rewrite decide_False by lia. done.
Qed.

(** * One holder on one CPU *)
(** What a client that brackets its work with the lock sees when nobody else is in. *)
Section Bracket.
Context {St : Type} `{HasCpu St}.
Variables (fuel : nat) (Hfuel : (0 < fuel)%nat) (l : lens St RW_SPINLOCK).
Context `{!LensCpu l}.

Definition rw_held (Exclusive : bool) : RW_SPINLOCK :=
  if Exclusive then mkRW 0 1 0 else mkRW 0 0 1.

Lemma rw_acquire_free (s : St) Exclusive :
  lget l s = RW_zero →
  RwSpinlockAcquire fuel l Exclusive s = Ret (intr_of (get_rflags s),
    lset l (rw_held Exclusive) (set_rflags (intr_flags false (get_rflags s)) s)).
Proof using Hfuel LensCpu0.
  intros Hl. unfold RwSpinlockAcquire. mrun (CpuIntrDisable_run s).
  set (s1 := set_rflags _ s). assert (Hl1 : lget l s1 = RW_zero).
  { unfold s1. autorewrite with spin; done. }
  destruct fuel as [|n]; [lia|]. destruct Exclusive.
  - erewrite bind_Ret; [reflexivity|].
    unfold Rw_waiting at 1. erewrite bind_Ret by apply lmodify_run. cbn beta iota. rewrite Hl1. cbn.
    erewrite bind_Ret.
    2: { apply loop_break. unfold Rw_writer_attempt, lupdate. munfold.
         rewrite lget_lset, lset_lset. reflexivity. }
    unfold Rw_waiting. rewrite lmodify_run, lget_lset, lset_lset. reflexivity.
  - erewrite bind_Ret; [reflexivity|]. erewrite bind_Ret.
    2: { apply loop_break. unfold Rw_reader_attempt, lupdate. munfold. rewrite Hl1. reflexivity. }
    cbn beta iota. unfold Rw_readers. erewrite bind_Ret by apply lmodify_run. cbn beta iota.
    rewrite lget_lset, lset_lset.
    unfold Rw_check_writer. rewrite bind_assoc. mrun (lreads_run l ActiveWriter
      (lset l (mkRW 0 1 1) s1)). rewrite lget_lset. massert ltac:(done).
    unfold Rw_writer. rewrite lmodify_run, lget_lset, lset_lset. reflexivity.
Qed.
Lemma rw_release_held (s : St) Exclusive old :
  lget l s = rw_held Exclusive →
  RwSpinlockRelease l old Exclusive s = Ret (tt,
    lset l RW_zero (set_rflags (intr_flags old (get_rflags s)) s)).
Proof using LensCpu0.
  intros Hl. unfold RwSpinlockRelease. destruct Exclusive.
  - unfold Rw_check_writer. rewrite bind_assoc, bind_assoc. mrun (lreads_run l ActiveWriter s). rewrite Hl. cbn [ActiveWriter rw_held].
    massert ltac:(done). unfold Rw_writer.
    erewrite bind_Ret by apply lmodify_run. cbn beta iota. rewrite Hl. cbn.
    erewrite bind_Ret by apply CpuIntrSetState_run. cbn beta iota. autorewrite with spin; done.
  - unfold Rw_readers. erewrite bind_Ret by apply lmodify_run. cbn beta iota. rewrite Hl. cbn.
    erewrite bind_Ret by apply CpuIntrSetState_run. cbn beta iota. autorewrite with spin; done.
Qed.
End Bracket.

(** * The recursive lock on one CPU *)
Section Recursion.
Context {St : Type} `{HasCpu St}.
Variables (fuel : nat) (Hfuel : (0 < fuel)%nat) (l : lens St REC_RW_SPINLOCK).
Context `{!LensCpu l}.

(** Taken exclusively [k] times by the CPU [c]. *)
Definition rec_state (k max c : Z) : REC_RW_SPINLOCK :=
  if k =? 0 then mkREC RW_zero 0 max NULL else mkREC (mkRW 0 1 0) k max c.

Lemma rec_outer_acquire (s : St) max :
  lget l s = rec_state 0 max NULL →
  RwSpinlockAcquire fuel (rec_rw l) true s = Ret (intr_of (get_rflags s),
    lset l (mkREC (mkRW 0 1 0) 0 max NULL) (set_rflags (intr_flags false (get_rflags s)) s)).
Proof using Hfuel LensCpu0.
  intros Hl. unfold RwSpinlockAcquire. mrun (CpuIntrDisable_run s).
  set (s1 := set_rflags _ s). assert (Hl1 : lget l s1 = mkREC RW_zero 0 max NULL).
  { unfold s1. autorewrite with spin; done. }
  destruct fuel as [|n]; [lia|].
  assert (Hbody : (Rw_waiting (rec_rw l) 1;;
     loop (S n) (λ _ : unit, ok ← Rw_writer_attempt (rec_rw l); mret (if (ok : bool) then inr tt else inl tt)) tt;;
     Rw_waiting (rec_rw l) (-1)) s1 = Ret (tt, lset l (mkREC (mkRW 0 1 0) 0 max NULL) s1)).
  { unfold Rw_waiting at 1. mrun (lmodify_run (rec_rw l) (λ k, mkRW (u16 (WaitingWriters k + 1))
      (ActiveWriter k) (ActiveReaders k)) s1).
    cbn [lset lget rec_rw]. rewrite Hl1. cbn.
    erewrite bind_Ret.
    2: { apply loop_break. unfold Rw_writer_attempt, lupdate. munfold. cbn [lset lget rec_rw].
         rewrite lget_lset, lset_lset. reflexivity. }
    unfold Rw_waiting. rewrite lmodify_run. cbn [lset lget rec_rw].
    rewrite lget_lset, lset_lset. reflexivity. }
  by mrun Hbody.
Qed.

Lemma rec_acquire_run (s : St) k max :
  apic_ok (get_apic_id s) → lget l s = rec_state k max (cpu_of (get_apic_id s)) →
  0 ≤ k < max → max ≤ 255 →
  RecRwSpinlockAcquire fuel l true s = Ret (intr_of (get_rflags s),
    lset l (rec_state (k + 1) max (cpu_of (get_apic_id s)))
      (set_rflags (intr_flags false (get_rflags s)) s)).
Proof using Hfuel LensCpu0.
  intros Ha Hl Hk Hmax. unfold RecRwSpinlockAcquire.
  mrun (CpuIntrDisable_run s). set (s1 := set_rflags _ s).
  assert (Hl1 : lget l s1 = lget l s) by (unfold s1; autorewrite with spin; done).
  assert (Ha1 : get_apic_id s1 = get_apic_id s) by (unfold s1; by autorewrite with spin).
  mrun (CpuGetCurrent_run s1). mrun (lread_run l s1). rewrite Hl1, Ha1.
  pose proof (cpu_of_not_null _ Ha) as Hnn. unfold rec_state in *.
  rewrite (proj2 (Z.eqb_neq (k + 1) 0)) by lia. destruct (Z.eqb_spec k 0) as [->|Hk0]; rewrite Hl.
  - cbn [Holder andb]. rewrite (proj2 (Z.eqb_neq NULL _)) by congruence.
    mrun (rec_outer_acquire s1 max ltac:(by rewrite Hl1)). set (s2 := lset l _ _).
    mrun (lreads_run l Holder s2).
    assert (Hl2 : lget l s2 = mkREC (mkRW 0 1 0) 0 max NULL) by (unfold s2; by autorewrite with spin).
    rewrite Hl2. mrun (ASSERT_true (NULL =? NULL) s2 eq_refl).
    mrun (lreads_run l CurrentRecursivityDepth s2). rewrite Hl2.
    mrun (ASSERT_true (0 =? 0) s2 eq_refl). rewrite bind_assoc.
    mrun (CpuGetCurrent_run s2).
    rewrite (bind_Ret _ _ _ _ _ (lmodify_run l _ s2)).
    rewrite Hl2. cbn. unfold s2, s1. autorewrite with spin; done.
  - cbn [Holder andb]. rewrite Z.eqb_refl.
    mrun (ASSERT_true (k <? max) s1 ltac:(apply Z.ltb_lt; lia)).
    rewrite (bind_Ret _ _ _ _ _ (lmodify_run l _ s1)). rewrite Hl1, Hl. cbn.
    replace (u8 (k + 1)) with (k + 1) by (unfold u8; rewrite Z.mod_small; lia). done.
Qed.

Lemma rec_acquire_too_deep (s : St) max :
  0 < max → lget l s = rec_state max max (cpu_of (get_apic_id s)) →
  RecRwSpinlockAcquire fuel l true s = Panic.
Proof using Hfuel LensCpu0.
  intros Hm Hl. unfold RecRwSpinlockAcquire. mrun (CpuIntrDisable_run s). set (s1 := set_rflags _ s).
  mrun (CpuGetCurrent_run s1). mrun (lread_run l s1).
  replace (lget l s1) with (lget l s) by (unfold s1; autorewrite with spin; done).
  replace (get_apic_id s1) with (get_apic_id s) by (unfold s1; by autorewrite with spin).
  rewrite Hl. unfold rec_state. rewrite (proj2 (Z.eqb_neq max 0)) by lia.
  cbn [Holder andb CurrentRecursivityDepth MaxRecursivityDepth]. rewrite Z.eqb_refl.
  apply bind_Panic. unfold ASSERT. by rewrite Z.ltb_irrefl.
Qed.

Lemma rec_release_run (s : St) k max old :
  lget l s = rec_state k max (cpu_of (get_apic_id s)) → intr_of (get_rflags s) = false →
  1 ≤ k ≤ max → max ≤ 255 →
  RecRwSpinlockRelease l old true s = Ret (tt,
    lset l (rec_state (k - 1) max (cpu_of (get_apic_id s)))
      (if k =? 1 then set_rflags (intr_flags old (get_rflags s)) s else s)).
Proof using Hfuel LensCpu0.
  intros Hl Hi Hk Hm. unfold RecRwSpinlockRelease, CpuIntrGetState. mrun (gets_run (λ s, intr_of (get_rflags s)) s).
  mrun (ASSERT_true (eqb INTR_OFF (intr_of (get_rflags s))) s ltac:(by rewrite Hi)).
  mrun (CpuGetCurrent_run s). unfold rec_state in *. rewrite (proj2 (Z.eqb_neq k 0)) in Hl by lia.
  rewrite bind_assoc. mrun (lreads_run l Holder s). rewrite Hl. cbn [Holder].
  rewrite bind_assoc. mrun (ASSERT_true _ s (Z.eqb_refl (cpu_of (get_apic_id s)))).
  rewrite (bind_Ret _ _ _ _ _ (lmodify_run l _ s)). rewrite Hl. cbn.
  replace (u8 (k - 1)) with (k - 1) by (unfold u8; rewrite Z.mod_small; lia).
  rewrite (bind_Ret _ _ _ _ _ (lreads_run l CurrentRecursivityDepth _)), lget_lset. cbn.
  destruct (Z.eqb_spec k 1) as [->|Hne].
  - change (0 =? 1 - 1) with true. change (1 - 1 =? 0) with true. cbn [orb].
    rewrite (bind_Ret _ _ _ _ _ (lmodify_run l _ _)), lget_lset, lset_lset. cbn.
    unfold RwSpinlockRelease. rewrite bind_assoc. erewrite bind_Ret.
    2: { unfold Rw_check_writer. rewrite (bind_Ret _ _ _ _ _ (lreads_run (rec_rw l) ActiveWriter _)).
         cbn. rewrite lget_lset. by apply ASSERT_true. }
    erewrite bind_Ret by apply lmodify_run. cbn. rewrite lget_lset, lset_lset. cbn.
    rewrite (bind_Ret _ _ _ _ _ (CpuIntrSetState_run _ _)). autorewrite with spin; done.
  - rewrite (proj2 (Z.eqb_neq 0 (k - 1))), (proj2 (Z.eqb_neq (k - 1) 0)) by lia. done.
Qed.

(** Shared acquisitions do not nest. *)
#[export] Instance rec_rw_LensCpu : LensCpu (rec_rw l).
Proof using LensCpu0. split; intros; cbn; autorewrite with spin; done. Qed.

Definition rec_shared (max : Z) : REC_RW_SPINLOCK := mkREC (rw_held false) 0 max NULL.
Lemma rec_shared_acquire (s : St) max :
  lget l s = rec_state 0 max NULL →
  RecRwSpinlockAcquire fuel l false s = Ret (intr_of (get_rflags s),
    lset l (rec_shared max) (set_rflags (intr_flags false (get_rflags s)) s)).
Proof using Hfuel LensCpu0.
  intros Hl. unfold RecRwSpinlockAcquire. mrun (CpuIntrDisable_run s). set (s1 := set_rflags _ s).
  assert (Hl1 : lget l s1 = rec_state 0 max NULL) by (unfold s1; by autorewrite with spin).
  mrun (CpuGetCurrent_run s1). mrun (lread_run l s1). cbn [andb].
  mrun (rw_acquire_free fuel Hfuel (rec_rw l) s1 false ltac:(by cbn; rewrite Hl1)).
  set (s2 := lset (rec_rw l) _ _).
  assert (Hs2 : s2 = lset l (rec_shared max) s1).
  { unfold s2, s1. cbn. autorewrite with spin; [by rewrite Hl|done..]. }
  mrun (lreads_run l Holder s2). rewrite Hs2, lget_lset. massert ltac:(done).
  mrun (lreads_run l CurrentRecursivityDepth (lset l (rec_shared max) s1)). rewrite lget_lset. by massert ltac:(done).
Qed.
Lemma rec_shared_release (s : St) max old :
  lget l s = rec_shared max → intr_of (get_rflags s) = false →
  RecRwSpinlockRelease l old false s = Ret (tt,
    lset l (rec_state 0 max NULL) (set_rflags (intr_flags old (get_rflags s)) s)).
Proof using LensCpu0.
  intros Hl Hi. unfold RecRwSpinlockRelease, CpuIntrGetState. mrun (gets_run (λ s, intr_of (get_rflags s)) s).
  massert ltac:(by rewrite Hi). mrun (CpuGetCurrent_run s).
  rewrite (bind_Ret _ _ s tt s eq_refl). mrun (lreads_run l CurrentRecursivityDepth s). rewrite Hl. cbn [orb rec_shared CurrentRecursivityDepth].
  change ((0 =? 0) || negb false) with true. cbn iota. erewrite bind_Ret by apply lmodify_run. cbn beta iota.
  rewrite Hl. set (s1 := lset l _ s).
  rewrite (rw_release_held (rec_rw l) s1 false old) by (by unfold s1; cbn; rewrite lget_lset).
  unfold s1. cbn. autorewrite with spin; done.
Qed.

(** [n] nested exclusive sections around [body]. *)
Fixpoint rec_nested (n : nat) (body : M St unit) : M St unit :=
  match n with
  | O => body
  | S n' =>
      IntrState ← RecRwSpinlockAcquire fuel l true;
      rec_nested n' body;;
      RecRwSpinlockRelease l IntrState true
  end.

(** What nesting restores. *)
Definition same_lock_state (s s' : St) : Prop :=
  lget l s' = lget l s ∧ intr_of (get_rflags s') = intr_of (get_rflags s)
  ∧ get_apic_id s' = get_apic_id s.

Lemma rec_nested_run n (s : St) k max body :
  apic_ok (get_apic_id s) → lget l s = rec_state k max (cpu_of (get_apic_id s)) →
  0 ≤ k → k + Z.of_nat n ≤ max → max ≤ 255 → (k ≠ 0 → intr_of (get_rflags s) = false) →
  (∀ s1, get_apic_id s1 = get_apic_id s →
     lget l s1 = rec_state (k + Z.of_nat n) max (cpu_of (get_apic_id s)) →
     (k + Z.of_nat n ≠ 0 → intr_of (get_rflags s1) = false) →
     ∃ s2, body s1 = Ret (tt, s2) ∧ same_lock_state s1 s2) →
  ∃ s', rec_nested n body s = Ret (tt, s') ∧ same_lock_state s s'.
Proof using Hfuel LensCpu0.
  revert s k. induction n as [|n IH]; intros s k Ha Hl Hk Hn Hm Hi Hbody; cbn [rec_nested].
  { apply Hbody; rewrite ?Z.add_0_r; done. }
  mrun (rec_acquire_run s k max Ha Hl ltac:(lia) Hm). set (s1 := lset l _ _).
  assert (Ha1 : get_apic_id s1 = get_apic_id s) by (unfold s1; autorewrite with spin; done).
  assert (Hl1 : lget l s1 = rec_state (k + 1) max (cpu_of (get_apic_id s1))).
  { rewrite Ha1. unfold s1. by autorewrite with spin. }
  assert (Hi1 : intr_of (get_rflags s1) = false).
  { unfold s1. autorewrite with spin; [apply intr_of_flags|done]. }
  destruct (IH s1 (k + 1)) as (s2 & Hr & Hl2 & Hi2 & Ha2); try done; try lia; [by rewrite Ha1| |].
  { intros t Ht1 Ht2 Ht3. apply Hbody; [congruence| |].
    - rewrite Ht2, Ha1. f_equal. lia.
    - intros _. apply Ht3. lia. }
  mrun Hr. erewrite rec_release_run; [|by rewrite Hl2, Hl1, Ha2|congruence|lia|lia].
  eexists. split; [done|]. unfold same_lock_state. rewrite lget_lset, Ha2, Ha1.
  replace (k + 1 - 1) with k by lia. split; [by rewrite Hl|].
  destruct (Z.eqb_spec (k + 1) 1) as [|Hk1]; autorewrite with spin; try done.
  - split; [apply intr_of_flags|congruence].
  - rewrite Hi2, Hi1. split; [symmetry; apply Hi; lia|congruence].
Qed.

(** On one CPU, nesting exclusive acquisitions up to the maximal depth and releasing them
    in reverse order leaves the lock free and restores the interrupt state, the body runs
    with interrupts disabled, and one acquisition more panics. *)
Theorem rec_rw_nesting (s : St) max n body :
  1 ≤ max ≤ 255 → apic_ok (get_apic_id s) → lget l s = mkREC RW_zero 0 max NULL →
  (1 <= n)%nat → Z.of_nat n ≤ max →
  (∀ s1, intr_of (get_rflags s1) = false → CurrentRecursivityDepth (lget l s1) = Z.of_nat n →
     ∃ s2, body s1 = Ret (tt, s2) ∧ same_lock_state s1 s2) →
  (∃ s', rec_nested n body s = Ret (tt, s') ∧ same_lock_state s s')
  ∧ rec_nested (Z.to_nat max) (_ ← RecRwSpinlockAcquire fuel l true; mret tt) s = Panic.
Proof using Hfuel LensCpu0.
  intros Hm Ha Hl Hn1 Hn Hb. split.
  - apply (rec_nested_run n s 0 max); try done; try lia.
    intros s1 H1 H2 H3. apply Hb; [apply H3; lia|]. rewrite H2. unfold rec_state.
    rewrite (proj2 (Z.eqb_neq _ 0)) by lia. done.
  - enough (∀ m (s : St) k, apic_ok (get_apic_id s) → 0 ≤ k →
      lget l s = rec_state k max (cpu_of (get_apic_id s)) → k + Z.of_nat m = max →
      rec_nested m (_ ← RecRwSpinlockAcquire fuel l true; mret tt) s = Panic) as Hgen.
    { apply (Hgen _ s 0); [done|done|done|lia]. }
    clear - Hfuel LensCpu0 Hm. intros m. induction m as [|m IH]; intros s k Ha Hk Hl Hmk; cbn [rec_nested].
    + apply bind_Panic, (rec_acquire_too_deep s max); [lia|]. rewrite Hl. f_equal. lia.
    + mrun (rec_acquire_run s k max Ha Hl ltac:(lia) ltac:(lia)). apply bind_Panic.
      assert (Ha1 : ∀ r, get_apic_id (lset l r (set_rflags (intr_flags false (get_rflags s)) s))
        = get_apic_id s) by (intros; autorewrite with spin; done).
      apply (IH _ (k + 1)); [by rewrite Ha1|lia| |lia].
      rewrite lget_lset. by rewrite Ha1.
Qed.
End Recursion.

(** * Concrete runs *)
Module RwSpinlockExample.
Definition s0 : rw_sys := mkRwSys RW_zero [(RwIdle, 512); (RwIdle, 0)].
Definition s1 : rw_sys := mkRwSys RW_zero [(WDisable, 512); (RwIdle, 0)].
Definition s2 : rw_sys := mkRwSys RW_zero [(WEnter true, 0); (RwIdle, 0)].
Definition s3 : rw_sys := mkRwSys (mkRW 1 0 0) [(WSpin true, 0); (RwIdle, 0)].
Definition s4 : rw_sys := mkRwSys (mkRW 1 0 0) [(WSpin true, 0); (RDisable, 0)].
Definition s5 : rw_sys := mkRwSys (mkRW 1 0 0) [(WSpin true, 0); (RSpin false, 0)].

Lemma rw_s0_init : rw_init s0.
Proof.
  split_and!; [done|simpl; lia|]. intros [|[|n]] p f Hn; simpl in Hn; by simplify_eq.
Qed.
Lemma rw_s0_run : rtc rw_step s0 s5.
Proof.
  eapply rtc_l; [by eapply (rw_step_client _ _ 0 RwIdle 512 WDisable 512); [|constructor]|].
  eapply rtc_l; [by eapply (rw_step_code _ _ 0 WDisable 512 (WEnter true) (mkRwView _ 0 _)); vm_compute|].
  eapply rtc_l; [by eapply (rw_step_code _ _ 0 (WEnter true) 0 (WSpin true) (mkRwView _ 0 _)); vm_compute|].
  eapply rtc_l; [by eapply (rw_step_client _ _ 1 RwIdle 0 RDisable 0); [|constructor]|].
  eapply rtc_l; [by eapply (rw_step_code _ _ 1 RDisable 0 (RSpin false) (mkRwView _ 0 _)); vm_compute|].
  apply rtc_refl.
Qed.
(** The reader keeps spinning behind the waiting writer. *)
Lemma rw_spinlock_exclusion_witness :
  rw_code (RSpin false) (mkRwView (rs_lock s5) 0 1) = Ret (RSpin false, mkRwView (rs_lock s5) 0 1).
Proof.
  destruct (rw_spinlock_exclusion s0 s5 rw_s0_init rw_s0_run) as (_ & _ & _ & H).
  by apply (H 0%nat 1%nat true false 0 0).
Defined.

Record rec_view := mkRecView { rcv_lock : REC_RW_SPINLOCK; rcv_rflags : Z; rcv_apic : Z }.
#[local] Instance rec_view_HasCpu : HasCpu rec_view.
Proof.
  by refine {| get_rflags := rcv_rflags; set_rflags f v := mkRecView (rcv_lock v) f (rcv_apic v);
    get_apic_id := rcv_apic |}; intros; destruct s.
Defined.
Definition rec_view_lock : lens rec_view REC_RW_SPINLOCK.
Proof.
  by refine (mkLens rcv_lock (λ k v, mkRecView k (rcv_rflags v) (rcv_apic v)) _ _ _); intros; destruct s.
Defined.
#[local] Instance rec_view_LensCpu : LensCpu rec_view_lock.
Proof. by split. Qed.

Lemma rec_rw_nesting_witness : ∃ s',
  rec_nested 4 rec_view_lock 2 (mret tt : M rec_view unit) (mkRecView (mkREC RW_zero 0 2 NULL) 512 3) = Ret (tt, s')
  ∧ intr_of (get_rflags s') = true.
Proof.
  destruct (rec_rw_nesting 4 ltac:(lia) rec_view_lock
    (mkRecView (mkREC RW_zero 0 2 NULL) 512 3) 2 2 (mret tt : M rec_view unit)) as [(s' & Hr & _ & Hi & _) _];
    [lia|by split|done|lia|lia| |].
  - intros s1 _ _. by exists s1.
  - exists s'. split; [done|]. by rewrite Hi.
Defined.
End RwSpinlockExample.
