(* ===== verification/Pmm.v ===== *)
(** HAL9000/src/pmm.c: the physical memory manager.

    The static [m_pmmData] is a record; its AllocationBitmap describes the frames
    of physical memory, a set bit being a reserved frame. *)
From S2P Require Import Prelude Memory Bitmap Cpu Spinlock.

(** HAL/inc/int15.h *)
Record INT15_MEMORY_MAP_ENTRY := mkEntry {
  BaseAddress : Z;
  Length : Z;
  Type_ : Z;
  ExtendedAttributes : Z
}.
Definition MemoryMapTypeUsableRAM : Z := 1.
Definition MemoryMapTypeMax : Z := 6.
Definition MEMORY_MAP_ENTRY_EA_VALID_ENTRY : Z := Z.shiftl 1 0.

Record MEMORY_REGION_LIST := mkRegion { RegionType : Z; NumberOfEntries : Z }.
Record PMM_DATA := mkPmm {
  HighestPhysicalAddressAvailable : Z;
  HighestPhysicalAddressPresent : Z;
  PhysicalMemorySize : Z;
  MemoryRegionList : list MEMORY_REGION_LIST;
  AllocationLock : SPINLOCK;
  AllocationBitmap : BITMAP
}.
Definition PMM_zero : PMM_DATA :=
  mkPmm 0 0 0 (replicate (Z.to_nat MemoryMapTypeMax) (mkRegion 0 0)) SPINLOCK_zero BITMAP_zero.

(** The memory manager's data, the memory its bitmap lies in, the CPU. *)
Record PMM_STATE := mkPS { m_pmmData : PMM_DATA; ps_bytes : gmap Z Z; ps_rflags : Z; ps_apic : Z }.
#[export] Instance PMM_HasBytes : HasBytes PMM_STATE.
Proof.
  by refine {| get_bytes := ps_bytes;
    set_bytes b s := mkPS (m_pmmData s) b (ps_rflags s) (ps_apic s) |}; intros; destruct s.
Defined.
#[export] Instance PMM_HasCpu : HasCpu PMM_STATE.
Proof.
  by refine {| get_rflags := ps_rflags; get_apic_id := ps_apic;
    set_rflags f s := mkPS (m_pmmData s) (ps_bytes s) f (ps_apic s) |}; intros; destruct s.
Defined.
Definition set_pmm (f : PMM_DATA → PMM_DATA) (s : PMM_STATE) : PMM_STATE :=
  mkPS (f (m_pmmData s)) (ps_bytes s) (ps_rflags s) (ps_apic s).
Definition with_limits (present available size : Z) (d : PMM_DATA) : PMM_DATA :=
  mkPmm available present size (MemoryRegionList d) (AllocationLock d) (AllocationBitmap d).
Definition with_regions (r : list MEMORY_REGION_LIST) (d : PMM_DATA) : PMM_DATA :=
  mkPmm (HighestPhysicalAddressAvailable d) (HighestPhysicalAddressPresent d)
    (PhysicalMemorySize d) r (AllocationLock d) (AllocationBitmap d).
Definition with_lock (k : SPINLOCK) (d : PMM_DATA) : PMM_DATA :=
  mkPmm (HighestPhysicalAddressAvailable d) (HighestPhysicalAddressPresent d)
    (PhysicalMemorySize d) (MemoryRegionList d) k (AllocationBitmap d).
Definition with_bitmap (b : BITMAP) (d : PMM_DATA) : PMM_DATA :=
  mkPmm (HighestPhysicalAddressAvailable d) (HighestPhysicalAddressPresent d)
    (PhysicalMemorySize d) (MemoryRegionList d) (AllocationLock d) b.
Definition lens_AllocationLock : lens PMM_STATE SPINLOCK.
Proof.
  by refine (mkLens (λ s, AllocationLock (m_pmmData s)) (λ k, set_pmm (with_lock k)) _ _ _);
    intros; try destruct s as [[]].
Defined.
#[export] Instance AllocationLock_LensCpu : LensCpu lens_AllocationLock.
Proof. by split. Qed.

Section Ops.
(** The lock functions LockSystemInit has chosen, and the return address they
    record. *)
Variables (L : LOCK_FUNCS PMM_STATE) (ret : Z).

Definition PmmPreinitSystem : M PMM_STATE unit :=
  modify (set_pmm (λ _, PMM_zero));;
  for_each (Z.to_nat (MemoryMapTypeMax - MemoryMapTypeUsableRAM)) MemoryMapTypeUsableRAM (λ i,
    modify (set_pmm (λ d, with_regions
      (alter (λ r, mkRegion i (NumberOfEntries r)) (Z.to_nat i) (MemoryRegionList d)) d)));;
  LockInit L lens_AllocationLock.

Definition read_entry (MemoryMap : list INT15_MEMORY_MAP_ENTRY) (i : Z)
    : M PMM_STATE INT15_MEMORY_MAP_ENTRY :=
  from_option_fault (MemoryMap !! Z.to_nat i).
(** [MemoryRegions[memoryType].NumberOfEntries++]. *)
Definition count_region (memoryType : Z) : M PMM_STATE unit :=
  s ← get;
  let regions := MemoryRegionList (m_pmmData s) in
  match regions !! Z.to_nat memoryType with
  | None => fault
  | Some r => modify (set_pmm (with_regions
      (<[Z.to_nat memoryType := mkRegion (RegionType r) (u32 (NumberOfEntries r + 1))]> regions)))
  end.

(** The limits are written through the three OUT pointers at the end. *)
Definition _PmmDetermineMemoryLimits (MemoryMap : list INT15_MEMORY_MAP_ENTRY) (NoOfEntries : Z)
    : M PMM_STATE unit :=
  ASSERT (negb (0 =? NoOfEntries));;
  '(size, present, available) ← for_fold (Z.to_nat NoOfEntries) 0 (0, 0, 0)
    (λ i '(size, present, available),
      e ← read_entry MemoryMap i;
      let memoryType := Type_ e in
      let top := u64 (BaseAddress e + Length e) in
      let present := if present <? top then top else present in
      if negb (IsBooleanFlagOn (ExtendedAttributes e) MEMORY_MAP_ENTRY_EA_VALID_ENTRY)
      then mret (size, present, available) else
      count_region memoryType;;
      if negb (MemoryMapTypeUsableRAM =? memoryType) then mret (size, present, available) else
      let available := if available <? top then top else available in
      mret (u64 (size + Length e), present, available));
  modify (set_pmm (with_limits present available size)).

Definition PmmReserveMemoryEx (NoOfFrames MinPhysAddr : Z) : M PMM_STATE Z :=
  if 0 =? NoOfFrames then mret NULL else
  if negb (IsAddressAligned MinPhysAddr PAGE_SIZE) then mret NULL else
  let startIdx := MinPhysAddr / PAGE_SIZE in
  if MAX_DWORD <? startIdx then mret NULL else
  oldState ← LockAcquire L lens_AllocationLock ret;
  bm ← gets (λ s, AllocationBitmap (m_pmmData s));
  idx ← BitmapScanFromAndFlip (Some bm) startIdx NoOfFrames false;
  if MAX_DWORD =? idx then
    LockRelease L lens_AllocationLock oldState;;
    mret NULL
  else
    LockRelease L lens_AllocationLock oldState;;
    mret (u64 (idx * PAGE_SIZE)).
Definition PmmReserveMemory (Frames : Z) : M PMM_STATE Z := PmmReserveMemoryEx Frames NULL.

Definition PmmReleaseMemory (PhysicalAddr NoOfFrames : Z) : M PMM_STATE unit :=
  ASSERT (IsAddressAligned PhysicalAddr PAGE_SIZE);;
  let index := PhysicalAddr / PAGE_SIZE in
  ASSERT (index <=? MAX_DWORD);;
  oldState ← LockAcquire L lens_AllocationLock ret;
  bm ← gets (λ s, AllocationBitmap (m_pmmData s));
  BitmapSetBitsValue (Some bm) index NoOfFrames false;;
  LockRelease L lens_AllocationLock oldState.

Definition PmmGetTotalSystemMemory : M PMM_STATE Z :=
  gets (λ s, PhysicalMemorySize (m_pmmData s)).
Definition PmmGetHighestPhysicalMemoryAddressPresent : M PMM_STATE Z :=
  gets (λ s, HighestPhysicalAddressPresent (m_pmmData s)).
Definition PmmGetHighestPhysicalMemoryAddressAvailable : M PMM_STATE Z :=
  gets (λ s, HighestPhysicalAddressAvailable (m_pmmData s)).

(** One round of the loop that frees the usable memory above 1 MB. *)
Definition release_entry (e : INT15_MEMORY_MAP_ENTRY) : M PMM_STATE unit :=
  let memoryType := Type_ e in
  if negb (IsBooleanFlagOn (ExtendedAttributes e) MEMORY_MAP_ENTRY_EA_VALID_ENTRY)
  then mret tt else
  if negb (MemoryMapTypeUsableRAM =? memoryType) then mret tt else
  if BaseAddress e <? 1 * MB_SIZE then mret tt else
  let physAddr := AlignAddressUpper (BaseAddress e) PAGE_SIZE in
  let noOfFrames := Length e / PAGE_SIZE in
  ASSERT (noOfFrames <=? MAX_DWORD);;
  PmmReleaseMemory physAddr noOfFrames.

(** The bitmap initialised is [m_pmmData.AllocationBitmap]; the result is
    [*SizeReserved]. *)
Definition _PmmInitializeAllocationBitmap (CurrentVirtualAddress HighestMemoryAddress : Z)
    (MemoryEntries : list INT15_MEMORY_MAP_ENTRY) (NumberOfMemoryEntries : Z) : M PMM_STATE Z :=
  ASSERT (negb (NULL =? CurrentVirtualAddress));;
  ASSERT (negb (0 =? HighestMemoryAddress));;
  let noOfPhysicalFrames := HighestMemoryAddress / PAGE_SIZE in
  ASSERT (noOfPhysicalFrames <=? MAX_DWORD);;
  '(bm, bitmapSize) ← BitmapPreinit noOfPhysicalFrames;
  bm ← BitmapInitEx bm CurrentVirtualAddress false;
  modify (set_pmm (with_bitmap bm));;
  count ← BitmapGetMaxElementCount (Some bm);
  PmmReserveMemory count;;
  for_each (Z.to_nat NumberOfMemoryEntries) 0 (λ i,
    e ← read_entry MemoryEntries i;
    release_entry e);;
  mret bitmapSize.

(** Returns the status and, where it is written, [*SizeReserved]. *)
Definition PmmInitSystem (BaseAddr : Z) (MemoryEntries : option (list INT15_MEMORY_MAP_ENTRY))
    (NumberOfMemoryEntries : Z) (SizeReserved : bool) : M PMM_STATE (Z * option Z) :=
  if NULL =? BaseAddr then mret (STATUS_INVALID_PARAMETER1, None) else
  match MemoryEntries with
  | None => mret (STATUS_INVALID_PARAMETER2, None)
  | Some entries =>
    if 0 =? NumberOfMemoryEntries then mret (STATUS_INVALID_PARAMETER3, None) else
    if negb SizeReserved then mret (STATUS_INVALID_PARAMETER4, None) else
    _PmmDetermineMemoryLimits entries NumberOfMemoryEntries;;
    present ← PmmGetHighestPhysicalMemoryAddressPresent;
    sizeReserved ← _PmmInitializeAllocationBitmap BaseAddr present entries NumberOfMemoryEntries;
    mret (STATUS_SUCCESS, Some (u32 (AlignAddressUpper sizeReserved PAGE_SIZE)))
  end.
End Ops.

(** * Reserving and releasing frames *)
(** The allocator is idle and its bitmap holds [bits]. *)
Record pmm_frames (s : PMM_STATE) (bits : list bool) : Prop := {
  pf_rep : bitmap_rep (ps_bytes s) (AllocationBitmap (m_pmmData s)) bits;
  pf_lock : lock_free (AllocationLock (m_pmmData s));
  pf_apic : apic_ok (ps_apic s)
}.
(** What an allocation or a release leaves as it was. *)
Record pmm_same (s s' : PMM_STATE) : Prop := {
  ps_data : m_pmmData s' = m_pmmData s;
  ps_intr : intr_of (ps_rflags s') = intr_of (ps_rflags s);
  ps_cpu : ps_apic s' = ps_apic s;
  ps_mem q (bm := AllocationBitmap (m_pmmData s)) :
    ¬ (BitmapBuffer bm ≤ q ≤ BitmapBuffer bm + (BitCount bm - 1) / 8) →
    ps_bytes s' !! q = ps_bytes s !! q
}.
Lemma pmm_same_refl s : pmm_same s s.
Proof. by split. Qed.
Lemma pmm_same_trans s1 s2 s3 : pmm_same s1 s2 → pmm_same s2 s3 → pmm_same s1 s3.
Proof.
  intros [A1 A2 A3 A4] [B1 B2 B3 B4]. rewrite A1 in B4. split; [congruence..|].
  intros q bm Hq. rewrite B4 by done. by apply A4.
Qed.

Section Specs.
Context (L : LOCK_FUNCS PMM_STATE) `{!LockLaws L}.
Variable ret : Z.
Implicit Types (s : PMM_STATE) (bits : list bool).

(** The state between the acquisition and the release of AllocationLock. *)
Definition locked s : PMM_STATE :=
  mkPS (with_lock (lock_held (cpu_of (ps_apic s)) ret) (m_pmmData s)) (ps_bytes s)
    (intr_flags false (ps_rflags s)) (ps_apic s).
Definition unlocked s (b : gmap Z Z) : PMM_STATE :=
  mkPS (m_pmmData s) b (intr_flags (intr_of (ps_rflags s)) (intr_flags false (ps_rflags s))) (ps_apic s).

Lemma pmm_acquire s bits :
  pmm_frames s bits →
  LockAcquire L lens_AllocationLock ret s = Ret (intr_of (ps_rflags s), locked s).
Proof.
  intros [_ Hf Ha]. rewrite LockAcquire_law by done.
  by destruct s as [[]].
Qed.
Lemma pmm_release s bits b :
  pmm_frames s bits →
  LockRelease L lens_AllocationLock (intr_of (ps_rflags s)) (set_bytes b (locked s))
    = Ret (tt, unlocked s b).
Proof.
  intros [_ Hf Ha]. rewrite (LockRelease_law lens_AllocationLock ret).
  - destruct s as [[] ? ? ?]. cbn in *. unfold lock_free in Hf. by subst.
  - done.
  - apply intr_of_flags.
Qed.
Lemma unlocked_frames s bits bits' b (bm := AllocationBitmap (m_pmmData s)) :
  pmm_frames s bits → bitmap_rep b bm bits' →
  (∀ q, ¬ (BitmapBuffer bm ≤ q ≤ BitmapBuffer bm + (BitCount bm - 1) / 8) →
    b !! q = ps_bytes s !! q) →
  pmm_frames (unlocked s b) bits' ∧ pmm_same s (unlocked s b).
Proof.
  intros [Hrep Hf Ha] Hrep' Hfr. split; split; try done. apply intr_of_flags.
Qed.

Lemma PAGE_SIZE_pow : PAGE_SIZE = 2 ^ 12.
Proof. done. Qed.
Lemma page_aligned (i : nat) :
  Z.of_nat i ≤ MAX_DWORD → IsAddressAligned (Z.of_nat i * PAGE_SIZE) PAGE_SIZE = true.
Proof.
  intros Hi. rewrite PAGE_SIZE_pow, IsAddressAligned_pow2 by (unfold MAX_DWORD in *; lia).
  apply Z.eqb_eq, Z.mod_mul. lia.
Qed.
Lemma page_index (i : nat) : Z.of_nat i * PAGE_SIZE / PAGE_SIZE = Z.of_nat i.
Proof. apply Z.div_mul. done. Qed.

Lemma PmmReserveMemoryEx_run s bits lo n :
  pmm_frames s bits → n ≠ 0%nat → (lo <= length bits)%nat →
  ∃ r s' bits', PmmReserveMemoryEx L ret (Z.of_nat n) (Z.of_nat lo * PAGE_SIZE) s = Ret (r, s')
    ∧ pmm_frames s' bits' ∧ pmm_same s s'
    ∧ ((r = NULL ∧ bits' = bits ∧ ∀ i, (lo <= i)%nat → ¬ is_run bits i n false)
       ∨ ∃ i, r = Z.of_nat i * PAGE_SIZE ∧ (lo <= i)%nat ∧ is_run bits i n false
           ∧ bits' = set_range bits i n true
           ∧ ∀ i', (lo <= i' < i)%nat → ¬ is_run bits i' n false).
Proof.
  intros Hs Hn Hlo. pose proof Hs as [Hrep Hf Ha].
  pose proof (rep_bound _ _ _ Hrep) as Hbd.
  unfold PmmReserveMemoryEx. rewrite (proj2 (Z.eqb_neq 0 (Z.of_nat n))) by lia.
  rewrite page_aligned, page_index by lia. cbn [negb].
  rewrite (proj2 (Z.ltb_ge MAX_DWORD (Z.of_nat lo))) by lia.
  mrun (pmm_acquire s bits Hs).
  mrun (gets_run (λ s, AllocationBitmap (m_pmmData s)) (locked s)).
  change (AllocationBitmap (m_pmmData (locked s))) with (AllocationBitmap (m_pmmData s)).
  set (bm := AllocationBitmap (m_pmmData s)) in *.
  assert (Hrep1 : bitmap_rep (get_bytes (locked s)) bm bits) by exact Hrep.
  destruct (BitmapScanFromToAndFlip_run (locked s) bm bits lo (length bits) n false Hrep1 Hn
    ltac:(lia)) as (r & b' & Hrun & Hans & Hrep' & Hfr).
  rewrite <-(rep_count _ _ _ Hrep) in Hrun.
  assert (Hscan : BitmapScanFromAndFlip (Some bm) (Z.of_nat lo) (Z.of_nat n) false (locked s)
    = Ret (r, set_bytes b' (locked s))) by (unfold BitmapScanFromAndFlip; by mderef).
  mrun Hscan. destruct Hans as [[-> Hno]|(i & -> & Hi1 & Hi2 & Hi3 & Hi4)].
  - rewrite Z.eqb_refl in *. mrun (pmm_release s bits b' Hs).
    destruct (unlocked_frames s bits _ b' Hs Hrep' Hfr). exists NULL, (unlocked s b'), bits.
    split_and!; [done|done|done|]. left. split_and!; [done|done|]. intros i Hi Hr.
    apply (Hno i Hi); [|done]. destruct n as [|n]; [done|].
    specialize (Hr n ltac:(lia)). apply lookup_lt_Some in Hr. lia.
  - rewrite (proj2 (Z.eqb_neq MAX_DWORD (Z.of_nat i))) by lia.
    rewrite (proj2 (Z.eqb_neq (Z.of_nat i) MAX_DWORD)), Nat2Z.id in Hrep' by lia.
    mrun (pmm_release s bits b' Hs).
    destruct (unlocked_frames s bits _ b' Hs Hrep' Hfr).
    eexists _, (unlocked s b'), _. split_and!; [done|done|done|]. right. exists i.
    split_and!; [|done|done|done|done]. unfold u64. rewrite Z.mod_small; [done|].
    change PAGE_SIZE with 4096. unfold MAX_DWORD in *. lia.
Qed.

Lemma PmmReleaseMemory_run s bits i n :
  pmm_frames s bits → (i < length bits)%nat → (i + n <= length bits)%nat →
  ∃ s', PmmReleaseMemory L ret (Z.of_nat i * PAGE_SIZE) (Z.of_nat n) s = Ret (tt, s')
    ∧ pmm_frames s' (set_range bits i n false) ∧ pmm_same s s'.
Proof.
  intros Hs Hi Hn. pose proof Hs as [Hrep Hf Ha].
  pose proof (rep_bound _ _ _ Hrep) as Hbd. unfold PmmReleaseMemory.
  rewrite page_aligned, page_index by lia.
  mrun (ASSERT_true true s eq_refl). massert ltac:(apply Z.leb_le; lia).
  mrun (pmm_acquire s bits Hs).
  mrun (gets_run (λ s, AllocationBitmap (m_pmmData s)) (locked s)).
  change (AllocationBitmap (m_pmmData (locked s))) with (AllocationBitmap (m_pmmData s)).
  assert (Hrep1 : bitmap_rep (get_bytes (locked s)) (AllocationBitmap (m_pmmData s)) bits)
    by exact Hrep.
  destruct (BitmapSetBitsValue_run (locked s) _ bits i n false Hrep1 Hi Hn) as (b' & Hrun & Hrep' & Hfr).
  mrun Hrun. rewrite (pmm_release s bits b' Hs).
  destruct (unlocked_frames s bits _ b' Hs Hrep' Hfr). by eexists.
Qed.
End Specs.

(** * The boot memory map *)
Definition valid_entry (e : INT15_MEMORY_MAP_ENTRY) : bool :=
  IsBooleanFlagOn (ExtendedAttributes e) MEMORY_MAP_ENTRY_EA_VALID_ENTRY.
Definition ram_entry (e : INT15_MEMORY_MAP_ENTRY) : bool :=
  valid_entry e && (MemoryMapTypeUsableRAM =? Type_ e).
(** The entries whose frames the allocator may hand out. *)
Definition usable_entry (e : INT15_MEMORY_MAP_ENTRY) : bool :=
  ram_entry e && negb (BaseAddress e <? 1 * MB_SIZE).
Definition entry_top (e : INT15_MEMORY_MAP_ENTRY) : Z := BaseAddress e + Length e.

Fixpoint max_top (P : INT15_MEMORY_MAP_ENTRY → bool) (l : list INT15_MEMORY_MAP_ENTRY) : Z :=
  match l with [] => 0 | e :: l' => Z.max (if P e then entry_top e else 0) (max_top P l') end.
Fixpoint ram_size (l : list INT15_MEMORY_MAP_ENTRY) : Z :=
  match l with [] => 0 | e :: l' => (if ram_entry e then Length e else 0) + ram_size l' end.

(** A map the firmware may report: no entry wraps around, the types are known,
    and what will be handed out consists of whole frames. *)
Record entry_ok (e : INT15_MEMORY_MAP_ENTRY) : Prop := {
  eo_base : 0 ≤ BaseAddress e;
  eo_length : 0 ≤ Length e;
  eo_top : entry_top e < 2 ^ 44;
  eo_type : 0 ≤ Type_ e < MemoryMapTypeMax;
  eo_aligned : usable_entry e = true → BaseAddress e mod PAGE_SIZE = 0 ∧ PAGE_SIZE ≤ Length e
}.

Definition first_frame (e : INT15_MEMORY_MAP_ENTRY) : nat := Z.to_nat (BaseAddress e / PAGE_SIZE).
Definition frame_count (e : INT15_MEMORY_MAP_ENTRY) : nat := Z.to_nat (Length e / PAGE_SIZE).
Definition free_entry (bits : list bool) (e : INT15_MEMORY_MAP_ENTRY) : list bool :=
  if usable_entry e then set_range bits (first_frame e) (frame_count e) false else bits.

(** Frame [i] lies inside the entry [e]. *)
Definition frame_in (i : nat) (e : INT15_MEMORY_MAP_ENTRY) : Prop :=
  BaseAddress e ≤ Z.of_nat i * PAGE_SIZE ∧ (Z.of_nat i + 1) * PAGE_SIZE ≤ entry_top e.

Lemma frame_in_range i e :
  entry_ok e → usable_entry e = true →
  (first_frame e <= i < first_frame e + frame_count e)%nat ↔ frame_in i e.
Proof.
  intros [H1 H2 H3 H4 H5] Hu. destruct (H5 Hu) as [Ha Hl].
  unfold first_frame, frame_count, frame_in, entry_top in *. change PAGE_SIZE with 4096 in *.
  pose proof (Z.div_mod (BaseAddress e) 4096 ltac:(lia)) as Hb. rewrite Ha in Hb.
  pose proof (Z.div_mod (Length e) 4096 ltac:(lia)).
  pose proof (Z.mod_pos_bound (Length e) 4096 ltac:(lia)).
  pose proof (Z.div_pos (Length e) 4096 ltac:(lia) ltac:(lia)).
  pose proof (Z.div_pos (BaseAddress e) 4096 ltac:(lia) ltac:(lia)). lia.
Qed.

Lemma max_top_bound P l e : e ∈ l → P e = true → entry_top e ≤ max_top P l.
Proof.
  induction l as [|x l IH]; [by intros ?%not_elem_of_nil|].
  intros [->|He]%elem_of_cons HP; simpl; [rewrite HP; lia|]. specialize (IH He HP). lia.
Qed.

Lemma free_entries_lookup l bits i :
  Forall entry_ok l → bits !! i = Some true →
  (foldl free_entry bits l !! i = Some false ↔ ∃ e, e ∈ l ∧ usable_entry e = true ∧ frame_in i e)
  ∧ is_Some (foldl free_entry bits l !! i).
Proof.
  intros Hl. revert bits.
  assert (Hkeep : ∀ l bits, bits !! i = Some false → foldl free_entry bits l !! i = Some false).
  { clear. intros l. induction l as [|e l IH]; intros bits Hb; [done|]. simpl. apply IH.
    unfold free_entry. destruct (usable_entry e); [|done].
    rewrite lookup_set_range, Hb. by destruct (decide _). }
  induction Hl as [|e l He Hl IH]; intros bits Hb; simpl.
  - rewrite Hb. split; [|done]. split; [done|]. intros (e & ?%not_elem_of_nil & _). done.
  - unfold free_entry at 2 4. destruct (usable_entry e) eqn:Hu.
    + destruct (decide (first_frame e <= i < first_frame e + frame_count e)%nat) as [Hin|Hout].
      * rewrite !Hkeep by (by rewrite lookup_set_range, decide_True, Hb by done).
        split; [|done]. split; [|done]. intros _. exists e. split_and!; [by left|done|].
        by apply frame_in_range.
      * destruct (IH (set_range bits (first_frame e) (frame_count e) false)) as [IH1 IH2].
        { by rewrite lookup_set_range, decide_False. }
        split; [|done]. rewrite IH1. split.
        -- intros (x & Hx & H1 & H2). exists x. split_and!; [by right|done|done].
        -- intros (x & [->|Hx]%elem_of_cons & H1 & H2); [|by exists x].
           by apply frame_in_range in H2.
    + destruct (IH bits Hb) as [IH1 IH2]. split; [|done]. rewrite IH1. split.
      * intros (x & Hx & H1 & H2). exists x. split_and!; [by right|done|done].
      * intros (x & [->|Hx]%elem_of_cons & H1 & H2); [congruence|by exists x].
Qed.
Lemma length_free_entries l bits : length (foldl free_entry bits l) = length bits.
Proof.
  revert bits. induction l as [|e l IH]; intros bits; [done|]. simpl. rewrite IH.
  unfold free_entry. destruct (usable_entry e); [apply length_set_range|done].
Qed.
Lemma set_range_all n v w : set_range (replicate n v) 0 n w = replicate n w.
Proof.
  apply list_eq. intros i. rewrite lookup_set_range. destruct (decide (i < n)%nat).
  - rewrite decide_True by lia. by rewrite !lookup_replicate_2 by lia.
  - rewrite decide_False by lia.
    by rewrite !(proj2 (lookup_ge_None _ i)) by (rewrite length_replicate; lia).
Qed.

Section Boot.
Context (L : LOCK_FUNCS PMM_STATE) `{!LockLaws L}.
Variable ret : Z.
Implicit Types (s : PMM_STATE) (l : list INT15_MEMORY_MAP_ENTRY).

Lemma release_entries_run l s bits :
  pmm_frames s bits → Forall entry_ok l →
  (∀ e, e ∈ l → usable_entry e = true → entry_top e ≤ (Z.of_nat (length bits) + 1) * PAGE_SIZE - 1) →
  ∃ s', fold_list (λ e _, release_entry L ret e) l tt s = Ret (tt, s')
    ∧ pmm_frames s' (foldl free_entry bits l) ∧ pmm_same s s'.
Proof.
  intros Hs Hl. revert s bits Hs. induction Hl as [|e l He Hl IH]; intros s bits Hs Htop;
    cbn [fold_list foldl].
  { exists s. split_and!; [done|done|apply pmm_same_refl]. }
  assert (Hone : ∃ s1, release_entry L ret e s = Ret (tt, s1)
    ∧ pmm_frames s1 (free_entry bits e) ∧ pmm_same s s1).
  { unfold release_entry, free_entry.
    destruct (usable_entry e) eqn:Hu; unfold usable_entry, ram_entry, valid_entry in Hu.
    - specialize (Htop e ltac:(by left) ltac:(done)).
      destruct (eo_aligned e He) as [Hal Hlen]; [done|].
      apply andb_prop in Hu as [Hu Hmb]. apply andb_prop in Hu as [Hv Hty].
      rewrite Hv, Hty. cbn [negb]. apply negb_true_iff in Hmb. rewrite Hmb.
      destruct He as [H1 H2 H3 _ _]. unfold entry_top in *.
      assert (Hup : AlignAddressUpper (BaseAddress e) PAGE_SIZE
        = Z.of_nat (first_frame e) * PAGE_SIZE).
      { rewrite PAGE_SIZE_pow, AlignAddressUpper_pow2 by lia. change (2 ^ 12) with 4096 in *.
        unfold first_frame. change PAGE_SIZE with 4096 in *.
        rewrite Z2Nat.id by (apply Z.div_pos; lia).
        rewrite (Z.div_mod (BaseAddress e) 4096), Hal at 1 by lia.
        replace (4096 * (BaseAddress e / 4096) + 0 + 4096 - 1)
          with (4095 + (BaseAddress e / 4096) * 4096) by lia.
        rewrite Z.div_add by lia. change (4095 / 4096) with 0. lia. }
      assert (Hfc : Length e / PAGE_SIZE = Z.of_nat (frame_count e)).
      { unfold frame_count. rewrite Z2Nat.id; [done|]. apply Z.div_pos; [lia|done]. }
      assert (Hr : (first_frame e + frame_count e <= length bits)%nat ∧ (1 <= frame_count e)%nat
        ∧ Z.of_nat (frame_count e) ≤ MAX_DWORD).
      { unfold first_frame, frame_count, MAX_DWORD. change PAGE_SIZE with 4096 in *.
        pose proof (Z.div_mod (BaseAddress e) 4096 ltac:(lia)) as Hb. rewrite Hal in Hb.
        pose proof (Z.div_mod (Length e) 4096 ltac:(lia)).
        pose proof (Z.mod_pos_bound (Length e) 4096 ltac:(lia)).
        pose proof (Z.div_pos (BaseAddress e) 4096 ltac:(lia) ltac:(lia)). lia. }
      rewrite Hup, Hfc. massert ltac:(apply Z.leb_le; lia).
      apply PmmReleaseMemory_run; [done|done|lia|lia].
    - exists s. split_and!; [|done|apply pmm_same_refl].
      destruct (IsBooleanFlagOn _ _); [|done]. destruct (MemoryMapTypeUsableRAM =? Type_ e); [|done].
      cbn [negb andb] in *. apply negb_false_iff in Hu. by rewrite Hu. }
  destruct Hone as (s1 & Hr & Hf1 & Hsame1). mrun Hr.
  destruct (IH s1 (free_entry bits e) Hf1) as (s2 & Hr2 & Hf2 & Hsame2).
  { intros x Hx Hux. replace (length (free_entry bits e)) with (length bits).
    - apply Htop; [by right|done].
    - symmetry. apply (length_free_entries [e] bits). }
  exists s2. split_and!; [done|done|by eapply pmm_same_trans].
Qed.

Lemma count_region_run s t :
  0 ≤ t < MemoryMapTypeMax → length (MemoryRegionList (m_pmmData s)) = 6%nat →
  ∃ regions, count_region t s = Ret (tt, set_pmm (with_regions regions) s)
    ∧ length regions = 6%nat.
Proof.
  intros Ht Hl. unfold count_region, MemoryMapTypeMax in *. munfold.
  destruct (lookup_lt_is_Some_2 (MemoryRegionList (m_pmmData s)) (Z.to_nat t)) as [r Hr]; [lia|].
  rewrite Hr. eexists. split; [done|]. by rewrite length_insert.
Qed.
Lemma set_regions_twice r r' s :
  set_pmm (with_regions r) (set_pmm (with_regions r') s) = set_pmm (with_regions r) s.
Proof. done. Qed.

Lemma Ret_triple {St} (a b c a' b' c' : Z) (s : St) :
  a = a' → b = b' → c = c' → Ret ((a, b, c), s) = Ret ((a', b', c'), s).
Proof. by intros -> -> ->. Qed.

(** The loop of _PmmDetermineMemoryLimits. *)
Lemma limits_loop l s size present available :
  Forall entry_ok l → length (MemoryRegionList (m_pmmData s)) = 6%nat →
  0 ≤ size → size + ram_size l < 2 ^ 64 → 0 ≤ present → 0 ≤ available →
  ∃ regions, fold_list (λ e '(size, present, available),
      let memoryType := Type_ e in
      let top := u64 (BaseAddress e + Length e) in
      let present := if present <? top then top else present in
      if negb (IsBooleanFlagOn (ExtendedAttributes e) MEMORY_MAP_ENTRY_EA_VALID_ENTRY)
      then mret (size, present, available) else
      count_region memoryType;;
      if negb (MemoryMapTypeUsableRAM =? memoryType) then mret (size, present, available) else
      let available := if available <? top then top else available in
      mret (u64 (size + Length e), present, available)) l (size, present, available) s
    = Ret ((size + ram_size l, Z.max present (max_top (λ _, true) l),
            Z.max available (max_top ram_entry l)), set_pmm (with_regions regions) s)
    ∧ length regions = 6%nat.
Proof.
  intros Hl. revert s size present available. induction Hl as [|e l He Hl IH];
    intros s size present available Hreg Hsz Hsum Hp Ha; cbn [fold_list ram_size max_top].
  { exists (MemoryRegionList (m_pmmData s)). rewrite !Z.max_l, Z.add_0_r by lia. split; [|done].
    unfold mret, M_ret. destruct s as [[] ? ? ?]. done. }
  pose proof He as [H1 H2 H3 H4 _]. unfold entry_top in *. cbn [ram_size] in Hsum.
  assert (Hram : 0 ≤ ram_size l).
  { clear - Hl. induction Hl as [|x l Hx _ IH]; simpl; [done|]. pose proof (eo_length x Hx).
    destruct (ram_entry x); lia. }
  assert (Htop : u64 (BaseAddress e + Length e) = BaseAddress e + Length e).
  { unfold u64. rewrite Z.mod_small; lia. }
  rewrite Htop. cbv zeta.
  assert (Hmax : ∀ a b : Z, (if a <? b then b else a) = Z.max a b).
  { intros a b. destruct (Z.ltb_spec a b); lia. }
  rewrite !Hmax. unfold ram_entry, valid_entry in *.
  destruct (IsBooleanFlagOn (ExtendedAttributes e) _) eqn:Hv; cbn [negb andb].
  - destruct (count_region_run s (Type_ e) H4 Hreg) as (r1 & Hr1 & Hl1).
    destruct (MemoryMapTypeUsableRAM =? Type_ e) eqn:Hty; cbn [negb andb] in *.
    + assert (Hu : u64 (size + Length e) = size + Length e) by (unfold u64; rewrite Z.mod_small; lia).
      destruct (IH (set_pmm (with_regions r1) s) (size + Length e)
        (Z.max present (BaseAddress e + Length e)) (Z.max available (BaseAddress e + Length e)))
        as (r2 & Hr2 & Hl2); try lia; [done|].
      exists r2. split; [|done]. rewrite set_regions_twice in Hr2.
      erewrite bind_Ret by (mrun Hr1; by rewrite Hu). etransitivity; [exact Hr2|].
      apply Ret_triple; lia.
    + destruct (IH (set_pmm (with_regions r1) s) size
        (Z.max present (BaseAddress e + Length e)) available) as (r2 & Hr2 & Hl2); try lia; [done|].
      exists r2. split; [|done]. rewrite set_regions_twice in Hr2.
      erewrite bind_Ret by (by mrun Hr1). etransitivity; [exact Hr2|].
      apply Ret_triple; lia.
  - destruct (IH s size (Z.max present (BaseAddress e + Length e)) available)
      as (r2 & Hr2 & Hl2); try lia; [done|].
    exists r2. split; [|done]. erewrite bind_Ret by done. etransitivity; [exact Hr2|].
    apply Ret_triple; lia.
Qed.

Lemma limits_run l s :
  l ≠ [] → Forall entry_ok l → length (MemoryRegionList (m_pmmData s)) = 6%nat → ram_size l < 2 ^ 64 →
  ∃ regions, _PmmDetermineMemoryLimits l (Z.of_nat (length l)) s
    = Ret (tt, set_pmm (λ d, with_limits (max_top (λ _, true) l) (max_top ram_entry l) (ram_size l)
        (with_regions regions d)) s).
Proof.
  intros Hne Hl Hreg Hsz. unfold _PmmDetermineMemoryLimits.
  massert ltac:(apply negb_true_iff, Z.eqb_neq; destruct l; simpl; [done|lia]).
  destruct (limits_loop l s 0 0 0) as (regions & Hr & _); try done; try lia.
  exists regions. rewrite Nat2Z.id. erewrite bind_Ret.
  2: { rewrite (for_fold_list (λ e '(size, present, available),
        let memoryType := Type_ e in
        let top := u64 (BaseAddress e + Length e) in
        let present := if present <? top then top else present in
        if negb (IsBooleanFlagOn (ExtendedAttributes e) MEMORY_MAP_ENTRY_EA_VALID_ENTRY)
        then mret (size, present, available) else
        count_region memoryType;;
        if negb (MemoryMapTypeUsableRAM =? memoryType) then mret (size, present, available) else
        let available := if available <? top then top else available in
        mret (u64 (size + Length e), present, available))); [exact Hr|].
       by intros i [[]] t. }
  assert (Hpos : ∀ P l, 0 ≤ max_top P l).
  { intros P l'. induction l'; simpl; lia. }
  rewrite !Z.max_r by apply Hpos. done.
Qed.

(** Everything is reserved before the usable entries are freed. *)
Lemma reserve_all s n :
  (n <> 0)%nat → pmm_frames s (replicate n false) →
  ∃ r s', PmmReserveMemory L ret (Z.of_nat n) s = Ret (r, s')
    ∧ pmm_frames s' (replicate n true) ∧ pmm_same s s'.
Proof.
  intros Hn Hs. destruct (PmmReserveMemoryEx_run L ret s _ 0 n Hs Hn ltac:(lia))
    as (r & s' & bits' & Hr & Hf & Hsame & Hcase).
  assert (Hrun : is_run (replicate n false) 0 n false).
  { intros j Hj. by apply lookup_replicate_2. }
  exists r, s'. split_and!; [exact Hr| |done].
  destruct Hcase as [(_ & _ & Hno)|(i & _ & _ & Hi & -> & Hmin)]; [by destruct (Hno O ltac:(lia))|].
  destruct i as [|i]; [by rewrite set_range_all in Hf|].
  by destruct (Hmin O ltac:(lia)).
Qed.

Lemma _PmmInitializeAllocationBitmap_run l s va (top := max_top (λ _, true) l) (n := top / PAGE_SIZE) :
  Forall entry_ok l → va ≠ NULL → PAGE_SIZE ≤ top → mapped (ps_bytes s) va ((n + 7) / 8) →
  lock_free (AllocationLock (m_pmmData s)) → apic_ok (ps_apic s) →
  ∃ s', _PmmInitializeAllocationBitmap L ret va top l (Z.of_nat (length l)) s
      = Ret ((n + 7) / 8, s')
    ∧ pmm_frames s' (foldl free_entry (replicate (Z.to_nat n) true) l)
    ∧ m_pmmData s' = with_bitmap (mkBITMAP n ((n + 7) / 8) va) (m_pmmData s)
    ∧ intr_of (ps_rflags s') = intr_of (ps_rflags s)
    ∧ (∀ q, ¬ (va ≤ q < va + (n + 7) / 8) → ps_bytes s' !! q = ps_bytes s !! q).
Proof.
  intros Hl Hva Hpage Hm Hlock Hapic. unfold _PmmInitializeAllocationBitmap.
  assert (Htop : top < 2 ^ 44).
  { unfold top. clear - Hl. induction Hl as [|e l He _ IH]; simpl; [lia|].
    pose proof (eo_top e He). lia. }
  assert (Hn : 0 < n ≤ MAX_DWORD).
  { unfold n, MAX_DWORD. change PAGE_SIZE with 4096 in *. split.
    - apply Z.div_str_pos. lia.
    - apply Z.lt_succ_r, Z.div_lt_upper_bound; lia. }
  massert ltac:(apply negb_true_iff, Z.eqb_neq; congruence).
  massert ltac:(apply negb_true_iff, Z.eqb_neq; change PAGE_SIZE with 4096 in *; lia).
  fold n. massert ltac:(apply Z.leb_le; lia).
  mrun (BitmapPreinit_run s n Hn).
  assert (Hm1 : mapped (get_bytes s) va ((n + 7) / 8)) by exact Hm.
  destruct (BitmapInitEx_run s n va false Hn Hva Hm1) as (b' & Hinit & Hrep & Hfr). mrun Hinit.
  set (bm := mkBITMAP n ((n + 7) / 8) va) in *.
  set (s1 := set_pmm (with_bitmap bm) (set_bytes b' s)).
  erewrite bind_Ret by done. fold s1.
  assert (Hcount : BitmapGetMaxElementCount (Some bm) s1 = Ret (Z.of_nat (Z.to_nat n), s1)).
  { rewrite Z2Nat.id by lia. done. }
  mrun Hcount.
  assert (Hs1 : pmm_frames s1 (replicate (Z.to_nat n) false)) by by split.
  destruct (reserve_all s1 (Z.to_nat n) ltac:(lia) Hs1) as (r & s2 & Hr2 & Hs2 & Hsame2). mrun Hr2.
  destruct (release_entries_run l s2 _ Hs2 Hl) as (s3 & Hr3 & Hs3 & Hsame3).
  { intros e He _. rewrite length_replicate, Z2Nat.id by lia.
    pose proof (max_top_bound (λ _, true) l e He eq_refl). fold top in H.
    unfold n. change PAGE_SIZE with 4096 in *.
    pose proof (Z.div_mod top 4096 ltac:(lia)). pose proof (Z.mod_pos_bound top 4096 ltac:(lia)). lia. }
  exists s3. rewrite Nat2Z.id. erewrite bind_Ret.
  2: { rewrite (for_each_list_fold (release_entry L ret)); [exact Hr3|done]. }
  pose proof (pmm_same_trans _ _ _ Hsame2 Hsame3) as [D1 D2 D3 D4].
  split_and!; [done|done|exact D1|exact D2|].
  intros q Hq. rewrite D4; [by apply Hfr|]. cbn. intros Hin. apply Hq.
  pose proof (Z.div_le_mono (n - 1) (n + 7 - 8) 8 ltac:(lia) ltac:(lia)) as Hd.
  replace (n + 7 - 8) with (n + 7 + (-1) * 8) in Hd by lia. rewrite Z.div_add in Hd by lia. lia.
Qed.

Lemma PmmInitSystem_run l s va (top := max_top (λ _, true) l) (n := top / PAGE_SIZE) :
  l ≠ [] → Forall entry_ok l → ram_size l < 2 ^ 64 → va ≠ NULL → PAGE_SIZE ≤ top →
  mapped (ps_bytes s) va ((n + 7) / 8) → length (MemoryRegionList (m_pmmData s)) = 6%nat →
  lock_free (AllocationLock (m_pmmData s)) → apic_ok (ps_apic s) →
  ∃ s', PmmInitSystem L ret va (Some l) (Z.of_nat (length l)) true s
      = Ret ((STATUS_SUCCESS, Some (u32 (AlignAddressUpper ((n + 7) / 8) PAGE_SIZE))), s')
    ∧ pmm_frames s' (foldl free_entry (replicate (Z.to_nat n) true) l)
    ∧ PhysicalMemorySize (m_pmmData s') = ram_size l
    ∧ HighestPhysicalAddressPresent (m_pmmData s') = top
    ∧ HighestPhysicalAddressAvailable (m_pmmData s') = max_top ram_entry l
    ∧ intr_of (ps_rflags s') = intr_of (ps_rflags s).
Proof.
  intros Hne Hl Hsz Hva Hpage Hm Hreg Hlock Hapic. unfold PmmInitSystem.
  rewrite (proj2 (Z.eqb_neq NULL va)) by congruence.
  rewrite (proj2 (Z.eqb_neq 0 _)) by (destruct l; simpl; [done|lia]). cbn [negb].
  destruct (limits_run l s Hne Hl Hreg Hsz) as (regions & Hr). mrun Hr.
  set (s1 := set_pmm _ s).
  mrun (gets_run (λ s, HighestPhysicalAddressPresent (m_pmmData s)) s1).
  change (HighestPhysicalAddressPresent (m_pmmData s1)) with top.
  destruct (_PmmInitializeAllocationBitmap_run l s1 va Hl Hva Hpage Hm Hlock Hapic)
    as (s2 & Hr2 & Hf2 & Hd2 & Hi2 & _). mrun Hr2. exists s2.
  split_and!; [done|done|by rewrite Hd2..|done].
Qed.
End Boot.

(** * Properties *)
Lemma set_range_restore bits i n v :
  is_run bits i n v → set_range (set_range bits i n (negb v)) i n v = bits.
Proof.
  intros Hr. apply list_eq. intros j. rewrite !lookup_set_range.
  destruct (decide _) as [Hj|]; [|done].
  replace j with (i + (j - i))%nat by lia. by rewrite Hr by lia.
Qed.

Section Properties.
Variables (fuel : nat) (mon : bool) (ret : Z).
Hypothesis Hfuel : (0 < fuel)%nat.
#[local] Abbreviation L := (LockSystemInit fuel mon).

(** C16: PmmReserveMemoryEx hands out the lowest run of free frames at or above the minimal
    address, marks exactly these frames reserved and leaves lock, interrupts and the
    rest of memory as they were; PmmReleaseMemory of the result undoes it. *)
Theorem PmmReserveMemoryEx_first_fit s bits lo n :
  pmm_frames s bits → n ≠ 0%nat → (lo <= length bits)%nat →
  ∃ r s', PmmReserveMemoryEx L ret (Z.of_nat n) (Z.of_nat lo * PAGE_SIZE) s = Ret (r, s')
    ∧ pmm_same s s'
    ∧ ((r = NULL ∧ pmm_frames s' bits ∧ ∀ i, (lo <= i)%nat → ¬ is_run bits i n false)
       ∨ ∃ i, r = Z.of_nat i * PAGE_SIZE ∧ (lo <= i)%nat ∧ is_run bits i n false
           ∧ (∀ i', (lo <= i' < i)%nat → ¬ is_run bits i' n false)
           ∧ pmm_frames s' (set_range bits i n true)
           ∧ ∃ s'', PmmReleaseMemory L ret r (Z.of_nat n) s' = Ret (tt, s'')
               ∧ pmm_frames s'' bits ∧ pmm_same s s'').
Proof using Hfuel.
  intros Hs Hn Hlo. pose proof (LockSystemInit_laws fuel Hfuel mon (St:=PMM_STATE)).
  destruct (PmmReserveMemoryEx_run L ret s bits lo n Hs Hn Hlo)
    as (r & s' & bits' & Hr & Hf & Hsame & [(-> & -> & Hno)|(i & -> & Hi & Hrun & -> & Hmin)]).
  { exists NULL, s'. split_and!; [done|done|]. by left. }
  exists (Z.of_nat i * PAGE_SIZE), s'. split_and!; [done|done|]. right. exists i.
  assert (Hb : (i < length bits)%nat ∧ (i + n <= length bits)%nat).
  { destruct n as [|n]; [done|]. pose proof (Hrun n ltac:(lia)) as Hx.
    apply lookup_lt_Some in Hx. lia. }
  destruct (PmmReleaseMemory_run L ret s' _ i n Hf) as (s'' & Hr2 & Hf2 & Hsame2);
    [rewrite length_set_range; lia..|].
  split_and!; [done|done|done|done|done|]. exists s''.
  split_and!; [done| |by eapply pmm_same_trans].
  change true with (negb false) in Hf2. by rewrite set_range_restore in Hf2.
Qed.

(** C17: let the firmware report a map that is not empty, in which every entry ends below 2^44 and
    has a known type, and every valid entry of usable RAM from 1 MB on is page aligned and holds a
    page, with sizes that add up to less than 2^64, and let there be memory for the bitmap at the
    address that is given. After PmmInitSystem a frame is free exactly when it lies inside a valid entry of usable
    RAM that starts at 1 MB or above; the size asked for covers the bitmap; the memory size is the
    sum of all valid entries of usable RAM, those below 1 MB included, and the highest addresses
    are the ends of the entries that reach highest, of all of them and of those of usable RAM. *)
Theorem PmmInitSystem_frees_usable_ram l s va (top := max_top (λ _, true) l) (n := top / PAGE_SIZE) :
  l ≠ [] → Forall entry_ok l → ram_size l < 2 ^ 64 → va ≠ NULL → PAGE_SIZE ≤ top →
  mapped (ps_bytes s) va ((n + 7) / 8) → length (MemoryRegionList (m_pmmData s)) = 6%nat →
  lock_free (AllocationLock (m_pmmData s)) → apic_ok (ps_apic s) →
  ∃ s' size bits, PmmInitSystem L ret va (Some l) (Z.of_nat (length l)) true s
      = Ret ((STATUS_SUCCESS, Some size), s')
    ∧ (n + 7) / 8 ≤ size ∧ size mod PAGE_SIZE = 0
    ∧ pmm_frames s' bits ∧ Z.of_nat (length bits) = n
    ∧ (∀ i, (i < length bits)%nat →
        (bits !! i = Some false ↔ ∃ e, e ∈ l ∧ usable_entry e = true ∧ frame_in i e))
    ∧ PhysicalMemorySize (m_pmmData s') = ram_size l
    ∧ HighestPhysicalAddressPresent (m_pmmData s') = top
    ∧ HighestPhysicalAddressAvailable (m_pmmData s') = max_top ram_entry l
    ∧ intr_of (ps_rflags s') = intr_of (ps_rflags s).
Proof using Hfuel.
  intros Hne Hl Hsz Hva Hpage Hm Hreg Hlock Hapic.
  pose proof (LockSystemInit_laws fuel Hfuel mon (St:=PMM_STATE)).
  destruct (PmmInitSystem_run L ret l s va Hne Hl Hsz Hva Hpage Hm Hreg Hlock Hapic)
    as (s' & Hr & Hf & H1 & H2 & H3 & H4).
  assert (Hn : 0 < n ≤ MAX_DWORD).
  { pose proof (rep_bound _ _ _ (pf_rep _ _ Hf)) as Hbd.
    rewrite length_free_entries, length_replicate in Hbd. fold top n in Hbd.
    assert (0 < n) by (unfold n; apply Z.div_str_pos; change PAGE_SIZE with 4096 in *; lia). lia. }
  assert (Hup : u32 (AlignAddressUpper ((n + 7) / 8) PAGE_SIZE)
    = PAGE_SIZE * (((n + 7) / 8 + PAGE_SIZE - 1) / PAGE_SIZE)).
  { pose proof (Z.div_pos (n + 7) 8 ltac:(lia) ltac:(lia)).
    pose proof (Z.div_lt_upper_bound (n + 7) 8 (2 ^ 30) ltac:(lia)) as Hlt.
    unfold MAX_DWORD in Hn. specialize (Hlt ltac:(lia)).
    rewrite PAGE_SIZE_pow, AlignAddressUpper_pow2 by lia. change (2 ^ 12) with 4096.
    set (x := (n + 7) / 8) in *.
    pose proof (Z.div_pos (x + 4096 - 1) 4096 ltac:(lia) ltac:(lia)).
    pose proof (Z.mul_div_le (x + 4096 - 1) 4096 ltac:(lia)).
    unfold u32. rewrite Z.mod_small; [done|lia]. }
  eexists s', _, _. split; [exact Hr|]. fold top n in Hf |- *. rewrite Hup.
  split_and!; [| |exact Hf| | |done..].
  - pose proof (Z.mul_succ_div_gt ((n + 7) / 8 + PAGE_SIZE - 1) PAGE_SIZE).
    change PAGE_SIZE with 4096 in *. lia.
  - rewrite Z.mul_comm. by apply Z.mod_mul.
  - rewrite length_free_entries, length_replicate. lia.
  - intros i Hi. rewrite length_free_entries, length_replicate in Hi.
    apply free_entries_lookup; [done|]. by apply lookup_replicate_2.
Qed.
End Properties.

(** * Concrete runs *)
Module PmmExample.
Definition room : gmap Z Z := list_to_map (imap (λ i v, (0x5000 + Z.of_nat i, v)) (replicate 66 0)).
Definition start : PMM_STATE :=
  mkPS (mkPmm 0 0 0 (replicate 6 (mkRegion 0 0)) (mkSPINLOCK LOCK_FREE NULL NULL) BITMAP_zero)
    room 512 0.
(** 4 KB below 1 MB, a valid entry of 3 frames at 1 MB, a reserved one above it. *)
Definition map : list INT15_MEMORY_MAP_ENTRY :=
  [mkEntry 0x1000 0x1000 1 1; mkEntry 0x100000 0x3000 1 1; mkEntry 0x103000 0x1000 2 1].

Lemma map_ok : Forall entry_ok map.
Proof. repeat (apply Forall_cons; split; [by split|]). by apply Forall_nil. Qed.
Lemma room_mapped : mapped (ps_bytes start) 0x5000 33.
Proof.
  intros q Hq.
  assert (Hc : forallb (λ i, bool_decide (is_Some (room !! (0x5000 + Z.of_nat i)))) (seq 0 33) = true)
    by by vm_compute.
  rewrite forallb_forall in Hc. specialize (Hc (Z.to_nat (q - 0x5000))).
  replace q with (0x5000 + Z.of_nat (Z.to_nat (q - 0x5000))) by lia.
  eapply bool_decide_eq_true, Hc, in_seq. lia.
Qed.

Lemma PmmInitSystem_frees_usable_ram_witness : ∃ s' size,
  PmmInitSystem (LockSystemInit 3 false) 0x401000 0x5000 (Some map) 3 true start
    = Ret ((STATUS_SUCCESS, Some size), s') ∧ PhysicalMemorySize (m_pmmData s') = 0x4000.
Proof.
  destruct (PmmInitSystem_frees_usable_ram 3 false 0x401000 ltac:(lia) map start 0x5000)
    as (s' & size & bits & Hr & _ & _ & _ & _ & _ & Hsz & _).
  - done.
  - apply map_ok.
  - done.
  - done.
  - done.
  - apply room_mapped.
  - done.
  - done.
  - by split.
  - exists s', size. split; [exact Hr|]. by rewrite Hsz.
Defined.

Definition frames : PMM_STATE :=
  mkPS (mkPmm 0 0 0 [] (mkSPINLOCK LOCK_FREE NULL NULL) (mkBITMAP 8 1 0x5000)) {[0x5000 := 7]} 512 0.
Lemma frames_ok : pmm_frames frames [true; true; true; false; false; false; false; false].
Proof.
  split; [|done|by split]. split; [done|done|done|]. intros i v Hi.
  do 8 (destruct i as [|i]; [simpl in Hi; simplify_eq; eexists; split_and!;
    [vm_compute; reflexivity|by split|vm_compute; reflexivity]|]). done.
Qed.
Lemma PmmReserveMemoryEx_first_fit_witness : ∃ r s',
  PmmReserveMemoryEx (LockSystemInit 3 true) 0x401000 2 (1 * PAGE_SIZE) frames = Ret (r, s').
Proof.
  destruct (PmmReserveMemoryEx_first_fit 3 true 0x401000 ltac:(lia) frames _ 1 2 frames_ok)
    as (r & s' & Hr & _); [done|simpl; lia|]. by exists r, s'.
Defined.

(** The page below 1 MB is in the memory size, although it is not handed out. *)
Lemma memory_below_1MB_counted : ∃ s',
  PmmInitSystem (LockSystemInit 3 false) 0x401000 0x5000 (Some [mkEntry 0x1000 0x1000 1 1; mkEntry 0x100000 0x3000 1 1])
    2 true start = Ret ((STATUS_SUCCESS, Some 0x1000), s')
  ∧ PhysicalMemorySize (m_pmmData s') = 0x3000 + 0x1000.
Proof. eexists. split; vm_compute; reflexivity. Qed.

(** An entry whose base is not page aligned: its base is rounded up but its length
    is not reduced, so the frame at 0x101000, whose second half belongs to the
    reserved entry at 0x101800, is freed. *)
Definition unaligned_map : list INT15_MEMORY_MAP_ENTRY :=
  [mkEntry 0x100800 0x1000 1 1; mkEntry 0x101800 0x2800 2 1].
Lemma unaligned_entry_frees_foreign_frame : ∃ s',
  PmmInitSystem (LockSystemInit 3 false) 0x401000 0x5000 (Some unaligned_map) 2 true start
    = Ret ((STATUS_SUCCESS, Some 0x1000), s')
  ∧ ∃ s'', PmmReserveMemoryEx (LockSystemInit 3 false) 0x401000 1 NULL s' = Ret (0x101000, s'').
Proof. eexists. split; [vm_compute; reflexivity|]. eexists. vm_compute. reflexivity. Qed.
End PmmExample.
