(* ===== verification/HashTable.v ===== *)
(** CommonLib/src/hash_table.c: the chained hash table with intrusive entries.

    A bucket is a ring of list.c, kept sorted by key; the keys lie in byte memory
    at a fixed offset from the entries. A [PHASH_TABLE] is the record it points to,
    which the operations that change it return. [ht_inv] ties a table to the lists
    of entries of its buckets, and [ht_map] to a finite map from keys to entries. *)
From S2P Require Import Prelude ListEntry Memory.

Definition FUNC_HashFunction (St : Type) : Type := Z → Z → Z → M St Z.
Record HASH_TABLE (St : Type) := mkHT {
  MaxKeys : Z;
  KeySize : Z;
  NumberOfElements : Z;
  OffsetToKey : Z;
  HashFunc : FUNC_HashFunction St;
  TableData : Z
}.
Arguments mkHT {St}.
Arguments MaxKeys {St} _.
Arguments KeySize {St} _.
Arguments NumberOfElements {St} _.
Arguments OffsetToKey {St} _.
Arguments HashFunc {St} _.
Arguments TableData {St} _.
Record HASH_ITERATOR := mkHI { KeyIndex : Z; CurrentKeyIterator : LIST_ITERATOR }.
Record HASH_ELEM_SEARCH_CTX := mkCtx { PlaceholderEntry : Z; Result : Z }.

(** sizeof(HASH_ENTRY): two pointers. *)
Definition sizeof_HASH_ENTRY : Z := 16.
Definition HASH_UNIVERSAL_A : Z := 1701.
Definition HASH_UNIVERSAL_B : Z := 59.
Definition HASH_UNIVERSAL_P : Z := 10007.

Section Ops.
Context {St : Type} `{HasNodes St} `{HasBytes St}.
Variables (DEBUG : bool) (fuel : nat).
Implicit Types (HashTable : HASH_TABLE St).

(** &HashTable->TableData->Entries[i] *)
Definition bucket HashTable (i : Z) : Z := TableData HashTable + sizeof_HASH_ENTRY * i.
Definition with_count (c : Z) HashTable : HASH_TABLE St :=
  mkHT (MaxKeys HashTable) (KeySize HashTable) (u32 c) (OffsetToKey HashTable)
    (HashFunc HashTable) (TableData HashTable).

Definition _HashTableObtainKeyAddress HashTable (Element : Z) : M St Z :=
  ASSERT (negb (Element =? NULL));;
  mret (Element + OffsetToKey HashTable).

(** The compare callback; [SecondElem] is the address of a key. *)
Definition _HashTableSearchElem HashTable : FUNC_CompareFunction (St:=St) HASH_ELEM_SEARCH_CTX :=
  λ FirstElem SecondElem ctx,
    ASSERT (negb (FirstElem =? NULL));;
    ASSERT (negb (SecondElem =? NULL));;
    pKey ← _HashTableObtainKeyAddress HashTable FirstElem;
    r ← cl_rmemcmp pKey SecondElem (KeySize HashTable);
    mret (r, mkCtx FirstElem r).

(** The result and the entry behind which a new element belongs. *)
Definition _HashTableSearchKeyInBucket HashTable (Bucket Key : Z) : M St (bool * Z) :=
  ASSERT (negb (Bucket =? NULL));;
  ASSERT (negb (Key =? NULL));;
  '(pResult, searchCtx) ← ListSearchForElement DEBUG fuel Bucket Key true
      (Some (_HashTableSearchElem HashTable)) (mkCtx Bucket 0);
  (if negb (pResult =? NULL) then
     ASSERT (pResult =? PlaceholderEntry searchCtx);;
     ASSERT (Result searchCtx =? 0)
   else mret tt);;
  Placeholder ← (if 0 <? Result searchCtx then read_Blink (PlaceholderEntry searchCtx)
                 else mret (PlaceholderEntry searchCtx));
  mret (negb (pResult =? NULL), Placeholder).

(** memzero leaves HashFunc NULL: calling it faults. *)
Definition HashTablePreinit (MaxKeys_ KeySize_ : Z) : M St (HASH_TABLE St * Z) :=
  ASSERT ((0 <? MaxKeys_) && (MaxKeys_ <? MAX_DWORD / sizeof_HASH_ENTRY));;
  mret (mkHT MaxKeys_ KeySize_ 0 0 (λ _ _ _, fault) NULL, u32 (MaxKeys_ * sizeof_HASH_ENTRY)).

Definition HashTableInit HashTable (TableData_ : Z) (HashFunction : FUNC_HashFunction St)
    (OffsetToKey_ : Z) : M St (HASH_TABLE St) :=
  ASSERT (negb (TableData_ =? NULL));;
  let HashTable := mkHT (MaxKeys HashTable) (KeySize HashTable) (NumberOfElements HashTable)
    OffsetToKey_ HashFunction TableData_ in
  for_each (Z.to_nat (MaxKeys HashTable)) 0 (λ i, InitializeListHead (bucket HashTable i));;
  mret HashTable.

Definition HashTableSize HashTable : Z := NumberOfElements HashTable.

Definition HashTableRemoveEntry HashTable (Element : Z) : M St (HASH_TABLE St) :=
  ASSERT (negb (Element =? NULL));;
  RemoveEntryList DEBUG Element;;
  mret (with_count (NumberOfElements HashTable - 1) HashTable).

Definition HashTableInsert HashTable (Element : Z) : M St (Z * HASH_TABLE St) :=
  ASSERT (negb (Element =? NULL));;
  pKey ← _HashTableObtainKeyAddress HashTable Element;
  hIndex ← HashFunc HashTable pKey (KeySize HashTable) (MaxKeys HashTable);
  ASSERT (hIndex <? MaxKeys HashTable);;
  '(bElementAlreadyInHash, pPlaceToInsertInBucket) ←
    _HashTableSearchKeyInBucket HashTable (bucket HashTable hIndex) pKey;
  InsertHeadList DEBUG pPlaceToInsertInBucket Element;;
  if (bElementAlreadyInHash : bool) then
    RemoveEntryList DEBUG pPlaceToInsertInBucket;;
    mret (pPlaceToInsertInBucket, HashTable)
  else mret (NULL, with_count (NumberOfElements HashTable + 1) HashTable).

Definition HashTableLookup HashTable (Key : Z) : M St Z :=
  ASSERT (negb (Key =? NULL));;
  hIndex ← HashFunc HashTable Key (KeySize HashTable) (MaxKeys HashTable);
  '(bElementInHash, pResult) ←
    _HashTableSearchKeyInBucket HashTable (bucket HashTable hIndex) Key;
  mret (if (bElementInHash : bool) then pResult else NULL).

Definition HashTableRemove HashTable (Key : Z) : M St (Z * HASH_TABLE St) :=
  ASSERT (negb (Key =? NULL));;
  pHashEntry ← HashTableLookup HashTable Key;
  if negb (pHashEntry =? NULL) then
    HashTable' ← HashTableRemoveEntry HashTable pHashEntry;
    mret (pHashEntry, HashTable')
  else mret (pHashEntry, HashTable).

(** An iterator reads MaxKeys and TableData of its table, which do not change
    while it runs. *)
Definition HashTableIteratorInit HashTable : M St HASH_ITERATOR :=
  it ← ListIteratorInit (bucket HashTable 0);
  mret (mkHI 0 it).

Definition HashTableIteratorNext HashTable (it : HASH_ITERATOR) : M St (Z * HASH_ITERATOR) :=
  loop fuel (λ '(pResult, it),
    if negb (KeyIndex it <? MaxKeys HashTable) then mret (inr (pResult, it)) else
    '(e, cur) ← ListIteratorNext (CurrentKeyIterator it);
    if negb (e =? NULL) then mret (inr (e, mkHI (KeyIndex it) cur)) else
    let k := u32 (KeyIndex it + 1) in
    cur' ← ListIteratorInit (bucket HashTable k);
    mret (inl (e, mkHI k cur'))) (NULL, it).

Definition HashTableClear HashTable (FreeFunction : option (Z → M St unit)) : M St (HASH_TABLE St) :=
  it ← HashTableIteratorInit HashTable;
  loop fuel (λ '(HashTable, it),
    '(pEntry, it') ← HashTableIteratorNext HashTable it;
    if pEntry =? NULL then mret (inr HashTable) else
    HashTable' ← HashTableRemoveEntry HashTable pEntry;
    (match FreeFunction with Some f => f pEntry | None => mret tt end);;
    mret (inl (HashTable', it'))) (HashTable, it).

(** The 8-byte local [keyValue] receives [KeyLength] bytes; more of them would
    overwrite the stack. A division by zero faults. *)
Definition read_keyValue (Key KeyLength : Z) : M St Z :=
  ASSERT (negb (Key =? NULL));;
  if 8 <? KeyLength then fault else
  bs ← read_bytes Key (Z.to_nat KeyLength);
  mret (le_value bs).
Definition HashFuncGenericIncremental : FUNC_HashFunction St := λ Key KeyLength MaxKeys,
  keyValue ← read_keyValue Key KeyLength;
  if MaxKeys =? 0 then fault else mret (keyValue mod MaxKeys).
Definition HashFuncUniversal : FUNC_HashFunction St := λ Key KeyLength MaxKeys,
  keyValue ← read_keyValue Key KeyLength;
  let result := keyValue mod HASH_UNIVERSAL_P in
  ASSERT (result <? MAX_QWORD / HASH_UNIVERSAL_A - HASH_UNIVERSAL_B);;
  if MaxKeys =? 0 then fault else
  mret ((u64 (HASH_UNIVERSAL_A * result + HASH_UNIVERSAL_B) mod HASH_UNIVERSAL_P) mod MaxKeys).
End Ops.

(** * The lists of entries a table stands for *)
Lemma StronglySorted_app_iff {A} (R : A → A → Prop) l1 l2 :
  StronglySorted R (l1 ++ l2) ↔
    StronglySorted R l1 ∧ StronglySorted R l2 ∧ ∀ x y, x ∈ l1 → y ∈ l2 → R x y.
Proof.
  induction l1 as [|a l1 IH]; simpl.
  - split; [intros H; split_and!; [constructor|done|]; intros x y ?%not_elem_of_nil; done|tauto].
  - split.
    + intros Hs. apply StronglySorted_inv in Hs as [Hs Ha]. apply IH in Hs as (H1 & H2 & H3).
      apply Forall_app in Ha as [Ha1 Ha2]. split_and!; [by constructor|done|].
      intros x y [->|Hx]%elem_of_cons Hy; [|by apply H3]. rewrite Forall_forall in Ha2. by apply Ha2.
    + intros (H1 & H2 & H3). apply StronglySorted_inv in H1 as [H1 Ha].
      constructor; [apply IH; split_and!; [done|done|]|].
      * intros x y Hx Hy. apply H3; [by right|done].
      * apply Forall_app. split; [done|]. apply Forall_forall. intros y Hy. apply H3; [by left|done].
Qed.

Section Model.
Context {St : Type} `{HasNodes St} `{HasBytes St} `{!NodesBytes St}.
Variables (DEBUG : bool) (fuel : nat).
(** The key bytes of an entry, and the bucket of a key. *)
Variables (kb : Z → list Z) (hash : Z → Z).
Implicit Types (T : HASH_TABLE St) (s : St) (bks : list (list Z)).

Definition kv (x : Z) : Z := le_value (kb x).

(** The key [bs] lies at [p]. *)
Definition key_at T (b : gmap Z Z) (p : Z) (bs : list Z) : Prop :=
  p ≠ NULL ∧ bytes_at b p bs ∧ Forall byte_ok bs ∧ Z.of_nat (length bs) = KeySize T.

(** The hash function computes [hash] of the key. *)
Definition hash_ok T : Prop :=
  ∀ s p bs, key_at T (get_bytes s) p bs →
    HashFunc T p (KeySize T) (MaxKeys T) s = Ret (hash (le_value bs), s)
    ∧ 0 ≤ hash (le_value bs) < MaxKeys T.

Definition in_bucket bks (i : nat) (x : Z) : Prop := ∃ xs, bks !! i = Some xs ∧ x ∈ xs.

Record ht_inv T s bks : Prop := {
  hi_size : Z.of_nat (length bks) = MaxKeys T;
  hi_keysize : 0 < KeySize T < 2 ^ 32;
  hi_hashf : hash_ok T;
  hi_ring i xs : bks !! i = Some xs → dlist (get_nodes s) (bucket T (Z.of_nat i)) xs;
  hi_disj i j xs ys p : bks !! i = Some xs → bks !! j = Some ys →
    p ∈ bucket T (Z.of_nat i) :: xs → p ∈ bucket T (Z.of_nat j) :: ys → i = j;
  hi_null i xs : bks !! i = Some xs → NULL ∉ bucket T (Z.of_nat i) :: xs;
  hi_key i x : in_bucket bks i x → key_at T (get_bytes s) (x + OffsetToKey T) (kb x);
  hi_hash i x : in_bucket bks i x → hash (kv x) = Z.of_nat i;
  hi_sorted i xs : bks !! i = Some xs → StronglySorted (λ a b, kv a < kv b) xs;
  hi_count : NumberOfElements T = Z.of_nat (length (concat bks))
}.

(** The finite map the table implements. *)
Definition ht_map bks : gmap Z Z := list_to_map ((λ x, (kv x, x)) <$> concat bks).

Lemma concat_elem bks x : x ∈ concat bks ↔ ∃ i, in_bucket bks i x.
Proof.
  induction bks as [|xs bks IH]; simpl.
  - split; [by intros ?%not_elem_of_nil|]. intros (i & xs & Hi & _). by rewrite lookup_nil in Hi.
  - rewrite elem_of_app, IH. split.
    + intros [Hx|(i & ys & Hi & Hx)]; [by exists O, xs|by exists (S i), ys].
    + intros ([|i] & ys & Hi & Hx); simpl in Hi; simplify_eq; [by left|]. right. by exists i, ys.
Qed.

Lemma ht_keys_nodup T s bks : ht_inv T s bks → NoDup (kv <$> concat bks).
Proof.
  intros Hinv.
  assert (Hh : ∀ i x, in_bucket bks i x → hash (kv x) = Z.of_nat i) by apply (hi_hash _ _ _ Hinv).
  assert (Hs : ∀ i xs, bks !! i = Some xs → NoDup (kv <$> xs)).
  { intros i xs Hi. pose proof (hi_sorted _ _ _ Hinv i xs Hi) as Hs. clear - Hs.
    induction Hs as [|x xs Hs IH Hx]; simpl; [apply NoDup_nil; done|].
    apply NoDup_cons. split; [|done]. intros (y & Hy & Hin)%list_elem_of_fmap.
    rewrite Forall_forall in Hx. specialize (Hx y Hin). lia. }
  clear Hinv. 
  enough (∀ k l, (∀ i x, in_bucket l i x → hash (kv x) = Z.of_nat (k + i)) →
    (∀ i xs, l !! i = Some xs → NoDup (kv <$> xs)) → NoDup (kv <$> concat l)) as Hgen
    by by apply (Hgen O).
  clear Hh Hs. intros k l. revert k. induction l as [|xs l IH]; intros k Hh Hs; simpl; [by apply NoDup_nil|].
  rewrite fmap_app. apply NoDup_app. split_and!; [by apply (Hs O)| |].
  - intros v (x & -> & Hx)%list_elem_of_fmap (y & Hxy & Hy)%list_elem_of_fmap.
    apply concat_elem in Hy as (i & Hy).
    assert (H1 : hash (kv x) = Z.of_nat (k + 0)) by (apply Hh; by exists xs).
    assert (H2 : hash (kv y) = Z.of_nat (k + S i)).
    { apply Hh. destruct Hy as (ys & ? & ?). by exists ys. }
    rewrite Hxy in H1. lia.
  - apply (IH (S k)).
    + intros i x (ys & ? & ?). rewrite Nat.add_succ_comm. apply Hh. by exists ys.
    + intros i ys Hi. by apply (Hs (S i)).
Qed.

Lemma ht_map_lookup T s bks k x :
  ht_inv T s bks → ht_map bks !! k = Some x ↔ (∃ i, in_bucket bks i x) ∧ kv x = k.
Proof.
  intros Hinv. pose proof (ht_keys_nodup _ _ _ Hinv) as Hnd. unfold ht_map.
  rewrite <-elem_of_list_to_map.
  - rewrite list_elem_of_fmap, <-concat_elem. split.
    + intros (y & ? & Hy). by simplify_eq.
    + intros [Hx <-]. by exists x.
  - rewrite <-list_fmap_compose. by erewrite list_fmap_ext.
Qed.
Lemma ht_map_size T s bks : ht_inv T s bks → Z.of_nat (size (ht_map bks)) = NumberOfElements T.
Proof.
  intros Hinv. rewrite (hi_count _ _ _ Hinv). f_equal. unfold ht_map.
  pose proof (ht_keys_nodup _ _ _ Hinv) as Hnd.
  rewrite map_size_list_to_map, length_fmap; [done|].
  rewrite <-list_fmap_compose. by erewrite list_fmap_ext.
Qed.

(** Two tables with the same elements are the same map. *)
Lemma ht_map_ext T s bks m :
  ht_inv T s bks → (∀ k x, m !! k = Some x ↔ (∃ i, in_bucket bks i x) ∧ kv x = k) → ht_map bks = m.
Proof.
  intros Hinv Hm. apply map_eq. intros k. apply option_eq. intros x.
  by rewrite (ht_map_lookup _ _ _ _ _ Hinv), Hm.
Qed.
Lemma in_bucket_insert bks i xs j x :
  is_Some (bks !! i) →
  in_bucket (<[i := xs]> bks) j x ↔ (j = i ∧ x ∈ xs) ∨ (j ≠ i ∧ in_bucket bks j x).
Proof.
  intros [ys Hi]. unfold in_bucket. destruct (decide (j = i)) as [->|Hne].
  - rewrite list_lookup_insert_eq by (by eapply lookup_lt_Some). naive_solver.
  - rewrite list_lookup_insert_ne by done. naive_solver.
Qed.
Lemma length_concat_insert bks i xs ys :
  bks !! i = Some xs →
  (length (concat (<[i := ys]> bks)) + length xs = length (concat bks) + length ys)%nat.
Proof.
  revert i. induction bks as [|zs bks IH]; intros [|i] Hi; simpl in *; simplify_eq.
  - rewrite !length_app. lia.
  - rewrite !length_app. specialize (IH i Hi). lia.
Qed.
Lemma length_bucket_le bks i xs : bks !! i = Some xs → (length xs <= length (concat bks))%nat.
Proof. intros Hi. pose proof (length_concat_insert bks i xs [] Hi). simpl in *. lia. Qed.

(** ** The search in a bucket *)
Definition search_cmp (kbs : list Z) : Z → HASH_ELEM_SEARCH_CTX → Z * HASH_ELEM_SEARCH_CTX :=
  λ x _, let r := rmem_result (kb x) kbs in (r, mkCtx x r).

Lemma _HashTableSearchElem_run T s x p kbs ctx :
  x ≠ NULL → 0 < KeySize T < 2 ^ 32 → key_at T (get_bytes s) (x + OffsetToKey T) (kb x) →
  key_at T (get_bytes s) p kbs →
  _HashTableSearchElem T x p ctx s = Ret (search_cmp kbs x ctx, s).
Proof.
  intros Hx Hks (K1 & K2 & K3 & K4) (Q1 & Q2 & Q3 & Q4).
  unfold _HashTableSearchElem, _HashTableObtainKeyAddress.
  massert ltac:(by apply negb_true_iff, Z.eqb_neq). massert ltac:(by apply negb_true_iff, Z.eqb_neq).
  rewrite bind_assoc. massert ltac:(by apply negb_true_iff, Z.eqb_neq).
  erewrite bind_Ret by done. rewrite <-K4.
  erewrite bind_Ret; [|apply (cl_rmemcmp_run s _ p (kb x) kbs); try done; [|lia|lia]]; [done|].
  intros Hnil. rewrite Hnil in K4. simpl in K4. lia.
Qed.

Lemma search_list_cases kbs xs ctx :
  Forall byte_ok kbs → (∀ x, x ∈ xs → Forall byte_ok (kb x) ∧ length (kb x) = length kbs) →
  (∃ l1 x l2, xs = l1 ++ x :: l2 ∧ kv x = le_value kbs
     ∧ search_list (search_cmp kbs) true xs ctx = (x, mkCtx x 0))
  ∨ (∃ l1 x l2 c, xs = l1 ++ x :: l2 ∧ (∀ y, y ∈ l1 → kv y < le_value kbs) ∧ le_value kbs < kv x
     ∧ 0 < c ∧ search_list (search_cmp kbs) true xs ctx = (NULL, mkCtx x c))
  ∨ ((∀ y, y ∈ xs → kv y < le_value kbs) ∧
     ∃ c, c ≤ 0 ∧ search_list (search_cmp kbs) true xs ctx =
       (NULL, match xs with [] => ctx | _ => mkCtx (pred_of NULL xs) c end)).
Proof.
  intros Hk. revert ctx. induction xs as [|x xs IH]; intros ctx Hxs.
  { right. right. split; [by intros y ?%not_elem_of_nil|]. by exists 0. }
  destruct (Hxs x ltac:(by left)) as [Hx1 Hx2].
  pose proof (rmem_result_sgn (kb x) kbs Hx1 Hk Hx2) as Hsgn. fold (kv x) in Hsgn.
  cbn [search_list search_cmp]. set (r := rmem_result (kb x) kbs) in *. cbv zeta.
  destruct (Z.lt_trichotomy (kv x) (le_value kbs)) as [Hlt|[Heq|Hgt]].
  - assert (r < 0) by lia.
    rewrite (proj2 (Z.eqb_neq r 0)), (proj2 (Z.ltb_ge 0 r)) by lia. cbn [andb].
    destruct (IH (mkCtx x r)) as [(l1 & y & l2 & -> & Hy & Hs)|
      [(l1 & y & l2 & c & -> & Hl1 & Hy & Hc & Hs)|(Hall & c & Hc & Hs)]].
    + intros y Hy. apply Hxs. by right.
    + left. exists (x :: l1), y, l2. by rewrite Hs.
    + right. left. exists (x :: l1), y, l2, c. split_and!; [done| |done|done|by rewrite Hs].
      intros z [->|Hz]%elem_of_cons; [done|by apply Hl1].
    + right. right. split.
      { intros z [->|Hz]%elem_of_cons; [done|by apply Hall]. }
      rewrite Hs. destruct xs as [|y xs]; [exists r|exists c]; (split; [lia|]); [done|].
      by rewrite !pred_of_cons.
  - assert (Hr0 : r = 0) by lia. rewrite Hr0.
    left. by exists [], x, xs.
  - assert (0 < r) by lia.
    rewrite (proj2 (Z.eqb_neq r 0)), (proj2 (Z.ltb_lt 0 r)) by lia. cbn [andb].
    right. left. exists [], x, xs, r. split_and!; [done| |lia|done|done].
    by intros y ?%not_elem_of_nil.
Qed.

Lemma _HashTableSearchKeyInBucket_run T s bks i xs p kbs (B := bucket T (Z.of_nat i)) :
  ht_inv T s bks → bks !! i = Some xs → key_at T (get_bytes s) p kbs → (length xs < fuel)%nat →
  (∃ l1 x l2, xs = l1 ++ x :: l2 ∧ kv x = le_value kbs
     ∧ _HashTableSearchKeyInBucket DEBUG fuel T B p s = Ret ((true, x), s))
  ∨ (∃ l1 l2, xs = l1 ++ l2 ∧ (∀ y, y ∈ l1 → kv y < le_value kbs)
     ∧ (∀ y, y ∈ l2 → le_value kbs < kv y)
     ∧ _HashTableSearchKeyInBucket DEBUG fuel T B p s = Ret ((false, pred_of B l1), s)).
Proof.
  intros Hinv Hi Hp Hf. pose proof (hi_null _ _ _ Hinv i xs Hi) as Hnull.
  pose proof (hi_ring _ _ _ Hinv i xs Hi) as Hd. fold B in Hnull, Hd.
  apply not_elem_of_cons in Hnull as [HB Hnull].
  assert (Hkey : ∀ x, x ∈ xs → key_at T (get_bytes s) (x + OffsetToKey T) (kb x)).
  { intros x Hx. apply (hi_key _ _ _ Hinv i). by exists xs. }
  pose proof Hp as (Q1 & Q2 & Q3 & Q4).
  assert (Hlist : ListSearchForElement DEBUG fuel B p true (Some (_HashTableSearchElem T))
    (mkCtx B 0) s = Ret (search_list (search_cmp kbs) true xs (mkCtx B 0), s)).
  { apply ListSearchForElement_run; try done. intros x c Hx.
    apply _HashTableSearchElem_run; [congruence|apply (hi_keysize _ _ _ Hinv)|by apply Hkey|done]. }
  unfold _HashTableSearchKeyInBucket.
  massert ltac:(by apply negb_true_iff, Z.eqb_neq). massert ltac:(by apply negb_true_iff, Z.eqb_neq).
  mrun Hlist.
  destruct (search_list_cases kbs xs (mkCtx B 0) Q3) as [(l1 & x & l2 & -> & Hx & Hs)|
      [(l1 & x & l2 & c & -> & Hl1 & Hx & Hc & Hs)|(Hall & c & Hc & Hs)]].
  - intros x Hx. destruct (Hkey x Hx) as (_ & _ & ? & ?). split; [done|lia].
  - left. exists l1, x, l2. split_and!; [done|done|]. rewrite Hs. cbn [PlaceholderEntry Result].
    rewrite (proj2 (Z.eqb_neq x NULL)) by set_solver. cbn [negb].
    rewrite bind_assoc. massert ltac:(apply Z.eqb_refl). by massert ltac:(done).
  - right. exists l1, (x :: l2). split_and!; [done|done| |].
    + intros y [->|Hy]%elem_of_cons; [done|].
      pose proof (hi_sorted _ _ _ Hinv i _ Hi) as Hst.
      apply StronglySorted_app_iff in Hst as (_ & Hst & _).
      apply StronglySorted_inv in Hst as [_ Hst]. rewrite Forall_forall in Hst.
      specialize (Hst y Hy). simpl in Hst. lia.
    + rewrite Hs. cbn [PlaceholderEntry Result]. rewrite Z.eqb_refl. cbn [negb].
      erewrite bind_Ret by done. rewrite (proj2 (Z.ltb_lt 0 c)) by lia.
      erewrite bind_Ret; [done|]. apply read_Blink_ok.
      exact (dlist_blink_succ _ _ l1 (x :: l2) Hd).
  - right. exists xs, []. rewrite app_nil_r. split_and!; [done|done|by intros y ?%not_elem_of_nil|].
    rewrite Hs. destruct xs as [|x xs]; [done|].
    cbn [PlaceholderEntry Result]. rewrite Z.eqb_refl. cbn [negb].
    erewrite bind_Ret by done. rewrite (proj2 (Z.ltb_ge 0 c)) by lia.
    erewrite bind_Ret by done. by rewrite !pred_of_cons.
Qed.

(** ** Editing one bucket *)
(** An element that may be added: its node exists, it is in no ring, its key can
    be read. *)
Record ht_fresh T s bks (e : Z) : Prop := {
  hf_null : e ≠ NULL;
  hf_node : is_Some (get_nodes s !! e);
  hf_key : key_at T (get_bytes s) (e + OffsetToKey T) (kb e);
  hf_out i xs : bks !! i = Some xs → e ∉ bucket T (Z.of_nat i) :: xs
}.

Lemma ht_inv_edit T s bks i xs xs' n' c :
  ht_inv T s bks → bks !! i = Some xs →
  dlist n' (bucket T (Z.of_nat i)) xs' →
  nodes_frame (bucket T (Z.of_nat i) :: xs ++ xs') (get_nodes s) n' →
  (∀ x, x ∈ xs' → x ∈ xs ∨ (ht_fresh T s bks x ∧ hash (kv x) = Z.of_nat i)) →
  StronglySorted (λ a b, kv a < kv b) xs' →
  c + Z.of_nat (length xs) = NumberOfElements T + Z.of_nat (length xs') →
  Z.of_nat (length (concat (<[i := xs']> bks))) < 2 ^ 32 →
  ht_inv (with_count c T) (set_nodes n' s) (<[i := xs']> bks).
Proof.
  intros Hinv Hi Hd Hfr Hsub Hsort Hc Hbd. pose proof Hinv as [I1 I2 I3 I4 I5 I6 I7 I8 I9 I10].
  assert (Hil : (i < length bks)%nat) by by eapply lookup_lt_Some.
  assert (Hown : ∀ j ys p, j ≠ i → bks !! j = Some ys → p ∈ bucket T (Z.of_nat j) :: ys →
    p ∉ bucket T (Z.of_nat i) :: xs ++ xs').
  { intros j ys p Hne Hj Hp Hin.
    assert (Hx : p ∈ bucket T (Z.of_nat i) :: xs ∨ p ∈ xs').
    { rewrite elem_of_cons, elem_of_app in Hin. rewrite elem_of_cons. tauto. }
    destruct Hx as [Hx|Hx].
    - by destruct (I5 _ _ _ _ _ Hj Hi Hp Hx).
    - destruct (Hsub p Hx) as [Hx'|[Hfresh _]].
      + destruct (I5 j i ys xs p Hj Hi Hp); [by right|done].
      + by apply (hf_out _ _ _ _ Hfresh j ys Hj). }
  change (bucket (with_count c T)) with (bucket T).
  assert (Hlk : ∀ j ys, <[i := xs']> bks !! j = Some ys →
    (j = i ∧ ys = xs') ∨ (j ≠ i ∧ bks !! j = Some ys)).
  { intros j ys Hj. destruct (decide (j = i)) as [->|].
    - rewrite list_lookup_insert_eq in Hj by done. left. by simplify_eq.
    - rewrite list_lookup_insert_ne in Hj by done. by right. }
  assert (Hring' : ∀ p, p ∈ bucket T (Z.of_nat i) :: xs' → p ∈ bucket T (Z.of_nat i) :: xs ++ xs').
  { intros p. rewrite !elem_of_cons, elem_of_app. tauto. }
  split; cbn [MaxKeys KeySize OffsetToKey HashFunc TableData NumberOfElements with_count];
    rewrite ?get_set_nodes, ?bytes_set_nodes.
  - by rewrite length_insert.
  - done.
  - done.
  - intros j ys Hj. destruct (Hlk j ys Hj) as [[-> ->]|[Hne Hj']]; [done|].
    apply (dlist_frame _ _ _ _ _ Hfr); [by apply I4|]. intros q Hq. by eapply Hown.
  - intros j k ys zs p Hj Hk Hpj Hpk.
    destruct (Hlk j ys Hj) as [[-> ->]|[Hnj Hj']], (Hlk k zs Hk) as [[-> ->]|[Hnk Hk']]; [done|..].
    + exfalso. by apply (Hown k zs p Hnk Hk' Hpk), Hring'.
    + exfalso. by apply (Hown j ys p Hnj Hj' Hpj), Hring'.
    + by eapply (I5 j k).
  - intros j ys Hj. destruct (Hlk j ys Hj) as [[-> ->]|[Hne Hj']]; [|by apply I6].
    pose proof (I6 i xs Hi) as Hn. apply not_elem_of_cons in Hn as [Hn1 Hn2].
    apply not_elem_of_cons. split; [done|]. intros Hin.
    destruct (Hsub _ Hin) as [?|[Hfresh _]]; [done|]. by apply (hf_null _ _ _ _ Hfresh).
  - intros j x Hx. apply in_bucket_insert in Hx as [[-> Hx]|[Hne Hx]]; [|by apply (I7 j)|by eexists].
    destruct (Hsub x Hx) as [?|[Hfresh _]]; [apply (I7 i); by exists xs|apply (hf_key _ _ _ _ Hfresh)].
  - intros j x Hx. apply in_bucket_insert in Hx as [[-> Hx]|[Hne Hx]]; [|by apply I8|by eexists].
    destruct (Hsub x Hx) as [?|[_ Hh]]; [apply I8; by exists xs|done].
  - intros j ys Hj. destruct (Hlk j ys Hj) as [[-> ->]|[Hne Hj']]; [done|by apply (I9 j)].
  - pose proof (length_concat_insert bks i xs xs' Hi). unfold u32. rewrite Z.mod_small; lia.
Qed.

(** ** The operations *)
Lemma hash_bucket T s bks p kbs :
  ht_inv T s bks → key_at T (get_bytes s) p kbs →
  ∃ i xs, HashFunc T p (KeySize T) (MaxKeys T) s = Ret (Z.of_nat i, s)
    ∧ (Z.of_nat i < MaxKeys T) ∧ hash (le_value kbs) = Z.of_nat i ∧ bks !! i = Some xs.
Proof.
  intros Hinv Hp. destruct (hi_hashf _ _ _ Hinv s p kbs Hp) as [Hr Hb].
  destruct (lookup_lt_is_Some_2 bks (Z.to_nat (hash (le_value kbs)))) as [xs Hxs].
  { pose proof (hi_size _ _ _ Hinv). lia. }
  exists (Z.to_nat (hash (le_value kbs))), xs. rewrite Z2Nat.id by lia.
  split_and!; [done|lia|done|done].
Qed.

(** The element with a key, if any, is where the search looks for it. *)
Lemma ht_map_found T s bks i l1 x l2 k :
  ht_inv T s bks → bks !! i = Some (l1 ++ x :: l2) → kv x = k → ht_map bks !! k = Some x.
Proof.
  intros Hinv Hi Hk. apply (ht_map_lookup _ _ _ _ _ Hinv). split; [|done].
  exists i, (l1 ++ x :: l2). split; [done|]. apply elem_of_app. right. by left.
Qed.
Lemma ht_map_absent T s bks i l1 l2 k :
  ht_inv T s bks → bks !! i = Some (l1 ++ l2) → hash k = Z.of_nat i →
  (∀ y, y ∈ l1 → kv y < k) → (∀ y, y ∈ l2 → k < kv y) → ht_map bks !! k = None.
Proof.
  intros Hinv Hi Hh H1 H2. destruct (ht_map bks !! k) as [x|] eqn:E; [|done]. exfalso.
  apply (ht_map_lookup _ _ _ _ _ Hinv) in E as [(j & xs & Hj & Hx) Hkx].
  assert (hash (kv x) = Z.of_nat j) by (apply (hi_hash _ _ _ Hinv); by exists xs).
  assert (j = i) as -> by (subst k; lia). simplify_eq.
  apply elem_of_app in Hx as [Hx|Hx]; [specialize (H1 x Hx)|specialize (H2 x Hx)]; lia.
Qed.

Lemma HashTableLookup_run T s bks p kbs :
  ht_inv T s bks → key_at T (get_bytes s) p kbs → (length (concat bks) < fuel)%nat →
  HashTableLookup DEBUG fuel T p s = Ret (default NULL (ht_map bks !! le_value kbs), s).
Proof.
  intros Hinv Hp Hf. unfold HashTableLookup. pose proof Hp as (Hp0 & _).
  massert ltac:(by apply negb_true_iff, Z.eqb_neq).
  destruct (hash_bucket T s bks p kbs Hinv Hp) as (i & xs & Hh & Hi & Hhi & Hxs). mrun Hh.
  pose proof (length_bucket_le _ _ _ Hxs) as Hlb.
  destruct (_HashTableSearchKeyInBucket_run T s bks i xs p kbs Hinv Hxs Hp ltac:(lia))
    as [(l1 & x & l2 & -> & Hx & Hr)|(l1 & l2 & -> & H1 & H2 & Hr)]; mrun Hr.
  - by rewrite (ht_map_found _ _ _ _ _ _ _ _ Hinv Hxs Hx).
  - by rewrite (ht_map_absent _ _ _ _ _ _ _ Hinv Hxs Hhi H1 H2).
Qed.

(** Replacing the elements of one bucket, seen from the map. *)
Lemma ht_map_edit T s bks i xs xs' T' s' m :
  ht_inv T s bks → bks !! i = Some xs → ht_inv T' s' (<[i := xs']> bks) →
  (∀ k x, m !! k = Some x ↔
     (x ∈ xs' ∧ kv x = k) ∨ ((x ∉ xs) ∧ ht_map bks !! k = Some x)) →
  ht_map (<[i := xs']> bks) = m.
Proof.
  intros Hinv Hi Hinv' Hm. apply (ht_map_ext _ _ _ _ Hinv'). intros k x. rewrite Hm.
  rewrite (ht_map_lookup _ _ _ _ _ Hinv). split.
  - intros [[Hx Hk]|[Hx [(j & Hj) Hk]]].
    + split; [|done]. exists i. apply in_bucket_insert; [by eexists|]. by left.
    + split; [|done]. exists j. apply in_bucket_insert; [by eexists|]. right. split; [|done].
      intros ->. destruct Hj as (zs & ? & ?). by simplify_eq.
  - intros [(j & Hj) Hk]. apply in_bucket_insert in Hj as [[-> Hx]|[Hne Hj]]; [by left| |by eexists].
    right. split; [|split; [by exists j|done]]. intros Hx.
    assert (hash (kv x) = Z.of_nat i) by (apply (hi_hash _ _ _ Hinv); by exists xs).
    assert (hash (kv x) = Z.of_nat j) by by apply (hi_hash _ _ _ Hinv). lia.
Qed.

Lemma hash_of_fresh T s bks e i :
  ht_fresh T s bks e → hash (le_value (kb e)) = Z.of_nat i → hash (kv e) = Z.of_nat i.
Proof. done. Qed.

Lemma HashTableInsert_run T s bks e :
  ht_inv T s bks → ht_fresh T s bks e →
  (length (concat bks) < fuel)%nat → Z.of_nat (length (concat bks)) + 1 < 2 ^ 32 →
  ∃ T' n' bks', HashTableInsert DEBUG fuel T e s
      = Ret ((default NULL (ht_map bks !! kv e), T'), set_nodes n' s)
    ∧ ht_inv T' (set_nodes n' s) bks' ∧ ht_map bks' = <[kv e := e]> (ht_map bks)
    ∧ (length (concat bks') <= length (concat bks) + 1)%nat
    ∧ (∃ c, T' = with_count c T)
    ∧ (∀ q, is_Some (n' !! q) ↔ is_Some (get_nodes s !! q))
    ∧ (∀ i x, in_bucket bks' i x → in_bucket bks i x ∨ x = e).
Proof.
  intros Hinv Hfresh Hf Hbd. pose proof Hfresh as [He0 Hen Hek Hout].
  unfold HashTableInsert, _HashTableObtainKeyAddress.
  massert ltac:(by apply negb_true_iff, Z.eqb_neq).
  rewrite bind_assoc. massert ltac:(by apply negb_true_iff, Z.eqb_neq). erewrite bind_Ret by done.
  destruct (hash_bucket T s bks _ (kb e) Hinv Hek) as (i & xs & Hh & Hi & Hhi & Hxs). mrun Hh.
  massert ltac:(by apply Z.ltb_lt). pose proof (length_bucket_le _ _ _ Hxs) as Hlb.
  pose proof (hi_ring _ _ _ Hinv i xs Hxs) as Hd. pose proof (hi_sorted _ _ _ Hinv i xs Hxs) as Hs.
  pose proof (Hout i xs Hxs) as Hei. set (B := bucket T (Z.of_nat i)) in *.
  destruct (_HashTableSearchKeyInBucket_run T s bks i xs _ (kb e) Hinv Hxs Hek ltac:(lia))
    as [(l1 & x & l2 & -> & Hx & Hr)|(l1 & l2 & -> & H1 & H2 & Hr)]; mrun Hr.
  - (* replace the element with the same key *)
    change (le_value (kb e)) with (kv e) in *.
    replace (l1 ++ x :: l2) with ((l1 ++ [x]) ++ l2) in Hd, Hei by by rewrite <-app_assoc.
    destruct (InsertHeadList_run DEBUG s B (l1 ++ [x]) e l2 Hd Hei Hen) as (n1 & Hr1 & Hd1 & Hf1).
    rewrite pred_of_snoc in Hr1. mrun Hr1.
    rewrite <-app_assoc in Hd1, Hf1. simpl in Hd1, Hf1.
    assert (Hd1' : dlist (get_nodes (set_nodes n1 s)) B (l1 ++ x :: e :: l2)) by by rewrite get_set_nodes.
    destruct (RemoveEntryList_run DEBUG (set_nodes n1 s) B l1 x (e :: l2) Hd1')
      as (n2 & Hr2 & Hd2 & Hf2). mrun Hr2.
    rewrite set_set_nodes, get_set_nodes in *.
    assert (Hst : StronglySorted (λ a b, kv a < kv b) (l1 ++ e :: l2)).
    { apply StronglySorted_app_iff in Hs as (S1 & S2 & S3). apply StronglySorted_app_iff.
      apply StronglySorted_inv in S2 as [S2 S4]. rewrite Forall_forall in S4. split_and!; [done| |].
      - constructor; [done|]. apply Forall_forall. intros y Hy. rewrite <-Hx. by apply S4.
      - intros a b Ha [->|Hb]%elem_of_cons; [rewrite <-Hx; apply S3; [done|by left]|].
        apply S3; [done|by right]. }
    assert (Hlen := length_concat_insert bks i _ (l1 ++ e :: l2) Hxs).
    rewrite !length_app in Hlen. simpl in Hlen.
    assert (Hinv' : ht_inv (with_count (NumberOfElements T) T) (set_nodes n2 s)
      (<[i := l1 ++ e :: l2]> bks)).
    { eapply ht_inv_edit; [done|exact Hxs|exact Hd2| | |done|rewrite !length_app; simpl; lia|lia].
      - etransitivity; [apply (nodes_frame_weaken _ _ _ _ Hf1)|apply (nodes_frame_weaken _ _ _ _ Hf2)];
          intros q; fold B; rewrite !elem_of_cons, !elem_of_app, !elem_of_cons; tauto.
      - intros y. rewrite elem_of_app, elem_of_cons. intros [Hy|[->|Hy]].
        + left. rewrite elem_of_app. by left.
        + right. done.
        + left. rewrite elem_of_app, elem_of_cons. tauto. }
    assert (HT : with_count (NumberOfElements T) T = T).
    { destruct T. unfold with_count. cbn. f_equal. pose proof (hi_count _ _ _ Hinv) as Hc. simpl in Hc.
      unfold u32. rewrite Z.mod_small; lia. }
    rewrite (ht_map_found _ _ _ _ _ _ _ _ Hinv Hxs Hx).
    exists (with_count (NumberOfElements T) T), n2, (<[i := l1 ++ e :: l2]> bks).
    split_and!; [by rewrite HT|done| |lia|by eexists| |].
    + eapply ht_map_edit; [exact Hinv|exact Hxs|exact Hinv'|]. intros k y.
      rewrite lookup_insert_Some, (ht_map_lookup _ _ _ _ _ Hinv), !elem_of_app, !elem_of_cons.
      assert (Hmem : ∀ z, z ∈ l1 ∨ z ∈ l2 → (∃ j, in_bucket bks j z) ∧ kv z ≠ kv e).
      { intros z Hz. split.
        - exists i, (l1 ++ x :: l2). split; [done|]. rewrite elem_of_app, elem_of_cons. tauto.
        - apply StronglySorted_app_iff in Hst as (_ & S2 & S3). destruct Hz as [Hz|Hz].
          + specialize (S3 z e Hz ltac:(by left)). lia.
          + apply StronglySorted_inv in S2 as [_ S4]. rewrite Forall_forall in S4.
            specialize (S4 z Hz). lia. }
      assert (Hsame : ∀ z, (∃ j, in_bucket bks j z) → kv z = kv e → z = x).
      { intros z Hz Hkz. assert (ht_map bks !! kv e = Some z) by (apply (ht_map_lookup _ _ _ _ _ Hinv); done).
        assert (ht_map bks !! kv e = Some x) by by eapply ht_map_found. congruence. }
      split.
      * intros [[<- <-]|[Hne [Hy Hk]]]; [left; split; [right; by left|done]|].
        destruct (decide (y ∈ l1 ∨ y ∈ l2)); [left; tauto|]. right.
        split; [|done]. intros [?|[->|?]]; [tauto|congruence|tauto].
      * intros [[[Hy|[->|Hy]] Hk]|[Hny [Hy Hk]]]; [right|by left|right|right].
        -- destruct (Hmem y) as [? ?]; [by left|]. split; [congruence|done].
        -- destruct (Hmem y) as [? ?]; [by right|]. split; [congruence|done].
        -- split; [|done]. intros Hke. apply Hny. right. left. apply Hsame; [done|congruence].
    + intros q. rewrite (proj2 Hf2), (proj2 Hf1). done.
    + intros j y Hy. apply in_bucket_insert in Hy as [[-> Hy]|[Hne Hy]]; [|by left|by eexists].
      rewrite elem_of_app, elem_of_cons in Hy. destruct Hy as [Hy|[->|Hy]]; [left|by right|left];
        exists (l1 ++ x :: l2); (split; [done|]); rewrite elem_of_app, elem_of_cons; tauto.
  - (* a new key *)
    change (le_value (kb e)) with (kv e) in *.
    destruct (InsertHeadList_run DEBUG s B l1 e l2 Hd Hei Hen) as (n1 & Hr1 & Hd1 & Hf1). mrun Hr1.
    assert (Hst : StronglySorted (λ a b, kv a < kv b) (l1 ++ e :: l2)).
    { apply StronglySorted_app_iff in Hs as (S1 & S2 & S3). apply StronglySorted_app_iff.
      split_and!; [done| |].
      - constructor; [done|]. apply Forall_forall. intros y Hy. by apply H2.
      - intros a b Ha [->|Hb]%elem_of_cons; [by apply H1|by apply S3]. }
    assert (Hlen := length_concat_insert bks i _ (l1 ++ e :: l2) Hxs).
    rewrite !length_app in Hlen. simpl in Hlen.
    assert (Hinv' : ht_inv (with_count (NumberOfElements T + 1) T) (set_nodes n1 s)
      (<[i := l1 ++ e :: l2]> bks)).
    { eapply ht_inv_edit; [done|exact Hxs|exact Hd1| | |done|rewrite !length_app; simpl; lia|lia].
      - apply (nodes_frame_weaken _ _ _ _ Hf1); intros q; fold B.
        rewrite !elem_of_cons, !elem_of_app, !elem_of_cons. tauto.
      - intros y. rewrite !elem_of_app, elem_of_cons. intros [Hy|[->|Hy]]; [tauto|by right|tauto]. }
    rewrite (ht_map_absent _ _ _ _ _ _ _ Hinv Hxs Hhi H1 H2).
    exists (with_count (NumberOfElements T + 1) T), n1, (<[i := l1 ++ e :: l2]> bks).
    split_and!; [done|done| |lia|by eexists|apply Hf1|].
    + eapply ht_map_edit; [exact Hinv|exact Hxs|exact Hinv'|]. intros k y.
      rewrite lookup_insert_Some, (ht_map_lookup _ _ _ _ _ Hinv), !elem_of_app, !elem_of_cons.
      assert (Hmem : ∀ z, z ∈ l1 ∨ z ∈ l2 → (∃ j, in_bucket bks j z) ∧ kv z ≠ kv e).
      { intros z Hz. split.
        - exists i, (l1 ++ l2). split; [done|]. by rewrite elem_of_app.
        - destruct Hz as [Hz|Hz]; [specialize (H1 z Hz)|specialize (H2 z Hz)]; lia. }
      assert (Hsame : ∀ z, (∃ j, in_bucket bks j z) → kv z ≠ kv e).
      { intros z Hz Hkz. assert (ht_map bks !! kv e = Some z) by (apply (ht_map_lookup _ _ _ _ _ Hinv); done).
        rewrite (ht_map_absent _ _ _ _ _ _ _ Hinv Hxs Hhi H1 H2) in *. done. }
      split.
      * intros [[<- <-]|[Hne [Hy Hk]]]; [left; split; [right; by left|done]|].
        destruct (decide (y ∈ l1 ∨ y ∈ l2)); [left; tauto|]. right. tauto.
      * intros [[[Hy|[->|Hy]] Hk]|[Hny [Hy Hk]]]; [right|by left|right|right].
        -- destruct (Hmem y) as [? ?]; [by left|]. split; [congruence|done].
        -- destruct (Hmem y) as [? ?]; [by right|]. split; [congruence|done].
        -- split; [|done]. pose proof (Hsame y Hy). congruence.
    + intros j y Hy. apply in_bucket_insert in Hy as [[-> Hy]|[Hne Hy]]; [|by left|by eexists].
      rewrite elem_of_app, elem_of_cons in Hy. destruct Hy as [Hy|[->|Hy]]; [left|by right|left];
        exists (l1 ++ l2); (split; [done|]); rewrite elem_of_app; tauto.
Qed.

Lemma HashTableRemoveEntry_run T s bks i l1 x l2 :
  ht_inv T s bks → bks !! i = Some (l1 ++ x :: l2) → Z.of_nat (length (concat bks)) < 2 ^ 32 →
  ∃ T' n', HashTableRemoveEntry DEBUG T x s = Ret (T', set_nodes n' s)
    ∧ ht_inv T' (set_nodes n' s) (<[i := l1 ++ l2]> bks)
    ∧ ht_map (<[i := l1 ++ l2]> bks) = delete (kv x) (ht_map bks)
    ∧ (length (concat (<[i := l1 ++ l2]> bks)) + 1 = length (concat bks))%nat
    ∧ (∃ c, T' = with_count c T)
    ∧ n' !! x = get_nodes s !! x
    ∧ (∀ q, is_Some (n' !! q) ↔ is_Some (get_nodes s !! q)).
Proof.
  intros Hinv Hxs Hbd. unfold HashTableRemoveEntry.
  pose proof (hi_ring _ _ _ Hinv i _ Hxs) as Hd. pose proof (hi_sorted _ _ _ Hinv i _ Hxs) as Hs.
  pose proof (hi_null _ _ _ Hinv i _ Hxs) as Hnull. set (B := bucket T (Z.of_nat i)) in *.
  assert (x ≠ NULL) by set_solver. massert ltac:(by apply negb_true_iff, Z.eqb_neq).
  destruct (RemoveEntryList_run DEBUG s B l1 x l2 Hd) as (n' & Hr & Hd' & Hf'). mrun Hr.
  assert (Hst : StronglySorted (λ a b, kv a < kv b) (l1 ++ l2)).
  { apply StronglySorted_app_iff in Hs as (S1 & S2 & S3). apply StronglySorted_app_iff.
    apply StronglySorted_inv in S2 as [S2 _]. split_and!; [done|done|].
    intros a b Ha Hb. apply S3; [done|by right]. }
  assert (Hlen := length_concat_insert bks i _ (l1 ++ l2) Hxs).
  rewrite !length_app in Hlen. simpl in Hlen.
  assert (Hinv' : ht_inv (with_count (NumberOfElements T - 1) T) (set_nodes n' s)
    (<[i := l1 ++ l2]> bks)).
  { eapply ht_inv_edit; [done|exact Hxs|exact Hd'| | |done|rewrite !length_app; simpl; lia|lia].
    - apply (nodes_frame_weaken _ _ _ _ Hf'); intros q; fold B.
      rewrite !elem_of_cons, !elem_of_app. tauto.
    - intros y Hy. left. rewrite elem_of_app in *. rewrite elem_of_cons. tauto. }
  assert (Hnx : x ∉ l1 ++ l2).
  { intros Hin. apply StronglySorted_app_iff in Hs as (_ & S2 & S3).
    apply StronglySorted_inv in S2 as [_ S4]. rewrite Forall_forall in S4.
    apply elem_of_app in Hin as [Hin|Hin]; [specialize (S3 x x Hin ltac:(by left))|specialize (S4 x Hin)];
      lia. }
  exists (with_count (NumberOfElements T - 1) T), n'.
  split_and!; [done|done| |lia|by eexists| |apply Hf'].
  - eapply ht_map_edit; [exact Hinv|exact Hxs|exact Hinv'|]. intros k y.
    rewrite lookup_delete_Some, (ht_map_lookup _ _ _ _ _ Hinv).
    assert (Hux : ∀ z, (∃ j, in_bucket bks j z) → kv z = kv x → z = x).
    { intros z Hz Hkz. assert (ht_map bks !! kv x = Some z) by (by apply (ht_map_lookup _ _ _ _ _ Hinv)).
      assert (ht_map bks !! kv x = Some x) by (by eapply ht_map_found). congruence. }
    assert (Hmem : ∀ z, z ∈ l1 ++ l2 → ∃ j, in_bucket bks j z).
    { intros z Hz. exists i, (l1 ++ x :: l2). split; [done|].
      rewrite elem_of_app in *. rewrite elem_of_cons. tauto. }
    split.
    + intros [Hne [Hy Hk]]. destruct (decide (y ∈ l1 ++ l2)); [by left|]. right. split; [|done].
      rewrite elem_of_app, elem_of_cons. rewrite elem_of_app in *. intros [?|[->|?]]; [tauto|done|tauto].
    + intros [[Hy Hk]|[Hny [Hy Hk]]].
      * split_and!; [|by apply Hmem|done]. intros Hkx. apply Hnx.
        rewrite <-(Hux y); [done|by apply Hmem|congruence].
      * split_and!; [|done|done]. intros Hkx. apply Hny. rewrite (Hux y Hy) by congruence.
        apply elem_of_app. right. by left.
  - apply Hf'. pose proof (dlist_hd_notin _ _ _ Hd) as [Hhd _].
    rewrite elem_of_cons. intros [->|?]; [|done]. apply Hhd, elem_of_app. right. by left.
Qed.

Lemma HashTableRemove_run T s bks p kbs :
  ht_inv T s bks → key_at T (get_bytes s) p kbs →
  (length (concat bks) < fuel)%nat → Z.of_nat (length (concat bks)) < 2 ^ 32 →
  ∃ T' n' bks', HashTableRemove DEBUG fuel T p s
      = Ret ((default NULL (ht_map bks !! le_value kbs), T'), set_nodes n' s)
    ∧ ht_inv T' (set_nodes n' s) bks' ∧ ht_map bks' = delete (le_value kbs) (ht_map bks)
    ∧ (length (concat bks') <= length (concat bks))%nat
    ∧ (∃ c, T' = with_count c T)
    ∧ (∀ q, is_Some (n' !! q) ↔ is_Some (get_nodes s !! q))
    ∧ (∀ i x, in_bucket bks' i x → in_bucket bks i x).
Proof.
  intros Hinv Hp Hf Hbd. unfold HashTableRemove. pose proof Hp as (Hp0 & _).
  massert ltac:(by apply negb_true_iff, Z.eqb_neq).
  mrun (HashTableLookup_run T s bks p kbs Hinv Hp Hf).
  destruct (ht_map bks !! le_value kbs) as [x|] eqn:Ex; simpl.
  - apply (ht_map_lookup _ _ _ _ _ Hinv) in Ex as [(i & xs & Hxs & Hx) Hk].
    apply list_elem_of_split in Hx as (l1 & l2 & ->).
    pose proof (hi_null _ _ _ Hinv i _ Hxs) as Hnull.
    rewrite (proj2 (Z.eqb_neq x NULL)) by set_solver. cbn [negb].
    destruct (HashTableRemoveEntry_run T s bks i l1 x l2 Hinv Hxs Hbd)
      as (T' & n' & Hr & Hinv' & Hm & Hl & Hc & _ & Hn). mrun Hr.
    exists T', n', (<[i := l1 ++ l2]> bks). rewrite <-Hk.
    split_and!; [done|done|done|lia|done|done|].
    intros j y Hy. apply in_bucket_insert in Hy as [[-> Hy]|[_ Hy]]; [|done|by eexists].
    exists (l1 ++ x :: l2). split; [done|]. rewrite elem_of_app in *. rewrite elem_of_cons. tauto.
  - exists T, (get_nodes s), bks. rewrite set_get_nodes. rewrite delete_id by done.
    split_and!; [done|done|done|done| |done|done].
    exists (NumberOfElements T). destruct T. unfold with_count. cbn. f_equal.
    pose proof (hi_count _ _ _ Hinv) as Hc. simpl in Hc. unfold u32. rewrite Z.mod_small; lia.
Qed.
End Model.

(** * Specification: a table is a finite map from keys to entries *)
Inductive ht_op := HInsert (e : Z) | HRemove (Key : Z) | HLookup (Key : Z) | HSize.

Section Refinement.
Context {St : Type} `{HasNodes St} `{HasBytes St} `{!NodesBytes St}.
Variables (DEBUG : bool) (fuel : nat) (kb : Z → list Z) (hash : Z → Z).
Implicit Types (T : HASH_TABLE St) (s : St).

(** The abstract operation; [kb] also gives the bytes at a key address. *)
Definition ht_spec_op (o : ht_op) (m : gmap Z Z) : option (Z * gmap Z Z) :=
  match o with
  | HInsert e =>
      if decide (m !! kv kb e = Some e) then None
      else Some (default NULL (m !! kv kb e), <[kv kb e := e]> m)
  | HRemove p => Some (default NULL (m !! kv kb p), delete (kv kb p) m)
  | HLookup p => Some (default NULL (m !! kv kb p), m)
  | HSize => Some (Z.of_nat (size m), m)
  end.
Definition ht_run_op (o : ht_op) T : M St (Z * HASH_TABLE St) :=
  match o with
  | HInsert e => HashTableInsert DEBUG fuel T e
  | HRemove p => HashTableRemove DEBUG fuel T p
  | HLookup p => r ← HashTableLookup DEBUG fuel T p; mret (r, T)
  | HSize => mret (HashTableSize T, T)
  end.
Fixpoint ht_spec_ops (os : list ht_op) (m : gmap Z Z) : option (list Z * gmap Z Z) :=
  match os with
  | [] => Some ([], m)
  | o :: os' =>
      '(r, m') ← ht_spec_op o m; '(rs, m'') ← ht_spec_ops os' m'; Some (r :: rs, m'')
  end.
Fixpoint ht_run_ops (os : list ht_op) T : M St (list Z * HASH_TABLE St) :=
  match os with
  | [] => mret ([], T)
  | o :: os' =>
      '(r, T') ← ht_run_op o T; '(rs, T'') ← ht_run_ops os' T'; mret (r :: rs, T'')
  end.

(** What the caller owes: keys that can be read; elements that have a node, a
    readable key, and are not themselves bucket heads. *)
Definition op_ok T s (o : ht_op) : Prop :=
  match o with
  | HInsert e => e ≠ NULL ∧ is_Some (get_nodes s !! e)
      ∧ key_at T (get_bytes s) (e + OffsetToKey T) (kb e)
      ∧ ∀ i, 0 ≤ i < MaxKeys T → e ≠ bucket T i
  | HRemove p | HLookup p => key_at T (get_bytes s) p (kb p)
  | HSize => True
  end.
Definition inserts (os : list ht_op) : nat :=
  length (filter (λ o, match o with HInsert _ => true | _ => false end = true) os).

Lemma op_ok_step T s c n' o :
  op_ok T s o → (∀ q, is_Some (n' !! q) ↔ is_Some (get_nodes s !! q)) →
  op_ok (with_count c T) (set_nodes n' s) o.
Proof.
  intros Ho Hn. destruct o; simpl in *; unfold key_at in *; simpl in *;
    rewrite ?get_set_nodes, ?bytes_set_nodes, ?Hn; done.
Qed.

Lemma ht_run_op_refines T s bks o r m' :
  ht_inv kb hash T s bks → ht_spec_op o (ht_map kb bks) = Some (r, m') → op_ok T s o →
  (length (concat bks) < fuel)%nat → Z.of_nat (length (concat bks)) + 1 < 2 ^ 32 →
  ∃ T' n' bks', ht_run_op o T s = Ret ((r, T'), set_nodes n' s)
    ∧ ht_inv kb hash T' (set_nodes n' s) bks' ∧ ht_map kb bks' = m'
    ∧ (length (concat bks') <= length (concat bks) + inserts [o])%nat
    ∧ (∃ c, T' = with_count c T)
    ∧ (∀ q, is_Some (n' !! q) ↔ is_Some (get_nodes s !! q)).
Proof.
  intros Hinv Hsp Ho Hf Hbd.
  assert (HT : ∃ c, T = with_count c T).
  { exists (NumberOfElements T). destruct T. unfold with_count. cbn. f_equal.
    pose proof (hi_count _ _ _ _ _ Hinv) as Hc. simpl in Hc. unfold u32. rewrite Z.mod_small; lia. }
  destruct o as [e|p|p|]; simpl in *.
  - destruct (decide _) as [|Hne]; [done|]. simplify_eq. destruct Ho as (O1 & O2 & O3 & O4).
    assert (Hfresh : ht_fresh kb T s bks e).
    { split; [done..|]. intros i xs Hi. rewrite elem_of_cons. intros [He|He].
      - apply (O4 (Z.of_nat i)); [|done]. apply lookup_lt_Some in Hi.
        pose proof (hi_size _ _ _ _ _ Hinv). lia.
      - apply Hne. apply (ht_map_lookup _ _ _ _ _ _ _ Hinv). split; [by exists i, xs|done]. }
    destruct (HashTableInsert_run DEBUG fuel kb hash T s bks e Hinv Hfresh Hf Hbd)
      as (T' & n' & bks' & H1 & H2 & H3 & H4 & H5 & H6 & _).
    exists T', n', bks'. split_and!; try done.
  - simplify_eq.
    destruct (HashTableRemove_run DEBUG fuel kb hash T s bks p (kb p) Hinv Ho Hf ltac:(lia))
      as (T' & n' & bks' & H1 & H2 & H3 & H4 & H5 & H6 & _).
    exists T', n', bks'. split_and!; try done. lia.
  - simplify_eq. exists T, (get_nodes s), bks. rewrite set_get_nodes. split_and!; try done; [|lia].
    by mrun (HashTableLookup_run DEBUG fuel kb hash T s bks p (kb p) Hinv Ho Hf).
  - simplify_eq. exists T, (get_nodes s), bks. rewrite set_get_nodes. split_and!; try done; [|lia].
    rewrite (ht_map_size _ _ _ _ _ Hinv). done.
Qed.

(** C1: any sequence of insertions, removals, lookups and size queries on a hash table
    gives the results of the same sequence on a finite map from key values to entries:
    an insertion replaces and returns the entry with an equal key. *)
Theorem hash_table_refines_map T s bks os rs m' :
  ht_inv kb hash T s bks → ht_spec_ops os (ht_map kb bks) = Some (rs, m') →
  Forall (op_ok T s) os →
  (length (concat bks) + inserts os < fuel)%nat →
  Z.of_nat (length (concat bks) + inserts os) + 1 < 2 ^ 32 →
  ∃ T' s' bks', ht_run_ops os T s = Ret ((rs, T'), s')
    ∧ ht_inv kb hash T' s' bks' ∧ ht_map kb bks' = m'.
Proof.
  revert T s bks rs. induction os as [|o os IH]; intros T s bks rs Hinv Hsp Hok Hf Hbd.
  { simpl in *. simplify_eq. by exists T, s, bks. }
  cbn [ht_spec_ops ht_run_ops] in *.
  destruct (ht_spec_op o (ht_map kb bks)) as [[r m1]|] eqn:E1; simpl in Hsp; [|done].
  destruct (ht_spec_ops os m1) as [[rs1 m2]|] eqn:E2; simpl in Hsp; [|done]. simplify_eq.
  apply Forall_cons in Hok as [Ho Hos].
  assert (Hins : inserts (o :: os) = (inserts [o] + inserts os)%nat).
  { unfold inserts. rewrite !filter_cons, filter_nil. destruct (decide _); simpl; lia. }
  destruct (ht_run_op_refines T s bks o r m1 Hinv E1 Ho) as (T1 & n1 & bks1 & H1 & H2 & H3 & H4 & (c & ->) & H6);
    [lia|lia|].
  mrun H1. subst m1.
  destruct (IH (with_count c T) (set_nodes n1 s) bks1 rs1 H2 E2) as (T2 & s2 & bks2 & H7 & H8 & H9);
    [|lia|lia|].
  { apply (Forall_impl _ _ _ Hos). intros x Hx. by apply op_ok_step. }
  mrun H7. by exists T2, s2, bks2.
Qed.
End Refinement.

(** * Initialisation *)
Section Init.
Context {St : Type} `{HasNodes St} `{HasBytes St} `{!NodesBytes St}.
Variables (kb : Z → list Z).
Implicit Types (T : HASH_TABLE St) (s : St).

Definition hash_generic (MaxKeys_ v : Z) : Z := v mod MaxKeys_.
Definition hash_universal (MaxKeys_ v : Z) : Z :=
  ((HASH_UNIVERSAL_A * (v mod HASH_UNIVERSAL_P) + HASH_UNIVERSAL_B) mod HASH_UNIVERSAL_P)
    mod MaxKeys_.

Lemma read_keyValue_run T s p bs :
  key_at T (get_bytes s) p bs → KeySize T ≤ 8 → read_keyValue p (KeySize T) s = Ret (le_value bs, s).
Proof.
  intros (H1 & H2 & H3 & H4) Hk. unfold read_keyValue.
  massert ltac:(by apply negb_true_iff, Z.eqb_neq).
  rewrite (proj2 (Z.ltb_ge 8 (KeySize T))) by done. rewrite <-H4, Nat2Z.id.
  by mrun (read_bytes_ok _ _ _ H2).
Qed.
Lemma hash_generic_ok T :
  HashFunc T = HashFuncGenericIncremental → 0 < MaxKeys T → KeySize T ≤ 8 →
  hash_ok (hash_generic (MaxKeys T)) T.
Proof.
  intros Hf Hm Hk s p bs Hp. rewrite Hf. unfold HashFuncGenericIncremental, hash_generic.
  mrun (read_keyValue_run T s p bs Hp Hk). rewrite (proj2 (Z.eqb_neq (MaxKeys T) 0)) by lia.
  split; [done|]. apply Z.mod_pos_bound. lia.
Qed.
Lemma hash_universal_ok T :
  HashFunc T = HashFuncUniversal → 0 < MaxKeys T → KeySize T ≤ 8 →
  hash_ok (hash_universal (MaxKeys T)) T.
Proof.
  intros Hf Hm Hk s p bs Hp. rewrite Hf. unfold HashFuncUniversal, hash_universal.
  mrun (read_keyValue_run T s p bs Hp Hk). cbv zeta.
  pose proof (Z.mod_pos_bound (le_value bs) HASH_UNIVERSAL_P ltac:(done)) as Hb.
  massert ltac:(apply Z.ltb_lt; change (MAX_QWORD / HASH_UNIVERSAL_A - HASH_UNIVERSAL_B)
    with 10844646721757466; unfold HASH_UNIVERSAL_P in *; lia).
  rewrite (proj2 (Z.eqb_neq (MaxKeys T) 0)) by lia. split.
  - unfold u64. rewrite (Z.mod_small _ (2 ^ 64)); [done|].
    unfold HASH_UNIVERSAL_A, HASH_UNIVERSAL_B, HASH_UNIVERSAL_P in *. lia.
  - apply Z.mod_pos_bound. lia.
Qed.

(** The loop that initialises the buckets. *)
Lemma init_buckets T (n : nat) s :
  (∀ i, (i < n)%nat → is_Some (get_nodes s !! bucket T (Z.of_nat i))) →
  ∃ n', for_each n 0 (λ i, InitializeListHead (bucket T i)) s = Ret (tt, set_nodes n' s)
    ∧ (∀ i, (i < n)%nat → dlist n' (bucket T (Z.of_nat i)) []).
Proof.
  intros Hn.
  enough (∀ m k s, (k + m = n)%nat →
    (∀ i, (i < n)%nat → is_Some (get_nodes s !! bucket T (Z.of_nat i))) →
    (∀ i, (i < k)%nat → dlist (get_nodes s) (bucket T (Z.of_nat i)) []) →
    ∃ n', for_each m (Z.of_nat k) (λ i, InitializeListHead (bucket T i)) s = Ret (tt, set_nodes n' s)
      ∧ (∀ i, (i < n)%nat → dlist n' (bucket T (Z.of_nat i)) [])) as Hgen.
  { apply (Hgen n O s); [done|done|]. intros i. lia. }
  clear Hn s. intros m. induction m as [|m IH]; intros k s Hk Hn Hd; cbn [for_each].
  { exists (get_nodes s). rewrite set_get_nodes. split; [done|]. intros i Hi. apply Hd. lia. }
  destruct (InitializeListHead_run s (bucket T (Z.of_nat k))) as (n1 & Hr & Hd1 & Hf1); [apply Hn; lia|].
  mrun Hr. destruct (IH (S k) (set_nodes n1 s)) as (n2 & Hr2 & Hd2); [lia| | |].
  - intros i Hi. rewrite get_set_nodes. by apply Hf1, Hn.
  - intros i Hi. rewrite get_set_nodes. destruct (decide (i = k)) as [->|Hne]; [done|].
    apply (dlist_frame _ _ _ _ _ Hf1); [apply Hd; lia|]. intros q.
    rewrite !list_elem_of_singleton. unfold bucket, sizeof_HASH_ENTRY. lia.
  - exists n2. replace (Z.of_nat k + 1) with (Z.of_nat (S k)) by lia.
    by rewrite Hr2, set_set_nodes.
Qed.

Lemma concat_replicate_nil {A} n : concat (replicate n ([] : list A)) = [].
Proof. induction n; simpl; done. Qed.

Lemma HashTableInit_run T s data f off hash :
  data ≠ NULL → 0 < data → 0 < MaxKeys T → 0 < KeySize T < 2 ^ 32 → NumberOfElements T = 0 →
  let T' := mkHT (MaxKeys T) (KeySize T) (NumberOfElements T) off f data in
  hash_ok hash T' → (∀ i, 0 ≤ i < MaxKeys T → is_Some (get_nodes s !! (data + 16 * i))) →
  ∃ n', HashTableInit T data f off s = Ret (T', set_nodes n' s)
    ∧ ht_inv kb hash T' (set_nodes n' s) (replicate (Z.to_nat (MaxKeys T)) []).
Proof.
  intros Hd Hpos Hm Hk Hz T' Hh Hn. unfold HashTableInit.
  massert ltac:(by apply negb_true_iff, Z.eqb_neq). cbv zeta. fold T'.
  destruct (init_buckets T' (Z.to_nat (MaxKeys T)) s) as (n' & Hr & Hd').
  { intros i Hi. apply Hn. lia. }
  change (MaxKeys T') with (MaxKeys T). exists n'. split; [by mrun Hr|].
  assert (Hlk : ∀ i xs, replicate (Z.to_nat (MaxKeys T)) [] !! i = Some xs →
    xs = ([] : list Z) ∧ (i < Z.to_nat (MaxKeys T))%nat) by (by intros i xs ?%lookup_replicate).
  assert (Hemp : ∀ i x, ¬ in_bucket (replicate (Z.to_nat (MaxKeys T)) []) i x).
  { intros i x (xs & Hxs & Hx). destruct (Hlk i xs Hxs) as [-> _]. by apply not_elem_of_nil in Hx. }
  split; cbn [MaxKeys KeySize NumberOfElements OffsetToKey T']; rewrite ?get_set_nodes.
  - rewrite length_replicate. lia.
  - done.
  - done.
  - intros i xs Hi. destruct (Hlk i xs Hi) as [-> ?]. by apply Hd'.
  - intros i j xs ys p Hi Hj. destruct (Hlk i xs Hi) as [-> ?]. destruct (Hlk j ys Hj) as [-> ?].
    rewrite !list_elem_of_singleton. unfold bucket, sizeof_HASH_ENTRY. lia.
  - intros i xs Hi. destruct (Hlk i xs Hi) as [-> ?]. rewrite list_elem_of_singleton.
    unfold bucket, sizeof_HASH_ENTRY, NULL. simpl. lia.
  - intros i x Hx. by destruct (Hemp i x).
  - intros i x Hx. by destruct (Hemp i x).
  - intros i xs Hi. destruct (Hlk i xs Hi) as [-> ?]. constructor.
  - by rewrite concat_replicate_nil.
Qed.

(** A table made by HashTablePreinit and HashTableInit over a buffer of the size asked
    for, with either of the provided hash functions and keys of one to eight bytes, is
    a well-formed empty map: both functions map every key into a bucket. *)
Theorem HashTable_create s n ks data off (universal : bool) :
  0 < n < MAX_DWORD / 16 → 0 < ks ≤ 8 → 0 < data →
  (∀ i, 0 ≤ i < n → is_Some (get_nodes s !! (data + 16 * i))) →
  ∃ T0 T s' bks, HashTablePreinit n ks s = Ret ((T0, 16 * n), s)
    ∧ HashTableInit T0 data
        (if universal then HashFuncUniversal else HashFuncGenericIncremental) off s = Ret (T, s')
    ∧ ht_inv kb (if universal then hash_universal n else hash_generic n) T s' bks
    ∧ ht_map kb bks = ∅ ∧ HashTableSize T = 0.
Proof.
  intros Hn Hk Hd Hnodes. unfold HashTablePreinit. change (MAX_DWORD / 16) with 268435455 in Hn.
  set (T0 := mkHT n ks 0 0 (λ _ _ _, fault) NULL : HASH_TABLE St).
  set (f := if universal then HashFuncUniversal else HashFuncGenericIncremental).
  set (T := mkHT n ks 0 off f data : HASH_TABLE St).
  destruct (HashTableInit_run T0 s data f off
    (if universal then hash_universal n else hash_generic n)) as (n' & Hr & Hinv);
    try done; try (simpl; unfold NULL; lia).
  { fold T. destruct universal; [apply (hash_universal_ok T)|apply (hash_generic_ok T)];
      try done; simpl; lia. }
  exists T0, T, (set_nodes n' s), (replicate (Z.to_nat n) []). split_and!.
  - massert ltac:(apply andb_true_iff; rewrite !Z.ltb_lt; change (MAX_DWORD / sizeof_HASH_ENTRY)
      with 268435455; lia).
    unfold mret, M_ret, sizeof_HASH_ENTRY. do 3 f_equal. unfold u32. rewrite Z.mod_small; lia.
  - exact Hr.
  - exact Hinv.
  - unfold ht_map. by rewrite concat_replicate_nil.
  - done.
Qed.
End Init.

(** * Iteration and clearing *)
Section Iteration.
Context {St : Type} `{HasNodes St} `{HasBytes St} `{!NodesBytes St}.
Variables (DEBUG : bool) (fuel : nat) (kb : Z → list Z) (hash : Z → Z).
Implicit Types (T : HASH_TABLE St) (s : St) (bks : list (list Z)).

(** The iterator stands before the elements [rest]; with all buckets passed its
    list iterator is meaningless. *)
Definition ht_pos T bks (it : HASH_ITERATOR) (rest : list Z) : Prop :=
  ∃ k, KeyIndex it = Z.of_nat k ∧
    ((k = length bks ∧ rest = []) ∨
     ∃ l1 l2, bks !! k = Some (l1 ++ l2)
       ∧ iterator_at (CurrentKeyIterator it) (bucket T (Z.of_nat k)) l2
       ∧ rest = l2 ++ concat (drop (S k) bks)).

(** The node one past the last bucket, which the iterator reads. *)
Definition past_end T s : Prop := is_Some (get_nodes s !! bucket T (MaxKeys T)).

(** The step of the iterator's loop. *)
Definition next_body T : Z * HASH_ITERATOR → M St (Z * HASH_ITERATOR + Z * HASH_ITERATOR) :=
  λ '(pResult, it),
    if negb (KeyIndex it <? MaxKeys T) then mret (inr (pResult, it)) else
    '(e, cur) ← ListIteratorNext (CurrentKeyIterator it);
    if negb (e =? NULL) then mret (inr (e, mkHI (KeyIndex it) cur)) else
    let k := u32 (KeyIndex it + 1) in
    cur' ← ListIteratorInit (bucket T k);
    mret (inl (e, mkHI k cur')).

Lemma ListIteratorInit_node s p :
  p ≠ NULL → is_Some (get_nodes s !! p) → ∃ li, ListIteratorInit p s = Ret (li, s).
Proof.
  intros Hp [[f b] Hf]. exists (mkLI p f). unfold ListIteratorInit.
  massert ltac:(by apply negb_true_iff, Z.eqb_neq).
  erewrite bind_Ret; [done|]. apply read_Flink_ok. unfold flink. by rewrite Hf.
Qed.

Lemma bucket_not_null T s bks (k : nat) xs :
  ht_inv kb hash T s bks → bks !! k = Some xs → bucket T (Z.of_nat k) ≠ NULL.
Proof.
  intros Hinv Hk. pose proof (hi_null _ _ _ _ _ Hinv k xs Hk) as Hn.
  apply not_elem_of_cons in Hn as [Hn _]. congruence.
Qed.

Lemma next_loop T s bks f p0 it rest :
  ht_inv kb hash T s bks → MaxKeys T < 2 ^ 32 - 1 → bucket T (MaxKeys T) ≠ NULL → past_end T s →
  ht_pos T bks it rest → Z.of_nat (length bks) - KeyIndex it < Z.of_nat f → (0 < f)%nat →
  (rest = [] → p0 = NULL) →
  ∃ it', loop f (next_body T) (p0, it) s = Ret ((match rest with [] => NULL | x :: _ => x end, it'), s)
    ∧ ht_pos T bks it' (tail rest).
Proof.
  intros Hinv Hm Hpn Hpast. revert p0 it. 
  induction f as [|f IH]; intros p0 it (k & Hk & Hpos) Hf Hf0 Hp0; [lia|].
  pose proof (hi_size _ _ _ _ _ Hinv) as Hsz.
  destruct Hpos as [[-> ->]|(l1 & l2 & Hb & Hat & ->)].
  { exists it. split; [|exists (length bks); split; [done|by left]]. rewrite (Hp0 eq_refl).
    apply loop_break. unfold next_body. rewrite Hk, (proj2 (Z.ltb_ge _ _)) by lia. done. }
  assert (Hkl : (k < length bks)%nat) by (by eapply lookup_lt_Some).
  destruct (ListIteratorNext_run s _ l1 l2 _ (hi_ring _ _ _ _ _ Hinv k _ Hb) Hat) as (cur & Hn & Hat').
  destruct l2 as [|x l2].
  - assert (Hu : u32 (Z.of_nat k + 1) = Z.of_nat (S k)) by (unfold u32; rewrite Z.mod_small; lia).
    assert (Hnext : ∃ cur', ListIteratorInit (bucket T (Z.of_nat (S k))) s = Ret (cur', s)
      ∧ ht_pos T bks (mkHI (Z.of_nat (S k)) cur') (concat (drop (S k) bks))).
    { destruct (decide (S k = length bks)) as [Hend|Hend].
      - destruct (ListIteratorInit_node s (bucket T (Z.of_nat (S k)))) as [li Hli];
          [by rewrite Hend, Hsz|by rewrite Hend, Hsz|].
        exists li. split; [done|]. exists (S k). split; [done|]. left. split; [done|].
        by rewrite drop_ge by lia.
      - destruct (lookup_lt_is_Some_2 bks (S k)) as [ys Hys]; [lia|].
        destruct (ListIteratorInit_run s _ ys (hi_ring _ _ _ _ _ Hinv (S k) ys Hys)) as (li & Hli & Hla).
        { apply not_eq_sym. by eapply bucket_not_null. }
        exists li. split; [done|]. exists (S k). split; [done|]. right. exists [], ys.
        split_and!; [done|done|]. by rewrite (drop_S bks ys (S k)) by done. }
    destruct Hnext as (cur' & Hi & Hpos'). simpl in *.
    destruct (IH NULL (mkHI (Z.of_nat (S k)) cur') Hpos') as (it' & Hr & Hpos''); [simpl; lia|lia|done|].
    exists it'. split; [|done]. erewrite loop_continue; [exact Hr|].
    unfold next_body. rewrite Hk, (proj2 (Z.ltb_lt _ _)) by lia. cbn [negb]. mrun Hn. simpl.
    rewrite Hu. by mrun Hi.
  - exists (mkHI (KeyIndex it) cur). split.
    + apply loop_break. unfold next_body. rewrite Hk, (proj2 (Z.ltb_lt _ _)) by lia. cbn [negb].
      mrun Hn. pose proof (hi_null _ _ _ _ _ Hinv k _ Hb) as Hnull.
      rewrite (proj2 (Z.eqb_neq x NULL)) by set_solver. done.
    + exists k. split; [done|]. right. exists (l1 ++ [x]), l2. simpl.
      split_and!; [by rewrite <-app_assoc|done|done].
Qed.

Lemma HashTableIteratorNext_run T s bks it rest :
  ht_inv kb hash T s bks → MaxKeys T < 2 ^ 32 - 1 → bucket T (MaxKeys T) ≠ NULL → past_end T s →
  ht_pos T bks it rest → (length bks < fuel)%nat →
  ∃ it', HashTableIteratorNext fuel T it s
      = Ret ((match rest with [] => NULL | x :: _ => x end, it'), s)
    ∧ ht_pos T bks it' (tail rest).
Proof.
  intros Hinv Hm Hpn Hpast Hpos Hf. pose proof Hpos as (k & Hk & _).
  by apply (next_loop T s bks fuel NULL it rest); [..|lia|lia|].
Qed.
Lemma HashTableIteratorInit_run T s bks :
  ht_inv kb hash T s bks → bks ≠ [] →
  ∃ it, HashTableIteratorInit T s = Ret (it, s) ∧ ht_pos T bks it (concat bks).
Proof.
  intros Hinv Hne. destruct bks as [|xs bks]; [done|].
  destruct (ListIteratorInit_run s _ xs (hi_ring _ _ _ _ _ Hinv O xs eq_refl)) as (li & Hli & Hla).
  { apply not_eq_sym. by apply (bucket_not_null T s (xs :: bks) O xs). }
  exists (mkHI 0 li). split; [unfold HashTableIteratorInit; by mrun Hli|].
  exists O. split; [done|]. right. by exists [], xs.
Qed.

(** ** HashTableClear *)
(** The free function gets every element in turn. It may do anything to the
    element's own node, but no other node and no other element's key; [log] is
    what it records. *)
Variables (log : St → list Z) (FreeFunction : Z → M St unit).
Record free_ok T (xs : list Z) : Prop := {
  fo_log n s : log (set_nodes n s) = log s;
  fo_free s x : x ∈ xs → ∃ s', FreeFunction x s = Ret (tt, s') ∧ log s' = log s ++ [x]
    ∧ (∀ q, q ≠ x → get_nodes s' !! q = get_nodes s !! q)
    ∧ (∀ y, y ≠ x → y ∈ xs → key_at T (get_bytes s) (y + OffsetToKey T) (kb y) →
         key_at T (get_bytes s') (y + OffsetToKey T) (kb y))
}.

(** Freeing an element that is in no ring keeps the table. *)
Lemma ht_inv_freed T s s' bks x :
  ht_inv kb hash T s bks →
  (∀ i xs, bks !! i = Some xs → x ∉ bucket T (Z.of_nat i) :: xs) →
  (∀ q, q ≠ x → get_nodes s' !! q = get_nodes s !! q) →
  (∀ y, y ≠ x → y ∈ concat bks → key_at T (get_bytes s) (y + OffsetToKey T) (kb y) →
     key_at T (get_bytes s') (y + OffsetToKey T) (kb y)) →
  ht_inv kb hash T s' bks.
Proof.
  intros [I1 I2 I3 I4 I5 I6 I7 I8 I9 I10] Hout Hn Hk. split; try done.
  - intros i xs Hi. pose proof (I4 i xs Hi) as [Hnd Hc]. split; [done|].
    apply (chain_frame (get_nodes s)); [done| |]; intros q Hq; unfold flink, blink;
      rewrite Hn; try done; intros ->; by apply (Hout i xs Hi).
  - intros i y Hy. apply Hk; [|by apply concat_elem; exists i|by eapply I7].
    intros ->. destruct Hy as (xs & Hi & Hy). apply (Hout i xs Hi). by right.
Qed.

Definition clear_body : HASH_TABLE St * HASH_ITERATOR → M St (HASH_TABLE St * HASH_ITERATOR + HASH_TABLE St) :=
  λ '(HashTable, it),
    '(pEntry, it') ← HashTableIteratorNext fuel HashTable it;
    if pEntry =? NULL then mret (inr HashTable) else
    HashTable' ← HashTableRemoveEntry DEBUG HashTable pEntry;
    FreeFunction pEntry;;
    mret (inl (HashTable', it')).

Lemma concat_take_nil {A} (l : list (list A)) i k x :
  concat (take i l) = [] → (k < i)%nat → l !! k = Some x → x = [].
Proof.
  intros Hc Hk Hl. assert (Hl' : take i l !! k = Some x) by (by rewrite lookup_take_lt).
  clear Hl Hk. revert k Hl'. induction (take i l) as [|y ys IH]; intros [|k] Hl; simpl in *; try done.
  - simplify_eq. by apply app_eq_nil in Hc as [? _].
  - apply app_eq_nil in Hc as [_ Hc]. by eapply IH.
Qed.

(** Removing the element the iterator has just returned leaves the iterator where
    it was: nothing precedes it in its bucket. *)
Lemma ht_pos_removed T bks it x rest i l1 l2 c :
  NoDup (concat bks) → concat bks = x :: rest → ht_pos T bks it rest → bks !! i = Some (l1 ++ x :: l2) →
  ht_pos (with_count c T) (<[i := l1 ++ l2]> bks) it rest ∧ concat (<[i := l1 ++ l2]> bks) = rest.
Proof.
  intros Hnd Hc Hpos Hi.
  assert (Hsplit : bks = take i bks ++ (l1 ++ x :: l2) :: drop (S i) bks)
    by (symmetry; by apply take_drop_middle).
  assert (Hpre : concat (take i bks) = [] ∧ l1 = []).
  { rewrite Hsplit, concat_app in Hc. simpl in Hc. rewrite <-app_assoc in Hc.
    destruct (concat (take i bks)) as [|y ys] eqn:Ey; simpl in Hc.
    - split; [done|]. destruct l1 as [|y l1]; [done|]. simpl in Hc. exfalso.
      rewrite Hsplit, concat_app, Ey in Hnd. simpl in Hnd, Hc. simplify_eq.
      apply NoDup_cons in Hnd as [Hnd _]. apply Hnd. rewrite !elem_of_app. left. right. by left.
    - exfalso. simplify_eq. rewrite Hsplit, concat_app, Ey in Hnd. simpl in Hnd.
      apply NoDup_cons in Hnd as [Hnd _]. apply Hnd. rewrite !elem_of_app.
      right. left. right. by left. }
  destruct Hpre as [Hpre ->]. simpl in *.
  assert (Hrest : rest = l2 ++ concat (drop (S i) bks)).
  { rewrite Hsplit, concat_app, Hpre in Hc. simpl in Hc. by simplify_eq. }
  assert (Hi' : (i < length bks)%nat) by (by eapply lookup_lt_Some).
  assert (Hc' : concat (<[i := l2]> bks) = rest).
  { rewrite Hrest, Hsplit, insert_app_r_alt by (rewrite length_take; lia).
    rewrite length_take, Nat.min_l, Nat.sub_diag by lia. simpl.
    rewrite concat_app, Hpre. simpl. f_equal. f_equal.
    rewrite drop_app_ge by (rewrite length_take; lia). 
    rewrite length_take, Nat.min_l by lia. replace (S i - i)%nat with 1%nat by lia. done. }
  split; [|done]. destruct Hpos as (k & Hk & [[Hkl Hre]|(m1 & m2 & Hb & Hat & Hre)]).
  { exists k. split; [done|]. left. by rewrite length_insert. }
  exists k. split; [done|]. right. destruct (decide (k = i)) as [->|Hne].
  - rewrite Hb in Hi. injection Hi as Hi. rewrite list_lookup_insert_eq by done.
    destruct m1 as [|z m1]; simpl in Hi.
    + exfalso. subst m2. rewrite Hrest in Hre. apply (f_equal length) in Hre.
      rewrite !length_app in Hre. simpl in Hre. lia.
    + injection Hi as -> <-. exists m1, m2. split_and!; [done|done|].
      by rewrite drop_insert_lt by lia.
  - rewrite list_lookup_insert_ne by done. exists m1, m2. split_and!; [done|done|].
    destruct (decide (k < i)%nat) as [Hlt|Hge]; [|by rewrite drop_insert_lt by lia].
    exfalso. assert (Hmm : m1 ++ m2 = []).
    { apply concat_take_nil with (k := k) (i := i) (l := bks); done. }
    apply app_eq_nil in Hmm as [-> ->]. simpl in Hre.
    assert (Hk0 : concat (take (S k) bks) = []).
    { rewrite <-(take_drop (S k) (take i bks)), concat_app, take_take, Nat.min_l in Hpre by lia.
      by apply app_eq_nil in Hpre as [? _]. }
    rewrite <-(take_drop (S k) bks), concat_app, Hk0 in Hc. simpl in Hc. rewrite <-Hre in Hc.
    apply (f_equal length) in Hc. simpl in Hc. lia.
Qed.


Lemma clear_loop f T s bks it :
  ht_inv kb hash T s bks → MaxKeys T < 2 ^ 32 - 1 → bucket T (MaxKeys T) ≠ NULL → past_end T s →
  bucket T (MaxKeys T) ∉ concat bks → ht_pos T bks it (concat bks) →
  (length bks < fuel)%nat → (length (concat bks) < f)%nat → Z.of_nat (length (concat bks)) < 2 ^ 32 →
  free_ok T (concat bks) →
  ∃ T' s', loop f clear_body (T, it) s = Ret (T', s')
    ∧ ht_inv kb hash T' s' (replicate (length bks) []) ∧ log s' = log s ++ concat bks.
Proof.
  revert T s bks it. induction f as [|f IH];
    intros T s bks it Hinv Hm Hpn Hpast Hpout Hpos Hfu Hf Hbd Hfree; [lia|].
  destruct (HashTableIteratorNext_run T s bks it _ Hinv Hm Hpn Hpast Hpos Hfu) as (it' & Hn & Hpos').
  destruct (concat bks) as [|x rest] eqn:Hc.
  { exists T, s. rewrite app_nil_r. split_and!; [|replace (replicate _ _) with bks; [done|]|done].
    - apply loop_break. unfold clear_body. by mrun Hn.
    - apply list_eq. intros i. destruct (bks !! i) as [xs|] eqn:Hi.
      + replace xs with ([] : list Z).
        * symmetry. apply lookup_replicate_2. by eapply lookup_lt_Some.
        * symmetry. apply (concat_take_nil bks (length bks) i); [by rewrite take_ge by lia| |done].
          by eapply lookup_lt_Some.
      + symmetry. apply lookup_ge_None. rewrite length_replicate. by apply lookup_ge_None. }
  pose proof (ht_keys_nodup _ _ _ _ _ Hinv) as Hnd. apply NoDup_fmap_1 in Hnd.
  assert (Hx : ∃ i, in_bucket bks i x) by (apply concat_elem; rewrite Hc; by left).
  destruct Hx as (i & xs & Hxs & Hx). apply list_elem_of_split in Hx as (l1 & l2 & ->).
  assert (Hx0 : x ≠ NULL).
  { pose proof (hi_null _ _ _ _ _ Hinv i _ Hxs). set_solver. }
  destruct (HashTableRemoveEntry_run DEBUG kb hash T s bks i l1 x l2 Hinv Hxs ltac:(rewrite Hc; done))
    as (T1 & n1 & Hr & Hinv1 & _ & Hlen & (c & ->) & _ & Hnodes).
  destruct (ht_pos_removed T bks it' x rest i l1 l2 c Hnd Hc Hpos' Hxs) as [Hpos1 Hc1].
  rewrite <-Hc in Hfree. pose proof Hfree as [Hlog Hfr].
  destruct (Hfr (set_nodes n1 s) x ltac:(rewrite Hc; by left)) as (s2 & Hr2 & Hl2 & Hn2 & Hk2).
  assert (Hinv2 : ht_inv kb hash (with_count c T) s2 (<[i := l1 ++ l2]> bks)).
  { apply (ht_inv_freed _ (set_nodes n1 s) _ _ x Hinv1); [|done|].
    - intros j ys Hj Hin. change (bucket (with_count c T)) with (bucket T) in Hin.
      assert (Hold : ∃ zs, bks !! j = Some zs ∧ (∀ q, q ∈ ys → q ∈ zs)).
      { destruct (decide (j = i)) as [->|].
        - rewrite list_lookup_insert_eq in Hj by (by eapply lookup_lt_Some). simplify_eq.
          eexists. split; [done|]. intros q. rewrite !elem_of_app, elem_of_cons. tauto.
        - rewrite list_lookup_insert_ne in Hj by done. by exists ys. }
      destruct Hold as (zs & Hzs & Hsub).
      assert (Hji : j = i).
      { eapply (hi_disj _ _ _ _ _ Hinv j i zs _ x); [done|exact Hxs| |right; apply elem_of_app; right; by left].
        apply elem_of_cons in Hin as [->|Hin]; [by left|right; by apply Hsub]. }
      subst j. simplify_eq. rewrite list_lookup_insert_eq in Hj by (by eapply lookup_lt_Some).
      simplify_eq. pose proof (hi_ring _ _ _ _ _ Hinv i _ Hxs) as Hd.
      apply dlist_hd_notin in Hd as [Hh Hd]. apply elem_of_cons in Hin as [->|Hin].
      + apply Hh, elem_of_app. right. by left.
      + apply NoDup_app in Hd as (_ & D1 & D2). apply NoDup_cons in D2 as [D2 _].
        apply elem_of_app in Hin as [Hin|Hin]; [by apply (D1 x Hin); left|done].
    - intros y Hyx Hy. rewrite Hc1 in Hy. change (key_at (with_count c T)) with (key_at T).
      apply Hk2; [done|]. rewrite Hc. by right. }
  destruct (IH (with_count c T) s2 (<[i := l1 ++ l2]> bks) it') as (T' & s' & Hr3 & Hinv3 & Hl3); try done.
  - unfold past_end. change (bucket (with_count c T)) with (bucket T). cbn [MaxKeys with_count].
    rewrite Hn2, get_set_nodes; [by apply Hnodes|]. intros Heq. apply Hpout. rewrite Heq. by left.
  - rewrite Hc1. intros Hin. apply Hpout. by right.
  - by rewrite Hc1.
  - by rewrite length_insert.
  - rewrite Hc1. simpl in Hf. lia.
  - rewrite Hc1. simpl in Hbd. lia.
  - rewrite Hc1. split; [done|]. intros s3 y Hy.
    destruct (Hfr s3 y ltac:(rewrite Hc; by right)) as (s4 & G1 & G2 & G3 & G4). exists s4.
    split_and!; [done|done|done|]. intros z Hz1 Hz2. apply G4; [done|]. rewrite Hc. by right.
  - exists T', s'. rewrite length_insert in Hinv3. split_and!; [|done|].
    + erewrite loop_continue; [exact Hr3|]. unfold clear_body. mrun Hn.
      rewrite (proj2 (Z.eqb_neq x NULL)) by done. mrun Hr. by mrun Hr2.
    + rewrite Hl3, Hl2, Hlog, Hc1, <-app_assoc. done.
Qed.

(** HashTableClear removes every element and hands each of them exactly once to the free
    function, which may destroy the memory of the element it gets; the table is empty
    afterwards. (The memory behind the last bucket must be readable.) *)
Theorem HashTableClear_frees_all T s bks :
  ht_inv kb hash T s bks → bks ≠ [] → MaxKeys T < 2 ^ 32 - 1 →
  bucket T (MaxKeys T) ≠ NULL → past_end T s → bucket T (MaxKeys T) ∉ concat bks →
  free_ok T (concat bks) →
  (length bks < fuel)%nat → (length (concat bks) < fuel)%nat → Z.of_nat (length (concat bks)) < 2 ^ 32 →
  ∃ T' s', HashTableClear DEBUG fuel T (Some FreeFunction) s = Ret (T', s')
    ∧ ht_inv kb hash T' s' (replicate (length bks) [])
    ∧ HashTableSize T' = 0 ∧ log s' = log s ++ concat bks.
Proof.
  intros Hinv Hne Hm Hpn Hpast Hpout Hfree Hf1 Hf2 Hbd. unfold HashTableClear.
  destruct (HashTableIteratorInit_run T s bks Hinv Hne) as (it & Hi & Hpos). mrun Hi.
  destruct (clear_loop fuel T s bks it) as (T' & s' & Hr & Hinv' & Hl); try done.
  exists T', s'. split_and!; [exact Hr|done| |done].
  unfold HashTableSize. rewrite (hi_count _ _ _ _ _ Hinv'), concat_replicate_nil. done.
Qed.

(** HashTableIteratorNext reads the list head one past the last bucket when it leaves
    the last one: with a buffer of exactly the size HashTablePreinit asks for and
    nothing mapped behind it, even iterating over an empty table faults. *)
Theorem HashTableIteratorNext_reads_past_end T s bks it :
  ht_inv kb hash T s bks → bks ≠ [] → MaxKeys T < 2 ^ 32 - 1 → concat bks = [] →
  bucket T (MaxKeys T) ≠ NULL → get_nodes s !! bucket T (MaxKeys T) = None →
  (length bks < fuel)%nat → HashTableIteratorInit T s = Ret (it, s) →
  HashTableIteratorNext fuel T it s = Fault.
Proof.
  intros Hinv Hne Hm Hempty Hpn Hpast Hf Hinit.
  destruct (HashTableIteratorInit_run T s bks Hinv Hne) as (it0 & Hi & Hpos).
  rewrite Hi in Hinit. simplify_eq. rewrite Hempty in Hpos.
  pose proof (hi_size _ _ _ _ _ Hinv) as Hsz.
  assert (Hk : KeyIndex it = 0).
  { unfold HashTableIteratorInit in Hi. minv Hi. unfold mret, M_ret in Hi. by simplify_eq. }
  enough (∀ f p0 it k, KeyIndex it = Z.of_nat k → (k < length bks)%nat →
    iterator_at (CurrentKeyIterator it) (bucket T (Z.of_nat k)) [] → (length bks - k <= f)%nat →
    loop f (next_body T) (p0, it) s = Fault) as Hgen.
  { destruct Hpos as (k & Hk' & [[Hke _]|(l1 & l2 & Hb & Hat & Hl2)]).
    - destruct bks; [done|]. simpl in Hke. lia.
    - symmetry in Hl2. apply app_eq_nil in Hl2 as [-> _].
      apply (Hgen fuel NULL it k); [done|by eapply lookup_lt_Some|done|lia]. }
  clear Hpos Hk Hi it Hf. intros f. induction f as [|f IH]; intros p0 it k Hk Hkl Hat Hf; [lia|].
  destruct (lookup_lt_is_Some_2 bks k Hkl) as [xs Hxs].
  assert (xs = []) as ->.
  { apply (concat_take_nil bks (length bks) k); [by rewrite take_ge by lia|done|done]. }
  destruct (ListIteratorNext_run s _ [] [] _ (hi_ring _ _ _ _ _ Hinv k _ Hxs) Hat) as (cur & Hn & _).
  rewrite loop_S. unfold mbind at 1, M_bind at 1. unfold next_body at 1.
  rewrite Hk, (proj2 (Z.ltb_lt _ _)) by lia. cbn [negb].
  rewrite (bind_Ret _ _ _ _ _ Hn). cbn beta iota. rewrite Z.eqb_refl. cbn [negb].
  assert (Hu : u32 (Z.of_nat k + 1) = Z.of_nat (S k)) by (unfold u32; rewrite Z.mod_small; lia).
  rewrite Hu. cbv zeta. destruct (decide (S k = length bks)) as [Hend|Hend].
  - replace (bucket T (Z.of_nat (S k))) with (bucket T (MaxKeys T)) by (by rewrite <-Hsz, Hend).
    erewrite bind_Fault; [done|]. unfold ListIteratorInit.
    massert ltac:(by apply negb_true_iff, Z.eqb_neq). apply bind_Fault.
    unfold read_Flink, read_node. apply bind_Fault. munfold. by rewrite Hpast.
  - destruct (lookup_lt_is_Some_2 bks (S k)) as [ys Hys]; [lia|].
    assert (ys = []) as ->.
    { apply (concat_take_nil bks (length bks) (S k)); [by rewrite take_ge by lia|lia|done]. }
    destruct (ListIteratorInit_run s _ [] (hi_ring _ _ _ _ _ Hinv (S k) _ Hys)) as (li & Hli & Hla).
    { apply not_eq_sym. by eapply bucket_not_null. }
    rewrite (bind_Ret _ _ _ _ _ Hli). cbn beta iota.
    apply (IH NULL (mkHI (Z.of_nat (S k)) li) (S k)); [done|lia|done|lia].
Qed.
End Iteration.

(** * Concrete runs: two buckets, keys of one byte sixteen bytes behind an entry *)
Module HashTableExample.
Record state := mkState { hs_nodes : gmap Z LIST_ENTRY; hs_bytes : gmap Z Z; hs_log : list Z }.
#[export] Instance state_HasNodes : HasNodes state.
Proof.
  by refine {| get_nodes := hs_nodes; set_nodes n s := mkState n (hs_bytes s) (hs_log s) |};
    intros; destruct s.
Defined.
#[export] Instance state_HasBytes : HasBytes state.
Proof.
  by refine {| get_bytes := hs_bytes; set_bytes b s := mkState (hs_nodes s) b (hs_log s) |};
    intros; destruct s.
Defined.
#[export] Instance state_NodesBytes : NodesBytes state.
Proof. by split. Qed.

Definition kb (x : Z) : list Z :=
  if x =? 0x2000 then [4] else if x =? 0x2100 then [7] else if x =? 0x2200 then [6] else [7].
Definition T : HASH_TABLE state := mkHT 2 1 2 16 HashFuncGenericIncremental 0x1000.
Definition bks : list (list Z) := [[0x2000]; [0x2100]].
Definition bytes : gmap Z Z :=
  list_to_map [(0x2010, 4); (0x2110, 7); (0x2210, 6); (0x3000, 7)].
Definition rings : gmap Z LIST_ENTRY := list_to_map
  [(0x1000, mkLE 0x2000 0x2000); (0x2000, mkLE 0x1000 0x1000);
   (0x1010, mkLE 0x2100 0x2100); (0x2100, mkLE 0x1010 0x1010); (0x2200, mkLE 0 0)].
(** The memory behind the last bucket, at 0x1020, is mapped in [s]. *)
Definition s : state := mkState (<[0x1020 := mkLE 0 0]> rings) bytes [].

Lemma key_ok p : p ∈ [0x2010; 0x2110; 0x2210] → key_at T bytes p (kb (p - 16)).
Proof.
  rewrite !elem_of_cons. intros [->|[->|[->|?%not_elem_of_nil]]]; [..|done];
    (split_and!; [done| |repeat (apply Forall_cons; split; [by split|]); by apply Forall_nil|done]);
    (apply bytes_at_cons; split; [by vm_compute|apply bytes_at_nil]).
Qed.
Lemma inv : ht_inv kb (hash_generic 2) T s bks.
Proof.
  split; try done.
  - by apply (hash_generic_ok T).
  - intros [|[|i]] xs Hi; simpl in Hi; simplify_eq;
      (split; [|by vm_compute]; apply NoDup_cons; split; [set_solver|apply NoDup_singleton]).
  - intros [|[|i]] [|[|j]] xs ys p Hi Hj; simpl in Hi, Hj; simplify_eq; try done;
      unfold bucket, sizeof_HASH_ENTRY; rewrite !elem_of_cons; cbn [TableData T]; intros Hp Hq;
      destruct Hp as [->|[->|?%not_elem_of_nil]], Hq as [Hq|[Hq|?%not_elem_of_nil]]; try done; lia.
  - intros [|[|i]] xs Hi; simpl in Hi; simplify_eq; set_solver.
  - intros [|[|i]] x (xs & Hi & Hx); simpl in Hi; simplify_eq; apply list_elem_of_singleton in Hx as ->;
      [apply (key_ok 0x2010)|apply (key_ok 0x2110)]; set_solver.
  - intros [|[|i]] x (xs & Hi & Hx); simpl in Hi; simplify_eq;
      by apply list_elem_of_singleton in Hx as ->.
  - intros [|[|i]] xs Hi; simpl in Hi; simplify_eq; repeat constructor.
Qed.

Lemma hash_table_refines_map_witness : ∃ rs T' s',
  ht_run_ops true 9 [HInsert 0x2200; HLookup 0x3000; HRemove 0x3000; HSize] T s = Ret ((rs, T'), s')
  ∧ rs = [NULL; 0x2100; 0x2100; 2].
Proof.
  destruct (hash_table_refines_map true 9 kb (hash_generic 2) T s bks
    [HInsert 0x2200; HLookup 0x3000; HRemove 0x3000; HSize] [NULL; 0x2100; 0x2100; 2]
    (delete 7 (<[6 := 0x2200]> (ht_map kb bks)))) as (T' & s' & bks' & Hr & _).
  - apply inv.
  - vm_compute. reflexivity.
  - repeat (apply Forall_cons; split); [|..|by apply Forall_nil].
    + split_and!; [done|by eexists|apply (key_ok 0x2210); set_solver|].
      intros i Hi. unfold bucket, sizeof_HASH_ENTRY. cbn [TableData T MaxKeys] in *. lia.
    + split_and!; [done| |by apply Forall_cons; split; [split|apply Forall_nil]|done].
      apply bytes_at_cons. split; [by vm_compute|apply bytes_at_nil].
    + split_and!; [done| |by apply Forall_cons; split; [split|apply Forall_nil]|done].
      apply bytes_at_cons. split; [by vm_compute|apply bytes_at_nil].
    + done.
  - simpl. unfold inserts. simpl. lia.
  - by vm_compute.
  - by exists [NULL; 0x2100; 0x2100; 2], T', s'.
Defined.

Lemma HashTable_create_witness : ∃ T0 T1 s',
  HashTablePreinit 2 1 s = Ret ((T0, 32), s)
  ∧ HashTableInit T0 0x1000 HashFuncUniversal 16 s = Ret (T1, s').
Proof.
  destruct (HashTable_create kb s 2 1 0x1000 16 true) as (T0 & T1 & s' & b & H1 & H2 & _);
    [by split|by split|done| |by exists T0, T1, s'].
  intros i Hi. assert (i = 0 ∨ i = 1) as [-> | ->] by lia; by eexists.
Defined.

Definition free (x : Z) : M state unit :=
  modify (λ s, mkState (delete x (hs_nodes s)) (hs_bytes s) (hs_log s ++ [x])).
Lemma HashTableClear_frees_all_witness : ∃ T' s',
  HashTableClear true 9 T (Some free) s = Ret (T', s') ∧ hs_log s' = [0x2000; 0x2100].
Proof.
  destruct (HashTableClear_frees_all true 9 kb (hash_generic 2) hs_log free T s bks)
    as (T' & s' & Hr & _ & _ & Hl).
  - apply inv.
  - done.
  - done.
  - done.
  - by eexists.
  - unfold bks. simpl. rewrite !elem_of_cons. by intros [?|[?|?%not_elem_of_nil]].
  - split; [done|]. intros t x _. eexists. split; [done|]. cbn. split_and!; [done| |done].
    intros q Hq. by rewrite lookup_delete_ne.
  - simpl. lia.
  - simpl. lia.
  - done.
  - exists T', s'. split; [exact Hr|]. exact Hl.
Defined.

Definition empty_T : HASH_TABLE state := mkHT 1 1 0 16 HashFuncGenericIncremental 0x1000.
Definition empty_s : state := mkState {[0x1000 := mkLE 0x1000 0x1000]} ∅ [].
Lemma empty_inv : ht_inv kb (hash_generic 1) empty_T empty_s [[]].
Proof.
  split; try done.
  - by apply (hash_generic_ok empty_T).
  - intros [|i] xs Hi; simpl in Hi; simplify_eq. split; [apply NoDup_singleton|by vm_compute].
  - by intros [|i] [|j] xs ys p Hi Hj; simpl in Hi, Hj; simplify_eq.
  - intros [|i] xs Hi; simpl in Hi; simplify_eq. set_solver.
  - intros [|i] x (xs & Hi & Hx); simpl in Hi; simplify_eq. by apply not_elem_of_nil in Hx.
  - intros [|i] x (xs & Hi & Hx); simpl in Hi; simplify_eq. by apply not_elem_of_nil in Hx.
  - intros [|i] xs Hi; simpl in Hi; simplify_eq. constructor.
Qed.
Lemma HashTableIteratorNext_reads_past_end_witness :
  HashTableIteratorNext 9 empty_T (mkHI 0 (mkLI 0x1000 0x1000)) empty_s = Fault.
Proof.
  apply (HashTableIteratorNext_reads_past_end 9 kb (hash_generic 1) empty_T empty_s [[]]);
    [apply empty_inv|done|done|done|done|done|simpl; lia|done].
Defined.
End HashTableExample.
