(* ===== verification/Heap.v ===== *)
(** CommonLib/src/cl_heap.c: the heap allocator.

    A heap is a region of memory that begins with its header; the blocks that follow are
    ordered by address. The magic numbers, tags and sizes of the blocks lie in the byte
    store, their list entries in the store of list nodes, at offset 0x10 of the block.
    A [PHEAP_HEADER] is the record it points to, which the operations that change it
    return. [heap_inv] ties a heap to its list of blocks. *)
From S2P Require Import Prelude ListEntry Memory.

Definition HEAP_MINIMUM_SIZE : Z := 64 * KB_SIZE.
Definition HEAP_MAGIC : Z := 0xACE2302E.
Definition HEAP_FREE_PATTERN : Z := 0xAF.
Definition HEAP_DEFAULT_ALIGNMENT : Z := 16.
Definition PoolAllocateZeroMemory : Z := 0x2.
Definition PoolAllocatePanicIfFail : Z := 0x4.

(** HEAP_ENTRY: four DWORDs and a LIST_ENTRY; HEAP_TAIL: a DWORD. *)
Definition sizeof_HEAP_ENTRY : Z := 0x20.
Definition sizeof_HEAP_TAIL : Z := 4.
Definition Entry_Magic (e : Z) : Z := e.
Definition Entry_Tag (e : Z) : Z := e + 0x4.
Definition Entry_Size (e : Z) : Z := e + 0x8.
Definition Entry_Offset (e : Z) : Z := e + 0xC.
Definition Entry_ListEntry (e : Z) : Z := e + 0x10.
(** CONTAINING_RECORD(p, HEAP_ENTRY, ListEntry) *)
Definition HEAP_ENTRY_of (p : Z) : Z := p - 0x10.

(** sizeof(HEAP_HEADER) is 0x48: the head of the list of allocations is its last field. *)
Definition sizeof_HEAP_HEADER : Z := 0x48.
Record HEAP_HEADER := mkHeap {
  HeapMagic : Z;
  HeapSizeMaximum : Z;
  HeapSizeRemaining : Z;
  BaseAddress : Z;
  FreeAddress : Z;
  HeapNumberOfAllocations : Z;
  EntryToRestartSearch : Z
}.
Definition HeapAllocations (h : HEAP_HEADER) : Z := BaseAddress h + 0x38.
Definition with_FreeAddress (v : Z) (h : HEAP_HEADER) : HEAP_HEADER :=
  mkHeap (HeapMagic h) (HeapSizeMaximum h) (HeapSizeRemaining h) (BaseAddress h) v
    (HeapNumberOfAllocations h) (EntryToRestartSearch h).
Definition with_Restart (v : Z) (h : HEAP_HEADER) : HEAP_HEADER :=
  mkHeap (HeapMagic h) (HeapSizeMaximum h) (HeapSizeRemaining h) (BaseAddress h) (FreeAddress h)
    (HeapNumberOfAllocations h) v.
Definition with_usage (remaining count : Z) (h : HEAP_HEADER) : HEAP_HEADER :=
  mkHeap (HeapMagic h) (HeapSizeMaximum h) (u64 remaining) (BaseAddress h) (FreeAddress h)
    (u64 count) (EntryToRestartSearch h).

Section Ops.
Context {St : Type} `{HasNodes St} `{HasBytes St}.
Variables (DEBUG : bool) (fuel : nat).
Implicit Types (HeapHeader : HEAP_HEADER).

Definition read_dword (p : Z) : M St Z := read_le p 4.
Definition write_dword (p v : Z) : M St unit := write_le p 4 (u32 v).

(** memset also overwrites the list nodes that lie in the range. *)
Definition pattern_qword (v : Z) : Z := le_value (replicate 8 (u8 v)).
Definition memset_node (p v n q : Z) (e : LIST_ENTRY) : option LIST_ENTRY :=
  Some (if (p <=? q) && (q + 16 <=? p + n) then mkLE (pattern_qword v) (pattern_qword v) else e).
Definition heap_memset (p v n : Z) : M St unit :=
  cl_memset p v n;;
  modify (λ s, set_nodes (map_imap (memset_node p v n) (get_nodes s)) s).

Definition ClHeapInit (BaseAddress_ MemoryAvailable : Z) (HeapHeader : option unit)
    : M St (Z * option HEAP_HEADER) :=
  if BaseAddress_ =? NULL then mret (STATUS_INVALID_PARAMETER1, None) else
  if MemoryAvailable <? HEAP_MINIMUM_SIZE then mret (STATUS_HEAP_TOO_SMALL, None) else
  match HeapHeader with
  | None => mret (STATUS_INVALID_PARAMETER3, None)
  | Some _ =>
      let h := mkHeap HEAP_MAGIC MemoryAvailable (u64 (MemoryAvailable - sizeof_HEAP_HEADER)) BaseAddress_
        (u64 (BaseAddress_ + sizeof_HEAP_HEADER)) 0 (BaseAddress_ + 0x38) in
      InitializeListHead (HeapAllocations h);;
      mret (STATUS_SUCCESS, Some h)
  end.

Definition _ValidateHeapEntry (HeapEntry Tag : Z) : M St bool :=
  ASSERT (negb (NULL =? HeapEntry));;
  ASSERT (negb (0 =? Tag));;
  magic ← read_dword (Entry_Magic HeapEntry);
  size ← read_dword (Entry_Size HeapEntry);
  let totalSize := u32 (sizeof_HEAP_ENTRY + size + sizeof_HEAP_TAIL) in
  tailMagic ← read_dword (HeapEntry + totalSize - sizeof_HEAP_TAIL);
  tag ← read_dword (Entry_Tag HeapEntry);
  mret ((HEAP_MAGIC =? magic) && (HEAP_MAGIC =? tailMagic) && negb (0 =? tag) && (Tag =? tag)).

(** The end of the new block (0 when it does not fit), the block, and the header. *)
Definition _InitHeapEntry HeapHeader (HeapEntry Tag Size Alignment : Z)
    (AddToLinkedList : bool) (SizeAvailable : Z) : M St (Z * Z * HEAP_HEADER) :=
  let unalignedDataAddress := u64 (HeapEntry + sizeof_HEAP_ENTRY) in
  let dataAddress := AlignAddressUpper unalignedDataAddress Alignment in
  let heapEntrySize := u32 (Size + sizeof_HEAP_ENTRY + sizeof_HEAP_TAIL) in
  if SizeAvailable <? u64 (dataAddress - unalignedDataAddress + heapEntrySize)
  then mret (0, HeapEntry, HeapHeader) else
  let pHeapEntry := dataAddress - sizeof_HEAP_ENTRY in
  write_dword (Entry_Magic pHeapEntry) HEAP_MAGIC;;
  write_dword (Entry_Size pHeapEntry) Size;;
  write_dword (Entry_Tag pHeapEntry) Tag;;
  (if AddToLinkedList
   then InsertTailList DEBUG (HeapAllocations HeapHeader) (Entry_ListEntry pHeapEntry)
   else mret tt);;
  write_dword (Entry_Offset pHeapEntry) (dataAddress - pHeapEntry);;
  size ← read_dword (Entry_Size pHeapEntry);
  let pHeapTail := dataAddress + size in
  write_dword pHeapTail HEAP_MAGIC;;
  mret (u64 (pHeapTail + sizeof_HEAP_TAIL), pHeapEntry,
    with_usage (HeapSizeRemaining HeapHeader - heapEntrySize)
      (HeapNumberOfAllocations HeapHeader + 1) HeapHeader).

(** One round of the while loop of ClHeapAllocatePoolWithTag over the gaps between two
    blocks. Its state is pPreviousEntry, pPreviousHeapEntry, pCurEntry and pCurHeapEntry;
    the loop ends with the new block and the header, or without. *)
Definition heap_search_step HeapHeader (Tag AllocationSize alignment sizeRequired : Z)
    (st : Z * Z * Z * Z) : M St (Z * Z * Z * Z + option (Z * HEAP_HEADER)) :=
  let '(pPreviousEntry, pPreviousHeapEntry, pCurEntry, pCurHeapEntry) := st in
  if EntryToRestartSearch HeapHeader =? pCurEntry then mret (inr None) else
  let next_loop pCurHeapEntry :=
    next ← read_Flink pCurEntry;
    mret (inl (pCurEntry, pCurHeapEntry, next, pCurHeapEntry)) in
  if (pCurEntry =? HeapAllocations HeapHeader) || (pPreviousEntry =? HeapAllocations HeapHeader)
  then next_loop pCurHeapEntry else
  ASSERT (negb (NULL =? pPreviousHeapEntry));;
  let pCurHeapEntry := HEAP_ENTRY_of pCurEntry in
  prevSize ← read_dword (Entry_Size pPreviousHeapEntry);
  let startAddress := u64 (pPreviousHeapEntry + sizeof_HEAP_ENTRY + prevSize + sizeof_HEAP_TAIL) in
  let sizeBetweenEntries := s64 (pCurHeapEntry - startAddress) in
  if s64 sizeRequired <=? sizeBetweenEntries then
    '(tempAddress, pNewHeapEntry, HeapHeader') ←
      _InitHeapEntry HeapHeader startAddress Tag AllocationSize alignment false
        (u64 sizeBetweenEntries);
    if 0 =? tempAddress then next_loop pCurHeapEntry else
    prevTag ← read_dword (Entry_Tag pPreviousHeapEntry);
    ok ← _ValidateHeapEntry pPreviousHeapEntry prevTag;
    ASSERT ok;;
    InsertHeadList DEBUG pPreviousEntry (Entry_ListEntry pNewHeapEntry);;
    mret (inr (Some (pNewHeapEntry, with_Restart (Entry_ListEntry pNewHeapEntry) HeapHeader')))
  else next_loop pCurHeapEntry.
Definition heap_search HeapHeader (Tag AllocationSize alignment sizeRequired : Z)
    : Z * Z * Z * Z → M St (option (Z * HEAP_HEADER)) :=
  loop fuel (heap_search_step HeapHeader Tag AllocationSize alignment sizeRequired).

(** The __try block: the status, the address and the header it leaves with. *)
Definition heap_allocate HeapHeader (AllocationSize Tag AllocationAlignment : Z)
    : M St (Z * Z * HEAP_HEADER) :=
  let leave status := mret (status, NULL, HeapHeader) in
  if 0 =? AllocationSize then leave STATUS_INVALID_PARAMETER2 else
  if 0 =? Tag then leave STATUS_INVALID_PARAMETER3 else
  let alignment := if 0 =? AllocationAlignment then HEAP_DEFAULT_ALIGNMENT
                   else AllocationAlignment in
  let sizeRequired := u64 (AllocationSize + sizeof_HEAP_ENTRY + sizeof_HEAP_TAIL) in
  if HeapSizeRemaining HeapHeader <? sizeRequired then leave STATUS_HEAP_NO_MORE_MEMORY else
  let remainingSizeUntilEnd :=
    s64 (BaseAddress HeapHeader + HeapSizeMaximum HeapHeader - FreeAddress HeapHeader
         - sizeof_HEAP_ENTRY) in
  '(tempAddress, pNewHeapEntry, HeapHeader') ←
    (if s64 sizeRequired <=? remainingSizeUntilEnd then
       _InitHeapEntry HeapHeader (FreeAddress HeapHeader) Tag AllocationSize alignment true
         (u64 remainingSizeUntilEnd)
     else mret (0, NULL, HeapHeader));
  let mapped_at pNewHeapEntry HeapHeader :=
    offset ← read_dword (Entry_Offset pNewHeapEntry);
    mret (STATUS_SUCCESS, pNewHeapEntry + offset, HeapHeader) in
  if negb (0 =? tempAddress) then
    mapped_at pNewHeapEntry (with_FreeAddress tempAddress HeapHeader')
  else
    let remainingSizeBeforeCurrent :=
      s64 (HeapSizeRemaining HeapHeader - remainingSizeUntilEnd - sizeof_HEAP_ENTRY) in
    if remainingSizeBeforeCurrent <? s64 sizeRequired then leave STATUS_HEAP_NO_MORE_MEMORY else
    empty ← IsListEmpty DEBUG (HeapAllocations HeapHeader);
    ASSERT (negb empty);;
    pPreviousEntry ← read_Flink (EntryToRestartSearch HeapHeader);
    pCurEntry ← read_Flink pPreviousEntry;
    r ← heap_search HeapHeader Tag AllocationSize alignment sizeRequired
          (pPreviousEntry, HEAP_ENTRY_of pPreviousEntry, pCurEntry, NULL);
    match r with
    | None => leave STATUS_HEAP_NO_MORE_MEMORY
    | Some (pNewHeapEntry, HeapHeader') => mapped_at pNewHeapEntry HeapHeader'
    end.

Definition ClHeapAllocatePoolWithTag HeapHeader (Flags AllocationSize Tag AllocationAlignment : Z)
    : M St (Z * HEAP_HEADER) :=
  '(status, mappedAddress, HeapHeader) ←
    heap_allocate HeapHeader AllocationSize Tag AllocationAlignment;
  (if IsFlagOn Flags PoolAllocatePanicIfFail then
     ASSERT (SUCCEEDED status);;
     ASSERT (negb (NULL =? mappedAddress))
   else mret tt);;
  (if SUCCEEDED status && IsFlagOn Flags PoolAllocateZeroMemory
   then heap_memset mappedAddress 0 AllocationSize else mret tt);;
  mret (mappedAddress, HeapHeader).

Definition ClHeapFreePoolWithTag HeapHeader (MemoryAddress Tag : Z) : M St HEAP_HEADER :=
  ASSERT (negb (NULL =? MemoryAddress));;
  ASSERT (negb (0 =? Tag));;
  let pHeapEntry := MemoryAddress - sizeof_HEAP_ENTRY in
  size ← read_dword (Entry_Size pHeapEntry);
  let endAddress := u64 (MemoryAddress + size + sizeof_HEAP_TAIL) in
  ok ← _ValidateHeapEntry pHeapEntry Tag;
  ASSERT ok;;
  pListEntry ← read_Blink (Entry_ListEntry pHeapEntry);
  previousAddress ←
    (if (HeapAllocations HeapHeader =? pListEntry) || (NULL =? pListEntry)
     then mret (u64 (BaseAddress HeapHeader + sizeof_HEAP_HEADER))
     else prevSize ← read_dword (Entry_Size (HEAP_ENTRY_of pListEntry));
          mret (u64 (HEAP_ENTRY_of pListEntry + sizeof_HEAP_ENTRY + prevSize + sizeof_HEAP_TAIL)));
  RemoveEntryList DEBUG (Entry_ListEntry pHeapEntry);;
  size ← read_dword (Entry_Size pHeapEntry);
  let heapEntrySize := size + sizeof_HEAP_ENTRY + sizeof_HEAP_TAIL in
  ASSERT (heapEntrySize <=? MAX_DWORD);;
  heap_memset pHeapEntry HEAP_FREE_PATTERN heapEntrySize;;
  let HeapHeader := with_usage (HeapSizeRemaining HeapHeader + heapEntrySize)
    (HeapNumberOfAllocations HeapHeader - 1) HeapHeader in
  mret (if endAddress =? FreeAddress HeapHeader
        then with_FreeAddress previousAddress HeapHeader else HeapHeader).
End Ops.

(** * The list of blocks a heap stands for *)
Record block := mkBlock { b_at : Z; b_size : Z; b_tag : Z }.
Definition b_data (b : block) : Z := b_at b + sizeof_HEAP_ENTRY.
Definition b_end (b : block) : Z := b_at b + sizeof_HEAP_ENTRY + b_size b + sizeof_HEAP_TAIL.
Definition b_node (b : block) : Z := Entry_ListEntry (b_at b).
Definition b_used (b : block) : Z := sizeof_HEAP_ENTRY + b_size b + sizeof_HEAP_TAIL.

Definition block_bytes (m : gmap Z Z) (b : block) : Prop :=
  word_at m (Entry_Magic (b_at b)) 4 HEAP_MAGIC ∧ word_at m (Entry_Tag (b_at b)) 4 (b_tag b)
  ∧ word_at m (Entry_Size (b_at b)) 4 (b_size b)
  ∧ word_at m (Entry_Offset (b_at b)) 4 sizeof_HEAP_ENTRY
  ∧ word_at m (b_data b + b_size b) 4 HEAP_MAGIC.

(** Blocks at increasing addresses from [lo] on, without overlap. *)
Fixpoint ordered (lo : Z) (bs : list block) : Prop :=
  match bs with
  | [] => True
  | b :: bs' => lo ≤ b_at b ∧ ordered (b_end b) bs'
  end.
Definition end_of (lo : Z) (bs : list block) : Z := pred_of lo (b_end <$> bs).
Definition used (bs : list block) : Z := foldr (λ b n, b_used b + n) 0 bs.
Definition heap_start (h : HEAP_HEADER) : Z := BaseAddress h + sizeof_HEAP_HEADER.
Definition heap_limit (h : HEAP_HEADER) : Z := BaseAddress h + HeapSizeMaximum h.

Definition block_sane (b : block) : Prop := 0 < b_size b ∧ 0 < b_tag b < 2 ^ 32.

(** A block of [size] bytes, aligned to [al], fits between [lo] and [hi]. *)
Definition room (lo hi size al : Z) : Prop :=
  ∃ a, lo + sizeof_HEAP_ENTRY ≤ a ∧ a mod al = 0 ∧ a + size + sizeof_HEAP_TAIL ≤ hi.

(** ** Ordered lists of blocks *)
Lemma end_of_nil lo : end_of lo [] = lo.
Proof. done. Qed.
Lemma end_of_cons lo b bs : end_of lo (b :: bs) = end_of (b_end b) bs.
Proof. apply pred_of_cons. Qed.
Lemma end_of_snoc lo bs b : end_of lo (bs ++ [b]) = b_end b.
Proof. unfold end_of. rewrite fmap_app. apply pred_of_snoc. Qed.
Lemma end_of_app_cons lo l1 b l2 : end_of lo (l1 ++ b :: l2) = end_of (b_end b) l2.
Proof. unfold end_of. rewrite fmap_app. apply pred_of_app_cons. Qed.
Lemma ordered_app lo l1 l2 : ordered lo (l1 ++ l2) ↔ ordered lo l1 ∧ ordered (end_of lo l1) l2.
Proof.
  revert lo. induction l1 as [|b l1 IH]; intros lo; cbn [app ordered].
  - rewrite end_of_nil. tauto.
  - rewrite IH, end_of_cons. tauto.
Qed.
Lemma b_end_used b : b_end b = b_at b + b_used b.
Proof. unfold b_end, b_used. lia. Qed.
Lemma used_app l1 l2 : used (l1 ++ l2) = used l1 + used l2.
Proof. unfold used. induction l1 as [|b l1 IH]; cbn [app foldr]; [done|]. rewrite IH. lia. Qed.
Lemma used_cons b l : used (b :: l) = b_used b + used l.
Proof. done. Qed.
Lemma b_used_lower b : block_sane b → sizeof_HEAP_ENTRY + sizeof_HEAP_TAIL < b_used b.
Proof. unfold block_sane, b_used. lia. Qed.
Lemma used_lower bs : Forall block_sane bs → 36 * Z.of_nat (length bs) ≤ used bs.
Proof.
  induction 1 as [|b bs Hb _ IH]; [done|]. apply b_used_lower in Hb.
  unfold sizeof_HEAP_ENTRY, sizeof_HEAP_TAIL in Hb. rewrite used_cons. cbn [length]. lia.
Qed.

(** The blocks take no more than the space they span. *)
Lemma ordered_used lo bs : ordered lo bs → lo + used bs ≤ end_of lo bs.
Proof.
  revert lo. induction bs as [|b bs IH]; intros lo; cbn [ordered].
  - unfold used. rewrite end_of_nil. simpl. lia.
  - intros [H1 H2]. apply IH in H2. rewrite end_of_cons, used_cons. rewrite b_end_used in *. lia.
Qed.
Lemma used_nonneg bs : Forall block_sane bs → 0 ≤ used bs.
Proof. intros Hb. apply used_lower in Hb. lia. Qed.
Lemma ordered_end lo bs : Forall block_sane bs → ordered lo bs → lo ≤ end_of lo bs.
Proof. intros Hb Ho. apply ordered_used in Ho. apply used_nonneg in Hb. lia. Qed.

(** A gap is a part of what the blocks do not take. *)
Lemma ordered_gap lo l1 a b l2 :
  ordered lo (l1 ++ a :: b :: l2) → Forall block_sane (l1 ++ a :: b :: l2) →
  b_at b - b_end a ≤ end_of lo (l1 ++ a :: b :: l2) - lo - used (l1 ++ a :: b :: l2).
Proof.
  intros Ho Hs. apply ordered_app in Ho as [H1 (H2 & H3 & H4)].
  apply ordered_used in H1. apply ordered_used in H4.
  rewrite end_of_app_cons, end_of_cons, used_app, !used_cons. rewrite !b_end_used in *. lia.
Qed.

(** Where a block lies among the others. *)
Lemma ordered_in lo bs b :
  ordered lo bs → Forall block_sane bs → b ∈ bs → lo ≤ b_at b ∧ b_end b ≤ end_of lo bs.
Proof.
  intros Ho Hs (l1 & l2 & ->)%list_elem_of_split. apply Forall_app in Hs as [Hs1 Hs2].
  apply Forall_cons in Hs2 as [Hb Hs2]. apply ordered_app in Ho as [H1 [H2 H3]].
  apply ordered_end in H1; [|done]. apply ordered_end in H3; [|done].
  rewrite end_of_app_cons. lia.
Qed.

(** ** Machine arithmetic on the addresses of a heap *)
(** The least address from [x] on that is aligned to [al]. *)
Record aligned_up (al x a : Z) : Prop := {
  au_ge : x ≤ a;
  au_aligned : a mod al = 0;
  au_least c : x ≤ c → c mod al = 0 → a ≤ c;
  au_near : a < x + al
}.
Lemma AlignAddressUpper_least k x :
  0 ≤ k < 32 → 0 ≤ x → x + 2 ^ 32 ≤ 2 ^ 64 → aligned_up (2 ^ k) x (AlignAddressUpper x (2 ^ k)).
Proof.
  intros Hk Hx Hb. assert (Hp : 0 < 2 ^ k) by lia.
  assert (2 ^ k ≤ 2 ^ 32) by (apply Z.pow_le_mono_r; lia).
  rewrite AlignAddressUpper_pow2 by lia. set (m := 2 ^ k) in *.
  pose proof (Z.div_mod (x + m - 1) m ltac:(lia)) as Hd.
  pose proof (Z.mod_pos_bound (x + m - 1) m Hp) as Hm. split.
  - lia.
  - rewrite Z.mul_comm. by apply Z_mod_mult.
  - intros c Hc Hcm. pose proof (Z.div_mod c m ltac:(lia)) as Hcd.
    assert ((x + m - 1) / m < c / m + 1) by (apply Z.div_lt_upper_bound; lia). nia.
  - lia.
Qed.

(** ** What changes in memory *)
(** Only bytes of [lo, hi) change, and no byte disappears. *)
Definition bytes_frame (lo hi : Z) (m m' : gmap Z Z) : Prop :=
  (∀ q, q < lo ∨ hi ≤ q → m' !! q = m !! q) ∧ (∀ q, is_Some (m !! q) → is_Some (m' !! q)).

Lemma bytes_frame_refl lo hi m : bytes_frame lo hi m m.
Proof. by split. Qed.
Lemma bytes_frame_trans lo hi m1 m2 m3 :
  bytes_frame lo hi m1 m2 → bytes_frame lo hi m2 m3 → bytes_frame lo hi m1 m3.
Proof. intros [H1 H2] [H3 H4]. split; [intros q Hq; by rewrite H3, H1|auto]. Qed.
Lemma bytes_frame_store lo hi m p bs :
  lo ≤ p → p + Z.of_nat (length bs) ≤ hi → bytes_frame lo hi m (store m p bs).
Proof. intros H1 H2. split; [intros q Hq; apply store_out; lia|intros q; apply store_dom]. Qed.
Lemma bytes_frame_mapped lo hi m m' p n : bytes_frame lo hi m m' → mapped m p n → mapped m' p n.
Proof. intros [_ H] Hm q Hq. by apply H, Hm. Qed.
Lemma bytes_frame_word lo hi m m' p n v :
  bytes_frame lo hi m m' → p + Z.of_nat n ≤ lo ∨ hi ≤ p → word_at m p n v → word_at m' p n v.
Proof.
  intros [H _] Hd Hw i x Hi. rewrite H; [by apply Hw|].
  apply lookup_lt_Some in Hi. rewrite le_bytes_length in Hi. lia.
Qed.
Lemma bytes_frame_block lo hi m m' b :
  bytes_frame lo hi m m' → block_sane b → b_end b ≤ lo ∨ hi ≤ b_at b →
  block_bytes m b → block_bytes m' b.
Proof.
  unfold block_bytes, block_sane, b_end, b_data, Entry_Magic, Entry_Tag, Entry_Size, Entry_Offset,
    sizeof_HEAP_ENTRY, sizeof_HEAP_TAIL.
  intros Hf Hs Hd (H1 & H2 & H3 & H4 & H5).
  split_and!; (eapply bytes_frame_word; [exact Hf| |eassumption]); lia.
Qed.

Section Specs.
Context {St : Type} `{HasNodes St} `{HasBytes St} `{!NodesBytes St}.
Variables (DEBUG : bool) (fuel : nat).
Implicit Types (h : HEAP_HEADER) (s : St) (bs : list block) (b : block).

Lemma write_dword_run s p v :
  mapped (get_bytes s) p 4 → 0 ≤ v < 2 ^ 32 →
  write_dword p v s = Ret (tt, set_bytes (store (get_bytes s) p (le_bytes 4 v)) s).
Proof. intros Hm Hv. unfold write_dword. rewrite u32_id by done. by apply write_le_run. Qed.
Lemma read_dword_run s p v :
  word_at (get_bytes s) p 4 v → 0 ≤ v < 2 ^ 32 → read_dword p s = Ret (v, s).
Proof. intros Hw Hv. by apply read_le_word. Qed.

(** _ValidateHeapEntry accepts a block under its tag, and under no other. *)
Lemma _ValidateHeapEntry_run s b t :
  block_bytes (get_bytes s) b → block_sane b → 0 < b_at b → b_size b + 36 < 2 ^ 32 → t ≠ 0 →
  _ValidateHeapEntry (b_at b) t s = Ret (t =? b_tag b, s).
Proof.
  intros (H1 & H2 & H3 & _ & H5) [Hs Ht] Ha Hsz Ht0. unfold _ValidateHeapEntry.
  massert ltac:(by apply negb_true_iff, Z.eqb_neq; unfold NULL; lia).
  massert ltac:(by apply negb_true_iff, Z.eqb_neq; lia).
  mrun (read_dword_run _ _ _ H1 ltac:(done)).
  mrun (read_dword_run _ _ _ H3 ltac:(lia)).
  unfold b_data, sizeof_HEAP_ENTRY, sizeof_HEAP_TAIL in *.
  rewrite u32_id by lia. replace (b_at b + (0x20 + b_size b + 4) - 4) with (b_at b + 0x20 + b_size b) by lia.
  mrun (read_dword_run _ _ _ H5 ltac:(done)).
  mrun (read_dword_run _ _ _ H2 ltac:(lia)).
  rewrite Z.eqb_refl. by rewrite (proj2 (Z.eqb_neq 0 (b_tag b))) by lia.
Qed.

(** The block _InitHeapEntry makes of the memory from [at_] on. *)
Definition new_block (at_ tag size k : Z) : block :=
  mkBlock (AlignAddressUpper (at_ + sizeof_HEAP_ENTRY) (2 ^ k) - sizeof_HEAP_ENTRY) size tag.

Section Init.
Variables (h : HEAP_HEADER) (at_ tag size k : Z) (add : bool) (avail : Z).
Hypotheses (Hk : 0 ≤ k < 32) (Hat : 0 < at_) (Htop : at_ + 2 ^ 33 ≤ 2 ^ 64)
  (Hsize : 0 < size) (Hsz : size + 36 < 2 ^ 32) (Htag : 0 < tag < 2 ^ 32) .
Let nb := new_block at_ tag size k.

Lemma new_block_near : at_ ≤ b_at nb < at_ + 2 ^ 32 ∧ b_data nb mod 2 ^ k = 0.
Proof.
  destruct (AlignAddressUpper_least k (at_ + sizeof_HEAP_ENTRY) Hk) as [H1 H2 _ H3];
    [unfold sizeof_HEAP_ENTRY; lia..|].
  assert (2 ^ k ≤ 2 ^ 31) by (apply Z.pow_le_mono_r; lia).
  unfold nb, new_block, b_data. cbn. unfold sizeof_HEAP_ENTRY in *. split; [lia|].
  rewrite <-H2. f_equal. lia.
Qed.

Lemma _InitHeapEntry_full s :
  avail < b_end nb - at_ →
  _InitHeapEntry DEBUG h at_ tag size (2 ^ k) add avail s = Ret (0, at_, h, s).
Proof.
  pose proof new_block_near as [Hn _]. unfold _InitHeapEntry, b_end in *.
  rewrite (u64_id (at_ + sizeof_HEAP_ENTRY)) by (unfold sizeof_HEAP_ENTRY; lia).
  unfold nb, new_block in *. cbn in Hn |- *. set (d := AlignAddressUpper _ _) in *.
  unfold sizeof_HEAP_ENTRY, sizeof_HEAP_TAIL in *. rewrite u32_id by lia.
  rewrite u64_id by lia. intros Hav. by rewrite (proj2 (Z.ltb_lt avail _)) by lia.
Qed.

(** The words of the block and the frame, once the five stores are done. *)
Ltac words := repeat first [apply word_at_store
  | apply word_at_store_frame; [|rewrite le_bytes_length; lia]].

Lemma _InitHeapEntry_run s lo n (P : gmap Z LIST_ENTRY → Prop) :
  b_end nb - at_ ≤ avail → mapped (get_bytes s) lo n → lo ≤ b_at nb → b_end nb ≤ lo + n →
  (∀ s1, get_nodes s1 = get_nodes s → ∃ s2,
     (if add then InsertTailList DEBUG (HeapAllocations h) (b_node nb) else mret tt) s1 = Ret (tt, s2)
     ∧ get_bytes s2 = get_bytes s1 ∧ P (get_nodes s2)) →
  ∃ s', _InitHeapEntry DEBUG h at_ tag size (2 ^ k) add avail s
      = Ret (b_end nb, b_at nb,
             with_usage (HeapSizeRemaining h - b_used nb) (HeapNumberOfAllocations h + 1) h, s')
    ∧ P (get_nodes s') ∧ block_bytes (get_bytes s') nb
    ∧ bytes_frame (b_at nb) (b_end nb) (get_bytes s) (get_bytes s').
Proof.
  pose proof new_block_near as [Hn _]. intros Hav Hm Hlo Hhi Hins. unfold _InitHeapEntry.
  rewrite (u64_id (at_ + sizeof_HEAP_ENTRY)) by (unfold sizeof_HEAP_ENTRY; lia).
  assert (Ed : AlignAddressUpper (at_ + sizeof_HEAP_ENTRY) (2 ^ k) = b_at nb + 0x20)
    by (unfold nb, new_block; cbn; unfold sizeof_HEAP_ENTRY; lia).
  rewrite Ed. unfold b_end in *. change (b_size nb) with size in *.
  unfold block_bytes, b_data, b_used, b_end, b_node in *. change (b_size nb) with size.
  change (b_tag nb) with tag.
  set (e := b_at nb) in *. clearbody e. clear Ed.
  unfold sizeof_HEAP_ENTRY, sizeof_HEAP_TAIL in *. rewrite u32_id by lia. rewrite u64_id by lia.
  rewrite (proj2 (Z.ltb_ge avail _)) by lia. replace (e + 0x20 - 0x20) with e by lia. cbv zeta.
  unfold Entry_Magic, Entry_Tag, Entry_Size, Entry_Offset in *.
  assert (Hmem : ∀ p m, e ≤ p → p + m ≤ e + 0x20 + size + 4 → mapped (get_bytes s) p m)
    by (intros p m ??; apply (mapped_sub _ lo n); [done|lia..]).
  erewrite bind_Ret by (apply write_dword_run; [apply Hmem; lia|done]). cbn beta iota.
  erewrite bind_Ret by (apply write_dword_run; [rewrite get_set_bytes; apply mapped_store, Hmem; lia|lia]).
  cbn beta iota.
  erewrite bind_Ret by (apply write_dword_run;
    [autorewrite with bytes; apply mapped_store, mapped_store, Hmem; lia|lia]).
  cbn beta iota. autorewrite with bytes.
  destruct (Hins (set_bytes (store (store (store (get_bytes s) e (le_bytes 4 HEAP_MAGIC)) (e + 8)
     (le_bytes 4 size)) (e + 4) (le_bytes 4 tag)) s)) as (s2 & Hrun & Hb & HP);
    [by rewrite nodes_set_bytes|].
  mrun Hrun. rewrite get_set_bytes in Hb.
  replace (e + 0x20 - e) with 0x20 by lia.
  erewrite bind_Ret by (apply write_dword_run; [rewrite Hb; do 3 apply mapped_store; apply Hmem; lia|done]).
  cbn beta iota. rewrite Hb.
  erewrite bind_Ret by (apply (read_dword_run _ _ size); [rewrite get_set_bytes; words|lia]).
  cbn beta iota.
  erewrite bind_Ret by (apply write_dword_run;
    [rewrite get_set_bytes; do 4 apply mapped_store; apply Hmem; lia|done]).
  cbn beta iota. autorewrite with bytes. rewrite u64_id by lia.
  replace (size + 0x20 + 4) with (0x20 + size + 4) by lia.
  eexists. split_and!; [reflexivity|by rewrite nodes_set_bytes|..]; rewrite get_set_bytes;
    [words..|].
  repeat (eapply bytes_frame_trans; [|apply bytes_frame_store; rewrite ?le_bytes_length; lia]).
  apply bytes_frame_refl.
Qed.
End Init.

(** ** The invariant of a heap *)
Record heap_inv h s bs : Prop := {
  hi_base : 0 < BaseAddress h;
  hi_max : HEAP_MINIMUM_SIZE ≤ HeapSizeMaximum h ≤ 2 ^ 32;
  hi_top : heap_limit h + 2 ^ 34 ≤ 2 ^ 64;
  hi_ring : dlist (get_nodes s) (HeapAllocations h) (b_node <$> bs);
  hi_order : ordered (heap_start h) bs;
  hi_free : FreeAddress h = end_of (heap_start h) bs;
  hi_fits : FreeAddress h ≤ heap_limit h;
  hi_sane : Forall block_sane bs;
  hi_bytes : Forall (block_bytes (get_bytes s)) bs;
  hi_remaining : HeapSizeRemaining h = HeapSizeMaximum h - sizeof_HEAP_HEADER - used bs;
  hi_count : HeapNumberOfAllocations h = Z.of_nat (length bs);
  hi_mapped : mapped (get_bytes s) (BaseAddress h) (HeapSizeMaximum h);
  hi_nodes q : BaseAddress h ≤ q < heap_limit h → is_Some (get_nodes s !! q)
}.

(** What an operation on the heap leaves alone. *)
Definition same_heap h h' : Prop :=
  BaseAddress h' = BaseAddress h ∧ HeapSizeMaximum h' = HeapSizeMaximum h.

Lemma next_at_ordered lo lo' l2 lim :
  ordered lo l2 → lo' ≤ match l2 with [] => lim | c :: _ => b_at c end → ordered lo' l2.
Proof. destruct l2; cbn [ordered]; tauto. Qed.

Lemma used_insert l1 b l2 : used (l1 ++ b :: l2) = used (l1 ++ l2) + b_used b.
Proof. rewrite !used_app, used_cons. lia. Qed.
Lemma end_of_insert lo l1 b l2 :
  end_of lo (l1 ++ b :: l2) = match l2 with [] => b_end b | _ => end_of lo (l1 ++ l2) end.
Proof.
  rewrite end_of_app_cons. destruct l2 as [|c l2]; [done|]. by rewrite end_of_app_cons, end_of_cons.
Qed.

Lemma heap_inv_bounds h s bs b :
  heap_inv h s bs → b ∈ bs →
  heap_start h ≤ b_at b ∧ b_end b ≤ FreeAddress h ∧ block_sane b ∧ block_bytes (get_bytes s) b
  ∧ b_size b + 36 < 2 ^ 32 ∧ 0 < b_at b.
Proof.
  intros Hi Hb. destruct (ordered_in _ _ _ (hi_order _ _ _ Hi) (hi_sane _ _ _ Hi) Hb) as [H1 H2].
  rewrite <-(hi_free _ _ _ Hi) in H2.
  pose proof (hi_fits _ _ _ Hi). pose proof (hi_max _ _ _ Hi). pose proof (hi_base _ _ _ Hi).
  assert (Hsane : block_sane b) by (by eapply Forall_forall in Hb; [|apply (hi_sane _ _ _ Hi)]).
  assert (Hbytes : block_bytes (get_bytes s) b)
    by (by eapply Forall_forall in Hb; [|apply (hi_bytes _ _ _ Hi)]).
  unfold heap_start, heap_limit, b_end, sizeof_HEAP_HEADER, sizeof_HEAP_ENTRY, sizeof_HEAP_TAIL in *.
  split_and!; try done; lia.
Qed.

Lemma heap_inv_insert h h' s s' l1 l2 b :
  heap_inv h s (l1 ++ l2) → same_heap h h' →
  end_of (heap_start h) l1 ≤ b_at b →
  b_end b ≤ match l2 with [] => heap_limit h | c :: _ => b_at c end →
  block_sane b → block_bytes (get_bytes s') b →
  bytes_frame (b_at b) (b_end b) (get_bytes s) (get_bytes s') →
  dlist (get_nodes s') (HeapAllocations h) (b_node <$> l1 ++ b :: l2) →
  (∀ q, is_Some (get_nodes s' !! q) ↔ is_Some (get_nodes s !! q)) →
  HeapSizeRemaining h' = HeapSizeRemaining h - b_used b →
  HeapNumberOfAllocations h' = HeapNumberOfAllocations h + 1 →
  FreeAddress h' = match l2 with [] => b_end b | _ => FreeAddress h end →
  heap_inv h' s' (l1 ++ b :: l2).
Proof.
  intros Hi [HB HM] Hlo Hhi Hsane Hbytes Hfr Hring Hnodes Hrem Hcnt Hfree.
  assert (Hst : heap_start h' = heap_start h) by (unfold heap_start; by rewrite HB).
  assert (Hlim : heap_limit h' = heap_limit h) by (unfold heap_limit; by rewrite HB, HM).
  pose proof (hi_order _ _ _ Hi) as Ho. apply ordered_app in Ho as [Ho1 Ho2].
  pose proof (hi_sane _ _ _ Hi) as Hs. pose proof (proj1 (Forall_app _ _ _) Hs) as [Hs1 Hs2].
  split.
  - rewrite HB. apply Hi.
  - rewrite HM. apply Hi.
  - rewrite Hlim. apply Hi.
  - unfold HeapAllocations. rewrite HB. exact Hring.
  - rewrite Hst. apply ordered_app. split; [done|]. split; [done|]. by eapply next_at_ordered.
  - rewrite Hst, end_of_insert, Hfree. destruct l2; [done|]. apply Hi.
  - rewrite Hfree, Hlim. destruct l2; [done|]. apply Hi.
  - apply Forall_app. split; [done|]. by constructor.
  - pose proof (hi_bytes _ _ _ Hi) as Hb. apply Forall_app in Hb as [Hb1 Hb2].
    assert (Hord : ∀ c, c ∈ l1 ++ l2 → b_end c ≤ b_at b ∨ b_end b ≤ b_at c).
    { intros c [Hc|Hc]%elem_of_app.
      - left. destruct (ordered_in _ _ _ Ho1 Hs1 Hc). lia.
      - right. assert (Ho2' : ordered (b_end b) l2) by (by eapply next_at_ordered).
        by destruct (ordered_in _ _ _ Ho2' Hs2 Hc). }
    rewrite Forall_forall. intros c Hc. rewrite elem_of_app, elem_of_cons in Hc.
    assert (c = b ∨ c ∈ l1 ++ l2) as [->|Hin] by (rewrite elem_of_app; tauto); [done|].
    destruct (heap_inv_bounds _ _ _ _ Hi Hin) as (_ & _ & Hcs & Hcb & _).
    eapply bytes_frame_block; [exact Hfr|done|by apply Hord|done].
  - rewrite Hrem, HM, used_insert, (hi_remaining _ _ _ Hi). lia.
  - rewrite Hcnt, (hi_count _ _ _ Hi), !length_app. cbn [length]. lia.
  - rewrite HB, HM. eapply bytes_frame_mapped; [exact Hfr|]. apply Hi.
  - intros q Hq. apply Hnodes. rewrite HB, Hlim in Hq. by apply (hi_nodes _ _ _ Hi).
Qed.

(** ** The block that is placed between two others, or behind the last one *)
Lemma fresh_node h s l1 l2 b :
  heap_inv h s (l1 ++ l2) → end_of (heap_start h) l1 ≤ b_at b →
  b_end b ≤ match l2 with [] => heap_limit h | c :: _ => b_at c end → block_sane b →
  (b_node b ∉ HeapAllocations h :: (b_node <$> l1 ++ l2)) ∧ is_Some (get_nodes s !! b_node b).
Proof.
  intros Hi Hlo Hhi Hsane. pose proof (hi_order _ _ _ Hi) as Ho. apply ordered_app in Ho as [Ho1 Ho2].
  pose proof (hi_sane _ _ _ Hi) as Hs. apply Forall_app in Hs as [Hs1 Hs2].
  pose proof (ordered_end _ _ Hs1 Ho1) as Hst. apply b_used_lower in Hsane.
  assert (Ho2' : ordered (b_end b) l2) by (by eapply next_at_ordered).
  assert (Hlim : b_end b ≤ heap_limit h).
  { destruct l2 as [|c l2]; [done|]. etrans; [|apply (hi_fits _ _ _ Hi)].
    destruct (heap_inv_bounds _ _ _ c Hi) as (_ & Hc & Hcs & _); [set_solver|].
    unfold b_end, block_sane, sizeof_HEAP_ENTRY, sizeof_HEAP_TAIL in *. lia. }
  unfold b_used, b_node, Entry_ListEntry, heap_start, sizeof_HEAP_HEADER, sizeof_HEAP_ENTRY,
    sizeof_HEAP_TAIL in *.
  split.
  - rewrite not_elem_of_cons. split; [unfold HeapAllocations; lia|].
    intros (c & Hc & Hin)%list_elem_of_fmap. apply elem_of_app in Hin as [Hin|Hin].
    + destruct (ordered_in _ _ _ Ho1 Hs1 Hin) as [_ Hc2]. eapply Forall_forall in Hin; [|exact Hs1].
      unfold block_sane, b_end, b_node, Entry_ListEntry, sizeof_HEAP_ENTRY, sizeof_HEAP_TAIL in *. lia.
    + destruct (ordered_in _ _ _ Ho2' Hs2 Hin) as [Hc1 _].
      unfold b_end, b_node, Entry_ListEntry, sizeof_HEAP_ENTRY, sizeof_HEAP_TAIL in *. lia.
  - apply (hi_nodes _ _ _ Hi).
    unfold b_end, heap_limit, sizeof_HEAP_ENTRY, sizeof_HEAP_TAIL in *. lia.
Qed.

(** The space a block takes was free. *)
Lemma usage_after h s l1 l2 b :
  heap_inv h s (l1 ++ l2) → end_of (heap_start h) l1 ≤ b_at b →
  b_end b ≤ match l2 with [] => heap_limit h | c :: _ => b_at c end → block_sane b →
  u64 (HeapSizeRemaining h - b_used b) = HeapSizeRemaining h - b_used b
  ∧ u64 (HeapNumberOfAllocations h + 1) = HeapNumberOfAllocations h + 1.
Proof.
  intros Hi Hlo Hhi Hsane. pose proof (hi_order _ _ _ Hi) as Ho. apply ordered_app in Ho as [Ho1 Ho2].
  pose proof (hi_sane _ _ _ Hi) as Hs. pose proof (used_lower _ Hs) as Hlen.
  pose proof (hi_max _ _ _ Hi). pose proof (hi_remaining _ _ _ Hi) as Hr. pose proof (hi_count _ _ _ Hi).
  pose proof (hi_fits _ _ _ Hi) as Hf. rewrite (hi_free _ _ _ Hi) in Hf.
  assert (Hu : heap_start h + used (l1 ++ b :: l2) ≤ heap_limit h).
  { etrans; [apply ordered_used|].
    - apply ordered_app. split; [done|]. split; [done|]. by eapply next_at_ordered.
    - rewrite end_of_insert. by destruct l2. }
  apply b_used_lower in Hsane. rewrite used_insert in Hu. 
  unfold heap_start, heap_limit, sizeof_HEAP_HEADER, sizeof_HEAP_ENTRY, sizeof_HEAP_TAIL in *.
  split; apply u64_id; lia.
Qed.

(** A new block is placed between the blocks [l1] and [l2]: the heap afterwards, what it
    leaves alone, and where the data begins. *)
Record placed h s (l1 l2 : list block) (tag size k : Z) h' s' (b : block) : Prop := {
  pl_size : b_size b = size;
  pl_tag : b_tag b = tag;
  pl_aligned : b_data b mod 2 ^ k = 0;
  pl_inv : heap_inv h' s' (l1 ++ b :: l2);
  pl_same : same_heap h h';
  pl_frame : bytes_frame (b_at b) (b_end b) (get_bytes s) (get_bytes s');
  pl_nodes q : q < b_at b ∨ b_end b ≤ q → q ∉ HeapAllocations h :: (b_node <$> l1 ++ b :: l2) →
    get_nodes s' !! q = get_nodes s !! q;
  pl_restart : EntryToRestartSearch h' = match l2 with [] => EntryToRestartSearch h | _ => b_node b end
}.

Lemma placed_intro h h' s s' l1 l2 b tag size k :
  heap_inv h s (l1 ++ l2) → end_of (heap_start h) l1 ≤ b_at b →
  b_end b ≤ match l2 with [] => heap_limit h | c :: _ => b_at c end →
  block_sane b → b_size b = size → b_tag b = tag → b_data b mod 2 ^ k = 0 →
  block_bytes (get_bytes s') b → bytes_frame (b_at b) (b_end b) (get_bytes s) (get_bytes s') →
  dlist (get_nodes s') (HeapAllocations h) ((b_node <$> l1) ++ b_node b :: (b_node <$> l2)) →
  nodes_frame (HeapAllocations h :: (b_node <$> l1) ++ b_node b :: (b_node <$> l2))
    (get_nodes s) (get_nodes s') →
  same_heap h h' →
  HeapSizeRemaining h' = u64 (HeapSizeRemaining h - b_used b) →
  HeapNumberOfAllocations h' = u64 (HeapNumberOfAllocations h + 1) →
  FreeAddress h' = match l2 with [] => b_end b | _ => FreeAddress h end →
  EntryToRestartSearch h' = match l2 with [] => EntryToRestartSearch h | _ => b_node b end →
  placed h s l1 l2 tag size k h' s' b.
Proof.
  intros Hi Hlo Hhi Hsane H1 H2 H3 Hbb Hfr Hd Hnf Hsame Hrem Hcnt Hfree Hrest.
  destruct (usage_after h s l1 l2 b Hi Hlo Hhi Hsane) as [U1 U2].
  change (b_node b :: (b_node <$> l2)) with (b_node <$> b :: l2) in Hd, Hnf.
  rewrite <-fmap_app in Hd, Hnf. split; try done.
  - eapply heap_inv_insert; try done; [apply Hnf|by rewrite Hrem|by rewrite Hcnt].
  - intros q _ Hq. by apply Hnf.
Qed.

Section Search.
Variables (h : HEAP_HEADER) (s : St) (bs : list block) (tag size k : Z).
Hypotheses (Hinv : heap_inv h s bs) (Hk : 0 ≤ k < 32) (Hsize : 0 < size)
  (Hsz : size + 36 < 2 ^ 32) (Htag : 0 < tag < 2 ^ 32).

Lemma room_new_block at_ hi :
  0 < at_ → at_ + 2 ^ 33 ≤ 2 ^ 64 →
  room at_ hi size (2 ^ k) ↔ b_end (new_block at_ tag size k) ≤ hi.
Proof.
  clear Hsz.
  intros H1 H2.
  destruct (AlignAddressUpper_least k (at_ + sizeof_HEAP_ENTRY) Hk) as [G1 G2 G3 _];
    [unfold sizeof_HEAP_ENTRY; lia..|].
  unfold room, new_block, b_end. cbn. split.
  - intros (a & Ha & Hal & Hhi). specialize (G3 a Ha Hal). lia.
  - intros Hhi. exists (AlignAddressUpper (at_ + sizeof_HEAP_ENTRY) (2 ^ k)). split_and!; [done..|lia].
Qed.

Lemma heap_numbers at_ :
  heap_start h ≤ at_ ≤ heap_limit h → 0 < at_ ∧ at_ + 2 ^ 33 ≤ 2 ^ 64.
Proof.
  clear Hsz.
  pose proof (hi_base _ _ _ Hinv). pose proof (hi_top _ _ _ Hinv).
  unfold heap_start, sizeof_HEAP_HEADER. lia.
Qed.

Lemma gap_numbers l1 a b l2 :
  bs = l1 ++ a :: b :: l2 →
  heap_start h ≤ b_end a ∧ b_end a ≤ b_at b ∧ b_at b + 36 < heap_limit h ∧ b_end b ≤ heap_limit h.
Proof.
  clear Hsz.
  intros Hbs. destruct (heap_inv_bounds _ _ _ a Hinv) as (Ha & _ & Has & _); [set_solver|].
  destruct (heap_inv_bounds _ _ _ b Hinv) as (_ & Hb & Hbs' & _); [set_solver|].
  pose proof (hi_fits _ _ _ Hinv). pose proof (hi_order _ _ _ Hinv) as Ho. rewrite Hbs in Ho.
  apply ordered_app in Ho as (_ & _ & Ho & _).
  unfold b_end, block_sane, sizeof_HEAP_ENTRY, sizeof_HEAP_TAIL in *. lia.
Qed.

Let step := heap_search_step DEBUG h tag size (2 ^ k) (size + 36).

(** The link behind a block, and that the block is no list head. *)
Lemma block_link l1 b l2 :
  bs = l1 ++ b :: l2 →
  read_Flink (b_node b) s = Ret (succ_of (b_node <$> l2) (HeapAllocations h), s)
  ∧ (b_node b =? HeapAllocations h) = false.
Proof.
  intros Hbs. pose proof (hi_ring _ _ _ Hinv) as Hr. rewrite Hbs, fmap_app, fmap_cons in Hr.
  split; [by eapply read_next|by eapply member_not_head].
Qed.

Lemma read_block_size b :
  b ∈ bs → read_dword (Entry_Size (b_at b)) s = Ret (b_size b, s).
Proof.
  intros Hb. destruct (heap_inv_bounds _ _ _ b Hinv Hb) as (_ & _ & Hs & Hbb & ? & _).
  destruct Hbb as (_ & _ & Hw & _). apply read_dword_run; [done|]. unfold block_sane in Hs. lia.
Qed.

(** A round at the gap between [a] and [b]. *)
Lemma step_gap l1 a b l2 cur :
  bs = l1 ++ a :: b :: l2 → EntryToRestartSearch h ≠ b_node b →
  (¬ room (b_end a) (b_at b) size (2 ^ k)
   ∧ step (b_node a, b_at a, b_node b, cur) s
     = Ret (inl (b_node b, b_at b, succ_of (b_node <$> l2) (HeapAllocations h), b_at b), s))
  ∨ ∃ nb h' s', step (b_node a, b_at a, b_node b, cur) s = Ret (inr (Some (b_at nb, h')), s')
    ∧ placed h s (l1 ++ [a]) (b :: l2) tag size k h' s' nb.
Proof.
  intros Hbs Hre. pose proof (gap_numbers _ _ _ _ Hbs) as (G1 & G2 & G3 & G4).
  destruct (heap_numbers (b_end a)) as [N1 N2]; [lia|].
  pose proof (hi_max _ _ _ Hinv) as Hmax. pose proof (hi_top _ _ _ Hinv) as Htop.
  pose proof (hi_base _ _ _ Hinv) as Hbase.
  assert (Hbs' : bs = (l1 ++ [a]) ++ b :: l2) by (by rewrite <-app_assoc).
  destruct (block_link _ _ _ Hbs) as [_ Ha]. destruct (block_link _ _ _ Hbs') as [Hnext Hb].
  destruct (heap_inv_bounds _ _ _ a Hinv) as (A1 & A2 & Has & Hab & Hasz & A3); [set_solver|].
  destruct (new_block_near (b_end a) tag size k Hk N1 N2) as [Hn Hal].
  assert (Hnode : HEAP_ENTRY_of (b_node b) = b_at b) by (unfold HEAP_ENTRY_of, b_node, Entry_ListEntry; lia).
  rewrite (room_new_block _ _ N1 N2). set (nb := new_block (b_end a) tag size k) in *.
  unfold step, heap_search_step.
  rewrite (proj2 (Z.eqb_neq _ _) Hre), Ha, Hb. cbn [orb].
  massert ltac:(apply negb_true_iff, Z.eqb_neq; unfold NULL; lia).
  mrun (read_block_size a ltac:(set_solver)). change (b_at a + _ + _ + _) with (b_end a).
  rewrite Hnode, (u64_id (b_end a)) by lia. unfold heap_limit, HEAP_MINIMUM_SIZE, KB_SIZE in *.
  assert (b_at b - b_end a < 2 ^ 32) by (unfold heap_start, sizeof_HEAP_HEADER in *; lia).
  rewrite !s64_id by lia. rewrite u64_id by lia.
  assert (Hlow : size + 36 ≤ b_end nb - b_end a)
    by (unfold b_end at 1; change (b_size nb) with size; unfold sizeof_HEAP_ENTRY, sizeof_HEAP_TAIL; lia).
  destruct (Z.leb_spec (size + 36) (b_at b - b_end a)) as [Hle|Hgt].
  2: { left. split; [lia|]. by mrun Hnext. }
  destruct (Z.le_gt_cases (b_end nb) (b_at b)) as [Hfit|Hfull].
  2: { left. split; [lia|].
    erewrite bind_Ret by (apply _InitHeapEntry_full; [done..|fold nb; lia]). cbn beta iota.
    rewrite Z.eqb_refl. by mrun Hnext. }
  right.
  destruct (_InitHeapEntry_run h (b_end a) tag size k false (b_at b - b_end a) Hk N1 N2 Hsize Hsz Htag
    s (BaseAddress h) (HeapSizeMaximum h) (λ n, n = get_nodes s)) as (s1 & Hrun & Hnd & Hbb & Hfr).
  { fold nb. lia. }
  { apply Hinv. } { fold nb. unfold heap_start, sizeof_HEAP_HEADER in *. lia. } { fold nb. lia. }
  { intros s1 Hs1. by exists s1. }
  mrun Hrun. fold nb. fold nb in Hbb, Hfr.
  assert (Hsane : block_sane nb) by done.
  rewrite (proj2 (Z.eqb_neq 0 _)) by lia.
  assert (Hab' : block_bytes (get_bytes s1) a) by (eapply bytes_frame_block; [exact Hfr|done|lia|done]).
  assert (Hta : read_dword (Entry_Tag (b_at a)) s1 = Ret (b_tag a, s1)).
  { destruct Hab' as (_ & Hw & _). apply read_dword_run; [done|]. unfold block_sane in Has. lia. }
  mrun Hta. erewrite bind_Ret by (apply _ValidateHeapEntry_run; [done..|unfold block_sane in Has; lia]).
  cbn beta iota. massert ltac:(apply Z.eqb_refl).
  assert (Hlo : end_of (heap_start h) (l1 ++ [a]) ≤ b_at nb) by (rewrite end_of_snoc; lia).
  assert (Hinv' : heap_inv h s ((l1 ++ [a]) ++ b :: l2)) by (by rewrite <-Hbs').
  destruct (fresh_node h s (l1 ++ [a]) (b :: l2) nb Hinv' Hlo Hfit Hsane) as [Hfresh Hsome].
  rewrite <-Hnd in Hsome. pose proof (hi_ring _ _ _ Hinv') as Hring. rewrite <-Hnd in Hring.
  rewrite fmap_app in Hring, Hfresh.
  destruct (InsertHeadList_run DEBUG s1 _ _ _ _ Hring Hfresh Hsome) as (n' & Hins & Hd' & Hnf).
  rewrite fmap_app in Hins at 1. cbn [fmap list_fmap] in Hins. rewrite pred_of_snoc in Hins.
  change (Entry_ListEntry (b_at nb)) with (b_node nb). mrun Hins.
  eexists nb, _, _. split; [reflexivity|]. rewrite Hnd in Hnf.
  eapply placed_intro; try done; by rewrite ?bytes_set_nodes, ?get_set_nodes.
Qed.

(** A round with a pPreviousHeapEntry that lies behind pCurEntry fits nothing. *)
Lemma step_stale l1 b l2 f z cur :
  bs = l1 ++ b :: l2 → z ∈ b :: l2 → b_node f ≠ HeapAllocations h → EntryToRestartSearch h ≠ b_node b →
  step (b_node f, b_at z, b_node b, cur) s
  = Ret (inl (b_node b, b_at b, succ_of (b_node <$> l2) (HeapAllocations h), b_at b), s).
Proof.
  intros Hbs Hz Hf Hre. destruct (block_link _ _ _ Hbs) as [Hnext Hb].
  destruct (heap_inv_bounds _ _ _ z Hinv) as (A1 & A2 & Has & Hab & Hasz & A3); [set_solver|].
  destruct (heap_inv_bounds _ _ _ b Hinv) as (B1 & B2 & Hbs' & _ & _ & B3); [set_solver|].
  pose proof (hi_max _ _ _ Hinv) as Hmax. pose proof (hi_top _ _ _ Hinv) as Htop.
  pose proof (hi_base _ _ _ Hinv) as Hbase. pose proof (hi_fits _ _ _ Hinv) as Hfits.
  assert (Hbz : b_at b < b_end z).
  { apply elem_of_cons in Hz as [->|Hz]; [unfold b_end, sizeof_HEAP_ENTRY, sizeof_HEAP_TAIL, block_sane in *; lia|].
    pose proof (hi_order _ _ _ Hinv) as Ho. pose proof (hi_sane _ _ _ Hinv) as Hs. rewrite Hbs in Ho, Hs.
    apply ordered_app in Ho as (_ & _ & Ho). apply Forall_app in Hs as [_ Hs].
    apply Forall_cons in Hs as [_ Hs]. destruct (ordered_in _ _ _ Ho Hs Hz) as [? _].
    unfold b_end, sizeof_HEAP_ENTRY, sizeof_HEAP_TAIL, block_sane in *. lia. }
  unfold step, heap_search_step. rewrite (proj2 (Z.eqb_neq _ _) Hre), Hb, (proj2 (Z.eqb_neq _ _) Hf).
  cbn [orb]. massert ltac:(apply negb_true_iff, Z.eqb_neq; unfold NULL; lia).
  mrun (read_block_size z ltac:(set_solver)). change (b_at z + _ + _ + _) with (b_end z).
  replace (HEAP_ENTRY_of (b_node b)) with (b_at b) by (unfold HEAP_ENTRY_of, b_node, Entry_ListEntry; lia).
  unfold heap_limit, heap_start, sizeof_HEAP_HEADER, HEAP_MINIMUM_SIZE, KB_SIZE in *.
  rewrite u64_id by lia. rewrite !s64_id by lia.
  rewrite (proj2 (Z.leb_gt _ _)) by lia. by mrun Hnext.
Qed.

(** A round at the list head, or with the list head as pPreviousEntry, only moves on. *)
Lemma step_at_head p prev cur next :
  EntryToRestartSearch h ≠ HeapAllocations h →
  read_Flink (HeapAllocations h) s = Ret (next, s) →
  step (p, prev, HeapAllocations h, cur) s = Ret (inl (HeapAllocations h, cur, next, cur), s).
Proof.
  intros Hre Hnext. unfold step, heap_search_step. rewrite (proj2 (Z.eqb_neq _ _) Hre), Z.eqb_refl.
  cbn [orb]. by mrun Hnext.
Qed.
Lemma step_behind_head p prev cur next :
  EntryToRestartSearch h ≠ p → read_Flink p s = Ret (next, s) →
  step (HeapAllocations h, prev, p, cur) s = Ret (inl (p, cur, next, cur), s).
Proof.
  intros Hre Hnext. unfold step, heap_search_step. rewrite (proj2 (Z.eqb_neq _ _) Hre), Z.eqb_refl.
  rewrite orb_true_r. by mrun Hnext.
Qed.
(** The round that asserts. *)
Lemma step_panics p c cur :
  EntryToRestartSearch h ≠ c → c ≠ HeapAllocations h → p ≠ HeapAllocations h →
  step (p, NULL, c, cur) s = Panic.
Proof.
  intros Hre Hc Hp. unfold step, heap_search_step.
  by rewrite (proj2 (Z.eqb_neq _ _) Hre), (proj2 (Z.eqb_neq _ _) Hc), (proj2 (Z.eqb_neq _ _) Hp).
Qed.

(** No room between neighbours among [a :: ys]. *)
Fixpoint no_room (a : block) (ys : list block) : Prop :=
  match ys with
  | [] => True
  | b :: ys' => ¬ room (b_end a) (b_at b) size (2 ^ k) ∧ no_room b ys'
  end.
Definition found (o : outcome (option (Z * HEAP_HEADER) * St)) : Prop :=
  ∃ l1 l2 nb h' s', bs = l1 ++ l2 ∧ l2 ≠ [] ∧ o = Ret (Some (b_at nb, h'), s')
    ∧ placed h s l1 l2 tag size k h' s' nb.

(** The walk over the gaps from [a] on through [ys]. *)
Lemma walk f l1 a ys rest cur :
  bs = l1 ++ a :: ys ++ rest → EntryToRestartSearch h ∉ b_node <$> ys → (length ys < f)%nat →
  let o := loop f step (b_node a, b_at a, succ_of (b_node <$> ys ++ rest) (HeapAllocations h), cur) s in
  let z := List.last ys a in
  found o ∨ (no_room a ys ∧
    o = loop (f - length ys) step (b_node z, b_at z, succ_of (b_node <$> rest) (HeapAllocations h),
              match ys with [] => cur | _ => b_at z end) s).
Proof.
  revert f l1 a cur. induction ys as [|b ys IH]; intros f l1 a cur Hbs Hre Hf o z.
  { right. split; [done|]. by rewrite Nat.sub_0_r. }
  destruct f as [|f]; [cbn in Hf; lia|]. rewrite fmap_cons, not_elem_of_cons in Hre.
  destruct Hre as [Hreb Hre]. unfold o. cbn [app fmap list_fmap succ_of List.hd].
  destruct (step_gap l1 a b (ys ++ rest) cur Hbs Hreb) as [[Hno Hs]|(nb & h' & s' & Hs & Hpl)].
  - rewrite (loop_continue _ _ _ _ _ _ Hs).
    destruct (IH f (l1 ++ [a]) b (b_at b)) as [Hfound|[Hnr ->]];
      [by rewrite <-app_assoc|done|cbn in Hf; lia|by left|]. right. split; [done|].
    unfold z. cbn [length Nat.sub]. rewrite List_last_cons. by destruct ys.
  - left. rewrite (loop_break _ _ _ _ _ _ Hs). exists (l1 ++ [a]), (b :: ys ++ rest), nb, h', s'.
    split_and!; [by rewrite <-app_assoc|done..].
Qed.

Definition no_room_in (l : list block) : Prop :=
  match l with [] => True | a :: ys => no_room a ys end.

(** The loop ends when it comes to the entry it started from. *)
Lemma step_stops p prev cur : step (p, prev, EntryToRestartSearch h, cur) s = Ret (inr None, s).
Proof. unfold step, heap_search_step. by rewrite Z.eqb_refl. Qed.

Lemma restart_not_in l1 r l2 l :
  bs = l1 ++ r :: l2 → EntryToRestartSearch h = b_node r → l ⊆ l1 ∨ l ⊆ l2 →
  EntryToRestartSearch h ∉ b_node <$> l.
Proof.
  intros Hbs Hr Hl. pose proof (hi_ring _ _ _ Hinv) as [Hnd _]. rewrite Hbs, fmap_app, fmap_cons in Hnd.
  apply NoDup_cons in Hnd as [_ Hnd]. apply NoDup_app in Hnd as (_ & Hd & Hnd).
  apply NoDup_cons in Hnd as [Hr2 _]. rewrite Hr. intros (b & Hb & Hin)%list_elem_of_fmap.
  rewrite Hb in *. destruct Hl as [Hl|Hl]; apply Hl in Hin.
  - apply (Hd (b_node b)); [by apply list_elem_of_fmap_2|by left].
  - apply Hr2. by apply list_elem_of_fmap_2.
Qed.

Lemma block_not_head b : b ∈ bs → b_node b ≠ HeapAllocations h.
Proof.
  intros (l1 & l2 & Hbs)%list_elem_of_split. destruct (block_link _ _ _ Hbs) as [_ Hb].
  by apply Z.eqb_neq.
Qed.

(** The second half of the search, from the list head to the entry it started from. *)
Lemma search_wrapped f l1 r l2 x c :
  bs = l1 ++ r :: l2 → EntryToRestartSearch h = b_node r → (length l1 + 2 < f)%nat →
  (length l1 <= 1)%nat ∨ (∃ z, z ∈ l2 ∧ c = b_at z) →
  let o := loop f step (HeapAllocations h, x, succ_of (b_node <$> bs) (HeapAllocations h), c) s in
  found o ∨ (no_room_in (tail l1) ∧ o = Ret (None, s)).
Proof.
  intros Hbs Hr Hf Hc o.
  destruct f as [|f]; [lia|]. unfold o. clear o. rewrite Hbs.
  assert (Hne : ∀ l, l ⊆ l1 ∨ l ⊆ l2 → EntryToRestartSearch h ∉ b_node <$> l)
    by (intros l; by apply (restart_not_in l1 r l2)).
  destruct l1 as [|b1 l1]; cbn [app fmap list_fmap succ_of List.hd tail].
  { right. split; [done|]. rewrite <-Hr. apply loop_break, step_stops. }
  destruct (block_link [] b1 (l1 ++ r :: l2) Hbs) as [Hn1 _].
  assert (Hr1 : EntryToRestartSearch h ≠ b_node b1)
    by (intros Heq; apply (Hne [b1]); [left; set_solver|rewrite Heq; by left]).
  rewrite (loop_continue _ _ _ _ _ _ (step_behind_head _ x c _ Hr1 Hn1)).
  destruct f as [|f]; [lia|]. destruct l1 as [|b2 l1]; cbn [app fmap list_fmap succ_of List.hd].
  { right. split; [done|]. rewrite <-Hr. apply loop_break, step_stops. }
  destruct Hc as [Hc|(z & Hz & ->)]; [cbn in Hc; lia|].
  assert (Hr2 : EntryToRestartSearch h ≠ b_node b2)
    by (intros Heq; apply (Hne [b2]); [left; set_solver|rewrite Heq; by left]).
  erewrite (loop_continue f); [|apply (step_stale [b1] b2 (l1 ++ r :: l2));
    [done|set_solver|apply block_not_head; set_solver|done]].
  destruct (walk f [b1] b2 l1 (r :: l2) (b_at b2)) as [Hfound|[Hno ->]];
    [done|apply Hne; left; set_solver|cbn in Hf; lia|by left|].
  right. split; [done|]. cbn [fmap list_fmap succ_of List.hd]. rewrite <-Hr.
  destruct (f - length l1)%nat as [|f'] eqn:Ef; [cbn in Hf; lia|]. apply loop_break, step_stops.
Qed.

(** Where the search may start: at the head of the list, or at a block with at least two
    blocks behind it or at most one before it. *)
Definition restart_at (l1 : list block) (r : block) (l2 : list block) : Prop :=
  bs = l1 ++ r :: l2 ∧ EntryToRestartSearch h = b_node r.
Definition restart_ok : Prop :=
  EntryToRestartSearch h = HeapAllocations h
  ∨ ∃ l1 r l2, restart_at l1 r l2 ∧ ((length l1 <= 1)%nat ∨ (2 <= length l2)%nat).
(** It is the head of the list or any block of the heap. *)
Definition restart_live : Prop :=
  EntryToRestartSearch h = HeapAllocations h ∨ ∃ l1 r l2, restart_at l1 r l2.
(** The gaps the search looks at have no room. *)
Definition nothing_found : Prop :=
  (EntryToRestartSearch h = HeapAllocations h ∧ no_room_in bs)
  ∨ ∃ l1 r l2, restart_at l1 r l2 ∧ no_room_in l2 ∧ no_room_in (tail l1).

Lemma entry_of_node b : HEAP_ENTRY_of (b_node b) = b_at b.
Proof. unfold HEAP_ENTRY_of, b_node, Entry_ListEntry. lia. Qed.

Lemma read_head : read_Flink (HeapAllocations h) s
  = Ret (succ_of (b_node <$> bs) (HeapAllocations h), s).
Proof. apply (read_first _ _ _ (hi_ring _ _ _ Hinv)). Qed.

(** The search from the head of the list. *)
Lemma search_from_head f a ys :
  bs = a :: ys → EntryToRestartSearch h = HeapAllocations h → (length bs < f)%nat →
  let o := loop f step (b_node a, b_at a, succ_of (b_node <$> ys) (HeapAllocations h), NULL) s in
  found o ∨ (no_room a ys ∧ o = Ret (None, s)).
Proof.
  intros Hbs Hr Hf o. unfold o. rewrite Hbs in Hf. cbn [length] in Hf.
  destruct (walk f [] a ys [] NULL) as [Hfound|[Hno Ho]];
    [by rewrite app_nil_r| |lia|left|right]; rewrite ?app_nil_r in *; [|done|].
  - rewrite Hr. intros (b & Hb & Hin)%list_elem_of_fmap.
    apply (block_not_head b); [rewrite Hbs; by right|done].
  - split; [done|]. rewrite Ho. cbn [fmap list_fmap succ_of List.hd]. rewrite <-Hr.
    destruct (f - length ys)%nat as [|f'] eqn:Ef; [lia|]. apply loop_break, step_stops.
Qed.

(** The search from a block. *)
Lemma search_from_block f l1 r l2 :
  restart_at l1 r l2 → (length l1 <= 1)%nat ∨ (2 <= length l2)%nat → (length bs + 2 < f)%nat →
  let first := succ_of (b_node <$> l2) (HeapAllocations h) in
  ∃ next, read_Flink first s = Ret (next, s) ∧
  let o := loop f step (first, HEAP_ENTRY_of first, next, NULL) s in
  found o ∨ (no_room_in l2 ∧ no_room_in (tail l1) ∧ o = Ret (None, s)).
Proof.
  intros [Hbs Hr] Hok Hf. assert (Hlen : length bs = (length l1 + S (length l2))%nat)
    by (by rewrite Hbs, length_app).
  assert (Hrh : EntryToRestartSearch h ≠ HeapAllocations h)
    by (rewrite Hr; apply block_not_head; rewrite Hbs; set_solver).
  destruct l2 as [|a ys]; cbn [fmap list_fmap succ_of List.hd].
  { eexists. split; [apply read_head|].
    destruct (search_wrapped f l1 r [] (HEAP_ENTRY_of (HeapAllocations h)) NULL Hbs Hr)
      as [Hfound|[Hno Ho]]; [lia| |by left|by right].
    left. destruct Hok as [?|Hok]; [done|]. cbn in Hok. lia. }
  assert (Hbs' : bs = (l1 ++ [r]) ++ a :: ys) by (by rewrite <-app_assoc).
  destruct (block_link _ _ _ Hbs') as [Hna _]. eexists. split; [exact Hna|]. rewrite entry_of_node.
  destruct (walk f (l1 ++ [r]) a ys [] NULL) as [Hfound|[Hno Ho]];
    [by rewrite app_nil_r|apply (restart_not_in l1 r (a :: ys)); [done..|right; set_solver]
    |cbn in Hlen; lia|left|]; rewrite ?app_nil_r in *; [done|].
  rewrite Ho. cbn [length] in Hlen. cbn [fmap list_fmap succ_of List.hd].
  destruct (f - length ys)%nat as [|f'] eqn:Ef; [lia|].
  erewrite loop_continue by (apply step_at_head; [done|apply read_head]).
  set (c := match ys with [] => NULL | _ => _ end).
  destruct (search_wrapped f' l1 r (a :: ys) c c Hbs Hr) as [Hfound|[Hno2 Ho2]];
    [lia| |by left|by right].
  destruct Hok as [?|Hok]; [by left|]. right. cbn in Hok. destruct ys as [|b ys]; [cbn in Hok; lia|].
  exists (List.last (b :: ys) a). split; [|done]. right.
  rewrite List_last_cons. clear. revert b. induction ys as [|c ys IH]; intros b; [by left|].
  rewrite List_last_cons. right. apply IH.
Qed.

(** ** The end of the heap *)
Lemma heap_free_numbers :
  heap_start h ≤ FreeAddress h ≤ heap_limit h ∧ heap_start h + used bs ≤ FreeAddress h.
Proof.
  clear Hsz.
  pose proof (ordered_end _ _ (hi_sane _ _ _ Hinv) (hi_order _ _ _ Hinv)) as H1.
  pose proof (ordered_used _ _ (hi_order _ _ _ Hinv)) as H2. rewrite <-(hi_free _ _ _ Hinv) in *.
  pose proof (hi_fits _ _ _ Hinv). lia.
Qed.

Lemma place_tail avail (nb := new_block (FreeAddress h) tag size k) :
  b_end nb - FreeAddress h ≤ avail → b_end nb ≤ heap_limit h →
  ∃ s', _InitHeapEntry DEBUG h (FreeAddress h) tag size (2 ^ k) true avail s
      = Ret (b_end nb, b_at nb,
             with_usage (HeapSizeRemaining h - b_used nb) (HeapNumberOfAllocations h + 1) h, s')
    ∧ placed h s bs [] tag size k (with_FreeAddress (b_end nb)
        (with_usage (HeapSizeRemaining h - b_used nb) (HeapNumberOfAllocations h + 1) h)) s' nb.
Proof.
  intros Hav Hlim. destruct heap_free_numbers as [Hf _].
  destruct (heap_numbers (FreeAddress h) Hf) as [N1 N2].
  destruct (new_block_near (FreeAddress h) tag size k Hk N1 N2) as [Hn Hal]. fold nb in Hn, Hal.
  assert (Hinv' : heap_inv h s (bs ++ [])) by (by rewrite app_nil_r).
  assert (Hlo : end_of (heap_start h) bs ≤ b_at nb) by (rewrite <-(hi_free _ _ _ Hinv); lia).
  assert (Hsane : block_sane nb) by done.
  destruct (fresh_node h s bs [] nb Hinv' Hlo Hlim Hsane) as [Hfresh Hsome].
  rewrite fmap_app in Hfresh. pose proof (hi_ring _ _ _ Hinv') as Hring. rewrite fmap_app in Hring.
  destruct (_InitHeapEntry_run h (FreeAddress h) tag size k true avail Hk N1 N2 Hsize Hsz Htag
    s (BaseAddress h) (HeapSizeMaximum h)
    (λ n, dlist n (HeapAllocations h) ((b_node <$> bs) ++ b_node nb :: [])
       ∧ nodes_frame (HeapAllocations h :: (b_node <$> bs) ++ b_node nb :: []) (get_nodes s) n))
    as (s1 & Hrun & [Hd Hnf] & Hbb & Hfr).
  { done. } { apply Hinv. } { fold nb. unfold heap_start, sizeof_HEAP_HEADER in *. lia. } { done. }
  { intros s1 Hs1. rewrite <-Hs1 in Hring, Hsome.
    destruct (InsertTailList_run DEBUG s1 _ _ _ _ Hring Hfresh Hsome) as (n' & Hins & Hd' & Hnf).
    eexists. split_and!; [exact Hins|by rewrite bytes_set_nodes|by rewrite get_set_nodes|].
    rewrite get_set_nodes. by rewrite <-Hs1. }
  exists s1. split; [exact Hrun|]. by apply placed_intro.
Qed.

(** ** The whole allocation *)
(** No gap holds more than all the gaps together. *)
Lemma small_gaps l1 a ys l2 :
  bs = l1 ++ a :: ys ++ l2 → FreeAddress h - heap_start h - used bs < size + 36 → no_room a ys.
Proof.
  clear Hsz.
  intros Hbs Hsmall. revert l1 a Hbs. induction ys as [|b ys IH]; intros l1 a Hbs; [done|].
  split; [|by apply (IH (l1 ++ [a])); rewrite <-app_assoc].
  destruct (gap_numbers _ _ _ _ Hbs) as (G1 & G2 & G3 & G4).
  destruct (heap_numbers (b_end a)) as [N1 N2]; [lia|]. rewrite (room_new_block _ _ N1 N2).
  destruct (new_block_near (b_end a) tag size k Hk N1 N2) as [Hn _].
  pose proof (hi_order _ _ _ Hinv) as Ho. pose proof (hi_sane _ _ _ Hinv) as Hs.
  pose proof (ordered_gap (heap_start h) l1 a b (ys ++ l2)) as Hgap.
  change (a :: b :: ys ++ l2) with (a :: (b :: ys) ++ l2) in Hgap. rewrite <-Hbs in Hgap.
  specialize (Hgap Ho Hs). rewrite <-(hi_free _ _ _ Hinv) in Hgap.
  unfold b_end at 1. change (b_size (new_block _ _ _ _)) with size.
  unfold sizeof_HEAP_ENTRY, sizeof_HEAP_TAIL in *. lia.
Qed.
Lemma small_gaps_in l1 l l2 :
  bs = l1 ++ l ++ l2 → FreeAddress h - heap_start h - used bs < size + 36 → no_room_in l.
Proof. destruct l as [|a ys]; [done|]. intros Hbs. by apply (small_gaps l1 a ys l2). Qed.
Lemma restart_ok_live : restart_ok → restart_live.
Proof. clear Hsz. intros [?|(l1 & r & l2 & ? & _)]; [by left|]. right. by exists l1, r, l2. Qed.
Lemma nothing_small : restart_live → FreeAddress h - heap_start h - used bs < size + 36 → nothing_found.
Proof.
  clear Hsz.
  intros [Hr|(l1 & r & l2 & Hat)] Hsmall; [left|right].
  - split; [done|]. apply (small_gaps_in [] bs []); [by rewrite app_nil_r|done].
  - exists l1, r, l2. split_and!; [done|..]; destruct Hat as [Hbs _].
    + apply (small_gaps_in (l1 ++ [r]) l2 []); [|done]. by rewrite app_nil_r, <-app_assoc.
    + destruct l1 as [|b l1]; [done|]. by apply (small_gaps_in [b] l1 (r :: l2)).
Qed.

Lemma read_offset s' b :
  block_bytes (get_bytes s') b →
  read_dword (Entry_Offset (b_at b)) s' = Ret (sizeof_HEAP_ENTRY, s').
Proof. intros (_ & _ & _ & Hw & _). by apply read_dword_run. Qed.
Lemma placed_bytes l1 l2 h' s' b : placed h s l1 l2 tag size k h' s' b → block_bytes (get_bytes s') b.
Proof.
  intros Hpl. destruct (heap_inv_bounds _ _ _ b (pl_inv _ _ _ _ _ _ _ _ _ _ Hpl)) as (_ & _ & _ & ? & _);
    [set_solver|done].
Qed.

Variable alignment : Z.
Hypothesis Halign : (if 0 =? alignment then HEAP_DEFAULT_ALIGNMENT else alignment) = 2 ^ k.

Definition full : Prop :=
  ¬ room (FreeAddress h) (heap_limit h - sizeof_HEAP_ENTRY) size (2 ^ k) ∧ nothing_found.

Lemma heap_search_cases :
  restart_ok → bs ≠ [] → (length bs + 2 < fuel)%nat →
  let o := (pPreviousEntry ← read_Flink (EntryToRestartSearch h);
            pCurEntry ← read_Flink pPreviousEntry;
            heap_search DEBUG fuel h tag size (2 ^ k) (size + 36)
              (pPreviousEntry, HEAP_ENTRY_of pPreviousEntry, pCurEntry, NULL)) s in
  found o ∨ (nothing_found ∧ o = Ret (None, s)).
Proof.
  intros [Hr|(l1 & r & l2 & Hat & Hok)] Hne Hf o; unfold o, heap_search; fold step.
  - assert (∃ a ys, bs = a :: ys) as (a & ys & Hbs) by (destruct bs; naive_solver).
    rewrite Hr. mrun read_head. rewrite Hbs. cbn [fmap list_fmap succ_of List.hd].
    destruct (block_link [] a ys Hbs) as [Hna _]. mrun Hna. rewrite entry_of_node.
    destruct (search_from_head fuel a ys Hbs Hr) as [Hfound|[Hno Ho]]; [lia|by left|].
    right. split; [left; split; [done|by rewrite Hbs]|exact Ho].
  - destruct (search_from_block fuel l1 r l2 Hat Hok Hf) as (next & Hnext & Hs).
    pose proof Hat as [Hbs Hr]. destruct (block_link l1 r l2 Hbs) as [Hnr _]. rewrite <-Hr in Hnr.
    mrun Hnr. mrun Hnext. destruct Hs as [Hfound|(H1 & H2 & Ho)]; [by left|].
    right. split; [|exact Ho]. right. by exists l1, r, l2.
Qed.

(** When there is no room at the end, but in the gaps taken together, the gaps are searched. *)
Definition search_and_map : M St (Z * Z * HEAP_HEADER) :=
  pPreviousEntry ← read_Flink (EntryToRestartSearch h);
  pCurEntry ← read_Flink pPreviousEntry;
  r ← heap_search DEBUG fuel h tag size (2 ^ k) (size + 36)
        (pPreviousEntry, HEAP_ENTRY_of pPreviousEntry, pCurEntry, NULL);
  match r with
  | None => mret (STATUS_HEAP_NO_MORE_MEMORY, NULL, h)
  | Some (pNewHeapEntry, HeapHeader') =>
      offset ← read_dword (Entry_Offset pNewHeapEntry);
      mret (STATUS_SUCCESS, pNewHeapEntry + offset, HeapHeader')
  end.

Lemma allocate_at_end :
  room (FreeAddress h) (heap_limit h - sizeof_HEAP_ENTRY) size (2 ^ k) →
  ∃ nb h' s', placed h s bs [] tag size k h' s' nb
    ∧ heap_allocate DEBUG fuel h size tag alignment s = Ret ((STATUS_SUCCESS, b_data nb, h'), s').
Proof.
  destruct heap_free_numbers as [Hf1 Hf2].
  pose proof (hi_max _ _ _ Hinv) as Hmax. pose proof (hi_top _ _ _ Hinv) as Htop.
  pose proof (hi_base _ _ _ Hinv) as Hbase. pose proof (hi_remaining _ _ _ Hinv) as Hrem.
  destruct (heap_numbers (FreeAddress h) Hf1) as [N1 N2].
  destruct (new_block_near (FreeAddress h) tag size k Hk N1 N2) as [Hn _].
  rewrite (room_new_block _ _ N1 N2). intros Hfit.
  destruct (place_tail (heap_limit h - FreeAddress h - sizeof_HEAP_ENTRY)) as (s' & Hrun & Hpl);
    [unfold sizeof_HEAP_ENTRY in *; lia..|].
  set (nb := new_block (FreeAddress h) tag size k) in *.
  assert (Hnb : FreeAddress h + size + 36 ≤ b_end nb).
  { unfold b_end. change (b_size nb) with size. unfold sizeof_HEAP_ENTRY, sizeof_HEAP_TAIL. lia. }
  unfold heap_allocate. rewrite (proj2 (Z.eqb_neq 0 size)), (proj2 (Z.eqb_neq 0 tag)), Halign by lia.
  unfold heap_limit, heap_start, sizeof_HEAP_HEADER, sizeof_HEAP_ENTRY, sizeof_HEAP_TAIL,
    HEAP_MINIMUM_SIZE, KB_SIZE in *.
  replace (size + 0x20 + 4) with (size + 36) by lia. rewrite (u64_id (size + 36)), (s64_id (size + 36)) by lia.
  rewrite (proj2 (Z.ltb_ge _ _)) by lia.
  rewrite (s64_id (_ - FreeAddress h - 0x20)) by lia. rewrite (proj2 (Z.leb_le (size + 36) _)) by lia.
  rewrite (u64_id (_ - FreeAddress h - 0x20)) by lia.
  mrun Hrun. rewrite (proj2 (Z.eqb_neq 0 _)) by lia. cbn [negb].
  mrun (read_offset _ _ (placed_bytes _ _ _ _ _ Hpl)). eexists nb, _, s'. by split.
Qed.

Lemma allocate_in_gaps :
  ¬ room (FreeAddress h) (heap_limit h - sizeof_HEAP_ENTRY) size (2 ^ k) →
  if FreeAddress h - heap_start h - used bs <? size + 36
  then heap_allocate DEBUG fuel h size tag alignment s = Ret ((STATUS_HEAP_NO_MORE_MEMORY, NULL, h), s)
  else bs ≠ [] ∧ heap_allocate DEBUG fuel h size tag alignment s = search_and_map s.
Proof.
  intros Hfull. destruct heap_free_numbers as [Hf1 Hf2].
  pose proof (hi_max _ _ _ Hinv) as Hmax. pose proof (hi_top _ _ _ Hinv) as Htop.
  pose proof (hi_base _ _ _ Hinv) as Hbase. pose proof (hi_remaining _ _ _ Hinv) as Hrem.
  pose proof (used_nonneg _ (hi_sane _ _ _ Hinv)) as Hused.
  destruct (heap_numbers (FreeAddress h) Hf1) as [N1 N2].
  destruct (new_block_near (FreeAddress h) tag size k Hk N1 N2) as [Hn _].
  rewrite (room_new_block _ _ N1 N2) in Hfull. set (nb := new_block (FreeAddress h) tag size k) in *.
  unfold heap_allocate. rewrite (proj2 (Z.eqb_neq 0 size)), (proj2 (Z.eqb_neq 0 tag)), Halign by lia.
  unfold search_and_map, heap_limit, heap_start, sizeof_HEAP_HEADER, sizeof_HEAP_ENTRY,
    sizeof_HEAP_TAIL, HEAP_MINIMUM_SIZE, KB_SIZE in *.
  replace (size + 0x20 + 4) with (size + 36) by lia. rewrite (u64_id (size + 36)), (s64_id (size + 36)) by lia.
  destruct (Z.ltb_spec (HeapSizeRemaining h) (size + 36)) as [Hlt|Hge].
  { by rewrite (proj2 (Z.ltb_lt _ _)) by lia. }
  set (until := BaseAddress h + HeapSizeMaximum h - FreeAddress h - 0x20).
  rewrite !(s64_id until) by (unfold until; lia). rewrite (s64_id (_ - until - _)) by (unfold until; lia).
  assert (∃ p, (if size + 36 <=? until then _InitHeapEntry DEBUG h (FreeAddress h) tag size (2 ^ k)
    true (u64 until) else mret (0, NULL, h)) s = Ret ((0, p, h), s)) as [p Hp].
  { destruct (Z.leb_spec (size + 36) until); [|by exists NULL]. exists (FreeAddress h).
    apply _InitHeapEntry_full; try done. fold nb. rewrite u64_id; unfold until; lia. }
  mrun Hp. rewrite Z.eqb_refl. cbn [negb].
  replace (HeapSizeRemaining h - until - 0x20) with (FreeAddress h - (BaseAddress h + 0x48) - used bs)
    by (unfold until; lia).
  destruct (Z.ltb_spec (FreeAddress h - (BaseAddress h + 0x48) - used bs) (size + 36)) as [Hlt|Hge2]; [done|].
  assert (Hne : bs ≠ []).
  { intros Hbs. pose proof (hi_free _ _ _ Hinv) as Hfree. rewrite Hbs in *.
    unfold until, heap_start, sizeof_HEAP_HEADER, used, end_of, pred_of in *. simpl in *. lia. }
  split; [done|]. mrun (IsListEmpty_run DEBUG s _ _ (hi_ring _ _ _ Hinv)).
  massert ltac:(apply negb_true_iff, bool_decide_eq_false; by destruct bs). done.
Qed.

Lemma heap_allocate_run_ok :
  restart_ok → (length bs + 2 < fuel)%nat →
  (∃ l1 l2 nb h' s', bs = l1 ++ l2 ∧ placed h s l1 l2 tag size k h' s' nb
     ∧ heap_allocate DEBUG fuel h size tag alignment s = Ret ((STATUS_SUCCESS, b_data nb, h'), s'))
  ∨ (full ∧ heap_allocate DEBUG fuel h size tag alignment s
       = Ret ((STATUS_HEAP_NO_MORE_MEMORY, NULL, h), s)).
Proof.
  intros Hok Hf. destruct heap_free_numbers as [Hf1 _].
  destruct (heap_numbers (FreeAddress h) Hf1) as [N1 N2]. unfold full.
  destruct (Z.le_gt_cases (b_end (new_block (FreeAddress h) tag size k)) (heap_limit h - sizeof_HEAP_ENTRY))
    as [Hfit|Hfull].
  { left. apply (room_new_block _ _ N1 N2) in Hfit.
    destruct (allocate_at_end Hfit) as (nb & h' & s' & ? & ?).
    exists bs, [], nb, h', s'. by rewrite app_nil_r. }
  assert (Hno : ¬ room (FreeAddress h) (heap_limit h - sizeof_HEAP_ENTRY) size (2 ^ k))
    by (rewrite (room_new_block _ _ N1 N2); lia).
  pose proof (allocate_in_gaps Hno) as Hgaps.
  destruct (Z.ltb_spec (FreeAddress h - heap_start h - used bs) (size + 36)) as [Hlt|Hge].
  { right. split; [split; [done|apply nothing_small; [by apply restart_ok_live|done]]|done]. }
  destruct Hgaps as [Hne ->]. unfold search_and_map.
  destruct (heap_search_cases Hok Hne Hf) as [(l1 & l2 & b & h' & s' & Hbs & _ & Ho & Hpl)|[Hnone Ho]];
    apply bind_Ret_inv in Ho as (p1 & s1 & E1 & Ho); apply bind_Ret_inv in Ho as (p2 & s2 & E2 & Ho).
  - left. exists l1, l2, b, h', s'. split_and!; [done..|]. mrun E1. mrun E2. mrun Ho.
    by mrun (read_offset _ _ (placed_bytes _ _ _ _ _ Hpl)).
  - right. split; [done|]. mrun E1. mrun E2. by mrun Ho.
Qed.

(** Where the search asserts: pPreviousHeapEntry is still NULL when the loop comes to the second
    block, because it met the head of the list before any gap. *)
Lemma allocate_panics l1 r l2 :
  restart_at l1 r l2 → (2 <= length l1)%nat → (length l2 <= 1)%nat → (4 <= fuel)%nat →
  ¬ room (FreeAddress h) (heap_limit h - sizeof_HEAP_ENTRY) size (2 ^ k) →
  size + 36 ≤ FreeAddress h - heap_start h - used bs →
  heap_allocate DEBUG fuel h size tag alignment s = Panic.
Proof.
  intros [Hbs Hr] Hl1 Hl2 Hfuel Hno Hgap. pose proof (allocate_in_gaps Hno) as Hrun.
  rewrite (proj2 (Z.ltb_ge _ _)) in Hrun by lia. destruct Hrun as [_ ->]. unfold search_and_map, heap_search.
  fold step. destruct (block_link l1 r l2 Hbs) as [Hnr _]. rewrite <-Hr in Hnr. mrun Hnr.
  destruct l1 as [|b1 [|b2 l1]]; [cbn in Hl1; lia..|]. clear Hl1.
  destruct (block_link [] b1 (b2 :: l1 ++ r :: l2) Hbs) as [Hn1 _].
  assert (Hne : ∀ b, b ∈ b1 :: b2 :: l1 → EntryToRestartSearch h ≠ b_node b).
  { intros b Hb Heq. apply (restart_not_in _ _ _ [b] Hbs Hr); [left; set_solver|].
    rewrite Heq. by left. }
  assert (Hhd : ∀ b, b ∈ bs → b_node b ≠ HeapAllocations h) by apply block_not_head.
  assert (Hloop : ∀ f x, loop (S (S f)) step (HeapAllocations h, x, b_node b1, NULL) s = Panic).
  { intros f x.
    rewrite (loop_continue _ _ _ _ _ _ (step_behind_head _ x NULL _ (Hne b1 ltac:(set_solver)) Hn1)).
    rewrite loop_S. apply bind_Panic. apply step_panics;
      [apply Hne; set_solver|apply Hhd; rewrite Hbs; set_solver..]. }
  pose proof read_head as Hhead. rewrite Hbs in Hhead. cbn [app fmap list_fmap succ_of List.hd] in Hhead.
  assert (∃ f, fuel = S (S (S (S f)))) as [f Hfe] by (exists (fuel - 4)%nat; lia). rewrite Hfe.
  destruct l2 as [|a [|? ?]]; [| |cbn in Hl2; lia]; cbn [fmap list_fmap succ_of List.hd].
  - mrun Hhead. apply bind_Panic, Hloop.
  - assert (Hbs' : bs = (b1 :: b2 :: l1 ++ [r]) ++ [a]) by (rewrite Hbs; cbn; by rewrite <-app_assoc).
    destruct (block_link _ _ _ Hbs') as [Hna _]. mrun Hna. apply bind_Panic.
    cbn [fmap list_fmap succ_of List.hd].
    assert (Hrh : EntryToRestartSearch h ≠ HeapAllocations h)
      by (rewrite Hr; apply Hhd; rewrite Hbs; set_solver).
    rewrite (loop_continue _ _ _ _ _ _ (step_at_head (b_node a) _ NULL _ Hrh Hhead)). apply Hloop.
Qed.

(** The search would begin at the last block or the last but one, behind at least two others,
    although the gaps taken together have room. *)
Definition stuck : Prop :=
  (∃ l1 r l2, restart_at l1 r l2 ∧ (2 <= length l1)%nat ∧ (length l2 <= 1)%nat)
  ∧ ¬ room (FreeAddress h) (heap_limit h - sizeof_HEAP_ENTRY) size (2 ^ k)
  ∧ size + 36 ≤ FreeAddress h - heap_start h - used bs.
Lemma heap_allocate_run :
  restart_live → (length bs + 2 < fuel)%nat →
  (∃ l1 l2 nb h' s', bs = l1 ++ l2 ∧ placed h s l1 l2 tag size k h' s' nb
     ∧ heap_allocate DEBUG fuel h size tag alignment s = Ret ((STATUS_SUCCESS, b_data nb, h'), s'))
  ∨ (full ∧ heap_allocate DEBUG fuel h size tag alignment s
       = Ret ((STATUS_HEAP_NO_MORE_MEMORY, NULL, h), s))
  ∨ (stuck ∧ heap_allocate DEBUG fuel h size tag alignment s = Panic).
Proof.
  intros Hlive Hf.
  assert (restart_ok ∨ ∃ l1 r l2, restart_at l1 r l2 ∧ (2 <= length l1)%nat ∧ (length l2 <= 1)%nat) as [Hok|Hst].
  { destruct Hlive as [Hr|(l1 & r & l2 & Hat)]; [by left; left|].
    destruct (decide (length l1 <= 1)%nat); [left; right; exists l1, r, l2; by split; [|left]|].
    destruct (decide (2 <= length l2)%nat); [left; right; exists l1, r, l2; by split; [|right]|].
    right. exists l1, r, l2. split; [done|lia]. }
  { destruct (heap_allocate_run_ok Hok Hf) as [?|?]; [by left|by right; left]. }
  destruct heap_free_numbers as [Hf1 _]. destruct (heap_numbers (FreeAddress h) Hf1) as [N1 N2].
  destruct (Z.le_gt_cases (b_end (new_block (FreeAddress h) tag size k)) (heap_limit h - sizeof_HEAP_ENTRY))
    as [Hfit|Hfull].
  { left. apply (room_new_block _ _ N1 N2) in Hfit.
    destruct (allocate_at_end Hfit) as (nb & h' & s' & ? & ?).
    exists bs, [], nb, h', s'. by rewrite app_nil_r. }
  assert (Hno : ¬ room (FreeAddress h) (heap_limit h - sizeof_HEAP_ENTRY) size (2 ^ k))
    by (rewrite (room_new_block _ _ N1 N2); lia).
  right. pose proof (allocate_in_gaps Hno) as Hgaps.
  destruct (Z.ltb_spec (FreeAddress h - heap_start h - used bs) (size + 36)) as [Hlt|Hge].
  { left. split; [split; [done|by apply nothing_small]|done]. }
  right. split; [by split|]. destruct Hst as (l1 & r & l2 & Hat & H1 & H2).
  apply (allocate_panics l1 r l2); [done..| |done|lia].
  destruct Hat as [Hbs _]. rewrite Hbs, length_app in Hf. cbn in Hf. lia.
Qed.

(** A request that is larger than any heap. *)
Lemma huge_request :
  restart_live → tag ≠ 0 → 2 ^ 32 ≤ size + 36 < 2 ^ 33 →
  full ∧ heap_allocate DEBUG fuel h size tag alignment s
    = Ret ((STATUS_HEAP_NO_MORE_MEMORY, NULL, h), s).
Proof.
  clear Hsz.
  intros Hok Htag0 Hhuge. destruct heap_free_numbers as [Hf1 Hf2].
  pose proof (hi_max _ _ _ Hinv) as Hmax. pose proof (hi_remaining _ _ _ Hinv) as Hrem.
  pose proof (used_nonneg _ (hi_sane _ _ _ Hinv)) as Hused.
  unfold heap_limit, heap_start, sizeof_HEAP_HEADER in *. split.
  - split; [intros (a & Ha & _ & Hhi)|apply nothing_small; [done|]];
      unfold heap_limit, heap_start, sizeof_HEAP_ENTRY, sizeof_HEAP_TAIL, sizeof_HEAP_HEADER in *; lia.
  - unfold heap_allocate. rewrite (proj2 (Z.eqb_neq 0 size)), (proj2 (Z.eqb_neq 0 tag)) by lia.
    unfold sizeof_HEAP_ENTRY, sizeof_HEAP_TAIL in *. rewrite (u64_id (size + _ + _)) by lia.
    by rewrite (proj2 (Z.ltb_lt _ _)) by lia.
Qed.
End Search.

(** ** Filling memory *)
Definition after_memset s (p v n : Z) : St :=
  set_nodes (map_imap (memset_node p v n) (get_nodes s))
    (set_bytes (store (get_bytes s) p (replicate (Z.to_nat n) v)) s).
Lemma heap_memset_run s p v n :
  p ≠ NULL → 0 ≤ n → mapped (get_bytes s) p n → heap_memset p v n s = Ret (tt, after_memset s p v n).
Proof.
  intros Hp Hn Hm. unfold heap_memset. mrun (cl_memset_run _ _ v _ Hp Hn Hm).
  unfold modify, after_memset. by rewrite nodes_set_bytes.
Qed.
Lemma after_memset_frame s p v n : 0 ≤ n → bytes_frame p (p + n) (get_bytes s) (get_bytes (after_memset s p v n)).
Proof.
  intros Hn. unfold after_memset. rewrite bytes_set_nodes, get_set_bytes.
  apply bytes_frame_store; [lia|]. rewrite length_replicate. lia.
Qed.
Lemma after_memset_node s p v n q :
  get_nodes (after_memset s p v n) !! q = get_nodes s !! q ≫= memset_node p v n q.
Proof. unfold after_memset. by rewrite get_set_nodes, map_lookup_imap. Qed.
Lemma after_memset_node_out s p v n q :
  q < p ∨ p + n < q + 16 → get_nodes (after_memset s p v n) !! q = get_nodes s !! q.
Proof.
  intros Hq. rewrite after_memset_node. destruct (get_nodes s !! q) as [e|]; [|done]. simpl.
  unfold memset_node. destruct (Z.leb_spec p q), (Z.leb_spec (q + 16) (p + n)); try done. lia.
Qed.
Lemma after_memset_node_some s p v n q :
  is_Some (get_nodes (after_memset s p v n) !! q) ↔ is_Some (get_nodes s !! q).
Proof. rewrite after_memset_node. by destruct (get_nodes s !! q). Qed.

(** Two blocks of a heap are apart. *)
Lemma blocks_apart lo l1 b l2 c :
  ordered lo (l1 ++ b :: l2) → Forall block_sane (l1 ++ b :: l2) → c ∈ l1 ++ l2 →
  b_end c ≤ b_at b ∨ b_end b ≤ b_at c.
Proof.
  intros Ho Hs Hc. apply ordered_app in Ho as (Ho1 & Hb & Ho2). apply Forall_app in Hs as [Hs1 Hs2].
  apply Forall_cons in Hs2 as [_ Hs2]. apply elem_of_app in Hc as [Hc|Hc]; [left|right].
  - destruct (ordered_in _ _ _ Ho1 Hs1 Hc). lia.
  - by destruct (ordered_in _ _ _ Ho2 Hs2 Hc).
Qed.

(** The ring of the allocations lies outside what is written at [p], when that is no part of
    the header and of no other block, and behind the list entry of the block [b]. *)
Lemma ring_outside h s l1 b l2 p :
  heap_inv h s (l1 ++ b :: l2) → b_at b ≤ p →
  ∀ q, q ∈ HeapAllocations h :: (b_node <$> l1 ++ l2) ∨ (q = b_node b ∧ b_data b ≤ p) →
  q < p ∨ b_end b ≤ q.
Proof.
  intros Hi Hp q Hq. destruct (heap_inv_bounds _ _ _ b Hi) as (B1 & _); [set_solver|].
  destruct Hq as [[->|(c & -> & Hc)%list_elem_of_fmap]%elem_of_cons|[-> Hq]].
  - unfold HeapAllocations, heap_start, sizeof_HEAP_HEADER in *. lia.
  - destruct (blocks_apart _ _ _ _ _ (hi_order _ _ _ Hi) (hi_sane _ _ _ Hi) Hc) as [Hd|Hd].
    + destruct (heap_inv_bounds _ _ _ c Hi) as (_ & _ & Hcs & _); [set_solver|].
      unfold b_end, b_node, Entry_ListEntry, block_sane, sizeof_HEAP_ENTRY, sizeof_HEAP_TAIL in *. lia.
    + unfold b_node, Entry_ListEntry. lia.
  - unfold b_node, Entry_ListEntry, b_data, sizeof_HEAP_ENTRY in *. lia.
Qed.

(** Filling the data of a block keeps the heap. *)
Lemma heap_inv_fill h s l1 b l2 v :
  heap_inv h s (l1 ++ b :: l2) →
  heap_inv h (after_memset s (b_data b) v (b_size b)) (l1 ++ b :: l2).
Proof.
  intros Hi. assert (Hb : b ∈ l1 ++ b :: l2) by set_solver.
  destruct (heap_inv_bounds _ _ _ b Hi Hb) as (B1 & B2 & Bs & _).
  pose proof (after_memset_frame s (b_data b) v (b_size b) ltac:(unfold block_sane in Bs; lia)) as Hfr.
  assert (Hout : ∀ q, q ∈ HeapAllocations h :: (b_node <$> l1 ++ b :: l2) →
    get_nodes (after_memset s (b_data b) v (b_size b)) !! q = get_nodes s !! q).
  { intros q Hq. apply after_memset_node_out.
    destruct (ring_outside h s l1 b l2 (b_data b) Hi) with (q := q);
      [unfold b_data, sizeof_HEAP_ENTRY; lia| |by left|].
    - rewrite elem_of_cons, fmap_app, fmap_cons, elem_of_app, elem_of_cons in Hq.
      rewrite elem_of_cons, fmap_app, elem_of_app. destruct Hq as [?|[?|[->|?]]];
        [auto|auto|right; split; [done|lia]|auto].
    - unfold b_end, b_data in *. unfold sizeof_HEAP_TAIL in *. lia. }
  destruct Hi. split; try done.
  - destruct hi_ring0 as [Hnd Hc]. split; [done|]. apply (chain_frame (get_nodes s)); [done|..];
      intros q Hq; unfold flink, blink; by rewrite Hout.
  - rewrite Forall_forall. intros c Hc. pose proof (proj1 (Forall_forall _ _) hi_bytes0 c Hc) as Hcb.
    pose proof (proj1 (Forall_forall _ _) hi_sane0 c Hc) as Hcs.
    assert (c = b ∨ c ∈ l1 ++ l2) as [->|Hc'] by (rewrite elem_of_app, elem_of_cons in Hc; rewrite elem_of_app; tauto).
    + unfold block_bytes, b_data, Entry_Magic, Entry_Tag, Entry_Size, Entry_Offset, sizeof_HEAP_ENTRY in *.
      destruct Hcb as (H1 & H2 & H3 & H4 & H5).
      split_and!; (eapply bytes_frame_word; [exact Hfr| |eassumption]); lia.
    + destruct (blocks_apart _ _ _ _ _ hi_order0 hi_sane0 Hc');
        (eapply bytes_frame_block; [exact Hfr|done| |done]);
        unfold b_data, b_end, sizeof_HEAP_ENTRY, sizeof_HEAP_TAIL in *; lia.
  - by eapply bytes_frame_mapped.
  - intros q Hq. apply after_memset_node_some. by apply hi_nodes0.
Qed.

Lemma status_failed : SUCCEEDED STATUS_HEAP_NO_MORE_MEMORY = false
  ∧ SUCCEEDED STATUS_INVALID_PARAMETER2 = false ∧ SUCCEEDED STATUS_INVALID_PARAMETER3 = false.
Proof. done. Qed.

(** When the __try block fails. *)
Lemma allocate_fails h s Flags size tag alignment status :
  SUCCEEDED status = false →
  heap_allocate DEBUG fuel h size tag alignment s = Ret ((status, NULL, h), s) →
  ClHeapAllocatePoolWithTag DEBUG fuel h Flags size tag alignment s
  = if IsFlagOn Flags PoolAllocatePanicIfFail then Panic else Ret ((NULL, h), s).
Proof.
  intros Hst Hrun. unfold ClHeapAllocatePoolWithTag. mrun Hrun. rewrite Hst.
  by destruct (IsFlagOn Flags PoolAllocatePanicIfFail).
Qed.

(** When it succeeds: the data is zeroed if the caller asks for it. *)
Lemma allocate_succeeds h s l1 l2 b h' s' Flags size tag alignment k :
  heap_allocate DEBUG fuel h size tag alignment s = Ret ((STATUS_SUCCESS, b_data b, h'), s') →
  placed h s l1 l2 tag size k h' s' b →
  ∃ s'', ClHeapAllocatePoolWithTag DEBUG fuel h Flags size tag alignment s = Ret ((b_data b, h'), s'')
    ∧ placed h s l1 l2 tag size k h' s'' b
    ∧ (IsFlagOn Flags PoolAllocateZeroMemory = true →
       bytes_at (get_bytes s'') (b_data b) (replicate (Z.to_nat size) 0)).
Proof.
  intros Hrun Hpl. pose proof (pl_inv _ _ _ _ _ _ _ _ _ _ Hpl) as Hi.
  destruct (heap_inv_bounds _ _ _ b Hi) as (B1 & B2 & Bs & _ & _ & B3); [set_solver|].
  assert (Hsz : b_size b = size) by apply Hpl.
  assert (Hp : b_data b ≠ NULL) by (unfold b_data, sizeof_HEAP_ENTRY, NULL; lia).
  unfold ClHeapAllocatePoolWithTag. mrun Hrun.
  assert (Hchk : (if IsFlagOn Flags PoolAllocatePanicIfFail
    then ASSERT (SUCCEEDED STATUS_SUCCESS);; ASSERT (negb (NULL =? b_data b)) else mret tt) s'
    = Ret (tt, s')).
  { destruct (IsFlagOn Flags PoolAllocatePanicIfFail); [|done]. massert ltac:(done).
    apply ASSERT_true, negb_true_iff, Z.eqb_neq. congruence. }
  mrun Hchk. destruct (IsFlagOn Flags PoolAllocateZeroMemory); [|by exists s'].
  change (SUCCEEDED STATUS_SUCCESS) with true. cbn [andb].
  pose proof (hi_fits _ _ _ Hi) as Hfits. pose proof (hi_mapped _ _ _ Hi) as Hm.
  erewrite bind_Ret; cycle 1.
  { apply heap_memset_run; [done|unfold block_sane in Bs; lia|].
    eapply mapped_sub; [exact Hm|..]; unfold heap_start, heap_limit, b_end, b_data,
      sizeof_HEAP_ENTRY, sizeof_HEAP_HEADER, sizeof_HEAP_TAIL in *; lia. }
  eexists. split; [reflexivity|]. rewrite <-Hsz. unfold block_sane in Bs.
  pose proof (after_memset_frame s' (b_data b) 0 (b_size b) ltac:(lia)) as [Hfr1 Hfr2].
  split.
  - destruct Hpl as [? ? ? _ ? [Hf1 Hf2] Hn ?]. split; try done.
    + by apply heap_inv_fill.
    + split; [|naive_solver]. intros q Hq.
      rewrite Hfr1 by (unfold b_end, b_data, sizeof_HEAP_TAIL, sizeof_HEAP_ENTRY in *; lia). by apply Hf1.
    + intros q Hq Hr. rewrite after_memset_node_out by
        (unfold b_end, b_data, sizeof_HEAP_TAIL, sizeof_HEAP_ENTRY in *; lia). by apply Hn.
  - intros _. unfold after_memset. rewrite bytes_set_nodes, get_set_bytes.
    rewrite <-(map_u8_id (replicate _ 0)) at 2 by (apply Forall_replicate; unfold byte_ok; lia).
    apply store_at.
Qed.

Lemma ClHeapAllocatePoolWithTag_run h s bs Flags size tag alignment k :
  heap_inv h s bs → restart_live h bs → (length bs + 2 < fuel)%nat →
  0 ≤ k < 32 → (if 0 =? alignment then HEAP_DEFAULT_ALIGNMENT else alignment) = 2 ^ k →
  0 ≤ size < 2 ^ 32 → 0 ≤ tag < 2 ^ 32 →
  (∃ l1 l2 b h' s', bs = l1 ++ l2
     ∧ ClHeapAllocatePoolWithTag DEBUG fuel h Flags size tag alignment s = Ret ((b_data b, h'), s')
     ∧ placed h s l1 l2 tag size k h' s' b
     ∧ (IsFlagOn Flags PoolAllocateZeroMemory = true →
        bytes_at (get_bytes s') (b_data b) (replicate (Z.to_nat size) 0)))
  ∨ ((size = 0 ∨ tag = 0 ∨ full h bs size k)
     ∧ ClHeapAllocatePoolWithTag DEBUG fuel h Flags size tag alignment s
       = if IsFlagOn Flags PoolAllocatePanicIfFail then Panic else Ret ((NULL, h), s))
  ∨ (stuck h bs size k ∧ ClHeapAllocatePoolWithTag DEBUG fuel h Flags size tag alignment s = Panic).
Proof.
  intros Hi Hok Hf Hk Hal Hsize Htag. destruct status_failed as (F1 & F2 & F3).
  destruct (Z.eq_dec size 0) as [->|Hsize0].
  { right; left. split; [by left|]. by apply (allocate_fails _ _ _ _ _ _ STATUS_INVALID_PARAMETER2). }
  destruct (Z.eq_dec tag 0) as [->|Htag0].
  { right; left. split; [by right; left|]. apply (allocate_fails _ _ _ _ _ _ STATUS_INVALID_PARAMETER3); [done|].
    unfold heap_allocate. by rewrite (proj2 (Z.eqb_neq 0 size)) by lia. }
  destruct (Z.lt_ge_cases (size + 36) (2 ^ 32)) as [Hsz|Hsz].
  - destruct (heap_allocate_run h s bs tag size k Hi Hk ltac:(lia) Hsz ltac:(lia) alignment Hal Hok Hf)
      as [(l1 & l2 & b & h' & s' & Hbs & Hpl & Hrun)|[[Hfull Hrun]|[Hst Hrun]]].
    + left. destruct (allocate_succeeds _ _ _ _ _ _ _ Flags _ _ _ _ Hrun Hpl) as (s'' & ? & ? & ?).
      by exists l1, l2, b, h', s''.
    + right; left. split; [by right; right|]. by apply (allocate_fails _ _ _ _ _ _ _ F1).
    + right; right. split; [done|]. unfold ClHeapAllocatePoolWithTag. by apply bind_Panic.
  - right; left. destruct (huge_request h s bs tag size k Hi Hk ltac:(lia) ltac:(lia) alignment Hok Htag0 ltac:(lia)) as [Hfull Hrun].
    split; [by right; right|]. by apply (allocate_fails _ _ _ _ _ _ _ F1).
Qed.

(** ** Releasing a block *)
Lemma previous_end h s l1 b l2 :
  heap_inv h s (l1 ++ b :: l2) →
  let p := pred_of (HeapAllocations h) (b_node <$> l1) in
  (if (HeapAllocations h =? p) || (NULL =? p)
   then mret (u64 (BaseAddress h + sizeof_HEAP_HEADER))
   else prevSize ← read_dword (Entry_Size (HEAP_ENTRY_of p));
        mret (u64 (HEAP_ENTRY_of p + sizeof_HEAP_ENTRY + prevSize + sizeof_HEAP_TAIL))) s
  = Ret (end_of (heap_start h) l1, s).
Proof.
  intros Hi p. pose proof (hi_top _ _ _ Hi) as Ht. pose proof (hi_base _ _ _ Hi) as Hbase.
  pose proof (hi_fits _ _ _ Hi) as Hfits. pose proof (hi_max _ _ _ Hi) as Hmax. unfold p.
  destruct l1 as [|z l1 _] using rev_ind.
  - unfold pred_of. cbn [fmap list_fmap List.last]. rewrite Z.eqb_refl. cbn [orb].
    rewrite u64_id; [done|].
    unfold heap_limit, sizeof_HEAP_HEADER, HEAP_MINIMUM_SIZE, KB_SIZE in *. lia.
  - rewrite fmap_app. cbn [fmap list_fmap]. rewrite pred_of_snoc, end_of_snoc. rewrite <-app_assoc in Hi. cbn [app] in Hi.
    destruct (block_link h s _ Hi l1 z (b :: l2) eq_refl) as [_ Hz]. rewrite Z.eqb_sym in Hz. rewrite Hz.
    destruct (heap_inv_bounds _ _ _ z Hi) as (B1 & B2 & Bs & _ & _ & B3); [set_solver|].
    rewrite (proj2 (Z.eqb_neq NULL _)) by (unfold b_node, Entry_ListEntry, NULL; lia). cbn [orb].
    rewrite entry_of_node. mrun (read_block_size h s _ Hi z ltac:(set_solver)).
    change (b_at z + _ + _ + _) with (b_end z). rewrite u64_id; [done|].
    unfold b_end, block_sane, sizeof_HEAP_ENTRY, sizeof_HEAP_TAIL in *. lia.
Qed.

(** Without the block the rest is a heap again, whatever the memory of the block holds. *)
Lemma heap_inv_remove h h' s s' l1 b l2 :
  heap_inv h s (l1 ++ b :: l2) → same_heap h h' →
  bytes_frame (b_at b) (b_end b) (get_bytes s) (get_bytes s') →
  dlist (get_nodes s') (HeapAllocations h) (b_node <$> l1 ++ l2) →
  (∀ q, is_Some (get_nodes s' !! q) ↔ is_Some (get_nodes s !! q)) →
  HeapSizeRemaining h' = HeapSizeRemaining h + b_used b →
  HeapNumberOfAllocations h' = HeapNumberOfAllocations h - 1 →
  FreeAddress h' = (if b_end b =? FreeAddress h then end_of (heap_start h) l1 else FreeAddress h) →
  heap_inv h' s' (l1 ++ l2).
Proof.
  intros Hi [HB HM] Hfr Hring Hnodes Hrem Hcnt Hfree.
  assert (Hst : heap_start h' = heap_start h) by (unfold heap_start; by rewrite HB).
  assert (Hlim : heap_limit h' = heap_limit h) by (unfold heap_limit; by rewrite HB, HM).
  pose proof (hi_sane _ _ _ Hi) as Hs. pose proof (hi_order _ _ _ Hi) as Ho.
  pose proof Ho as (Ho1 & Hb & Ho2)%ordered_app.
  pose proof Hs as [Hs1 [Hsb Hs2]%Forall_cons]%Forall_app.
  pose proof (ordered_end _ _ Hs1 Ho1) as He1. pose proof (ordered_end _ _ Hs2 Ho2) as He2.
  assert (Hbe : b_at b ≤ b_end b) by (rewrite b_end_used; apply b_used_lower in Hsb;
    unfold sizeof_HEAP_ENTRY, sizeof_HEAP_TAIL in Hsb; lia).
  assert (Hend : FreeAddress h' = end_of (heap_start h) (l1 ++ l2)).
  { rewrite Hfree, (hi_free _ _ _ Hi), end_of_app_cons. destruct l2 as [|c l2].
    - by rewrite end_of_nil, Z.eqb_refl, app_nil_r.
    - rewrite (proj2 (Z.eqb_neq _ _)); [by rewrite end_of_app_cons, end_of_cons|].
      apply Forall_cons in Hs2 as [Hsc Hs2]. destruct Ho2 as [Hc Ho2].
      pose proof (ordered_end _ _ Hs2 Ho2). rewrite end_of_cons, (b_end_used c) in *.
      apply b_used_lower in Hsc. unfold sizeof_HEAP_ENTRY, sizeof_HEAP_TAIL in *. lia. }
  split.
  - rewrite HB. apply Hi.
  - rewrite HM. apply Hi.
  - rewrite Hlim. apply Hi.
  - unfold HeapAllocations. by rewrite HB.
  - rewrite Hst. apply ordered_app. split; [done|]. destruct l2 as [|c l2]; [done|].
    destruct Ho2 as [Hc Ho2]. split; [lia|done].
  - by rewrite Hst.
  - rewrite Hfree, Hlim. pose proof (hi_fits _ _ _ Hi) as Hf. rewrite (hi_free _ _ _ Hi), end_of_app_cons in *.
    destruct (b_end b =? _); lia.
  - by apply Forall_app.
  - rewrite Forall_forall. intros c Hc.
    destruct (heap_inv_bounds _ _ _ c Hi) as (_ & _ & Hcs & Hcb & _).
    { rewrite elem_of_app, elem_of_cons. apply elem_of_app in Hc. tauto. }
    eapply bytes_frame_block; [exact Hfr|done|by eapply blocks_apart|done].
  - rewrite Hrem, HM, (hi_remaining _ _ _ Hi), used_insert. lia.
  - rewrite Hcnt, (hi_count _ _ _ Hi), !length_app. cbn [length]. lia.
  - rewrite HB, HM. eapply bytes_frame_mapped; [exact Hfr|]. apply Hi.
  - intros q Hq. apply Hnodes. rewrite HB, Hlim in Hq. by apply (hi_nodes _ _ _ Hi).
Qed.

Lemma ClHeapFreePoolWithTag_run h s l1 b l2 tag :
  heap_inv h s (l1 ++ b :: l2) → tag ≠ 0 →
  if tag =? b_tag b then
    ∃ h' s', ClHeapFreePoolWithTag DEBUG h (b_data b) tag s = Ret (h', s')
      ∧ heap_inv h' s' (l1 ++ l2) ∧ same_heap h h'
      ∧ EntryToRestartSearch h' = EntryToRestartSearch h
      ∧ bytes_frame (b_at b) (b_end b) (get_bytes s) (get_bytes s')
      ∧ (∀ q, q < b_at b ∨ b_end b ≤ q → q ∉ HeapAllocations h :: (b_node <$> l1 ++ l2) →
           get_nodes s' !! q = get_nodes s !! q)
  else ClHeapFreePoolWithTag DEBUG h (b_data b) tag s = Panic.
Proof.
  intros Hi Ht. pose proof (hi_top _ _ _ Hi) as Htop. pose proof (hi_max _ _ _ Hi) as Hmax.
  pose proof (hi_fits _ _ _ Hi) as Hfits. pose proof (hi_base _ _ _ Hi) as Hbase.
  destruct (heap_inv_bounds _ _ _ b Hi) as (B1 & B2 & Bs & Bb & Bsz & B3); [set_solver|].
  pose proof Bs as [Bs1 Bs2].
  assert (Hat : b_data b - sizeof_HEAP_ENTRY = b_at b) by (unfold b_data; lia).
  pose proof (read_block_size h s _ Hi b ltac:(set_solver)) as Hsz.
  pose proof (_ValidateHeapEntry_run s b tag Bb Bs B3 Bsz Ht) as Hval.
  unfold ClHeapFreePoolWithTag. rewrite Hat.
  massert ltac:(apply negb_true_iff, Z.eqb_neq; unfold b_data, sizeof_HEAP_ENTRY, NULL; lia).
  massert ltac:(apply negb_true_iff, Z.eqb_neq; lia).
  destruct (tag =? b_tag b); [|mrun Hsz; by mrun Hval].
  mrun Hsz. mrun Hval. massert ltac:(done).
  pose proof (hi_ring _ _ _ Hi) as Hring. rewrite fmap_app, fmap_cons in Hring.
  destruct (dlist_member _ _ _ _ _ Hring) as [_ Hbl]. change (Entry_ListEntry (b_at b)) with (b_node b).
  mrun (read_Blink_ok _ _ _ Hbl). mrun (previous_end _ _ _ _ _ Hi).
  destruct (RemoveEntryList_run DEBUG s _ _ _ _ Hring) as (n' & Hrm & Hd' & Hnf).
  mrun Hrm. rewrite <-fmap_app in Hd', Hnf.
  erewrite bind_Ret; cycle 1.
  { apply read_dword_run; [|instantiate (1 := b_size b); lia]. rewrite bytes_set_nodes. apply Bb. }
  cbn beta iota. replace (b_size b + sizeof_HEAP_ENTRY + sizeof_HEAP_TAIL) with (b_used b) by (unfold b_used; lia).
  assert (Hu : 36 < b_used b < 2 ^ 32)
    by (unfold b_used, sizeof_HEAP_ENTRY, sizeof_HEAP_TAIL; lia).
  massert ltac:(apply Z.leb_le; unfold MAX_DWORD; lia).
  pose proof (b_end_used b) as Hend.
  erewrite bind_Ret; cycle 1.
  { apply heap_memset_run; [unfold NULL; lia|lia|]. rewrite bytes_set_nodes.
    eapply mapped_sub; [apply (hi_mapped _ _ _ Hi)|..]; unfold heap_limit, heap_start, sizeof_HEAP_HEADER in *; lia. }
  cbn beta iota. set (s' := after_memset _ _ _ _).
  assert (Hfr : bytes_frame (b_at b) (b_end b) (get_bytes s) (get_bytes s')).
  { rewrite Hend, <-(bytes_set_nodes n' s). apply after_memset_frame. lia. }
  assert (Hring' : ∀ q, q ∈ HeapAllocations h :: (b_node <$> l1 ++ l2) → get_nodes s' !! q = n' !! q).
  { intros q Hq. unfold s'. rewrite after_memset_node_out, get_set_nodes; [done|].
    rewrite <-Hend. destruct (ring_outside h s l1 b l2 (b_at b) Hi ltac:(lia) q (or_introl Hq)); lia. }
  replace (b_data b + b_size b + sizeof_HEAP_TAIL) with (b_end b) by (unfold b_data, b_end; lia).
  rewrite (u64_id (b_end b)) by lia. cbn [FreeAddress with_usage].
  pose proof (hi_remaining _ _ _ Hi) as Hrem. pose proof (hi_count _ _ _ Hi) as Hcnt.
  pose proof (used_nonneg _ (hi_sane _ _ _ Hi)). rewrite used_insert in Hrem.
  pose proof (used_lower _ (hi_sane _ _ _ Hi)) as Hlen. rewrite used_insert in Hlen.
  destruct heap_free_numbers with (1 := Hi) as [_ Hspan]. rewrite used_insert in Hspan.
  assert (0 ≤ used (l1 ++ l2)).
  { apply used_nonneg. pose proof (hi_sane _ _ _ Hi) as Hs. apply Forall_app in Hs as [? Hs].
    apply Forall_cons in Hs as [_ ?]. by apply Forall_app. }
  assert (1 ≤ HeapNumberOfAllocations h) by (rewrite Hcnt, length_app; cbn [length]; lia).
  eexists _, s'. split; [reflexivity|]. split_and!.
  - unfold heap_limit, heap_start, sizeof_HEAP_HEADER in *.
    eapply heap_inv_remove; [exact Hi|by destruct (_ =? _)|done| | |destruct (_ =? _); cbn; rewrite u64_id; lia..|by destruct (_ =? _)].
    + destruct Hd' as [Hnd Hc]. split; [done|]. apply (chain_frame n'); [done|..];
        intros q Hq; unfold flink, blink; by rewrite Hring'.
    + intros q. unfold s'. rewrite after_memset_node_some, get_set_nodes. apply Hnf.
  - by destruct (_ =? _).
  - by destruct (_ =? _).
  - done.
  - intros q Hq Hout. unfold s'. rewrite after_memset_node_out, get_set_nodes; [by apply Hnf|].
    rewrite Hend in Hq. lia.
Qed.

(** ** A heap that has just been initialised *)
Lemma ClHeapInit_run s base avail hdr :
  0 < base → HEAP_MINIMUM_SIZE ≤ avail ≤ 2 ^ 32 → base + avail + 2 ^ 34 ≤ 2 ^ 64 →
  mapped (get_bytes s) base avail → (∀ q, base ≤ q < base + avail → is_Some (get_nodes s !! q)) →
  ∃ h s', ClHeapInit base avail (Some hdr) s = Ret ((STATUS_SUCCESS, Some h), s')
    ∧ heap_inv h s' [] ∧ restart_live h [] ∧ BaseAddress h = base ∧ HeapSizeMaximum h = avail.
Proof.
  intros Hb Ha Ht Hm Hn. unfold ClHeapInit. unfold HEAP_MINIMUM_SIZE, KB_SIZE in *.
  rewrite (proj2 (Z.eqb_neq base NULL)) by (unfold NULL; lia). rewrite (proj2 (Z.ltb_ge avail _)) by lia.
  unfold sizeof_HEAP_HEADER. rewrite !u64_id by lia. set (h := mkHeap _ _ _ _ _ _ _).
  destruct (InitializeListHead_run s (HeapAllocations h)) as (n' & Hrun & Hd & Hnf).
  { apply Hn. unfold HeapAllocations. cbn. lia. }
  mrun Hrun. eexists h, _. split; [reflexivity|]. split_and!; [|by left|done..].
  split; unfold heap_limit; cbn; try done; try lia.
  - by rewrite get_set_nodes.
  - unfold sizeof_HEAP_HEADER. lia.
  - by rewrite bytes_set_nodes.
  - intros q Hq. rewrite get_set_nodes. apply Hnf. by apply Hn.
Qed.

(** * What the allocator promises *)
(** The search for a gap begins at the head of the list or at a block: so it is in a new heap
    (ClHeapInit_run), after an allocation (below), and after a release of any other block. *)
Lemma restart_live_release h h' l1 b l2 :
  restart_live h (l1 ++ b :: l2) → EntryToRestartSearch h ≠ b_node b → same_heap h h' →
  EntryToRestartSearch h' = EntryToRestartSearch h → restart_live h' (l1 ++ l2).
Proof.
  intros [Hr|(x1 & r & x2 & Hbs & Hr)] Hne [HB _] Hre; [left|right].
  { rewrite Hre, Hr. unfold HeapAllocations. by rewrite HB. }
  assert (r ∈ l1 ++ b :: l2) as Hin by (rewrite Hbs; set_solver).
  assert (r ∈ l1 ++ l2) as (y1 & y2 & ->)%list_elem_of_split.
  { rewrite elem_of_app, elem_of_cons in Hin. rewrite elem_of_app. destruct Hin as [?|[->|?]]; [by left|done|by right]. }
  exists y1, r, y2. split; [done|congruence].
Qed.
Lemma restart_live_placed h s l1 l2 tag size k h' s' b :
  restart_live h (l1 ++ l2) → placed h s l1 l2 tag size k h' s' b → restart_live h' (l1 ++ b :: l2).
Proof.
  intros Hlive Hpl. pose proof (pl_restart _ _ _ _ _ _ _ _ _ _ Hpl) as Hre. destruct (pl_same _ _ _ _ _ _ _ _ _ _ Hpl) as [HB _].
  destruct l2 as [|c l2]; [|right; by exists l1, b, (c :: l2)]. rewrite app_nil_r in Hlive.
  destruct Hlive as [Hr|(x1 & r & x2 & Hbs & Hr)]; [left|right].
  - rewrite Hre, Hr. unfold HeapAllocations. by rewrite HB.
  - exists x1, r, (x2 ++ [b]). split; [by rewrite Hbs, <-app_assoc|congruence].
Qed.

(** C8: ClHeapAllocatePoolWithTag, on a well-formed heap whose EntryToRestartSearch is the head of
    the list or one of the blocks, does one of three things. It returns the aligned data of a new
    block, which lies between two blocks of the heap or behind the last one, inside the heap and
    apart from all other blocks, is zeroed on request and is entered in the list and the counters
    of the header, while nothing outside the block changes; EntryToRestartSearch is again the
    head or a block. Or it returns NULL (a panic, if the caller asked for it), with the heap
    unchanged, because the size or the tag is zero or no place it looks at has room for the
    block. Or an assertion fails, which happens only when there is no room behind the last block, the gaps
    taken together are as large as the block, and EntryToRestartSearch is the last block or the
    last but one, with two or more before it. Releasing keeps the condition on
    EntryToRestartSearch unless it is the block that is released. *)
Theorem ClHeapAllocatePoolWithTag_allocates h s bs Flags size tag alignment k :
  heap_inv h s bs → restart_live h bs → (length bs + 2 < fuel)%nat →
  0 ≤ k < 32 → (if 0 =? alignment then HEAP_DEFAULT_ALIGNMENT else alignment) = 2 ^ k →
  0 ≤ size < 2 ^ 32 → 0 ≤ tag < 2 ^ 32 →
  (∃ l1 l2 b h' s', bs = l1 ++ l2
     ∧ ClHeapAllocatePoolWithTag DEBUG fuel h Flags size tag alignment s = Ret ((b_data b, h'), s')
     ∧ placed h s l1 l2 tag size k h' s' b
     ∧ (IsFlagOn Flags PoolAllocateZeroMemory = true →
        bytes_at (get_bytes s') (b_data b) (replicate (Z.to_nat size) 0))
     ∧ restart_live h' (l1 ++ b :: l2))
  ∨ ((size = 0 ∨ tag = 0 ∨ full h bs size k)
     ∧ ClHeapAllocatePoolWithTag DEBUG fuel h Flags size tag alignment s
       = if IsFlagOn Flags PoolAllocatePanicIfFail then Panic else Ret ((NULL, h), s))
  ∨ (stuck h bs size k ∧ ClHeapAllocatePoolWithTag DEBUG fuel h Flags size tag alignment s = Panic).
Proof.
  intros Hi Hlive Hf Hk Hal Hsize Htag.
  destruct (ClHeapAllocatePoolWithTag_run h s bs Flags size tag alignment k Hi Hlive Hf Hk Hal Hsize Htag)
    as [(l1 & l2 & b & h' & s' & Hbs & Hrun & Hpl & Hz)|Hno]; [left|by right].
  exists l1, l2, b, h', s'. split_and!; [done..|]. rewrite Hbs in Hlive. by eapply restart_live_placed.
Qed.

(** C12: ClHeapFreePoolWithTag releases exactly the block whose data the caller names: the rest is
    a well-formed heap without it, the counters and the end of the used part of the heap are
    those of that heap, and nothing outside the block and the links of the list changes. A wrong
    tag is a panic. *)
Theorem ClHeapFreePoolWithTag_frees h s l1 b l2 tag :
  heap_inv h s (l1 ++ b :: l2) → tag ≠ 0 →
  if tag =? b_tag b then
    ∃ h' s', ClHeapFreePoolWithTag DEBUG h (b_data b) tag s = Ret (h', s')
      ∧ heap_inv h' s' (l1 ++ l2) ∧ same_heap h h'
      ∧ EntryToRestartSearch h' = EntryToRestartSearch h
      ∧ bytes_frame (b_at b) (b_end b) (get_bytes s) (get_bytes s')
      ∧ (∀ q, q < b_at b ∨ b_end b ≤ q → q ∉ HeapAllocations h :: (b_node <$> l1 ++ l2) →
           get_nodes s' !! q = get_nodes s !! q)
  else ClHeapFreePoolWithTag DEBUG h (b_data b) tag s = Panic.
Proof. apply ClHeapFreePoolWithTag_run. Qed.

(** Releasing what was just allocated gives the heap back: the same blocks, and the counters
    and the end of the used part in the header as before the allocation. *)
Theorem heap_alloc_free_roundtrip h s bs Flags size tag alignment k p h1 s1 :
  heap_inv h s bs → restart_live h bs → (length bs + 2 < fuel)%nat →
  0 ≤ k < 32 → (if 0 =? alignment then HEAP_DEFAULT_ALIGNMENT else alignment) = 2 ^ k →
  0 ≤ size < 2 ^ 32 → 0 ≤ tag < 2 ^ 32 →
  ClHeapAllocatePoolWithTag DEBUG fuel h Flags size tag alignment s = Ret ((p, h1), s1) → p ≠ NULL →
  ∃ h2 s2, ClHeapFreePoolWithTag DEBUG h1 p tag s1 = Ret (h2, s2) ∧ heap_inv h2 s2 bs
    ∧ HeapSizeRemaining h2 = HeapSizeRemaining h ∧ FreeAddress h2 = FreeAddress h
    ∧ HeapNumberOfAllocations h2 = HeapNumberOfAllocations h.
Proof.
  intros Hi Hok Hf Hk Hal Hsize Htag Hrun Hp.
  destruct (ClHeapAllocatePoolWithTag_run h s bs Flags size tag alignment k Hi Hok Hf Hk Hal Hsize Htag)
    as [(l1 & l2 & b & h' & s' & Hbs & Ha & Hpl & _)|[[_ Ha]|[_ Ha]]]; rewrite Hrun in Ha;
    [|by destruct (IsFlagOn _ _); simplify_eq|done].
  simplify_eq. pose proof (pl_inv _ _ _ _ _ _ _ _ _ _ Hpl) as Hi'.
  destruct (heap_inv_bounds _ _ _ b Hi') as (_ & _ & [_ Hbt] & _); [set_solver|].
  pose proof (pl_tag _ _ _ _ _ _ _ _ _ _ Hpl) as Htg.
  pose proof (ClHeapFreePoolWithTag_run h' s' l1 b l2 tag Hi' ltac:(lia)) as Hfree.
  rewrite Htg, Z.eqb_refl in Hfree. destruct Hfree as (h2 & s2 & Hfree & Hi2 & Hsame2 & _).
  exists h2, s2. split; [done|]. split; [done|].
  destruct (pl_same _ _ _ _ _ _ _ _ _ _ Hpl) as [B1 M1]. destruct Hsame2 as [B2 M2].
  rewrite (hi_remaining _ _ _ Hi2), (hi_remaining _ _ _ Hi), (hi_free _ _ _ Hi2), (hi_free _ _ _ Hi),
    (hi_count _ _ _ Hi2), (hi_count _ _ _ Hi). unfold heap_start. by rewrite B2, B1, M2, M1.
Qed.
End Specs.

(** * A heap of 64 KB at 0x10000, its first block, and where the search asserts *)
Module HeapExample.
Record state := mkState { ex_nodes : gmap Z LIST_ENTRY; ex_bytes : gmap Z Z }.
#[export] Instance state_HasNodes : HasNodes state.
Proof.
  by refine {| get_nodes := ex_nodes; set_nodes n s := mkState n (ex_bytes s) |}; intros; destruct s.
Defined.
#[export] Instance state_HasBytes : HasBytes state.
Proof.
  by refine {| get_bytes := ex_bytes; set_bytes b s := mkState (ex_nodes s) b |}; intros; destruct s.
Defined.
#[export] Instance state_NodesBytes : NodesBytes state.
Proof. by split. Qed.

Definition range : gset Z := list_to_set (seqZ 0x10000 0x10000).
Definition memory : state := mkState (gset_to_gmap (mkLE 0 0) range) (gset_to_gmap 0 range).

Lemma in_range q : 0x10000 ≤ q < 0x10000 + 0x10000 → q ∈ range.
Proof. intros Hq. unfold range. by rewrite elem_of_list_to_set, elem_of_seqZ. Qed.

(** The heap after ClHeapInit. *)
Lemma fresh_heap : ∃ h s, ClHeapInit 0x10000 0x10000 (Some tt) memory = Ret ((STATUS_SUCCESS, Some h), s)
  ∧ heap_inv h s [] ∧ restart_live h [] ∧ BaseAddress h = 0x10000 ∧ HeapSizeMaximum h = 0x10000.
Proof.
  apply ClHeapInit_run; [lia|unfold HEAP_MINIMUM_SIZE, KB_SIZE; lia|lia|..].
  - intros q Hq. exists 0. apply lookup_gset_to_gmap_Some. by split; [apply in_range|].
  - intros q Hq. exists (mkLE 0 0). apply lookup_gset_to_gmap_Some. by split; [apply in_range|].
Qed.
Lemma fresh_not_stuck h size : ¬ stuck h [] size 4.
Proof. intros [(l1 & r & l2 & [Hbs _] & _) _]. by destruct l1. Qed.
Lemma fresh_room h s : heap_inv h s [] → BaseAddress h = 0x10000 → HeapSizeMaximum h = 0x10000 →
  ¬ full h [] 100 4.
Proof.
  intros Hi HB HM [Hno _]. apply Hno. pose proof (hi_free _ _ _ Hi) as Hf.
  exists (0x10000 + 0x80). rewrite Hf, end_of_nil. unfold heap_limit, heap_start, sizeof_HEAP_HEADER,
    sizeof_HEAP_HEADER, sizeof_HEAP_ENTRY, sizeof_HEAP_TAIL. rewrite HB, HM. split_and!; [lia|done|lia].
Qed.
(** A first allocation of 100 bytes, zeroed, in that heap. *)
Lemma first_block :
  ∃ h s b h' s', heap_inv h s [] ∧ restart_live h []
    ∧ ClHeapAllocatePoolWithTag true 10 h PoolAllocateZeroMemory 100 7 0 s = Ret ((b_data b, h'), s')
    ∧ placed h s [] [] 7 100 4 h' s' b ∧ b_data b ≠ NULL.
Proof.
  destruct fresh_heap as (h & s & _ & Hi & Hok & HB & HM).
  destruct (ClHeapAllocatePoolWithTag_run true 10 h s [] PoolAllocateZeroMemory 100 7 0 4)
    as [(l1 & l2 & b & h' & s' & Hbs & Hrun & Hpl & _)|[[[?|[?|Hfull]] _]|[Hst _]]];
    [done|done|cbn; lia|lia|done|lia|lia| |done|done|by destruct (fresh_room h s Hi HB HM)|by destruct (fresh_not_stuck h _ Hst)].
  destruct l1, l2; try done. exists h, s, b, h', s'. split_and!; [done..|].
  destruct (heap_inv_bounds _ _ _ b (pl_inv _ _ _ _ _ _ _ _ _ _ Hpl)) as (_ & _ & _ & _ & _ & ?);
    [by left|]. unfold b_data, sizeof_HEAP_ENTRY, NULL. lia.
Qed.

Lemma ClHeapAllocatePoolWithTag_allocates_witness :
  ∃ (h : HEAP_HEADER) (s : state) b h' s',
    ClHeapAllocatePoolWithTag true 10 h PoolAllocateZeroMemory 100 7 0 s = Ret ((b_data b, h'), s')
    ∧ b_data b mod 16 = 0 ∧ bytes_at (get_bytes s') (b_data b) (replicate 100 0).
Proof.
  destruct fresh_heap as (h & s & _ & Hi & Hok & HB & HM).
  destruct (ClHeapAllocatePoolWithTag_allocates true 10 h s [] PoolAllocateZeroMemory 100 7 0 4)
    as [(l1 & l2 & b & h' & s' & Hbs & Hrun & Hpl & Hz & _)|[[[?|[?|Hfull]] _]|[Hst _]]];
    [done|done|cbn; lia|lia|done|lia|lia| |done|done|by destruct (fresh_room h s Hi HB HM)|by destruct (fresh_not_stuck h _ Hst)].
  exists h, s, b, h', s'. split_and!; [done|exact (pl_aligned _ _ _ _ _ _ _ _ _ _ Hpl)|by apply Hz].
Defined.
Lemma ClHeapFreePoolWithTag_frees_witness :
  ∃ (h : HEAP_HEADER) (s : state) p h' s',
    ClHeapFreePoolWithTag true h p 7 s = Ret (h', s') ∧ heap_inv h' s' []
    ∧ ClHeapFreePoolWithTag true h p 8 s = Panic.
Proof.
  destruct first_block as (h & s & b & h' & s' & Hi & Hok & Hrun & Hpl & Hp).
  pose proof (pl_inv _ _ _ _ _ _ _ _ _ _ Hpl) as Hi'. pose proof (pl_tag _ _ _ _ _ _ _ _ _ _ Hpl) as Ht.
  pose proof (ClHeapFreePoolWithTag_frees true h' s' [] b [] 7 Hi' ltac:(done)) as H7.
  pose proof (ClHeapFreePoolWithTag_frees true h' s' [] b [] 8 Hi' ltac:(done)) as H8.
  rewrite Ht in H7, H8. destruct H7 as (h2 & s2 & Hr & Hi2 & _).
  exists h', s', (b_data b), h2, s2. split_and!; [exact Hr|exact Hi2|exact H8].
Defined.
Lemma heap_alloc_free_roundtrip_witness :
  ∃ (h h2 : HEAP_HEADER) (s s2 : state), heap_inv h s [] ∧ heap_inv h2 s2 []
    ∧ HeapSizeRemaining h2 = HeapSizeRemaining h.
Proof.
  destruct first_block as (h & s & b & h' & s' & Hi & Hok & Hrun & Hpl & Hp).
  destruct (heap_alloc_free_roundtrip true 10 h s [] PoolAllocateZeroMemory 100 7 0 4 (b_data b) h' s')
    as (h2 & s2 & _ & Hi2 & Hr & _); [done|done|cbn; lia|lia|done|lia|lia|done|done|].
  exists h, h2, s, s2. by split_and!.
Defined.

(** Two blocks, a hole made by releasing a third, and a fourth that fills the heap: the first
    small allocation goes into the hole, the second one asserts although the rest of the hole
    has room for it (and would be found by a search from the head of the list). *)
Definition fill_and_reuse : M state HEAP_HEADER :=
  '(_, h) ← ClHeapInit 0x10000 0x10000 (Some tt);
  h ← from_option_fault h;
  '(_, h) ← ClHeapAllocatePoolWithTag true 10 h 0 100 7 0;
  '(_, h) ← ClHeapAllocatePoolWithTag true 10 h 0 100 7 0;
  '(p, h) ← ClHeapAllocatePoolWithTag true 10 h 0 2000 7 0;
  '(_, h) ← ClHeapAllocatePoolWithTag true 10 h 0 63000 7 0;
  h ← ClHeapFreePoolWithTag true h p 7;
  '(_, h) ← ClHeapAllocatePoolWithTag true 10 h 0 500 7 0;
  mret h.
Definition second_reuse (restart_at_head : bool) : M state Z :=
  h ← fill_and_reuse;
  '(p, _) ← ClHeapAllocatePoolWithTag true 10
    (if restart_at_head then with_Restart (HeapAllocations h) h else h) 0 500 7 0;
  mret p.
(** The parts of the region these calls touch. *)
Definition touched : state := mkState
  (foldr (λ i m, <[0x10000 + 8 * i := mkLE 0 0]> m) ∅ (seqZ 0 0x200))
  (foldr (λ q m, <[q := 0]> m) ∅ (seqZ 0x10000 0x1000 ++ seqZ 0x1F000 0x1000)).
Definition result {A} (o : outcome (A * state)) : outcome A :=
  match o with Ret (a, _) => Ret a | Panic => Panic | Fault => Fault | OutOfFuel => OutOfFuel end.
Lemma heap_search_asserts :
  result (second_reuse false touched) = Panic ∧ result (second_reuse true touched) = Ret 0x103B0.
Proof. vm_compute. split; reflexivity. Qed.
End HeapExample.
