(* ===== verification/RefCnt.v ===== *)
(** CommonLib/src/ref_cnt.c: reference counted objects.

    The count changes by interlocked operations only, so an execution on several
    CPUs is a sequence of RfcReference and RfcDereference calls; [rfc_run] runs
    such a sequence. *)
From S2P Require Import Prelude.

Record REF_COUNT := mkREF { ReferenceCount : Z; FreeFunction : Z; Context_ : Z }.
Definition REF_zero : REF_COUNT := mkREF 0 NULL NULL.

Section Ops.
Context {St : Type}.
(** The object, and what the function pointers do when they are called with the
    context. *)
Variables (Object : lens St REF_COUNT) (call : Z → Z → M St unit).

Definition RfcPreInit : M St unit := lwrite Object REF_zero.

Definition RfcInit (NonNull : bool) (FreeFunction_ Context : Z) : M St Z :=
  if negb NonNull then mret STATUS_INVALID_PARAMETER1 else
  lwrite Object (mkREF 1 FreeFunction_ Context);;
  mret STATUS_SUCCESS.

(** _InterlockedIncrement and _InterlockedDecrement: the new value. *)
Definition add_count (d : Z) : M St Z :=
  lupdate Object (λ r, let c := u32 (ReferenceCount r + d) in
    (c, mkREF c (FreeFunction r) (Context_ r))).

Definition RfcReference : M St Z :=
  newRefCount ← add_count 1;
  ASSERT (newRefCount <? MAX_DWORD);;
  ASSERT (1 <=? newRefCount);;
  mret newRefCount.

Definition RfcDereference : M St Z :=
  newRefCount ← add_count (-1);
  ASSERT (negb (MAX_DWORD =? newRefCount));;
  (if 0 =? newRefCount then
     f ← lreads Object FreeFunction;
     if negb (NULL =? f) then
       c ← lreads Object Context_;
       call f c
     else mret tt
   else mret tt);;
  mret newRefCount.

(** [true] takes a reference, [false] gives one back. *)
Fixpoint rfc_run (os : list bool) : M St (list Z) :=
  match os with
  | [] => mret []
  | o :: os' =>
      c ← (if (o : bool) then RfcReference else RfcDereference);
      cs ← rfc_run os';
      mret (c :: cs)
  end.
End Ops.

(** The count after each operation, as a mathematical integer. *)
Fixpoint rfc_counts (c : Z) (os : list bool) : list Z :=
  match os with
  | [] => []
  | o :: os' => let c' := if (o : bool) then c + 1 else c - 1 in c' :: rfc_counts c' os'
  end.
Definition rfc_final (c : Z) (os : list bool) : Z := default c (last (rfc_counts c os)).

(** Nobody uses the object without holding a reference. *)
Fixpoint rfc_disciplined (c : Z) (os : list bool) : Prop :=
  match os with
  | [] => True
  | o :: os' => 1 ≤ c ∧ (o = true → c + 1 < MAX_DWORD)
      ∧ rfc_disciplined (if (o : bool) then c + 1 else c - 1) os'
  end.

Section Specs.
Context {St : Type}.
Variables (Object : lens St REF_COUNT) (call : Z → Z → M St unit).
(** The free function records its calls and leaves the object's fields alone. *)
Variables (freed : St → list Z).
Hypothesis freed_lset : ∀ r s, freed (lset Object r s) = freed s.
Hypothesis call_frees : ∀ f c s, ∃ s', call f c s = Ret (tt, s')
  ∧ freed s' = freed s ++ [c] ∧ lget Object s' = lget Object s.

Lemma add_count_run s d r :
  lget Object s = r → 0 ≤ ReferenceCount r + d < 2 ^ 32 →
  add_count Object d s = Ret (ReferenceCount r + d,
    lset Object (mkREF (ReferenceCount r + d) (FreeFunction r) (Context_ r)) s).
Proof.
  intros <- Hb. unfold add_count, lupdate. unfold u32. by rewrite Z.mod_small by lia.
Qed.

Lemma RfcReference_run s c f x :
  lget Object s = mkREF c f x → 1 ≤ c → c + 1 < MAX_DWORD →
  RfcReference Object s = Ret (c + 1, lset Object (mkREF (c + 1) f x) s).
Proof.
  intros Hs H1 H2. unfold MAX_DWORD in *. unfold RfcReference.
  mrun (add_count_run s 1 _ Hs ltac:(simpl; lia)). cbn [ReferenceCount FreeFunction Context_].
  massert ltac:(apply Z.ltb_lt; unfold MAX_DWORD; lia). by massert ltac:(apply Z.leb_le; lia).
Qed.
Lemma RfcDereference_run s c f x :
  lget Object s = mkREF c f x → f ≠ NULL → 1 ≤ c < MAX_DWORD →
  ∃ s', RfcDereference Object call s = Ret (c - 1, s') ∧ lget Object s' = mkREF (c - 1) f x
    ∧ freed s' = freed s ++ (if decide (c = 1) then [x] else []).
Proof.
  intros Hs Hf Hc. unfold MAX_DWORD in *. unfold RfcDereference.
  mrun (add_count_run s (-1) _ Hs ltac:(simpl; lia)). cbn [ReferenceCount FreeFunction Context_].
  replace (c + -1) with (c - 1) by lia. set (s1 := lset Object _ s).
  assert (Hs1 : lget Object s1 = mkREF (c - 1) f x) by (unfold s1; by rewrite lget_lset).
  assert (Hf1 : freed s1 = freed s) by apply freed_lset.
  massert ltac:(apply negb_true_iff, Z.eqb_neq; unfold MAX_DWORD; lia).
  destruct (decide (c = 1)) as [->|Hne].
  - change (0 =? 1 - 1) with true. cbn iota.
    rewrite bind_assoc. mrun (lreads_run Object FreeFunction s1). rewrite Hs1. cbn [FreeFunction].
    rewrite (proj2 (Z.eqb_neq NULL f)) by congruence. cbn [negb].
    rewrite bind_assoc. mrun (lreads_run Object Context_ s1). rewrite Hs1. cbn [Context_].
    destruct (call_frees f x s1) as (s2 & Hr2 & Hf2 & Hl2). mrun Hr2. exists s2.
    split_and!; [done|congruence|congruence].
  - rewrite (proj2 (Z.eqb_neq 0 (c - 1))) by lia. erewrite bind_Ret by done. exists s1.
    split_and!; [done|done|by rewrite app_nil_r].
Qed.

Lemma rfc_final_cons c o os :
  rfc_final c (o :: os) = rfc_final (if (o : bool) then c + 1 else c - 1) os.
Proof. unfold rfc_final. cbn [rfc_counts]. rewrite last_cons. by destruct (last _). Qed.

Lemma rfc_run_counts os s c f x :
  lget Object s = mkREF c f x → f ≠ NULL → c < MAX_DWORD → rfc_disciplined c os →
  ∃ s', rfc_run Object call os s = Ret (rfc_counts c os, s')
    ∧ freed s' = freed s ++ (if decide (0 ∈ rfc_counts c os) then [x] else []).
Proof.
  revert s c. induction os as [|o os IH]; intros s c Hs Hf Hc Hd; simpl in *.
  { exists s. split; [done|by rewrite app_nil_r]. }
  destruct Hd as (H1 & H2 & Hd). destruct o.
  - mrun (RfcReference_run s c f x Hs H1 (H2 eq_refl)).
    destruct (IH (lset Object (mkREF (c + 1) f x) s) (c + 1)) as (s' & Hr & Hfr);
      [by rewrite lget_lset|done|by apply H2|done|].
    mrun Hr. exists s'. split; [done|]. rewrite Hfr, freed_lset. f_equal.
    destruct (decide (0 ∈ rfc_counts (c + 1) os)) as [Hin|Hin].
    + rewrite decide_True; [done|by right].
    + rewrite decide_False; [done|]. rewrite elem_of_cons. intros [?|?]; [lia|done].
  - destruct (RfcDereference_run s c f x Hs Hf ltac:(lia)) as (s1 & Hr1 & Hs1 & Hf1). mrun Hr1.
    destruct (IH s1 (c - 1)) as (s' & Hr & Hfr); [done|done|lia|done|].
    mrun Hr. exists s'. split; [done|]. rewrite Hfr, Hf1, <-app_assoc. f_equal.
    destruct (decide (c = 1)) as [->|Hne].
    + destruct os as [|o os]; simpl in Hd; [|destruct Hd as [? _]; lia]. cbn [rfc_counts].
      rewrite decide_False, decide_True; [done|by left|by intros ?%not_elem_of_nil].
    + destruct (decide (0 ∈ rfc_counts (c - 1) os)) as [Hin|Hin].
      * rewrite decide_True; [done|by right].
      * rewrite decide_False; [done|]. rewrite elem_of_cons. intros [?|?]; [lia|done].
Qed.

(** C24: over any interleaving of references and dereferences in which the object is only
    used by holders of a reference, the counts returned are exact, and the free function
    runs exactly once, with the registered context, when the last reference is given
    back, and not at all while one remains. *)
Theorem RfcDereference_frees_once os s f x :
  f ≠ NULL → rfc_disciplined 1 os →
  ∃ s1 s', RfcInit Object true f x s = Ret (STATUS_SUCCESS, s1)
    ∧ rfc_run Object call os s1 = Ret (rfc_counts 1 os, s')
    ∧ ((rfc_final 1 os = 0 ∧ freed s' = freed s ++ [x])
       ∨ (1 ≤ rfc_final 1 os ∧ freed s' = freed s)).
Proof.
  intros Hf Hd. set (s1 := lset Object (mkREF 1 f x) s).
  destruct (rfc_run_counts os s1 1 f x) as (s' & Hr & Hfr); try done.
  { unfold s1. by rewrite lget_lset. }
  exists s1, s'. split_and!; [done|done|].
  assert (Hz : ∀ c, 1 ≤ c → rfc_disciplined c os →
    (0 ∈ rfc_counts c os ↔ rfc_final c os = 0) ∧ 0 ≤ rfc_final c os).
  { clear. induction os as [|o os IH]; intros c Hc Hd; simpl in *.
    { unfold rfc_final. simpl. split; [|lia]. split; [by intros ?%not_elem_of_nil|lia]. }
    destruct Hd as (_ & _ & Hd).
    rewrite rfc_final_cons, elem_of_cons. set (c' := if o then c + 1 else c - 1) in *.
    destruct (decide (c' = 0)) as [Hz|Hz].
    - rewrite Hz in *. destruct os as [|o' os]; [|simpl in Hd; destruct Hd; lia].
      unfold rfc_final. simpl. split; [|lia]. split; [done|by left].
    - destruct (IH c') as [IH1 IH2]; [unfold c' in *; destruct o; lia|done|]. split; [|done].
      rewrite IH1. split; [intros [?|?]; [lia|done]|by right]. }
  destruct (Hz 1 ltac:(lia) Hd) as [H1 H2].
  assert (Hfs : freed s1 = freed s) by apply freed_lset. rewrite Hfs in Hfr.
  destruct (decide (0 ∈ rfc_counts 1 os)) as [Hin|Hin].
  - left. split; [by apply H1|done].
  - right. rewrite app_nil_r in Hfr. split; [|done].
    destruct (decide (rfc_final 1 os = 0)) as [He|]; [|lia]. by apply H1 in He.
Qed.
End Specs.

Module RefCntExample.
Definition obj : lens (REF_COUNT * list Z) REF_COUNT.
Proof. by refine (mkLens fst (λ r s, (r, s.2)) _ _ _); intros; destruct s. Defined.
Definition free (f c : Z) : M (REF_COUNT * list Z) unit := modify (λ s, (s.1, s.2 ++ [c])).
Lemma RfcDereference_frees_once_witness : ∃ s',
  rfc_run obj free [true; false; true; false; false] (mkREF 1 0x400 77, [])
    = Ret ([2; 1; 2; 1; 0], s') ∧ s'.2 = [77].
Proof.
  destruct (RfcDereference_frees_once obj free snd ltac:(done) ltac:(intros; eexists; by split_and!)
    [true; false; true; false; false] (REF_zero, []) 0x400 77) as (s1 & s' & Hi & Hr & Hc).
  - done.
  - simpl. unfold MAX_DWORD. lia.
  - exists s'. vm_compute in Hi. simplify_eq. split; [exact Hr|].
    destruct Hc as [[_ Hc]|[Hc _]]; [exact Hc|]. vm_compute in Hc. by destruct Hc.
Defined.
End RefCntExample.
