(* ===== verification/CheckinQueue.v ===== *)
(** CommonLib/src/checkin_queue.c: a barrier on an array of flags.

    The queue's buffer is a list of booleans; an access outside it faults.
    [cq_step] interleaves the interlocked accesses of the threads that mark their
    presence and of those that wait. *)
From stdpp Require Import relations.
From S2P Require Import Prelude Cpu.

Record CHECKIN_QUEUE := mkCQ { NumberOfThreads : Z; BufferSize : Z }.
Definition CQ_zero : CHECKIN_QUEUE := mkCQ 0 0.

Section Ops.
Context {St : Type}.
(** The buffer Queue->Array points to. *)
Variable Array : lens St (list bool).

Definition CheckinQueuePreInit (NumberOfThreads_ : Z) : M St (CHECKIN_QUEUE * Z) :=
  ASSERT (0 <? NumberOfThreads_);;
  mret (mkCQ NumberOfThreads_ (u32 (NumberOfThreads_ * 1)), u32 (NumberOfThreads_ * 1)).

(** memset of the first NumberOfThreads flags. *)
Definition CheckinQueueInit (Queue : CHECKIN_QUEUE) : M St unit :=
  ASSERT (0 <? NumberOfThreads Queue);;
  a ← lread Array;
  let n := Z.to_nat (NumberOfThreads Queue) in
  if decide (length a < n)%nat then fault else
  lwrite Array (replicate n false ++ drop n a).

Definition CheckinQueueUninit (Queue : CHECKIN_QUEUE) : CHECKIN_QUEUE := CQ_zero.

(** _InterlockedCompareExchange8(&Queue->Array[i], exchange, comparand) *)
Definition cmpxchg_slot (i : Z) (exchange comparand : bool) : M St bool :=
  a ← lread Array;
  match a !! Z.to_nat i with
  | None => fault
  | Some old =>
      (if eqb old comparand then lwrite Array (<[Z.to_nat i := exchange]> a) else mret tt);;
      mret old
  end.

(** One round of the marking loop: true when the slot has been taken. *)
Definition mark_slot (i : Z) : M St bool :=
  old ← cmpxchg_slot i true false; mret (negb old).
Definition CheckinQueueMarkPresence (Queue : CHECKIN_QUEUE) : M St unit :=
  ASSERT (0 <? NumberOfThreads Queue);;
  for_until (Z.to_nat (NumberOfThreads Queue)) 0 (λ i,
    marked ← mark_slot i;
    mret (if (marked : bool) then Some tt else None));;
  mret tt.

(** One look at a slot: is it marked? *)
Definition check_slot (i : Z) : M St bool := cmpxchg_slot i true true.
End Ops.

Section Wait.
Context {St : Type} `{HasCpu St}.
Variables (Array : lens St (list bool)) (fuel : nat).

Definition CheckinQueueWaitOn (Queue : CHECKIN_QUEUE) (WaitAll : bool)
    (NumberOfCheckinsToWait : Z) : M St unit :=
  ASSERT (0 <? NumberOfThreads Queue);;
  let numberOfThreads := if WaitAll then NumberOfThreads Queue else NumberOfCheckinsToWait in
  oldState ← CpuIntrDisable;
  loop fuel (λ _,
    semaphoreGreen ← for_fold (Z.to_nat numberOfThreads) 0 true (λ i semaphoreGreen,
      present ← check_slot Array i;
      mret (if (present : bool) then semaphoreGreen else false));
    mret (if (semaphoreGreen : bool) then inr tt else inl tt)) tt;;
  CpuIntrSetState oldState;;
  mret tt.
End Wait.

(** * Interleaving *)
(** A thread that marks its presence is at slot [i], has marked one, or has found
    none; one that waits for [k] check-ins looks at slot [i] having seen only marked
    slots in this round or not, or has passed. *)
Inductive cq_pc :=
  | Marking (i : nat) | Marked | Missed
  | Waiting (k i : nat) (green : bool) | Passed (k : nat).

Section Steps.
(** The number of slots. *)
Variable N : nat.
#[local] Abbreviation Array := (id_lens (St := list bool)).

Definition cq_code (p : cq_pc) : M (list bool) cq_pc :=
  match p with
  | Marking i =>
      if decide (i < N)%nat then
        marked ← mark_slot Array (Z.of_nat i);
        mret (if (marked : bool) then Marked else Marking (S i))
      else mret Missed
  | Waiting k i green =>
      if decide (i < k)%nat then
        present ← check_slot Array (Z.of_nat i);
        mret (Waiting k (S i) (if (present : bool) then green else false))
      else mret (if green then Passed k else Waiting k 0 true)
  | p => mret p
  end.

Record cq_sys := mkCqSys { cq_array : list bool; cq_threads : list cq_pc }.
Inductive cq_step : cq_sys → cq_sys → Prop :=
  | cq_step_code a ts n p p' a' :
      ts !! n = Some p → cq_code p a = Ret (p', a') →
      cq_step (mkCqSys a ts) (mkCqSys a' (<[n := p']> ts)).

(** All flags clear, every thread at the start of its call. *)
Definition cq_init (s : cq_sys) : Prop :=
  cq_array s = replicate N false ∧
  ∀ n p, cq_threads s !! n = Some p → p = Marking 0 ∨ ∃ k, p = Waiting k 0 true.

Definition is_marker (p : cq_pc) : bool :=
  match p with Marking _ | Marked | Missed => true | _ => false end.
Definition is_marked (p : cq_pc) : bool := match p with Marked => true | _ => false end.
Fixpoint count_pc (P : cq_pc → bool) (ts : list cq_pc) : nat :=
  match ts with [] => 0 | p :: ts' => (if P p then 1 else 0) + count_pc P ts' end.
Definition count_true (a : list bool) : nat := length (filter (λ b, b = true) a).

Lemma count_pc_insert P ts n p p' :
  ts !! n = Some p →
  (count_pc P (<[n := p']> ts) + (if P p then 1 else 0) = count_pc P ts + (if P p' then 1 else 0))%nat.
Proof.
  revert n. induction ts as [|q ts IH]; intros [|n] Hn; simpl in *; simplify_eq; [lia|].
  specialize (IH n Hn). lia.
Qed.
Lemma count_true_insert a i :
  a !! i = Some false → count_true (<[i := true]> a) = S (count_true a).
Proof.
  unfold count_true. revert i. induction a as [|b a IH]; intros [|i] Hi; simpl in *; simplify_eq.
  - done.
  - destruct (decide (b = true)) as [->|Hb].
    + rewrite !filter_cons_True by done. simpl. by rewrite IH.
    + rewrite !filter_cons_False by done. by apply IH.
Qed.
Lemma count_true_le a : (count_true a <= length a)%nat.
Proof. apply length_filter. Qed.
Lemma count_true_prefix a k :
  (k <= length a)%nat → (∀ i, (i < k)%nat → a !! i = Some true) → (k <= count_true a)%nat.
Proof.
  revert k. induction a as [|b a IH]; intros k Hk Hall; simpl in *; [lia|].
  destruct k as [|k]; [lia|]. assert (b = true) as ->.
  { specialize (Hall O ltac:(lia)). by simplify_eq/=. }
  unfold count_true. rewrite filter_cons_True by done. simpl. apply le_n_S, IH; [lia|].
  intros i Hi. by apply (Hall (S i)); lia.
Qed.

Definition marked_below (a : list bool) (i : nat) : Prop := ∀ j, (j < i)%nat → a !! j = Some true.
Definition pc_ok (a : list bool) (p : cq_pc) : Prop :=
  match p with
  | Marking i => marked_below a i ∧ (i <= N)%nat
  | Missed => marked_below a N
  | Waiting k i green => green = true → marked_below a i ∧ (i <= k)%nat
  | Passed k => marked_below a k
  | Marked => True
  end.
Record cq_inv (s : cq_sys) : Prop := {
  cqi_length : length (cq_array s) = N;
  cqi_count : count_true (cq_array s) = count_pc is_marked (cq_threads s);
  cqi_pc n p : cq_threads s !! n = Some p → pc_ok (cq_array s) p
}.

Lemma cq_inv_init s : cq_init s → cq_inv s.
Proof.
  intros [Ha Ht]. split.
  - by rewrite Ha, length_replicate.
  - rewrite Ha. transitivity O.
    + unfold count_true. clear Ha Ht. induction N as [|m IH]; simpl; [done|].
      by rewrite filter_cons_False.
    + induction (cq_threads s) as [|p ts IH]; [done|]. simpl.
      destruct (Ht O p eq_refl) as [->|[k ->]]; simpl; apply IH; intros n q Hn; by apply (Ht (S n)).
  - intros n p Hn. destruct (Ht n p Hn) as [->|[k ->]]; simpl; unfold marked_below;
      repeat split; intros; lia.
Qed.

(** Flags are only ever set. *)
Lemma pc_ok_mono a a' p :
  (∀ j, a !! j = Some true → a' !! j = Some true) → pc_ok a p → pc_ok a' p.
Proof. intros Ha. destruct p; simpl; unfold marked_below; naive_solver. Qed.

Lemma mark_slot_run a (i : nat) b :
  a !! i = Some b →
  mark_slot Array (Z.of_nat i) a = Ret (negb b, if b then a else <[i := true]> a).
Proof.
  intros Hi. unfold mark_slot, cmpxchg_slot, lread, lwrite. munfold. cbn [lget lset id_lens].
  rewrite Nat2Z.id, Hi. by destruct b.
Qed.
Lemma check_slot_run a (i : nat) b :
  a !! i = Some b → check_slot Array (Z.of_nat i) a = Ret (b, a).
Proof.
  intros Hi. unfold check_slot, cmpxchg_slot, lread, lwrite. munfold. cbn [lget lset id_lens].
  rewrite Nat2Z.id, Hi. destruct b; simpl; [|done]. by rewrite list_insert_id.
Qed.

(** What a step does to the flags. *)
Lemma cq_code_step a p p' a' :
  length a = N → pc_ok a p → cq_code p a = Ret (p', a') →
  length a' = N ∧ pc_ok a' p' ∧ (∀ j, a !! j = Some true → a' !! j = Some true)
  ∧ (count_true a' + (if is_marked p then 1 else 0) = count_true a + (if is_marked p' then 1 else 0))%nat.
Proof.
  intros Hl Hp Hc. destruct p as [i| | |k i green|k]; simpl in Hc;
    try (unfold mret, M_ret in Hc; simplify_eq; by split_and!).
  - destruct (decide (i < N)%nat) as [Hi|Hi].
    + destruct (lookup_lt_is_Some_2 a i) as [b Hb]; [lia|].
      rewrite (bind_Ret _ _ _ _ _ (mark_slot_run a i b Hb)) in Hc. unfold mret, M_ret in Hc.
      destruct Hp as [Hp _]. destruct b; simpl in Hc; simplify_eq.
      * split; [done|]. split; [|split; [done|simpl; lia]]. simpl. split; [|lia]. intros j Hj.
        destruct (decide (j = i)) as [->|]; [done|]. apply Hp. lia.
      * split_and!; [by rewrite length_insert|done| |].
        -- intros j Hj. destruct (decide (i = j)) as [<-|].
           ++ apply list_lookup_insert_eq. by eapply lookup_lt_Some.
           ++ by rewrite list_lookup_insert_ne.
        -- rewrite count_true_insert by done. simpl. lia.
    + unfold mret, M_ret in Hc. simplify_eq. destruct Hp as [Hp Hle].
      split_and!; [done| |done|done]. simpl. by replace N with i at 1 by lia.
  - destruct (decide (i < k)%nat) as [Hi|Hi].
    + destruct (a !! i) as [b|] eqn:Hb.
      * rewrite (bind_Ret _ _ _ _ _ (check_slot_run a i b Hb)) in Hc. unfold mret, M_ret in Hc.
        simplify_eq. split_and!; [done| |done|done]. simpl. destruct b; [|done]. intros Hg.
        destruct (Hp Hg) as [Hp' _]. split; [|lia]. intros j Hj.
        destruct (decide (j = i)) as [->|]; [done|]. apply Hp'. lia.
      * exfalso. unfold check_slot, cmpxchg_slot, lread in Hc. unfold mbind, M_bind, gets, fault in Hc.
        cbn [lget id_lens] in Hc. by rewrite Nat2Z.id, Hb in Hc.
    + unfold mret, M_ret in Hc. simplify_eq. destruct green.
      * split_and!; [done| |done|done]. destruct (Hp eq_refl) as [Hp' ?]. simpl.
        by replace k with i by lia.
      * split_and!; [done| |done|done]. simpl. intros _. unfold marked_below.
        split; intros; lia.
Qed.

Lemma cq_inv_step s s' : cq_inv s → cq_step s s' → cq_inv s'.
Proof.
  intros [I1 I2 I3] Hs. destruct Hs as [a ts n p p' a' Hn Hc]. simpl in *.
  destruct (cq_code_step a p p' a' I1 (I3 n p Hn) Hc) as (H1 & H2 & H3 & H4).
  split; simpl.
  - done.
  - pose proof (count_pc_insert is_marked ts n p p' Hn). lia.
  - intros m q. destruct (decide (n = m)) as [<-|].
    + rewrite list_lookup_insert_eq by (by eapply lookup_lt_Some). intros ?; by simplify_eq.
    + rewrite list_lookup_insert_ne by done. intros Hq. eapply pc_ok_mono, I3; done.
Qed.
Lemma cq_reachable s s' : cq_init s → rtc cq_step s s' → cq_inv s'.
Proof. intros Hi Hr. apply cq_inv_init in Hi. induction Hr; [done|]. eauto using cq_inv_step. Qed.

Lemma count_marker_step s s' :
  cq_step s s' → count_pc is_marker (cq_threads s') = count_pc is_marker (cq_threads s).
Proof.
  intros Hs. destruct Hs as [a ts n p p' a' Hn Hc]. simpl.
  pose proof (count_pc_insert is_marker ts n p p' Hn) as Hci.
  assert (Hsame : is_marker p' = is_marker p); [|rewrite Hsame in Hci; lia].
  destruct p as [i| | |k i green|k]; simpl in Hc.
  - destruct (decide _).
    + minv Hc. unfold mret, M_ret in Hc. simplify_eq. by destruct a0.
    + unfold mret, M_ret in Hc. by simplify_eq.
  - unfold mret, M_ret in Hc. by simplify_eq.
  - unfold mret, M_ret in Hc. by simplify_eq.
  - destruct (decide _).
    + minv Hc. unfold mret, M_ret in Hc. by simplify_eq.
    + unfold mret, M_ret in Hc. simplify_eq. by destruct green.
  - unfold mret, M_ret in Hc. by simplify_eq.
Qed.
Lemma count_marked_missed ts :
  (count_pc is_marked ts + count_pc (λ p, match p with Missed => true | _ => false end) ts
   <= count_pc is_marker ts)%nat.
Proof. induction ts as [|p ts IH]; simpl; [lia|]. destruct p; simpl; lia. Qed.
Lemma count_pc_pos P ts n p : ts !! n = Some p → P p = true → (1 <= count_pc P ts)%nat.
Proof.
  revert n. induction ts as [|q ts IH]; intros [|n] Hn Hp; simpl in *; simplify_eq.
  - rewrite Hp. lia.
  - specialize (IH n Hn Hp). lia.
Qed.

(** C23: under every interleaving of at most as many marking threads as the queue has slots,
    every thread that finishes CheckinQueueMarkPresence has marked a slot of its own, and a
    thread waiting for k check-ins (k at most the number of slots) passes only when at
    least k threads have checked in. *)
Theorem checkin_queue_barrier s0 s :
  cq_init s0 → rtc cq_step s0 s → (count_pc is_marker (cq_threads s0) <= N)%nat →
  (∀ n, cq_threads s !! n ≠ Some Missed)
  ∧ count_true (cq_array s) = count_pc is_marked (cq_threads s)
  ∧ (∀ n k, cq_threads s !! n = Some (Passed k) → (k <= N)%nat →
       (k <= count_pc is_marked (cq_threads s))%nat).
Proof.
  intros H0 Hr Hle. pose proof (cq_reachable s0 s H0 Hr) as [I1 I2 I3].
  assert (Hm : count_pc is_marker (cq_threads s) = count_pc is_marker (cq_threads s0)).
  { clear -Hr. induction Hr as [|s1 s2 s3 H1 _ IH]; [done|]. by rewrite IH, (count_marker_step _ _ H1). }
  split_and!; [|done|].
  - intros n Hn. pose proof (I3 n _ Hn) as Hall. simpl in Hall.
    pose proof (count_true_prefix (cq_array s) N ltac:(lia) Hall).
    pose proof (count_marked_missed (cq_threads s)).
    pose proof (count_pc_pos (λ p, match p with Missed => true | _ => false end) _ n _ Hn eq_refl). lia.
  - intros n k Hn Hk. pose proof (I3 n _ Hn) as Hall. simpl in Hall.
    rewrite <-I2. apply count_true_prefix; [lia|done].
Qed.
End Steps.

(** * A wait on a full queue *)
Section WaitSpecs.
Context {St : Type} `{HasCpu St} (Array : lens St (list bool)) `{!LensCpu Array}.
Variable fuel : nat.

Lemma check_slot_marked (i : nat) s :
  lget Array s !! i = Some true → check_slot Array (Z.of_nat i) s = Ret (true, s).
Proof.
  intros Hi. unfold check_slot, cmpxchg_slot. mrun (lread_run Array s). rewrite Nat2Z.id, Hi.
  cbn [eqb]. rewrite (bind_Ret _ _ _ _ _ (lwrite_run Array _ s)).
  by rewrite list_insert_id, lset_lget by done.
Qed.
Lemma check_slot_outside (i : nat) s :
  lget Array s !! i = None → check_slot Array (Z.of_nat i) s = Fault.
Proof.
  intros Hi. unfold check_slot, cmpxchg_slot. mrun (lread_run Array s). by rewrite Nat2Z.id, Hi.
Qed.

Lemma wait_round k i s :
  (∀ j, (i <= j < i + k)%nat → lget Array s !! j = Some true) →
  for_fold k (Z.of_nat i) true (λ i green,
    present ← check_slot Array i; mret (if (present : bool) then green else false)) s
  = Ret (true, s).
Proof.
  revert i. induction k as [|k IH]; intros i Hall; cbn [for_fold]; [done|].
  rewrite bind_assoc. mrun (check_slot_marked i s (Hall i ltac:(lia))). unfold mret at 1, M_ret at 1.
  erewrite bind_Ret by done. replace (Z.of_nat i + 1) with (Z.of_nat (S i)) by lia.
  apply IH. intros j Hj. apply Hall. lia.
Qed.
Lemma wait_round_outside k i s green :
  (∀ j, (i <= j < length (lget Array s))%nat → lget Array s !! j = Some true) →
  (i <= length (lget Array s) < i + k)%nat →
  for_fold k (Z.of_nat i) green (λ i green,
    present ← check_slot Array i; mret (if (present : bool) then green else false)) s = Fault.
Proof.
  revert i green. induction k as [|k IH]; intros i green Hall Hk; [lia|]. cbn [for_fold].
  rewrite bind_assoc. destruct (decide (i < length (lget Array s))%nat) as [Hi|Hi].
  - mrun (check_slot_marked i s (Hall i ltac:(lia))). unfold mret at 1, M_ret at 1.
    erewrite bind_Ret by done. replace (Z.of_nat i + 1) with (Z.of_nat (S i)) by lia.
    apply IH; [intros j Hj; apply Hall; lia|lia].
  - apply bind_Fault, check_slot_outside, lookup_ge_None. lia.
Qed.

(** When every slot is marked, CheckinQueueWaitOn for all threads, or for at most as many
    as the queue has, returns after one round with the interrupt state it found; asked for
    more check-ins than the queue has slots, where the header promises to wait for the full
    queue, it reads past the end of the array. *)
Theorem CheckinQueueWaitOn_full Queue WaitAll n s :
  (0 < fuel)%nat → 0 < NumberOfThreads Queue → lget Array s = replicate (Z.to_nat (NumberOfThreads Queue)) true →
  (WaitAll = true ∨ n ≤ NumberOfThreads Queue →
     ∃ s', CheckinQueueWaitOn Array fuel Queue WaitAll n s = Ret (tt, s')
       ∧ lget Array s' = lget Array s ∧ intr_of (get_rflags s') = intr_of (get_rflags s))
  ∧ (WaitAll = false → NumberOfThreads Queue < n →
     CheckinQueueWaitOn Array fuel Queue WaitAll n s = Fault).
Proof.
  intros Hfuel HN Ha. destruct fuel as [|fuel']; [lia|].
  unfold CheckinQueueWaitOn. set (s1 := set_rflags (intr_flags false (get_rflags s)) s).
  assert (Ha1 : lget Array s1 = replicate (Z.to_nat (NumberOfThreads Queue)) true).
  { unfold s1. by rewrite rflags_lens. }
  assert (Hall : ∀ j, (j < Z.to_nat (NumberOfThreads Queue))%nat → lget Array s1 !! j = Some true).
  { intros j Hj. rewrite Ha1. by apply lookup_replicate_2. }
  split.
  - intros Hn. eexists. split_and!.
    + massert ltac:(by apply Z.ltb_lt). mrun (CpuIntrDisable_run s). fold s1.
      erewrite bind_Ret by (apply loop_break; erewrite bind_Ret by
        (apply (wait_round _ O); intros j Hj; apply Hall; destruct WaitAll; naive_solver lia);
        reflexivity).
      rewrite (bind_Ret _ _ _ _ _ (CpuIntrSetState_run _ _)). reflexivity.
    + rewrite rflags_lens. unfold s1. by rewrite rflags_lens.
    + rewrite get_set_rflags. apply intr_of_flags.
  - intros -> Hn. massert ltac:(by apply Z.ltb_lt). mrun (CpuIntrDisable_run s). fold s1.
    apply bind_Fault. rewrite loop_S. rewrite bind_assoc.
    apply bind_Fault, (wait_round_outside _ O); rewrite Ha1, length_replicate; [|lia].
    intros j Hj. rewrite <-Ha1. apply Hall. lia.
Qed.
End WaitSpecs.

Module CheckinQueueExample.
Definition sys0 : cq_sys := mkCqSys [false; false] [Marking 0; Waiting 2 0 true; Marking 0].
Definition sys1 : cq_sys := mkCqSys [true; true] [Marked; Passed 2; Marked].

Lemma cq_run_step a ts n p p' a' s :
  ts !! n = Some p → cq_code 2 p a = Ret (p', a') →
  rtc (cq_step 2) (mkCqSys a' (<[n := p']> ts)) s → rtc (cq_step 2) (mkCqSys a ts) s.
Proof. intros Hn Hc Hr. eapply rtc_l, Hr. by econstructor. Qed.

Lemma checkin_queue_barrier_witness : (2 <= count_pc is_marked (cq_threads sys1))%nat.
Proof.
  destruct (checkin_queue_barrier 2 sys0 sys1) as (_ & _ & Hp).
  - split; [done|]. intros [|[|[|n]]] p Hp; simpl in Hp; simplify_eq; eauto.
  - apply (cq_run_step _ _ 0 (Marking 0) Marked [true; false]); [done..|].
    apply (cq_run_step _ _ 1 (Waiting 2 0 true) (Waiting 2 1 true) [true; false]); [done..|].
    apply (cq_run_step _ _ 1 (Waiting 2 1 true) (Waiting 2 2 false) [true; false]); [done..|].
    apply (cq_run_step _ _ 2 (Marking 0) (Marking 1) [true; false]); [done..|].
    apply (cq_run_step _ _ 1 (Waiting 2 2 false) (Waiting 2 0 true) [true; false]); [done..|].
    apply (cq_run_step _ _ 2 (Marking 1) Marked [true; true]); [done..|].
    apply (cq_run_step _ _ 1 (Waiting 2 0 true) (Waiting 2 1 true) [true; true]); [done..|].
    apply (cq_run_step _ _ 1 (Waiting 2 1 true) (Waiting 2 2 true) [true; true]); [done..|].
    apply (cq_run_step _ _ 1 (Waiting 2 2 true) (Passed 2) [true; true]); [done..|]. apply rtc_refl.
  - simpl. lia.
  - apply (Hp 1%nat 2%nat); [done|lia].
Defined.

Record cq_cpu := mkCqCpu { cq_flags : list bool; cq_rflags : Z; cq_apic : Z }.
#[export] Instance cq_cpu_HasCpu : HasCpu cq_cpu.
Proof.
  by refine {| get_rflags := cq_rflags; get_apic_id := cq_apic;
    set_rflags f s := mkCqCpu (cq_flags s) f (cq_apic s) |}; intros; destruct s.
Defined.
Definition cq_buffer : lens cq_cpu (list bool).
Proof.
  by refine (mkLens cq_flags (λ a s, mkCqCpu a (cq_rflags s) (cq_apic s)) _ _ _); intros; destruct s.
Defined.
#[export] Instance cq_buffer_LensCpu : LensCpu cq_buffer.
Proof. by split. Qed.

Lemma CheckinQueueWaitOn_full_witness :
  CheckinQueueWaitOn cq_buffer 1 (mkCQ 2 2) false 3 (mkCqCpu [true; true] 514 0) = Fault.
Proof.
  destruct (CheckinQueueWaitOn_full cq_buffer 1 (mkCQ 2 2) false 3 (mkCqCpu [true; true] 514 0))
    as [_ Hf]; [lia|done|done|]. by apply Hf.
Defined.
End CheckinQueueExample.
