(* ===== verification/StrUtils.v ===== *)
(** CommonLib/src/strutils.c: numbers to strings and back.

    A [char] is signed: [read_char] sign-extends the byte it reads. Strings lie in
    the byte store of Memory.v; [cstr_at] says that a NUL-terminated one does. *)
From S2P Require Import Prelude Memory.

Definition s8 (z : Z) : Z := if u8 z <? 2 ^ 7 then u8 z else u8 z - 2 ^ 8.

Definition BASE_TWO : Z := 2.
Definition BASE_TEN : Z := 10.
Definition BASE_HEXA : Z := 16.
Definition LOWER_UPPER_DIFF : Z := 97 - 65.
Definition isascii (c : Z) : bool := (0x1F <? c) && (c <? 0x80).
Definition isupper (c : Z) : bool := (65 <=? c) && (c <=? 90).
Definition islower (c : Z) : bool := (97 <=? c) && (c <=? 122).
Definition tolower (c : Z) : Z := Z.lor c LOWER_UPPER_DIFF.
Definition toupper (c : Z) : Z := Z.land c (Z.lnot LOWER_UPPER_DIFF).
Definition isspace (c : Z) : bool := (32 =? c) || (9 =? c) || (10 =? c) || (13 =? c).

(** The value and the sign itoa works on, from the bytes it is given. *)
Definition itoa_operand (signedValue is64BitValue : bool) (raw : Z) : bool * Z :=
  if is64BitValue then
    let negative := signedValue && (s64 raw <? 0) in
    (negative, if negative then u64 (- s64 raw) else raw)
  else
    let negative := signedValue && (s32 raw <? 0) in
    (negative, if negative then u64 (s32 (- s32 raw)) else raw).

(** The value of a character in a number, MAX_BYTE when it is no digit. *)
Definition atoi_digit (c : Z) : Z :=
  if (48 <=? c) && (c <=? 57) then u8 (c - 48)
  else if (97 <=? c) && (c <=? 122) then u8 (c - 97 + 10)
  else MAX_BYTE.

Definition size_of_value (is64BitValue : bool) : nat := if is64BitValue then 8 else 4.

Section Ops.
Context {St : Type} `{HasBytes St}.
Variable fuel : nat.

Definition read_char (p : Z) : M St Z := b ← read_byte p; mret (s8 b).

Definition xor_byte (a b : Z) : M St unit :=
  x ← read_byte a; y ← read_byte b; write_byte a (Z.lxor x y).
Definition swap (a b : Z) : M St unit := xor_byte a b;; xor_byte b a;; xor_byte a b.

(** One round of itoa's conversion loop. *)
Definition itoa_digit_step (buffer base : Z) (c : Z * Z) : M St (Z * Z + Z) :=
  let '(value, index) := c in
  if negb (0 =? value) then
    let digit := s32 (value mod base) in
    write_byte (buffer + index) (if 9 <? digit then s8 (digit - 10) + 65 else s8 digit + 48);;
    mret (inl (value / base, u32 (index + 1)))
  else mret (inr index).
(** The number in reverse, its sign last; the index after it. *)
Definition itoa_reversed (buffer base : Z) (negative : bool) (value : Z) : M St Z :=
  index ← (if 0 =? value then write_byte (buffer + 0) 48;; mret 1 else mret 0);
  index ← loop fuel (itoa_digit_step buffer base) (value, index);
  if (negative : bool) then write_byte (buffer + index) 45;; mret (u32 (index + 1))
  else mret index.
Definition itoa (valueAddress : Z) (signedValue : bool) (buffer base : Z) (is64BitValue : bool)
    : M St unit :=
  ASSERT (negb (NULL =? valueAddress));;
  ASSERT (negb (NULL =? buffer));;
  ASSERT (negb (0 =? base));;
  raw ← read_le valueAddress (size_of_value is64BitValue);
  let '(negative, value) := itoa_operand signedValue is64BitValue raw in
  index ← itoa_reversed buffer base negative value;
  write_byte (buffer + index) 0;;
  for_each (Z.to_nat (index / 2)) 0 (λ i, swap (buffer + i) (buffer + u32 (index - i - 1))).

(** One round of atoi's loop. *)
Definition atoi_digit_step (buffer base : Z) (c : Z * Z) : M St (Z * Z + Z) :=
  let '(i, value) := c in
  c ← read_char (buffer + i);
  if negb (c =? 0) then
    ASSERT (isascii c);;
    let currentCharValue := atoi_digit (s8 (tolower c)) in
    ASSERT (currentCharValue <? base);;
    mret (inl (u32 (i + 1), u64 (value * base + currentCharValue)))
  else mret (inr value).
Definition atoi (valueAddress buffer base : Z) (is64BitValue : bool) : M St unit :=
  ASSERT (negb (NULL =? valueAddress));;
  ASSERT (negb (NULL =? buffer));;
  ASSERT (negb (0 =? base));;
  c ← read_char (buffer + 0);
  let negative := 45 =? c in
  value ← loop fuel (atoi_digit_step buffer base) (if (negative : bool) then 1 else 0, 0);
  let value := if (negative : bool) then u64 (- s64 value) else value in
  if is64BitValue then write_le valueAddress 8 value
  else
    ASSERT (negative || (value <=? MAX_DWORD));;
    write_le valueAddress 4 (u32 value).
End Ops.

(** * Numerals *)
Definition digit_char (d : Z) : Z := if 9 <? d then d - 10 + 65 else d + 48.
(** The digits of [v < 2^n], least significant first. *)
Fixpoint rdigits (n : nat) (base v : Z) : list Z :=
  match n with
  | O => []
  | S n' => if 0 =? v then [] else v mod base :: rdigits n' base (v / base)
  end.
Definition rnumeral (base v : Z) : list Z :=
  if 0 =? v then [48] else map digit_char (rdigits 64 base v).
(** The numeral of [v], most significant digit first, after its sign. *)
Definition numeral (base : Z) (negative : bool) (v : Z) : list Z :=
  (if negative then [45] else []) ++ rev (rnumeral base v).

(** A NUL-terminated string of characters at [p]. *)
Definition char_ok (c : Z) : Prop := 0 < c < 256.
Definition cstr_at (b : gmap Z Z) (p : Z) (cs : list Z) : Prop :=
  bytes_at b p (cs ++ [0]) ∧ Forall char_ok cs.

Lemma s8_small c : 0 ≤ c < 128 → s8 c = c.
Proof. intros Hc. unfold s8, u8. rewrite Z.mod_small by lia. by rewrite (proj2 (Z.ltb_lt c _)) by lia. Qed.
Lemma s8_zero c : byte_ok c → (s8 c =? 0) = (c =? 0).
Proof.
  unfold byte_ok. intros Hc. unfold s8, u8. rewrite Z.mod_small by lia.
  destruct (Z.ltb_spec c (2 ^ 7)); [done|].
  destruct (Z.eqb_spec (c - 2 ^ 8) 0), (Z.eqb_spec c 0); lia.
Qed.

Section Digits.
Variable base : Z.
Hypothesis Hbase : 2 ≤ base ≤ 36.

Lemma rdigits_S n v :
  rdigits (S n) base v = if 0 =? v then [] else v mod base :: rdigits n base (v / base).
Proof. done. Qed.
Lemma rdigits_ok n v : 0 ≤ v → Forall (λ d, 0 ≤ d < base) (rdigits n base v).
Proof.
  revert v. induction n as [|n IH]; intros v Hv; simpl; [done|].
  destruct (0 =? v); constructor; [apply Z.mod_pos_bound; lia|apply IH, Z.div_pos; lia].
Qed.
Lemma rdigits_length n v : (length (rdigits n base v) <= n)%nat.
Proof.
  revert v. induction n as [|n IH]; intros v; simpl; [lia|].
  destruct (0 =? v); simpl; [lia|]. specialize (IH (v / base)). lia.
Qed.
Lemma div_base_bound n v : 0 ≤ v < 2 ^ Z.of_nat (S n) → 0 ≤ v / base < 2 ^ Z.of_nat n.
Proof.
  rewrite Nat2Z.inj_succ, Z.pow_succ_r by lia. intros Hv.
  split; [apply Z.div_pos; lia|]. apply Z.div_lt_upper_bound; [lia|].
  assert (0 < 2 ^ Z.of_nat n) by lia. nia.
Qed.
(** The digits are those of the number. *)
Lemma rdigits_value n v :
  0 ≤ v < 2 ^ Z.of_nat n → foldr (λ d acc, acc * base + d) 0 (rdigits n base v) = v.
Proof.
  revert v. induction n as [|n IH]; intros v Hv; cbn [rdigits foldr].
  - rewrite Z.pow_0_r in Hv. lia.
  - destruct (Z.eqb_spec 0 v) as [<-|]; cbn [foldr]; [done|].
    rewrite IH by (by apply div_base_bound). pose proof (Z.div_mod v base). lia.
Qed.

Lemma digit_char_ok d : 0 ≤ d < base → 48 ≤ digit_char d < 91.
Proof. intros Hd. unfold digit_char. destruct (Z.ltb_spec 9 d); lia. Qed.
Lemma digit_char_small d : 0 ≤ d < base → digit_char d = if 9 <? s32 d then s8 (s32 d - 10) + 65 else s8 (s32 d) + 48.
Proof.
  intros Hd. assert (s32 d = d) as ->.
  { unfold s32, u32. rewrite Z.mod_small by lia. by rewrite (proj2 (Z.ltb_lt d _)) by lia. }
  unfold digit_char. destruct (Z.ltb_spec 9 d); rewrite s8_small; lia.
Qed.
(** atoi reads back the digit itoa wrote. *)
Lemma atoi_digit_char d :
  0 ≤ d < base → isascii (s8 (digit_char d)) = true ∧ atoi_digit (s8 (tolower (s8 (digit_char d)))) = d.
Proof.
  intros Hd.
  assert (Hall : forallb (λ k, let d := Z.of_nat k in isascii (s8 (digit_char d))
    && (atoi_digit (s8 (tolower (s8 (digit_char d)))) =? d)) (seq 0 36) = true) by by vm_compute.
  rewrite forallb_forall in Hall.
  assert (Hin : In (Z.to_nat d) (seq 0 36)) by (apply in_seq; lia).
  specialize (Hall _ Hin). cbv zeta in Hall. rewrite Z2Nat.id in Hall by lia.
  apply andb_true_iff in Hall as [H1 H2]. split; [done|]. by apply Z.eqb_eq.
Qed.

Lemma rnumeral_length v : (1 <= length (rnumeral base v) <= 64)%nat.
Proof.
  unfold rnumeral. destruct (0 =? v) eqn:E; [simpl; lia|].
  rewrite length_map. split; [|apply rdigits_length]. rewrite (rdigits_S 63), E. cbn [length]. lia.
Qed.
Lemma rnumeral_ok v : 0 ≤ v → Forall (λ c, 48 ≤ c < 91) (rnumeral base v).
Proof.
  intros Hv. unfold rnumeral. destruct (0 =? v); [by repeat constructor|].
  apply Forall_map. eapply Forall_impl; [by apply rdigits_ok|]. intros d Hd. by apply digit_char_ok.
Qed.
Lemma numeral_length neg v : (length (numeral base neg v) <= 65)%nat.
Proof.
  unfold numeral. rewrite length_app, length_rev. pose proof (rnumeral_length v).
  destruct neg; simpl; lia.
Qed.
Lemma numeral_ok neg v : 0 ≤ v → Forall char_ok (numeral base neg v).
Proof.
  intros Hv. unfold numeral. apply Forall_app. split; [destruct neg; by repeat constructor|].
  apply Forall_rev. eapply Forall_impl; [by apply rnumeral_ok|]. unfold char_ok. simpl. lia.
Qed.
End Digits.

Lemma bytes_at_agree (b b' : gmap Z Z) p bs :
  bytes_at b p bs → (∀ q, p ≤ q < p + Z.of_nat (length bs) → b' !! q = b !! q) → bytes_at b' p bs.
Proof. intros Hb Ha i x Hi. rewrite Ha; [by apply Hb|]. apply lookup_lt_Some in Hi. lia. Qed.
Lemma mapped_agree (b b' : gmap Z Z) p n :
  mapped b p n → (∀ q, p ≤ q < p + n → b' !! q = b !! q) → mapped b' p n.
Proof. intros Hb Ha q Hq. rewrite Ha by done. by apply Hb. Qed.
Lemma cstr_at_agree (b b' : gmap Z Z) p cs :
  cstr_at b p cs → (∀ q, p ≤ q ≤ p + Z.of_nat (length cs) → b' !! q = b !! q) → cstr_at b' p cs.
Proof.
  intros [H1 H2] Ha. split; [|done]. eapply bytes_at_agree; [done|].
  intros q Hq. apply Ha. rewrite length_app in Hq. simpl in Hq. lia.
Qed.

Section Specs.
Context {St : Type} `{HasBytes St}.
Implicit Types (s : St) (p v : Z).

Lemma read_char_run s p c : get_bytes s !! p = Some c → read_char p s = Ret (s8 c, s).
Proof. intros Hp. unfold read_char. by mrun (read_byte_ok _ _ _ Hp). Qed.
(** The three exclusive-ors exchange two different bytes. *)
Lemma swap_run s p q x y :
  p ≠ q → get_bytes s !! p = Some x → get_bytes s !! q = Some y → byte_ok x → byte_ok y →
  swap p q s = Ret (tt, set_bytes (<[p := y]> (<[q := x]> (get_bytes s))) s).
Proof.
  intros Hpq Hp Hq Hx Hy. unfold swap, xor_byte.
  assert (Hxy : byte_ok (Z.lxor x y)).
  { unfold byte_ok in *. split; [apply Z.lxor_nonneg; lia|].
    destruct (decide (Z.lxor x y = 0)) as [->|]; [lia|].
    change 256 with (2 ^ 8). apply Z.log2_lt_pow2.
    { assert (0 ≤ Z.lxor x y) by (apply Z.lxor_nonneg; lia). lia. }
    eapply Z.le_lt_trans; [apply Z.log2_lxor; lia|].
    assert (Hlog : ∀ z, 0 ≤ z < 256 → Z.log2 z < 8).
    { intros z Hz. destruct (decide (z = 0)) as [->|]; [done|]. apply Z.log2_lt_pow2; lia. }
    pose proof (Hlog x). pose proof (Hlog y). lia. }
  rewrite bind_assoc. mrun (read_byte_ok _ _ _ Hp). rewrite bind_assoc. mrun (read_byte_ok _ _ _ Hq).
  erewrite bind_Ret by (by apply write_byte_ok). cbn beta iota. rewrite u8_id by done.
  set (s1 := set_bytes _ s).
  assert (H1 : get_bytes s1 !! p = Some (Z.lxor x y)).
  { unfold s1. autorewrite with bytes. apply lookup_insert_eq. }
  assert (H2 : get_bytes s1 !! q = Some y).
  { unfold s1. autorewrite with bytes. by rewrite lookup_insert_ne. }
  rewrite bind_assoc. mrun (read_byte_ok _ _ _ H2). rewrite bind_assoc. mrun (read_byte_ok _ _ _ H1).
  erewrite bind_Ret by (by apply write_byte_ok). cbn beta iota.
  rewrite (Z.lxor_comm y), Z.lxor_assoc, Z.lxor_nilpotent, Z.lxor_0_r, u8_id by done.
  set (s2 := set_bytes _ s1).
  assert (H3 : get_bytes s2 !! p = Some (Z.lxor x y)).
  { unfold s2. autorewrite with bytes. by rewrite lookup_insert_ne. }
  assert (H4 : get_bytes s2 !! q = Some x).
  { unfold s2. autorewrite with bytes. apply lookup_insert_eq. }
  mrun (read_byte_ok _ _ _ H3). mrun (read_byte_ok _ _ _ H4). rewrite write_byte_ok by done.
  rewrite (Z.lxor_comm x y), Z.lxor_assoc, Z.lxor_nilpotent, Z.lxor_0_r, u8_id by done.
  unfold s2, s1. autorewrite with bytes. do 3 f_equal. apply map_eq. intros r.
  destruct (decide (r = p)) as [->|]; [by rewrite !lookup_insert_eq|].
  rewrite !(lookup_insert_ne _ p r) by done. destruct (decide (r = q)) as [->|];
    [by rewrite !lookup_insert_eq|]. by rewrite !(lookup_insert_ne _ q r), lookup_insert_ne by done.
Qed.

(** The reversal loop of itoa, from its [i]-th round on: [l] lies between the two
    indices. *)
Lemma reverse_run p n i l s :
  (i + length l + i = n)%nat → Z.of_nat n < 2 ^ 32 → Forall byte_ok l →
  bytes_at (get_bytes s) (p + Z.of_nat i) l →
  ∃ b', for_each (length l / 2) (Z.of_nat i)
      (λ i, swap (p + i) (p + u32 (Z.of_nat n - i - 1))) s = Ret (tt, set_bytes b' s)
    ∧ bytes_at b' (p + Z.of_nat i) (rev l)
    ∧ (∀ q, ¬ (p + Z.of_nat i ≤ q < p + Z.of_nat i + Z.of_nat (length l)) → b' !! q = get_bytes s !! q).
Proof.
  remember (length l / 2)%nat as k eqn:Hk. revert i l s Hk.
  induction k as [|k IH]; intros i l s Hk Hn Hlt Hok Hb; cbn [for_each].
  { assert (Hs : (length l < 2)%nat) by (apply Nat.div_small_iff; lia).
    exists (get_bytes s). split; [by rewrite set_get_bytes|]. split; [|done].
    destruct l as [|x [|y l]]; simpl in *; [done|done|lia]. }
  assert (H2 : (2 <= length l)%nat).
  { destruct (Nat.lt_ge_cases (length l) 2) as [Hl|]; [|done].
    apply Nat.div_small in Hl. lia. }
  destruct l as [|x l]; [simpl in H2; lia|].
  destruct (exists_last (l := l)) as (m & y & ->); [by destruct l; simpl in H2; [lia|]|].
  assert (Hkm : k = (length m / 2)%nat).
  { cbn [length] in Hk. rewrite length_app in Hk. cbn [length] in Hk.
    replace (S (length m + 1)) with (length m + 1 * 2)%nat in Hk by lia.
    rewrite Nat.div_add in Hk by lia. lia. }
  cbn [length] in Hn. rewrite length_app in Hn. cbn [length] in Hn.
  apply bytes_at_cons in Hb as [Hx Hb]. apply bytes_at_app in Hb as [Hm Hy].
  apply bytes_at_cons in Hy as [Hy _].
  apply Forall_cons in Hok as [Hxo Hok]. apply Forall_app in Hok as [Hmo Hyo].
  apply Forall_cons in Hyo as [Hyo _].
  assert (Hu : p + u32 (Z.of_nat n - Z.of_nat i - 1) = p + Z.of_nat i + 1 + Z.of_nat (length m)).
  { unfold u32. rewrite Z.mod_small by lia. lia. }
  rewrite Hu. erewrite bind_Ret by (eapply swap_run; [|exact Hx|exact Hy|done|done]; lia).
  cbn beta iota. set (s1 := set_bytes _ s).
  destruct (IH (S i) m s1) as (b' & Hr & Hb' & Hf); [done|lia|done|done|..].
  { unfold s1. rewrite get_set_bytes. eapply bytes_at_agree.
    - replace (p + Z.of_nat (S i)) with (p + Z.of_nat i + 1) by lia. exact Hm.
    - intros q Hq. rewrite !lookup_insert_ne by lia. done. }
  exists b'. split_and!.
  - replace (Z.of_nat i + 1) with (Z.of_nat (S i)) by lia. rewrite Hr. unfold s1.
    by autorewrite with bytes.
  - cbn [rev]. rewrite rev_app_distr. cbn [rev app]. apply bytes_at_cons. split.
    + rewrite Hf by lia. unfold s1. rewrite get_set_bytes. apply lookup_insert_eq.
    + apply bytes_at_app. split.
      * by replace (p + Z.of_nat i + 1) with (p + Z.of_nat (S i)) by lia.
      * rewrite length_rev. apply bytes_at_cons. split; [|apply bytes_at_nil].
        rewrite Hf by lia. unfold s1. rewrite get_set_bytes, lookup_insert_ne by lia. apply lookup_insert_eq.
  - intros q Hq. cbn [length] in Hq. rewrite length_app in Hq. cbn [length] in Hq.
    rewrite Hf by lia. unfold s1. rewrite get_set_bytes, !lookup_insert_ne by lia. done.
Qed.
End Specs.

(** * itoa writes the numeral *)
Lemma itoa_operand_bound (sg w : bool) raw :
  (if w then 0 ≤ raw < 2 ^ 64 else 0 ≤ raw < 2 ^ 32) → 0 ≤ (itoa_operand sg w raw).2 < 2 ^ 64.
Proof.
  intros Hr. unfold itoa_operand. destruct w; cbn [snd].
  - destruct (sg && _); [|done]. unfold u64. apply Z.mod_pos_bound. lia.
  - destruct (sg && _); [|lia]. unfold u64. apply Z.mod_pos_bound. lia.
Qed.

Section Itoa.
Context {St : Type} `{HasBytes St}.
Variables (fuel : nat) (base buffer : Z).
Hypotheses (Hfuel : (64 < fuel)%nat) (Hbase : 2 ≤ base ≤ 36) (Hbuffer : buffer ≠ NULL).
Implicit Types (s : St).

Lemma itoa_digits n f v i s :
  (n < f)%nat → 0 ≤ v < 2 ^ Z.of_nat n → 0 ≤ i → i + Z.of_nat n < 2 ^ 32 →
  mapped (get_bytes s) (buffer + i) (Z.of_nat (length (rdigits n base v))) →
  loop f (itoa_digit_step buffer base) (v, i) s
  = Ret (i + Z.of_nat (length (rdigits n base v)),
      set_bytes (store (get_bytes s) (buffer + i) (map digit_char (rdigits n base v))) s).
Proof.
  revert f v i s. induction n as [|n IH]; intros [|f] v i s Hf Hv Hi Hb Hm; try lia.
  - assert (v = 0) as -> by (simpl in Hv; lia). erewrite loop_break by done. simpl.
    by rewrite Z.add_0_r, set_get_bytes.
  - rewrite rdigits_S in *. destruct (Z.eqb_spec 0 v) as [<-|Hne].
    { erewrite loop_break by done. simpl. by rewrite Z.add_0_r, set_get_bytes. }
    assert (Hd : 0 ≤ v mod base < base) by (apply Z.mod_pos_bound; lia).
    erewrite loop_continue; [|unfold itoa_digit_step; rewrite (proj2 (Z.eqb_neq 0 v)) by done; cbn [negb];
      erewrite bind_Ret by (apply write_byte_ok, Hm; simpl; lia); reflexivity].
    rewrite <-(digit_char_small base) by done.
    assert (u32 (i + 1) = i + 1) as -> by (unfold u32; apply Z.mod_small; lia).
    rewrite IH; [..|lia|by apply div_base_bound|lia|lia|].
    + autorewrite with bytes. cbn [length map store]. do 2 f_equal; [lia|]. do 2 f_equal. lia.
    + rewrite get_set_bytes. apply (mapped_store _ _ [digit_char (v mod base)]).
      eapply mapped_sub; [done|lia|]. cbn [length]. lia.
Qed.

(** The characters before they are reversed. *)
Definition itoa_chars (negative : bool) (v : Z) : list Z :=
  rnumeral base v ++ if negative then [45] else [].
Lemma numeral_rev negative v : numeral base negative v = rev (itoa_chars negative v).
Proof. unfold numeral, itoa_chars. rewrite rev_app_distr. by destruct negative. Qed.

(** Memory after the digits, the sign and the terminator are written. *)
Lemma itoa_write_chars negative v s :
  0 ≤ v < 2 ^ 64 →
  mapped (get_bytes s) buffer (Z.of_nat (length (numeral base negative v)) + 1) →
  itoa_reversed fuel buffer base negative v s
  = Ret (Z.of_nat (length (itoa_chars negative v)),
      set_bytes (store (get_bytes s) buffer (itoa_chars negative v)) s).
Proof.
  intros Hv Hm. rewrite numeral_rev, length_rev in Hm. unfold itoa_reversed, itoa_chars in *.
  pose proof (rnumeral_length base v) as Hrl. rewrite length_app in Hm.
  assert (Hdig : ∃ i0 s1, (if 0 =? v then write_byte (buffer + 0) 48;; mret 1 else mret 0) s = Ret (i0, s1)
    ∧ loop fuel (itoa_digit_step buffer base) (v, i0) s1 = Ret (Z.of_nat (length (rnumeral base v)),
        set_bytes (store (get_bytes s) buffer (rnumeral base v)) s)).
  { unfold rnumeral in *. destruct (Z.eqb_spec 0 v) as [<-|Hne].
    - eexists 1, _. split; [erewrite bind_Ret by (apply write_byte_ok, Hm; simpl; lia); reflexivity|].
      destruct fuel as [|f]; [lia|]. erewrite loop_break by done.
      cbn [store length]. by rewrite Z.add_0_r.
    - eexists 0, s. split; [done|]. rewrite length_map in Hm.
      rewrite (itoa_digits 64); [rewrite length_map, Z.add_0_r; done|lia|done|lia|lia|].
      rewrite Z.add_0_r. eapply mapped_sub; [exact Hm|lia|lia]. }
  destruct Hdig as (i0 & s1 & H1 & H2). mrun H1. mrun H2.
  destruct negative; [|by rewrite !app_nil_r].
  erewrite bind_Ret; [cbn beta iota|apply write_byte_ok; rewrite get_set_bytes;
    apply mapped_store with (q := buffer) (n := Z.of_nat (length (rnumeral base v)) + 1 + 1);
    [eapply mapped_sub; [exact Hm|lia|simpl; lia]|lia]].
  rewrite store_app, length_app. autorewrite with bytes. cbn [store length]. unfold mret, M_ret, u32.
  rewrite Z.mod_small by lia. do 2 f_equal. lia.
Qed.

Lemma itoa_run sg w p raw s :
  p ≠ NULL → bytes_at (get_bytes s) p raw → length raw = size_of_value w → Forall byte_ok raw →
  let '(negative, v) := itoa_operand sg w (le_value raw) in
  let num := numeral base negative v in
  mapped (get_bytes s) buffer (Z.of_nat (length num) + 1) →
  ∃ b', itoa fuel p sg buffer base w s = Ret (tt, set_bytes b' s)
    ∧ cstr_at b' buffer num
    ∧ (∀ q, ¬ (buffer ≤ q ≤ buffer + Z.of_nat (length num)) → b' !! q = get_bytes s !! q).
Proof.
  intros Hp Hraw Hlen Hok. pose proof (le_value_bound raw Hok) as Hbd. rewrite Hlen in Hbd.
  pose proof (itoa_operand_bound sg w (le_value raw)) as Hop.
  assert (Hop' : 0 ≤ (itoa_operand sg w (le_value raw)).2 < 2 ^ 64)
    by (apply Hop; destruct w; simpl in Hbd; lia). clear Hop.
  destruct (itoa_operand sg w (le_value raw)) as [negative v] eqn:Hv. simpl in Hop'.
  cbv zeta. intros Hm.
  assert (Hchars : Forall byte_ok (itoa_chars negative v)).
  { unfold itoa_chars. apply Forall_app. split; [|by destruct negative; repeat constructor].
    eapply Forall_impl; [by apply rnumeral_ok; [|lia]|]. unfold byte_ok. simpl. lia. }
  pose proof (numeral_length base negative v) as Hnl.
  pose proof (numeral_ok base Hbase negative v ltac:(lia)) as Hno.
  pose proof (itoa_write_chars negative v s Hop' Hm) as Hw.
  unfold itoa. rewrite (proj2 (Z.eqb_neq NULL p)), (proj2 (Z.eqb_neq NULL buffer)),
    (proj2 (Z.eqb_neq 0 base)) by (done || lia). cbn [negb].
  do 3 massert ltac:(done). rewrite <-Hlen. mrun (read_le_run _ _ _ Hraw). rewrite Hv. mrun Hw.
  rewrite numeral_rev, length_rev in *.
  set (cs := itoa_chars negative v) in *. set (n := length cs) in *.
  set (s1 := set_bytes (store (get_bytes s) buffer cs) s).
  assert (Hm1 : mapped (get_bytes s1) buffer (Z.of_nat n + 1)).
  { unfold s1. rewrite get_set_bytes. by apply mapped_store. }
  erewrite bind_Ret by (apply write_byte_ok, Hm1; lia). cbn beta iota.
  set (s2 := set_bytes (<[buffer + Z.of_nat n:=u8 0]> (get_bytes s1)) s1).
  assert (Hcs : bytes_at (get_bytes s2) (buffer + Z.of_nat 0) cs).
  { unfold s2, s1. autorewrite with bytes. rewrite Z.add_0_r. eapply bytes_at_agree.
    - rewrite <-(map_u8_id cs) by done. apply store_at.
    - intros q Hq. by rewrite lookup_insert_ne by (fold n in Hq; lia). }
  destruct (reverse_run buffer n 0 cs s2) as (b' & Hr & Hb' & Hf); [lia|lia|done|done|].
  exists b'. split_and!.
  - replace (Z.to_nat (Z.of_nat n / 2)) with (n / 2)%nat.
    + fold n in Hr. change (Z.of_nat 0) with 0 in Hr. rewrite Hr. unfold s2, s1. by autorewrite with bytes.
    + rewrite <-(Nat2Z.id (n / 2)), Nat2Z.inj_div. done.
  - split; [|done]. apply bytes_at_app. split; [by rewrite Z.add_0_r in Hb'|].
    rewrite length_rev. fold n. apply bytes_at_cons. split; [|apply bytes_at_nil].
    rewrite Hf by (fold n; lia). unfold s2, s1. autorewrite with bytes. apply lookup_insert_eq.
  - intros q Hq. rewrite Hf by (fold n; lia). unfold s2, s1. autorewrite with bytes.
    rewrite lookup_insert_ne by lia. apply store_out. fold n. lia.
Qed.
End Itoa.

(** * atoi reads the numeral *)
Lemma u64_shift x : ∃ k, u64 x = x + k * 2 ^ 64.
Proof. exists (- (x / 2 ^ 64)). unfold u64. pose proof (Z.div_mod x (2 ^ 64)). lia. Qed.
Lemma u32_shift x : ∃ k, u32 x = x + k * 2 ^ 32.
Proof. exists (- (x / 2 ^ 32)). unfold u32. pose proof (Z.div_mod x (2 ^ 32)). lia. Qed.
Lemma s64_shift x : ∃ k, s64 x = x + k * 2 ^ 64.
Proof.
  destruct (u64_shift x) as [k Hk]. unfold s64. rewrite Hk.
  destruct (_ <? _); [by exists k|]. exists (k - 1). lia.
Qed.
Lemma s32_shift x : ∃ k, s32 x = x + k * 2 ^ 32.
Proof.
  destruct (u32_shift x) as [k Hk]. unfold s32. rewrite Hk.
  destruct (_ <? _); [by exists k|]. exists (k - 1). lia.
Qed.
Lemma u64_eq x y k : x = y + k * 2 ^ 64 → 0 ≤ y < 2 ^ 64 → u64 x = y.
Proof. intros -> Hy. unfold u64. rewrite Z.mod_add by done. by apply Z.mod_small. Qed.
Lemma u32_eq x y k : x = y + k * 2 ^ 32 → 0 ≤ y < 2 ^ 32 → u32 x = y.
Proof. intros -> Hy. unfold u32. rewrite Z.mod_add by done. by apply Z.mod_small. Qed.

(** Undoing the sign handling of itoa gives the bits back. *)
Lemma operand_inverse_64 sg raw :
  0 ≤ raw < 2 ^ 64 →
  let '(negative, v) := itoa_operand sg true raw in
  (if (negative : bool) then u64 (- s64 v) else v) = raw.
Proof.
  intros Hr. simpl. destruct (sg && _); [|done].
  destruct (s64_shift raw) as [k1 H1], (u64_shift (- s64 raw)) as [k2 H2],
    (s64_shift (u64 (- s64 raw))) as [k3 H3].
  apply (u64_eq _ _ (k1 - k2 - k3)); lia.
Qed.
Lemma operand_inverse_32 sg raw :
  0 ≤ raw < 2 ^ 32 →
  let '(negative, v) := itoa_operand sg false raw in
  u32 (if (negative : bool) then u64 (- s64 v) else v) = raw ∧ (negative = false → v ≤ MAX_DWORD).
Proof.
  intros Hr. simpl. destruct (sg && _).
  - split; [|done]. set (y := s32 (- s32 raw)).
    destruct (s32_shift raw) as [k1 H1], (s32_shift (- s32 raw)) as [k2 H2], (u64_shift y) as [k3 H3],
      (s64_shift (u64 y)) as [k4 H4], (u64_shift (- s64 (u64 y))) as [k5 H5]. fold y in H2.
    apply (u32_eq _ _ (k1 - k2 - (k3 + k4 - k5) * 2 ^ 32)); lia.
  - split; [by apply Z.mod_small|]. unfold MAX_DWORD. lia.
Qed.

Section Atoi.
Context {St : Type} `{HasBytes St}.
Variables (fuel : nat) (base : Z).
Hypotheses (Hfuel : (64 < fuel)%nat) (Hbase : 2 ≤ base ≤ 36).
Implicit Types (s : St).

(** The digits behind a numeral. *)
Definition number_digits (v : Z) : list Z := if 0 =? v then [0] else rdigits 64 base v.
Lemma rnumeral_digits v : rnumeral base v = map digit_char (number_digits v).
Proof. unfold rnumeral, number_digits. by destruct (0 =? v). Qed.
Lemma number_digits_ok v : 0 ≤ v → Forall (λ d, 0 ≤ d < base) (number_digits v).
Proof.
  intros Hv. unfold number_digits. destruct (0 =? v).
  - constructor; [lia|done].
  - by apply rdigits_ok.
Qed.
Lemma number_digits_value v :
  0 ≤ v < 2 ^ 64 → foldr (λ d acc, acc * base + d) 0 (number_digits v) = v.
Proof.
  intros Hv. unfold number_digits. destruct (Z.eqb_spec 0 v) as [<-|]; [done|].
  by apply rdigits_value.
Qed.

Lemma fold_u64 ds acc :
  fold_left (λ acc d, u64 (acc * base + d)) ds (u64 acc)
  = u64 (fold_left (λ acc d, acc * base + d) ds acc).
Proof.
  revert acc. induction ds as [|d ds IH]; intros acc; simpl; [done|].
  rewrite <-IH. f_equal. unfold u64. rewrite <-Z.add_mod_idemp_l, Z.mul_mod_idemp_l by done.
  by rewrite Z.add_mod_idemp_l.
Qed.

Lemma atoi_digits buffer ds f i acc s :
  (length ds < f)%nat → Forall (λ d, 0 ≤ d < base) ds → 0 ≤ i → i + Z.of_nat (length ds) < 2 ^ 32 →
  bytes_at (get_bytes s) (buffer + i) (map digit_char ds ++ [0]) →
  loop f (atoi_digit_step buffer base) (i, acc) s
  = Ret (fold_left (λ acc d, u64 (acc * base + d)) ds acc, s).
Proof.
  revert f i acc. induction ds as [|d ds IH]; intros [|f] i acc Hf Hok Hi Hlt Hb;
    cbn [length map app fold_left] in *; try lia; apply bytes_at_cons in Hb as [Hc Hb].
  - apply loop_break. unfold atoi_digit_step. by mrun (read_char_run _ _ _ Hc).
  - apply Forall_cons in Hok as [Hd Hok].
    pose proof (digit_char_ok base Hbase d Hd) as Hdc.
    destruct (atoi_digit_char base Hbase d Hd) as [Ha1 Ha2].
    erewrite loop_continue; [apply IH|].
    + lia.
    + done.
    + instantiate (1 := i + 1). lia.
    + lia.
    + by rewrite Z.add_assoc.
    + unfold atoi_digit_step. mrun (read_char_run _ _ _ Hc).
      rewrite s8_zero by (unfold byte_ok; lia). rewrite (proj2 (Z.eqb_neq _ 0)) by lia. cbn [negb].
      massert ltac:(done). rewrite Ha2. cbv zeta. massert ltac:(apply Z.ltb_lt; lia).
      unfold mret, M_ret, u32. by rewrite Z.mod_small by lia.
Qed.

Lemma fold_number_digits v :
  0 ≤ v < 2 ^ 64 → fold_left (λ acc d, u64 (acc * base + d)) (rev (number_digits v)) 0 = v.
Proof.
  intros Hv. change 0 with (u64 0). rewrite fold_u64, <-fold_left_rev_right, rev_involutive.
  rewrite number_digits_value by done. by apply Z.mod_small.
Qed.

(** The two loops of atoi over a numeral, after its sign. *)
Lemma atoi_value buffer negative v s :
  0 ≤ v < 2 ^ 64 → cstr_at (get_bytes s) buffer (numeral base negative v) →
  ∃ c, read_char (buffer + 0) s = Ret (c, s) ∧ (45 =? c) = negative
    ∧ loop fuel (atoi_digit_step buffer base) (if negative then 1 else 0, 0) s = Ret (v, s).
Proof.
  intros Hv [Hb _]. unfold numeral in Hb. rewrite rnumeral_digits in Hb.
  pose proof (rnumeral_length base v) as Hl. rewrite rnumeral_digits, length_map in Hl.
  pose proof (number_digits_ok v ltac:(lia)) as Hok.
  assert (Hloop : ∀ i, 0 ≤ i ≤ 1 →
    bytes_at (get_bytes s) (buffer + i) (rev (map digit_char (number_digits v)) ++ [0]) →
    loop fuel (atoi_digit_step buffer base) (i, 0) s = Ret (v, s)).
  { intros i Hi Hbi. rewrite <-map_rev in Hbi. rewrite (atoi_digits buffer (rev (number_digits v)));
      [by rewrite fold_number_digits|by rewrite length_rev; lia|by apply Forall_rev|lia
      |rewrite length_rev; lia|done]. }
  destruct negative; cbn [app] in Hb.
  - apply bytes_at_cons in Hb as [Hc Hb]. exists (s8 45). rewrite Z.add_0_r.
    split_and!; [by apply read_char_run|done|by apply Hloop].
  - rewrite <-map_rev in Hb.
    destruct (rev (number_digits v)) as [|d ds] eqn:Hds.
    { apply (f_equal length) in Hds. rewrite length_rev in Hds. simpl in Hds. lia. }
    assert (Hd : 0 ≤ d < base).
    { apply Forall_rev in Hok. rewrite Hds in Hok. by apply Forall_cons in Hok as [? _]. }
    pose proof (digit_char_ok base Hbase d Hd).
    exists (s8 (digit_char d)). rewrite Z.add_0_r. split_and!.
    + apply read_char_run. cbn [map app] in Hb. by apply bytes_at_cons in Hb as [Hc _].
    + rewrite s8_small by lia. apply Z.eqb_neq. lia.
    + apply Hloop; [lia|]. rewrite <-map_rev, Hds, Z.add_0_r. done.
Qed.

Lemma atoi_run out buffer w negative v s :
  out ≠ NULL → buffer ≠ NULL → 0 ≤ v < 2 ^ 64 →
  cstr_at (get_bytes s) buffer (numeral base negative v) →
  mapped (get_bytes s) out (Z.of_nat (size_of_value w)) →
  (w = false → negative = false → v ≤ MAX_DWORD) →
  let value := if negative then u64 (- s64 v) else v in
  atoi fuel out buffer base w s = Ret (tt, set_bytes (store (get_bytes s) out
    (le_bytes (size_of_value w) (if w then value else u32 value))) s).
Proof.
  intros Ho Hbf Hv Hs Hm Hw value. destruct (atoi_value buffer negative v s Hv Hs) as (c & Hc & Hn & Hl).
  unfold atoi. rewrite (proj2 (Z.eqb_neq NULL out)), (proj2 (Z.eqb_neq NULL buffer)),
    (proj2 (Z.eqb_neq 0 base)) by (done || lia). cbn [negb]. do 3 massert ltac:(done).
  mrun Hc. rewrite Hn. mrun Hl. fold value. destruct w.
  - by apply write_le_run.
  - massert ltac:(idtac). { by apply write_le_run. }
    destruct negative; [done|]. cbn [orb]. apply Z.leb_le. by apply Hw.
Qed.

(** C22: atoi undoes itoa: for every base from 2 to 36, signed or unsigned, 32 or 64 bits wide,
    the numeral itoa writes, of at most 65 characters and a terminator, is read back by atoi
    as the very bytes itoa was given. *)
Theorem itoa_atoi_roundtrip sg w p buffer out raw s :
  p ≠ NULL → buffer ≠ NULL → out ≠ NULL →
  bytes_at (get_bytes s) p raw → length raw = size_of_value w → Forall byte_ok raw →
  mapped (get_bytes s) buffer 66 → mapped (get_bytes s) out (Z.of_nat (size_of_value w)) →
  ∃ num s1 s2, itoa fuel p sg buffer base w s = Ret (tt, s1)
    ∧ cstr_at (get_bytes s1) buffer num ∧ (length num <= 65)%nat
    ∧ (∀ q, ¬ (buffer ≤ q ≤ buffer + Z.of_nat (length num)) → get_bytes s1 !! q = get_bytes s !! q)
    ∧ atoi fuel out buffer base w s1 = Ret (tt, s2) ∧ bytes_at (get_bytes s2) out raw.
Proof.
  intros Hp Hb Ho Hraw Hlen Hok Hm Hmo.
  pose proof (le_value_bound raw Hok) as Hbd. rewrite Hlen in Hbd.
  pose proof (itoa_run fuel base buffer Hfuel Hbase Hb sg w p raw s Hp Hraw Hlen Hok) as Hi.
  pose proof (itoa_operand_bound sg w (le_value raw)) as Hop.
  pose proof (operand_inverse_64 sg (le_value raw)) as H64.
  pose proof (operand_inverse_32 sg (le_value raw)) as H32.
  destruct (itoa_operand sg w (le_value raw)) as [negative v] eqn:Hv. cbv zeta in Hi.
  pose proof (numeral_length base negative v) as Hnl.
  destruct Hi as (b1 & Hi & Hc & Hf); [eapply mapped_sub; [exact Hm|lia|lia]|].
  assert (Hvb : 0 ≤ v < 2 ^ 64) by (apply Hop; destruct w; simpl in Hbd; lia).
  exists (numeral base negative v), (set_bytes b1 s). eexists. split; [done|].
  rewrite get_set_bytes. split; [done|]. split; [done|]. split; [done|].
  assert (Hback : le_bytes (size_of_value w) (if w then if negative then u64 (- s64 v) else v
    else u32 (if negative then u64 (- s64 v) else v)) = raw ∧ (w = false → negative = false → v ≤ MAX_DWORD)).
  { pose proof (le_bytes_le_value raw Hok) as Hlb. rewrite Hlen in Hlb. rewrite <-Hlb.
    destruct w; simpl in Hbd.
    - rewrite Hv in H64. by rewrite H64 by lia.
    - rewrite Hv in H32. destruct H32 as [-> H2]; [lia|]. done. }
  destruct Hback as [Hback Hle].
  split.
  - apply (atoi_run out buffer w negative v); try done; rewrite get_set_bytes; [done|].
    intros q Hq. destruct (decide (buffer ≤ q ≤ buffer + Z.of_nat (length (numeral base negative v)))) as [Hin|].
    + destruct Hc as [Hc _]. apply bytes_at_mapped in Hc. apply Hc. rewrite length_app. simpl. lia.
    + rewrite Hf by done. by apply Hmo.
  - autorewrite with bytes. rewrite Hback. rewrite <-(map_u8_id raw) at 2 by done. apply store_at.
Qed.
End Atoi.

(** * Concrete runs: a value at 1000, a buffer at 2000, the result at 3000 *)
Module StrUtilsExample.
Definition mem (raw : list Z) : gmap Z Z := list_to_map
  (imap (λ i v, (1000 + Z.of_nat i, v)) raw
   ++ imap (λ i v, (2000 + Z.of_nat i, v)) (replicate 66 0)
   ++ imap (λ i v, (3000 + Z.of_nat i, v)) (replicate 8 0)).

(** The characters of a string of the memory, up to [n] of them. *)
Fixpoint chars_at (b : gmap Z Z) (p : Z) (n : nat) : list Z :=
  match n with
  | O => []
  | S n' => match b !! p with
    | Some c => if c =? 0 then [] else c :: chars_at b (p + 1) n'
    | None => [] end
  end.

Lemma itoa_atoi_roundtrip_witness : ∃ s1 s2,
  itoa 70 1000 true 2000 16 false (mem [0; 255; 255; 255]) = Ret (tt, s1)
  ∧ atoi 70 3000 2000 16 false s1 = Ret (tt, s2) ∧ bytes_at s2 3000 [0; 255; 255; 255].
Proof.
  destruct (itoa_atoi_roundtrip 70 16 ltac:(lia) ltac:(lia) true false 1000 2000 3000
    [0; 255; 255; 255] (mem [0; 255; 255; 255])) as (num & s1 & s2 & H1 & _ & _ & _ & H2 & H3).
  1-3: discriminate.
  - apply bytes_atb_sound. by vm_compute.
  - reflexivity.
  - repeat (apply Forall_cons; split; [by split|]); by apply Forall_nil.
  - apply (bytes_at_mapped _ _ (replicate 66 0)).
    apply bytes_atb_sound. by vm_compute.
  - apply (bytes_at_mapped _ _ (replicate 4 0)).
    apply bytes_atb_sound. by vm_compute.
  - exists s1, s2. exact (conj H1 (conj H2 H3)).
Defined.

(** The 32-bit minimum, whose negation is itself, is widened with its sign: itoa writes
    -18446744071562067968 for -2147483648. *)
Lemma itoa_int32_min :
  s32 (le_value [0; 0; 0; 128]) = -2147483648
  ∧ match itoa 70 1000 true 2000 10 false (mem [0; 0; 0; 128]) with
    | Ret (_, s') => chars_at s' 2000 66
    | _ => []
    end = [45; 49; 56; 52; 52; 54; 55; 52; 52; 48; 55; 49; 53; 54; 50; 48; 54; 55; 57; 54; 56].
Proof. split; by vm_compute. Qed.
End StrUtilsExample.
