(* ===== verification/ClString.v ===== *)
(** CommonLib/src/cl_string.c: NUL-terminated strings.

    Strings lie in the byte store of Memory.v. A [while] loop over a string runs
    with [fuel]; every theorem asks for more fuel than the string has characters,
    which is enough. *)
From S2P Require Import Prelude Memory StrUtils.

Definition INVALID_STRING_SIZE : Z := MAX_DWORD.

Section Ops.
Context {St : Type} `{HasBytes St}.
Variable fuel : nat.

(** [('\0' != p[0]) && ('\0' != q[0])], the second read only after the first test. *)
Definition both_chars (p q : Z) : M St bool :=
  c ← read_char p;
  if c =? 0 then mret false else
  d ← read_char q;
  mret (negb (d =? 0)).
(** The difference of two characters, as the comparisons of the source decide it. *)
Definition char_order (c1 c2 : Z) : option Z :=
  if c2 <? c1 then Some 1 else if c1 <? c2 then Some (-1) else None.

(** cl_strcmp and cl_stricmp: the same loop on converted characters. *)
Definition strcmp_with (conv : Z → Z) (str1 str2 : Z) : M St Z :=
  if NULL =? str1 then mret (s32 STATUS_INVALID_PARAMETER1) else
  if NULL =? str2 then mret (s32 STATUS_INVALID_PARAMETER2) else
  r ← loop fuel (λ i,
    both ← both_chars (str1 + i) (str2 + i);
    if (both : bool) then
      c1 ← read_char (str1 + i);
      c2 ← read_char (str2 + i);
      mret (match char_order (conv c1) (conv c2) with
            | Some r => inr (inl r)
            | None => inl (u32 (i + 1))
            end)
    else mret (inr (inr i))) 0;
  match r with
  | inl r => mret r
  | inr i =>
      c1 ← read_char (str1 + i);
      if negb (0 =? c1) then mret 1 else
      c2 ← read_char (str2 + i);
      if negb (0 =? c2) then mret (-1) else mret 0
  end.
Definition cl_strcmp (str1 str2 : Z) : M St Z := strcmp_with (λ c, c) str1 str2.
Definition cl_stricmp (str1 str2 : Z) : M St Z := strcmp_with (λ c, s8 (tolower c)) str1 str2.

Definition strncmp_with (conv : Z → Z) (str1 str2 length : Z) : M St Z :=
  if NULL =? str1 then mret (s32 STATUS_INVALID_PARAMETER1) else
  if NULL =? str2 then mret (s32 STATUS_INVALID_PARAMETER2) else
  if 0 =? length then mret (s32 STATUS_INVALID_PARAMETER3) else
  r ← loop fuel (λ i,
    go ← (if i <? length then both_chars (str1 + i) (str2 + i) else mret false);
    if (go : bool) then
      c1 ← read_char (str1 + i);
      c2 ← read_char (str2 + i);
      mret (match char_order (conv c1) (conv c2) with
            | Some r => inr (inl r)
            | None => inl (u32 (i + 1))
            end)
    else mret (inr (inr i))) 0;
  match r with
  | inl r => mret r
  | inr i =>
      if i =? length then mret 0 else
      c1 ← read_char (str1 + i);
      if negb (0 =? c1) then mret 1 else mret (-1)
  end.
Definition cl_strncmp (str1 str2 length : Z) : M St Z := strncmp_with (λ c, c) str1 str2 length.
Definition cl_strnicmp (str1 str2 length : Z) : M St Z :=
  strncmp_with (λ c, s8 (tolower c)) str1 str2 length.

Definition cl_strchr (str c : Z) : M St Z :=
  if NULL =? str then mret NULL else
  loop fuel (λ i,
    d ← read_char (str + i);
    mret (if d =? 0 then inr str
          else if d =? c then inr (str + i)
          else inl (u32 (i + 1)))) 0.

Definition cl_strrchr (str c : Z) : M St Z :=
  if NULL =? str then mret NULL else
  loop fuel (λ '(i, charIndex),
    d ← read_char (str + i);
    mret (if d =? 0 then inr charIndex
          else inl (u32 (i + 1), if d =? c then str + i else charIndex))) (0, str).

Definition cl_strcpy (dst src : Z) : M St unit :=
  ASSERT (negb (NULL =? dst));;
  ASSERT (negb (NULL =? src));;
  i ← loop fuel (λ i,
    c ← read_byte (src + i);
    if s8 c =? 0 then mret (inr i)
    else write_byte (dst + i) c;; mret (inl (u32 (i + 1)))) 0;
  write_byte (dst + i) 0.

Definition cl_strncpy (dst src length : Z) : M St unit :=
  ASSERT (negb (NULL =? dst));;
  ASSERT (negb (NULL =? src));;
  ASSERT (negb (0 =? length));;
  i ← loop fuel (λ i,
    if i <? length then
      c ← read_byte (src + i);
      if s8 c =? 0 then mret (inr i)
      else write_byte (dst + i) c;; mret (inl (u32 (i + 1)))
    else mret (inr i)) 0;
  write_byte (dst + i) 0.

Definition cl_strlen (str : Z) : M St Z :=
  if NULL =? str then mret INVALID_STRING_SIZE else
  loop fuel (λ i,
    c ← read_char (str + i);
    mret (if c =? 0 then inr i else inl (u32 (i + 1)))) 0.

Definition cl_strlen_s (str maxLen : Z) : M St Z :=
  if NULL =? str then mret INVALID_STRING_SIZE else
  loop fuel (λ i,
    if i <? maxLen then
      c ← read_char (str + i);
      mret (if c =? 0 then inr i else inl (u32 (i + 1)))
    else mret (inr i)) 0.

(** The inner loop of cl_strtok_s: is [c] one of the delimiters? *)
Definition is_delimiter (delimiters c : Z) : M St bool :=
  loop fuel (λ j,
    d ← read_char (delimiters + j);
    mret (if d =? 0 then inr false
          else if c =? d then inr true
          else inl (u32 (j + 1)))) 0.
(** The token, and the value [*context] is left with; [nonnull] is [context != NULL]. *)
Definition cl_strtok_s (strToken delimiters : Z) (nonnull : bool) (context : Z) : M St (Z * Z) :=
  if NULL =? delimiters then mret (NULL, context) else
  if negb nonnull then mret (NULL, context) else
  if (NULL =? context) && (NULL =? strToken) then mret (NULL, context) else
  let pStr := if NULL =? context then strToken else context in
  c ← read_char (pStr + 0);
  if c =? 0 then mret (NULL, context) else
  loop fuel (λ i,
    c ← read_char (pStr + i);
    if c =? 0 then mret (inr (pStr, pStr + i)) else
    found ← is_delimiter delimiters c;
    if (found : bool) then
      write_byte (pStr + i) 0;;
      mret (inr (pStr, pStr + u32 (i + 1)))
    else mret (inl (u32 (i + 1)))) 0.

Definition cl_strcelem (string delimiter : Z) : M St Z :=
  if NULL =? string then mret INVALID_STRING_SIZE else
  first ← cl_strchr string delimiter;
  loop fuel (λ '(curPosition, pPrevValue, noOfElements),
    if negb (curPosition =? pPrevValue) then
      let curPosition' := curPosition + 1 in
      next ← cl_strchr curPosition' delimiter;
      mret (inl (next, curPosition', u32 (noOfElements + 1)))
    else mret (inr noOfElements)) (first, string, 1).

Definition cl_strtrim (string : Z) : M St unit :=
  ASSERT (negb (NULL =? string));;
  startIndex ← loop fuel (λ i,
    c ← read_char (string + i);
    mret (if c =? 0 then inr MAX_DWORD
          else if negb (isspace c) then inr i
          else inl (u32 (i + 1)))) 0;
  if MAX_DWORD =? startIndex then write_byte (string + 0) 0 else
  length ← cl_strlen string;
  i0 ← cl_strlen string;
  lengthAfterRightTrim ← loop fuel (λ i,
    if startIndex <? i then
      c ← read_char (string + (i - 1));
      if negb (isspace c) then write_byte (string + i) 0;; mret (inr i)
      else mret (inl (u32 (i - 1)))
    else mret (inr length)) i0;
  if negb (0 =? startIndex) then
    ASSERT (negb (lengthAfterRightTrim =? 0));;
    cl_memmove string (string + startIndex) lengthAfterRightTrim
  else mret tt.
End Ops.

(** * Strings in memory *)
Lemma cstr_cons b p c cs :
  cstr_at b p (c :: cs) ↔ b !! p = Some c ∧ char_ok c ∧ cstr_at b (p + 1) cs.
Proof.
  unfold cstr_at. cbn [app]. rewrite bytes_at_cons, Forall_cons. tauto.
Qed.
Lemma cstr_nil b p : cstr_at b p [] ↔ b !! p = Some 0.
Proof.
  unfold cstr_at. cbn [app]. rewrite bytes_at_cons. split; [tauto|].
  intros Hp. split; [split; [done|apply bytes_at_nil]|done].
Qed.
Lemma char_ok_byte c : char_ok c → byte_ok c.
Proof. unfold char_ok, byte_ok. lia. Qed.
Lemma s8_char c : char_ok c → (s8 c =? 0) = false.
Proof. intros Hc. rewrite s8_zero by by apply char_ok_byte. apply Z.eqb_neq. unfold char_ok in Hc. lia. Qed.
Lemma s8_inj c d : byte_ok c → byte_ok d → s8 c = s8 d → c = d.
Proof.
  unfold byte_ok. intros Hc Hd. unfold s8, u8. rewrite !Z.mod_small by lia.
  destruct (Z.ltb_spec c (2 ^ 7)), (Z.ltb_spec d (2 ^ 7)); lia.
Qed.

Section Reads.
Context {St : Type} `{HasBytes St}.
Implicit Types (s : St) (p q : Z).

(** The first character of the string at [p]: the terminator, or a character. *)
Lemma read_char_nil s p : cstr_at (get_bytes s) p [] → read_char p s = Ret (0, s).
Proof. rewrite cstr_nil. intros Hp. by rewrite (read_char_run _ _ _ Hp). Qed.
Lemma read_char_cons s p c cs : cstr_at (get_bytes s) p (c :: cs) → read_char p s = Ret (s8 c, s).
Proof. rewrite cstr_cons. intros (Hp & _). by apply read_char_run. Qed.
Lemma cstr_tail b p c cs : cstr_at b p (c :: cs) → cstr_at b (p + 1) cs.
Proof. rewrite cstr_cons. tauto. Qed.
Lemma cstr_head b p c cs : cstr_at b p (c :: cs) → (s8 c =? 0) = false.
Proof. rewrite cstr_cons. intros (_ & Hc & _). by apply s8_char. Qed.
Lemma u32_succ i : 0 ≤ i → i + 1 < 2 ^ 32 → u32 (i + 1) = i + 1.
Proof. intros H1 H2. unfold u32. apply Z.mod_small. lia. Qed.

Lemma cl_strlen_run fuel s p cs :
  p ≠ NULL → cstr_at (get_bytes s) p cs → (length cs < fuel)%nat → Z.of_nat (length cs) < 2 ^ 32 →
  cl_strlen fuel p s = Ret (Z.of_nat (length cs), s).
Proof.
  intros Hp Hs Hf Hl. unfold cl_strlen. rewrite (proj2 (Z.eqb_neq NULL p)) by done.
  enough (∀ cs i f, (length cs < f)%nat → 0 ≤ i → i + Z.of_nat (length cs) < 2 ^ 32 →
    cstr_at (get_bytes s) (p + i) cs →
    loop f (λ i, c ← read_char (p + i); mret (if c =? 0 then inr i else inl (u32 (i + 1)))) i s
    = Ret (i + Z.of_nat (length cs), s)) as Hgen.
  { rewrite (Hgen cs); [done|done|lia|lia|by rewrite Z.add_0_r]. }
  clear. intros cs. induction cs as [|c cs IH]; intros i [|f] Hf Hi Hl Hs; cbn [length] in *; try lia.
  - erewrite loop_break by (mrun (read_char_nil _ _ Hs); reflexivity). by rewrite Z.add_0_r.
  - erewrite loop_continue by (mrun (read_char_cons _ _ _ _ Hs);
      rewrite (cstr_head _ _ _ _ Hs); reflexivity).
    rewrite u32_succ by lia. rewrite IH; [do 2 f_equal; lia|lia|lia|lia|].
    apply cstr_tail in Hs. by rewrite Z.add_assoc.
Qed.

Lemma both_chars_run s p q xs ys :
  cstr_at (get_bytes s) p xs → cstr_at (get_bytes s) q ys →
  both_chars p q s = Ret (match xs, ys with _ :: _, _ :: _ => true | _, _ => false end, s).
Proof.
  intros Hx Hy. unfold both_chars. destruct xs as [|x xs]; [by mrun (read_char_nil _ _ Hx)|].
  mrun (read_char_cons _ _ _ _ Hx). rewrite (cstr_head _ _ _ _ Hx).
  destruct ys as [|y ys]; [by mrun (read_char_nil _ _ Hy)|].
  mrun (read_char_cons _ _ _ _ Hy). by rewrite (cstr_head _ _ _ _ Hy).
Qed.
End Reads.

(** * Comparison *)
(** The order cl_strcmp decides: character by character, a string before its
    extensions. *)
Fixpoint str_order (conv : Z → Z) (xs ys : list Z) : Z :=
  match xs, ys with
  | [], [] => 0
  | [], _ :: _ => -1
  | _ :: _, [] => 1
  | x :: xs', y :: ys' =>
      match char_order (conv (s8 x)) (conv (s8 y)) with
      | Some r => r
      | None => str_order conv xs' ys'
      end
  end.
Lemma char_order_None a b : char_order a b = None ↔ a = b.
Proof.
  unfold char_order. destruct (Z.ltb_spec b a), (Z.ltb_spec a b); split; intros; try done; lia.
Qed.
Lemma char_order_Some a b r : char_order a b = Some r → (r = 1 ∧ b < a) ∨ (r = -1 ∧ a < b).
Proof. unfold char_order. destruct (Z.ltb_spec b a), (Z.ltb_spec a b); intros; simplify_eq; auto. Qed.
Lemma char_order_swap a b : char_order b a = Z.opp <$> char_order a b.
Proof. unfold char_order. destruct (Z.ltb_spec b a), (Z.ltb_spec a b); simpl; try done; lia. Qed.

Lemma str_order_swap conv xs ys : str_order conv ys xs = - str_order conv xs ys.
Proof.
  revert ys. induction xs as [|x xs IH]; intros [|y ys]; simpl; try done.
  rewrite char_order_swap. destruct (char_order _ _); simpl; [done|apply IH].
Qed.
Lemma str_order_zero conv xs ys :
  str_order conv xs ys = 0 ↔ map (λ c, conv (s8 c)) xs = map (λ c, conv (s8 c)) ys.
Proof.
  revert ys. induction xs as [|x xs IH]; intros [|y ys]; simpl; try done.
  destruct (char_order _ _) as [r|] eqn:E.
  - apply char_order_Some in E. split; [lia|]. intros Heq. simplify_eq. lia.
  - apply char_order_None in E. rewrite IH, E. split; [by intros ->|]. intros Heq. by simplify_eq.
Qed.
Lemma str_order_trans conv xs ys zs :
  str_order conv xs ys ≤ 0 → str_order conv ys zs ≤ 0 → str_order conv xs zs ≤ 0.
Proof.
  revert ys zs. induction xs as [|x xs IH]; intros [|y ys] [|z zs]; simpl; try (done || lia).
  destruct (char_order (conv (s8 x)) (conv (s8 y))) as [r1|] eqn:E1,
    (char_order (conv (s8 y)) (conv (s8 z))) as [r2|] eqn:E2,
    (char_order (conv (s8 x)) (conv (s8 z))) as [r3|] eqn:E3; intros H1 H2;
    repeat match goal with
    | H : char_order _ _ = Some _ |- _ => apply char_order_Some in H
    | H : char_order _ _ = None |- _ => apply char_order_None in H
    end; try lia. eauto.
Qed.
Lemma str_order_eq xs ys :
  Forall byte_ok xs → Forall byte_ok ys → str_order (λ c, c) xs ys = 0 → xs = ys.
Proof.
  intros Hx Hy Hz. apply str_order_zero in Hz. revert ys Hy Hz.
  induction Hx as [|x xs Hxo _ IH]; intros [|y ys] Hy Hz; simplify_eq/=; [done|].
  apply Forall_cons in Hy as [Hyo Hy]. f_equal; [by apply s8_inj|by apply IH].
Qed.

Section Compare.
Context {St : Type} `{HasBytes St}.
Implicit Types (s : St) (p q : Z).

(** The loop from its [i]-th character on, with what follows it. *)
Definition strcmp_from (fuel : nat) (conv : Z → Z) (str1 str2 i : Z) : M St Z :=
  r ← loop fuel (λ i,
    both ← both_chars (str1 + i) (str2 + i);
    if (both : bool) then
      c1 ← read_char (str1 + i);
      c2 ← read_char (str2 + i);
      mret (match char_order (conv c1) (conv c2) with
            | Some r => inr (inl r)
            | None => inl (u32 (i + 1))
            end)
    else mret (inr (inr i))) i;
  match r with
  | inl r => mret r
  | inr i =>
      c1 ← read_char (str1 + i);
      if negb (0 =? c1) then mret 1 else
      c2 ← read_char (str2 + i);
      if negb (0 =? c2) then mret (-1) else mret 0
  end.
Lemma strcmp_from_run fuel conv s p q xs ys i :
  cstr_at (get_bytes s) (p + i) xs → cstr_at (get_bytes s) (q + i) ys →
  (length xs < fuel)%nat → 0 ≤ i → i + Z.of_nat (length xs) < 2 ^ 32 →
  strcmp_from fuel conv p q i s = Ret (str_order conv xs ys, s).
Proof.
  revert fuel ys i. induction xs as [|x xs IH]; intros [|f] ys i Hx Hy Hf Hi Hl;
    cbn [length] in *; try lia; unfold strcmp_from;
    pose proof (both_chars_run _ _ _ _ _ Hx Hy) as Hb; destruct ys as [|y ys].
  - erewrite bind_Ret by (apply loop_break; mrun Hb; reflexivity). cbn beta iota.
    mrun (read_char_nil _ _ Hx). change (negb (0 =? 0)) with false; cbn iota. by mrun (read_char_nil _ _ Hy).
  - erewrite bind_Ret by (apply loop_break; mrun Hb; reflexivity). cbn beta iota.
    mrun (read_char_nil _ _ Hx). change (negb (0 =? 0)) with false; cbn iota. mrun (read_char_cons _ _ _ _ Hy).
    by rewrite Z.eqb_sym, (cstr_head _ _ _ _ Hy).
  - erewrite bind_Ret by (apply loop_break; mrun Hb; reflexivity). cbn beta iota.
    mrun (read_char_cons _ _ _ _ Hx). by rewrite Z.eqb_sym, (cstr_head _ _ _ _ Hx).
  - cbn [str_order]. destruct (char_order (conv (s8 x)) (conv (s8 y))) as [r|] eqn:E.
    + erewrite bind_Ret by (apply loop_break; mrun Hb; mrun (read_char_cons _ _ _ _ Hx);
        mrun (read_char_cons _ _ _ _ Hy); rewrite E; reflexivity). done.
    + unfold mbind at 1, M_bind at 1. erewrite loop_continue by (mrun Hb; mrun (read_char_cons _ _ _ _ Hx);
        mrun (read_char_cons _ _ _ _ Hy); rewrite E; reflexivity).
      rewrite u32_succ by lia.
      apply (IH f ys (i + 1)); [rewrite Z.add_assoc; by eapply cstr_tail..|lia|lia|lia].
Qed.
Lemma strcmp_with_run fuel conv s p q xs ys :
  p ≠ NULL → q ≠ NULL → cstr_at (get_bytes s) p xs → cstr_at (get_bytes s) q ys →
  (length xs < fuel)%nat → Z.of_nat (length xs) < 2 ^ 32 →
  strcmp_with fuel conv p q s = Ret (str_order conv xs ys, s).
Proof.
  intros Hp Hq Hx Hy Hf Hl. unfold strcmp_with.
  rewrite (proj2 (Z.eqb_neq NULL p)), (proj2 (Z.eqb_neq NULL q)) by done.
  apply strcmp_from_run; rewrite ?Z.add_0_r; done.
Qed.

(** Cl_strcmp decides a total order on the strings in memory: it returns 0 exactly for
    equal strings, the opposite sign for swapped arguments, and is transitive; cl_stricmp
    returns 0 exactly when the strings agree after tolower. *)
Theorem cl_strcmp_total_order fuel s p q o xs ys zs :
  p ≠ NULL → q ≠ NULL → o ≠ NULL →
  cstr_at (get_bytes s) p xs → cstr_at (get_bytes s) q ys → cstr_at (get_bytes s) o zs →
  (length xs < fuel)%nat → (length ys < fuel)%nat →
  Z.of_nat (length xs) < 2 ^ 32 → Z.of_nat (length ys) < 2 ^ 32 →
  ∃ r1 r2 r3 r4,
    cl_strcmp fuel p q s = Ret (r1, s) ∧ cl_strcmp fuel q o s = Ret (r2, s)
    ∧ cl_strcmp fuel p o s = Ret (r3, s) ∧ cl_stricmp fuel p q s = Ret (r4, s)
    ∧ (r1 = 0 ↔ xs = ys) ∧ cl_strcmp fuel q p s = Ret (- r1, s)
    ∧ (r1 ≤ 0 → r2 ≤ 0 → r3 ≤ 0)
    ∧ (r4 = 0 ↔ map (λ c, s8 (tolower (s8 c))) xs = map (λ c, s8 (tolower (s8 c))) ys).
Proof.
  intros Hp Hq Ho Hx Hy Hz Hfx Hfy Hlx Hly.
  eexists _, _, _, _. split_and!; try (by eapply strcmp_with_run).
  - split.
    + destruct Hx as [_ Hx], Hy as [_ Hy]. apply str_order_eq;
        (eapply Forall_impl; [done|]; intros c; apply char_ok_byte).
    + intros ->. by apply str_order_zero.
  - unfold cl_strcmp. erewrite strcmp_with_run by done. by rewrite str_order_swap.
  - apply str_order_trans.
  - apply str_order_zero.
Qed.
End Compare.

(** * Comparison of prefixes *)
Fixpoint strn_order (conv : Z → Z) (n : nat) (xs ys : list Z) : Z :=
  match n with
  | O => 0
  | S n' =>
      match xs, ys with
      | [], _ => -1
      | _ :: _, [] => 1
      | x :: xs', y :: ys' =>
          match char_order (conv (s8 x)) (conv (s8 y)) with
          | Some r => r
          | None => strn_order conv n' xs' ys'
          end
      end
  end.
Lemma strn_order_zero n xs ys :
  Forall byte_ok xs → Forall byte_ok ys →
  strn_order (λ c, c) n xs ys = 0 ↔ (n <= length xs)%nat ∧ (n <= length ys)%nat ∧ take n xs = take n ys.
Proof.
  intros Hx. revert n ys. induction Hx as [|x xs Hxo _ IH]; intros [|n] [|y ys] Hy; simpl;
    try (split; [intros; lia|by intros (? & ? & ?); try lia]); try (split; [intros; split_and!; (done || lia)|done]).
  apply Forall_cons in Hy as [Hyo Hy]. destruct (char_order _ _) as [r|] eqn:E.
  - apply char_order_Some in E. split; [lia|]. intros (_ & _ & Heq). simplify_eq. lia.
  - apply char_order_None in E. apply s8_inj in E as ->; [|done..]. rewrite IH by done.
    split; intros (H1 & H2 & H3); split_and!; try lia; [by rewrite H3|by simplify_eq].
Qed.

Section CompareN.
Context {St : Type} `{HasBytes St}.
Implicit Types (s : St) (p q : Z).

Definition strncmp_from (fuel : nat) (conv : Z → Z) (str1 str2 length i : Z) : M St Z :=
  r ← loop fuel (λ i,
    go ← (if i <? length then both_chars (str1 + i) (str2 + i) else mret false);
    if (go : bool) then
      c1 ← read_char (str1 + i);
      c2 ← read_char (str2 + i);
      mret (match char_order (conv c1) (conv c2) with
            | Some r => inr (inl r)
            | None => inl (u32 (i + 1))
            end)
    else mret (inr (inr i))) i;
  match r with
  | inl r => mret r
  | inr i =>
      if i =? length then mret 0 else
      c1 ← read_char (str1 + i);
      if negb (0 =? c1) then mret 1 else mret (-1)
  end.
Lemma strncmp_from_run fuel conv s p q n xs ys i :
  cstr_at (get_bytes s) (p + i) xs → cstr_at (get_bytes s) (q + i) ys →
  (n < fuel)%nat → 0 ≤ i → i + Z.of_nat n < 2 ^ 32 →
  strncmp_from fuel conv p q (i + Z.of_nat n) i s = Ret (strn_order conv n xs ys, s).
Proof.
  revert fuel xs ys i. induction n as [|n IH]; intros [|f] xs ys i Hx Hy Hf Hi Hl; try lia;
    unfold strncmp_from.
  { rewrite Z.add_0_r. erewrite bind_Ret by (apply loop_break; rewrite Z.ltb_irrefl; reflexivity).
    cbn beta iota. by rewrite Z.eqb_refl. }
  set (len := i + Z.of_nat (S n)). pose proof (both_chars_run _ _ _ _ _ Hx Hy) as Hb.
  assert (Hlt : (i <? len) = true) by (apply Z.ltb_lt; lia).
  assert (Hne : (i =? len) = false) by (apply Z.eqb_neq; lia).
  destruct xs as [|x xs]; [|destruct ys as [|y ys]].
  - erewrite bind_Ret by (apply loop_break; rewrite Hlt; mrun Hb; reflexivity). cbn beta iota.
    rewrite Hne. by mrun (read_char_nil _ _ Hx).
  - erewrite bind_Ret by (apply loop_break; rewrite Hlt; mrun Hb; reflexivity). cbn beta iota.
    rewrite Hne. mrun (read_char_cons _ _ _ _ Hx). by rewrite Z.eqb_sym, (cstr_head _ _ _ _ Hx).
  - cbn [strn_order]. destruct (char_order (conv (s8 x)) (conv (s8 y))) as [r|] eqn:E.
    + erewrite bind_Ret by (apply loop_break; rewrite Hlt; mrun Hb; mrun (read_char_cons _ _ _ _ Hx);
        mrun (read_char_cons _ _ _ _ Hy); rewrite E; reflexivity). done.
    + unfold mbind at 1, M_bind at 1. erewrite loop_continue by (rewrite Hlt; mrun Hb;
        mrun (read_char_cons _ _ _ _ Hx); mrun (read_char_cons _ _ _ _ Hy); rewrite E; reflexivity).
      rewrite u32_succ by lia. replace len with (i + 1 + Z.of_nat n) by lia.
      apply (IH f xs ys (i + 1)); [rewrite Z.add_assoc; by eapply cstr_tail..|lia|lia|lia].
Qed.

(** Cl_strncmp returns 0 exactly when both strings have [n] characters and these agree:
    equal strings shorter than the length given compare as different, with -1. *)
Theorem cl_strncmp_zero fuel s p q n xs ys :
  p ≠ NULL → q ≠ NULL → cstr_at (get_bytes s) p xs → cstr_at (get_bytes s) q ys →
  (0 < n < fuel)%nat → Z.of_nat n < 2 ^ 32 →
  ∃ r, cl_strncmp fuel p q (Z.of_nat n) s = Ret (r, s)
    ∧ (r = 0 ↔ (n <= length xs)%nat ∧ (n <= length ys)%nat ∧ take n xs = take n ys)
    ∧ (xs = ys → (length xs < n)%nat → r = -1).
Proof.
  intros Hp Hq Hx Hy Hn Hl. exists (strn_order (λ c, c) n xs ys). split_and!.
  - unfold cl_strncmp, strncmp_with.
    rewrite (proj2 (Z.eqb_neq NULL p)), (proj2 (Z.eqb_neq NULL q)), (proj2 (Z.eqb_neq 0 _)) by (done || lia).
    rewrite <-(Z.add_0_l (Z.of_nat n)).
    apply strncmp_from_run; rewrite ?Z.add_0_r; first [done|lia].
  - destruct Hx as [_ Hx], Hy as [_ Hy]. apply strn_order_zero;
      (eapply Forall_impl; [done|]; intros c; apply char_ok_byte).
  - intros <-. clear. revert n. induction xs as [|x xs IH]; intros [|n] Hl; simpl in *; try lia.
    rewrite (proj2 (char_order_None _ _)) by done. apply IH. lia.
Qed.
End CompareN.

(** * Copies *)
Section Copies.
Context {St : Type} `{HasBytes St}.
Implicit Types (s : St) (p q : Z).

Lemma strncpy_loop dst src n cs f i s :
  bytes_at (get_bytes s) (src + i) cs → Forall char_ok cs →
  i + Z.of_nat (length cs) ≤ n → n < 2 ^ 32 →
  (i + Z.of_nat (length cs) < n → get_bytes s !! (src + i + Z.of_nat (length cs)) = Some 0) →
  mapped (get_bytes s) (dst + i) (Z.of_nat (length cs)) →
  (dst + i + Z.of_nat (length cs) ≤ src + i ∨ src + i + Z.of_nat (length cs) < dst + i) →
  0 ≤ i → (length cs < f)%nat →
  loop f (λ i,
    if i <? n then
      c ← read_byte (src + i);
      if s8 c =? 0 then mret (inr i)
      else write_byte (dst + i) c;; mret (inl (u32 (i + 1)))
    else mret (inr i)) i s
  = Ret (i + Z.of_nat (length cs), set_bytes (store (get_bytes s) (dst + i) cs) s).
Proof.
  revert f i s. induction cs as [|c cs IH]; intros [|f] i s Hb Hok Hle Hlt Hend Hm Hd Hi Hf;
    cbn [length store] in *; try lia.
  - rewrite set_get_bytes, !Z.add_0_r in *. destruct (Z.ltb_spec i n) as [Hin|Hin].
    + erewrite loop_break; [done|]. rewrite (proj2 (Z.ltb_lt i n)) by done.
      by mrun (read_byte_ok _ _ _ (Hend Hin)).
    + erewrite loop_break; [done|]. by rewrite (proj2 (Z.ltb_ge i n)).
  - apply bytes_at_cons in Hb as [Hc Hb]. apply Forall_cons in Hok as [Hco Hok].
    erewrite loop_continue.
    2: { rewrite (proj2 (Z.ltb_lt i n)) by lia. mrun (read_byte_ok _ _ _ Hc). rewrite (s8_char c Hco).
         erewrite bind_Ret by (apply write_byte_ok, Hm; lia). rewrite u32_succ by lia. reflexivity. }
    rewrite u8_id by by apply char_ok_byte.
    rewrite IH; autorewrite with bytes.
    + do 2 f_equal; [lia|]. do 2 f_equal. lia.
    + eapply bytes_at_agree; [by rewrite Z.add_assoc|].
      intros r Hr. rewrite lookup_insert_ne by lia. done.
    + done.
    + lia.
    + done.
    + intros Hl. rewrite lookup_insert_ne by lia.
      replace (src + (i + 1) + Z.of_nat (length cs)) with (src + i + Z.of_nat (S (length cs))) by lia.
      apply Hend. lia.
    + intros r Hr. rewrite lookup_insert_ne by lia. apply Hm. lia.
    + lia.
    + lia.
    + lia.
Qed.
Lemma cl_strncpy_run fuel dst src n cs s :
  dst ≠ NULL → src ≠ NULL → 0 < n < 2 ^ 32 → Z.of_nat (length cs) ≤ n →
  bytes_at (get_bytes s) src cs → Forall char_ok cs →
  (Z.of_nat (length cs) < n → get_bytes s !! (src + Z.of_nat (length cs)) = Some 0) →
  mapped (get_bytes s) dst (Z.of_nat (length cs) + 1) →
  (dst + Z.of_nat (length cs) ≤ src ∨ src + Z.of_nat (length cs) < dst) →
  (length cs < fuel)%nat →
  cl_strncpy fuel dst src n s = Ret (tt, set_bytes (store (get_bytes s) dst (cs ++ [0])) s).
Proof.
  intros Hdn Hsn Hn Hle Hb Hok Hend Hm Hd Hf. unfold cl_strncpy.
  rewrite (proj2 (Z.eqb_neq NULL dst)), (proj2 (Z.eqb_neq NULL src)), (proj2 (Z.eqb_neq 0 n)) by (done || lia).
  cbn [negb]. do 3 massert ltac:(done).
  erewrite bind_Ret by (apply strncpy_loop; rewrite ?Z.add_0_r; try (done || lia);
    eapply mapped_sub; [exact Hm|lia|lia]). cbn beta iota. rewrite Z.add_0_r, Z.add_0_l.
  rewrite write_byte_ok.
  - autorewrite with bytes. rewrite store_app. done.
  - rewrite get_set_bytes. apply (mapped_store _ _ _ _ _ Hm). lia.
Qed.
End Copies.

(** * Tokens *)
(** The pieces of a string between delimiters; nothing follows a last delimiter. *)
Fixpoint tokens_from (D : Z → bool) (cs cur : list Z) : list (list Z) :=
  match cs with
  | [] => match cur with [] => [] | _ => [rev cur] end
  | c :: cs' => if D c then rev cur :: tokens_from D cs' [] else tokens_from D cs' (c :: cur)
  end.
Definition tokens (ds cs : list Z) : list (list Z) := tokens_from (λ c, bool_decide (c ∈ ds)) cs [].
(** The first piece, and what follows its delimiter. *)
Fixpoint break_at (D : Z → bool) (cs : list Z) : list Z * option (list Z) :=
  match cs with
  | [] => ([], None)
  | c :: cs' => if D c then ([], Some cs') else let '(t, r) := break_at D cs' in (c :: t, r)
  end.
Lemma tokens_break D cs cur :
  cs ≠ [] ∨ cur ≠ [] →
  tokens_from D cs cur = (rev cur ++ (break_at D cs).1)
    :: match (break_at D cs).2 with Some r => tokens_from D r [] | None => [] end.
Proof.
  revert cur. induction cs as [|c cs IH]; intros cur Hne; simpl.
  - destruct cur; [by destruct Hne|]. by rewrite app_nil_r.
  - destruct (D c); [by rewrite app_nil_r|]. rewrite IH by (by right).
    destruct (break_at D cs) as [t r]. simpl. by rewrite <-app_assoc.
Qed.
Lemma break_at_app D cs :
  cs = (break_at D cs).1 ++ match (break_at D cs).2 with
    | Some r => (nth (length (break_at D cs).1) cs 0) :: r | None => [] end.
Proof.
  induction cs as [|c cs IH]; simpl; [done|]. destruct (D c); [done|].
  destruct (break_at D cs) as [t r]. simpl in *. by rewrite <-IH.
Qed.

Section Strtok.
Context {St : Type} `{HasBytes St}.
Variables (fuel : nat) (delimiters : Z) (ds : list Z).
Hypotheses (Hd : delimiters ≠ NULL) (Hdf : (length ds < fuel)%nat) (Hdl : Z.of_nat (length ds) < 2 ^ 32).
Implicit Types (s : St) (p : Z).
#[local] Abbreviation D := (λ c, bool_decide (c ∈ ds)).

Lemma is_delimiter_run s c :
  cstr_at (get_bytes s) delimiters ds → byte_ok c →
  is_delimiter fuel delimiters (s8 c) s = Ret (D c, s).
Proof.
  intros Hs Hc. unfold is_delimiter.
  enough (∀ ds i f, (length ds < f)%nat → 0 ≤ i → i + Z.of_nat (length ds) < 2 ^ 32 →
    cstr_at (get_bytes s) (delimiters + i) ds →
    loop f (λ j, d ← read_char (delimiters + j);
      mret (if d =? 0 then inr false else if s8 c =? d then inr true else inl (u32 (j + 1)))) i s
    = Ret (bool_decide (c ∈ ds), s)) as Hgen by (apply Hgen; rewrite ?Z.add_0_r; (done || lia)).
  clear -Hc. intros ds. induction ds as [|d ds IH]; intros i [|f] Hf Hi Hl Hs; cbn [length] in *; try lia.
  - erewrite loop_break by (mrun (read_char_nil _ _ Hs); reflexivity).
    by rewrite bool_decide_eq_false_2 by apply not_elem_of_nil.
  - pose proof (cstr_head _ _ _ _ Hs) as Hh. pose proof Hs as Hs0. apply cstr_cons in Hs0 as (_ & Hdo & _).
    destruct (Z.eqb_spec (s8 c) (s8 d)) as [He|He].
    + erewrite loop_break by (mrun (read_char_cons _ _ _ _ Hs); rewrite Hh, He, Z.eqb_refl; reflexivity).
      apply s8_inj in He as ->; [|done|by apply char_ok_byte].
      by rewrite bool_decide_eq_true_2 by (by left).
    + erewrite loop_continue by (mrun (read_char_cons _ _ _ _ Hs); rewrite Hh;
        rewrite (proj2 (Z.eqb_neq (s8 c) (s8 d))) by done; reflexivity).
      rewrite u32_succ, IH; [|lia|lia|lia| |lia|lia].
      * do 2 f_equal. apply bool_decide_ext. rewrite elem_of_cons. split; [by right|].
        intros [->|]; done.
      * rewrite Z.add_assoc. by eapply cstr_tail.
Qed.

(** One call on a string that is not empty. *)
Lemma strtok_loop s p i f cs :
  cstr_at (get_bytes s) (p + i) cs → cstr_at (get_bytes s) delimiters ds →
  (length cs < f)%nat → 0 ≤ i → i + Z.of_nat (length cs) < 2 ^ 32 →
  let k := i + Z.of_nat (length (break_at D cs).1) in
  loop f (λ i,
    c ← read_char (p + i);
    if c =? 0 then mret (inr (p, p + i)) else
    found ← is_delimiter fuel delimiters c;
    if (found : bool) then
      write_byte (p + i) 0;;
      mret (inr (p, p + u32 (i + 1)))
    else mret (inl (u32 (i + 1)))) i s
  = Ret (match (break_at D cs).2 with
         | Some _ => (p, p + k + 1) | None => (p, p + k) end,
      match (break_at D cs).2 with
      | Some _ => set_bytes (<[p + k := 0]> (get_bytes s)) s | None => s end).
Proof.
  revert i f. induction cs as [|c cs IH]; intros i [|f] Hs Hds Hf Hi Hl k; cbn [length] in *; try lia.
  - erewrite loop_break by (mrun (read_char_nil _ _ Hs); reflexivity).
    unfold k. simpl. by rewrite Z.add_0_r.
  - pose proof (cstr_head _ _ _ _ Hs) as Hh. pose proof Hs as Hs0. apply cstr_cons in Hs0 as (Hb & Hco & _).
    pose proof (is_delimiter_run s c Hds (char_ok_byte _ Hco)) as Hdel.
    cbn [break_at] in *. cbn beta in *. destruct (bool_decide (c ∈ ds)) eqn:E.
    + erewrite loop_break.
      2: { mrun (read_char_cons _ _ _ _ Hs). rewrite Hh. mrun Hdel.
           erewrite bind_Ret by (by apply write_byte_ok). reflexivity. }
      unfold k. simpl. by rewrite u32_succ, Z.add_0_r, Z.add_assoc by lia.
    + erewrite loop_continue.
      2: { mrun (read_char_cons _ _ _ _ Hs). rewrite Hh. mrun Hdel. reflexivity. }
      rewrite u32_succ by lia. rewrite (IH (i + 1) f); [|rewrite Z.add_assoc; by eapply cstr_tail|done|lia..].
      unfold k. destruct (break_at D cs) as [t r]. cbn [fst snd length].
      replace (i + 1 + Z.of_nat (length t)) with (i + Z.of_nat (S (length t))) by lia. done.
Qed.

Lemma strtok_call s p strToken context cs :
  context = p ∧ p ≠ NULL ∨ context = NULL ∧ strToken = p ∧ p ≠ NULL →
  cstr_at (get_bytes s) p cs → cstr_at (get_bytes s) delimiters ds →
  (length cs < fuel)%nat → Z.of_nat (length cs) < 2 ^ 32 →
  let k := Z.of_nat (length (break_at D cs).1) in
  cl_strtok_s fuel strToken delimiters true context s =
  match cs with
  | [] => Ret ((NULL, context), s)
  | _ => Ret (match (break_at D cs).2 with Some _ => (p, p + k + 1) | None => (p, p + k) end,
      match (break_at D cs).2 with
      | Some _ => set_bytes (<[p + k := 0]> (get_bytes s)) s | None => s end)
  end.
Proof.
  intros Hctx Hs Hds Hf Hl k. unfold cl_strtok_s. rewrite (proj2 (Z.eqb_neq NULL delimiters)) by done.
  cbn [negb].
  assert (Hp : (NULL =? context) && (NULL =? strToken) = false ∧ (if NULL =? context then strToken else context) = p).
  { destruct Hctx as [[-> Hp]|(-> & -> & Hp)].
    - by rewrite (proj2 (Z.eqb_neq NULL p)).
    - rewrite Z.eqb_refl. split; [|done]. cbn [andb]. by apply Z.eqb_neq. }
  destruct Hp as [-> ->]. rewrite Z.add_0_r. destruct cs as [|c cs].
  - by mrun (read_char_nil _ _ Hs).
  - mrun (read_char_cons _ _ _ _ Hs). rewrite (cstr_head _ _ _ _ Hs).
    rewrite (strtok_loop s p 0 fuel (c :: cs)); rewrite ?Z.add_0_r; try done.
Qed.

(** Call until there is no further token. *)
Fixpoint strtok_calls (n : nat) (strToken context : Z) : M St (list Z) :=
  match n with
  | O => λ _, OutOfFuel
  | S n' =>
      '(token, context) ← cl_strtok_s fuel strToken delimiters true context;
      if token =? NULL then mret [] else
      rest ← strtok_calls n' NULL context;
      mret (token :: rest)
  end.

Lemma strtok_calls_run n p strToken context cs s :
  0 < p → (context = p ∨ context = NULL ∧ strToken = p) →
  cstr_at (get_bytes s) p cs → cstr_at (get_bytes s) delimiters ds →
  (∀ q, p ≤ q ≤ p + Z.of_nat (length cs) → ¬ (delimiters ≤ q ≤ delimiters + Z.of_nat (length ds))) →
  (length cs < fuel)%nat → Z.of_nat (length cs) < 2 ^ 32 → (length cs < n)%nat →
  ∃ ps b', strtok_calls n strToken context s = Ret (ps, set_bytes b' s)
    ∧ Forall2 (λ q t, cstr_at b' q t ∧ p ≤ q) ps (tokens ds cs)
    ∧ (∀ q, ¬ (p ≤ q < p + Z.of_nat (length cs)) → b' !! q = get_bytes s !! q).
Proof.
  revert p strToken context cs s. induction n as [|n IH];
    intros p strToken context cs s Hp Hctx Hs Hds Hdisj Hf Hl Hn; [lia|]. cbn [strtok_calls].
  assert (Hctx' : context = p ∧ p ≠ NULL ∨ context = NULL ∧ strToken = p ∧ p ≠ NULL) by (unfold NULL; intuition lia).
  pose proof (strtok_call s p strToken context cs Hctx' Hs Hds Hf Hl) as Hcall. cbv zeta in Hcall.
  assert (Hpn : (p =? NULL) = false) by (apply Z.eqb_neq; unfold NULL; lia).
  destruct cs as [|c cs0] eqn:Ecs.
  { mrun Hcall. exists [], (get_bytes s). split; [by rewrite set_get_bytes|]. by split; [constructor|]. }
  rewrite <-Ecs in *. assert (Hne : cs ≠ []) by (by rewrite Ecs).
  assert (Htok : tokens ds cs = (break_at D cs).1
    :: match (break_at D cs).2 with Some r => tokens ds r | None => [] end).
  { unfold tokens. rewrite tokens_break by (by left). done. }
  pose proof (break_at_app D cs) as Happ.
  destruct (break_at D cs) as [t [r|]] eqn:Eb; cbn [fst snd] in *.
  - set (k := Z.of_nat (length t)) in *. set (s1 := set_bytes (<[p + k:=0]> (get_bytes s)) s).
    assert (Hlen : (length cs = length t + S (length r))%nat) by (rewrite Happ at 1; rewrite length_app; done).
    destruct Hs as [Hb Hok]. rewrite Happ in Hb, Hok. rewrite <-app_assoc in Hb. cbn [app] in Hb.
    apply bytes_at_app in Hb as [Hb1 Hb2]. apply bytes_at_cons in Hb2 as [_ Hb2]. fold k in Hb2.
    apply Forall_app in Hok as [Hok1 Hok2]. apply Forall_cons in Hok2 as [_ Hok2].
    destruct (IH (p + k + 1) NULL (p + k + 1) r s1) as (ps & b' & Hr & Hps & Hfr);
      [lia|by left|..].
    + split; [|done]. unfold s1. rewrite get_set_bytes. eapply bytes_at_agree; [exact Hb2|].
      intros q Hq. by rewrite lookup_insert_ne by lia.
    + eapply cstr_at_agree; [exact Hds|]. intros q Hq. unfold s1. rewrite get_set_bytes.
      rewrite lookup_insert_ne; [done|]. intros He. apply (Hdisj q); lia.
    + intros q Hq. apply Hdisj. lia.
    + lia.
    + lia.
    + lia.
    + exists (p :: ps), b'. split_and!.
      * mrun Hcall. fold s1. rewrite Hpn. mrun Hr. unfold s1. by autorewrite with bytes.
      * rewrite Htok. constructor; [split; [|lia]|].
        -- split; [|done]. apply bytes_at_app. split.
           ++ eapply bytes_at_agree; [exact Hb1|]. intros q Hq. rewrite Hfr by lia. unfold s1.
              rewrite get_set_bytes. by rewrite lookup_insert_ne by lia.
           ++ apply bytes_at_cons. split; [|apply bytes_at_nil]. rewrite Hfr by lia. unfold s1.
              rewrite get_set_bytes. apply lookup_insert_eq.
        -- eapply Forall2_impl; [exact Hps|]. intros q t' [? ?]. split; [done|lia].
      * intros q Hq. rewrite Hfr by lia. unfold s1. rewrite get_set_bytes. by rewrite lookup_insert_ne by lia.
  - rewrite app_nil_r in Happ. subst t. set (k := Z.of_nat (length cs)) in *.
    destruct (IH (p + k) NULL (p + k) [] s) as (ps & b' & Hr & Hps & Hfr);
      [lia|by left| |done|..].
    + destruct Hs as [Hb _]. apply bytes_at_app in Hb as [_ Hb]. by split.
    + intros q Hq. apply Hdisj. simpl in Hq. lia.
    + simpl. lia.
    + simpl. lia.
    + rewrite Ecs in Hn. simpl in *. lia.
    + exists (p :: ps), b'. inversion Hps; subst ps. simpl in Hfr. split_and!.
      * mrun Hcall. rewrite Hpn. by mrun Hr.
      * rewrite Htok. constructor; [split; [|lia]|constructor].
        eapply cstr_at_agree; [exact Hs|]. intros q Hq. apply Hfr. lia.
      * intros q Hq. apply Hfr. lia.
Qed.

(** Calling cl_strtok_s until it returns NULL yields pointers to the pieces of the string
    between delimiter characters, in order, each terminated in place; empty pieces are
    returned too, except after a last delimiter; nothing outside the string changes. *)
Theorem cl_strtok_s_tokens p cs s :
  0 < p → cstr_at (get_bytes s) p cs → cstr_at (get_bytes s) delimiters ds →
  (∀ q, p ≤ q ≤ p + Z.of_nat (length cs) → ¬ (delimiters ≤ q ≤ delimiters + Z.of_nat (length ds))) →
  (length cs < fuel)%nat → Z.of_nat (length cs) < 2 ^ 32 →
  ∃ ps s', strtok_calls (S (length cs)) p NULL s = Ret (ps, s')
    ∧ Forall2 (λ q t, cstr_at (get_bytes s') q t) ps (tokens ds cs)
    ∧ (∀ q, ¬ (p ≤ q < p + Z.of_nat (length cs)) → get_bytes s' !! q = get_bytes s !! q).
Proof.
  intros Hp Hs Hds Hdisj Hf Hl.
  destruct (strtok_calls_run (S (length cs)) p p NULL cs s) as (ps & b' & Hr & Hps & Hfr);
    [done|by right|done..|lia|].
  exists ps, (set_bytes b' s). rewrite get_set_bytes. split_and!; [done| |done].
  eapply Forall2_impl; [exact Hps|]. by intros q t [? _].
Qed.
End Strtok.

(** * Trimming *)
Section Strtrim.
Context {St : Type} `{HasBytes St}.
Variables (fuel : nat).
Implicit Types (s : St) (p : Z).
Definition space (c : Z) : Prop := isspace (s8 c) = true.

Lemma trim_left_loop s p i f sp rest :
  cstr_at (get_bytes s) (p + i) (sp ++ rest) → Forall space sp →
  match rest with [] => True | x :: _ => ¬ space x end →
  (length sp < f)%nat → 0 ≤ i → i + Z.of_nat (length sp) + 1 < 2 ^ 32 →
  loop f (λ i, c ← read_char (p + i);
    mret (if c =? 0 then inr MAX_DWORD
          else if negb (isspace c) then inr i
          else inl (u32 (i + 1)))) i s
  = Ret (match rest with [] => MAX_DWORD | _ => i + Z.of_nat (length sp) end, s).
Proof.
  revert i f. induction sp as [|c sp IH]; intros i [|f] Hs Hsp Hr Hf Hi Hl; cbn [length app] in *; try lia.
  - destruct rest as [|x rest].
    + by erewrite loop_break by (mrun (read_char_nil _ _ Hs); reflexivity).
    + unfold space in Hr. apply not_true_is_false in Hr.
      erewrite loop_break; [by rewrite Z.add_0_r|].
      mrun (read_char_cons _ _ _ _ Hs). by rewrite (cstr_head _ _ _ _ Hs), Hr.
  - apply Forall_cons in Hsp as [Hc Hsp]. unfold space in Hc.
    erewrite loop_continue.
    2: { mrun (read_char_cons _ _ _ _ Hs). rewrite (cstr_head _ _ _ _ Hs), Hc. reflexivity. }
    rewrite u32_succ by lia. rewrite IH; [|rewrite Z.add_assoc; by eapply cstr_tail|done|done|lia..].
    destruct rest; [done|]. do 2 f_equal. lia.
Qed.
Lemma trim_right_loop s p start len f pre y sp z :
  bytes_at (get_bytes s) p (pre ++ y :: sp ++ [z]) → ¬ space y → Forall space sp →
  (length sp < f)%nat → 0 ≤ start < Z.of_nat (length pre) + 1 →
  let n := Z.of_nat (length pre) + 1 in
  n + Z.of_nat (length sp) < 2 ^ 32 →
  loop f (λ i,
    if start <? i then
      c ← read_char (p + (i - 1));
      if negb (isspace c) then write_byte (p + i) 0;; mret (inr i)
      else mret (inl (u32 (i - 1)))
    else mret (inr len)) (n + Z.of_nat (length sp)) s
  = Ret (n, set_bytes (<[p + n := 0]> (get_bytes s)) s).
Proof.
  intros Hb Hy. revert f z Hb. induction sp as [|c sp IH] using rev_ind;
    intros [|f] z Hb Hsp Hf Hst n Hl; try lia.
  - cbn [length app] in *. rewrite Z.add_0_r. unfold space in Hy. apply not_true_is_false in Hy.
    apply bytes_at_app in Hb as [_ Hb]. apply bytes_at_cons in Hb as [Hb1 Hb2].
    apply bytes_at_cons in Hb2 as [Hb2 _]. apply loop_break.
    rewrite (proj2 (Z.ltb_lt start n)) by lia. replace (p + (n - 1)) with (p + Z.of_nat (length pre)) by lia.
    mrun (read_char_run _ _ _ Hb1). rewrite Hy. cbn [negb].
    erewrite bind_Ret by (apply write_byte_ok; exists z; rewrite <-Hb2; f_equal; lia). done.
  - apply Forall_app in Hsp as [Hsp Hc]. apply Forall_cons in Hc as [Hc _]. unfold space in Hc.
    rewrite length_app in *. cbn [length] in *.
    assert (Hb0 : bytes_at (get_bytes s) p ((pre ++ y :: sp ++ [c]) ++ [z])) by (by rewrite <-app_assoc).
    apply bytes_at_app in Hb0 as [Hb0 _].
    assert (Hb1 : bytes_at (get_bytes s) p ((pre ++ y :: sp) ++ [c])) by (by rewrite <-app_assoc).
    apply bytes_at_app in Hb1 as [_ Hb1]. rewrite length_app in Hb1. cbn [length] in Hb1.
    apply bytes_at_cons in Hb1 as [Hb1 _].
    erewrite loop_continue.
    2: { rewrite (proj2 (Z.ltb_lt start _)) by lia.
         replace (p + (n + Z.of_nat (length sp + 1) - 1)) with (p + Z.of_nat (length pre + S (length sp))) by lia.
         mrun (read_char_run _ _ _ Hb1). rewrite Hc. reflexivity. }
    replace (u32 (n + Z.of_nat (length sp + 1) - 1)) with (n + Z.of_nat (length sp))
      by (unfold u32; rewrite Z.mod_small by lia; lia).
    apply (IH f c); [done|done|lia|done|lia].
Qed.

(** A non-empty text between blanks, as its first and as its last character. *)
Record trimmed (mid : list Z) : Prop := {
  trimmed_first : ∃ x r, mid = x :: r ∧ ¬ space x;
  trimmed_last : ∃ r y, mid = r ++ [y] ∧ ¬ space y
}.

Section Text.
Variables (s : St) (p : Z) (sp1 mid sp2 extra : list Z).
Hypotheses (Hp0 : 0 < p) (Hok : Forall char_ok (sp1 ++ mid ++ sp2)) (Hex : Forall byte_ok extra)
  (Hb : bytes_at (get_bytes s) p (sp1 ++ mid ++ sp2 ++ 0 :: extra))
  (Hs1 : Forall space sp1) (Hs2 : Forall space sp2) (Htrim : trimmed mid)
  (Hf : (length (sp1 ++ mid ++ sp2) < fuel)%nat) (Hl : Z.of_nat (length (sp1 ++ mid ++ sp2)) + 1 < 2 ^ 32).
#[local] Abbreviation n := (Z.of_nat (length sp1 + length mid)).
#[local] Abbreviation b1 := (<[p + n := 0]> (get_bytes s)).

(** The scans from both ends, and the terminator behind the last character. *)
Lemma strtrim_cut :
  cl_strtrim fuel p s = (if negb (0 =? Z.of_nat (length sp1)) then
      ASSERT (negb (n =? 0));; cl_memmove p (p + Z.of_nat (length sp1)) n
    else mret tt) (set_bytes b1 s).
Proof.
  destruct Htrim as [(x & r1 & Hx & Hxs) (r2 & y & Hy & Hys)].
  assert (Hp : p ≠ NULL) by (unfold NULL; lia).
  set (cs := sp1 ++ mid ++ sp2) in *.
  assert (Hcl : (length cs = length sp1 + length mid + length sp2)%nat)
    by (unfold cs; rewrite !length_app; lia).
  assert (Hml : (length mid = length r2 + 1)%nat) by (rewrite Hy, length_app; done).
  assert (Hcs : cstr_at (get_bytes s) p cs).
  { split; [|done]. apply (bytes_at_app _ _ _ extra). unfold cs. by rewrite <-!app_assoc. }
  assert (Hms : mid ++ sp2 = x :: (r1 ++ sp2)) by (by rewrite Hx).
  assert (Hcs0 : cstr_at (get_bytes s) (p + 0) (sp1 ++ x :: (r1 ++ sp2))) by (by rewrite Z.add_0_r, <-Hms).
  assert (Hfu : (length sp1 < fuel)%nat) by lia.
  assert (Hfl : 0 + Z.of_nat (length sp1) + 1 < 2 ^ 32) by lia.
  pose proof (trim_left_loop s p 0 fuel sp1 (x :: (r1 ++ sp2)) Hcs0 Hs1 Hxs Hfu (Z.le_refl 0) Hfl) as Hfirst.
  assert (Hright := trim_right_loop s p (Z.of_nat (length sp1)) (Z.of_nat (length cs)) fuel
    (sp1 ++ r2) y sp2 0). rewrite length_app in Hright. cbv zeta in Hright.
  replace (Z.of_nat (length sp1 + length r2) + 1) with n in Hright by lia.
  replace (n + Z.of_nat (length sp2)) with (Z.of_nat (length cs)) in Hright by lia.
  specialize (Hright ltac:(rewrite Hy in Hb; apply (bytes_at_app _ _ _ extra);
    rewrite <-!app_assoc in *; cbn [app] in *; by rewrite <-app_assoc) Hys Hs2 ltac:(lia) ltac:(lia) ltac:(lia)).
  unfold cl_strtrim. massert ltac:(by apply negb_true_iff, Z.eqb_neq). mrun Hfirst.
    rewrite Z.add_0_l, (proj2 (Z.eqb_neq MAX_DWORD _)) by (unfold MAX_DWORD; lia).
    pose proof (cl_strlen_run fuel s p cs Hp Hcs Hf ltac:(lia)) as Hlen. mrun Hlen. mrun Hlen.
    by mrun Hright.
Qed.

(** Memory once the terminator is in place. *)
Lemma strtrim_memory : ∃ tail,
  Forall byte_ok tail ∧ (length tail = length sp2 + length extra)%nat
  ∧ bytes_at b1 p (sp1 ++ (mid ++ 0 :: tail)).
Proof.
  assert (Htail : ∃ z tail, sp2 ++ 0 :: extra = z :: tail ∧ Forall byte_ok tail
    ∧ (length tail = length sp2 + length extra)%nat).
  { assert (Hall : Forall byte_ok (sp2 ++ 0 :: extra)).
    { apply Forall_app. split; [|by constructor]. apply Forall_app in Hok as [_ Hok].
      apply Forall_app in Hok as [_ Hok]. eapply Forall_impl; [exact Hok|apply char_ok_byte]. }
    destruct (sp2 ++ 0 :: extra) as [|z tail] eqn:E; [by destruct sp2|]. exists z, tail.
    apply Forall_cons in Hall as [_ Hall]. split_and!; [done|done|].
    apply (f_equal length) in E. rewrite length_app in E. simpl in E. lia. }
  destruct Htail as (z & tail & Htl & Htok & Htn). exists tail. split_and!; [done|done|].
  assert (Hb' := Hb). rewrite Htl in Hb'.
  rewrite app_assoc in *. apply bytes_at_app in Hb' as [Hb1 Hb2]. rewrite length_app in Hb2. 
    apply bytes_at_app. rewrite length_app. split.
    - eapply bytes_at_agree; [exact Hb1|]. intros q Hq. rewrite length_app in Hq.
      by rewrite lookup_insert_ne by lia.
    - apply bytes_at_cons in Hb2 as [_ Hb2]. apply bytes_at_cons. split; [apply lookup_insert_eq|].
      eapply bytes_at_agree; [exact Hb2|]. intros q Hq. by rewrite lookup_insert_ne by lia.
Qed.
End Text.

(** Cl_strtrim removes the blanks around the text of a string, in place, provided the
    bytes behind the terminator that it also moves are readable; when the leading blanks are
    at least two, none trail and the byte behind the terminator is not readable, it faults. *)
Theorem cl_strtrim_trims s p sp1 mid sp2 extra :
  0 < p → Forall char_ok (sp1 ++ mid ++ sp2) → Forall byte_ok extra →
  bytes_at (get_bytes s) p (sp1 ++ mid ++ sp2 ++ 0 :: extra) →
  Forall space sp1 → Forall space sp2 → trimmed mid →
  (length (sp1 ++ mid ++ sp2) < fuel)%nat → Z.of_nat (length (sp1 ++ mid ++ sp2)) + 1 < 2 ^ 32 →
  ((length sp1 <= length sp2 + 1 + length extra)%nat →
     ∃ b', cl_strtrim fuel p s = Ret (tt, set_bytes b' s) ∧ cstr_at b' p mid)
  ∧ ((2 <= length sp1)%nat → sp2 = [] → get_bytes s !! (p + Z.of_nat (length (sp1 ++ mid)) + 1) = None →
     cl_strtrim fuel p s = Fault).
Proof.
  intros Hp0 Hok Hex Hb Hs1 Hs2 Htrim Hf Hl.
  rewrite (strtrim_cut s p sp1 mid sp2 extra) by done.
  destruct (strtrim_memory s p sp1 mid sp2 extra) as (tail & Htok & Htn & Hb1); try done.
  set (n := Z.of_nat (length sp1 + length mid)) in *. set (b1 := <[p + n := 0]> (get_bytes s)) in *.
  assert (Hp : p ≠ NULL) by (unfold NULL; lia).
  assert (Hmid : Forall char_ok mid).
  { rewrite !Forall_app in Hok. tauto. }
  split.
  - intros Hroom. destruct sp1 as [|c1 sp1'].
    + exists b1. split; [done|]. split; [|done]. rewrite app_nil_l in Hb1.
      apply (bytes_at_app _ _ (mid ++ [0]) tail). by rewrite <-app_assoc.
    + set (bs := take (Z.to_nat n) (mid ++ 0 :: tail)).
      assert (Hbs : length bs = Z.to_nat n).
      { unfold bs. rewrite length_take, length_app. cbn [length] in *. lia. }
      assert (Hbe : bs = mid ++ [0] ++ take (length sp1') tail).
      { unfold bs, n. rewrite Nat2Z.id. cbn [length]. rewrite Nat.add_comm, take_app_add.
        f_equal. }
      assert (Hbok : Forall byte_ok bs).
      { rewrite Hbe. apply Forall_app. split; [eapply Forall_impl; [exact Hmid|apply char_ok_byte]|].
        apply Forall_app. split; [by repeat constructor|by apply Forall_take]. }
      rewrite (proj2 (Z.eqb_neq 0 _)) by (cbn [length]; lia). cbn [negb].
      massert ltac:(apply negb_true_iff, Z.eqb_neq; unfold n; cbn [length]; lia).
      exists (store b1 p bs). apply bytes_at_app in Hb1 as [Hb0 Hb1]. split.
      * replace n with (Z.of_nat (length bs)) by (rewrite Hbs; lia).
        rewrite cl_memmove_run; autorewrite with bytes; [done|done|unfold NULL; lia|done| | |left; lia].
        -- rewrite <-(firstn_skipn (Z.to_nat n) (mid ++ 0 :: tail)) in Hb1.
           by apply bytes_at_app in Hb1 as [? _].
        -- apply bytes_at_mapped in Hb0. apply bytes_at_mapped in Hb1.
           intros q Hq. rewrite length_app in Hb1. cbn [length] in *.
           destruct (decide (q < p + Z.of_nat (S (length sp1')))); [apply Hb0; lia|apply Hb1; lia].
      * split; [|done]. pose proof (store_at b1 p bs) as Hst.
        rewrite map_u8_id in Hst by done.
        rewrite Hbe, app_assoc in Hst |- *. by apply bytes_at_app in Hst as [? _].
  - intros H2 -> Hbad. rewrite (proj2 (Z.eqb_neq 0 _)) by lia. cbn [negb].
    massert ltac:(apply negb_true_iff, Z.eqb_neq; unfold n; lia).
    apply (cl_memmove_fault _ _ _ (length mid + 1)); [done|unfold NULL; lia|lia|].
    rewrite get_set_bytes. unfold b1. rewrite lookup_insert_ne by lia. rewrite <-Hbad, length_app.
    f_equal. lia.
Qed.
End Strtrim.

(** * Concrete runs *)
Module ClStringExample.
Definition place (p : Z) (bs : list Z) : list (Z * Z) := imap (λ i v, (p + Z.of_nat i, v)) bs.
(** a, ab and the empty string; a,,b to cut at the comma; two blanks, x and a blank. *)
Definition mem : gmap Z Z := list_to_map
  (place 1000 [97; 0] ++ place 1010 [97; 98; 0] ++ place 1020 [0]
   ++ place 2000 [97; 44; 44; 98; 0] ++ place 2010 [44; 0]
   ++ place 3000 [32; 32; 120; 32; 0]).
Lemma cstr_check b p cs :
  bytes_atb b p (cs ++ [0]) && forallb (λ c, (0 <? c) && (c <? 256)) cs = true → cstr_at b p cs.
Proof.
  intros [H1 H2]%andb_true_iff. split; [by apply bytes_atb_sound|].
  apply Forall_forall. intros c Hc. rewrite forallb_forall in H2. specialize (H2 c).
  rewrite <-list_elem_of_In in H2. specialize (H2 Hc). apply andb_true_iff in H2 as [H2 H3].
  apply Z.ltb_lt in H2, H3. done.
Qed.

Lemma cl_strcmp_total_order_witness : cl_strcmp 10 1010 1000 mem = Ret (1, mem).
Proof.
  destruct (cl_strcmp_total_order 10 mem 1000 1010 1020 [97] [97; 98] [])
    as (r1 & r2 & r3 & r4 & H1 & H2 & H3 & H4 & He & H5 & _).
  1-3: discriminate.
  1-3: apply cstr_check; by vm_compute.
  1-4: simpl; lia.
  rewrite H5. by vm_compute in H1; injection H1 as <-.
Defined.
Lemma cl_strncmp_zero_witness : ∃ r, cl_strncmp 10 1000 1000 4 mem = Ret (r, mem) ∧ r = -1.
Proof.
  destruct (cl_strncmp_zero 10 mem 1000 1000 4 [97] [97]) as (r & Hr & _ & H1).
  1-2: discriminate.
  1-2: apply cstr_check; by vm_compute.
  1-2: lia.
  exists r. split; [exact Hr|]. apply H1; [done|simpl; lia].
Defined.
Lemma cl_strtok_s_tokens_witness : ∃ ps s',
  strtok_calls 10 2010 5 2000 NULL mem = Ret (ps, s')
  ∧ Forall2 (λ q t, cstr_at (get_bytes s') q t) ps [[97]; []; [98]].
Proof.
  destruct (cl_strtok_s_tokens 10 2010 [44]) with (p := 2000) (cs := [97; 44; 44; 98]) (s := mem)
    as (ps & s' & Hr & Hps & _).
  - discriminate.
  - simpl. lia.
  - simpl. lia.
  - lia.
  - apply cstr_check. by vm_compute.
  - apply cstr_check. by vm_compute.
  - simpl. lia.
  - simpl. lia.
  - simpl. lia.
  - exists ps, s'. split; [exact Hr|exact Hps].
Defined.
Lemma cl_strtrim_trims_witness : ∃ b', cl_strtrim 10 3000 mem = Ret (tt, b') ∧ cstr_at b' 3000 [120].
Proof.
  destruct (cl_strtrim_trims 10 mem 3000 [32; 32] [120] [32] []) as [Ht _].
  - lia.
  - by repeat constructor.
  - constructor.
  - apply bytes_atb_sound. by vm_compute.
  - by repeat constructor.
  - by repeat constructor.
  - split; [by exists 120, []|by exists [], 120].
  - simpl. lia.
  - simpl. lia.
  - apply Ht. simpl. lia.
Defined.

(** cl_strcelem stops counting at two adjacent delimiters, and at a leading one: cl_strchr
    returns its argument both when the character is the first and when there is none. *)
Lemma cl_strcelem_adjacent :
  cl_strcelem 10 2000 44 mem = Ret (2, mem) ∧ tokens [44] [97; 44; 44; 98] = [[97]; []; [98]].
Proof. split; by vm_compute. Qed.
(** tolower sets a bit: characters that are no letters are identified too, here @ and `. *)
Lemma cl_stricmp_conflates :
  cl_stricmp 10 1000 1010 (list_to_map (place 1000 [64; 0] ++ place 1010 [96; 0]))
  = Ret (0, list_to_map (place 1000 [64; 0] ++ place 1010 [96; 0])).
Proof. by vm_compute. Qed.
End ClStringExample.
