(* ===== verification/Vsnprintf.v ===== *)
(** CommonLib/src/cl_string.c: cl_vsnprintf.

    The format string, the arguments of %s and the output lie in the byte store; the
    buffer [temp] and the variable [temp_value] are on the stack, at addresses that
    are parameters. The theorem is about format strings written from a list of
    [vs_item]s. *)
From S2P Require Import Prelude Memory StrUtils ClString.

(** The variadic arguments: the 8-byte slots not yet consumed. *)
Definition va_list : Type := list Z.
Definition VSNPRINTF_BUFFER_SIZE : Z := 65.

Section Ops.
Context {St : Type} `{HasBytes St}.
Variable fuel : nat.
(** Its local buffer [temp] and its local [temp_value] lie on the stack. *)
Variables (temp temp_value : Z).

(** The conversion of one specifier: the string to print, and the arguments left. *)
Definition put_number (slot : Z) (is64 signed : bool) (base : Z) (args : va_list) : M St (Z * va_list) :=
  write_le temp_value 8 (if is64 then u64 slot else u32 slot);;
  itoa fuel temp_value signed temp base is64;;
  mret (temp, args).
Definition vs_convert (next : Z) (args : va_list) : M St (option (Z * va_list)) :=
  let number is64 signed base :=
    match args with
    | [] => fault
    | slot :: args' => r ← put_number slot is64 signed base args'; mret (Some r)
    end in
  if next =? 98 (* b *) then number false false BASE_TWO
  else if next =? 66 (* B *) then number true false BASE_TWO
  else if next =? 117 (* u *) then number false false BASE_TEN
  else if next =? 85 (* U *) then number true false BASE_TEN
  else if next =? 100 (* d *) then number false true BASE_TEN
  else if next =? 68 (* D *) then number true true BASE_TEN
  else if next =? 120 (* x *) then number false false BASE_HEXA
  else if next =? 88 (* X *) then number true false BASE_HEXA
  else if next =? 99 (* c *) then
    match args with
    | [] => fault
    | slot :: args' =>
        write_le temp_value 8 (u64 (s8 slot));;
        cl_strncpy fuel temp temp_value 1;;
        mret (Some (temp, args'))
    end
  else if (next =? 115) || (next =? 83) (* s, S *) then
    match args with
    | [] => fault
    | slot :: args' => mret (Some (u64 slot, args'))
    end
  else mret None.

(** The digits between '%' and the specifier: where they end, the specifier, the
    character to fill with and the width. *)
Definition vs_digits (inputBuffer index : Z) : M St (Z * Z * Z * Z) :=
  next ← read_char (inputBuffer + u32 (index + 1));
  loop fuel (λ '(index, next, firstSpecificator, fillChar, digits),
    if (48 <=? next) && (next <=? 57) then
      let fillChar' := if firstSpecificator && (48 =? next) then 48 else fillChar in
      let index' := u32 (index + 1) in
      next' ← read_char (inputBuffer + u32 (index' + 1));
      mret (inl (index', next', false, fillChar', u32 (digits * 10 + next - 48)))
    else mret (inr (index, next, fillChar, digits))) (index, next, true, 32, 0).

(** Padding and copying one converted string: the new output offset, or the status
    the function returns with. *)
Definition vs_emit (outputBuffer buffSize outBufferOffset next fillChar digits temp_str : Z)
    : M St (Z + Z) :=
  temp_len ← cl_strlen fuel temp_str;
  ASSERT (negb (temp_len =? INVALID_STRING_SIZE));;
  let charsToCopy := if next =? 83 then Z.min digits temp_len else temp_len in
  if buffSize <=? u32 (outBufferOffset + temp_len) then mret (inr STATUS_BUFFER_TOO_SMALL) else
  let fillSpaces := if temp_len <? digits then u32 (digits - temp_len) else 0 in
  if buffSize <=? u32 (u32 (outBufferOffset + temp_len) + fillSpaces)
  then mret (inr STATUS_BUFFER_TOO_SMALL) else
  outBufferOffset ← (if negb (0 =? fillSpaces) then
      cl_memset (outputBuffer + outBufferOffset) fillChar fillSpaces;;
      mret (u32 (outBufferOffset + fillSpaces))
    else mret outBufferOffset);
  (if negb (charsToCopy =? 0) then
     cl_strncpy fuel (outputBuffer + outBufferOffset) temp_str charsToCopy
   else mret tt);;
  mret (inl (u32 (outBufferOffset + charsToCopy))).

(** One round of the loop over the format string; the state is the index in it, the
    number of the next parameter, the output offset and the arguments. *)
Definition vs_step (outputBuffer buffSize inputBuffer : Z) (c : Z * Z * Z * va_list)
    : M St (Z * Z * Z * va_list + Z) :=
  let '(index, param_index, outBufferOffset, argptr) := c in
  c ← read_char (inputBuffer + index);
  if c =? 0 then
    write_byte (outputBuffer + outBufferOffset) 0;;
    mret (inr (u32 (param_index - 1)))
  else if 37 =? c then
    '(index, next, fillChar, digits) ← vs_digits inputBuffer index;
    converted ← vs_convert next argptr;
    match converted with
    | None => mret (inr STATUS_PARSE_FAILED)
    | Some (temp_str, argptr) =>
        r ← vs_emit outputBuffer buffSize outBufferOffset next fillChar digits temp_str;
        mret (match r with
          | inr status => inr status
          | inl outBufferOffset =>
              inl (u32 (index + 2), u32 (param_index + 1), outBufferOffset, argptr)
          end)
    end
  else if buffSize <=? u32 (outBufferOffset + 1) then
    write_byte (outputBuffer + outBufferOffset) 0;;
    mret (inr STATUS_BUFFER_TOO_SMALL)
  else
    c ← read_byte (inputBuffer + index);
    write_byte (outputBuffer + outBufferOffset) c;;
    mret (inl (u32 (index + 1), param_index, u32 (outBufferOffset + 1), argptr)).

Definition cl_vsnprintf (outputBuffer buffSize inputBuffer : Z) (argptr : va_list) : M St Z :=
  if NULL =? outputBuffer then mret STATUS_INVALID_PARAMETER1 else
  if 0 =? buffSize then mret STATUS_INVALID_PARAMETER2 else
  if NULL =? inputBuffer then mret STATUS_INVALID_PARAMETER3 else
  write_le temp_value 8 0;;
  loop fuel (vs_step outputBuffer buffSize inputBuffer) (0, 1, 0, argptr).
Definition cl_snprintf (outputBuffer buffSize inputBuffer : Z) (va : va_list) : M St Z :=
  cl_vsnprintf outputBuffer buffSize inputBuffer va.
End Ops.

(** * Formatted output *)
(** What a format string is made of: characters to copy, and conversions with the
    digits of their width, their specifier and their argument. *)
Inductive vs_item :=
  | Lit (c : Z)
  | Number (width : list Z) (spec slot : Z)
  | Char (width : list Z) (slot : Z)
  | Str (width : list Z) (upper : bool) (p : Z) (cs : list Z).

(** Operand width, sign and base of the number specifiers. *)
Definition number_format (spec : Z) : option (bool * bool * Z) :=
  if spec =? 98 then Some (false, false, BASE_TWO)
  else if spec =? 66 then Some (true, false, BASE_TWO)
  else if spec =? 117 then Some (false, false, BASE_TEN)
  else if spec =? 85 then Some (true, false, BASE_TEN)
  else if spec =? 100 then Some (false, true, BASE_TEN)
  else if spec =? 68 then Some (true, true, BASE_TEN)
  else if spec =? 120 then Some (false, false, BASE_HEXA)
  else if spec =? 88 then Some (true, false, BASE_HEXA)
  else None.

Definition width_of (ds : list Z) : Z := fold_left (λ w d, w * 10 + d - 48) ds 0.
Definition fill_of (ds : list Z) : Z := match ds with 48 :: _ => 48 | _ => 32 end.
Definition is_width (ds : list Z) : Prop := Forall (λ d, 48 ≤ d ≤ 57) ds ∧ width_of ds < 2 ^ 32.

(** The number that the argument of a conversion stands for: its low 32 or 64 bits, in two's
    complement for a signed conversion. *)
Definition number_meant (is64 signed : bool) (slot : Z) : Z :=
  let w := if is64 then 64 else 32 in
  let u := slot mod 2 ^ w in
  if signed && (2 ^ (w - 1) <=? u) then u - 2 ^ w else u.
(** The text is a numeral of the number: a minus sign for a negative one, then its digits, the most
    significant first, without leading zeros; the digits from ten on are capital letters. *)
Definition denotes (base v : Z) (text : list Z) : Prop := ∃ ds,
  text = (if v <? 0 then [45] else []) ++ map digit_char ds
  ∧ Forall (λ d, 0 ≤ d < base) ds
  ∧ fold_left (λ acc d, acc * base + d) ds 0 = Z.abs v
  ∧ (ds = [0] ∨ ∃ d ds', ds = d :: ds' ∧ d ≠ 0).
(** The one number that is printed wrongly. *)
Definition int32_min (is64 signed : bool) (slot : Z) : Prop :=
  is64 = false ∧ number_meant is64 signed slot = - 2 ^ 31.

(** The text of a conversion before it is padded, and the width it is padded to. *)
Definition item_text (it : vs_item) : list Z :=
  match it with
  | Lit c => [c]
  | Number _ spec slot =>
      match number_format spec with
      | Some (is64, signed, base) =>
          let v := number_meant is64 signed slot in
          if negb is64 && (v =? - 2 ^ 31) then numeral BASE_TEN true (2 ^ 64 - 2 ^ 31)
          else numeral base (v <? 0) (Z.abs v)
      | None => []
      end
  | Char _ slot => if u8 slot =? 0 then [] else [u8 slot]
  | Str _ _ _ cs => cs
  end.
Definition item_width (it : vs_item) : list Z :=
  match it with Lit _ => [] | Number w _ _ | Char w _ | Str w _ _ _ => w end.
Definition item_spec (it : vs_item) : Z :=
  match it with Lit _ => 0 | Number _ spec _ => spec | Char _ _ => 99
  | Str _ upper _ _ => if upper then 83 else 115 end.
Definition item_args (it : vs_item) : va_list :=
  match it with Lit _ => [] | Number _ _ slot | Char _ slot => [slot] | Str _ _ p _ => [p] end.

Definition item_format (it : vs_item) : list Z :=
  match it with Lit c => [c] | _ => 37 :: item_width it ++ [item_spec it] end.
(** What the conversion prints: [%S] cuts the string to the width. *)
Definition pad (it : vs_item) : list Z :=
  replicate (Z.to_nat (width_of (item_width it)) - length (item_text it)) (fill_of (item_width it)).
Definition item_output (it : vs_item) : list Z :=
  pad it ++ match it with
    | Str w true _ cs => take (Z.to_nat (width_of w)) cs
    | _ => item_text it
    end.
(** The room cl_vsnprintf asks for before it prints. *)
Definition item_room (it : vs_item) : Z :=
  Z.max (Z.of_nat (length (item_text it))) (width_of (item_width it)).
Definition item_count (it : vs_item) : Z := match it with Lit _ => 0 | _ => 1 end.
(** What is asked of an item of a well-formed format. *)
Definition item_ok (it : vs_item) : Prop :=
  is_width (item_width it) ∧
  match it with
  | Lit c => char_ok c ∧ c ≠ 37
  | Number _ spec _ => is_Some (number_format spec)
  | Char _ _ => True
  | Str _ _ p cs => 0 < p < 2 ^ 64 ∧ Z.of_nat (length cs) < 2 ^ 32 - 1
  end.

Lemma width_of_u32 ds acc :
  fold_left (λ w d, u32 (w * 10 + d - 48)) ds (u32 acc) = u32 (fold_left (λ w d, w * 10 + d - 48) ds acc).
Proof.
  revert acc. induction ds as [|d ds IH]; intros acc; simpl; [done|].
  rewrite <-IH. f_equal. unfold u32. rewrite <-!Z.add_sub_assoc.
  by rewrite <-Z.add_mod_idemp_l, Z.mul_mod_idemp_l, Z.add_mod_idemp_l by done.
Qed.
Lemma width_nonneg ds acc :
  Forall (λ d, 48 ≤ d ≤ 57) ds → 0 ≤ acc → 0 ≤ fold_left (λ w d, w * 10 + d - 48) ds acc.
Proof.
  intros Hd. revert acc. induction Hd as [|d ds Hd _ IH]; intros acc Ha; simpl; [done|].
  apply IH. lia.
Qed.
Lemma width_of_nonneg it : item_ok it → 0 ≤ width_of (item_width it) < 2 ^ 32.
Proof. intros [[Hd Hlt] _]. split; [by apply width_nonneg|done]. Qed.

Lemma number_format_base spec is64 signed base :
  number_format spec = Some (is64, signed, base) → 2 ≤ base ≤ 36.
Proof.
  unfold number_format. intros Hf. repeat (destruct (_ =? _); [simplify_eq; unfold BASE_TWO, BASE_TEN, BASE_HEXA; lia|]).
  done.
Qed.
Lemma number_format_spec spec r :
  number_format spec = Some r → 57 < spec < 128 ∧ spec ≠ 83.
Proof.
  unfold number_format. intros Hf.
  repeat (match goal with H : context [?a =? ?b] |- _ => destruct (Z.eqb_spec a b); [lia|] end). done.
Qed.
Lemma item_spec_range it : item_ok it → (∃ c, it = Lit c) ∨ 57 < item_spec it < 128.
Proof.
  intros [_ Hok]. destruct it as [c|w spec slot|w slot|w u p cs]; simpl; [eauto|right..].
  - destruct Hok as [r Hr]. by apply number_format_spec in Hr as [? _].
  - lia.
  - destruct u; lia.
Qed.

(** The signed numerals are in base ten: a sign and at most 20 digits. *)
Lemma rdigits_length_bound base k n v :
  2 ≤ base → 0 ≤ v < base ^ Z.of_nat k → (length (rdigits n base v) <= k)%nat.
Proof.
  intros Hb. revert k v. induction n as [|n IH]; intros k v Hv; [simpl; lia|]. rewrite rdigits_S.
  destruct (Z.eqb_spec 0 v); [simpl; lia|]. destruct k as [|k].
  { rewrite Z.pow_0_r in Hv. lia. }
  cbn [length]. apply le_n_S, IH. rewrite Nat2Z.inj_succ, Z.pow_succ_r in Hv by lia.
  split; [apply Z.div_pos; lia|apply Z.div_lt_upper_bound; lia].
Qed.
Lemma number_meant_range is64 signed slot :
  - 2 ^ 63 ≤ number_meant is64 signed slot < 2 ^ 64.
Proof.
  pose proof (Z.mod_pos_bound slot (2 ^ 64) eq_refl). pose proof (Z.mod_pos_bound slot (2 ^ 32) eq_refl).
  unfold number_meant. destruct is64, signed; cbn [andb]; change (64 - 1) with 63; change (32 - 1) with 31;
    try destruct (Z.leb_spec (2 ^ 63) (slot mod 2 ^ 64)); try destruct (Z.leb_spec (2 ^ 31) (slot mod 2 ^ 32)); lia.
Qed.
(** What itoa works on is the number and its sign. *)
Lemma itoa_operand_meant is64 signed slot (v := number_meant is64 signed slot) :
  itoa_operand signed is64 (if is64 then u64 slot else u32 slot)
  = if negb is64 && (v =? - 2 ^ 31) then (true, 2 ^ 64 - 2 ^ 31) else (v <? 0, Z.abs v).
Proof.
  unfold v, number_meant, itoa_operand. destruct is64; cbn [negb andb].
  - change (64 - 1) with 63. unfold s64, u64. rewrite Z.mod_mod by done. set (u := slot mod 2 ^ 64).
    assert (0 ≤ u < 2 ^ 64) by (apply Z.mod_pos_bound; lia). destruct signed; cbn [andb].
    + destruct (Z.ltb_spec u (2 ^ 63)); [rewrite (proj2 (Z.leb_gt _ _)) by lia|rewrite (proj2 (Z.leb_le _ _)) by lia].
      * rewrite (proj2 (Z.ltb_ge _ _)) by lia. f_equal; lia.
      * rewrite (proj2 (Z.ltb_lt _ _)) by lia. f_equal. rewrite Z.mod_small; lia.
    + rewrite (proj2 (Z.ltb_ge _ _)) by lia. f_equal; lia.
  - change (32 - 1) with 31. unfold s32, u64, u32. rewrite Z.mod_mod by done. set (u := slot mod 2 ^ 32).
    assert (0 ≤ u < 2 ^ 32) by (apply Z.mod_pos_bound; lia). destruct signed; cbn [andb].
    + destruct (Z.ltb_spec u (2 ^ 31)); [rewrite (proj2 (Z.leb_gt _ _)) by lia|rewrite (proj2 (Z.leb_le _ _)) by lia].
      * rewrite (proj2 (Z.eqb_neq u _)), (proj2 (Z.ltb_ge u 0)) by lia. f_equal; lia.
      * rewrite (proj2 (Z.ltb_lt (u - 2 ^ 32) 0)) by lia.
        destruct (Z.eqb_spec (u - 2 ^ 32) (- 2 ^ 31)) as [E|E]; [by rewrite E|]. f_equal.
        rewrite (Z.mod_small (- (u - 2 ^ 32))) by lia. rewrite (proj2 (Z.ltb_lt _ _)) by lia.
        rewrite Z.mod_small; lia.
    + rewrite (proj2 (Z.eqb_neq u _)), (proj2 (Z.ltb_ge u 0)) by lia. f_equal; lia.
Qed.
Lemma number_format_signed spec is64 base : number_format spec = Some (is64, true, base) → base = BASE_TEN.
Proof. unfold number_format. intros E. by repeat (destruct (_ =? _); [simplify_eq; try done|]). Qed.
Lemma item_text_number w spec slot is64 signed base :
  number_format spec = Some (is64, signed, base) →
  item_text (Number w spec slot)
  = let '(negative, v) := itoa_operand signed is64 (if is64 then u64 slot else u32 slot) in numeral base negative v.
Proof.
  intros E. cbn [item_text]. rewrite E, itoa_operand_meant. cbv zeta.
  destruct (negb is64 && _) eqn:Em; [|done]. destruct signed; [by rewrite (number_format_signed _ _ _ E)|].
  apply andb_true_iff in Em as [_ Em%Z.eqb_eq]. unfold number_meant in Em. cbn [andb] in Em.
  pose proof (Z.mod_pos_bound slot (2 ^ (if is64 then 64 else 32)) ltac:(by destruct is64)). lia.
Qed.

Lemma fold_left_digits base ds : fold_left (λ acc d, acc * base + d) (rev ds) 0 = foldr (λ d acc, acc * base + d) 0 ds.
Proof. rewrite <-fold_left_rev_right, rev_involutive. done. Qed.
Lemma last_digit base n v :
  2 ≤ base → 0 < v → (v < 2 ^ Z.of_nat n) → ∃ l d, rdigits n base v = l ++ [d] ∧ d ≠ 0.
Proof.
  intros Hb. revert v. induction n as [|n IH]; intros v Hv Hlt; [rewrite Z.pow_0_r in Hlt; lia|].
  cbn [rdigits]. rewrite (proj2 (Z.eqb_neq 0 v)) by lia.
  pose proof (Z.div_mod v base ltac:(lia)). pose proof (Z.mod_pos_bound v base ltac:(lia)).
  pose proof (Z.div_pos v base ltac:(lia) ltac:(lia)).
  destruct (Z.eq_dec (v / base) 0) as [E|E].
  - exists [], (v mod base). split; [|nia]. rewrite E. by destruct n.
  - destruct (IH (v / base)) as (l & d & -> & Hd); [lia| |by exists (v mod base :: l), d].
    rewrite Nat2Z.inj_succ, Z.pow_succ_r in Hlt by lia. apply Z.div_lt_upper_bound; nia.
Qed.
Lemma numeral_denotes base v : 2 ≤ base ≤ 36 → Z.abs v < 2 ^ 64 → denotes base v (numeral base (v <? 0) (Z.abs v)).
Proof.
  intros Hb Hv. unfold denotes, numeral, rnumeral. destruct (Z.eqb_spec 0 (Z.abs v)) as [E|E].
  - exists [0]. replace v with 0 by lia. split_and!; [done|repeat constructor; lia|done|by left].
  - exists (rev (rdigits 64 base (Z.abs v))). split_and!.
    + by rewrite map_rev.
    + apply Forall_rev, rdigits_ok; lia.
    + rewrite fold_left_digits. apply rdigits_value; lia.
    + right. destruct (last_digit base 64 (Z.abs v)) as (l & d & -> & Hd); [lia..|].
      rewrite rev_app_distr. by exists d, (rev l).
Qed.
(** So the conversions print the numbers. *)
Definition number_printed (it : vs_item) : Prop :=
  match it with
  | Number _ spec slot => ∀ is64 signed base, number_format spec = Some (is64, signed, base) →
      ¬ int32_min is64 signed slot → denotes base (number_meant is64 signed slot) (item_text it)
  | _ => True
  end.
Lemma item_text_denotes it : number_printed it.
Proof.
  destruct it as [| w spec slot | |]; cbn [number_printed]; try done. intros is64 signed base E Hmin.
  cbn [item_text]. rewrite E. destruct (negb is64 && _) eqn:Em.
  { destruct Hmin. apply andb_true_iff in Em as [Hw%negb_true_iff Em%Z.eqb_eq]. by split. }
  pose proof (number_meant_range is64 signed slot). apply numeral_denotes; [by eapply number_format_base|lia].
Qed.

Lemma item_number_length w spec slot : (length (item_text (Number w spec slot)) <= 64)%nat.
Proof.
  destruct (number_format spec) as [[[is64 signed] base]|] eqn:E; [|cbn [item_text]; rewrite E; simpl; lia].
  rewrite (item_text_number _ _ _ _ _ _ E).
  set (raw := if is64 then u64 slot else u32 slot).
  assert (Hraw : if is64 then 0 ≤ raw < 2 ^ 64 else 0 ≤ raw < 2 ^ 32)
    by (unfold raw; destruct is64; apply Z.mod_pos_bound; lia).
  pose proof (itoa_operand_bound signed is64 raw Hraw) as Hv.
  destruct (itoa_operand signed is64 raw) as [negative v] eqn:Eo. simpl in Hv.
  unfold numeral. rewrite length_app, length_rev. pose proof (rnumeral_length base v) as Hr.
  destruct negative; [|simpl; lia]. cbn [length].
  assert (signed = true) as ->.
  { unfold itoa_operand in Eo. destruct signed; [done|]. by destruct is64; simpl in Eo; simplify_eq. }
  assert (base = 10) as ->.
  { unfold number_format in E. repeat (destruct (_ =? _); [by simplify_eq|]). done. }
  unfold rnumeral in *. destruct (0 =? v); [simpl; lia|]. rewrite length_map in *.
  pose proof (rdigits_length_bound 10 20 64 v ltac:(lia) ltac:(simpl; lia)). lia.
Qed.
Lemma item_text_ok it :
  item_ok it → match it with Str _ _ _ cs => Forall char_ok cs | _ => True end → Forall char_ok (item_text it).
Proof.
  intros [_ Hok] Hcs. destruct it as [c|w spec slot|w slot|w u p cs]; [| |cbn [item_text]|done].
  - constructor; [by destruct Hok|done].
  - destruct (number_format spec) as [[[is64 signed] base]|] eqn:E; [|cbn [item_text]; by rewrite E].
    rewrite (item_text_number _ _ _ _ _ _ E).
    set (raw := if is64 then u64 slot else u32 slot).
    assert (Hraw : if is64 then 0 ≤ raw < 2 ^ 64 else 0 ≤ raw < 2 ^ 32)
      by (unfold raw; destruct is64; apply Z.mod_pos_bound; lia).
    pose proof (itoa_operand_bound signed is64 raw Hraw) as Hv.
    destruct (itoa_operand signed is64 raw) as [negative v].
    apply numeral_ok; [by eapply number_format_base|]. simpl in Hv. lia.
  - destruct (Z.eqb_spec (u8 slot) 0); [done|]. constructor; [|done].
    pose proof (u8_ok slot) as Hb. unfold byte_ok in Hb. unfold char_ok. lia.
Qed.

(** ** What may change *)
(** [b'] differs from [b] only where [P] allows, and has memory wherever [b] has. *)
Definition changes (P : Z → Prop) (b b' : gmap Z Z) : Prop :=
  (∀ q, ¬ P q → b' !! q = b !! q) ∧ (∀ q, is_Some (b !! q) → is_Some (b' !! q)).
Definition within (p n q : Z) : Prop := p ≤ q < p + n.

Lemma changes_refl P b : changes P b b.
Proof. done. Qed.
Lemma changes_trans P b1 b2 b3 : changes P b1 b2 → changes P b2 b3 → changes P b1 b3.
Proof. intros [H1 D1] [H2 D2]. split; [|by auto]. intros q Hq. by rewrite H2, H1. Qed.
Lemma changes_mono (P Q : Z → Prop) b b' : (∀ q, P q → Q q) → changes P b b' → changes Q b b'.
Proof. intros HPQ [H D]. split; [|done]. intros q Hq. apply H. auto. Qed.
Lemma changes_store P b p bs :
  (∀ q, within p (Z.of_nat (length bs)) q → P q) → changes P b (store b p bs).
Proof.
  intros HP. split; [|intros q; apply store_dom]. intros q Hq. apply store_out.
  destruct (decide (p ≤ q < p + Z.of_nat (length bs))); [by destruct Hq; apply HP|lia].
Qed.
Lemma changes_mapped P b b' p n : changes P b b' → mapped b p n → mapped b' p n.
Proof. intros [_ D] Hm q Hq. by apply D, Hm. Qed.
Lemma changes_cstr P b b' p cs :
  changes P b b' → (∀ q, p ≤ q ≤ p + Z.of_nat (length cs) → ¬ P q) → cstr_at b p cs → cstr_at b' p cs.
Proof. intros [H _] HP Hs. eapply cstr_at_agree; [done|]. intros q Hq. by apply H, HP. Qed.
Lemma changes_bytes P b b' p bs :
  changes P b b' → (∀ q, within p (Z.of_nat (length bs)) q → ¬ P q) → bytes_at b p bs → bytes_at b' p bs.
Proof. intros [H _] HP Hs. eapply bytes_at_agree; [done|]. intros q Hq. by apply H, HP. Qed.

Section Runs.
Context {St : Type} `{HasBytes St}.
Variables (fuel : nat) (temp temp_value outputBuffer buffSize inputBuffer : Z).
Definition Scratch (q : Z) : Prop := within temp VSNPRINTF_BUFFER_SIZE q ∨ within temp_value 8 q.
Definition Output (q : Z) : Prop := within outputBuffer buffSize q.
Hypotheses (Hfuel : (65 < fuel)%nat) (Hnull : temp ≠ NULL ∧ temp_value ≠ NULL)
  (Hstack : ∀ q, within temp VSNPRINTF_BUFFER_SIZE q → within temp_value 8 q → False)
  (Hdisj : ∀ q, Output q → Scratch q → False)
  (Hout : 0 < outputBuffer) (Hsize : 0 < buffSize < 2 ^ 32).
Implicit Types (s : St) (it : vs_item).

(** The memory the function may write exists. *)
Definition vs_room (b : gmap Z Z) : Prop :=
  mapped b temp VSNPRINTF_BUFFER_SIZE ∧ mapped b temp_value 8 ∧ mapped b outputBuffer buffSize.
Lemma changes_room P b b' : changes P b b' → vs_room b → vs_room b'.
Proof. intros Hc (H1 & H2 & H3). split_and!; by eapply changes_mapped. Qed.
(** The argument of %s is a string apart from what is written. *)
Definition item_mem (b : gmap Z Z) it : Prop :=
  match it with
  | Str _ _ p cs => cstr_at b p cs ∧ (length cs < fuel)%nat
      ∧ ∀ q, p ≤ q ≤ p + Z.of_nat (length cs) → ¬ Output q ∧ ¬ Scratch q
  | _ => True
  end.
Lemma changes_item_mem b b' it :
  changes (λ q, Output q ∨ Scratch q) b b' → item_mem b it → item_mem b' it.
Proof.
  intros Hc. destruct it as [c|w spec slot|w slot|w u p cs]; simpl; try done.
  intros (Hs & Hf & Hd). split_and!; [|done|done]. eapply changes_cstr; [done| |done].
  intros q Hq. specialize (Hd q Hq). tauto.
Qed.
Lemma item_mem_text b it : item_mem b it → match it with Str _ _ _ cs => Forall char_ok cs | _ => True end.
Proof. destruct it; simpl; try done. by intros ([_ ?] & _). Qed.

Lemma put_number_run is64 signed base slot args s :
  2 ≤ base ≤ 36 → vs_room (get_bytes s) →
  let '(negative, v) := itoa_operand signed is64 (if is64 then u64 slot else u32 slot) in
  (length (numeral base negative v) <= 64)%nat →
  ∃ b', put_number fuel temp temp_value slot is64 signed base args s = Ret ((temp, args), set_bytes b' s)
    ∧ cstr_at b' temp (numeral base negative v) ∧ changes Scratch (get_bytes s) b'.
Proof.
  intros Hbase (Hm1 & Hm2 & Hm3). destruct Hnull as [Ht Htv].
  set (raw := if is64 then u64 slot else u32 slot).
  assert (Hraw : 0 ≤ raw < 2 ^ 64).
  { unfold raw. destruct is64; [unfold u64; apply Z.mod_pos_bound; lia|].
    pose proof (Z.mod_pos_bound slot (2 ^ 32)). unfold u32. lia. }
  set (b1 := store (get_bytes s) temp_value (le_bytes 8 raw)).
  assert (Hc1 : changes Scratch (get_bytes s) b1).
  { apply changes_store. intros q Hq. right. by rewrite le_bytes_length in Hq. }
  assert (Hb1 : bytes_at b1 temp_value (le_bytes 8 raw)).
  { unfold b1. rewrite <-(map_u8_id (le_bytes 8 raw)) at 2 by apply le_bytes_ok. apply store_at. }
  (* the bytes itoa reads: all eight, or the low four *)
  assert (Hrd : ∃ bs, bytes_at b1 temp_value bs ∧ length bs = size_of_value is64 ∧ Forall byte_ok bs
    ∧ le_value bs = raw).
  { destruct is64.
    - exists (le_bytes 8 raw). split_and!; [done|apply le_bytes_length|apply le_bytes_ok|].
      apply le_value_le_bytes. done.
    - exists (le_bytes 4 raw). split_and!; [|apply le_bytes_length|apply le_bytes_ok|].
      + by apply (bytes_at_app _ _ (le_bytes 4 raw) (le_bytes 4 (raw / 256 / 256 / 256 / 256))) in Hb1 as [? _].
      + apply le_value_le_bytes. exact (Z.mod_pos_bound slot (2 ^ 32) eq_refl). }
  destruct Hrd as (bs & Hbs & Hlen & Hok & Hval).
  pose proof (itoa_run fuel base temp ltac:(lia) Hbase Ht signed is64 temp_value bs
    (set_bytes b1 s) Htv) as Hi.
  rewrite get_set_bytes, Hval in Hi. specialize (Hi Hbs Hlen Hok).
  destruct (itoa_operand signed is64 raw) as [negative v]. intros Hl. cbv zeta in Hi.
  destruct Hi as (b2 & Hrun & Hcs & Hf).
  { eapply changes_mapped; [exact Hc1|]. eapply mapped_sub; [exact Hm1|lia|unfold VSNPRINTF_BUFFER_SIZE; lia]. }
  exists b2. split_and!; [|done|].
  - unfold put_number. erewrite bind_Ret by (by apply write_le_run). cbn beta iota. fold raw b1.
    mrun Hrun. by autorewrite with bytes.
  - eapply changes_trans; [exact Hc1|]. split.
    + intros q Hq. apply Hf. intros Hin. apply Hq. left. unfold within, VSNPRINTF_BUFFER_SIZE. lia.
    + intros q Hq. destruct (decide (temp ≤ q ≤ temp + Z.of_nat (length (numeral base negative v)))) as [Hin|Hin].
      * destruct Hcs as [Hcs _]. apply bytes_at_mapped in Hcs. apply Hcs. rewrite length_app. simpl. lia.
      * by rewrite Hf.
Qed.

Lemma low_byte slot : u64 (s8 slot) mod 256 = u8 slot.
Proof.
  unfold u64, s8. rewrite (Z.mod_mod_divide _ (2 ^ 64) 256) by (by exists (2 ^ 56)).
  unfold u8. destruct (_ <? _).
  - by rewrite Z.mod_mod.
  - change (2 ^ 8) with 256. rewrite <-(Z.mod_mod slot 256) at 2 by done.
    rewrite <-(Z.mod_add (slot mod 256 - 256) 1) by done. f_equal. lia.
Qed.
Lemma stack_apart n : n ≤ 1 → temp + n ≤ temp_value ∨ temp_value + n < temp.
Proof.
  intros Hn. unfold within, VSNPRINTF_BUFFER_SIZE in Hstack.
  destruct (decide (temp + n ≤ temp_value)) as [|H1]; [by left|].
  destruct (decide (temp_value + n < temp)) as [|H2]; [by right|].
  exfalso. destruct (decide (temp ≤ temp_value)).
  - apply (Hstack temp_value); lia.
  - apply (Hstack temp); lia.
Qed.
(** Converting an item leaves its text, terminated, in [temp] or in its argument. *)
Lemma vs_convert_run it args s :
  item_ok it → item_mem (get_bytes s) it → (∀ c, it ≠ Lit c) → vs_room (get_bytes s) →
  ∃ p b', vs_convert fuel temp temp_value (item_spec it) (item_args it ++ args) s
      = Ret (Some (p, args), set_bytes b' s)
    ∧ p ≠ NULL ∧ cstr_at b' p (item_text it) ∧ changes Scratch (get_bytes s) b'
    ∧ (length (item_text it) < fuel)%nat ∧ Z.of_nat (length (item_text it)) < 2 ^ 32 - 1
    ∧ (∀ q, p ≤ q ≤ p + Z.of_nat (length (item_text it)) → ¬ Output q).
Proof.
  intros Hok Hmem Hlit Hroom. destruct it as [c|w spec slot|w slot|w u p cs].
  - by destruct (Hlit c).
  - pose proof (item_number_length w spec slot) as Hlen.
    destruct Hok as [_ [[[is64 signed] base] Hfmt]]. rewrite (item_text_number _ _ _ _ _ _ Hfmt) in *.
    pose proof (put_number_run is64 signed base slot args s (number_format_base _ _ _ _ Hfmt) Hroom) as Hp.
    destruct (itoa_operand signed is64 _) as [negative v]. destruct (Hp Hlen) as (b' & Hr & Hcs & Hch).
    exists temp, b'. split.
    { unfold vs_convert. cbn [item_spec item_args app]. unfold number_format in Hfmt.
      repeat (destruct (_ =? _); [simplify_eq; by mrun Hr|]). done. }
    split_and!; [by destruct Hnull|done|done|lia|lia|].
    intros q Hq Ho. apply (Hdisj q Ho). left. unfold within, VSNPRINTF_BUFFER_SIZE. lia.
  - destruct Hnull as [Ht Htv], Hroom as (Hm1 & Hm2 & Hm3).
    set (b1 := store (get_bytes s) temp_value (le_bytes 8 (u64 (s8 slot)))).
    assert (Hc1 : changes Scratch (get_bytes s) b1).
    { apply changes_store. intros q Hq. right. by rewrite le_bytes_length in Hq. }
    assert (Hlow : b1 !! temp_value = Some (u8 slot)).
    { unfold b1. pose proof (store_at (get_bytes s) temp_value (le_bytes 8 (u64 (s8 slot)))) as Hst.
      rewrite map_u8_id in Hst by apply le_bytes_ok. 
      apply (bytes_at_cons _ _ (u64 (s8 slot) mod 256) (le_bytes 7 (u64 (s8 slot) / 256))) in Hst as [Hst _]. by rewrite Hst, low_byte. }
    set (cs := item_text (Char w slot)).
    assert (Hcs : Z.of_nat (length cs) ≤ 1 ∧ bytes_at b1 temp_value cs
      ∧ (Z.of_nat (length cs) < 1 → b1 !! (temp_value + Z.of_nat (length cs)) = Some 0)).
    { unfold cs, item_text. destruct (Z.eqb_spec (u8 slot) 0) as [He|He]; simpl; rewrite ?Z.add_0_r.
      - split_and!; [lia|apply bytes_at_nil|]. intros _. by rewrite Hlow, He.
      - split_and!; [lia| |lia]. apply bytes_at_cons. split; [done|apply bytes_at_nil]. }
    destruct Hcs as (Hl1 & Hb1 & Hend).
    pose proof (item_text_ok (Char w slot) Hok I) as Hcok. fold cs in Hcok.
    exists temp, (store b1 temp (cs ++ [0])). split_and!; [|done|split| | | |].
    + change (vs_convert fuel temp temp_value (item_spec (Char w slot)) (item_args (Char w slot) ++ args))
        with (write_le temp_value 8 (u64 (s8 slot));; cl_strncpy fuel temp temp_value 1;;
          mret (M := M St) (Some (temp, args))).
      erewrite bind_Ret by (apply write_le_run; by apply Hm2). cbn beta iota. fold b1.
      rewrite (bind_Ret _ _ _ _ _ (cl_strncpy_run fuel temp temp_value 1 cs (set_bytes b1 s)
        Ht Htv ltac:(lia) Hl1 ltac:(by rewrite get_set_bytes) Hcok ltac:(by rewrite get_set_bytes)
        ltac:(rewrite get_set_bytes; eapply changes_mapped; [exact Hc1|];
          eapply mapped_sub; [exact Hm1|lia|unfold VSNPRINTF_BUFFER_SIZE; lia])
        (stack_apart _ Hl1) ltac:(lia))).
      cbn beta iota. by autorewrite with bytes.
    + rewrite <-(map_u8_id (cs ++ [0])) at 2; [apply store_at|].
      apply Forall_app. split; [eapply Forall_impl; [exact Hcok|apply char_ok_byte]|by repeat constructor].
    + done.
    + eapply changes_trans; [exact Hc1|]. apply changes_store. intros q Hq. left.
      rewrite length_app in Hq. simpl in Hq. unfold within, VSNPRINTF_BUFFER_SIZE in *. lia.
    + lia.
    + lia.
    + intros q Hq Ho. apply (Hdisj q Ho). left. unfold within, VSNPRINTF_BUFFER_SIZE. lia.
  - destruct Hmem as (Hs & Hf & Hd), Hok as [_ [Hp Hl]]. exists p, (get_bytes s). split.
    { unfold vs_convert. cbn [item_spec item_args app]. unfold u64. rewrite (Z.mod_small p) by lia.
      rewrite set_get_bytes. by destruct u. }
    split_and!; [unfold NULL; lia|done|apply changes_refl|done|simpl; lia|]. intros q Hq. by apply Hd.
Qed.

Lemma fill_first (d fill : Z) :
  (if 48 =? d then 48 else fill) = match d with 48 => 48 | _ => fill end.
Proof.
  destruct (Z.eqb_spec 48 d) as [<-|Hne]; [done|].
  destruct d as [|d|d]; try done. do 6 (try destruct d as [d|d|]); done.
Qed.
Lemma vs_digits_loop ds spec rest f s i next first fill acc :
  cstr_at (get_bytes s) (inputBuffer + (i + 1)) (ds ++ spec :: rest) →
  read_char (inputBuffer + (i + 1)) s = Ret (next, s) →
  Forall (λ d, 48 ≤ d ≤ 57) ds → 57 < spec < 128 →
  0 ≤ i → i + Z.of_nat (length ds) + 1 < 2 ^ 32 → (length ds < f)%nat →
  loop f (λ '(index, next, firstSpecificator, fillChar, digits),
    if (48 <=? next) && (next <=? 57) then
      let fillChar' := if firstSpecificator && (48 =? next) then 48 else fillChar in
      let index' := u32 (index + 1) in
      next' ← read_char (inputBuffer + u32 (index' + 1));
      mret (inl (index', next', false, fillChar', u32 (digits * 10 + next - 48)))
    else mret (inr (index, next, fillChar, digits))) (i, next, first, fill, acc) s
  = Ret ((i + Z.of_nat (length ds), spec,
      if (first : bool) then match ds with 48 :: _ => 48 | _ => fill end else fill,
      fold_left (λ w d, u32 (w * 10 + d - 48)) ds acc), s).
Proof.
  revert f i next first fill acc. induction ds as [|d ds IH];
    intros [|f] i next first fill acc Hs Hn Hd Hsp Hi Hl Hf; cbn [length app fold_left] in *; try lia.
  - rewrite (read_char_cons _ _ _ _ Hs), s8_small in Hn by lia. simplify_eq.
    erewrite loop_break; [by destruct first; rewrite Z.add_0_r|].
    rewrite (proj2 (Z.leb_gt next 57)), andb_false_r by lia. done.
  - apply Forall_cons in Hd as [Hd Hds].
    rewrite (read_char_cons _ _ _ _ Hs), s8_small in Hn by lia. simplify_eq.
    pose proof (cstr_tail _ _ _ _ Hs) as Hs'. rewrite <-Z.add_assoc in Hs'.
    assert (Hnext : ∃ n', read_char (inputBuffer + (i + 1 + 1)) s = Ret (n', s)).
    { destruct ds; simpl in Hs'; rewrite (read_char_cons _ _ _ _ Hs'); eauto. }
    destruct Hnext as [n' Hn'].
    erewrite loop_continue.
    2: { rewrite (proj2 (Z.leb_le 48 next)), (proj2 (Z.leb_le next 57)) by lia. cbn [andb].
         rewrite !u32_succ by (rewrite ?u32_succ by lia; lia). cbv zeta. mrun Hn'. reflexivity. }
    rewrite (IH f (i + 1) n' false); try done; try lia.
    replace (i + 1 + Z.of_nat (length ds)) with (i + Z.of_nat (S (length ds))) by lia.
    destruct first; [|done]. cbn [andb]. by rewrite fill_first.
Qed.
Lemma vs_digits_run ds spec rest i s :
  cstr_at (get_bytes s) (inputBuffer + i) (37 :: ds ++ spec :: rest) →
  is_width ds → 57 < spec < 128 → 0 ≤ i → i + Z.of_nat (length ds) + 1 < 2 ^ 32 →
  (length ds < fuel)%nat →
  vs_digits fuel inputBuffer i s = Ret ((i + Z.of_nat (length ds), spec, fill_of ds, width_of ds), s).
Proof.
  intros Hs [Hd Hw] Hsp Hi Hl Hf. unfold vs_digits.
  pose proof (cstr_tail _ _ _ _ Hs) as Hs'. rewrite <-Z.add_assoc in Hs'.
  rewrite u32_succ by lia.
  assert (Hnext : ∃ n', read_char (inputBuffer + (i + 1)) s = Ret (n', s)).
  { destruct ds; simpl in Hs'; rewrite (read_char_cons _ _ _ _ Hs'); eauto. }
  destruct Hnext as [n' Hn']. mrun Hn'. erewrite vs_digits_loop by done.
  assert (Hwd : fold_left (λ w d, u32 (w * 10 + d - 48)) ds 0 = width_of ds).
  { change 0 with (u32 0). rewrite width_of_u32. unfold u32. apply Z.mod_small.
    split; [by apply width_nonneg|done]. }
  by rewrite Hwd.
Qed.

Lemma u32_small z : 0 ≤ z < 2 ^ 32 → u32 z = z.
Proof. apply Z.mod_small. Qed.

(** Padding and copying a text that lies apart from the output. *)
Lemma vs_emit_run off spec fill wid p text s :
  p ≠ NULL → cstr_at (get_bytes s) p text → (length text < fuel)%nat →
  Z.of_nat (length text) < 2 ^ 32 - 1 →
  (∀ q, p ≤ q ≤ p + Z.of_nat (length text) → ¬ Output q) →
  mapped (get_bytes s) outputBuffer buffSize → byte_ok fill → 0 ≤ wid < 2 ^ 32 → 0 ≤ off →
  off + Z.max (Z.of_nat (length text)) wid < buffSize →
  let out := replicate (Z.to_nat wid - length text) fill
    ++ (if spec =? 83 then take (Z.to_nat wid) text else text) in
  ∃ b', vs_emit fuel outputBuffer buffSize off spec fill wid p s
      = Ret (inl (off + Z.of_nat (length out)), set_bytes b' s)
    ∧ bytes_at b' (outputBuffer + off) out
    ∧ changes (within (outputBuffer + off) (buffSize - off)) (get_bytes s) b'.
Proof.
  intros Hp Hs Hf Hlt Hap Hm Hfill Hw Hoff Hroom out.
  set (len := Z.of_nat (length text)) in *.
  set (k := if spec =? 83 then Z.min wid len else len).
  set (fs := if len <? wid then u32 (wid - len) else 0).
  assert (Hfs : fs = Z.max 0 (wid - len)).
  { unfold fs. destruct (Z.ltb_spec len wid); [|lia]. unfold u32. rewrite Z.mod_small by lia. lia. }
  set (txt := if spec =? 83 then take (Z.to_nat wid) text else text) in *.
  assert (Htk : txt = take (Z.to_nat k) text).
  { unfold txt, k. destruct (spec =? 83).
    - destruct (Z.min_spec wid len) as [[? ->]|[? ->]]; [done|]. unfold len.
      rewrite Nat2Z.id, firstn_all. apply take_ge. lia.
    - unfold len. by rewrite Nat2Z.id, firstn_all. }
  assert (Hk : 0 ≤ k ≤ len) by (unfold k; destruct (spec =? 83); lia).
  assert (Htl : Z.of_nat (length txt) = k).
  { rewrite Htk, length_take. lia. }
  assert (Hol : Z.of_nat (length out) = fs + k).
  { unfold out. fold txt. rewrite length_app, length_replicate. lia. }
  assert (Hup : off + fs + k < buffSize) by lia.
  (* memory after the padding *)
  set (b1 := store (get_bytes s) (outputBuffer + off) (replicate (Z.to_nat fs) fill)).
  assert (Hc1 : changes (within (outputBuffer + off) (buffSize - off)) (get_bytes s) b1).
  { apply changes_store. intros q Hq. rewrite length_replicate in Hq. unfold within in *. lia. }
  assert (Hb1 : bytes_at b1 (outputBuffer + off) (replicate (Z.to_nat fs) fill)).
  { unfold b1. rewrite <-(map_u8_id (replicate (Z.to_nat fs) fill)) at 2; [apply store_at|].
    by apply Forall_replicate. }
  assert (Hs1 : cstr_at b1 p text).
  { eapply changes_cstr; [exact Hc1| |done]. intros q Hq Hin. apply (Hap q Hq). unfold Output, within in *. lia. }
  assert (Hpad : ((if negb (0 =? fs) then
      cl_memset (outputBuffer + off) fill fs;; mret (u32 (off + fs)) else mret off) : M St Z) s
    = Ret (off + fs, set_bytes b1 s)).
  { destruct (Z.eqb_spec 0 fs) as [He|He]; cbn [negb].
    - unfold b1. rewrite <-He. simpl. by rewrite Z.add_0_r, set_get_bytes.
    - erewrite bind_Ret by (apply cl_memset_run; [unfold NULL; lia|lia|]; eapply mapped_sub; [exact Hm|lia|lia]).
      unfold mret, M_ret, u32. by rewrite Z.mod_small by lia. }
  set (b2 := if k =? 0 then b1 else store b1 (outputBuffer + (off + fs)) (txt ++ [0])).
  assert (Hcopy : ((if negb (k =? 0) then cl_strncpy fuel (outputBuffer + (off + fs)) p k else mret tt)
    : M St unit) (set_bytes b1 s) = Ret (tt, set_bytes b2 s)).
  { unfold b2. destruct (Z.eqb_spec k 0) as [He|He]; cbn [negb]; [done|].
    destruct Hs1 as [Hs1 Hok].
    rewrite <-Htl, (cl_strncpy_run fuel _ p _ txt); autorewrite with bytes; [done|unfold NULL; lia|done|lia|lia| | | | | |].
    - rewrite Htk. rewrite <-(firstn_skipn (Z.to_nat k) text), <-app_assoc in Hs1.
      by apply bytes_at_app in Hs1 as [? _].
    - rewrite Htk. by apply Forall_take.
    - lia.
    - eapply changes_mapped; [exact Hc1|]. eapply mapped_sub; [exact Hm|lia|lia].
    - unfold Output, within in Hap. destruct (decide (outputBuffer + (off + fs) + k ≤ p)) as [|H1]; [left; lia|].
      destruct (decide (p + k < outputBuffer + (off + fs))) as [|H2]; [right; lia|]. exfalso.
      destruct (decide (p ≤ outputBuffer + (off + fs))).
      + apply (Hap (outputBuffer + (off + fs))); lia.
      + apply (Hap p); lia.
    - rewrite Htk, length_take. lia. }
  assert (Hc2 : changes (within (outputBuffer + off + fs) (buffSize - off - fs)) b1 b2).
  { unfold b2. destruct (k =? 0); [apply changes_refl|]. apply changes_store. intros q Hq.
    rewrite length_app in Hq. simpl in Hq. unfold within in *. lia. }
  exists b2. split_and!.
  - unfold vs_emit. erewrite bind_Ret by (apply cl_strlen_run; [done|done|done|lia]). cbn beta iota. fold len.
    massert ltac:(apply negb_true_iff, Z.eqb_neq; unfold INVALID_STRING_SIZE, MAX_DWORD; lia).
    cbv zeta. fold k fs.
    rewrite (u32_small (off + len)), (proj2 (Z.leb_gt buffSize (off + len))) by lia.
    rewrite (u32_small (off + len + fs)), (proj2 (Z.leb_gt buffSize (off + len + fs))) by lia.
    mrun Hpad. mrun Hcopy. unfold mret, M_ret. rewrite u32_small by lia. do 3 f_equal. lia.
  - unfold out. fold txt. apply bytes_at_app. split.
    + replace (Z.to_nat wid - length text)%nat with (Z.to_nat fs) by lia.
      eapply changes_bytes; [exact Hc2| |exact Hb1]. intros q Hq. rewrite length_replicate in Hq.
      unfold within in *. lia.
    + rewrite length_replicate. replace (outputBuffer + off + Z.of_nat (Z.to_nat wid - length text))
        with (outputBuffer + (off + fs)) by lia.
      unfold b2. destruct (Z.eqb_spec k 0) as [He|He].
      * destruct txt as [|c txt']; [apply bytes_at_nil|]. simpl in Htl. lia.
      * pose proof (store_at b1 (outputBuffer + (off + fs)) (txt ++ [0])) as Hst.
        rewrite map_u8_id in Hst; [by apply bytes_at_app in Hst as [? _]|].
        apply Forall_app. split; [|by repeat constructor]. destruct Hs1 as [_ Hok].
        rewrite Htk. apply Forall_take. eapply Forall_impl; [exact Hok|apply char_ok_byte].
  - eapply changes_trans; [exact Hc1|]. eapply changes_mono; [|exact Hc2]. unfold within. intros q Hq. lia.
Qed.

Lemma item_output_emit it :
  item_ok it → (∀ c, it ≠ Lit c) →
  item_output it = replicate (Z.to_nat (width_of (item_width it)) - length (item_text it)) (fill_of (item_width it))
    ++ (if item_spec it =? 83 then take (Z.to_nat (width_of (item_width it))) (item_text it) else item_text it).
Proof.
  intros Hok Hlit. unfold item_output, pad. f_equal. destruct it as [c|w spec slot|w slot|w u p cs].
  - by destruct (Hlit c).
  - destruct Hok as [_ [r Hr]]. apply number_format_spec in Hr as [_ Hne].
    cbn [item_spec]. by rewrite (proj2 (Z.eqb_neq spec 83)).
  - done.
  - by destruct u.
Qed.
Lemma fill_of_ok ds : char_ok (fill_of ds).
Proof.
  unfold fill_of. destruct ds as [|d ds]; [done|]. rewrite <-(fill_first d 32).
  by destruct (48 =? d).
Qed.
Lemma item_output_ok b it : item_ok it → item_mem b it → Forall char_ok (item_output it).
Proof.
  intros Hok Hm. pose proof (item_text_ok it Hok (item_mem_text b it Hm)) as Ht.
  unfold item_output, pad. apply Forall_app. split; [apply Forall_replicate, fill_of_ok|].
  destruct it as [c|w spec slot|w slot|w [] p cs]; try done. by apply Forall_take.
Qed.

(** What one item of the format does. *)
Lemma vs_item_step it rest args i pi off s :
  cstr_at (get_bytes s) (inputBuffer + i) (item_format it ++ rest) →
  item_ok it → item_mem (get_bytes s) it → vs_room (get_bytes s) →
  (length (item_format it) < fuel)%nat → 0 ≤ i → i + Z.of_nat (length (item_format it)) < 2 ^ 32 →
  0 ≤ pi → pi + item_count it < 2 ^ 32 → 0 ≤ off → off + item_room it < buffSize →
  ∃ b', vs_step fuel temp temp_value outputBuffer buffSize inputBuffer (i, pi, off, item_args it ++ args) s
      = Ret (inl (i + Z.of_nat (length (item_format it)), pi + item_count it,
                  off + Z.of_nat (length (item_output it)), args), set_bytes b' s)
    ∧ bytes_at b' (outputBuffer + off) (item_output it)
    ∧ changes (λ q, within (outputBuffer + off) (buffSize - off) q ∨ Scratch q) (get_bytes s) b'.
Proof.
  intros Hs Hok Hmem Hroom Hf Hi Hl Hpi Hpc Hoff Hfit. assert (Hcase : (∃ c, it = Lit c) ∨ ¬ (∃ c, it = Lit c))
    by (destruct it; [left; eauto|right; intros [? ?]; done..]).
  destruct Hcase as [[c ->]|Hlit].
  - destruct Hok as [_ [Hc Hne]]. cbn [item_format app length item_args item_count] in *.
    unfold item_room in Hfit. cbn [item_text length item_width] in Hfit.
    change (width_of []) with 0 in Hfit.
    exists (<[outputBuffer + off := u8 c]> (get_bytes s)).
    assert (Hb : get_bytes s !! (inputBuffer + i) = Some c) by (by apply cstr_cons in Hs as [? _]).
    split_and!.
    + unfold vs_step. mrun (read_char_cons _ _ _ _ Hs). rewrite (s8_char c Hc).
      rewrite (proj2 (Z.eqb_neq 37 (s8 c))) by (intros He; apply Hne; apply (s8_inj c 37);
        [by apply char_ok_byte|by split|by rewrite <-He]).
      rewrite u32_small, (proj2 (Z.leb_gt _ _)) by lia. mrun (read_byte_ok _ _ _ Hb).
      erewrite bind_Ret by (apply write_byte_ok; destruct Hroom as (_ & _ & Hm); apply Hm; lia).
      unfold mret, M_ret. rewrite !u32_small by lia. rewrite Z.add_0_r. done.
    + cbn [item_output pad item_text]. change (item_output (Lit c)) with [c].
      apply bytes_at_cons. split; [|apply bytes_at_nil]. rewrite lookup_insert_eq. f_equal.
      by apply u8_id, char_ok_byte.
    + apply (changes_store _ _ _ [c]). intros q Hq. left. unfold within in *. simpl in Hq. lia.
  - assert (Hlit' : ∀ c, it ≠ Lit c) by (intros c ->; apply Hlit; eauto). clear Hlit.
    assert (Hfmt : item_format it = 37 :: item_width it ++ [item_spec it]).
    { destruct it as [c| | |]; [by destruct (Hlit' c)|done..]. }
    rewrite Hfmt in *. cbn [app] in Hs. rewrite <-app_assoc in Hs. cbn [app] in Hs.
    cbn [length] in *. rewrite length_app in *. cbn [length] in *.
    assert (Hsp : 57 < item_spec it < 128).
    { destruct (item_spec_range it Hok) as [[c ->]|?]; [by destruct (Hlit' c)|done]. }
    pose proof (width_of_nonneg it Hok) as Hw. unfold item_room in Hfit.
    destruct (vs_convert_run it args s Hok Hmem Hlit' Hroom)
      as (p & b1 & Hcv & Hp & Htext & Hc1 & Htf & Htl & Hap).
    assert (Hr1 : vs_room b1) by (by eapply changes_room).
    destruct (vs_emit_run off (item_spec it) (fill_of (item_width it)) (width_of (item_width it)) p
      (item_text it) (set_bytes b1 s)) as (b2 & Hem & Hb2 & Hc2);
      rewrite ?get_set_bytes; try done; try (by destruct Hr1 as (_ & _ & ?)); try apply char_ok_byte, fill_of_ok.
    rewrite <-item_output_emit in Hem, Hb2 by done. rewrite get_set_bytes in Hc2.
    exists b2. split_and!; [|done|].
    + unfold vs_step. mrun (read_char_cons _ _ _ _ Hs). change (s8 37 =? 0) with false. cbn iota.
      change (37 =? s8 37) with true. cbn iota.
      mrun (vs_digits_run _ _ _ _ _ Hs (proj1 Hok) Hsp Hi ltac:(lia) ltac:(lia)).
      mrun Hcv. mrun Hem. unfold mret, M_ret. autorewrite with bytes.
      assert (item_count it = 1) as Hone by (destruct it as [c| | |]; [by destruct (Hlit' c)|done..]).
      rewrite Hone in *. rewrite !u32_small by lia.
      by replace (i + Z.of_nat (S (length (item_width it) + 1)))
        with (i + Z.of_nat (length (item_width it)) + 2) by lia.
    + eapply changes_trans; (eapply changes_mono; [|done]); intros q Hq; tauto.
Qed.

Definition vs_format (its : list vs_item) : list Z := concat (map item_format its).
Definition vs_args (its : list vs_item) : va_list := concat (map item_args its).
Definition vs_output (its : list vs_item) : list Z := concat (map item_output its).
Definition vs_count (its : list vs_item) : Z := foldr (λ it n, item_count it + n) 0 its.
Definition vs_room_asked (its : list vs_item) : Z := foldr (λ it n, item_room it + n) 0 its.

Lemma item_output_room it : item_ok it → Z.of_nat (length (item_output it)) ≤ item_room it.
Proof.
  intros Hok. pose proof (width_of_nonneg it Hok). unfold item_output, pad, item_room.
  rewrite length_app, length_replicate.
  destruct it as [c|w spec slot|w slot|w [] p cs]; cbn [item_text item_width] in *; try lia.
  rewrite length_take. lia.
Qed.
Lemma vs_count_bound its : 0 ≤ vs_count its ≤ Z.of_nat (length (vs_format its)).
Proof.
  unfold vs_format. induction its as [|it its IH]; cbn [vs_count foldr map concat]; [simpl; lia|].
  rewrite length_app. fold (vs_count its). destruct it; cbn [item_count item_format length]; lia.
Qed.
Lemma vs_room_nonneg its : Forall item_ok its → 0 ≤ vs_room_asked its.
Proof.
  induction 1 as [|it its Hok _ IH]; cbn [vs_room_asked foldr]; [lia|]. fold (vs_room_asked its).
  pose proof (width_of_nonneg it Hok). unfold item_room. lia.
Qed.

Lemma vs_loop_run its f i pi off out s :
  cstr_at (get_bytes s) (inputBuffer + i) (vs_format its) →
  (∀ q, within (inputBuffer + i) (Z.of_nat (length (vs_format its)) + 1) q → ¬ (Output q ∨ Scratch q)) →
  Forall item_ok its → Forall (item_mem (get_bytes s)) its → vs_room (get_bytes s) →
  (length its < f)%nat → (length (vs_format its) < fuel)%nat →
  0 ≤ i → i + Z.of_nat (length (vs_format its)) < 2 ^ 32 →
  1 ≤ pi → pi + vs_count its < 2 ^ 32 →
  Z.of_nat (length out) = off → bytes_at (get_bytes s) outputBuffer out → Forall char_ok out →
  off + vs_room_asked its < buffSize →
  ∃ b', loop f (vs_step fuel temp temp_value outputBuffer buffSize inputBuffer) (i, pi, off, vs_args its) s
      = Ret (pi + vs_count its - 1, set_bytes b' s)
    ∧ cstr_at b' outputBuffer (out ++ vs_output its)
    ∧ changes (λ q, Output q ∨ Scratch q) (get_bytes s) b'.
Proof.
  revert f i pi off out s. induction its as [|it its IH];
    intros [|f] i pi off out s Hs Hfd Hok Hmem Hroom Hf Hff Hi Hl Hpi Hpc Hoff Hb Hco Hfit;
    cbn [length] in Hf; try lia.
  - change (vs_format []) with (@nil Z) in *. change (vs_room_asked []) with 0 in Hfit.
    change (vs_count []) with 0 in *. change (vs_output []) with (@nil Z). cbn [length] in *.
    exists (<[outputBuffer + off := 0]> (get_bytes s)). split_and!.
    + apply loop_break. unfold vs_step. mrun (read_char_nil _ _ Hs). change (0 =? 0) with true. cbn iota.
      erewrite bind_Ret by (apply write_byte_ok; destruct Hroom as (_ & _ & Hm); apply Hm; lia).
      unfold mret, M_ret. rewrite u32_small by lia. by rewrite Z.add_0_r.
    + rewrite app_nil_r. split; [|done]. apply bytes_at_app. rewrite Hoff. split.
      * eapply bytes_at_agree; [done|]. intros q Hq. by rewrite lookup_insert_ne by lia.
      * apply bytes_at_cons. split; [apply lookup_insert_eq|apply bytes_at_nil].
    + apply (changes_store _ _ _ [0]). intros q Hq. left. unfold Output, within in *. simpl in Hq. lia.
  - apply Forall_cons in Hok as [Hok Hoks]. apply Forall_cons in Hmem as [Hm Hms].
    change (vs_format (it :: its)) with (item_format it ++ vs_format its) in *.
    change (vs_args (it :: its)) with (item_args it ++ vs_args its).
    change (vs_output (it :: its)) with (item_output it ++ vs_output its).
    change (vs_count (it :: its)) with (item_count it + vs_count its) in *.
    change (vs_room_asked (it :: its)) with (item_room it + vs_room_asked its) in *.
    rewrite length_app in *. pose proof (vs_room_nonneg its Hoks). pose proof (vs_count_bound its).
    pose proof (item_output_room it Hok).
    assert (Hic : 0 ≤ item_count it ≤ 1) by (destruct it; simpl; lia).
    destruct (vs_item_step it (vs_format its) (vs_args its) i pi off s)
      as (b1 & Hr & Hb1 & Hc1); try done; try lia.
    assert (Hc1' : changes (λ q, Output q ∨ Scratch q) (get_bytes s) b1).
    { eapply changes_mono; [|exact Hc1]. unfold Output, within. intros q Hq. intuition lia. }
    destruct (IH f (i + Z.of_nat (length (item_format it))) (pi + item_count it)
      (off + Z.of_nat (length (item_output it))) (out ++ item_output it) (set_bytes b1 s))
      as (b2 & Hr2 & Hs2 & Hc2); rewrite ?get_set_bytes; try done; try lia.
    + rewrite Z.add_assoc. destruct Hs as [Hs1 Hs2]. apply Forall_app in Hs2 as [_ Hs2]. split; [|done].
      rewrite <-app_assoc in Hs1. apply bytes_at_app in Hs1 as [_ Hs1].
      eapply changes_bytes; [exact Hc1'| |exact Hs1]. intros q Hq. apply Hfd.
      rewrite length_app in Hq. unfold within in *. simpl in Hq. lia.
    + intros q Hq. apply Hfd. unfold within in *. lia.
    + eapply Forall_impl; [exact Hms|]. intros it'. by apply changes_item_mem.
    + by eapply changes_room.
    + rewrite length_app. lia.
    + apply bytes_at_app. rewrite Hoff. split; [|done]. eapply changes_bytes; [exact Hc1| |exact Hb].
      intros q Hq [Hin|Hin]; [unfold within in *; lia|]. apply (Hdisj q); [|done].
      unfold Output, within in *. lia.
    + apply Forall_app. split; [done|]. by eapply item_output_ok.
    + exists b2. split_and!.
      * etransitivity; [exact (loop_continue _ _ _ _ _ _ Hr)|]. etransitivity; [exact Hr2|]. autorewrite with bytes. do 2 f_equal. lia.
      * by rewrite app_assoc.
      * rewrite get_set_bytes in Hc2. by eapply changes_trans.
Qed.

(** C20: cl_vsnprintf on a format made of literal characters and of conversions (%b %B %u %U %d
    %D %x %X %c %s %S with an optional width) writes the converted texts, padded with
    spaces or zeros, and a terminator; it returns the number of conversions and writes
    nowhere but in the output buffer and its own locals, when the buffer has room for every
    text and width. The text of a number conversion is the numeral, in its base and without
    leading zeros, of the low 32 (b, u, d, x) or 64 bits (B, U, D, X) of the argument, which d and D
    read in two's complement and print with a minus sign; digits above 9 are capital letters. The
    exception is %d of -2147483648, which is printed as -18446744071562067968. %c prints the low
    byte of the argument, nothing when it is 0, and %S cuts the string to the width. *)
Theorem cl_vsnprintf_formats its s :
  inputBuffer ≠ NULL →
  cstr_at (get_bytes s) inputBuffer (vs_format its) →
  (∀ q, within inputBuffer (Z.of_nat (length (vs_format its)) + 1) q → ¬ (Output q ∨ Scratch q)) →
  Forall item_ok its → Forall (item_mem (get_bytes s)) its → vs_room (get_bytes s) →
  (length its < fuel)%nat → (length (vs_format its) < fuel)%nat →
  Z.of_nat (length (vs_format its)) < 2 ^ 32 - 1 → vs_room_asked its < buffSize →
  ∃ b', cl_vsnprintf fuel temp temp_value outputBuffer buffSize inputBuffer (vs_args its) s
      = Ret (vs_count its, set_bytes b' s)
    ∧ cstr_at b' outputBuffer (vs_output its)
    ∧ Forall number_printed its
    ∧ changes (λ q, Output q ∨ Scratch q) (get_bytes s) b'.
Proof.
  intros Hin Hs Hfd Hok Hmem Hroom Hf Hff Hl Hfit. unfold cl_vsnprintf.
  rewrite (proj2 (Z.eqb_neq NULL outputBuffer)), (proj2 (Z.eqb_neq 0 buffSize)),
    (proj2 (Z.eqb_neq NULL inputBuffer)) by (done || unfold NULL; lia).
  set (b0 := store (get_bytes s) temp_value (le_bytes 8 0)).
  assert (Hc0 : changes (λ q, Output q ∨ Scratch q) (get_bytes s) b0).
  { apply changes_store. intros q Hq. right. right. by rewrite le_bytes_length in Hq. }
  erewrite bind_Ret by (apply write_le_run; by destruct Hroom as (_ & ? & _)). cbn beta iota. fold b0.
  pose proof (vs_count_bound its).
  destruct (vs_loop_run its fuel 0 1 0 [] (set_bytes b0 s)) as (b' & Hr & Hs' & Hc');
    rewrite ?get_set_bytes, ?Z.add_0_r; try done; try lia; try apply bytes_at_nil.
  - eapply changes_cstr; [exact Hc0| |done]. intros q Hq. apply Hfd. unfold within. lia.
  - eapply Forall_impl; [exact Hmem|]. intros it. by apply changes_item_mem.
  - by eapply changes_room.
  - exists b'. split_and!; [|done|apply Forall_forall; intros it _; apply item_text_denotes|].
    + rewrite Hr. autorewrite with bytes. do 2 f_equal. lia.
    + rewrite get_set_bytes in Hc'. by eapply changes_trans.
Qed.

(** The check of the room is made in 32 bits: a width that makes the sum wrap passes it,
    and the padding runs on past the buffer. *)
Theorem vs_emit_width_wraps off spec fill wid p text k s :
  p ≠ NULL → cstr_at (get_bytes s) p text → (length text < fuel)%nat →
  0 < off → off + Z.of_nat (length text) < buffSize →
  wid < 2 ^ 32 → 2 ^ 32 ≤ off + wid < 2 ^ 32 + buffSize →
  0 ≤ k < wid - Z.of_nat (length text) → get_bytes s !! (outputBuffer + off + k) = None →
  vs_emit fuel outputBuffer buffSize off spec fill wid p s = Fault.
Proof.
  intros Hp Hs Hf Hoff Hfit Hw Hwrap Hk Hn. set (len := Z.of_nat (length text)) in *.
  unfold vs_emit. erewrite bind_Ret by (apply cl_strlen_run; [done|done|done|lia]). cbn beta iota. fold len.
  massert ltac:(apply negb_true_iff, Z.eqb_neq; unfold INVALID_STRING_SIZE, MAX_DWORD; lia).
  cbv zeta. rewrite (proj2 (Z.ltb_lt len wid)) by lia.
  rewrite (u32_small (off + len)), (proj2 (Z.leb_gt buffSize (off + len))) by lia.
  rewrite (u32_small (wid - len)) by lia.
  assert (u32 (off + len + (wid - len)) = off + wid - 2 ^ 32) as ->.
  { apply (u32_eq _ _ 1); lia. }
  rewrite (proj2 (Z.leb_gt buffSize _)) by lia.
  apply bind_Fault. rewrite (proj2 (Z.eqb_neq 0 (wid - len))) by lia. cbn [negb].
  apply bind_Fault, (cl_memset_fault _ _ _ k); [unfold NULL; lia|lia|done].
Qed.
End Runs.

(** * A concrete run *)
Module VsnprintfExample.
Definition place (p : Z) (bs : list Z) : list (Z * Z) := imap (λ i v, (p + Z.of_nat i, v)) bs.
(** x=%04u %s, with the arguments 42 and the string ok at 5000. *)
Definition items : list vs_item :=
  [Lit 120; Lit 61; Number [48; 52] 117 42; Lit 32; Str [] false 5000 [111; 107]].
Definition mem : gmap Z Z := list_to_map
  (place 1000 (vs_format items ++ [0]) ++ place 2000 (replicate 16 0)
   ++ place 5000 [111; 107; 0] ++ place 6000 (replicate 65 0) ++ place 7000 (replicate 8 0)).

Lemma cl_vsnprintf_formats_witness : ∃ b',
  cl_vsnprintf 66 6000 7000 2000 16 1000 [42; 5000] mem = Ret (2, b')
  ∧ cstr_at b' 2000 [120; 61; 48; 48; 52; 50; 32; 111; 107].
Proof.
  destruct (cl_vsnprintf_formats 66 6000 7000 2000 16 1000 ltac:(lia) ltac:(by split)) with
    (its := items) (s := mem) as (b' & Hr & Hs & _).
  - unfold within, VSNPRINTF_BUFFER_SIZE. lia.
  - unfold Output, Scratch, within, VSNPRINTF_BUFFER_SIZE. lia.
  - lia.
  - lia.
  - discriminate.
  - split; [apply bytes_atb_sound; by vm_compute|].
    repeat (apply Forall_cons; split; [by split|]); by apply Forall_nil.
  - change (length (vs_format items)) with 9%nat.
    unfold Output, Scratch, within, VSNPRINTF_BUFFER_SIZE. lia.
  - unfold items. rewrite !Forall_cons. split_and!; try apply Forall_nil; try done; try (by eexists).
    by repeat constructor.
  - unfold items. rewrite !Forall_cons. split; [done|]. split; [done|]. split; [done|]. split; [done|].
    split; [|by apply Forall_nil]. split; [split; [apply bytes_atb_sound; by vm_compute|]|split; [simpl; lia|]].
    + repeat (apply Forall_cons; split; [by split|]); by apply Forall_nil.
    + unfold Output, Scratch, within, VSNPRINTF_BUFFER_SIZE. simpl. lia.
  - split_and!.
    + apply (bytes_at_mapped _ _ (replicate 65 0)), bytes_atb_sound. by vm_compute.
    + apply (bytes_at_mapped _ _ (replicate 8 0)), bytes_atb_sound. by vm_compute.
    + apply (bytes_at_mapped _ _ (replicate 16 0)), bytes_atb_sound. by vm_compute.
  - simpl. lia.
  - change (length (vs_format items)) with 9%nat. lia.
  - change (length (vs_format items)) with 9%nat. lia.
  - by vm_compute.
  - exists b'. split; [exact Hr|exact Hs].
Defined.
End VsnprintfExample.
