(* ===== verification/VmReservation.v ===== *)
(** HAL9000/src/vm_reservation_space.c: the reservations of a virtual address space.

    The array at ReservationList is a list of entries, the commit bitmaps lie in the
    byte store, at the addresses the code gives them. MmuUnmapMemoryEx (mmu.c) and
    IoCloseFile (io_files.c) are parameters of the operations that call them. *)
From S2P Require Import Prelude Memory Bitmap Cpu RwSpinlock.

(** CommonLib/src/intutils.c *)
Definition CalculatePercentage {St} (WholeValue HundredsOfPercentage : Z) : M St Z :=
  ASSERT (HundredsOfPercentage <=? 10000);;
  if HundredsOfPercentage =? 0 then fault else
  ASSERT (WholeValue <=? MAX_QWORD / HundredsOfPercentage);;
  mret (u64 (WholeValue * HundredsOfPercentage) / 10000).

Definition VmmReservationStateFree : Z := 0.
Definition VmmReservationStateUsed : Z := 1.
Definition VmmReservationStateLast : Z := 2.

Record VMM_RESERVATION := mkRes {
  StartVa : Z;
  Size : Z;
  PageRights : Z;
  State : Z;
  Uncacheable : bool;
  BackingFile : Z;
  CommitBitmap : BITMAP
}.
Definition VMM_RESERVATION_zero : VMM_RESERVATION :=
  mkRes NULL 0 0 VmmReservationStateFree false NULL BITMAP_zero.
Definition sizeof_VMM_RESERVATION : Z := 56.
Definition RESERVATION_LIST_PERCENTAGE_IN_HUNDREDS : Z := 20 * 100.

Record VMM_RESERVATION_SPACE := mkSpace {
  FreeVirtualAddressPointer : Z;
  StartOfVirtualAddressSpace : Z;
  BitmapAddressStart : Z;
  ReservedAreaSize : Z;
  ReservationLock : RW_SPINLOCK;
  FreeBitmapAddress : Z;
  ReservationList : Z
}.

(** The reservation space, the array at its ReservationList, the bitmap buffers, and of
    the CPU its flags, APIC id and, when there is a PCPU, its VmmMemoryAccess. *)
Record VM := mkVM {
  vm_space : VMM_RESERVATION_SPACE;
  vm_entries : list VMM_RESERVATION;
  vm_bytes : gmap Z Z;
  vm_rflags : Z;
  vm_apic : Z;
  vm_access : option bool
}.
#[export] Instance VM_HasBytes : HasBytes VM.
Proof.
  by refine {| get_bytes := vm_bytes; set_bytes b s := mkVM (vm_space s) (vm_entries s) b
    (vm_rflags s) (vm_apic s) (vm_access s) |}; intros; destruct s.
Defined.
#[export] Instance VM_HasCpu : HasCpu VM.
Proof.
  by refine {| get_rflags := vm_rflags; get_apic_id := vm_apic;
    set_rflags f s := mkVM (vm_space s) (vm_entries s) (vm_bytes s) f (vm_apic s) (vm_access s) |};
    intros; destruct s.
Defined.
Definition set_space (f : VMM_RESERVATION_SPACE → VMM_RESERVATION_SPACE) (s : VM) : VM :=
  mkVM (f (vm_space s)) (vm_entries s) (vm_bytes s) (vm_rflags s) (vm_apic s) (vm_access s).
Definition set_entries (es : list VMM_RESERVATION) (s : VM) : VM :=
  mkVM (vm_space s) es (vm_bytes s) (vm_rflags s) (vm_apic s) (vm_access s).
Definition set_access (a : bool) (s : VM) : VM :=
  mkVM (vm_space s) (vm_entries s) (vm_bytes s) (vm_rflags s) (vm_apic s) ((λ _, a) <$> vm_access s).
Definition with_lock (k : RW_SPINLOCK) (p : VMM_RESERVATION_SPACE) : VMM_RESERVATION_SPACE :=
  mkSpace (FreeVirtualAddressPointer p) (StartOfVirtualAddressSpace p) (BitmapAddressStart p)
    (ReservedAreaSize p) k (FreeBitmapAddress p) (ReservationList p).
Definition with_free_va (v : Z) (p : VMM_RESERVATION_SPACE) : VMM_RESERVATION_SPACE :=
  mkSpace v (StartOfVirtualAddressSpace p) (BitmapAddressStart p)
    (ReservedAreaSize p) (ReservationLock p) (FreeBitmapAddress p) (ReservationList p).
Definition with_free_bitmap (v : Z) (p : VMM_RESERVATION_SPACE) : VMM_RESERVATION_SPACE :=
  mkSpace (FreeVirtualAddressPointer p) (StartOfVirtualAddressSpace p) (BitmapAddressStart p)
    (ReservedAreaSize p) (ReservationLock p) v (ReservationList p).
Definition lens_ReservationLock : lens VM RW_SPINLOCK.
Proof.
  by refine (mkLens (λ s, ReservationLock (vm_space s)) (λ k, set_space (with_lock k)) _ _ _);
    intros; try destruct s as [[]].
Defined.
#[export] Instance ReservationLock_LensCpu : LensCpu lens_ReservationLock.
Proof. by split. Qed.

Section Ops.
Variable fuel : nat.

(** Access to [ReservationList[i]], and its address. *)
Definition entry (i : nat) : M VM VMM_RESERVATION :=
  s ← get; from_option_fault (vm_entries s !! i).
Definition put_entry (i : nat) (e : VMM_RESERVATION) : M VM unit :=
  s ← get;
  match vm_entries s !! i with
  | Some _ => modify (set_entries (<[i := e]> (vm_entries s)))
  | None => fault
  end.
Definition entry_ptr (p : VMM_RESERVATION_SPACE) (i : nat) : Z :=
  ReservationList p + sizeof_VMM_RESERVATION * Z.of_nat i.
Definition with_State (v : Z) (e : VMM_RESERVATION) : VMM_RESERVATION :=
  mkRes (StartVa e) (Size e) (PageRights e) v (Uncacheable e) (BackingFile e) (CommitBitmap e).
Definition with_bitmap (b : BITMAP) (e : VMM_RESERVATION) : VMM_RESERVATION :=
  mkRes (StartVa e) (Size e) (PageRights e) (State e) (Uncacheable e) (BackingFile e) b.
Definition set_State (i : nat) (v : Z) : M VM unit :=
  e ← entry i; put_entry i (with_State v e).

Definition VmReservationSpaceInit (ReservationMetadataBaseAddress ReservationBaseAddress
    ReservationMetadataSize : Z) : M VM unit :=
  ASSERT (negb (NULL =? ReservationMetadataBaseAddress));;
  ASSERT (IsAddressAligned ReservationMetadataBaseAddress PAGE_SIZE);;
  ASSERT (negb (ReservationMetadataSize =? 0));;
  sizeForReservationList ←
    CalculatePercentage ReservationMetadataSize RESERVATION_LIST_PERCENTAGE_IN_HUNDREDS;
  let bitmapStart := PtrOffset ReservationMetadataBaseAddress sizeForReservationList in
  let free := if ReservationBaseAddress =? NULL
    then PtrOffset ReservationMetadataBaseAddress ReservationMetadataSize
    else ReservationBaseAddress in
  modify (set_space (λ p, mkSpace free free bitmapStart ReservationMetadataSize
    (ReservationLock p) bitmapStart ReservationMetadataBaseAddress));;
  RwSpinlockInit lens_ReservationLock.

Definition VmReservationSpaceFinishInit : M VM unit := set_State 0 VmmReservationStateLast.

(** The status, and the reservation found. *)
Definition _VmFindReservation (Address Size_ : Z) : M VM (Z * option nat) :=
  ASSERT (negb (NULL =? Address));;
  ASSERT (negb (0 =? Size_));;
  r ← loop fuel (λ i,
    e ← entry i;
    p ← gets vm_space;
    mret (if negb (VmmReservationStateLast =? State e) && (entry_ptr p i <? BitmapAddressStart p) then
            if VmmReservationStateFree =? State e then inl (S i)
            else if CHECK_BOUNDS Address Size_ (StartVa e) (Size e) then inr (Some i)
            else inl (S i)
          else inr None)) O;
  mret (match r with
        | Some i => (STATUS_SUCCESS, Some i)
        | None => (STATUS_ELEMENT_NOT_FOUND, None)
        end).

Definition _VmFindFirstFreeReservation : M VM (option nat) :=
  loop fuel (λ i,
    p ← gets vm_space;
    if entry_ptr p i <? BitmapAddressStart p then
      e ← entry i;
      if VmmReservationStateFree =? State e then mret (inr (Some i)) else
      if VmmReservationStateLast =? State e then
        set_State i VmmReservationStateFree;;
        set_State (S i) VmmReservationStateLast;;
        mret (inr (Some i))
      else mret (inl (S i))
    else mret (inr None)) O.

Definition _VmInitializeReservation (Address Size_ PageRights_ : Z) (Uncacheable_ : bool)
    (FileObject : Z) (i : nat) : M VM unit :=
  ASSERT (negb (NULL =? Address));;
  ASSERT (negb (0 =? Size_));;
  ASSERT (IsAddressAligned Address PAGE_SIZE);;
  ASSERT (IsAddressAligned Size_ PAGE_SIZE);;
  let noOfPages := Size_ / PAGE_SIZE in
  e ← entry i;
  put_entry i (mkRes Address Size_ PageRights_ VmmReservationStateUsed Uncacheable_ FileObject
    (CommitBitmap e));;
  ASSERT (noOfPages <=? MAX_DWORD);;
  '(bm, bitmapSize) ← BitmapPreinit (u32 noOfPages);
  ASSERT (negb (0 =? bitmapSize));;
  p ← gets vm_space;
  ASSERT (IsAddressAligned (FreeBitmapAddress p) PAGE_SIZE);;
  bm ← BitmapInitEx bm (FreeBitmapAddress p) false;
  e ← entry i;
  put_entry i (with_bitmap bm e);;
  ASSERT (CHECK_BOUNDS (FreeBitmapAddress p) (AlignAddressUpper bitmapSize PAGE_SIZE)
    (ReservationList p) (ReservedAreaSize p));;
  modify (set_space (λ p, with_free_bitmap
    (u64 (FreeBitmapAddress p + AlignAddressUpper bitmapSize PAGE_SIZE)) p)).

(** The bits of a range of the reservation [e]. *)
Definition change_commit (set : bool) (Address Size_ : Z) (e : VMM_RESERVATION) : M VM unit :=
  ASSERT (negb (NULL =? Address));;
  ASSERT (negb (0 =? Size_));;
  ASSERT (IsAddressAligned Address PAGE_SIZE);;
  ASSERT (IsAddressAligned Size_ PAGE_SIZE);;
  let noOfPages := Size_ / PAGE_SIZE in
  let startIndex := u64 (Z.quot (PtrDiff Address (StartVa e)) PAGE_SIZE) in
  ASSERT (noOfPages <=? MAX_DWORD);;
  ASSERT (startIndex <=? MAX_DWORD);;
  BitmapSetBitsValue (Some (CommitBitmap e)) (u32 startIndex) (u32 noOfPages) set.
Definition _VmCommitReservation := change_commit true.
Definition _VmDecommitReservation := change_commit false.

Definition _VmIsVaCommited (e : VMM_RESERVATION) (Address : Z) : M VM bool :=
  ASSERT (negb (NULL =? Address));;
  let pageNo := u64 (Z.quot (PtrDiff Address (StartVa e)) PAGE_SIZE) in
  ASSERT (pageNo <=? MAX_DWORD);;
  BitmapGetBitValue (Some (CommitBitmap e)) (u32 pageNo).

Definition is_reserve_xor_commit (AllocationType : Z) : bool :=
  xorb (AllocationType =? VMM_ALLOC_TYPE_RESERVE) (AllocationType =? VMM_ALLOC_TYPE_COMMIT).
Definition _VmChangeVaReservationState (Address Size_ AllocationType PageRights_ : Z)
    (Uncacheable_ : bool) (FileObject : Z) : M VM Z :=
  ASSERT (negb (NULL =? Address));;
  ASSERT (negb (0 =? Size_));;
  ASSERT (is_reserve_xor_commit AllocationType);;
  ASSERT (IsAddressAligned Address PAGE_SIZE);;
  ASSERT (IsAddressAligned Size_ PAGE_SIZE);;
  '(status, pReservation) ← _VmFindReservation Address Size_;
  if (STATUS_ELEMENT_NOT_FOUND =? status) && negb (VMM_ALLOC_TYPE_RESERVE =? AllocationType)
  then mret STATUS_MEMORY_IS_NOT_RESERVED else
  if negb (STATUS_ELEMENT_NOT_FOUND =? status) && SUCCEEDED status
     && (VMM_ALLOC_TYPE_RESERVE =? AllocationType)
  then mret STATUS_MEMORY_ALREADY_RESERVED else
  let status := if STATUS_ELEMENT_NOT_FOUND =? status then STATUS_SUCCESS else status in
  if negb (SUCCEEDED status) then mret status else
  if AllocationType =? VMM_ALLOC_TYPE_RESERVE then
    pReservation ← _VmFindFirstFreeReservation;
    ASSERT (bool_decide (is_Some pReservation));;
    i ← from_option_fault pReservation;
    _VmInitializeReservation Address Size_ PageRights_ Uncacheable_ FileObject i;;
    mret status
  else if AllocationType =? VMM_ALLOC_TYPE_COMMIT then
    ASSERT (bool_decide (is_Some pReservation));;
    i ← from_option_fault pReservation;
    e ← entry i;
    if negb (PageRights e =? PageRights_) then mret STATUS_MEMORY_CONFLICTING_ACCESS_RIGHTS else
    if negb (eqb (Uncacheable e) Uncacheable_) then mret STATUS_MEMORY_CONFLICTING_CACHEABILITY else
    _VmCommitReservation Address Size_ e;;
    mret status
  else mret STATUS_UNSUPPORTED.

(** The inline function of vm_reservation_space.h: an interlocked exchange-add. *)
Definition VmReservationSpaceDetermineNextFreeVirtualAddress (Size_ : Z) : M VM Z :=
  p ← gets vm_space;
  modify (set_space (with_free_va (u64 (FreeVirtualAddressPointer p + Size_))));;
  mret (FreeVirtualAddressPointer p).

(** [pCpu->VmmMemoryAccess = a] when there is a PCPU. *)
Definition set_VmmMemoryAccess (a : bool) : M VM unit := modify (set_access a).

(** The status, and what is written through MappedAddress and MappedSize. *)
Definition VmReservationSpaceAllocRegion (BaseAddress Size_ AllocType Rights : Z)
    (Uncacheable_ : bool) (FileObject : Z) : M VM (Z * option (Z * Z)) :=
  ASSERT (negb (Size_ =? 0));;
  ASSERT (IsFlagOn AllocType (Z.lor VMM_ALLOC_TYPE_COMMIT VMM_ALLOC_TYPE_RESERVE));;
  p ← gets vm_space;
  let aligned := AlignAddressLower BaseAddress PAGE_SIZE in
  if negb (NULL =? BaseAddress) && (aligned <? StartOfVirtualAddressSpace p)
  then mret (STATUS_MEMORY_CANNOT_BE_RESERVED, None) else
  '(pBaseAddress, alignedSize) ← (if negb (NULL =? BaseAddress) then
      mret (aligned, AlignAddressUpper (u64 (Size_ + PtrDiff BaseAddress aligned)) PAGE_SIZE)
    else
      let alignedSize := AlignAddressUpper Size_ PAGE_SIZE in
      va ← VmReservationSpaceDetermineNextFreeVirtualAddress alignedSize;
      mret (va, alignedSize));
  oldState ← RwSpinlockAcquire fuel lens_ReservationLock true;
  set_VmmMemoryAccess true;;
  status ← (if IsBooleanFlagOn AllocType VMM_ALLOC_TYPE_RESERVE then
      _VmChangeVaReservationState pBaseAddress alignedSize VMM_ALLOC_TYPE_RESERVE Rights
        Uncacheable_ FileObject
    else mret STATUS_SUCCESS);
  status ← (if negb (SUCCEEDED status) then mret status else
    if IsBooleanFlagOn AllocType VMM_ALLOC_TYPE_COMMIT then
      _VmChangeVaReservationState pBaseAddress alignedSize VMM_ALLOC_TYPE_COMMIT Rights
        Uncacheable_ FileObject
    else mret status);
  set_VmmMemoryAccess false;;
  RwSpinlockRelease lens_ReservationLock oldState true;;
  mret (status, if SUCCEEDED status then Some (pBaseAddress, alignedSize) else None).

(** What is written through the OUT pointers when the fault is solved: rights,
    cacheability, file, offset. *)
Definition VmReservationCanAddressBeAccessed (FaultingAddress RightsRequested : Z)
    : M VM (bool * option (Z * bool * Z * Z)) :=
  i ← CpuIntrGetState;
  ASSERT (eqb INTR_OFF i);;
  if NULL =? FaultingAddress then mret (false, None) else
  p ← gets vm_space;
  if CHECK_BOUNDS FaultingAddress 1 (ReservationList p) (ReservedAreaSize p) then
    a ← gets vm_access;
    if default true a then
      let solved := negb (IsBooleanFlagOn RightsRequested PAGE_RIGHTS_EXECUTE) in
      mret (solved, if solved then Some (PAGE_RIGHTS_READWRITE, false, NULL, 0) else None)
    else mret (false, None)
  else
    RwSpinlockAcquire fuel lens_ReservationLock false;;
    '(status, pReservation) ← _VmFindReservation FaultingAddress 1;
    r ← (if negb (SUCCEEDED status) then mret None else
      i ← from_option_fault pReservation;
      e ← entry i;
      bIsVaCommited ← _VmIsVaCommited e FaultingAddress;
      let fileOffset := if negb (BackingFile e =? NULL)
        then AlignAddressLower (PtrDiff FaultingAddress (StartVa e)) PAGE_SIZE else 0 in
      mret (if bIsVaCommited && IsBooleanFlagOn (PageRights e) RightsRequested
            then Some (PageRights e, Uncacheable e, BackingFile e, fileOffset) else None));
    RwSpinlockRelease lens_ReservationLock INTR_OFF false;;
    mret (bool_decide (is_Some r), r).

(** The status, and what is written to Rights (also when not every page is committed). *)
Definition VmReservationReturnRightsForAddress (Address Size_ : Z) : M VM (Z * option Z) :=
  ASSERT (negb (Address =? NULL));;
  ASSERT (negb (Size_ =? 0));;
  oldState ← RwSpinlockAcquire fuel lens_ReservationLock false;
  '(status, pReservation) ← _VmFindReservation Address Size_;
  '(bFullyCommited, rights) ← (if negb (SUCCEEDED status) then mret (false, None) else
    i ← from_option_fault pReservation;
    e ← entry i;
    full ← loop fuel (λ k,
      if k <? Size_ then
        c ← _VmIsVaCommited e (PtrOffset Address k);
        mret (if (c : bool) then inl (u64 (k + PAGE_SIZE)) else inr false)
      else mret (inr true)) 0;
    mret (full, Some (PageRights e)));
  RwSpinlockRelease lens_ReservationLock oldState false;;
  mret (if (bFullyCommited : bool) then STATUS_SUCCESS else STATUS_MEMORY_IS_NOT_COMMITED, rights).
End Ops.

(** * Releasing a region *)
(** It reaches beyond the reservations: the commit bits are unmapped and the file is closed. The
    two calls work on a state that the reservations are a part of. *)
Section FreeRegion.
Context {St : Type} (fuel : nat) (vm : lens St VM).
(** mmu.c and io_files.c: unmapping and releasing a range, closing a file. *)
Variables (MmuUnmapMemoryEx : Z → Z → M St unit) (IoCloseFile : Z → M St Z).

(** It works on a copy of the reservation. *)
Definition _VmUninitializeReservation (e : VMM_RESERVATION) : M St unit :=
  let pBitmapBuffer := BitmapBuffer (CommitBitmap e) in
  ASSERT (IsAddressAligned pBitmapBuffer PAGE_SIZE);;
  let bitmapSize := BufferSize (CommitBitmap e) in
  MmuUnmapMemoryEx pBitmapBuffer bitmapSize;;
  if negb (BackingFile e =? NULL) then IoCloseFile (BackingFile e);; mret tt else mret tt.

(** What is written through AlignedAddress and AlignedSize. *)
Definition VmReservationSpaceFreeRegion (Address Size_ FreeType : Z) : M St (Z * Z) :=
  ASSERT (negb (Address =? NULL));;
  ASSERT ((IsBooleanFlagOn FreeType VMM_FREE_TYPE_RELEASE && (Size_ =? 0))
    || (IsBooleanFlagOn FreeType VMM_FREE_TYPE_DECOMMIT && negb (Size_ =? 0)));;
  ASSERT (xorb (IsBooleanFlagOn FreeType VMM_FREE_TYPE_RELEASE)
    (IsBooleanFlagOn FreeType VMM_FREE_TYPE_DECOMMIT));;
  '(oldState, i) ← zoom vm (
    oldState ← RwSpinlockAcquire fuel lens_ReservationLock true;
    set_VmmMemoryAccess true;;
    '(status, pReservation) ← _VmFindReservation fuel Address 1;
    ASSERT (SUCCEEDED status);;
    i ← from_option_fault pReservation;
    mret (oldState, i));
  if IsBooleanFlagOn FreeType VMM_FREE_TYPE_RELEASE then
    reservationCopy ← zoom vm (
      reservationCopy ← entry i;
      put_entry i VMM_RESERVATION_zero;;
      set_State i VmmReservationStateFree;;
      RwSpinlockRelease lens_ReservationLock oldState true;;
      mret reservationCopy);
    _VmUninitializeReservation reservationCopy;;
    zoom vm (set_VmmMemoryAccess false);;
    mret (StartVa reservationCopy, Size reservationCopy)
  else
    let alignedAddress := AlignAddressLower Address PAGE_SIZE in
    let alignedSize := AlignAddressUpper (u64 (Size_ + (Address - alignedAddress))) PAGE_SIZE in
    zoom vm (
      e ← entry i;
      _VmDecommitReservation alignedAddress alignedSize e;;
      set_VmmMemoryAccess false;;
      RwSpinlockRelease lens_ReservationLock oldState true);;
    mret (alignedAddress, alignedSize).
End FreeRegion.
