(* ===== verification/VmReservationSpec.v ===== *)
(** What vm_reservation_space.c promises: the reservations are a list of disjoint
    regions with a commit bit per page; allocating, releasing, decommitting and
    deciding a page fault are the operations on that list. *)
From S2P Require Import Prelude Memory Bitmap Cpu RwSpinlock VmReservation.

(** * Regions *)
(** [r_buffer] is where the commit bits lie. *)
Record region := mkReg {
  r_start : Z;
  r_commit : list bool;
  r_rights : Z;
  r_unc : bool;
  r_file : Z;
  r_buffer : Z
}.
Definition r_size (r : region) : Z := PAGE_SIZE * Z.of_nat (length (r_commit r)).
Definition r_buffer_end (r : region) : Z := r_buffer r + (Z.of_nat (length (r_commit r)) - 1) / 8 + 1.
Definition r_end (r : region) : Z := r_start r + r_size r.
Record region_ok (r : region) : Prop := {
  ro_start : 0 < r_start r;
  ro_aligned : r_start r mod PAGE_SIZE = 0;
  ro_pages : (0 < length (r_commit r))%nat;
  ro_count : Z.of_nat (length (r_commit r)) ≤ MAX_DWORD;
  ro_end : r_end r < 2 ^ 64
}.
Definition r_contains (r : region) (a n : Z) : bool := (r_start r <=? a) && (a + n <=? r_end r).
Definition with_commit (bits : list bool) (r : region) : region :=
  mkReg (r_start r) bits (r_rights r) (r_unc r) (r_file r) (r_buffer r).
(** A slot of the list is free or holds a region. *)
Abbreviation slots := (list (option region)).
Definition slot_contains (a n : Z) (o : option region) : bool :=
  match o with Some r => r_contains r a n | None => false end.
Fixpoint find_slot (rs : slots) (a n : Z) : option nat :=
  match rs with
  | [] => None
  | o :: rs' => if slot_contains a n o then Some O else S <$> find_slot rs' a n
  end.

(** The slots when [r] takes the first free one, or a new one at the end. *)
Fixpoint add_region (r : region) (rs : slots) : slots :=
  match rs with
  | [] => [Some r]
  | None :: rs' => Some r :: rs'
  | o :: rs' => o :: add_region r rs'
  end.
Fixpoint free_slot (rs : slots) : nat :=
  match rs with Some _ :: rs' => S (free_slot rs') | _ => O end.
Record regions_apart (r1 r2 : region) : Prop := {
  ra_va : r_end r1 ≤ r_start r2 ∨ r_end r2 ≤ r_start r1;
  ra_buffer : r_buffer_end r1 ≤ r_buffer r2 ∨ r_buffer_end r2 ≤ r_buffer r1
}.

(** * Representation *)
Definition entry_rep (b : gmap Z Z) (e : VMM_RESERVATION) (o : option region) : Prop :=
  match o with
  | None => State e = VmmReservationStateFree
  | Some r =>
      State e = VmmReservationStateUsed ∧ StartVa e = r_start r ∧ Size e = r_size r
      ∧ PageRights e = r_rights r ∧ Uncacheable e = r_unc r ∧ BackingFile e = r_file r
      ∧ BufferSize (CommitBitmap e) = (BitCount (CommitBitmap e) + 7) / 8
      ∧ BitmapBuffer (CommitBitmap e) = r_buffer r ∧ bitmap_rep b (CommitBitmap e) (r_commit r)
  end.
(** Where buffers are handed out. *)
Definition buffer_ok (p : VMM_RESERVATION_SPACE) (r : region) : Prop :=
  r_buffer r mod PAGE_SIZE = 0 ∧ BitmapAddressStart p ≤ r_buffer r ∧ r_buffer_end r ≤ FreeBitmapAddress p.

(** The part of the reservation space that does not change between calls. *)
Record space_ok (p : VMM_RESERVATION_SPACE) (b : gmap Z Z) : Prop := {
  sp_list : 0 < ReservationList p;
  sp_start : ReservationList p ≤ BitmapAddressStart p ≤ FreeBitmapAddress p;
  sp_free : FreeBitmapAddress p ≤ ReservationList p + ReservedAreaSize p;
  sp_end : ReservationList p + ReservedAreaSize p < 2 ^ 64;
  sp_aligned : FreeBitmapAddress p mod PAGE_SIZE = 0;
  sp_mapped : mapped b (FreeBitmapAddress p) (ReservationList p + ReservedAreaSize p - FreeBitmapAddress p)
}.
(** The entries are [rs], then the last one, then [spare] entries. *)
Record vm_core (p : VMM_RESERVATION_SPACE) (b : gmap Z Z) (es : list VMM_RESERVATION)
    (rs : slots) (spare : nat) : Prop := {
  vc_space : space_ok p b;
  vc_length : length es = (length rs + S spare)%nat;
  vc_ptr : entry_ptr p (length es) ≤ BitmapAddressStart p;
  vc_last : ∃ e, es !! length rs = Some e ∧ State e = VmmReservationStateLast;
  vc_slot i o : rs !! i = Some o → ∃ e, es !! i = Some e ∧ entry_rep b e o;
  vc_region i r : rs !! i = Some (Some r) → region_ok r ∧ buffer_ok p r;
  vc_apart i j r1 r2 : i ≠ j → rs !! i = Some (Some r1) → rs !! j = Some (Some r2) → regions_apart r1 r2
}.
Definition vm_in (s : VM) (rs : slots) (spare : nat) : Prop :=
  vm_core (vm_space s) (get_bytes s) (vm_entries s) rs spare.
(** Between calls the lock is free. *)
Definition vm_rep (s : VM) (rs : slots) (spare : nat) : Prop :=
  ReservationLock (vm_space s) = RW_zero ∧ vm_in s rs spare.

Lemma r_buffer_end_gt r : region_ok r → r_buffer r < r_buffer_end r.
Proof. intros []. unfold r_buffer_end. pose proof (Z.div_pos (Z.of_nat (length (r_commit r)) - 1) 8). lia. Qed.

Lemma bitmap_rep_frame b b' bm bits :
  bitmap_rep b bm bits →
  (∀ q, BitmapBuffer bm ≤ q ≤ BitmapBuffer bm + (BitCount bm - 1) / 8 → b' !! q = b !! q) →
  bitmap_rep b' bm bits.
Proof.
  intros [H1 H2 H3 H4] Hf. split; try done. intros i v Hi. destruct (H4 i v Hi) as (x & Hx & ?).
  exists x. split; [|done]. rewrite Hf; [done|]. apply lookup_lt_Some in Hi.
  assert (0 ≤ Z.of_nat i / 8) by (apply Z.div_pos; lia).
  assert (Z.of_nat i / 8 ≤ (BitCount bm - 1) / 8) by (apply Z.div_le_mono; lia). lia.
Qed.

Lemma CHECK_BOUNDS_nat a n st sz :
  0 ≤ a → 0 ≤ n → a + n < 2 ^ 64 → 0 ≤ st → 0 ≤ sz → st + sz < 2 ^ 64 →
  CHECK_BOUNDS a n st sz = (st <=? a) && (a + n <=? st + sz).
Proof.
  intros. unfold CHECK_BOUNDS, u64. by rewrite !Z.mod_small by (rewrite ?Z.mod_small; lia).
Qed.

(** * Finding a reservation *)
Section Find.
Variable fuel : nat.
Implicit Types (s : VM).

Lemma entry_run i s e : vm_entries s !! i = Some e → entry i s = Ret (e, s).
Proof. intros Hi. unfold entry. munfold. by rewrite Hi. Qed.
Lemma put_entry_run i s e e' :
  vm_entries s !! i = Some e → put_entry i e' s = Ret (tt, set_entries (<[i := e']> (vm_entries s)) s).
Proof. intros Hi. unfold put_entry. munfold. by rewrite Hi. Qed.
Lemma set_State_run i s e v :
  vm_entries s !! i = Some e →
  set_State i v s = Ret (tt, set_entries (<[i := with_State v e]> (vm_entries s)) s).
Proof. intros Hi. unfold set_State. mrun (entry_run _ _ _ Hi). by apply (put_entry_run _ _ e). Qed.

Lemma find_slot_Some rs a n i :
  find_slot rs a n = Some i → ∃ r, rs !! i = Some (Some r) ∧ r_contains r a n = true.
Proof.
  revert i. induction rs as [|o rs IH]; intros i Hi; simpl in *; [done|].
  destruct (slot_contains a n o) eqn:E.
  - simplify_eq. destruct o as [r|]; [|done]. by exists r.
  - destruct (find_slot rs a n) as [j|]; [|done]. simplify_eq/=. by apply IH.
Qed.
Lemma find_slot_None rs a n i r :
  find_slot rs a n = None → rs !! i = Some (Some r) → r_contains r a n = false.
Proof.
  revert i. induction rs as [|o rs IH]; intros i Hn Hi; simpl in *; [done|].
  destruct (slot_contains a n o) eqn:E; [done|]. destruct (find_slot rs a n) eqn:E2; [done|].
  destruct i as [|i]; simpl in Hi; simplify_eq; [done|]. by eapply IH.
Qed.

(** The scan from slot [i] on. *)
Lemma find_loop f i s rs spare a n :
  vm_in s rs spare → (i <= length rs)%nat →
  0 < a → 0 < n → a + n < 2 ^ 64 → (length rs - i < f)%nat →
  loop f (λ i,
    e ← entry i;
    p ← gets vm_space;
    mret (if negb (VmmReservationStateLast =? State e) && (entry_ptr p i <? BitmapAddressStart p) then
            if VmmReservationStateFree =? State e then inl (S i)
            else if CHECK_BOUNDS a n (StartVa e) (Size e) then inr (Some i)
            else inl (S i)
          else inr None)) i s
  = Ret (Nat.add i <$> find_slot (drop i rs) a n, s).
Proof.
  intros HV Hi Ha Hn Han. revert i Hi. induction f as [|f IH]; intros i Hi Hf; [lia|].
  destruct (rs !! i) as [o|] eqn:Ho.
  - destruct (vc_slot _ _ _ _ _ HV i o Ho) as (e & He & Hr). pose proof (lookup_lt_Some _ _ _ Ho).
    assert (Hp : (entry_ptr (vm_space s) i <? BitmapAddressStart (vm_space s)) = true).
    { apply Z.ltb_lt. pose proof (vc_ptr _ _ _ _ _ HV). pose proof (vc_length _ _ _ _ _ HV).
      unfold entry_ptr, sizeof_VMM_RESERVATION in *. lia. }
    assert (Hnext : loop f (λ i, e ← entry i; p ← gets vm_space;
        mret (if negb (VmmReservationStateLast =? State e) && (entry_ptr p i <? BitmapAddressStart p) then
            if VmmReservationStateFree =? State e then inl (S i)
            else if CHECK_BOUNDS a n (StartVa e) (Size e) then inr (Some i)
            else inl (S i)
          else inr None)) (S i) s = Ret (Nat.add i <$> (S <$> find_slot (drop (S i) rs) a n), s)).
    { rewrite IH by lia. destruct (find_slot _ a n); simpl; [|done]. by rewrite Nat.add_succ_r. }
    rewrite (drop_S _ _ _ Ho). cbn [find_slot]. destruct o as [r|]; cbn [entry_rep slot_contains] in *.
    + destruct Hr as (Hst & Hsv & Hsz & _). destruct (vc_region _ _ _ _ _ HV i r Ho) as [[O1 O2 O3 O4 O5] _].
      assert (Hcb : CHECK_BOUNDS a n (StartVa e) (Size e) = r_contains r a n).
      { rewrite Hsv, Hsz. unfold r_contains, r_end in *. apply CHECK_BOUNDS_nat; unfold r_size, PAGE_SIZE in *; lia. }
      destruct (r_contains r a n) eqn:Ec.
      * erewrite loop_break; [simpl; by rewrite Nat.add_0_r|]. mrun (entry_run _ _ _ He). munfold.
        by rewrite Hst, Hp, Hcb.
      * erewrite loop_continue by (mrun (entry_run _ _ _ He); munfold; by rewrite Hst, Hp, Hcb). exact Hnext.
    + erewrite loop_continue by (mrun (entry_run _ _ _ He); munfold; by rewrite Hr, Hp). exact Hnext.
  - apply lookup_ge_None in Ho. assert (i = length rs) as -> by lia.
    destruct (vc_last _ _ _ _ _ HV) as (e & He & Hl). rewrite drop_all.
    apply loop_break. mrun (entry_run _ _ _ He). munfold. by rewrite Hl.
Qed.

Lemma _VmFindReservation_run s rs spare a n :
  vm_in s rs spare → 0 < a → 0 < n → a + n < 2 ^ 64 → (length rs < fuel)%nat →
  _VmFindReservation fuel a n s = Ret (match find_slot rs a n with
    | Some i => (STATUS_SUCCESS, Some i) | None => (STATUS_ELEMENT_NOT_FOUND, None) end, s).
Proof.
  intros HV Ha Hn Han Hf.
  unfold _VmFindReservation. massert ltac:(apply negb_true_iff, Z.eqb_neq; unfold NULL; lia).
  massert ltac:(apply negb_true_iff, Z.eqb_neq; lia).
  rewrite (bind_Ret _ _ _ _ _ (find_loop fuel 0 s rs spare a n HV ltac:(lia) Ha Hn Han ltac:(lia))).
  rewrite drop_0. by destruct (find_slot rs a n).
Qed.
End Find.

(** * One entry changes *)
Record same_area (p p' : VMM_RESERVATION_SPACE) : Prop := {
  sa_list : ReservationList p' = ReservationList p;
  sa_start : BitmapAddressStart p' = BitmapAddressStart p;
  sa_free : FreeBitmapAddress p ≤ FreeBitmapAddress p'
}.
Lemma same_area_refl p : same_area p p.
Proof. done. Qed.

Lemma vm_core_update p b es rs spare p' b' i e o :
  vm_core p b es rs spare → (i < length rs)%nat → space_ok p' b' → same_area p p' →
  entry_rep b' e o →
  (∀ r, o = Some r → region_ok r ∧ buffer_ok p' r
    ∧ ∀ j r', j ≠ i → rs !! j = Some (Some r') → regions_apart r r') →
  (∀ j r', j ≠ i → rs !! j = Some (Some r') →
    ∀ q, r_buffer r' ≤ q < r_buffer_end r' → b' !! q = b !! q) →
  vm_core p' b' (<[i := e]> es) (<[i := o]> rs) spare.
Proof.
  intros [V1 V2 V3 (el & Hel & Hl) V5 V6 V7] Hi Hsp [A1 A2 A3] He Ho Hfr. split.
  - done.
  - by rewrite !length_insert.
  - rewrite length_insert, A2. unfold entry_ptr in *. by rewrite A1.
  - exists el. rewrite length_insert. by rewrite list_lookup_insert_ne by lia.
  - intros j o' Hj. destruct (decide (i = j)) as [<-|Hne].
    + rewrite list_lookup_insert_eq in Hj by done. simplify_eq. exists e. split; [|done].
      apply list_lookup_insert_eq. lia.
    + rewrite list_lookup_insert_ne in Hj by done. destruct (V5 j o' Hj) as (e' & He' & Hr).
      exists e'. rewrite list_lookup_insert_ne by done. split; [done|].
      destruct o' as [r'|]; [|done]. destruct Hr as (?&?&?&?&?&?&?&Hb&Hr). split_and!; try done.
      apply (bitmap_rep_frame b); [done|]. intros q Hq. apply (Hfr j r'); [done..|].
      rewrite Hb, (rep_count _ _ _ Hr) in Hq. unfold r_buffer_end. lia.
  - intros j r Hj. destruct (decide (i = j)) as [<-|Hne].
    + rewrite list_lookup_insert_eq in Hj by done. simplify_eq. by destruct (Ho r eq_refl) as (?&?&_).
    + rewrite list_lookup_insert_ne in Hj by done. destruct (V6 j r Hj) as [? (?&?&?)].
      split; [done|]. unfold buffer_ok. rewrite A2. split_and!; [done..|lia].
  - assert (Hsym : ∀ r1 r2, regions_apart r1 r2 → regions_apart r2 r1) by (intros ? ? []; split; tauto).
    intros j k r1 r2 Hjk Hj Hk. destruct (decide (i = j)) as [<-|Hj']; destruct (decide (i = k)) as [<-|Hk']; try done;
      rewrite ?list_lookup_insert_eq in Hj by done; rewrite ?list_lookup_insert_eq in Hk by done;
      rewrite ?list_lookup_insert_ne in Hj by done; rewrite ?list_lookup_insert_ne in Hk by done; simplify_eq.
    + destruct (Ho r1 eq_refl) as (_ & _ & Ha). by eapply (Ha k).
    + apply Hsym. destruct (Ho r2 eq_refl) as (_ & _ & Ha). by eapply (Ha j).
    + by eapply (V7 j k).
Qed.

(** The locks, the flags and the next address do not matter. *)
Lemma vm_core_same p p' b es rs spare :
  vm_core p b es rs spare → ReservationList p' = ReservationList p →
  BitmapAddressStart p' = BitmapAddressStart p → FreeBitmapAddress p' = FreeBitmapAddress p →
  ReservedAreaSize p' = ReservedAreaSize p → vm_core p' b es rs spare.
Proof.
  intros [[S1 S2 S3 S4 S5 S6] V2 V3 V4 V5 V6 V7] H1 H2 H3 H4. split; try done.
  - split; rewrite ?H1, ?H2, ?H3, ?H4; done.
  - unfold entry_ptr in *. by rewrite H1, H2.
  - intros i r Hi. destruct (V6 i r Hi) as [? (?&?&?)]. split; [done|]. unfold buffer_ok. by rewrite H2, H3.
Qed.

(** * The pages of a region *)
Lemma page_index_va d : 0 ≤ d < 2 ^ 63 → u64 (Z.quot (s64 d) PAGE_SIZE) = d / PAGE_SIZE.
Proof.
  intros Hd. unfold s64, u64. rewrite (Z.mod_small d) by lia.
  rewrite (proj2 (Z.ltb_lt _ _)) by lia. unfold PAGE_SIZE. rewrite Z.quot_div_nonneg by lia.
  apply Z.mod_small. split; [apply Z.div_pos; lia|]. apply Z.div_lt_upper_bound; lia.
Qed.
Definition page_of (r : region) (a : Z) : nat := Z.to_nat ((a - r_start r) / PAGE_SIZE).
Definition r_committed (r : region) (a : Z) : bool := default false (r_commit r !! page_of r a).

Lemma page_of_spec r a :
  region_ok r → r_contains r a 1 = true →
  (page_of r a < length (r_commit r))%nat ∧ 0 ≤ a - r_start r < 2 ^ 63
  ∧ Z.of_nat (page_of r a) = (a - r_start r) / PAGE_SIZE.
Proof.
  intros [O1 O2 O3 O4 O5] Hc. unfold r_contains, r_end, r_size in *.
  apply andb_true_iff in Hc as [Hc1%Z.leb_le Hc2%Z.leb_le].
  assert (0 ≤ (a - r_start r) / PAGE_SIZE < Z.of_nat (length (r_commit r)));
    [|unfold page_of, MAX_DWORD, PAGE_SIZE in *; lia].
  unfold PAGE_SIZE in *. split; [apply Z.div_pos; lia|]. apply Z.div_lt_upper_bound; lia.
Qed.

Section Pages.
Implicit Types (s : VM) (r : region).

Lemma _VmIsVaCommited_run s e r a :
  entry_rep (get_bytes s) e (Some r) → region_ok r → r_contains r a 1 = true →
  _VmIsVaCommited e a s = Ret (r_committed r a, s).
Proof.
  intros (_ & Hsv & _ & _ & _ & _ & _ & Hb & Hrep) Hok Hc.
  destruct (page_of_spec r a Hok Hc) as (Hp & Hd & Hpz). destruct Hok as [O1 _ _ O4 _].
  unfold _VmIsVaCommited. massert ltac:(apply negb_true_iff, Z.eqb_neq; unfold NULL; lia).
  cbn zeta. unfold PtrDiff. rewrite Hsv, page_index_va, <-Hpz by done.
  massert ltac:(apply Z.leb_le; unfold MAX_DWORD in *; lia).
  unfold u32. rewrite Z.mod_small by (unfold MAX_DWORD in *; lia).
  unfold BitmapGetBitValue. massert ltac:(by apply bool_decide_eq_true). mderef.
  massert ltac:(apply Z.ltb_lt; rewrite (rep_count _ _ _ Hrep); lia).
  apply _BitmapGetBit_run; [apply (rep_buffer _ _ _ Hrep)|].
  apply (rep_bits _ _ _ Hrep). unfold r_committed.
  destruct (lookup_lt_is_Some_2 _ _ Hp) as [v Hv]. by rewrite Hv.
Qed.
End Pages.

(** * Deciding a page fault *)
Definition region_at (rs : slots) (a : Z) : option region :=
  i ← find_slot rs a 1; mjoin (rs !! i).
(** Rights, cacheability, file and file offset of the page of [a], when the access is
    allowed: the address is committed and the rights are among those of its region. *)
Definition page_access (rs : slots) (a rights : Z) : option (Z * bool * Z * Z) :=
  r ← region_at rs a;
  if r_committed r a && IsBooleanFlagOn (r_rights r) rights then
    Some (r_rights r, r_unc r, r_file r,
      if r_file r =? NULL then 0 else PAGE_SIZE * Z.of_nat (page_of r a))
  else None.
(** The metadata may only be touched by the reservation code itself, and not executed. *)
Definition metadata_access (access : option bool) (rights : Z) : option (Z * bool * Z * Z) :=
  if default true access && negb (IsBooleanFlagOn rights PAGE_RIGHTS_EXECUTE)
  then Some (PAGE_RIGHTS_READWRITE, false, NULL, 0) else None.
Definition in_metadata (p : VMM_RESERVATION_SPACE) (a : Z) : bool :=
  (ReservationList p <=? a) && (a + 1 <=? ReservationList p + ReservedAreaSize p).
Definition fault_decision (s : VM) (rs : slots) (a rights : Z) : option (Z * bool * Z * Z) :=
  if a =? NULL then None
  else if in_metadata (vm_space s) a then metadata_access (vm_access s) rights
  else page_access rs a rights.

Lemma region_at_Some rs a i r :
  find_slot rs a 1 = Some i → rs !! i = Some (Some r) → region_at rs a = Some r.
Proof. intros Hf Hi. unfold region_at. rewrite Hf. cbn. by rewrite Hi. Qed.

Section Fault.
Variable fuel : nat.
Implicit Types (s : VM).

Lemma vm_in_lock s k f rs spare :
  vm_in s rs spare → vm_in (lset lens_ReservationLock k (set_rflags f s)) rs spare.
Proof. intros HV. by eapply vm_core_same. Qed.

Lemma file_offset r a :
  region_ok r → r_contains r a 1 = true →
  AlignAddressLower (PtrDiff a (r_start r)) PAGE_SIZE = PAGE_SIZE * Z.of_nat (page_of r a).
Proof.
  intros Hok Hc. destruct (page_of_spec r a Hok Hc) as (_ & Hd & ->). unfold PtrDiff, s64, u64.
  rewrite (Z.mod_small (a - _)) by lia. rewrite (proj2 (Z.ltb_lt _ _)) by lia.
  change PAGE_SIZE with (2 ^ 12). apply AlignAddressLower_pow2; lia.
Qed.

(** What the code does between the acquisition and the release. *)
Lemma fault_lookup_run {B} (k : option (Z * bool * Z * Z) → M VM B) s rs spare a rights :
  vm_in s rs spare → 0 < a → a + 1 < 2 ^ 64 → (length rs < fuel)%nat →
  ('(status, pReservation) ← _VmFindReservation fuel a 1;
   r ← (if negb (SUCCEEDED status) then mret None else
      i ← from_option_fault pReservation;
      e ← entry i;
      bIsVaCommited ← _VmIsVaCommited e a;
      let fileOffset := if negb (BackingFile e =? NULL)
        then AlignAddressLower (PtrDiff a (StartVa e)) PAGE_SIZE else 0 in
      mret (if bIsVaCommited && IsBooleanFlagOn (PageRights e) rights
            then Some (PageRights e, Uncacheable e, BackingFile e, fileOffset) else None));
   k r) s
  = k (page_access rs a rights) s.
Proof.
  intros HV Ha Ha2 Hf. mrun (_VmFindReservation_run fuel s rs spare a 1 HV Ha ltac:(lia) Ha2 Hf).
  destruct (find_slot rs a 1) as [i|] eqn:Ef.
  - change (negb (SUCCEEDED STATUS_SUCCESS)) with false. cbn beta iota.
    rewrite bind_assoc. mderef. rewrite bind_assoc.
    destruct (find_slot_Some rs a 1 i Ef) as (r & Hi & Hc).
    destruct (vc_slot _ _ _ _ _ HV i _ Hi) as (e & He & Hr). mrun (entry_run _ _ _ He).
    destruct (vc_region _ _ _ _ _ HV i r Hi) as [Hok _].
    rewrite bind_assoc. mrun (_VmIsVaCommited_run s e r a Hr Hok Hc).
    unfold page_access. rewrite (region_at_Some rs a i r Ef Hi). cbn [mbind option_bind].
    destruct Hr as (_ & Hs & _ & -> & -> & -> & _). rewrite Hs, file_offset by done.
    munfold. by destruct (r_file r =? NULL).
  - change (negb (SUCCEEDED STATUS_ELEMENT_NOT_FOUND)) with true. cbn beta iota.
    unfold page_access, region_at. by rewrite Ef.
Qed.

Lemma VmReservationCanAddressBeAccessed_run s rs spare a rights (d := fault_decision s rs a rights) :
  vm_rep s rs spare → intr_of (get_rflags s) = INTR_OFF → (length rs < fuel)%nat →
  0 ≤ a → a + 1 < 2 ^ 64 →
  ∃ f, VmReservationCanAddressBeAccessed fuel a rights s
      = Ret ((bool_decide (is_Some d), d), set_rflags f s)
    ∧ intr_of f = INTR_OFF.
Proof.
  intros [Hl HV] Hi Hf Ha Ha2. unfold VmReservationCanAddressBeAccessed.
  erewrite bind_Ret by done. cbn beta iota. massert ltac:(by rewrite Hi).
  assert (Hself : s = set_rflags (get_rflags s) s) by (by destruct s).
  subst d. unfold fault_decision. rewrite (Z.eqb_sym a).
  destruct (Z.eqb_spec NULL a) as [_|Hn]; [exists (get_rflags s); by rewrite <-Hself|]. unfold NULL in Hn.
  mrun (gets_run vm_space s). destruct (vc_space _ _ _ _ _ HV) as [S1 S2 S3 S4 _ _].
  rewrite CHECK_BOUNDS_nat by lia. fold (in_metadata (vm_space s) a). destruct (in_metadata _ a).
  - exists (get_rflags s). rewrite <-Hself. unfold metadata_access. munfold.
    destruct (default true (vm_access s)); [|done].
    by destruct (IsBooleanFlagOn rights PAGE_RIGHTS_EXECUTE).
  - mrun (rw_acquire_free fuel ltac:(lia) lens_ReservationLock s false Hl).
    set (s1 := lset _ _ _).
    rewrite (fault_lookup_run _ s1 rs spare a rights (vm_in_lock _ _ _ _ _ HV) ltac:(lia) Ha2 Hf).
    mrun (rw_release_held lens_ReservationLock s1 false INTR_OFF eq_refl).
    exists (intr_flags INTR_OFF (get_rflags s1)). split; [|apply intr_of_flags].
    unfold mret, M_ret. do 2 f_equal. subst s1. destruct s as [[]]. simpl in *. by rewrite Hl.
Qed.

(** C7: VmReservationCanAddressBeAccessed, called with interrupts off, allows an access exactly
    when the abstract regions do: the address is not NULL and lies either in the metadata, while
    the reservation code of this CPU touches it or there is no CPU structure yet, and the access
    is not an execution; or, outside of the metadata, on a committed page of a region whose
    rights include the requested ones. It reports the rights, cacheability, file and page offset
    of that region (read and write, cacheable and no file for the metadata), and changes no
    reservation. The metadata and the regions may lie anywhere below 2^64, as those of the kernel
    in the upper half; the last byte below 2^64 is not asked about. *)
Theorem VmReservationCanAddressBeAccessed_decides s rs spare a rights (d := fault_decision s rs a rights) :
  vm_rep s rs spare → intr_of (get_rflags s) = INTR_OFF → (length rs < fuel)%nat →
  0 ≤ a → a + 1 < 2 ^ 64 →
  ∃ s', VmReservationCanAddressBeAccessed fuel a rights s = Ret ((bool_decide (is_Some d), d), s')
    ∧ vm_rep s' rs spare ∧ intr_of (get_rflags s') = INTR_OFF ∧ vm_space s' = vm_space s
    ∧ vm_entries s' = vm_entries s ∧ vm_bytes s' = vm_bytes s.
Proof.
  intros Hrep Hi Hf Ha Ha2.
  destruct (VmReservationCanAddressBeAccessed_run s rs spare a rights Hrep Hi Hf Ha Ha2) as (f & Hrun & Hoff).
  exists (set_rflags f s). destruct Hrep as [Hl HV]. split; [exact Hrun|]. split; [split; [exact Hl|]|].
  - by eapply vm_core_same.
  - by split_and!.
Qed.
End Fault.

(** * Reserving *)
Lemma free_slot_before rs j : (j < free_slot rs)%nat → ∃ r, rs !! j = Some (Some r).
Proof.
  revert j. induction rs as [|[r|] rs IH]; intros [|j] Hj; simpl in *; try lia; [by exists r|].
  apply IH. lia.
Qed.
Lemma free_slot_at rs : rs !! free_slot rs = if decide (free_slot rs < length rs)%nat then Some None else None.
Proof.
  induction rs as [|[r|] rs IH]; simpl; [done| |done]. rewrite IH.
  destruct (decide _), (decide _); done || lia.
Qed.
Lemma free_slot_le rs : (free_slot rs <= length rs)%nat.
Proof. induction rs as [|[r|] rs IH]; simpl; lia. Qed.
(** The slots once the free one is there. *)
Definition open_slot (rs : slots) : slots :=
  if decide (free_slot rs < length rs)%nat then rs else rs ++ [None].
Lemma open_slot_add rs r : <[free_slot rs := Some r]> (open_slot rs) = add_region r rs.
Proof.
  unfold open_slot. induction rs as [|[r'|] rs IH]; simpl; [done| |done].
  destruct (decide (free_slot rs < length rs)%nat); simpl; destruct (decide _); try lia; simpl; by rewrite IH.
Qed.
Lemma open_slot_free rs : (free_slot rs < length (open_slot rs))%nat ∧ open_slot rs !! free_slot rs = Some None.
Proof.
  unfold open_slot. destruct (decide _) as [Hlt|Hge].
  - split; [done|]. by rewrite free_slot_at, decide_True.
  - pose proof (free_slot_le rs). rewrite length_app. simpl. split; [lia|].
    rewrite lookup_app_r by lia. by replace (free_slot rs - length rs)%nat with O by lia.
Qed.
Lemma open_slot_region rs i r : open_slot rs !! i = Some (Some r) ↔ rs !! i = Some (Some r).
Proof.
  unfold open_slot. destruct (decide _) as [|]; [done|]. rewrite lookup_app_Some. split; [|by left].
  intros [|[Hi He]]; [done|]. destruct (i - length rs)%nat as [|[|]]; done.
Qed.
(** Reserving takes one of the [room rs spare] entries that are left. *)
Fixpoint free_slots (rs : slots) : nat :=
  match rs with [] => O | None :: rs' => S (free_slots rs') | Some _ :: rs' => free_slots rs' end.
Definition room (rs : slots) (spare : nat) : nat := (free_slots rs + spare)%nat.
Lemma free_slots_none rs : free_slot rs = length rs → free_slots rs = O.
Proof. induction rs as [|[r|] rs IH]; simpl; intros; [done|apply IH; lia|done]. Qed.
Lemma room_add rs spare r :
  (0 < room rs spare)%nat →
  S (room (add_region r rs) (length rs + spare - length (open_slot rs))) = room rs spare.
Proof.
  unfold room, open_slot. intros Hr. destruct (decide _) as [Hlt|Hge].
  - replace (length rs + spare - length rs)%nat with spare by lia. clear Hr.
    assert (Hc : free_slots rs = S (free_slots (add_region r rs))); [|lia].
    induction rs as [|[r'|] rs IH]; simpl in *; [lia|apply IH; lia|done].
  - pose proof (free_slot_le rs). rewrite length_app. simpl.
    rewrite (free_slots_none rs) in * by lia.
    assert (Hc : free_slots (add_region r rs) = O); [|lia].
    clear Hr. induction rs as [|[r'|] rs IH]; simpl in *; [done|apply IH; lia|lia].
Qed.

Lemma room_release rs spare i r :
  rs !! i = Some (Some r) → room (<[i := None]> rs) spare = S (room rs spare).
Proof.
  unfold room. revert i. induction rs as [|[r'|] rs IH]; intros [|i] Hi; simpl in *; try done; by rewrite (IH i Hi).
Qed.

Section Reserve.
Variable fuel : nat.
Implicit Types (s : VM).

Lemma open_last p b es rs spare e1 e2 :
  vm_core p b es rs (S spare) → es !! length rs = Some e1 → es !! S (length rs) = Some e2 →
  vm_core p b (<[S (length rs) := with_State VmmReservationStateLast e2]>
    (<[length rs := with_State VmmReservationStateFree e1]> es)) (rs ++ [None]) spare.
Proof.
  intros [V1 V2 V3 V4 V5 V6 V7] H1 H2.
  assert (Hin : ∀ i r, (rs ++ [None]) !! i = Some (Some r) → rs !! i = Some (Some r)).
  { intros i r [Hi|[_ Hi]]%lookup_app_Some; [done|]. by destruct (i - length rs)%nat as [|[|]]. }
  split.
  - done.
  - rewrite !length_insert, length_app. simpl. lia.
  - by rewrite !length_insert.
  - eexists. rewrite length_app, Nat.add_1_r. rewrite list_lookup_insert_eq; [done|].
    rewrite length_insert. simpl in *. lia.
  - intros i o Hi. destruct (decide (i = length rs)) as [->|Hne].
    + rewrite list_lookup_middle in Hi by done. simplify_eq.
      eexists. rewrite list_lookup_insert_ne by lia. rewrite list_lookup_insert_eq by lia. done.
    + assert (Hi' : rs !! i = Some o).
      { apply lookup_app_Some in Hi as [Hi|[Hge Hi]]; [done|].
        destruct (i - length rs)%nat as [|[|]] eqn:E; [lia|done|done]. }
      pose proof (lookup_lt_Some _ _ _ Hi'). rewrite !list_lookup_insert_ne by lia. by apply V5.
  - intros i r Hi. by apply (V6 i r), Hin.
  - intros i j r1 r2 Hij Hi Hj. by apply (V7 i j r1 r2 Hij); apply Hin.
Qed.

Lemma free_loop f i s rs spare :
  vm_in s rs spare → (i <= free_slot rs)%nat → (0 < room rs spare)%nat → (free_slot rs - i < f)%nat →
  ∃ es', loop f (λ i,
    p ← gets vm_space;
    if entry_ptr p i <? BitmapAddressStart p then
      e ← entry i;
      if VmmReservationStateFree =? State e then mret (inr (Some i)) else
      if VmmReservationStateLast =? State e then
        set_State i VmmReservationStateFree;;
        set_State (S i) VmmReservationStateLast;;
        mret (inr (Some i))
      else mret (inl (S i))
    else mret (inr None)) i s = Ret (Some (free_slot rs), set_entries es' s)
  ∧ vm_in (set_entries es' s) (open_slot rs) (length rs + spare - length (open_slot rs)).
Proof.
  intros HV Hi Hroom. revert i Hi. induction f as [|f IH]; intros i Hi Hf; [lia|].
  pose proof (vc_length _ _ _ _ _ HV) as Hlen. pose proof (free_slot_le rs) as Hfl.
  assert (Hp : (entry_ptr (vm_space s) i <? BitmapAddressStart (vm_space s)) = true).
  { apply Z.ltb_lt. pose proof (vc_ptr _ _ _ _ _ HV). unfold entry_ptr, sizeof_VMM_RESERVATION in *. lia. }
  destruct (decide (i = free_slot rs)) as [->|Hne].
  - pose proof (free_slot_at rs) as Hat. unfold open_slot. destruct (decide _) as [Hlt|Hge].
    + destruct (vc_slot _ _ _ _ _ HV _ _ Hat) as (e & He & Hr). simpl in Hr.
      exists (vm_entries s). replace (set_entries (vm_entries s) s) with s by (by destruct s).
      split; [|by replace (length rs + spare - length rs)%nat with spare by lia].
      apply loop_break. mrun (gets_run vm_space s). rewrite Hp. mrun (entry_run _ _ _ He).
      by rewrite Hr.
    + assert (Hfs : free_slot rs = length rs) by lia. rewrite Hfs in *.
      destruct (vc_last _ _ _ _ _ HV) as (e & He & Hl). unfold room in Hroom. rewrite (free_slots_none rs Hfs) in Hroom.
      destruct spare as [|spare]; [lia|].
      destruct (lookup_lt_is_Some_2 (vm_entries s) (S (length rs))) as [e2 He2]; [lia|].
      eexists. split; cycle 1.
      { rewrite length_app. simpl. replace (length rs + S spare - (length rs + 1))%nat with spare by lia.
        exact (open_last _ _ _ _ _ e e2 HV He He2). }
      apply loop_break. mrun (gets_run vm_space s). rewrite Hp. mrun (entry_run _ _ _ He). rewrite Hl.
      change (VmmReservationStateFree =? VmmReservationStateLast) with false.
      change (VmmReservationStateLast =? VmmReservationStateLast) with true. cbn iota.
      mrun (set_State_run _ _ _ VmmReservationStateFree He).
      erewrite bind_Ret; [reflexivity|]. erewrite set_State_run; [reflexivity|]. cbn [vm_entries set_entries].
      rewrite list_lookup_insert_ne by lia. exact He2.
  - destruct (free_slot_before rs i ltac:(lia)) as [r Hr].
    destruct (vc_slot _ _ _ _ _ HV _ _ Hr) as (e & He & Hre). destruct Hre as [Hst _].
    destruct (IH (S i) ltac:(lia) ltac:(lia)) as (es' & Hrun & HV').
    exists es'. split; [|done]. erewrite loop_continue; [exact Hrun|].
    mrun (gets_run vm_space s). rewrite Hp. mrun (entry_run _ _ _ He). by rewrite Hst.
Qed.

Lemma _VmFindFirstFreeReservation_run s rs spare :
  vm_in s rs spare → (0 < room rs spare)%nat → (length rs < fuel)%nat →
  ∃ es', _VmFindFirstFreeReservation fuel s = Ret (Some (free_slot rs), set_entries es' s)
  ∧ vm_in (set_entries es' s) (open_slot rs) (length rs + spare - length (open_slot rs)).
Proof.
  intros HV Hroom Hf. pose proof (free_slot_le rs). apply (free_loop fuel 0 s rs spare HV); lia || done.
Qed.
End Reserve.

Definition buffer_pages (n : Z) : Z := PAGE_SIZE * (((n + 7) / 8 + PAGE_SIZE - 1) / PAGE_SIZE).
Lemma buffer_pages_bound n : 0 < n → (n + 7) / 8 ≤ buffer_pages n.
Proof.
  intros. unfold buffer_pages, PAGE_SIZE.
  pose proof (Z.mul_succ_div_gt ((n + 7) / 8 + 4096 - 1) 4096). lia.
Qed.
Lemma buffer_pages_aligned n : buffer_pages n mod PAGE_SIZE = 0.
Proof. unfold buffer_pages. rewrite Z.mul_comm. by apply Z.mod_mul. Qed.
Lemma bits_bytes n : (n - 1) / 8 + 1 = (n + 7) / 8.
Proof. replace (n + 7) with (n - 1 + 1 * 8) by lia. by rewrite Z.div_add. Qed.
Lemma va_page_aligned a : 0 ≤ a < 2 ^ 64 → a mod PAGE_SIZE = 0 → IsAddressAligned a PAGE_SIZE = true.
Proof. intros Ha Hm. change PAGE_SIZE with (2 ^ 12) in *. rewrite IsAddressAligned_pow2 by lia. by apply Z.eqb_eq. Qed.
Lemma AlignAddressUpper_page x :
  0 ≤ x → x + PAGE_SIZE ≤ 2 ^ 64 → AlignAddressUpper x PAGE_SIZE = PAGE_SIZE * ((x + PAGE_SIZE - 1) / PAGE_SIZE).
Proof. intros. by apply (AlignAddressUpper_pow2 12). Qed.
Lemma page_mul_aligned n : 0 ≤ n → PAGE_SIZE * n < 2 ^ 64 → IsAddressAligned (PAGE_SIZE * n) PAGE_SIZE = true.
Proof. intros. apply va_page_aligned; [unfold PAGE_SIZE in *; lia|]. rewrite Z.mul_comm. by apply Z.mod_mul. Qed.
Lemma page_mul_div n : PAGE_SIZE * n / PAGE_SIZE = n.
Proof. rewrite Z.mul_comm. by apply Z.div_mul. Qed.

(** The checks on an address and a size of [n] pages. *)
Record range_ok (a : Z) (n : nat) : Prop := {
  rg_addr : 0 < a;
  rg_aligned : a mod PAGE_SIZE = 0;
  rg_pages : 0 < Z.of_nat n ≤ MAX_DWORD;
  rg_end : a + PAGE_SIZE * Z.of_nat n < 2 ^ 64
}.
Ltac range_asserts :=
  massert ltac:(apply negb_true_iff, Z.eqb_neq; unfold NULL; lia);
  massert ltac:(apply negb_true_iff, Z.eqb_neq; unfold PAGE_SIZE in *; lia);
  massert ltac:(apply va_page_aligned; [unfold PAGE_SIZE in *; lia|done]);
  massert ltac:(apply page_mul_aligned; unfold PAGE_SIZE in *; lia);
  cbn zeta; rewrite page_mul_div.

Section Init.
Implicit Types (s : VM).

Definition new_region (p : VMM_RESERVATION_SPACE) (a : Z) (n : nat) (rights : Z) (unc : bool) (file : Z)
    : region := mkReg a (replicate n false) rights unc file (FreeBitmapAddress p).
Lemma new_region_ok p a n rights unc file :
  range_ok a n → region_ok (new_region p a n rights unc file).
Proof.
  intros [H1 H2 H3 H4]. unfold new_region. split; cbn; unfold r_end, r_size; cbn; rewrite ?length_replicate; try done; lia.
Qed.
Definition va_free (rs : slots) (a e : Z) : Prop :=
  ∀ i r, rs !! i = Some (Some r) → e ≤ r_start r ∨ r_end r ≤ a.

Lemma _VmInitializeReservation_run s rs spare i a n rights unc file (p := vm_space s)
    (r := new_region p a n rights unc file) (f := FreeBitmapAddress p + buffer_pages (Z.of_nat n)) :
  vm_in s rs spare → rs !! i = Some None → range_ok a n → va_free rs a (r_end r) →
  f ≤ ReservationList p + ReservedAreaSize p →
  ∃ es' b', let s' := set_space (with_free_bitmap f) (set_entries es' (set_bytes b' s)) in
    _VmInitializeReservation a (PAGE_SIZE * Z.of_nat n) rights unc file i s = Ret (tt, s')
    ∧ vm_in s' (<[i := Some r]> rs) spare.
Proof.
  intros HV Hi Hrg Hva Hfree. pose proof (new_region_ok p a n rights unc file Hrg) as Hrok.
  destruct Hrg as [R1 R2 R3 R4]. pose proof (vc_space _ _ _ _ _ HV) as [S1 S2 S3 S4 S5 S6].
  fold p in S1, S2, S3, S4, S5, S6.
  pose proof (buffer_pages_bound (Z.of_nat n) ltac:(lia)) as Hbp.
  pose proof (Z.div_pos (Z.of_nat n + 7) 8 ltac:(lia) ltac:(lia)) as Hpos.
  pose proof (Z.div_le_upper_bound (Z.of_nat n + 7) 8 (Z.of_nat n + 7) ltac:(lia) ltac:(lia)) as Hle.
  destruct (vc_slot _ _ _ _ _ HV _ _ Hi) as (e0 & He0 & _).
  set (e1 := mkRes a (PAGE_SIZE * Z.of_nat n) rights VmmReservationStateUsed unc file (CommitBitmap e0)).
  set (s1 := set_entries (<[i := e1]> (vm_entries s)) s).
  destruct (BitmapInitEx_run s1 (Z.of_nat n) (FreeBitmapAddress p) false) as (b' & Hb & Hrep & Hfr); [lia|unfold NULL; lia| |].
  { apply (mapped_sub _ _ _ _ _ S6); unfold f in Hfree; lia. }
  set (bm := mkBITMAP _ _ (FreeBitmapAddress p)) in *.
  exists (<[i := with_bitmap bm e1]> (vm_entries s)), b'. split.
  - unfold _VmInitializeReservation. range_asserts.
    mrun (entry_run _ _ _ He0). mrun (put_entry_run i s e0 e1 He0). fold s1.
    massert ltac:(apply Z.leb_le; lia). unfold u32. rewrite Z.mod_small by (unfold MAX_DWORD in *; lia).
    mrun (BitmapPreinit_run s1 (Z.of_nat n) ltac:(lia)).
    pose proof (bits_bytes (Z.of_nat n)). pose proof (Z.div_pos (Z.of_nat n - 1) 8).
    massert ltac:(apply negb_true_iff, Z.eqb_neq; lia).
    mrun (gets_run vm_space s1). change (vm_space s1) with p.
    massert ltac:(apply va_page_aligned; [lia|done]).
    mrun Hb. set (s2 := set_bytes b' s1).
    assert (He1 : vm_entries s2 !! i = Some e1).
    { apply list_lookup_insert_eq. by eapply lookup_lt_Some. }
    mrun (entry_run i s2 e1 He1). mrun (put_entry_run i s2 e1 (with_bitmap bm e1) He1).
    rewrite AlignAddressUpper_page by (unfold PAGE_SIZE, MAX_DWORD in *; lia).
    fold (buffer_pages (Z.of_nat n)).
    massert ltac:(rewrite CHECK_BOUNDS_nat by (unfold MAX_DWORD in *; lia); apply andb_true_iff; split; apply Z.leb_le; lia).
    unfold modify, set_space, s2, s1, set_entries. cbn [vm_entries vm_bytes vm_rflags vm_apic vm_access vm_space set_bytes VM_HasBytes].
    rewrite list_insert_insert_eq. fold p. do 3 f_equal. unfold with_free_bitmap. f_equal.
    unfold f, u64. apply Z.mod_small. lia.
  - assert (Hend : r_buffer_end r = FreeBitmapAddress p + (Z.of_nat n + 7) / 8).
    { unfold r_buffer_end. cbn. rewrite length_replicate, <-bits_bytes. lia. }
    apply (vm_core_update p (get_bytes s)); [done|by eapply lookup_lt_Some| | | | |].
    + split; cbn; fold p; [lia|unfold f in *; lia|lia|lia| |].
      * unfold f. rewrite <-Z.add_mod_idemp_l, S5 by done. apply buffer_pages_aligned.
      * intros q Hq. rewrite Hfr by (unfold f in *; lia). apply (S6 q). unfold f in *. lia.
    + split; cbn; fold p; unfold f; lia.
    + cbn. unfold r_size. cbn [r_commit r new_region]. rewrite length_replicate.
      rewrite Nat2Z.id in Hrep. done.
    + intros r' [= <-]. split; [done|]. split.
      { split_and!; [done|cbn; fold p; lia|rewrite Hend; cbn; unfold f; lia]. }
      intros j r' Hj Hr'. destruct (vc_region _ _ _ _ _ HV _ _ Hr') as [_ (_ & _ & Hbuf)].
      split; [by apply (Hva j)|]. right. done.
    + intros j r' Hj Hr' q Hq. destruct (vc_region _ _ _ _ _ HV _ _ Hr') as [_ (_ & _ & Hbuf)].
      apply Hfr. fold p in Hbuf. lia.
Qed.
End Init.

(** * Committing and decommitting *)
Section Commit.
Implicit Types (s : VM) (r : region).

(** [n] pages from [a] lie in [r]. *)
Record range_in (r : region) (a : Z) (n : nat) : Prop := {
  ri_ok : range_ok a n;
  ri_contains : r_contains r a (PAGE_SIZE * Z.of_nat n) = true
}.
Definition commit_range (r : region) (a : Z) (n : nat) (v : bool) : region :=
  with_commit (set_range (r_commit r) (page_of r a) n v) r.

Lemma range_in_pages r a n :
  region_ok r → range_in r a n →
  (page_of r a < length (r_commit r))%nat ∧ (page_of r a + n <= length (r_commit r))%nat
  ∧ 0 ≤ a - r_start r < 2 ^ 63 ∧ Z.of_nat (page_of r a) = (a - r_start r) / PAGE_SIZE.
Proof.
  intros Hok [[G1 G2 G3 G4] Hc]. assert (Hc1 : r_contains r a 1 = true).
  { unfold r_contains in *. apply andb_true_iff in Hc as [Hc1 Hc2%Z.leb_le].
    apply andb_true_iff. split; [done|]. apply Z.leb_le. unfold PAGE_SIZE in *. lia. }
  destruct (page_of_spec r a Hok Hc1) as (Hp & Hd & Hpz). split_and!; [done| |lia|lia|done].
  destruct Hok as [O1 O2 O3 O4 O5]. apply andb_true_iff in Hc as [_ Hc2%Z.leb_le].
  unfold r_end, r_size in *. apply Nat2Z.inj_le. rewrite Nat2Z.inj_add, Hpz.
  assert ((a - r_start r) / PAGE_SIZE * PAGE_SIZE = a - r_start r).
  { assert ((a - r_start r) mod PAGE_SIZE = 0) by (rewrite Zminus_mod, G2, O2; done).
    rewrite (Z.div_mod (a - r_start r) PAGE_SIZE) at 2 by done. lia. }
  unfold PAGE_SIZE in *. lia.
Qed.
Lemma commit_range_size r a n v : length (r_commit (commit_range r a n v)) = length (r_commit r).
Proof. apply length_set_range. Qed.
Lemma commit_range_ok r a n v : region_ok r → region_ok (commit_range r a n v).
Proof.
  intros []. pose proof (commit_range_size r a n v) as Hl.
  split; cbn in *; unfold r_end, r_size in *; cbn; by rewrite ?Hl.
Qed.
Lemma regions_apart_commit r r' a n v : regions_apart r r' → regions_apart (commit_range r a n v) r'.
Proof.
  intros []. pose proof (commit_range_size r a n v) as Hl.
  split; unfold r_end, r_size, r_buffer_end in *; cbn in *; by rewrite ?Hl.
Qed.

Lemma change_commit_run s rs spare i r e a n v :
  vm_in s rs spare → rs !! i = Some (Some r) → vm_entries s !! i = Some e → range_in r a n →
  ∃ b', change_commit v a (PAGE_SIZE * Z.of_nat n) e s = Ret (tt, set_bytes b' s)
    ∧ vm_in (set_bytes b' s) (<[i := Some (commit_range r a n v)]> rs) spare.
Proof.
  intros HV Hi He Hin. destruct (vc_region _ _ _ _ _ HV _ _ Hi) as [Hok Hbuf].
  destruct (range_in_pages r a n Hok Hin) as (P1 & P2 & P3 & P4). destruct Hin as [[G1 G2 G3 G4] _].
  destruct (vc_slot _ _ _ _ _ HV _ _ Hi) as (e' & He' & Hr). simplify_eq.
  destruct Hr as (E1 & E2 & E3 & E4 & E5 & E6 & E8 & E7 & Hrep).
  destruct (BitmapSetBitsValue_run s _ _ (page_of r a) n v Hrep P1 P2) as (b' & Hrun & Hrep' & Hfr).
  exists b'. split.
  - unfold change_commit. range_asserts. unfold PtrDiff. rewrite E2, page_index_va, <-P4 by done.
    pose proof (ro_count r Hok).
    massert ltac:(apply Z.leb_le; lia). massert ltac:(apply Z.leb_le; lia).
    unfold u32. rewrite !Z.mod_small by (unfold MAX_DWORD in *; lia). exact Hrun.
  - unfold vm_in. change (vm_entries (set_bytes b' s)) with (vm_entries s). change (vm_space (set_bytes b' s)) with (vm_space s).
    assert (Hend : BitmapBuffer (CommitBitmap e) + (BitCount (CommitBitmap e) - 1) / 8 + 1 = r_buffer_end r).
    { unfold r_buffer_end. by rewrite E7, (rep_count _ _ _ Hrep). }
    rewrite <-(list_insert_id (vm_entries s) i e He).
    apply (vm_core_update (vm_space s) (get_bytes s)); [done|by eapply lookup_lt_Some| |apply same_area_refl| | |].
    + destruct (vc_space _ _ _ _ _ HV) as [S1 S2 S3 S4 S5 S6]. split; try done.
      intros q Hq. rewrite get_set_bytes, Hfr; [by apply S6|].
      destruct Hbuf as (_ & _ & Hbuf). lia.
    + cbn [entry_rep]. unfold r_size. rewrite commit_range_size. done.
    + intros r' [= <-]. split; [by apply commit_range_ok|]. split.
      { destruct Hbuf as (?&?&?). unfold buffer_ok, r_buffer_end. by rewrite commit_range_size. }
      intros j r' Hj Hr'. apply regions_apart_commit. apply (vc_apart _ _ _ _ _ HV i j); [congruence|done..].
    + intros j r' Hj Hr' q Hq. rewrite get_set_bytes. apply Hfr.
      destruct (vc_apart _ _ _ _ _ HV i j r r') as [_ Ha]; [congruence|done..|]. lia.
Qed.
End Commit.

(** * Changing the state of a range *)
(** What the operations under the lock leave alone. *)
Definition vm_frame (s s' : VM) : Prop :=
  ∃ f es b, s' = set_space (with_free_bitmap f) (set_entries es (set_bytes b s)).
Lemma vm_frame_entries s es : vm_frame s (set_entries es s).
Proof. exists (FreeBitmapAddress (vm_space s)), es, (get_bytes s). by destruct s as [[]]. Qed.
Lemma vm_frame_bytes s b : vm_frame s (set_bytes b s).
Proof. exists (FreeBitmapAddress (vm_space s)), (vm_entries s), b. by destruct s as [[]]. Qed.
Lemma vm_frame_refl s : vm_frame s s.
Proof. exists (FreeBitmapAddress (vm_space s)), (vm_entries s), (get_bytes s). by destruct s as [[]]. Qed.
Lemma vm_frame_trans s1 s2 s3 : vm_frame s1 s2 → vm_frame s2 s3 → vm_frame s1 s3.
Proof. intros (f1 & es1 & b1 & ->) (f2 & es2 & b2 & ->). by exists f2, es2, b2. Qed.

(** The region that holds a whole range, and what committing the range answers. *)
Definition region_holding (rs : slots) (a n : Z) : option (nat * region) :=
  i ← find_slot rs a n; r ← mjoin (rs !! i); Some (i, r).
Definition commit_status (rs : slots) (a n rights : Z) (unc : bool) : Z :=
  match region_holding rs a n with
  | None => STATUS_MEMORY_IS_NOT_RESERVED
  | Some (_, r) =>
      if negb (r_rights r =? rights) then STATUS_MEMORY_CONFLICTING_ACCESS_RIGHTS
      else if negb (eqb (r_unc r) unc) then STATUS_MEMORY_CONFLICTING_CACHEABILITY
      else STATUS_SUCCESS
  end.
Definition commit_slots (rs : slots) (a : Z) (n : nat) (v : bool) : slots :=
  match region_holding rs a (PAGE_SIZE * Z.of_nat n) with
  | Some (i, r) => <[i := Some (commit_range r a n v)]> rs
  | None => rs
  end.

Lemma region_holding_Some rs a n i r :
  region_holding rs a n = Some (i, r) ↔ find_slot rs a n = Some i ∧ rs !! i = Some (Some r).
Proof.
  unfold region_holding. destruct (find_slot rs a n) as [j|]; cbn; [|naive_solver].
  split.
  - destruct (rs !! j) as [[r'|]|] eqn:E; cbn; intros; by simplify_eq.
  - intros [[= ->] ->]. done.
Qed.
Lemma region_holding_None rs a n : region_holding rs a n = None ↔ find_slot rs a n = None.
Proof.
  unfold region_holding. destruct (find_slot rs a n) as [j|] eqn:E; cbn; [|done].
  destruct (find_slot_Some _ _ _ _ E) as (r & -> & _). done.
Qed.
Lemma find_slot_free rs a n e :
  va_free rs a e → (∀ i r, rs !! i = Some (Some r) → region_ok r) → 0 < n → a + n ≤ e →
  find_slot rs a n = None.
Proof.
  intros Hva Hok Hn He. destruct (find_slot rs a n) as [i|] eqn:E; [|done].
  destruct (find_slot_Some _ _ _ _ E) as (r & Hi & Hc). unfold r_contains in Hc.
  apply andb_true_iff in Hc as [H1%Z.leb_le H2%Z.leb_le].
  destruct (Hok i r Hi) as [O1 O2 O3 O4 O5].
  assert (r_start r < r_end r) by (unfold r_end, r_size, PAGE_SIZE; lia).
  destruct (Hva i r Hi); lia.
Qed.

Section Change.
Variable fuel : nat.
Implicit Types (s : VM).

Ltac change_asserts :=
  massert ltac:(apply negb_true_iff, Z.eqb_neq; unfold NULL; lia);
  massert ltac:(apply negb_true_iff, Z.eqb_neq; unfold PAGE_SIZE in *; lia);
  massert ltac:(done);
  massert ltac:(apply va_page_aligned; [unfold PAGE_SIZE in *; lia|done]);
  massert ltac:(apply page_mul_aligned; unfold PAGE_SIZE in *; lia).

Lemma change_reserve_run s rs spare a n rights unc file
    (r := new_region (vm_space s) a n rights unc file) :
  vm_in s rs spare → (length rs < fuel)%nat → range_ok a n → va_free rs a (r_end r) →
  (0 < room rs spare)%nat →
  FreeBitmapAddress (vm_space s) + buffer_pages (Z.of_nat n)
    ≤ ReservationList (vm_space s) + ReservedAreaSize (vm_space s) →
  ∃ s', _VmChangeVaReservationState fuel a (PAGE_SIZE * Z.of_nat n) VMM_ALLOC_TYPE_RESERVE rights unc file s
      = Ret (STATUS_SUCCESS, s')
    ∧ vm_frame s s' ∧ vm_in s' (add_region r rs) (length rs + spare - length (open_slot rs)).
Proof.
  intros HV Hf Hrg Hva Hroom Hfree. pose proof (new_region_ok (vm_space s) a n rights unc file Hrg) as Hrok.
  destruct (_VmFindFirstFreeReservation_run fuel s rs spare HV Hroom Hf) as (es' & Hff & HV').
  destruct (open_slot_free rs) as [Hlt Hat].
  destruct (_VmInitializeReservation_run (set_entries es' s) _ _ _ a n rights unc file HV' Hat Hrg)
    as (es2 & b2 & Hinit & HV2).
  { intros i r' Hi. exact (Hva i r' (proj1 (open_slot_region rs i r') Hi)). }
  { done. }
  rewrite open_slot_add in HV2. eexists. split; [|split; [|exact HV2]].
  - destruct Hrg as [G1 G2 G3 G4]. unfold _VmChangeVaReservationState. change_asserts.
    assert (Hfs : find_slot rs a (PAGE_SIZE * Z.of_nat n) = None).
    { apply (find_slot_free _ _ _ (r_end r)); [done|intros i r' Hi; by destruct (vc_region _ _ _ _ _ HV i r' Hi)|unfold PAGE_SIZE; lia|].
      unfold r_end, r_size, r. cbn. rewrite length_replicate. lia. }
    mrun (_VmFindReservation_run fuel s rs spare a (PAGE_SIZE * Z.of_nat n) HV ltac:(lia)
      ltac:(unfold PAGE_SIZE; lia) ltac:(unfold PAGE_SIZE in *; lia) Hf). rewrite Hfs. cbn beta iota.
    change (STATUS_ELEMENT_NOT_FOUND =? STATUS_ELEMENT_NOT_FOUND) with true. cbn.
    change (VMM_ALLOC_TYPE_RESERVE =? VMM_ALLOC_TYPE_RESERVE) with true.
    change (SUCCEEDED STATUS_SUCCESS) with true. cbn [negb].
    mrun Hff. massert ltac:(by apply bool_decide_eq_true). mderef. mrun Hinit. done.
  - eexists _, es2, b2. reflexivity.
Qed.

Lemma change_commit_state_run s rs spare a n rights unc file (size := PAGE_SIZE * Z.of_nat n) :
  vm_in s rs spare → (length rs < fuel)%nat → range_ok a n →
  ∃ s', _VmChangeVaReservationState fuel a size VMM_ALLOC_TYPE_COMMIT rights unc file s
      = Ret (commit_status rs a size rights unc, s')
    ∧ vm_frame s s'
    ∧ vm_in s' (if SUCCEEDED (commit_status rs a size rights unc) then commit_slots rs a n true else rs) spare.
Proof.
  intros HV Hf Hrg. pose proof Hrg as [G1 G2 G3 G4]. unfold commit_slots, commit_status. fold size.
  assert (Hrun : _VmFindReservation fuel a size s = Ret (match find_slot rs a size with
    | Some i => (STATUS_SUCCESS, Some i) | None => (STATUS_ELEMENT_NOT_FOUND, None) end, s)).
  { apply (_VmFindReservation_run fuel s rs spare); unfold size, PAGE_SIZE in *; lia || done. }
  assert (Hpre : _VmChangeVaReservationState fuel a size VMM_ALLOC_TYPE_COMMIT rights unc file s =
    match region_holding rs a size with
    | None => Ret (STATUS_MEMORY_IS_NOT_RESERVED, s)
    | Some (i, r) => (e ← entry i;
        if negb (PageRights e =? rights) then mret STATUS_MEMORY_CONFLICTING_ACCESS_RIGHTS else
        if negb (eqb (Uncacheable e) unc) then mret STATUS_MEMORY_CONFLICTING_CACHEABILITY else
        _VmCommitReservation a size e;; mret STATUS_SUCCESS) s
    end).
  { unfold _VmChangeVaReservationState. subst size. change_asserts. mrun Hrun.
    destruct (region_holding _ _ _) as [[i r]|] eqn:E.
    - apply region_holding_Some in E as [-> Hi]. done.
    - apply region_holding_None in E as ->. done. }
  rewrite Hpre. destruct (region_holding rs a size) as [[i r]|] eqn:E.
  - apply region_holding_Some in E as [Hfs Hi].
    destruct (find_slot_Some _ _ _ _ Hfs) as (r' & Hi' & Hc). simplify_eq.
    destruct (vc_slot _ _ _ _ _ HV _ _ Hi) as (e & He & Hr). mrun (entry_run _ _ _ He).
    destruct Hr as (_ & _ & _ & -> & -> & _).
    destruct (negb (r_rights r =? rights)); [exists s; split_and!; [done|apply vm_frame_refl|done]|].
    destruct (negb (eqb (r_unc r) unc)); [exists s; split_and!; [done|apply vm_frame_refl|done]|].
    destruct (change_commit_run s rs spare i r e a n true HV Hi He) as (b' & Hb & HV'); [by split|].
    eexists. unfold _VmCommitReservation. mrun Hb. split_and!; [done|apply vm_frame_bytes|done].
  - exists s. split_and!; [done|apply vm_frame_refl|done].
Qed.
End Change.

(** * Allocating a region *)
Lemma add_region_at r rs : add_region r rs !! free_slot rs = Some (Some r).
Proof. induction rs as [|[r'|] rs IH]; simpl; done. Qed.
Lemma length_add_region r rs : (length (add_region r rs) <= S (length rs))%nat.
Proof. induction rs as [|[r'|] rs IH]; simpl; lia. Qed.
Lemma add_region_insert r r' rs : <[free_slot rs := Some r']> (add_region r rs) = add_region r' rs.
Proof. induction rs as [|[r2|] rs IH]; simpl; [done| |done]. by rewrite IH. Qed.
Lemma add_region_find r rs a n :
  find_slot rs a n = None → r_contains r a n = true →
  find_slot (add_region r rs) a n = Some (free_slot rs).
Proof.
  intros Hn Hr. induction rs as [|[r'|] rs IH]; simpl in *; rewrite ?Hr; try done.
  destruct (r_contains r' a n); [done|]. destruct (find_slot rs a n); [done|]. by rewrite IH.
Qed.
Lemma set_range_replicate n v w : set_range (replicate n v) 0 n w = replicate n w.
Proof.
  apply list_eq. intros i. rewrite lookup_set_range. destruct (decide _) as [Hi|Hi].
  - by rewrite !lookup_replicate_2 by lia.
  - transitivity (@None bool); [|symmetry]; apply lookup_replicate_None; lia.
Qed.

(** The number of pages that hold [size] bytes. *)
Definition pages (size : Z) : nat := Z.to_nat ((size + PAGE_SIZE - 1) / PAGE_SIZE).
Lemma pages_align size :
  0 < size → size + PAGE_SIZE ≤ 2 ^ 64 → AlignAddressUpper size PAGE_SIZE = PAGE_SIZE * Z.of_nat (pages size).
Proof.
  intros Hs Hb. rewrite AlignAddressUpper_page by lia. unfold pages.
  rewrite Z2Nat.id; [done|]. apply Z.div_pos; unfold PAGE_SIZE; lia.
Qed.
Lemma pages_tight size : 0 < size → size ≤ PAGE_SIZE * Z.of_nat (pages size) < size + PAGE_SIZE.
Proof.
  intros Hs. unfold pages, PAGE_SIZE. rewrite Z2Nat.id by (apply Z.div_pos; lia).
  pose proof (Z.div_mod (size + 4096 - 1) 4096 ltac:(lia)).
  pose proof (Z.mod_pos_bound (size + 4096 - 1) 4096 ltac:(lia)). lia.
Qed.

Section Alloc.
Variable fuel : nat.
Implicit Types (s : VM).

(** The state while the operations hold the lock, and after its release. *)
Definition locked (s : VM) : VM :=
  set_access true (lset lens_ReservationLock (rw_held true)
    (set_rflags (intr_flags INTR_OFF (get_rflags s)) s)).
Definition unlocked (old : bool) (s : VM) : VM :=
  lset lens_ReservationLock RW_zero (set_rflags (intr_flags old (get_rflags s)) (set_access false s)).

Lemma lock_run {B} (k : bool → M VM B) s :
  ReservationLock (vm_space s) = RW_zero → (0 < fuel)%nat →
  (oldState ← RwSpinlockAcquire fuel lens_ReservationLock true; set_VmmMemoryAccess true;; k oldState) s
  = k (intr_of (get_rflags s)) (locked s).
Proof. intros Hl Hf. mrun (rw_acquire_free fuel Hf lens_ReservationLock s true Hl). done. Qed.
Lemma unlock_run {B} (k : M VM B) s old :
  ReservationLock (vm_space s) = rw_held true →
  (set_VmmMemoryAccess false;; RwSpinlockRelease lens_ReservationLock old true;; k) s
  = k (unlocked old s).
Proof.
  intros Hl. erewrite bind_Ret by reflexivity. cbn beta iota.
  by mrun (rw_release_held lens_ReservationLock (set_access false s) true old Hl).
Qed.
Lemma locked_in s rs spare : vm_in s rs spare → vm_in (locked s) rs spare.
Proof. intros HV. by eapply vm_core_same. Qed.

(** Allocations without a base address are made in order: no region reaches beyond the next free
    address. It holds of a new space, and of every space in which no region was reserved at an
    address of the caller's choice. *)
Definition regions_below (rs : slots) (va : Z) : Prop := ∀ i r, rs !! i = Some (Some r) → r_end r ≤ va.
Lemma regions_below_add rs va r :
  regions_below rs va → va ≤ r_end r → regions_below (add_region r rs) (r_end r).
Proof.
  intros Hb Hr. induction rs as [|[r'|] rs IH]; intros [|i] r2 Hi; simpl in Hi; try done; simplify_eq; try lia.
  - specialize (Hb O r2 eq_refl). lia.
  - apply (IH (λ i, Hb (S i)) i r2 Hi).
  - specialize (Hb (S i) r2 Hi). lia.
Qed.
Lemma regions_below_insert rs va i o :
  regions_below rs va → (∀ r, o = Some r → r_end r ≤ va) → regions_below (<[i := o]> rs) va.
Proof.
  intros Hb Ho j r Hj. apply list_lookup_insert_Some in Hj as [(-> & -> & _)|[_ Hj]]; [by apply Ho|by eapply Hb].
Qed.
Lemma regions_below_commit rs va a n v :
  regions_below rs va → regions_below (commit_slots rs a n v) va.
Proof.
  intros Hb. unfold commit_slots. destruct (region_holding _ _ _) as [[i r]|] eqn:E; [|done].
  apply region_holding_Some in E as [_ Hi]. apply regions_below_insert; [done|]. intros ? [= <-].
  unfold r_end, r_size. rewrite commit_range_size. exact (Hb i r Hi).
Qed.

(** What a call leaves: the lock free and the interrupts as they were. *)
Record call_done (s s' : VM) (rs : slots) (spare : nat) : Prop := {
  cd_rep : vm_rep s' rs spare;
  cd_intr : intr_of (get_rflags s') = intr_of (get_rflags s);
  cd_start : StartOfVirtualAddressSpace (vm_space s') = StartOfVirtualAddressSpace (vm_space s);
  cd_free_va : FreeVirtualAddressPointer (vm_space s') = FreeVirtualAddressPointer (vm_space s)
}.
Lemma unlocked_done s s2 rs spare :
  vm_frame (locked s) s2 → vm_in s2 rs spare →
  call_done s (unlocked (intr_of (get_rflags s)) s2) rs spare.
Proof.
  intros (f & es & b & ->) HV. split; cbn; rewrite ?intr_of_flags; try done.
  split; [done|]. by eapply vm_core_same.
Qed.
Lemma frame_lock s s2 : vm_frame (locked s) s2 → ReservationLock (vm_space s2) = rw_held true.
Proof. by intros (f & es & b & ->). Qed.

Definition alloc_type (commit : bool) : Z :=
  if commit then Z.lor VMM_ALLOC_TYPE_RESERVE VMM_ALLOC_TYPE_COMMIT else VMM_ALLOC_TYPE_RESERVE.

Lemma reserve_flag AllocType :
  IsBooleanFlagOn AllocType VMM_ALLOC_TYPE_RESERVE = true →
  IsFlagOn AllocType (Z.lor VMM_ALLOC_TYPE_COMMIT VMM_ALLOC_TYPE_RESERVE) = true.
Proof.
  intros H. change VMM_ALLOC_TYPE_RESERVE with (Z.shiftl 1 0) in *. rewrite IsBooleanFlagOn_testbit in H by lia.
  unfold IsFlagOn. apply negb_true_iff, Z.eqb_neq. intros E. apply (f_equal (λ z, Z.testbit z 0)) in E.
  rewrite Z.land_spec, H in E. discriminate E.
Qed.

(** The two changes of state of an allocation above every region. *)
Lemma alloc_body_run s rs spare a n (commit : bool) rights unc file
    (size := PAGE_SIZE * Z.of_nat n)
    (r := mkReg a (replicate n commit) rights unc file (FreeBitmapAddress (vm_space s))) :
  vm_in s rs spare → (S (length rs) < fuel)%nat → range_ok a n →
  (∀ i r, rs !! i = Some (Some r) → r_end r ≤ a) → (0 < room rs spare)%nat →
  FreeBitmapAddress (vm_space s) + buffer_pages (Z.of_nat n)
    ≤ ReservationList (vm_space s) + ReservedAreaSize (vm_space s) →
  ∃ s2 s3, _VmChangeVaReservationState fuel a size VMM_ALLOC_TYPE_RESERVE rights unc file s = Ret (STATUS_SUCCESS, s2)
    ∧ (if IsBooleanFlagOn (alloc_type commit) VMM_ALLOC_TYPE_COMMIT
       then _VmChangeVaReservationState fuel a size VMM_ALLOC_TYPE_COMMIT rights unc file
       else mret STATUS_SUCCESS) s2 = Ret (STATUS_SUCCESS, s3)
    ∧ vm_frame s s3 ∧ vm_in s3 (add_region r rs) (length rs + spare - length (open_slot rs)).
Proof.
  intros HV Hf Hrg Hva Hroom Hfree. set (r0 := new_region (vm_space s) a n rights unc file).
  destruct (change_reserve_run fuel s rs spare a n rights unc file HV ltac:(lia) Hrg)
    as (s2 & Hres & Hfr2 & HV2); [by right; eapply Hva|done|done|].
  fold r0 in HV2. exists s2.
  destruct commit; [change (IsBooleanFlagOn (alloc_type true) VMM_ALLOC_TYPE_COMMIT) with true
    |change (IsBooleanFlagOn (alloc_type false) VMM_ALLOC_TYPE_COMMIT) with false]; cbn iota; [|by exists s2].
  assert (Hwhole : r_contains r0 a size = true).
  { unfold r_contains, r_end, r_size, r0. cbn. rewrite length_replicate. apply andb_true_iff. split; apply Z.leb_le; lia. }
  assert (Hh : region_holding (add_region r0 rs) a size = Some (free_slot rs, r0)).
  { apply region_holding_Some. split; [|apply add_region_at]. apply add_region_find; [|done].
    destruct Hrg. apply (find_slot_free _ _ _ (r_end r0)).
    - right. by eapply Hva.
    - intros i r' Hi. by destruct (vc_region _ _ _ _ _ HV i r' Hi).
    - unfold size, PAGE_SIZE. lia.
    - unfold r_contains in Hwhole. apply andb_true_iff in Hwhole as [_ ?%Z.leb_le]. done. }
  destruct (change_commit_state_run fuel s2 _ _ a n rights unc file HV2) as (s3 & Hrun & Hfr3 & HV3).
  { pose proof (length_add_region r0 rs). lia. }
  { done. }
  fold size in Hrun, HV3. exists s3. split_and!; [done| |by eapply vm_frame_trans|].
  - rewrite Hrun. unfold commit_status. rewrite Hh. cbn. by rewrite Z.eqb_refl, eqb_reflx.
  - revert HV3. unfold commit_status, commit_slots. fold size. rewrite Hh. cbn. rewrite Z.eqb_refl, eqb_reflx. cbn.
    rewrite add_region_insert. unfold commit_range, with_commit, r0, new_region, page_of. cbn.
    by rewrite Z.sub_diag, set_range_replicate.
Qed.

Lemma VmReservationSpaceAllocRegion_run s rs spare size AllocType (commit : bool) rights unc file
    (va := FreeVirtualAddressPointer (vm_space s)) (n := pages size)
    (r := mkReg va (replicate n commit) rights unc file (FreeBitmapAddress (vm_space s))) :
  IsBooleanFlagOn AllocType VMM_ALLOC_TYPE_RESERVE = true →
  IsBooleanFlagOn AllocType VMM_ALLOC_TYPE_COMMIT = commit →
  vm_rep s rs spare → (S (length rs) < fuel)%nat → 0 < size → range_ok va n →
  (∀ i r, rs !! i = Some (Some r) → r_end r ≤ va) → (0 < room rs spare)%nat →
  FreeBitmapAddress (vm_space s) + buffer_pages (Z.of_nat n)
    ≤ ReservationList (vm_space s) + ReservedAreaSize (vm_space s) →
  ∃ s' spare',
    VmReservationSpaceAllocRegion fuel NULL size AllocType rights unc file s
      = Ret ((STATUS_SUCCESS, Some (va, r_size r)), s')
    ∧ size ≤ r_size r < size + PAGE_SIZE
    ∧ call_done (set_space (with_free_va (r_end r)) s) s' (add_region r rs) spare'
    ∧ S (room (add_region r rs) spare') = room rs spare.
Proof.
  intros Hres_flag Hcom_flag [Hl HV] Hf Hsz Hrg Hva Hroom Hfree. pose proof (pages_tight size Hsz) as Htight.
  assert (Hr : r_size r = PAGE_SIZE * Z.of_nat n) by (unfold r_size, r; cbn; by rewrite length_replicate).
  set (s1 := set_space (with_free_va (r_end r)) s).
  destruct (alloc_body_run (locked s1) rs spare va n commit rights unc file) as (s2 & s3 & Hres & Hcom & Hfr & HV3);
    [apply locked_in; by eapply vm_core_same|done..|].
  exists (unlocked (intr_of (get_rflags s)) s3), (length rs + spare - length (open_slot rs))%nat.
  split_and!; [|rewrite Hr; unfold n; lia..|by apply (unlocked_done s1)|by apply room_add].
  unfold VmReservationSpaceAllocRegion. massert ltac:(apply negb_true_iff, Z.eqb_neq; lia).
  massert ltac:(by apply reserve_flag). mrun (gets_run vm_space s).
  change (NULL =? NULL) with true. cbn [negb andb].
  rewrite pages_align by (try done; destruct Hrg; unfold n, PAGE_SIZE in *; lia). fold n. rewrite <-Hr.
  assert (Hnext : VmReservationSpaceDetermineNextFreeVirtualAddress (r_size r) s = Ret (va, s1)).
  { unfold VmReservationSpaceDetermineNextFreeVirtualAddress. mrun (gets_run vm_space s). fold va.
    unfold u64. rewrite Hr, Z.mod_small by (destruct Hrg; unfold PAGE_SIZE in *; lia).
    unfold s1, r_end. by rewrite Hr. }
  rewrite bind_assoc. mrun Hnext. rewrite (bind_Ret _ _ s1 _ s1 eq_refl). cbn beta iota.
  rewrite lock_run by (done || lia). rewrite Hres_flag, Hcom_flag.
  rewrite Hr. mrun Hres. change (SUCCEEDED STATUS_SUCCESS) with true. cbn [negb].
  replace (IsBooleanFlagOn (alloc_type commit) VMM_ALLOC_TYPE_COMMIT) with commit in Hcom by (by destruct commit).
  mrun Hcom. rewrite unlock_run by (by eapply frame_lock). done.
Qed.

(** C6: with a NULL base, VmReservationSpaceAllocRegion reserves the next free addresses, as
    many pages as the size needs, and commits all or none of them; no address of the new region
    was in a region, no other region changes, exactly one list entry is used, the lock and the
    interrupt state are as before, and the next call finds the regions below its free addresses
    again, as this one does and as a new space has them. Releasing a region and committing
    keep that too (C37, C38); reserving at an address of the caller's choice need not. What else
    it needs: an entry of the list that is not used, room for the commit bits in the metadata,
    and a free address that is a multiple of the page size, with fewer than 2^32 pages that end
    below 2^64. *)
Theorem VmReservationSpaceAllocRegion_reserves s rs spare size (commit : bool) rights unc file
    (va := FreeVirtualAddressPointer (vm_space s)) (n := pages size)
    (r := mkReg va (replicate n commit) rights unc file (FreeBitmapAddress (vm_space s))) :
  vm_rep s rs spare → (S (length rs) < fuel)%nat → 0 < size → range_ok va n →
  regions_below rs va → (0 < room rs spare)%nat →
  FreeBitmapAddress (vm_space s) + buffer_pages (Z.of_nat n)
    ≤ ReservationList (vm_space s) + ReservedAreaSize (vm_space s) →
  ∃ s' spare',
    VmReservationSpaceAllocRegion fuel NULL size (alloc_type commit) rights unc file s
      = Ret ((STATUS_SUCCESS, Some (va, r_size r)), s')
    ∧ size ≤ r_size r < size + PAGE_SIZE
    ∧ va_free rs va (r_end r)
    ∧ call_done (set_space (with_free_va (r_end r)) s) s' (add_region r rs) spare'
    ∧ S (room (add_region r rs) spare') = room rs spare
    ∧ FreeVirtualAddressPointer (vm_space s') = r_end r
    ∧ regions_below (add_region r rs) (r_end r).
Proof.
  intros Hrep Hf Hsz Hrg Hbelow Hroom Hfree.
  destruct (VmReservationSpaceAllocRegion_run s rs spare size (alloc_type commit) commit rights unc file)
    as (s' & spare' & Hrun & Hs & Hd & Hr); [by destruct commit..|done|done|done|done|done|done|done|].
  exists s', spare'. split_and!; [exact Hrun|apply Hs..| |exact Hd|exact Hr|exact (cd_free_va _ _ _ _ Hd)|].
  - intros i r' Hi. right. by eapply Hbelow.
  - apply (regions_below_add rs va); [done|]. unfold r_end, r_size, PAGE_SIZE. cbn. lia.
Qed.
End Alloc.

(** * Committing at a given address, releasing and decommitting *)
(** The pages that [size] bytes from [a] touch. *)
Definition page_base (a : Z) : Z := PAGE_SIZE * (a / PAGE_SIZE).
Definition pages_touched (a size : Z) : nat := pages (size + a mod PAGE_SIZE).
Lemma page_base_spec a : 0 ≤ a → page_base a = a - a mod PAGE_SIZE ∧ 0 ≤ page_base a ≤ a ∧ page_base a mod PAGE_SIZE = 0.
Proof.
  intros Ha. unfold page_base. pose proof (Z.div_mod a PAGE_SIZE ltac:(done)).
  pose proof (Z.mod_pos_bound a PAGE_SIZE ltac:(done)). pose proof (Z.div_pos a PAGE_SIZE ltac:(lia) ltac:(done)).
  split_and!; [lia|unfold PAGE_SIZE in *; lia|lia|]. rewrite Z.mul_comm. by apply Z.mod_mul.
Qed.
Lemma AlignAddressLower_page a : 0 ≤ a < 2 ^ 64 → AlignAddressLower a PAGE_SIZE = page_base a.
Proof. intros Ha. by apply (AlignAddressLower_pow2 12). Qed.

Section Base.
Variable fuel : nat.
Implicit Types (s : VM).

(** C38: with a base address, VmReservationSpaceAllocRegion commits the pages that the bytes
    touch exactly when a single region holds them and was reserved with the same rights and
    cacheability; otherwise it answers the status of the first check that fails (the base
    lies below the address space, not reserved, other rights, other cacheability) and
    changes no region. The regions stay below the next free address when they were. The pages
    are fewer than 2^32, and end below 2^64; the space may lie anywhere below that. *)
Theorem VmReservationSpaceAllocRegion_commits s rs spare base size rights unc file
    (a := page_base base) (n := pages_touched base size)
    (status := if a <? StartOfVirtualAddressSpace (vm_space s) then STATUS_MEMORY_CANNOT_BE_RESERVED
               else commit_status rs a (PAGE_SIZE * Z.of_nat n) rights unc) :
  vm_rep s rs spare → (length rs < fuel)%nat → 0 < base → 0 < size → range_ok a n →
  ∃ s', VmReservationSpaceAllocRegion fuel base size VMM_ALLOC_TYPE_COMMIT rights unc file s
      = Ret ((status, if SUCCEEDED status then Some (a, PAGE_SIZE * Z.of_nat n) else None), s')
    ∧ call_done s s' (if SUCCEEDED status then commit_slots rs a n true else rs) spare
    ∧ (regions_below rs (FreeVirtualAddressPointer (vm_space s)) →
       regions_below (if SUCCEEDED status then commit_slots rs a n true else rs) (FreeVirtualAddressPointer (vm_space s))).
Proof.
  intros [Hl HV] Hf Hb Hsz Hrg.
  assert (Hbelow : ∀ va, regions_below rs va →
    regions_below (if SUCCEEDED status then commit_slots rs a n true else rs) va).
  { intros va Hva. destruct (SUCCEEDED status); [by apply regions_below_commit|done]. } destruct (page_base_spec base ltac:(lia)) as (B1 & B2 & B3). fold a in B1, B2, B3.
  pose proof (Z.mod_pos_bound base PAGE_SIZE ltac:(done)) as Hm.
  pose proof (pages_tight (size + base mod PAGE_SIZE) ltac:(lia)) as Htight.
  pose proof Hrg as [G1 G2 G3 G4]. unfold n, pages_touched, PAGE_SIZE in G4, Hm, Htight.
  unfold VmReservationSpaceAllocRegion. massert ltac:(apply negb_true_iff, Z.eqb_neq; lia).
  massert ltac:(done). mrun (gets_run vm_space s).
  rewrite AlignAddressLower_page by (unfold PAGE_SIZE in *; lia). fold a.
  replace (NULL =? base) with false by (symmetry; apply Z.eqb_neq; unfold NULL; lia). cbn [negb andb].
  unfold status. destruct (a <? _) eqn:Est.
  { exists s. split; [done|]. split; [|done]. split; [by split|done..]. }
  rewrite (bind_Ret _ _ s (a, PAGE_SIZE * Z.of_nat n) s).
  2: { cbn. unfold PtrDiff, s64, u64. rewrite (Z.mod_small (base - a)) by (unfold PAGE_SIZE in *; lia).
       rewrite (proj2 (Z.ltb_lt _ _)) by (unfold PAGE_SIZE in *; lia).
       rewrite Z.mod_small by (unfold PAGE_SIZE in *; lia).
       replace (size + (base - a)) with (size + base mod PAGE_SIZE) by lia.
       rewrite pages_align by (unfold PAGE_SIZE in *; lia). done. }
  cbn beta iota. rewrite lock_run by (done || lia).
  change (IsBooleanFlagOn VMM_ALLOC_TYPE_COMMIT VMM_ALLOC_TYPE_RESERVE) with false. cbn iota.
  erewrite bind_Ret by reflexivity. cbn beta iota. change (negb (SUCCEEDED STATUS_SUCCESS)) with false.
  change (IsBooleanFlagOn VMM_ALLOC_TYPE_COMMIT VMM_ALLOC_TYPE_COMMIT) with true. cbn iota.
  destruct (change_commit_state_run fuel (locked s) rs spare a n rights unc file) as (s2 & Hrun & Hfr & HV2);
    [by apply locked_in|done|done|].
  mrun Hrun. rewrite unlock_run by (by eapply frame_lock).
  eexists. split; [done|]. split; [by apply unlocked_done|apply Hbelow].
Qed.
End Base.

Section Free.
Context {St : Type} (fuel : nat) (vm : lens St VM).
(** mmu.c and io_files.c: what the release calls. *)
Variables (MmuUnmapMemoryEx : Z → Z → M St unit) (IoCloseFile : Z → M St Z).
(** Of the reservations at most the bytes of the pages that hold [n] bytes from [p] changed; the
    interrupts are as they were. *)
Definition bytes_changed (p n : Z) (s s' : VM) : Prop := ∃ f b,
  s' = set_bytes b (set_rflags f s) ∧ intr_of f = intr_of (get_rflags s)
  ∧ ∀ q, ¬ (p ≤ q < p + PAGE_SIZE * ((n + PAGE_SIZE - 1) / PAGE_SIZE)) → b !! q = get_bytes s !! q.
Implicit Types (s : St) (v : VM).

(** What the code does after it took the reservation out of the list. *)
Lemma _VmUninitializeReservation_run s s1 e r :
  entry_rep (get_bytes (lget vm s)) e (Some r) → r_buffer r mod PAGE_SIZE = 0 →
  0 ≤ r_buffer r < 2 ^ 64 →
  MmuUnmapMemoryEx (r_buffer r) ((Z.of_nat (length (r_commit r)) + 7) / 8) s = Ret (tt, s1) →
  (r_file r ≠ NULL → ∃ st s', IoCloseFile (r_file r) s1 = Ret (st, s') ∧ lget vm s' = lget vm s1) →
  ∃ s', _VmUninitializeReservation MmuUnmapMemoryEx IoCloseFile e s = Ret (tt, s')
    ∧ lget vm s' = lget vm s1 ∧ (r_file r = NULL → s' = s1).
Proof using.
  intros (_&_&_&_&_&Hfile&Hsz&Hb&Hrep) Hal Hbd Hun Hclose.
  unfold _VmUninitializeReservation. rewrite Hb, Hsz, (rep_count _ _ _ Hrep), Hfile.
  massert ltac:(by apply va_page_aligned). mrun Hun. destruct (Z.eqb_spec (r_file r) NULL) as [Hn|Hn]; cbn [negb].
  - by exists s1.
  - destruct (Hclose Hn) as (st & s' & Hc & Hv). exists s'. mrun Hc. by split_and!.
Qed.

(** The pages of the commit bits of two regions do not meet. *)
Lemma page_round x y : x mod PAGE_SIZE = 0 → y mod PAGE_SIZE = 0 → 0 ≤ x → ∀ n, x + n ≤ y → 
  x + PAGE_SIZE * ((n + PAGE_SIZE - 1) / PAGE_SIZE) ≤ y.
Proof using.
  intros Hx Hy Hx0 n Hn. apply Z.mod_divide in Hx as [u ->]; [|done]. apply Z.mod_divide in Hy as [v ->]; [|done].
  unfold PAGE_SIZE in *. assert ((n + 4096 - 1) / 4096 < v - u + 1); [apply Z.div_lt_upper_bound; lia|lia].
Qed.
Lemma r_buffer_pages r : r_buffer_end r = r_buffer r + (Z.of_nat (length (r_commit r)) + 7) / 8.
Proof using. unfold r_buffer_end. rewrite <-bits_bytes. lia. Qed.

Lemma release_in v rs spare i r b e :
  vm_in v rs spare → rs !! i = Some (Some r) → State e = VmmReservationStateFree →
  (∀ q, ¬ (r_buffer r ≤ q < r_buffer r + buffer_pages (Z.of_nat (length (r_commit r)))) →
    b !! q = get_bytes v !! q) →
  vm_core (vm_space v) b (<[i := e]> (vm_entries v)) (<[i := None]> rs) spare.
Proof using.
  intros HV Hi He Hfr. destruct (vc_region _ _ _ _ _ HV _ _ Hi) as [Hok (B1 & B2 & B3)].
  destruct (vc_space _ _ _ _ _ HV) as [S1 S2 S3 S4 S5 S6]. rewrite r_buffer_pages in B3.
  assert (Hpg : ∀ y, y mod PAGE_SIZE = 0 → r_buffer_end r ≤ y →
    r_buffer r + buffer_pages (Z.of_nat (length (r_commit r))) ≤ y).
  { intros y Hy Hle. rewrite r_buffer_pages in Hle. unfold buffer_pages. by apply page_round; [|done|lia|]. }
  apply (vm_core_update (vm_space v) (get_bytes v)); [done|by eapply lookup_lt_Some| |apply same_area_refl|done|done|].
  - split; try done. intros q Hq. rewrite Hfr; [by apply S6|].
    pose proof (Hpg _ S5 ltac:(rewrite r_buffer_pages; lia)). lia.
  - intros j r' Hj Hr' q Hq. apply Hfr. destruct (vc_region _ _ _ _ _ HV _ _ Hr') as [_ (B1' & _ & _)].
    destruct (vc_apart _ _ _ _ _ HV i j r r') as [_ [Ha|Ha]]; [congruence|done..| |].
    + pose proof (Hpg _ B1' Ha). lia.
    + lia.
Qed.

(** Taking the lock and looking for the region. *)
Lemma free_find_run v rs spare a i :
  vm_rep v rs spare → (length rs < fuel)%nat → 0 < a → a + 1 < 2 ^ 64 → find_slot rs a 1 = Some i →
  (oldState ← RwSpinlockAcquire fuel lens_ReservationLock true;
   set_VmmMemoryAccess true;;
   '(status, pReservation) ← _VmFindReservation fuel a 1;
   ASSERT (SUCCEEDED status);;
   i ← from_option_fault pReservation;
   mret (oldState, i)) v = Ret ((intr_of (get_rflags v), i), locked v).
Proof using.
  intros [Hl HV] Hf Ha Ha2 Hfs. rewrite lock_run by (done || lia).
  mrun (_VmFindReservation_run fuel (locked v) rs spare a 1 (locked_in _ _ _ HV) Ha ltac:(lia) Ha2 Hf).
  rewrite Hfs. massert ltac:(done). by mderef.
Qed.

(** The reservations after the region has left the list, before its commit bits are unmapped. *)
Definition taken_out (i : nat) v : VM :=
  let v2 := set_entries (<[i := with_State VmmReservationStateFree VMM_RESERVATION_zero]> (vm_entries v)) (locked v) in
  lset lens_ReservationLock RW_zero (set_rflags (intr_flags (intr_of (get_rflags v)) (get_rflags v2)) v2).

Lemma free_take_out_run v i e :
  vm_entries v !! i = Some e →
  (reservationCopy ← entry i;
   put_entry i VMM_RESERVATION_zero;;
   set_State i VmmReservationStateFree;;
   RwSpinlockRelease lens_ReservationLock (intr_of (get_rflags v)) true;;
   mret reservationCopy) (locked v) = Ret (e, taken_out i v).
Proof using.
  intros He. mrun (entry_run i (locked v) e He). mrun (put_entry_run i (locked v) e VMM_RESERVATION_zero He).
  erewrite bind_Ret.
  2: { apply set_State_run. cbn [vm_entries set_entries]. apply list_lookup_insert_eq. by eapply lookup_lt_Some. }
  cbn beta iota. cbn [vm_entries set_entries]. rewrite list_insert_insert_eq.
  set (v2 := set_entries _ (locked v)).
  by mrun (rw_release_held lens_ReservationLock v2 true (intr_of (get_rflags v)) eq_refl).
Qed.

(** The two calls of the release of a region, from the state in which the reservation has left
    the list: unmapping the pages of its commit bits returns and changes no other byte of the
    reservations; closing its file, when it has one, returns and leaves the reservations alone. *)
Definition bits_size (r : region) : Z := (Z.of_nat (length (r_commit r)) + 7) / 8.
Record release_calls (s s1 : St) (i : nat) (r : region) : Prop := {
  rc_unmap : MmuUnmapMemoryEx (r_buffer r) (bits_size r) (lset vm (taken_out i (lget vm s)) s) = Ret (tt, s1);
  rc_bytes : bytes_changed (r_buffer r) (bits_size r) (taken_out i (lget vm s)) (lget vm s1);
  rc_close : r_file r ≠ NULL → ∃ st s', IoCloseFile (r_file r) s1 = Ret (st, s') ∧ lget vm s' = lget vm s1
}.

(** The whole release. *)
Lemma free_release_run s s1 rs spare a i r :
  vm_rep (lget vm s) rs spare → (length rs < fuel)%nat → 0 < a → a + 1 < 2 ^ 64 →
  find_slot rs a 1 = Some i → rs !! i = Some (Some r) →
  release_calls s s1 i r →
  ∃ s2, VmReservationSpaceFreeRegion fuel vm MmuUnmapMemoryEx IoCloseFile a 0 VMM_FREE_TYPE_RELEASE s
      = Ret ((r_start r, r_size r), lset vm (set_access false (lget vm s1)) s2)
    ∧ (r_file r = NULL → s2 = s1)
    ∧ call_done (lget vm s) (set_access false (lget vm s1)) (<[i := None]> rs) spare.
Proof using.
  intros Hrep Hf Ha Ha2 Hfs Hi [Hun (f & b & Hv1 & Hintr & Hfr) Hclose]. unfold bits_size in *. pose proof Hrep as [Hl HV].
  destruct (vc_slot _ _ _ _ _ HV _ _ Hi) as (e & He & Hre).
  destruct (vc_region _ _ _ _ _ HV _ _ Hi) as [Hok (B1 & B2 & B3)].
  destruct (vc_space _ _ _ _ _ HV) as [S1 S2 S3 S4 S5 S6]. pose proof (r_buffer_end_gt r Hok) as Hgt.
  destruct (_VmUninitializeReservation_run (lset vm (taken_out i (lget vm s)) s) s1 e r)
    as (s2 & Hrun & Hv2 & Hs2); [by rewrite lget_lset|done|lia|done|done|].
  exists s2. split; [|split; [done|]].
  - unfold VmReservationSpaceFreeRegion. massert ltac:(apply negb_true_iff, Z.eqb_neq; unfold NULL; lia).
    massert ltac:(done). massert ltac:(done).
    mrun (zoom_run vm _ s _ _ (free_find_run (lget vm s) rs spare a i Hrep Hf Ha Ha2 Hfs)).
    change (IsBooleanFlagOn VMM_FREE_TYPE_RELEASE VMM_FREE_TYPE_RELEASE) with true. cbn iota.
    set (s0 := lset vm (locked (lget vm s)) s). erewrite bind_Ret.
    2: { apply (zoom_run vm _ s0 e (taken_out i (lget vm s))). unfold s0. rewrite lget_lset.
         by apply free_take_out_run. }
    cbn beta iota. unfold s0. rewrite lset_lset. mrun Hrun.
    erewrite bind_Ret by (apply zoom_run; reflexivity). cbn beta iota. rewrite Hv2.
    destruct Hre as (_ & -> & -> & _). done.
  - rewrite Hv1. split; cbn; [|rewrite Hintr; cbn; by rewrite ?intr_of_flags|done|done]. split; [done|].
    eapply vm_core_same; [exact (release_in (lget vm s) rs spare i r b (with_State VmmReservationStateFree VMM_RESERVATION_zero) HV Hi eq_refl Hfr)|done..].
Qed.

(** C37: VmReservationSpaceFreeRegion with RELEASE removes exactly the region that holds the
    address and gives back its bounds; its list entry can be used again, every other region
    keeps its pages although the pages of the commit bits are unmapped, and the regions stay
    below the next free address when they were. It is assumed of the two calls that leave the
    file, which are made with the page-aligned address and the size, not 0, of the commit bits and
    with the file of the region, that this call of MmuUnmapMemoryEx returns and leaves the bytes
    of other pages as they are, and that IoCloseFile, called only for a region with a file,
    returns and leaves the reservations alone; MmuUnmapMemoryEx does so by
    VmmProps.free_commit_bits_run. *)
Theorem VmReservationSpaceFreeRegion_releases s s1 rs spare a i r :
  vm_rep (lget vm s) rs spare → (length rs < fuel)%nat → 0 < a → a + 1 < 2 ^ 64 →
  find_slot rs a 1 = Some i → rs !! i = Some (Some r) → release_calls s s1 i r →
  ∃ s', VmReservationSpaceFreeRegion fuel vm MmuUnmapMemoryEx IoCloseFile a 0 VMM_FREE_TYPE_RELEASE s
      = Ret ((r_start r, r_size r), s')
    ∧ call_done (lget vm s) (lget vm s') (<[i := None]> rs) spare
    ∧ room (<[i := None]> rs) spare = S (room rs spare)
    ∧ region_at (<[i := None]> rs) a = None
    ∧ r_buffer r mod PAGE_SIZE = 0 ∧ 0 < r_buffer r ∧ 0 < bits_size r
    ∧ (∀ va, regions_below rs va → regions_below (<[i := None]> rs) va).
Proof using.
  intros Hrep Hf Ha Ha2 Hfs Hi Hcalls.
  destruct (free_release_run s s1 rs spare a i r Hrep Hf Ha Ha2 Hfs Hi Hcalls) as (s2 & Hrun & _ & Hdone).
  destruct (vc_region _ _ _ _ _ (proj2 Hrep) _ _ Hi) as [[_ _ Hpg _ _] (B1 & B2 & _)].
  pose proof (vc_space _ _ _ _ _ (proj2 Hrep)) as [S1 S2 _ _ _ _].
  eexists. split; [exact Hrun|]. rewrite lget_lset. split_and!; [done|by apply room_release with r| |done|lia| |].
  - unfold region_at. destruct (find_slot (<[i := None]> rs) a 1) as [j|] eqn:Ej; [|done].
    destruct (find_slot_Some _ _ _ _ Ej) as (r' & Hj & Hc).
    apply list_lookup_insert_Some in Hj as [(_ & [=] & _)|[Hne Hj]].
    destruct (find_slot_Some _ _ _ _ Hfs) as (r2 & Hi2 & Hc2). rewrite Hi in Hi2. injection Hi2 as <-.
    destruct (vc_apart _ _ _ _ _ (proj2 Hrep) _ _ _ _ Hne Hi Hj) as [Hva _].
    apply andb_true_iff in Hc as [?%Z.leb_le ?%Z.leb_le], Hc2 as [?%Z.leb_le ?%Z.leb_le]. lia.
  - unfold bits_size. pose proof (Z.div_le_mono 8 (Z.of_nat (length (r_commit r)) + 7) 8 ltac:(lia) ltac:(lia)) as Hd8. change (8 / 8) with 1 in Hd8. lia.
  - intros va Hva. by apply regions_below_insert.
Qed.

(** With DECOMMIT it clears the commit bits of exactly the pages that the bytes touch. *)
Theorem VmReservationSpaceFreeRegion_decommits s rs spare addr size i r
    (a := page_base addr) (n := pages_touched addr size) :
  vm_rep (lget vm s) rs spare → (length rs < fuel)%nat → 0 < addr → 0 < size → addr + 1 < 2 ^ 64 →
  find_slot rs addr 1 = Some i → rs !! i = Some (Some r) → range_in r a n →
  ∃ v', VmReservationSpaceFreeRegion fuel vm MmuUnmapMemoryEx IoCloseFile addr size VMM_FREE_TYPE_DECOMMIT s
      = Ret ((a, PAGE_SIZE * Z.of_nat n), lset vm v' s)
    ∧ call_done (lget vm s) v' (<[i := Some (commit_range r a n false)]> rs) spare.
Proof using.
  intros Hrep Hf Ha Hsz Ha2 Hfs Hi Hin. pose proof Hrep as [Hl HV].
  destruct (vc_slot _ _ _ _ _ HV _ _ Hi) as (e & He & Hre).
  destruct (page_base_spec addr ltac:(lia)) as (P1 & P2 & P3). fold a in P1, P2, P3.
  pose proof (Z.mod_pos_bound addr PAGE_SIZE ltac:(done)) as Hm.
  pose proof (pages_tight (size + addr mod PAGE_SIZE) ltac:(lia)) as Htight.
  pose proof (rg_end _ _ (ri_ok _ _ _ Hin)) as Hend. unfold n, pages_touched, PAGE_SIZE in Hend, Hm, Htight.
  destruct (change_commit_run (locked (lget vm s)) rs spare i r e a n false (locked_in _ _ _ HV) Hi He Hin)
    as (b & Hrun & HV').
  set (v1 := locked (lget vm s)) in *.
  exists (unlocked (intr_of (get_rflags (lget vm s))) (set_bytes b v1)). split.
  - unfold VmReservationSpaceFreeRegion. massert ltac:(apply negb_true_iff, Z.eqb_neq; unfold NULL; lia).
    massert ltac:(cbn; apply negb_true_iff, Z.eqb_neq; lia). massert ltac:(done).
    mrun (zoom_run vm _ s _ _ (free_find_run (lget vm s) rs spare addr i Hrep Hf Ha Ha2 Hfs)). fold v1.
    change (IsBooleanFlagOn VMM_FREE_TYPE_DECOMMIT VMM_FREE_TYPE_RELEASE) with false. cbn iota.
    rewrite AlignAddressLower_page by (unfold PAGE_SIZE in *; lia). fold a. cbn zeta.
    replace (u64 (size + (addr - a))) with (size + addr mod PAGE_SIZE)
      by (unfold u64; rewrite (Z.mod_small (size + (addr - a))); unfold PAGE_SIZE in *; lia).
    rewrite pages_align by (unfold PAGE_SIZE in *; lia). fold (pages_touched addr size). fold n.
    erewrite bind_Ret.
    2: { apply zoom_run. rewrite lget_lset. mrun (entry_run i v1 e He). unfold _VmDecommitReservation. mrun Hrun.
         erewrite bind_Ret by reflexivity. cbn beta iota.
         exact (rw_release_held lens_ReservationLock (set_access false (set_bytes b v1)) true _ eq_refl). }
    cbn beta iota. by rewrite lset_lset.
  - apply unlocked_done; [apply vm_frame_bytes|done].
Qed.
End Free.

(** * Initialisation *)
Section SpaceInit.
Implicit Types (s : VM).

Lemma twenty_percent k :
  0 < k → 5 * PAGE_SIZE * k < 2 ^ 52 →
  ∀ s, CalculatePercentage (5 * PAGE_SIZE * k) RESERVATION_LIST_PERCENTAGE_IN_HUNDREDS s = Ret (PAGE_SIZE * k, s).
Proof.
  intros Hk Hb s. unfold CalculatePercentage. massert ltac:(done).
  change (RESERVATION_LIST_PERCENTAGE_IN_HUNDREDS =? 0) with false. cbn iota.
  change (MAX_QWORD / RESERVATION_LIST_PERCENTAGE_IN_HUNDREDS) with 9223372036854775.
  massert ltac:(apply Z.leb_le; lia). unfold RESERVATION_LIST_PERCENTAGE_IN_HUNDREDS, u64, PAGE_SIZE in *.
  rewrite Z.mod_small by lia. replace (5 * 4096 * k * (20 * 100)) with (4096 * k * 10000) by lia.
  by rewrite Z.div_mul.
Qed.

(** Metadata of five times [k] pages, its last four fifths mapped, becomes an empty
    reservation space: a fifth of it is the list, whose first entry is the last one, and
    allocations start behind the metadata unless a base address is given. *)
Theorem VmReservationSpaceInit_empty s md base k e es spare (size := 5 * PAGE_SIZE * k) :
  0 < md → md mod PAGE_SIZE = 0 → 0 < k → size < 2 ^ 52 → md + size < 2 ^ 64 →
  vm_entries s = e :: es → length es = spare →
  sizeof_VMM_RESERVATION * Z.of_nat (S spare) ≤ PAGE_SIZE * k →
  mapped (vm_bytes s) (md + PAGE_SIZE * k) (4 * PAGE_SIZE * k) →
  ∃ s', (VmReservationSpaceInit md base size;; VmReservationSpaceFinishInit) s = Ret (tt, s')
    ∧ vm_rep s' [] spare
    ∧ FreeVirtualAddressPointer (vm_space s') = (if base =? NULL then md + size else base)
    ∧ StartOfVirtualAddressSpace (vm_space s') = FreeVirtualAddressPointer (vm_space s').
Proof.
  intros Hmd Hal Hk Hsz Hend Hes Hsp Hlist Hmap.
  assert (Hpk : PAGE_SIZE * k ≤ size) by (unfold size, PAGE_SIZE; lia).
  set (va := if base =? NULL then md + size else base).
  exists (mkVM (mkSpace va va (md + PAGE_SIZE * k) size RW_zero (md + PAGE_SIZE * k) md)
    (with_State VmmReservationStateLast e :: es) (vm_bytes s) (vm_rflags s) (vm_apic s) (vm_access s)).
  split; [|split; [split; [done|]|done]].
  - unfold VmReservationSpaceInit. rewrite !bind_assoc.
    massert ltac:(apply negb_true_iff, Z.eqb_neq; unfold NULL; lia). rewrite bind_assoc.
    massert ltac:(apply va_page_aligned; [lia|done]). rewrite bind_assoc.
    massert ltac:(apply negb_true_iff, Z.eqb_neq; unfold size, PAGE_SIZE; lia). rewrite bind_assoc.
    mrun (twenty_percent k Hk Hsz s). rewrite bind_assoc. unfold PtrOffset, u64.
    rewrite !Z.mod_small by lia. erewrite bind_Ret by reflexivity. cbn beta iota.
    erewrite bind_Ret by reflexivity. cbn beta iota.
    unfold VmReservationSpaceFinishInit. erewrite set_State_run; [|cbn; rewrite Hes; reflexivity].
    cbn. by rewrite Hes.
  - unfold size, PAGE_SIZE in *. split; cbn; try (by intros []); try done.
    + split; cbn; try lia.
      * unfold PAGE_SIZE. rewrite Z.add_mod, Hal by done. replace (4096 * k) with (k * 4096) by lia. by rewrite Z.mod_mul.
      * by replace (md + 5 * 4096 * k - (md + 4096 * k)) with (4 * 4096 * k) by lia.
    + by rewrite Hsp.
    + unfold entry_ptr. cbn [ReservationList length]. rewrite Hsp. lia.
    + by eexists.
Qed.
End SpaceInit.

(** * Reservation spaces of five pages of metadata, at any address *)
Module VmExample.
Definition room0 (md : Z) : gmap Z Z := store ∅ (md + 0x1000) (replicate (Z.to_nat 0x4000) 0).
Definition space (md va_pages bm_pages : Z) : VMM_RESERVATION_SPACE :=
  mkSpace (md + 0x5000 + va_pages * 0x1000) (md + 0x5000) (md + 0x1000) 0x5000 RW_zero
    (md + 0x1000 + bm_pages * 0x1000) md.
Definition last : VMM_RESERVATION := with_State VmmReservationStateLast VMM_RESERVATION_zero.
(** Nothing reserved; and two pages reserved, the first one committed. *)
Definition empty_vm (md : Z) : VM :=
  mkVM (space md 0 0) [last; VMM_RESERVATION_zero; VMM_RESERVATION_zero] (room0 md) 0x2 0 (Some false).
Definition one_entry (md : Z) : VMM_RESERVATION :=
  mkRes (md + 0x5000) 0x2000 PAGE_RIGHTS_READWRITE VmmReservationStateUsed false 0 (mkBITMAP 2 1 (md + 0x1000)).
Definition one_region (md : Z) : region :=
  mkReg (md + 0x5000) [true; false] PAGE_RIGHTS_READWRITE false 0 (md + 0x1000).
Definition region_vm (md : Z) : VM :=
  mkVM (space md 2 1) [one_entry md; last; VMM_RESERVATION_zero] (<[md + 0x1000 := 1]> (room0 md)) 0x2 0 (Some false).

Record base_ok (md : Z) : Prop := {
  bo_pos : 0 < md;
  bo_aligned : md mod PAGE_SIZE = 0;
  bo_end : md + 0x7000 < 2 ^ 64
}.
Lemma room0_mapped md q : md + 0x1000 ≤ q < md + 0x5000 → is_Some (room0 md !! q).
Proof.
  intros Hq. pose proof (store_at ∅ (md + 0x1000) (replicate (Z.to_nat 0x4000) 0)) as Hs.
  apply bytes_at_mapped in Hs. rewrite length_map, length_replicate in Hs. apply Hs. lia.
Qed.
Lemma space_space_ok md va_pages bm_pages b :
  base_ok md → 0 ≤ bm_pages ≤ 4 → mapped b (md + 0x1000) 0x4000 → space_ok (space md va_pages bm_pages) b.
Proof.
  intros [B1 B2 B3] Hbm Hb. split; cbn; try lia.
  - unfold PAGE_SIZE in *. rewrite <-Z.add_assoc, <-Z.add_mod_idemp_l, B2 by done.
    replace (0 + (0x1000 + bm_pages * 0x1000)) with ((1 + bm_pages) * 4096) by lia. by apply Z.mod_mul.
  - intros q Hq. apply Hb. lia.
Qed.
Lemma empty_vm_rep md : base_ok md → vm_rep (empty_vm md) [] 2.
Proof.
  intros Hb. split; [done|]. split; try done; try (by intros []).
  - apply space_space_ok; [done|lia|]. intros q Hq. apply room0_mapped. lia.
  - cbn. unfold entry_ptr, sizeof_VMM_RESERVATION. cbn. lia.
  - by eexists.
Qed.
Lemma region_vm_rep md : base_ok md → vm_rep (region_vm md) [Some (one_region md)] 1.
Proof.
  intros Hb. pose proof Hb as [B1 B2 B3]. split; [done|]. split; try done; try (by intros []).
  - apply space_space_ok; [done|lia|]. intros q Hq.
    destruct (decide (q = md + 0x1000)) as [->|]; cbn; [by rewrite lookup_insert_eq|].
    rewrite lookup_insert_ne by lia. apply room0_mapped. lia.
  - cbn. unfold entry_ptr, sizeof_VMM_RESERVATION. cbn. lia.
  - by eexists.
  - intros [|[]] o Hi; [|done..]. simpl in Hi. simplify_eq. exists (one_entry md). split; [done|].
    cbn. split_and!; try done. split; cbn; try (unfold NULL; lia || done).
    intros [|[|[]]] v Hv; simpl in Hv; simplify_eq; exists 1;
      (split_and!; [by rewrite (Z.add_0_r (md + _)), lookup_insert_eq|unfold byte_ok; lia..|done]).
  - intros [|[]] r Hi; [|done..]. simpl in Hi. simplify_eq. unfold PAGE_SIZE in *.
    assert (Hal : ∀ k, (md + k * 4096) mod 4096 = 0) by (intros k; by rewrite Z.mod_add).
    split; split_and?; cbn; try lia.
    + split; cbn; unfold r_end, r_size, MAX_DWORD, PAGE_SIZE; cbn; try lia. apply (Hal 5).
    + split_and!; cbn; [apply (Hal 1)|lia|unfold r_buffer_end].
      change ((Z.of_nat (length (r_commit (one_region md))) - 1) / 8) with 0. cbn. lia.
  - intros [|[]] [|[]] ? ? Hij Hi Hj; done.
Qed.

(** The metadata of the kernel lies in the upper half of the address space, where the physical
    memory is mapped (PA2VA); that of a process below it. *)
Definition PA_2_VA_DIFFERENCE : Z := 0xFFFF800000000000.
Definition kernel_md : Z := PA_2_VA_DIFFERENCE + 0x100000.
Definition process_md : Z := 0x100000.
Lemma kernel_md_ok : base_ok kernel_md.
Proof. by split. Qed.
Lemma process_md_ok : base_ok process_md.
Proof. by split. Qed.
Definition vm0 : VM := empty_vm kernel_md.
Definition vm1 : VM := region_vm process_md.
Definition r1 : region := one_region process_md.
Definition kernel_vm1 : VM := region_vm kernel_md.
Definition kernel_r1 : region := one_region kernel_md.
Lemma vm0_rep : vm_rep vm0 [] 2.
Proof. apply empty_vm_rep, kernel_md_ok. Qed.
Lemma vm1_rep : vm_rep vm1 [Some r1] 1.
Proof. apply region_vm_rep, process_md_ok. Qed.
Lemma kernel_vm1_rep : vm_rep kernel_vm1 [Some kernel_r1] 1.
Proof. apply region_vm_rep, kernel_md_ok. Qed.

(** VmmInit: 5 TB of metadata, here one page below the first GB of the mapped memory; every byte
    of the last four of them can be accessed (the fault handler maps them when they are touched). *)
Definition VMM_SIZE_FOR_RESERVATION_METADATA : Z := 5 * 2 ^ 40.
Definition boot_md : Z := PA_2_VA_DIFFERENCE + 0x40000000 - PAGE_SIZE.
Definition boot_bytes : gmap Z Z := store ∅ (boot_md + 2 ^ 40) (replicate (Z.to_nat (4 * 2 ^ 40)) 0).
Lemma boot_bytes_mapped : mapped boot_bytes (boot_md + 2 ^ 40) (4 * 2 ^ 40).
Proof.
  unfold boot_bytes. generalize (4 * 2 ^ 40), (eq_refl : (0 <=? 4 * 2 ^ 40) = true). intros n Hn%Z.leb_le q Hq.
  pose proof (store_at ∅ (boot_md + 2 ^ 40) (replicate (Z.to_nat n) 0)) as Hs.
  apply bytes_at_mapped in Hs. rewrite length_map, length_replicate in Hs. apply Hs. lia.
Qed.
#[local] Opaque boot_bytes.
Definition boot_vm : VM :=
  mkVM (mkSpace 0 0 0 0 RW_zero 0 0) [VMM_RESERVATION_zero; VMM_RESERVATION_zero; VMM_RESERVATION_zero] boot_bytes 0x2 0 None.
Lemma VmReservationSpaceInit_empty_witness : ∃ s',
  (VmReservationSpaceInit boot_md NULL VMM_SIZE_FOR_RESERVATION_METADATA;; VmReservationSpaceFinishInit) boot_vm
    = Ret (tt, s')
  ∧ vm_rep s' [] 2 ∧ FreeVirtualAddressPointer (vm_space s') = 0xFFFF85003FFFF000.
Proof.
  destruct (VmReservationSpaceInit_empty boot_vm boot_md NULL (2 ^ 28) VMM_RESERVATION_zero
    [VMM_RESERVATION_zero; VMM_RESERVATION_zero] 2)
    as (s' & Hr & Hrep & Hva & _); [reflexivity..|discriminate|exact boot_bytes_mapped|].
  exists s'. split; [exact Hr|]. split; [exact Hrep|exact Hva].
Defined.
(** In the kernel's half of the address space. *)
Lemma VmReservationSpaceAllocRegion_reserves_witness : ∃ s' spare,
  VmReservationSpaceAllocRegion 4 NULL 5000 3 PAGE_RIGHTS_READWRITE false NULL vm0
    = Ret ((STATUS_SUCCESS, Some (0xFFFF800000105000, 0x2000)), s')
  ∧ vm_rep s' [Some (with_commit [true; true] kernel_r1)] spare.
Proof.
  destruct (VmReservationSpaceAllocRegion_reserves 4 vm0 [] 2 5000 true PAGE_RIGHTS_READWRITE false NULL vm0_rep)
    as (s' & spare & Hr & _ & _ & [Hd _ _ _] & _); [simpl; lia|lia|by split|by intros []|unfold room; simpl; lia|done|].
  exists s', spare. split; [exact Hr|exact Hd].
Defined.
Lemma VmReservationSpaceAllocRegion_commits_witness : ∃ s',
  VmReservationSpaceAllocRegion 4 0xFFFF800000106010 0x20 VMM_ALLOC_TYPE_COMMIT PAGE_RIGHTS_READWRITE false NULL kernel_vm1
    = Ret ((STATUS_SUCCESS, Some (0xFFFF800000106000, 0x1000)), s')
  ∧ vm_rep s' [Some (with_commit [true; true] kernel_r1)] 1.
Proof.
  destruct (VmReservationSpaceAllocRegion_commits 4 kernel_vm1 [Some kernel_r1] 1 0xFFFF800000106010 0x20
    PAGE_RIGHTS_READWRITE false NULL kernel_vm1_rep) as (s' & Hr & [Hd _ _ _] & _); [simpl; lia|lia|lia|by split|].
  exists s'. split; [exact Hr|exact Hd].
Defined.
Lemma VmReservationCanAddressBeAccessed_decides_witness : ∃ s',
  VmReservationCanAddressBeAccessed 4 0xFFFF800000105008 PAGE_RIGHTS_WRITE kernel_vm1
    = Ret ((true, Some (PAGE_RIGHTS_READWRITE, false, NULL, 0)), s') ∧ vm_rep s' [Some kernel_r1] 1.
Proof.
  destruct (VmReservationCanAddressBeAccessed_decides 4 kernel_vm1 [Some kernel_r1] 1 0xFFFF800000105008
    PAGE_RIGHTS_WRITE kernel_vm1_rep) as (s' & Hr & Hd & _); [done|simpl; lia|lia|lia|].
  exists s'. split; [exact Hr|exact Hd].
Defined.
(** An unmapping that asserts what the code asserts and then loses the bytes of the pages; a close
    that always succeeds. *)
Definition unmap0 (p n : Z) : M VM unit :=
  ASSERT (negb (p =? NULL));; ASSERT (negb (n =? 0));;
  modify (λ v, set_bytes (filter (λ kv,
    ¬ (p ≤ kv.1 < p + PAGE_SIZE * ((n + PAGE_SIZE - 1) / PAGE_SIZE))) (vm_bytes v)) v).
Definition close0 (f : Z) : M VM Z := mret STATUS_SUCCESS.
Lemma release_calls0 : ∃ s1, release_calls id_lens unmap0 close0 kernel_vm1 s1 0 kernel_r1.
Proof.
  eexists. split.
  - unfold unmap0. massert ltac:(reflexivity). massert ltac:(reflexivity). reflexivity.
  - eexists _, _. split; [|split].
    + cbn. reflexivity.
    + done.
    + intros q Hq. cbn. rewrite map_lookup_filter. destruct (_ !! q); cbn; [|done]. by rewrite option_guard_True.
  - by intros [].
Qed.
Lemma VmReservationSpaceFreeRegion_releases_witness : ∃ s',
  VmReservationSpaceFreeRegion 4 id_lens unmap0 close0 0xFFFF800000105000 0 VMM_FREE_TYPE_RELEASE kernel_vm1
    = Ret ((0xFFFF800000105000, 0x2000), s') ∧ vm_rep s' [None] 1.
Proof.
  destruct release_calls0 as [s1 Hcalls].
  destruct (VmReservationSpaceFreeRegion_releases 4 id_lens unmap0 close0 kernel_vm1 s1 [Some kernel_r1] 1
    0xFFFF800000105000 O kernel_r1) as (s' & Hr & [Hd _ _ _] & _);
    [exact kernel_vm1_rep|simpl; lia|lia|lia|reflexivity|reflexivity|exact Hcalls|].
  exists s'. split; [exact Hr|exact Hd].
Defined.
Lemma VmReservationSpaceFreeRegion_decommits_witness : ∃ s',
  VmReservationSpaceFreeRegion 4 id_lens unmap0 close0 0xFFFF800000105010 8 VMM_FREE_TYPE_DECOMMIT kernel_vm1
    = Ret ((0xFFFF800000105000, 0x1000), s') ∧ vm_rep s' [Some (with_commit [false; false] kernel_r1)] 1.
Proof.
  destruct (VmReservationSpaceFreeRegion_decommits 4 id_lens unmap0 close0 kernel_vm1 [Some kernel_r1] 1
    0xFFFF800000105010 8 O kernel_r1 kernel_vm1_rep) as (s' & Hr & [Hd _ _ _]);
    [simpl; lia|lia|lia|lia|reflexivity|reflexivity|split; [by split|reflexivity]|].
  exists s'. split; [exact Hr|exact Hd].
Defined.

(** The result of a run, without the state. *)
Definition answer {A} (o : outcome (A * VM)) : option A := match o with Ret (a, _) => Some a | _ => None end.
(** Three pages that contain the region are reserved although it is there: only a
    reservation that contains the whole new range is noticed. *)
Example overlap_accepted :
  answer (VmReservationSpaceAllocRegion 4 0x105000 0x3000 VMM_ALLOC_TYPE_RESERVE PAGE_RIGHTS_READ false NULL vm1)
  = Some (STATUS_SUCCESS, Some (0x105000, 0x3000)).
Proof. by vm_compute. Qed.
(** The second page is not committed, yet a range that ends in it is reported as committed. *)
Example rights_miss_last_page :
  answer (VmReservationReturnRightsForAddress 4 0x105800 0x1000 vm1) = Some (STATUS_SUCCESS, Some PAGE_RIGHTS_READWRITE).
Proof. by vm_compute. Qed.
(** The page that is asked for is not committed: the rights are written all the same. *)
Example rights_uncommitted :
  answer (VmReservationReturnRightsForAddress 4 0x106000 0x1000 vm1)
  = Some (STATUS_MEMORY_IS_NOT_COMMITED, Some PAGE_RIGHTS_READWRITE).
Proof. by vm_compute. Qed.
End VmExample.
