(* ===== verification/BitField.v ===== *)
(** Bit-fields of the C structures: a field is its first bit and its width, a structure the
    integer it is stored in. *)
From S2P Require Import Prelude.

Definition bitfield : Type := Z * Z.
Definition get_field (f : bitfield) (x : Z) : Z := Z.land (Z.shiftr x f.1) (Z.ones f.2).
Definition set_field (f : bitfield) (v x : Z) : Z :=
  Z.lor (Z.ldiff x (Z.shiftl (Z.ones f.2) f.1)) (Z.shiftl (Z.land v (Z.ones f.2)) f.1).
(** A flag stored as one bit. *)
Definition bit (b : bool) : Z := if b then 1 else 0.

(** The fields of a structure of [w] bits; fields that share no bit. *)
Definition field_ok (w : Z) (f : bitfield) : Prop := 0 ≤ f.1 ∧ 0 < f.2 ∧ f.1 + f.2 ≤ w.
Definition disjoint_fields (f g : bitfield) : Prop := f.1 + f.2 ≤ g.1 ∨ g.1 + g.2 ≤ f.1.

Lemma testbit_get_field f x n :
  0 ≤ f.1 → 0 ≤ f.2 → 0 ≤ n →
  Z.testbit (get_field f x) n = (n <? f.2) && Z.testbit x (f.1 + n).
Proof.
  intros Hf Hw Hn. unfold get_field. rewrite Z.land_spec, Z.shiftr_spec by done.
  rewrite (Z.add_comm n), andb_comm. f_equal. destruct (Z.ltb_spec n f.2).
  - apply Z.ones_spec_low. lia.
  - apply Z.ones_spec_high. lia.
Qed.

Lemma testbit_set_field f v x n :
  0 ≤ f.1 → 0 < f.2 → 0 ≤ n →
  Z.testbit (set_field f v x) n =
  if (f.1 <=? n) && (n <? f.1 + f.2) then Z.testbit v (n - f.1) else Z.testbit x n.
Proof.
  intros Hf Hw Hn. unfold set_field. rewrite Z.lor_spec, Z.ldiff_spec, !Z.shiftl_spec by lia.
  destruct (Z.leb_spec f.1 n); cbn [andb].
  - rewrite Z.land_spec. destruct (Z.ltb_spec n (f.1 + f.2)).
    + rewrite Z.ones_spec_low by lia. cbn. by rewrite andb_false_r, andb_true_r.
    + rewrite Z.ones_spec_high by lia. cbn. by rewrite andb_true_r, andb_false_r, orb_false_r.
  - rewrite !(Z.testbit_neg_r _ (n - f.1)) by lia. cbn. by rewrite andb_true_r, orb_false_r.
Qed.

(** Reading back what was written, and what a write leaves alone. *)
Lemma get_set_field f v x :
  0 ≤ f.1 → 0 < f.2 → get_field f (set_field f v x) = v mod 2 ^ f.2.
Proof.
  intros Hf Hw. rewrite <-Z.land_ones by lia. apply Z.bits_inj'. intros n Hn.
  rewrite testbit_get_field, testbit_set_field by lia. rewrite Z.land_spec.
  replace (f.1 + n - f.1) with n by lia. rewrite (proj2 (Z.leb_le f.1 (f.1 + n))) by lia.
  destruct (Z.ltb_spec n f.2); cbn.
  - rewrite (proj2 (Z.ltb_lt _ _)), Z.ones_spec_low by lia. by rewrite andb_true_r.
  - rewrite Z.ones_spec_high by lia. by rewrite andb_false_r.
Qed.

Lemma get_set_field_other f g v x :
  0 ≤ f.1 → 0 ≤ f.2 → 0 ≤ g.1 → 0 < g.2 → disjoint_fields f g → get_field f (set_field g v x) = get_field f x.
Proof.
  intros Hf Hfw Hg Hw Hd. apply Z.bits_inj'. intros n Hn.
  rewrite !testbit_get_field, testbit_set_field by lia.
  destruct (Z.ltb_spec n f.2); cbn; [|done].
  destruct (Z.leb_spec g.1 (f.1 + n)), (Z.ltb_spec (f.1 + n) (g.1 + g.2)); cbn; try done.
  unfold disjoint_fields in Hd. lia.
Qed.

Lemma get_field_zero f : get_field f 0 = 0.
Proof. unfold get_field. by rewrite Z.shiftr_0_l. Qed.

Lemma get_field_range f x : 0 ≤ f.2 → 0 ≤ get_field f x < 2 ^ f.2.
Proof. intros Hw. unfold get_field. rewrite Z.land_ones by done. by apply Z.mod_pos_bound, Z.pow_pos_nonneg. Qed.

Lemma get_field_div f x : 0 ≤ f.1 → 0 ≤ f.2 → get_field f x = x / 2 ^ f.1 mod 2 ^ f.2.
Proof. intros H1 H2. unfold get_field. by rewrite Z.land_ones, Z.shiftr_div_pow2. Qed.

(** A value whose bits beyond [w] are clear. *)
Lemma below_pow2 w x : 0 ≤ w → (∀ n, w ≤ n → Z.testbit x n = false) → 0 ≤ x → x < 2 ^ w.
Proof.
  intros Hw Hx H0. destruct (decide (x = 0)) as [->|]; [by apply Z.pow_pos_nonneg|].
  apply Z.log2_lt_pow2; [lia|]. destruct (Z.lt_ge_cases (Z.log2 x) w) as [|Hge]; [done|].
  exfalso. specialize (Hx (Z.log2 x) Hge). rewrite Z.bit_log2 in Hx; [done|lia].
Qed.

Lemma set_field_range w f v x :
  field_ok w f → 0 ≤ x < 2 ^ w → 0 ≤ set_field f v x < 2 ^ w.
Proof.
  intros (H1 & H2 & H3) [Hx0 Hx].
  assert (0 ≤ set_field f v x) as Hpos.
  { unfold set_field. apply Z.lor_nonneg. split.
    - apply Z.ldiff_nonneg. by left.
    - apply Z.shiftl_nonneg, Z.land_nonneg. right. rewrite Z.ones_equiv.
      pose proof (Z.pow_pos_nonneg 2 f.2). lia. }
  split; [done|]. apply below_pow2; [lia| |done]. intros n Hn.
  rewrite testbit_set_field by lia. rewrite (proj2 (Z.ltb_ge n (f.1 + f.2))), andb_false_r by lia.
  destruct (decide (x = 0)) as [->|]; [apply Z.testbit_0_l|].
  apply Z.bits_above_log2; [done|]. pose proof (proj1 (Z.log2_lt_pow2 x w ltac:(lia)) Hx). lia.
Qed.

Lemma bit_mod b : bit b mod 2 = bit b.
Proof. by destruct b. Qed.
Lemma get_field_1_testbit x k : 0 ≤ k → get_field (k, 1) x = bit (Z.testbit x k).
Proof.
  intros Hk. unfold get_field. cbn [fst snd]. rewrite Z.land_ones by done. change (2 ^ 1) with 2.
  rewrite <-Z.bit0_mod, Z.shiftr_spec by done. rewrite Z.add_0_l. by destruct (Z.testbit x k).
Qed.

(** Decide side conditions on concrete fields. *)
Ltac fields := unfold disjoint_fields, field_ok; cbn; lia.
(** Compute a field of a structure that was written field by field. *)
Ltac get_fields := repeat first
  [ rewrite get_set_field by fields | rewrite get_set_field_other by fields | rewrite get_field_zero ].
