(* ===== verification/PageTables.v ===== *)
(** HAL/src/pte.c and the walk of HAL9000/src/vmm.c: the paging structures of an address space.

    The paging structures are QWORDs by virtual address: the code reaches the table at the
    physical address pa at PA2VA(pa). A PAGING_LOCK_DATA is that of the kernel (m_mmuData) or
    that of the process that the operation works for; its lock is in MmuPaging. *)
From S2P Require Import Prelude Cpu RwSpinlock BitField.

(** HAL/inc/pte.h *)
Definition PML4_Pcide_PhysicalAddress : bitfield := (12, 40).
Definition PD_ENTRY_PT_PageSize : bitfield := (7, 1).
Definition PD_ENTRY_2MB_PageSize : bitfield := (7, 1).
Definition PD_ENTRY_2MB_PhysicalAddress : bitfield := (21, 31).
Definition PML4_ENTRY_Present : bitfield := (0, 1).
Definition PT_ENTRY_Present : bitfield := (0, 1).
Definition PT_ENTRY_ReadWrite : bitfield := (1, 1).
Definition PT_ENTRY_UserSupervisor : bitfield := (2, 1).
Definition PT_ENTRY_PWT : bitfield := (3, 1).
Definition PT_ENTRY_PCD : bitfield := (4, 1).
Definition PT_ENTRY_Accessed : bitfield := (5, 1).
Definition PT_ENTRY_Dirty : bitfield := (6, 1).
Definition PT_ENTRY_PAT : bitfield := (7, 1).
Definition PT_ENTRY_Global : bitfield := (8, 1).
Definition PT_ENTRY_PhysicalAddress : bitfield := (12, 40).
Definition PT_ENTRY_XD : bitfield := (63, 1).

Record PTE_MAP_FLAGS := mkFlags {
  PatIndex : Z;
  Writable : bool;
  Executable : bool;
  PagingStructure : bool;
  UserAccess : bool;
  GlobalPage : bool
}.

Definition PAGING_TABLES_FIRST_LEVEL : Z := 1.
Definition PAGING_TABLES_LAST_LEVEL : Z := 4.
Definition SHIFT_FOR_PHYSICAL_ADDR : Z := 12.
Definition SHIFT_FOR_LARGE_PAGE : Z := 21.
Definition PAGE_2MB_OFFSET : Z := Z.shiftl 1 21 - 1.
Definition MASK_PML4_OFFSET (va : Z) : Z := Z.land (Z.shiftr va 39) 0x1FF.
Definition MASK_PDPTE_OFFSET (va : Z) : Z := Z.land (Z.shiftr va 30) 0x1FF.
Definition MASK_PDE_OFFSET (va : Z) : Z := Z.land (Z.shiftr va 21) 0x1FF.
Definition MASK_PTE_OFFSET (va : Z) : Z := Z.land (Z.shiftr va 12) 0x1FF.

(** CommonLib/inc/base.h *)
Definition AddressOffset (addr alig : Z) : Z := Z.land addr (alig - 1).

(** HAL9000/headers/mmu.h *)
Record PAGING_DATA := mkPaging {
  BasePhysicalAddress : Z;
  NumberOfFrames : Z;
  CurrentIndex : Z;
  KernelSpace : bool
}.
Record PAGING_LOCK_DATA := mkLockData { Lock : REC_RW_SPINLOCK; Data : PAGING_DATA }.
(** The two structures a PPAGING_LOCK_DATA points to, or a PPAGING_DATA to the Data of. *)
Inductive PPAGING_DATA : Set := kernel_paging | process_paging.

(** The static data and memory: the QWORDs of the paging structures, m_vmmData's indices into
    the PAT, the two PAGING_LOCK_DATA, the pages whose translation was invalidated (the last
    one first) and the frames handed to the zero worker thread. *)
Record PAGING := mkState {
  pg_words : gmap Z Z;
  WriteBackIndex : Z;
  UncacheableIndex : Z;
  pg_kernel : PAGING_LOCK_DATA;
  pg_process : PAGING_LOCK_DATA;
  pg_invalidated : list Z;
  pg_released : list (Z * Z)
}.
Definition set_words (w : gmap Z Z) (s : PAGING) : PAGING :=
  mkState w (WriteBackIndex s) (UncacheableIndex s) (pg_kernel s) (pg_process s)
    (pg_invalidated s) (pg_released s).
Definition set_indices (wb uc : Z) (s : PAGING) : PAGING :=
  mkState (pg_words s) wb uc (pg_kernel s) (pg_process s) (pg_invalidated s) (pg_released s).
Definition lock_data (p : PPAGING_DATA) (s : PAGING) : PAGING_LOCK_DATA :=
  match p with kernel_paging => pg_kernel s | process_paging => pg_process s end.
Definition set_lock_data (p : PPAGING_DATA) (d : PAGING_LOCK_DATA) (s : PAGING) : PAGING :=
  match p with
  | kernel_paging => mkState (pg_words s) (WriteBackIndex s) (UncacheableIndex s) d (pg_process s)
      (pg_invalidated s) (pg_released s)
  | process_paging => mkState (pg_words s) (WriteBackIndex s) (UncacheableIndex s) (pg_kernel s) d
      (pg_invalidated s) (pg_released s)
  end.
Definition paging_data (p : PPAGING_DATA) (s : PAGING) : PAGING_DATA := Data (lock_data p s).
Definition set_paging_data (p : PPAGING_DATA) (d : PAGING_DATA) (s : PAGING) : PAGING :=
  set_lock_data p (mkLockData (Lock (lock_data p s)) d) s.
Definition set_invalidated (l : list Z) (s : PAGING) : PAGING :=
  mkState (pg_words s) (WriteBackIndex s) (UncacheableIndex s) (pg_kernel s) (pg_process s)
    l (pg_released s).
Definition set_released (l : list (Z * Z)) (s : PAGING) : PAGING :=
  mkState (pg_words s) (WriteBackIndex s) (UncacheableIndex s) (pg_kernel s) (pg_process s)
    (pg_invalidated s) l.

(** * Access to the paging structures *)
Definition read_qword (p : Z) : M PAGING Z :=
  s ← get; from_option_fault (pg_words s !! p).
Definition write_qword (p v : Z) : M PAGING unit :=
  s ← get;
  match pg_words s !! p with
  | Some _ => modify (set_words (<[p := v]> (pg_words s)))
  | None => fault
  end.
Definition read_field (p : Z) (f : bitfield) : M PAGING Z :=
  x ← read_qword p; mret (get_field f x).
Definition write_field (p : Z) (f : bitfield) (v : Z) : M PAGING unit :=
  x ← read_qword p; write_qword p (set_field f v x).
(** memzero of [n] QWORDs *)
Definition zero_qwords (p : Z) (n : nat) : M PAGING unit :=
  for_each n 0 (λ i, write_qword (u64 (p + 8 * i)) 0).
Definition PageInvalidateTlb (Page : Z) : M PAGING unit :=
  modify (λ s, set_invalidated (Page :: pg_invalidated s) s).

(** * HAL/src/pte.c *)
Definition PteMap (PageTable PhysicalAddress : Z) (Flags : PTE_MAP_FLAGS) : M PAGING unit :=
  ASSERT (negb (NULL =? PageTable));;
  zero_qwords PageTable 1;;
  write_field PageTable PT_ENTRY_PhysicalAddress (Z.shiftr PhysicalAddress SHIFT_FOR_PHYSICAL_ADDR);;
  write_field PageTable PT_ENTRY_Present 1;;
  write_field PageTable PT_ENTRY_ReadWrite (bit (Writable Flags));;
  write_field PageTable PT_ENTRY_XD (bit (negb (Executable Flags)));;
  write_field PageTable PT_ENTRY_UserSupervisor (bit (UserAccess Flags));;
  if negb (PagingStructure Flags) then
    write_field PageTable PT_ENTRY_PAT (Z.land (Z.shiftr (PatIndex Flags) 2) 1);;
    write_field PageTable PT_ENTRY_PCD (Z.land (Z.shiftr (PatIndex Flags) 1) 1);;
    write_field PageTable PT_ENTRY_PWT (Z.land (Z.shiftr (PatIndex Flags) 0) 1);;
    write_field PageTable PT_ENTRY_Global (bit (GlobalPage Flags))
  else mret tt.

Definition PteUnmap (PageTable : Z) : M PAGING unit :=
  ASSERT (negb (NULL =? PageTable));; zero_qwords PageTable 1.

Definition PteGetPhysicalAddress (PageTable : Z) : M PAGING Z :=
  ASSERT (negb (NULL =? PageTable));;
  pa ← read_field PageTable PT_ENTRY_PhysicalAddress;
  mret (u64 (Z.shiftl pa SHIFT_FOR_PHYSICAL_ADDR)).

Definition PteLargePageGetPhysicalAddress (PageTable : Z) : M PAGING Z :=
  ASSERT (negb (NULL =? PageTable));;
  pa ← read_field PageTable PD_ENTRY_2MB_PhysicalAddress;
  mret (u64 (Z.shiftl pa SHIFT_FOR_LARGE_PAGE)).

Definition PteIsPresent (PageTable : Z) : M PAGING bool :=
  ASSERT (negb (NULL =? PageTable));;
  p ← read_field PageTable PML4_ENTRY_Present;
  mret (1 =? p).

(** * HAL9000/src/vmm.c *)
Definition STATUS_PAT_LAYOUT_NOT_COMPATIBLE : Z := error_status MEMORY_MASK 0x8.
Definition MemoryCachingStrongUncacheable : Z := 0.
Definition MemoryCachingWriteBack : Z := 6.

Record VMM_MAP_UNMAP_PAGE_WALK_CONTEXT := mkMapContext {
  PagingData : option PPAGING_DATA;
  PhysicalAddressBase : Z;
  VirtualAddressBase : Z;
  PageRights : Z;
  Invalidate : bool;
  Uncacheable : bool;
  ReleaseMemory : bool
}.
Record VMM_RETRIEVE_PHYS_ACCESS_PAGE_WALK_CONTEXT := mkRetrieveContext {
  PhysicalAddress : Z;
  Accessed : bool;
  Dirty : bool;
  ClearAccessed : bool;
  ClearDirty : bool
}.

Section Vmm.
(** The global variable that PA2VA adds, the bound on the rounds of the walk, and mmu.c's
    MmuReleaseMemory, which hands frames to the zero worker thread. *)
Variables (gVirtualToPhysicalOffset : Z) (fuel : nat).
Variable MmuReleaseMemory : Z → Z → M PAGING unit.

Definition PA2VA (pa : Z) : Z := u64 (pa + gVirtualToPhysicalOffset).

Definition _VmRetrieveNextPhysicalAddressForPagingStructure (PagingData : PPAGING_DATA) : M PAGING Z :=
  d ← gets (paging_data PagingData);
  let currentIndex := CurrentIndex d in
  ASSERT (currentIndex <? NumberOfFrames d);;
  let nextAddress := u64 (BasePhysicalAddress d + u32 (currentIndex * PAGE_SIZE)) in
  modify (set_paging_data PagingData
    (mkPaging (BasePhysicalAddress d) (NumberOfFrames d) (u32 (CurrentIndex d + 1)) (KernelSpace d)));;
  mret nextAddress.

Definition _VmSetupPagingStructure (PagingData : PPAGING_DATA) (PagingStructure : Z) : M PAGING unit :=
  ASSERT (negb (NULL =? PagingStructure));;
  physicalAddr ← _VmRetrieveNextPhysicalAddressForPagingStructure PagingData;
  k ← gets (λ s, KernelSpace (paging_data PagingData s));
  let flags := mkFlags 0 true true true (negb k) false in
  PteMap PagingStructure physicalAddr flags;;
  PageInvalidateTlb (PA2VA physicalAddr);;
  zero_qwords (PA2VA physicalAddr) 512.

(** The loop over the bytes of the MSR; a variable that is not set keeps its value. *)
Definition _VmDeterminePatIndices (PatValues WbIndex UcIndex : Z) : M PAGING (bool * (Z * Z)) :=
  '(bFoundWb, bFoundUc, WbIndex, UcIndex) ←
    for_fold 8 0 (false, false, WbIndex, UcIndex) (λ i '(bFoundWb, bFoundUc, WbIndex, UcIndex),
      let value := u8 (Z.shiftr PatValues (8 * i)) in
      mret (
        if MemoryCachingStrongUncacheable =? value then
          if negb bFoundUc then (bFoundWb, true, WbIndex, i) else (bFoundWb, bFoundUc, WbIndex, UcIndex)
        else if MemoryCachingWriteBack =? value then
          if negb bFoundWb then (true, bFoundUc, i, UcIndex) else (bFoundWb, bFoundUc, WbIndex, UcIndex)
        else (bFoundWb, bFoundUc, WbIndex, UcIndex)));
  mret (bFoundWb && bFoundUc, (WbIndex, UcIndex)).

(** The PAT is read from the MSR. *)
Definition VmmPreparePagingData (ia32PatValues : Z) : M PAGING Z :=
  wb ← gets WriteBackIndex; uc ← gets UncacheableIndex;
  '(bResult, (wb, uc)) ← _VmDeterminePatIndices ia32PatValues wb uc;
  modify (set_indices wb uc);;
  mret (if negb bResult then STATUS_PAT_LAYOUT_NOT_COMPATIBLE else STATUS_SUCCESS).

(** The four levels of one page: [offsets] are those still to come, the first of them is the
    index into the table at [curStructPa], which is of level [i]. *)
Fixpoint walk_levels {C} (Cr3 : Z) (WalkCallback : Z → Z → Z → Z → C → M PAGING (bool * C))
    (currentVa : Z) (offsets : list Z) (i curStructPa : Z) (Context : C) : M PAGING C :=
  match offsets with
  | [] => mret Context
  | offset :: offsets' =>
      let pCurrentEntry := u64 (PA2VA curStructPa + 8 * offset) in
      '(bContinue, Context) ← WalkCallback Cr3 pCurrentEntry currentVa i Context;
      if negb (bContinue : bool) then mret Context else
      (if negb (i =? PAGING_TABLES_LAST_LEVEL) then
         ps ← read_field pCurrentEntry PD_ENTRY_PT_PageSize; ASSERT (ps =? 0)
       else mret tt);;
      curStructPa ← PteGetPhysicalAddress pCurrentEntry;
      walk_levels Cr3 WalkCallback currentVa offsets' (i + 1) curStructPa Context
  end.

Definition _VmWalkPagingTables {C} (Cr3 BaseAddress Size : Z)
    (WalkCallback : Z → Z → Z → Z → C → M PAGING (bool * C)) (Context : C) : M PAGING C :=
  loop fuel (λ '(offset, Context),
    if negb (offset <? Size) then mret (inr Context) else
    let currentVa := PtrOffset BaseAddress offset in
    let offsets := [MASK_PML4_OFFSET currentVa; MASK_PDPTE_OFFSET currentVa;
                    MASK_PDE_OFFSET currentVa; MASK_PTE_OFFSET currentVa] in
    let curStructPa := u64 (Z.shiftl (get_field PML4_Pcide_PhysicalAddress Cr3) SHIFT_FOR_PHYSICAL_ADDR) in
    Context ← walk_levels Cr3 WalkCallback currentVa offsets PAGING_TABLES_FIRST_LEVEL curStructPa Context;
    mret (inl (u64 (offset + PAGE_SIZE), Context))) (0, Context).

Definition is_level (PageLevel : Z) : bool :=
  (PAGING_TABLES_FIRST_LEVEL <=? PageLevel) && (PageLevel <=? PAGING_TABLES_LAST_LEVEL).

Definition _VmMapPage (Cr3 PageTable VirtualAddress PageLevel : Z)
    (Context : VMM_MAP_UNMAP_PAGE_WALK_CONTEXT)
    : M PAGING (bool * VMM_MAP_UNMAP_PAGE_WALK_CONTEXT) :=
  ASSERT (negb (PageTable =? NULL));;
  ASSERT (negb (VirtualAddress =? NULL));;
  ASSERT (is_level PageLevel);;
  present ← PteIsPresent PageTable;
  if present && negb ((PageLevel =? PAGING_TABLES_LAST_LEVEL) && Invalidate Context)
  then mret (true, Context) else
  pd ← from_option_fault (PagingData Context);
  (if PageLevel =? PAGING_TABLES_LAST_LEVEL then
     let physAddr := PtrOffset (PhysicalAddressBase Context)
       (PtrDiff VirtualAddress (VirtualAddressBase Context)) in
     d ← gets (paging_data pd);
     index ← gets (if Uncacheable Context then UncacheableIndex else WriteBackIndex);
     let flags := mkFlags (Z.land index 7)
       (IsBooleanFlagOn (PageRights Context) PAGE_RIGHTS_WRITE)
       (IsBooleanFlagOn (PageRights Context) PAGE_RIGHTS_EXECUTE)
       false (negb (KernelSpace d)) (KernelSpace d) in
     PteMap PageTable physAddr flags;;
     PageInvalidateTlb VirtualAddress
   else _VmSetupPagingStructure pd PageTable);;
  mret (true, Context).

Definition _VmUnmapPage (Cr3 PageTable VirtualAddress PageLevel : Z)
    (Context : VMM_MAP_UNMAP_PAGE_WALK_CONTEXT)
    : M PAGING (bool * VMM_MAP_UNMAP_PAGE_WALK_CONTEXT) :=
  ASSERT (negb (PageTable =? NULL));;
  ASSERT (negb (VirtualAddress =? NULL));;
  ASSERT (is_level PageLevel);;
  present ← PteIsPresent PageTable;
  if negb present then mret (false, Context) else
  (if PageLevel =? PAGING_TABLES_LAST_LEVEL then
     pa ← PteGetPhysicalAddress PageTable;
     PteUnmap PageTable;;
     PageInvalidateTlb VirtualAddress;;
     (if ReleaseMemory Context then MmuReleaseMemory pa 1 else mret tt)
   else mret tt);;
  mret (true, Context).

(** The part of _VmRetrievePhyAccess's __finally that runs when a page was found. *)
Definition retrieve_access (PageTable VirtualAddress : Z)
    (Context : VMM_RETRIEVE_PHYS_ACCESS_PAGE_WALK_CONTEXT)
    : M PAGING VMM_RETRIEVE_PHYS_ACCESS_PAGE_WALK_CONTEXT :=
  a ← read_field PageTable PT_ENTRY_Accessed;
  d ← read_field PageTable PT_ENTRY_Dirty;
  (if ClearAccessed Context then write_field PageTable PT_ENTRY_Accessed 0 else mret tt);;
  (if ClearDirty Context then write_field PageTable PT_ENTRY_Dirty 0 else mret tt);;
  (if ClearAccessed Context || ClearDirty Context then PageInvalidateTlb VirtualAddress else mret tt);;
  mret (mkRetrieveContext (PhysicalAddress Context) (a =? 1) (d =? 1)
    (ClearAccessed Context) (ClearDirty Context)).

Definition with_PhysicalAddress (pa : Z) (c : VMM_RETRIEVE_PHYS_ACCESS_PAGE_WALK_CONTEXT)
    : VMM_RETRIEVE_PHYS_ACCESS_PAGE_WALK_CONTEXT :=
  mkRetrieveContext pa (Accessed c) (Dirty c) (ClearAccessed c) (ClearDirty c).

Definition _VmRetrievePhyAccess (Cr3 PageTable VirtualAddress PageLevel : Z)
    (Context : VMM_RETRIEVE_PHYS_ACCESS_PAGE_WALK_CONTEXT)
    : M PAGING (bool * VMM_RETRIEVE_PHYS_ACCESS_PAGE_WALK_CONTEXT) :=
  ASSERT (negb (PageTable =? NULL));;
  ASSERT (negb (VirtualAddress =? NULL));;
  ASSERT (is_level PageLevel);;
  present ← PteIsPresent PageTable;
  if negb present then mret (false, with_PhysicalAddress NULL Context) else
  if PageLevel <? PAGING_TABLES_LAST_LEVEL - 1 then mret (true, Context) else
  '(bContinue, Context) ←
    (if PageLevel =? PAGING_TABLES_LAST_LEVEL - 1 then
       ps ← read_field PageTable PD_ENTRY_2MB_PageSize;
       if ps =? 1 then
         pa ← PteLargePageGetPhysicalAddress PageTable;
         mret (false, with_PhysicalAddress
           (PtrOffset pa (AddressOffset VirtualAddress (PAGE_2MB_OFFSET + 1))) Context)
       else mret (true, Context)
     else
       ASSERT (PageLevel =? PAGING_TABLES_LAST_LEVEL);;
       pa ← PteGetPhysicalAddress PageTable;
       mret (false, with_PhysicalAddress pa Context));
  if negb (bContinue : bool) then
    Context ← retrieve_access PageTable VirtualAddress Context;
    mret (bContinue, Context)
  else mret (bContinue, Context).

Definition VmmMapMemoryInternal (PagingData : option PPAGING_DATA) (PhysicalAddress Size BaseAddress
    PageRights : Z) (Invalidate Uncacheable : bool) : M PAGING unit :=
  pd ← (match PagingData with Some pd => mret pd | None => λ _, Panic end);
  ASSERT (IsAddressAligned PhysicalAddress PAGE_SIZE);;
  ASSERT (negb (0 =? Size) && IsAddressAligned Size PAGE_SIZE);;
  let ctx := mkMapContext PagingData PhysicalAddress BaseAddress PageRights Invalidate Uncacheable false in
  cr3 ← gets (λ s, BasePhysicalAddress (paging_data pd s));
  _VmWalkPagingTables cr3 BaseAddress Size _VmMapPage ctx;;
  mret tt.

Definition VmmUnmapMemoryEx (Cr3 VirtualAddress Size : Z) (ReleaseMemory : bool) : M PAGING unit :=
  if (NULL =? VirtualAddress) || negb (IsAddressAligned VirtualAddress PAGE_SIZE) then mret tt else
  if (0 =? Size) || negb (IsAddressAligned Size PAGE_SIZE) then mret tt else
  let ctx := mkMapContext None 0 0 0 false false ReleaseMemory in
  _VmWalkPagingTables Cr3 VirtualAddress Size _VmUnmapPage ctx;;
  mret tt.

(** The optional results Accessed and Dirty are asked for with [true]. *)
Definition VmmGetPhysicalAddressEx (Cr3 VirtualAddress : Z) (Accessed_ Dirty_ : bool)
    : M PAGING (Z * option bool * option bool) :=
  ASSERT (negb (NULL =? VirtualAddress));;
  ASSERT (IsAddressAligned VirtualAddress PAGE_SIZE);;
  ctx ← _VmWalkPagingTables Cr3 VirtualAddress PAGE_SIZE _VmRetrievePhyAccess
    (mkRetrieveContext 0 false false Accessed_ Dirty_);
  mret (PhysicalAddress ctx, (if Accessed_ then Some (Accessed ctx) else None),
    (if Dirty_ then Some (Dirty ctx) else None)).

Definition VmmSetupPageTables (PagingDataWhereToMap PagingData : PPAGING_DATA)
    (BasePhysicalAddress_ FramesReserved : Z) (KernelStructures : bool) : M PAGING Z :=
  ASSERT (negb (BasePhysicalAddress_ =? NULL));;
  ASSERT (negb (FramesReserved =? 0));;
  let pBaseVirtualAddress := PA2VA BasePhysicalAddress_ in
  ASSERT (FramesReserved <=? MAX_DWORD / PAGE_SIZE);;
  let sizeReservedForPagingStructures := u32 (FramesReserved * PAGE_SIZE) in
  modify (set_paging_data PagingData
    (mkPaging BasePhysicalAddress_ FramesReserved 1 KernelStructures));;
  VmmMapMemoryInternal (Some PagingDataWhereToMap) BasePhysicalAddress_
    sizeReservedForPagingStructures pBaseVirtualAddress PAGE_RIGHTS_READWRITE true false;;
  (match PagingDataWhereToMap, PagingData with
   | kernel_paging, kernel_paging | process_paging, process_paging => mret tt
   | _, _ => zero_qwords pBaseVirtualAddress 512
   end);;
  mret STATUS_SUCCESS.
End Vmm.
