(* ===== verification/PageTablesSpec.v ===== *)
(** What the paging structures of PageTables mean and what its operations do to them.

    [hw_walk] is the walk of the processor over the four levels. [tables] describes a tree of
    tables in the frames of a PAGING_DATA: which frame holds which table, and that the entries
    point to their tables. Under it, mapping and unmapping change the translation of the pages
    they are asked for and of no other page. *)
From S2P Require Import Prelude Cpu RwSpinlock BitField PageTables.

#[local] Ltac Zify.zify_post_hook ::= Z.to_euclidean_division_equations.

(** * The entries *)
Definition present (e : Z) : bool := Z.testbit e 0.
Definition large (e : Z) : bool := Z.testbit e 7.
Definition frame_of (e : Z) : Z := get_field PT_ENTRY_PhysicalAddress e.
Arguments present : simpl never.
Arguments large : simpl never.
Arguments frame_of : simpl never.
Definition qword_ok (x : Z) : Prop := 0 ≤ x < 2 ^ 64.

(** The entry that PteMap writes. *)
Definition pte_value (pa : Z) (f : PTE_MAP_FLAGS) : Z :=
  let e := set_field PT_ENTRY_PhysicalAddress (Z.shiftr pa SHIFT_FOR_PHYSICAL_ADDR) 0 in
  let e := set_field PT_ENTRY_Present 1 e in
  let e := set_field PT_ENTRY_ReadWrite (bit (Writable f)) e in
  let e := set_field PT_ENTRY_XD (bit (negb (Executable f))) e in
  let e := set_field PT_ENTRY_UserSupervisor (bit (UserAccess f)) e in
  if PagingStructure f then e else
  let e := set_field PT_ENTRY_PAT (Z.land (Z.shiftr (PatIndex f) 2) 1) e in
  let e := set_field PT_ENTRY_PCD (Z.land (Z.shiftr (PatIndex f) 1) 1) e in
  let e := set_field PT_ENTRY_PWT (Z.land (Z.shiftr (PatIndex f) 0) 1) e in
  set_field PT_ENTRY_Global (bit (GlobalPage f)) e.

Arguments pte_value : simpl never.

Lemma pte_value_ok pa f : qword_ok (pte_value pa f).
Proof.
  unfold pte_value, qword_ok. cbv zeta.
  destruct (PagingStructure f); repeat (apply set_field_range; [fields|]); lia.
Qed.
Lemma pte_value_present pa f : present (pte_value pa f) = true.
Proof.
  assert (get_field PT_ENTRY_Present (pte_value pa f) = 1) as Hp.
  { unfold pte_value. destruct (PagingStructure f); by get_fields. }
  unfold PT_ENTRY_Present in Hp. rewrite get_field_1_testbit in Hp by lia.
  unfold present. by destruct (Z.testbit _ 0).
Qed.
Lemma pte_value_frame pa f : frame_of (pte_value pa f) = (pa / 2 ^ 12) mod 2 ^ 40.
Proof.
  unfold frame_of, pte_value. change SHIFT_FOR_PHYSICAL_ADDR with 12. rewrite Z.shiftr_div_pow2 by lia.
  destruct (PagingStructure f); by get_fields.
Qed.
Lemma pte_value_dir pa f : PagingStructure f = true → large (pte_value pa f) = false.
Proof.
  intros Hf. assert (get_field PD_ENTRY_PT_PageSize (pte_value pa f) = 0) as Hp.
  { unfold pte_value. rewrite Hf. by get_fields. }
  unfold PD_ENTRY_PT_PageSize in Hp. rewrite get_field_1_testbit in Hp by lia.
  unfold large. by destruct (Z.testbit _ 7).
Qed.

(** * The state, by the parts that the operations change *)
Section State.
Variables (s0 : PAGING) (pd : PPAGING_DATA) (base frames : Z) (kernel : bool).

Definition st (w : gmap Z Z) (cur : Z) (inv : list Z) (rel : list (Z * Z)) : PAGING :=
  set_released rel (set_invalidated inv
    (set_paging_data pd (mkPaging base frames cur kernel) (set_words w s0))).

Lemma st_words w c i r : pg_words (st w c i r) = w.
Proof. unfold st. by destruct pd. Qed.
Lemma st_paging w c i r : paging_data pd (st w c i r) = mkPaging base frames c kernel.
Proof. unfold st. by destruct pd. Qed.
Lemma st_invalidated w c i r : pg_invalidated (st w c i r) = i.
Proof. unfold st. by destruct pd. Qed.
Lemma st_released w c i r : pg_released (st w c i r) = r.
Proof. unfold st. by destruct pd. Qed.
Lemma st_WriteBackIndex w c i r : WriteBackIndex (st w c i r) = WriteBackIndex s0.
Proof. unfold st. by destruct pd. Qed.
Lemma st_UncacheableIndex w c i r : UncacheableIndex (st w c i r) = UncacheableIndex s0.
Proof. unfold st. by destruct pd. Qed.
Lemma set_words_st w' w c i r : set_words w' (st w c i r) = st w' c i r.
Proof. unfold st. by destruct pd. Qed.
Lemma set_invalidated_st i' w c i r : set_invalidated i' (st w c i r) = st w c i' r.
Proof. unfold st. by destruct pd. Qed.
Lemma set_released_st r' w c i r : set_released r' (st w c i r) = st w c i r'.
Proof. unfold st. by destruct pd. Qed.
Lemma set_paging_st c' w c i r :
  set_paging_data pd (mkPaging base frames c' kernel) (st w c i r) = st w c' i r.
Proof. unfold st. by destruct pd. Qed.
End State.
Lemma st_self s pd :
  let d := paging_data pd s in
  s = st s pd (BasePhysicalAddress d) (NumberOfFrames d) (KernelSpace d)
        (pg_words s) (CurrentIndex d) (pg_invalidated s) (pg_released s).
Proof. destruct s as [? ? ? [? []] [? []] ? ?]; by destruct pd. Qed.
Create Rewrite HintDb paging.
#[export] Hint Rewrite st_words st_paging st_invalidated st_released st_WriteBackIndex
  st_UncacheableIndex set_words_st set_invalidated_st set_released_st set_paging_st : paging.

(** * Runs of the accesses *)
(** [n] QWORDs from [p] on become zero. *)
Fixpoint zero_words (w : gmap Z Z) (p : Z) (n : nat) : gmap Z Z :=
  match n with O => w | S n' => zero_words (<[p := 0]> w) (p + 8) n' end.

Lemma zero_words_other w p n a :
  (∀ j, 0 ≤ j < Z.of_nat n → a ≠ p + 8 * j) → zero_words w p n !! a = w !! a.
Proof.
  revert w p. induction n as [|n IH]; intros w p Ha; cbn [zero_words]; [done|].
  rewrite IH; [|intros j Hj; specialize (Ha (j + 1)); lia].
  apply lookup_insert_ne. specialize (Ha 0). lia.
Qed.
Lemma zero_words_zero w p n j : 0 ≤ j < Z.of_nat n → zero_words w p n !! (p + 8 * j) = Some 0.
Proof.
  revert w p j. induction n as [|n IH]; intros w p j Hj; cbn [zero_words]; [lia|].
  destruct (decide (j = 0)) as [->|].
  - rewrite zero_words_other by lia. rewrite Z.mul_0_r, Z.add_0_r. apply lookup_insert_eq.
  - specialize (IH (<[p := 0]> w) (p + 8) (j - 1) ltac:(lia)). rewrite <-IH. f_equal. lia.
Qed.

Section Runs.
Variables (s0 : PAGING) (pd : PPAGING_DATA) (base frames : Z) (kernel : bool).
Abbreviation st := (st s0 pd base frames kernel).

Lemma read_qword_run w c i r p x :
  w !! p = Some x → read_qword p (st w c i r) = Ret (x, st w c i r).
Proof. intros Hp. unfold read_qword. munfold. by rewrite st_words, Hp. Qed.
Lemma write_qword_run w c i r p x v :
  w !! p = Some x → write_qword p v (st w c i r) = Ret (tt, st (<[p := v]> w) c i r).
Proof. intros Hp. unfold write_qword. munfold. rewrite !st_words, Hp. by rewrite set_words_st. Qed.
Lemma read_field_run w c i r p f x :
  w !! p = Some x → read_field p f (st w c i r) = Ret (get_field f x, st w c i r).
Proof. intros Hp. unfold read_field. by mrun (read_qword_run w c i r p x Hp). Qed.
Lemma write_field_run w c i r p f v x :
  w !! p = Some x → write_field p f v (st w c i r) = Ret (tt, st (<[p := set_field f v x]> w) c i r).
Proof.
  intros Hp. unfold write_field. mrun (read_qword_run w c i r p x Hp). by eapply write_qword_run.
Qed.

Lemma zero_qwords_run w c i r p n :
  0 ≤ p → p + 8 * Z.of_nat n ≤ 2 ^ 64 → (∀ j, 0 ≤ j < Z.of_nat n → is_Some (w !! (p + 8 * j))) →
  zero_qwords p n (st w c i r) = Ret (tt, st (zero_words w p n) c i r).
Proof.
  intros Hp Hn Hw. unfold zero_qwords.
  enough (∀ m j w, 0 ≤ j → j + Z.of_nat m = Z.of_nat n →
    (∀ k, j ≤ k < Z.of_nat n → is_Some (w !! (p + 8 * k))) →
    for_each m j (λ i, write_qword (u64 (p + 8 * i)) 0) (st w c i r)
    = Ret (tt, st (zero_words w (p + 8 * j) m) c i r)) as Hgen.
  { rewrite (Hgen n 0 w), Z.mul_0_r, Z.add_0_r; [done|lia|lia|]. intros k Hk. apply Hw. lia. }
  clear w Hw. intros m. induction m as [|m IH]; intros j w Hj Hm Hw; cbn [for_each zero_words]; [done|].
  destruct (Hw j ltac:(lia)) as [x Hx]. rewrite u64_id by lia.
  mrun (write_qword_run w c i r (p + 8 * j) x 0 Hx). rewrite IH; [by replace (p + 8 * (j + 1)) with (p + 8 * j + 8) by lia|lia|lia|].
  intros k Hk. rewrite lookup_insert_ne by lia. apply Hw. lia.
Qed.

Lemma PteMap_run w c i r p pa f :
  is_Some (w !! p) → 0 < p → p + 8 ≤ 2 ^ 64 →
  PteMap p pa f (st w c i r) = Ret (tt, st (<[p := pte_value pa f]> w) c i r).
Proof.
  intros Hp Hr Hr2. unfold PteMap. massert ltac:(unfold NULL; apply negb_true_iff, Z.eqb_neq; lia).
  erewrite bind_Ret.
  2: { apply zero_qwords_run; [lia|lia|]. intros j Hj. replace (p + 8 * j) with p by lia. done. }
  cbn [zero_words]. unfold pte_value.
  do 5 (erewrite bind_Ret by (apply write_field_run, lookup_insert_eq); cbv beta; rewrite insert_insert_eq).
  destruct (PagingStructure f); cbn [negb]; [done|].
  do 3 (erewrite bind_Ret by (apply write_field_run, lookup_insert_eq); cbv beta; rewrite insert_insert_eq).
  erewrite write_field_run by apply lookup_insert_eq. by rewrite insert_insert_eq.
Qed.

Lemma PteUnmap_run w c i r p :
  is_Some (w !! p) → 0 < p → p + 8 ≤ 2 ^ 64 → PteUnmap p (st w c i r) = Ret (tt, st (<[p := 0]> w) c i r).
Proof.
  intros Hp Hr Hr2. unfold PteUnmap. massert ltac:(unfold NULL; apply negb_true_iff, Z.eqb_neq; lia).
  rewrite zero_qwords_run; [done|lia|lia|]. intros j Hj. by replace (p + 8 * j) with p by lia.
Qed.

Lemma PteIsPresent_run w c i r p e :
  w !! p = Some e → 0 < p → PteIsPresent p (st w c i r) = Ret (present e, st w c i r).
Proof.
  intros Hp Hr. unfold PteIsPresent. massert ltac:(unfold NULL; apply negb_true_iff, Z.eqb_neq; lia).
  mrun (read_field_run w c i r p PML4_ENTRY_Present e Hp).
  unfold PML4_ENTRY_Present. rewrite get_field_1_testbit by lia.
  unfold present, mret, M_ret. by destruct (Z.testbit e 0).
Qed.

Lemma PteGetPhysicalAddress_run w c i r p e :
  w !! p = Some e → 0 < p →
  PteGetPhysicalAddress p (st w c i r) = Ret (4096 * frame_of e, st w c i r).
Proof.
  intros Hp Hr. unfold PteGetPhysicalAddress.
  massert ltac:(unfold NULL; apply negb_true_iff, Z.eqb_neq; lia).
  mrun (read_field_run w c i r p PT_ENTRY_PhysicalAddress e Hp).
  fold (frame_of e). change SHIFT_FOR_PHYSICAL_ADDR with 12.
  rewrite Z.shiftl_mul_pow2, Z.mul_comm by lia. change (2 ^ 12) with 4096.
  pose proof (get_field_range PT_ENTRY_PhysicalAddress e ltac:(cbn; lia)) as Hf.
  cbn [PT_ENTRY_PhysicalAddress snd] in Hf. fold (frame_of e) in Hf.
  rewrite u64_id by lia. done.
Qed.

(** The assertions and the test for presence with which every callback begins. *)
Lemma callback_start {A} l p va (k : bool → M PAGING A) w cur inv rel e :
  w !! p = Some e → 0 < p → 0 < va → 1 ≤ l ≤ 4 →
  (ASSERT (negb (p =? NULL));; ASSERT (negb (va =? NULL));; ASSERT (is_level l);;
   x ← PteIsPresent p; k x) (st w cur inv rel) = k (present e) (st w cur inv rel).
Proof.
  intros He Hp Hva Hl. unfold NULL.
  massert ltac:(apply negb_true_iff, Z.eqb_neq; lia).
  massert ltac:(apply negb_true_iff, Z.eqb_neq; lia).
  massert ltac:(unfold is_level, PAGING_TABLES_FIRST_LEVEL, PAGING_TABLES_LAST_LEVEL; lia).
  by mrun (PteIsPresent_run w cur inv rel p e He Hp).
Qed.
End Runs.

(** * The walk of the processor *)
(** A page number is made of the four indices of its addresses. *)
Definition page (va : Z) : Z := va / 4096 mod 2 ^ 36.
(** The index of a page into the table of level [l], and which of the tables of that level it
    is in. *)
Definition index (l pg : Z) : Z := pg / 512 ^ (4 - l) mod 512.
Definition prefix (l pg : Z) : Z := pg / 512 ^ (5 - l).

Arguments index : simpl never.
Arguments prefix : simpl never.

Lemma index_range l pg : 0 ≤ index l pg < 512.
Proof. unfold index. apply Z.mod_pos_bound. lia. Qed.
Lemma page_range va : 0 ≤ page va < 2 ^ 36.
Proof. apply Z.mod_pos_bound. lia. Qed.

Lemma prefix_next l pg : 1 ≤ l < 4 → prefix (l + 1) pg = 512 * prefix l pg + index l pg.
Proof.
  intros Hl. unfold prefix, index. replace (5 - (l + 1)) with (4 - l) by lia.
  replace (5 - l) with (4 - l + 1) by lia. rewrite Z.pow_add_r by lia. change (512 ^ 1) with 512.
  pose proof (Z.pow_pos_nonneg 512 (4 - l)). rewrite <-Z.div_div by lia. apply Z.div_mod. lia.
Qed.
Lemma prefix_4_index pg : pg = 512 * prefix 4 pg + index 4 pg.
Proof. unfold prefix, index. change (512 ^ (4 - 4)) with 1. rewrite Z.div_1_r. apply Z.div_mod. lia. Qed.
Lemma prefix_root pg : 0 ≤ pg < 2 ^ 36 → prefix 1 pg = 0.
Proof. intros Hpg. unfold prefix. apply Z.div_small. change (512 ^ (5 - 1)) with (2 ^ 36). lia. Qed.
Lemma prefix_nonneg l pg : 0 ≤ pg → 0 ≤ prefix l pg.
Proof. intros. unfold prefix. destruct (Z.leb_spec l 5); [apply Z.div_pos; [lia|by apply Z.pow_pos_nonneg; lia]|].
  rewrite Z.pow_neg_r by lia. by rewrite Z.div_0_r. Qed.

Lemma prefix_mono j a c : 0 ≤ j ≤ 5 → a ≤ c → prefix j a ≤ prefix j c.
Proof. intros Hj Ha. unfold prefix. apply Z.div_le_mono; [apply Z.pow_pos_nonneg|]; lia. Qed.

Lemma mask_index va k l :
  0 ≤ va → k = 12 + 9 * (4 - l) → 1 ≤ l ≤ 4 → Z.land (Z.shiftr va k) 0x1FF = index l (page va).
Proof.
  intros Hva -> Hl. change 0x1FF with (Z.ones 9). rewrite Z.land_ones, Z.shiftr_div_pow2 by lia.
  unfold index, page. change 512 with (2 ^ 9) at 1. change 4096 with (2 ^ 12).
  rewrite <-Z.pow_mul_r by lia. set (m := 9 * (4 - l)). rewrite Z.pow_add_r by lia.
  rewrite <-Z.div_div by lia. set (q := va / 2 ^ 12).
  replace (2 ^ 36) with (2 ^ m * 2 ^ (36 - m)) by (rewrite <-Z.pow_add_r by lia; f_equal; lia).
  pose proof (Z.pow_pos_nonneg 2 m). pose proof (Z.pow_pos_nonneg 2 (36 - m)).
  rewrite Z.rem_mul_r by lia. set (x := (q / 2 ^ m) mod 2 ^ (36 - m)).
  replace (q mod 2 ^ m + 2 ^ m * x) with (x * 2 ^ m + q mod 2 ^ m) by lia.
  rewrite Z.div_add_l, (Z.div_small (q mod _)), Z.add_0_r by (try apply Z.mod_pos_bound; lia).
  unfold x. replace (36 - m) with (9 + (27 - m)) by lia. rewrite Z.pow_add_r by lia.
  pose proof (Z.pow_pos_nonneg 2 (27 - m)). change (2 ^ 9) with 512. rewrite Z.rem_mul_r by lia.
  rewrite (Z.mul_comm 512), Z.mod_add by lia. by rewrite Z.mod_mod by lia.
Qed.

Definition offsets_from (l : Z) (n : nat) (pg : Z) : list Z :=
  (λ i, index (l + Z.of_nat i) pg) <$> seq 0 n.
Lemma offsets_from_S l n pg : offsets_from l (S n) pg = index l pg :: offsets_from (l + 1) n pg.
Proof.
  unfold offsets_from. cbn [seq fmap list_fmap]. rewrite Z.add_0_r. f_equal.
  rewrite <-seq_shift, map_map. apply map_ext. intros i. f_equal. lia.
Qed.
Lemma walk_offsets va :
  0 ≤ va → [MASK_PML4_OFFSET va; MASK_PDPTE_OFFSET va; MASK_PDE_OFFSET va; MASK_PTE_OFFSET va]
           = offsets_from 1 4 (page va).
Proof.
  intros Hva. unfold MASK_PML4_OFFSET, MASK_PDPTE_OFFSET, MASK_PDE_OFFSET, MASK_PTE_OFFSET.
  by rewrite (mask_index va 39 1), (mask_index va 30 2), (mask_index va 21 3), (mask_index va 12 4) by lia.
Qed.

Section Walk.
Variable off : Z.
(** The address of an entry, as the walk computes it. *)
Definition entry_at (pa offset : Z) : Z := u64 (PA2VA off pa + 8 * offset).

(** The four levels from level [i] on, as the processor goes through them: the level at which
    a page is mapped, the address of the entry that maps it, and the entry. *)
Fixpoint hw_levels (w : gmap Z Z) (offsets : list Z) (i pa : Z) : option (Z * Z * Z) :=
  match offsets with
  | [] => None
  | offset :: offsets' =>
      let a := entry_at pa offset in
      e ← w !! a;
      if negb (present e) then None else
      if (i =? 4) || large e then Some (i, a, e) else hw_levels w offsets' (i + 1) (4096 * frame_of e)
  end.
Definition hw_walk (w : gmap Z Z) (cr3 va : Z) : option (Z * Z * Z) :=
  hw_levels w (offsets_from 1 4 (page va)) 1 (4096 * get_field PML4_Pcide_PhysicalAddress cr3).
(** The entry by which a 4 KB page is mapped. *)
Definition hw_pte (w : gmap Z Z) (cr3 va : Z) : option Z := (λ r, r.2) <$> hw_walk w cr3 va.
End Walk.

(** * The tree of tables in the frames of a PAGING_DATA *)
Section Tree.
(** The frames start at the physical address [base]. *)
Variables (off base frames : Z).

Definition vbase : Z := PA2VA off base.
(** Entry [i] of the table in frame [k]. *)
Definition addr (k i : Z) : Z := vbase + 4096 * k + 8 * i.

(** The frames, which are mapped where PA2VA says. *)
Record area (w : gmap Z Z) : Prop := {
  ar_base : 0 < base ∧ base mod 4096 = 0 ∧ base + 4096 * frames ≤ 2 ^ 52;
  ar_frames : 0 < frames < 2 ^ 20;
  ar_virtual : 0 < vbase ∧ vbase + 4096 * frames ≤ 2 ^ 64;
  ar_mapped k i : 0 ≤ k < frames → 0 ≤ i < 512 → is_Some (w !! addr k i)
}.

Lemma addr_inj k i k' i' :
  0 ≤ i < 512 → 0 ≤ i' < 512 → addr k i = addr k' i' → k = k' ∧ i = i'.
Proof. unfold addr. lia. Qed.

Section Area.
Variable w : gmap Z Z.
Hypothesis Har : area w.

Lemma addr_bounds k i : 0 ≤ k < frames → 0 ≤ i < 512 → 0 < addr k i ∧ addr k i + 8 ≤ 2 ^ 64.
Proof using Har. destruct Har as [_ _ [H1 H2] _]. unfold addr. lia. Qed.

Lemma PA2VA_frame k : 0 ≤ k < frames → PA2VA off (base + 4096 * k) = addr k 0.
Proof using Har.
  intros Hk. destruct Har as [_ _ [H1 H2] _]. unfold addr, vbase, PA2VA, u64 in *.
  replace (base + 4096 * k + off) with (base + off + 4096 * k) by lia.
  rewrite <-Zplus_mod_idemp_l. rewrite Z.mod_small by lia. lia.
Qed.
Lemma entry_addr k i : 0 ≤ k < frames → 0 ≤ i < 512 → entry_at off (base + 4096 * k) i = addr k i.
Proof using Har.
  intros Hk Hi. pose proof (addr_bounds k i Hk Hi). unfold entry_at. rewrite PA2VA_frame by done.
  unfold addr in *. rewrite u64_id by lia. lia.
Qed.
Lemma frame_base k : 0 ≤ k < frames → 4096 * (base / 4096 + k) = base + 4096 * k.
Proof using Har. destruct Har as [[H1 [H2 H3]] _ _ _]. intros. lia. Qed.
Lemma cr3_base : 4096 * get_field PML4_Pcide_PhysicalAddress base = base.
Proof using Har.
  destruct Har as [[H1 [H2 H3]] Hf _ _]. rewrite get_field_div by (cbn; lia).
  cbn [PML4_Pcide_PhysicalAddress fst snd]. change (2 ^ 12) with 4096.
  rewrite Z.mod_small; [lia|]. split; [apply Z.div_pos; lia|].
  apply Z.div_lt_upper_bound; [lia|]. change (4096 * 2 ^ 40) with (2 ^ 52). lia.
Qed.
End Area.

(** [owned] says which entries of the first table belong to this tree: the tables of a process
    share the kernel's entries. *)
Variable owned : Z → Prop.

(** [T] says in which frame the table of level [l] with the pages of prefix [q] lies. *)
Record tables (w : gmap Z Z) (cur : Z) (T : gmap (Z * Z) Z) : Prop := {
  tb_root : T !! (1, 0) = Some 0;
  tb_key l q k : T !! (l, q) = Some k → 1 ≤ l ≤ 4 ∧ 0 ≤ q;
  tb_frame l q k : T !! (l, q) = Some k → 0 ≤ k < cur;
  tb_inj x y k : T !! x = Some k → T !! y = Some k → x = y;
  tb_up l q k : T !! (l, q) = Some k → 1 < l → is_Some (T !! (l - 1, q / 512));
  tb_cur : 1 ≤ cur ≤ frames;
  tb_dir l q k i : T !! (l, q) = Some k → l < 4 → 0 ≤ i < 512 → (l = 1 → owned i) →
    ∃ e, w !! addr k i = Some e ∧
      match T !! (l + 1, 512 * q + i) with
      | Some k' => present e = true ∧ large e = false ∧ frame_of e = base / 4096 + k'
      | None => present e = false
      end
}.

Section Tables.
Variables (w : gmap Z Z) (cur : Z) (T : gmap (Z * Z) Z).
Hypotheses (Har : area w) (Htb : tables w cur T).

Lemma table_frame l q k : T !! (l, q) = Some k → 0 ≤ k < frames.
Proof using Htb. intros Hk. pose proof (tb_frame _ _ _ Htb l q k Hk). pose proof (tb_cur _ _ _ Htb). lia. Qed.

Lemma prefix_up l pg : 1 ≤ l < 4 → prefix (l + 1) pg / 512 = prefix l pg.
Proof.
  intros Hl. rewrite prefix_next by done. pose proof (index_range l pg). rewrite Z.mul_comm.
  rewrite Z.div_add_l by lia. rewrite Z.div_small by done. lia.
Qed.

(** Where there is a table for a page, the tables above it are there. *)
Lemma tables_above l pg :
  1 ≤ l ≤ 4 → T !! (l, prefix l pg) = None → T !! (4, prefix 4 pg) = None.
Proof using Htb.
  intros Hl HN. replace l with (4 - Z.of_nat (Z.to_nat (4 - l))) in HN by lia.
  assert (Z.to_nat (4 - l) ≤ 3)%nat as Hn by lia. revert Hn HN. generalize (Z.to_nat (4 - l)). clear Hl l.
  intros n. induction n as [|n IH]; intros Hn HN.
  { by replace (4 - Z.of_nat 0) with 4 in HN by lia. }
  apply IH; [lia|]. set (l := 4 - Z.of_nat (S n)) in *. replace (4 - Z.of_nat n) with (l + 1) by lia.
  destruct (T !! (l + 1, prefix (l + 1) pg)) as [k|] eqn:E; [|done]. exfalso.
  apply (tb_up _ _ _ Htb) in E; [|lia]. rewrite prefix_up in E by lia.
  replace (l + 1 - 1) with l in E by lia. rewrite HN in E. by destruct E.
Qed.

(** The entry of a page in the last table, when there is one. *)
Definition page_entry (pg : Z) : option (Z * Z) :=
  k ← T !! (4, prefix 4 pg); e ← w !! addr k (index 4 pg);
  if present e then Some (addr k (index 4 pg), e) else None.

Lemma hw_levels_tables n l pg k :
  l + Z.of_nat n = 4 → 1 ≤ l → T !! (l, prefix l pg) = Some k → (l = 1 → owned (index 1 pg)) →
  hw_levels off w (offsets_from l (S n) pg) l (base + 4096 * k)
  = (λ '(a, e), (4, a, e)) <$> page_entry pg.
Proof using Har Htb.
  revert l k. induction n as [|n IH]; intros l k Hl Hl1 Hk Ho;
    rewrite offsets_from_S; cbn [hw_levels];
    rewrite (entry_addr w) by (try apply index_range; by eauto using table_frame).
  - replace l with 4 in * by lia. unfold page_entry. rewrite Hk. cbn. rewrite Z.eqb_refl.
    destruct (w !! addr k (index 4 pg)) as [e|]; cbn; [|done]. by destruct (present e).
  - destruct (tb_dir _ _ _ Htb l _ k (index l pg) Hk) as (e & He & Hm);
      [lia|apply index_range|by intros ->; apply Ho|].
    rewrite <-prefix_next in Hm by lia. rewrite He. cbn.
    destruct (T !! (l + 1, prefix (l + 1) pg)) as [k'|] eqn:E.
    + destruct Hm as (Hp & Hlg & Hf). rewrite Hp, Hlg, (proj2 (Z.eqb_neq l 4)) by lia. cbn.
      rewrite Hf, (frame_base w) by (by eauto using table_frame). apply IH; [lia|lia|done|lia].
    + rewrite Hm. cbn. unfold page_entry. by rewrite (tables_above (l + 1)) by (done || lia).
Qed.

Lemma hw_walk_tables va :
  owned (index 1 (page va)) →
  hw_walk off w base va = (λ '(a, e), (4, a, e)) <$> page_entry (page va).
Proof using Har Htb.
  intros Ho. unfold hw_walk. rewrite (cr3_base w) by done.
  replace base with (base + 4096 * 0) at 1 by lia.
  apply (hw_levels_tables 3 1); [done|done| |done].
  rewrite prefix_root by apply page_range. apply (tb_root _ _ _ Htb).
Qed.
End Tables.

Lemma area_mono w w' : area w → (∀ a, is_Some (w !! a) → is_Some (w' !! a)) → area w'.
Proof. intros [H1 H2 H3 H4] Hw. split; try done. intros k i Hk Hi. by apply Hw, H4. Qed.

(** A table joins the tree: the entry that points to it is written and it is zeroed. *)
Section New.
Variables (w w' : gmap Z Z) (cur : Z) (T : gmap (Z * Z) Z) (l q k i e : Z).
Hypotheses (Htb : tables w cur T) (Hk : T !! (l, q) = Some k) (Hl : l < 4) (Hi : 0 ≤ i < 512)
  (Ho : l = 1 → owned i) (Hnew : T !! (l + 1, 512 * q + i) = None) (Hcur : cur < frames)
  (He : w' !! addr k i = Some e) (Hep : present e = true) (Hel : large e = false)
  (Hef : frame_of e = base / 4096 + cur)
  (Hzero : ∀ j, 0 ≤ j < 512 → w' !! addr cur j = Some 0)
  (Hsame : ∀ k' j, 0 ≤ k' < cur → 0 ≤ j < 512 → (k', j) ≠ (k, i) → w' !! addr k' j = w !! addr k' j).
#[local] Abbreviation T' := (<[(l + 1, 512 * q + i) := cur]> T).

Lemma tables_new : tables w' (cur + 1) T'.
Proof using All.
  pose proof (tb_cur _ _ _ Htb) as Hc. pose proof (tb_key _ _ _ Htb _ _ _ Hk) as [Hl1 Hq].
  assert (Hfr : ∀ x k', T !! x = Some k' → 0 ≤ k' < cur) by (intros [? ?] k' ?; by eapply tb_frame).
  split.
  - rewrite lookup_insert_ne; [apply (tb_root _ _ _ Htb)|]. intros [= ? _]. lia.
  - intros l2 q2 k2 H2. apply lookup_insert_Some in H2 as [[[= <- <-] _]|[_ H2]]; [lia|].
    by eapply tb_key.
  - intros l2 q2 k2 H2. apply lookup_insert_Some in H2 as [[_ <-]|[_ H2]]; [lia|].
    apply Hfr in H2. lia.
  - intros x y k2 Hx Hy.
    apply lookup_insert_Some in Hx as [[<- <-]|[? Hx]], Hy as [[<- ?]|[? Hy]]; try done.
    + apply Hfr in Hy. lia.
    + apply Hfr in Hx. lia.
    + by eapply tb_inj.
  - intros l2 q2 k2 H2 Hl2. apply lookup_insert_is_Some'. right.
    apply lookup_insert_Some in H2 as [[[= <- <-] _]|[_ H2]]; [|by eapply tb_up].
    replace (l + 1 - 1) with l by lia. replace ((512 * q + i) / 512) with q by lia. by rewrite Hk.
  - lia.
  - intros l2 q2 k2 j H2 Hl2 Hj Ho2. apply lookup_insert_Some in H2 as [[[= <- <-] <-]|[Hne H2]].
    + exists 0. split; [by apply Hzero|]. rewrite lookup_insert_ne by (intros [= ? ?]; lia).
      destruct (T !! (l + 1 + 1, 512 * (512 * q + i) + j)) as [k3|] eqn:E3; [|done]. exfalso.
      apply (tb_up _ _ _ Htb) in E3 as [k4 E4]; [|lia].
      replace ((512 * (512 * q + i) + j) / 512) with (512 * q + i) in E4 by lia.
      replace (l + 1 + 1 - 1) with (l + 1) in E4 by lia. congruence.
    + destruct (decide ((k2, j) = (k, i))) as [[= -> ->]|Hne2].
      * pose proof (tb_inj _ _ _ Htb _ _ _ Hk H2) as [= <- <-]. exists e. rewrite lookup_insert_eq. done.
      * destruct (tb_dir _ _ _ Htb l2 q2 k2 j H2) as (e2 & He2 & Hm); [done..|]. exists e2.
        rewrite Hsame by eauto. split; [done|].
        rewrite lookup_insert_ne; [done|]. intros [= ? ?].
        assert (l2 = l) as -> by lia. assert (q2 = q) as -> by lia. apply Hne2.
        rewrite H2 in Hk. f_equal; [congruence|lia].
Qed.

Lemma page_entry_new pg : page_entry w' T' pg = page_entry w T pg.
Proof using All.
  unfold page_entry. pose proof (index_range 4 pg) as Hidx.
  destruct (decide ((l + 1, 512 * q + i) = (4, prefix 4 pg))) as [Heq|Hne].
  - rewrite Heq in *. rewrite lookup_insert_eq, Hnew. cbn. by rewrite Hzero by done.
  - rewrite lookup_insert_ne by done. destruct (T !! (4, prefix 4 pg)) as [k2|] eqn:E; [|done]. cbn.
    rewrite Hsame; [done|by eapply tb_frame|done|]. intros [= -> _].
    pose proof (tb_inj _ _ _ Htb _ _ _ Hk E) as [= -> _]. lia.
Qed.
End New.

(** An entry of a last table changes. *)
Lemma tables_leaf w cur T q k i e :
  tables w cur T → T !! (4, q) = Some k → 0 ≤ i < 512 → tables (<[addr k i := e]> w) cur T.
Proof.
  intros Htb Hk Hi. split; try apply Htb.
  intros l2 q2 k2 j H2 Hl2 Hj Ho2. destruct (tb_dir _ _ _ Htb l2 q2 k2 j H2) as (e2 & He2 & Hm); [done..|].
  exists e2. rewrite lookup_insert_ne; [done|]. intros [-> ->]%addr_inj; [|done|done].
  pose proof (tb_inj _ _ _ Htb _ _ _ Hk H2) as [= <- _]. lia.
Qed.
Lemma page_entry_leaf w cur T pg k e pg' :
  tables w cur T → T !! (4, prefix 4 pg) = Some k → is_Some (w !! addr k (index 4 pg)) →
  page_entry (<[addr k (index 4 pg) := e]> w) T pg'
  = if decide (pg' = pg) then (if present e then Some (addr k (index 4 pg), e) else None)
    else page_entry w T pg'.
Proof.
  intros Htb Hk Hw. unfold page_entry. pose proof (index_range 4 pg). pose proof (index_range 4 pg').
  destruct (decide (pg' = pg)) as [->|Hne].
  - rewrite Hk. cbn. by rewrite lookup_insert_eq.
  - destruct (T !! (4, prefix 4 pg')) as [k'|] eqn:E; [|done]. cbn.
    rewrite lookup_insert_ne; [done|]. intros [<- Hi]%addr_inj; [|done|done].
    pose proof (tb_inj _ _ _ Htb _ _ _ Hk E) as [= Hp]. apply Hne.
    rewrite (prefix_4_index pg), (prefix_4_index pg'). lia.
Qed.

(** A first table without entries is the tree of an empty address space. *)
Lemma fresh_tables w :
  1 ≤ frames → (∀ i, 0 ≤ i < 512 → owned i → ∃ e, w !! addr 0 i = Some e ∧ present e = false) →
  tables w 1 {[(1, 0) := 0]} ∧ ∀ pg, page_entry w {[(1, 0) := 0]} pg = None.
Proof.
  intros Hf Hw. split; [split|].
  - apply lookup_singleton_eq.
  - intros l q k [[= <- <-] _]%lookup_singleton_Some. lia.
  - intros l q k [_ <-]%lookup_singleton_Some. lia.
  - intros x y k [<- _]%lookup_singleton_Some [<- _]%lookup_singleton_Some. done.
  - intros l q k [[= <- <-] _]%lookup_singleton_Some. lia.
  - lia.
  - intros l q k i [[= <- <-] <-]%lookup_singleton_Some Hl Hi Ho.
    destruct (Hw i Hi (Ho eq_refl)) as (e & He & Hp). exists e. split; [done|].
    by rewrite lookup_singleton_ne by (intros [= ?]; lia).
  - intros pg. unfold page_entry. by rewrite lookup_singleton_ne by (intros [= ?]; lia).
Qed.
End Tree.

(** * The loop over the pages *)
Lemma page_add va i :
  0 ≤ va → 0 ≤ i → page va + i < 2 ^ 36 → page (va + 4096 * i) = page va + i.
Proof.
  intros Hva Hi Hp. unfold page in *. replace (va + 4096 * i) with (va + i * 4096) by lia.
  rewrite Z.div_add by lia. rewrite <-Zplus_mod_idemp_l. apply Z.mod_small.
  pose proof (Z.mod_pos_bound (va / 4096) (2 ^ 36)). lia.
Qed.

(** The walk ends when [fuel] exceeds the number of pages, and goes through them in order. *)
Lemma walk_pages {C} off fuel cr3 va (n : nat) cb (ctx : C) s :
  0 ≤ va → va + 4096 * Z.of_nat n ≤ 2 ^ 64 → page va + Z.of_nat n ≤ 2 ^ 36 → (n < fuel)%nat →
  _VmWalkPagingTables off fuel cr3 va (4096 * Z.of_nat n) cb ctx s
  = for_fold n 0 ctx (λ i ctx, walk_levels off cr3 cb (va + 4096 * i) (offsets_from 1 4 (page va + i))
      1 (4096 * get_field PML4_Pcide_PhysicalAddress cr3) ctx) s.
Proof.
  intros Hva Htop Hpg Hfuel. unfold _VmWalkPagingTables.
  set (body := λ x, _). set (f := λ i ctx, _).
  assert (Hbody : ∀ i ctx s, 0 ≤ i < Z.of_nat n →
    body (4096 * i, ctx) s = (f i ctx ≫= λ c, mret (inl (4096 * (i + 1), c))) s).
  { intros i c t Hi. unfold body, f. rewrite (proj2 (Z.ltb_lt _ _)) by lia. cbn [negb].
    unfold PtrOffset. rewrite (u64_id (va + 4096 * i)) by lia. rewrite walk_offsets, page_add by lia.
    change PAGING_TABLES_FIRST_LEVEL with 1. change SHIFT_FOR_PHYSICAL_ADDR with 12.
    pose proof (get_field_range PML4_Pcide_PhysicalAddress cr3 ltac:(cbn; lia)) as Hb.
    cbn [PML4_Pcide_PhysicalAddress snd] in Hb.
    rewrite Z.shiftl_mul_pow2, (Z.mul_comm _ (2 ^ 12)) by lia. change (2 ^ 12) with 4096.
    rewrite (u64_id (4096 * get_field _ _)) by lia.
    pose proof (page_range va). unfold PAGE_SIZE. rewrite (u64_id (4096 * i + 4096)) by lia. by replace (4096 * i + 4096) with (4096 * (i + 1)) by lia. }
  enough (∀ m fuel i ctx s, i + Z.of_nat m = Z.of_nat n → 0 ≤ i → (m < fuel)%nat →
    loop fuel body (4096 * i, ctx) s = for_fold m i ctx f s) as Hgen.
  { rewrite <-(Hgen n fuel 0) by lia. done. }
  clear Hfuel fuel ctx s. intros m. induction m as [|m IH]; intros [|fuel] i ctx s Hm Hi Hf; try lia.
  - apply loop_break. unfold body. by rewrite (proj2 (Z.ltb_ge _ _)) by lia.
  - cbn [for_fold]. rewrite loop_S. unfold mbind, M_bind. rewrite Hbody by lia.
    unfold mbind, M_bind. destruct (f i ctx s) as [[ctx' s']| | |]; try done. cbn. apply IH; lia.
Qed.

(** * Mapping *)
Section Map.
Variables (s0 : PAGING) (pd : PPAGING_DATA) (off base frames : Z) (kernel : bool).
Abbreviation st := (st s0 pd base frames kernel).
Abbreviation addr := (addr off base).
Abbreviation area := (area off base frames).
Abbreviation page_entry := (page_entry off base).

Definition dir_flags : PTE_MAP_FLAGS := mkFlags 0 true true true (negb kernel) false.

(** The words after the table in frame [cur] was entered in the one in frame [k]. *)
Definition new_table_words (w : gmap Z Z) (cur k i : Z) : gmap Z Z :=
  zero_words (<[addr k i := pte_value (base + 4096 * cur) dir_flags]> w) (addr cur 0) 512.

Lemma new_words_zero w cur k i j :
  0 ≤ j < 512 → new_table_words w cur k i !! addr cur j = Some 0.
Proof.
  intros Hj. unfold new_table_words.
  replace (addr cur j) with (addr cur 0 + 8 * j) by (unfold PageTablesSpec.addr; lia).
  by apply zero_words_zero.
Qed.
Lemma new_words_same w cur k i k' j :
  0 ≤ i < 512 → 0 ≤ k' < cur → 0 ≤ j < 512 → (k', j) ≠ (k, i) →
  new_table_words w cur k i !! addr k' j = w !! addr k' j.
Proof.
  intros Hi Hk' Hj Hne. unfold new_table_words.
  rewrite zero_words_other by (unfold PageTablesSpec.addr; lia).
  apply lookup_insert_ne. intros [-> ->]%addr_inj; done.
Qed.
Lemma new_words_entry w cur k i :
  0 ≤ i < 512 → k < cur →
  new_table_words w cur k i !! addr k i = Some (pte_value (base + 4096 * cur) dir_flags).
Proof.
  intros Hi Hkc. unfold new_table_words.
  rewrite zero_words_other by (unfold PageTablesSpec.addr; lia). apply lookup_insert_eq.
Qed.
Lemma new_words_mono w cur k i a : is_Some (w !! a) → is_Some (new_table_words w cur k i !! a).
Proof.
  intros Ha. unfold new_table_words.
  destruct (decide (0 ≤ (a - addr cur 0) / 8 < 512 ∧ a = addr cur 0 + 8 * ((a - addr cur 0) / 8))) as [[H1 H2]|Hn].
  - rewrite H2. by rewrite zero_words_zero.
  - rewrite zero_words_other; [apply lookup_insert_is_Some'; by right|].
    intros j Hj ->. apply Hn. lia.
Qed.

(** _VmSetupPagingStructure takes the next frame for a table and zeroes it. *)
Lemma _VmSetupPagingStructure_run w cur k i inv rel :
  area w → 0 ≤ k < cur → 0 ≤ i < 512 → 1 ≤ cur < frames →
  _VmSetupPagingStructure off pd (addr k i) (st w cur inv rel)
  = Ret (tt, st (new_table_words w cur k i) (cur + 1) (addr cur 0 :: inv) rel).
Proof.
  intros Har Hk Hi Hcur. pose proof Har as [[Hb1 [Hb2 Hb3]] Hfr Hv Hm].
  pose proof (addr_bounds off base frames w Har k i ltac:(lia) Hi) as [Ha1 Ha2].
  unfold _VmSetupPagingStructure. massert ltac:(unfold NULL; apply negb_true_iff, Z.eqb_neq; lia).
  erewrite bind_Ret.
  2: { unfold _VmRetrieveNextPhysicalAddressForPagingStructure.
       mrun (gets_run (paging_data pd) (st w cur inv rel)). rewrite st_paging. cbn [CurrentIndex NumberOfFrames].
       massert ltac:(apply Z.ltb_lt; lia). cbn [BasePhysicalAddress KernelSpace].
       unfold modify. munfold. unfold PAGE_SIZE. rewrite (u32_id (cur * 4096)), (u32_id (cur + 1)) by lia.
       rewrite u64_id by lia. rewrite set_paging_st. reflexivity. }
  cbn beta iota. mrun (gets_run (λ s, KernelSpace (paging_data pd s)) (st w (cur + 1) inv rel)).
  rewrite st_paging. cbn [KernelSpace]. fold dir_flags.
  erewrite bind_Ret by (apply PteMap_run; [by apply Hm; lia|lia|lia]). cbn beta iota.
  replace (base + cur * 4096) with (base + 4096 * cur) by lia.
  rewrite (PA2VA_frame off base frames w) by (done || lia).
  erewrite bind_Ret by (unfold PageInvalidateTlb; munfold; rewrite st_invalidated, set_invalidated_st; reflexivity).
  cbn beta iota. pose proof (addr_bounds off base frames w Har cur 0 ltac:(lia) ltac:(lia)).
  pose proof (addr_bounds off base frames w Har cur 511 ltac:(lia) ltac:(lia)).
  rewrite zero_qwords_run; [done|lia| |].
  - unfold PageTablesSpec.addr in *. lia.
  - intros j Hj. replace (addr cur 0 + 8 * j) with (addr cur j) by (unfold PageTablesSpec.addr; lia).
    apply lookup_insert_is_Some'. right. apply Hm; lia.
Qed.

(** One level of the walk, by what its callback does. *)
Lemma walk_levels_step {C} cr3 cb va l k i rest (ctx ctx' : C) w cur inv rel w1 cur1 inv1 rel1 e :
  area w → 0 ≤ k < frames → 0 ≤ i < 512 → 1 ≤ l ≤ 4 →
  cb cr3 (addr k i) va l ctx (st w cur inv rel) = Ret ((true, ctx'), st w1 cur1 inv1 rel1) →
  w1 !! addr k i = Some e → (l < 4 → large e = false) →
  walk_levels off cr3 cb va (i :: rest) l (base + 4096 * k) ctx (st w cur inv rel)
  = walk_levels off cr3 cb va rest (l + 1) (4096 * frame_of e) ctx' (st w1 cur1 inv1 rel1).
Proof.
  intros Har Hk Hi Hl Hcb He Hlg. cbn [walk_levels].
  pose proof (addr_bounds off base frames w Har k i Hk Hi) as [Ha1 Ha2].
  fold (entry_at off (base + 4096 * k) i). rewrite (entry_addr off base frames w) by done.
  mrun Hcb. cbn [negb]. erewrite bind_Ret.
  2: { instantiate (1 := st w1 cur1 inv1 rel1). instantiate (1 := tt).
       change PAGING_TABLES_LAST_LEVEL with 4. destruct (Z.eqb_spec l 4); cbn [negb]; [done|].
       mrun (read_field_run s0 pd base frames kernel w1 cur1 inv1 rel1 (addr k i) PD_ENTRY_PT_PageSize e He).
       apply ASSERT_true. unfold PD_ENTRY_PT_PageSize. rewrite get_field_1_testbit by lia.
       fold (large e). by rewrite Hlg by lia. }
  cbn beta iota. by erewrite bind_Ret by (apply PteGetPhysicalAddress_run; [done|lia]).
Qed.

(** What a mapping asks for. *)
Variables (phys va0 rights : Z) (inval uncach : bool).
Definition map_ctx : VMM_MAP_UNMAP_PAGE_WALK_CONTEXT :=
  mkMapContext (Some pd) phys va0 rights inval uncach false.
Definition page_flags : PTE_MAP_FLAGS :=
  mkFlags (Z.land (if uncach then UncacheableIndex s0 else WriteBackIndex s0) 7)
    (IsBooleanFlagOn rights PAGE_RIGHTS_WRITE) (IsBooleanFlagOn rights PAGE_RIGHTS_EXECUTE)
    false (negb kernel) kernel.
Definition new_pte (va : Z) : Z := pte_value (PtrOffset phys (PtrDiff va va0)) page_flags.
Arguments new_pte : simpl never.

Lemma _VmMapPage_present cr3 l p va w cur inv rel e :
  w !! p = Some e → 0 < p → 0 < va → 1 ≤ l ≤ 4 → present e = true → (l = 4 → inval = false) →
  _VmMapPage off cr3 p va l map_ctx (st w cur inv rel) = Ret ((true, map_ctx), st w cur inv rel).
Proof.
  intros He Hp Hva Hl Hpr Hinv. unfold _VmMapPage. rewrite (callback_start s0 pd base frames kernel l p va _ _ _ _ _ e) by done.
  rewrite Hpr. change PAGING_TABLES_LAST_LEVEL with 4. cbn [andb map_ctx Invalidate].
  destruct (Z.eqb_spec l 4) as [->|]; cbn; [by rewrite Hinv|done].
Qed.
Lemma _VmMapPage_dir cr3 l k i va w cur inv rel e :
  area w → w !! addr k i = Some e → 0 ≤ k < cur → 0 ≤ i < 512 → 1 ≤ cur < frames → 0 < va →
  1 ≤ l < 4 → present e = false →
  _VmMapPage off cr3 (addr k i) va l map_ctx (st w cur inv rel)
  = Ret ((true, map_ctx), st (new_table_words w cur k i) (cur + 1) (addr cur 0 :: inv) rel).
Proof.
  intros Har He Hk Hi Hcur Hva Hl Hpr. pose proof (addr_bounds off base frames w Har k i ltac:(lia) Hi).
  unfold _VmMapPage. rewrite (callback_start s0 pd base frames kernel l _ va _ _ _ _ _ e) by (done || lia).
  rewrite Hpr. cbn [andb map_ctx PagingData]. mderef.
  change PAGING_TABLES_LAST_LEVEL with 4. rewrite (proj2 (Z.eqb_neq l 4)) by lia.
  by mrun (_VmSetupPagingStructure_run w cur k i inv rel Har Hk Hi Hcur).
Qed.
Lemma _VmMapPage_leaf cr3 p va w cur inv rel e :
  w !! p = Some e → 0 < p → p + 8 ≤ 2 ^ 64 → 0 < va → present e = false ∨ inval = true →
  _VmMapPage off cr3 p va 4 map_ctx (st w cur inv rel)
  = Ret ((true, map_ctx), st (<[p := new_pte va]> w) cur (va :: inv) rel).
Proof.
  intros He Hp Hp2 Hva Hor. unfold _VmMapPage. rewrite (callback_start s0 pd base frames kernel 4 p va _ _ _ _ _ e) by (done || lia).
  change PAGING_TABLES_LAST_LEVEL with 4. rewrite Z.eqb_refl. cbn [andb map_ctx Invalidate PagingData].
  replace (present e && negb inval) with false by (destruct Hor as [H|H]; rewrite H; cbn; by rewrite ?andb_false_r).
  mderef. rewrite bind_assoc. mrun (gets_run (paging_data pd) (st w cur inv rel)). rewrite st_paging.
  rewrite bind_assoc. erewrite bind_Ret by apply gets_run. cbn [map_ctx Uncacheable].
  replace ((if uncach then UncacheableIndex else WriteBackIndex) (st w cur inv rel))
    with (if uncach then UncacheableIndex s0 else WriteBackIndex s0)
    by (destruct uncach; by rewrite ?st_UncacheableIndex, ?st_WriteBackIndex).
  cbn [map_ctx KernelSpace PageRights PhysicalAddressBase VirtualAddressBase]. fold page_flags. fold (new_pte va).
  rewrite bind_assoc. erewrite bind_Ret by (apply PteMap_run; [by eexists|done|done]). cbn beta iota.
  unfold PageInvalidateTlb. munfold. rewrite st_invalidated, set_invalidated_st. unfold new_pte.
  reflexivity.
Qed.

Variable owned : Z → Prop.
Abbreviation tables := (tables off base frames owned).

(** The entry by which a page is mapped. *)
Definition pte (w : gmap Z Z) (T : gmap (Z * Z) Z) (pg : Z) : option Z := snd <$> page_entry w T pg.

(** The words that do not belong to the tree: those outside of the frames, and the entries of
    the first table that are not its own. *)
Definition foreign (a : Z) : Prop :=
  a < vbase off base ∨ vbase off base + 4096 * frames ≤ a ∨ ∃ i, 0 ≤ i < 512 ∧ ¬ owned i ∧ a = addr 0 i.

Lemma foreign_entry a k i :
  foreign a → 0 ≤ k < frames → 0 ≤ i < 512 → (k = 0 → owned i) → a ≠ addr k i.
Proof.
  intros Ha Hk Hi Ho ->. destruct Ha as [Ha|[Ha|(j & Hj & Hn & Ha)]].
  - unfold PageTablesSpec.addr in Ha. lia.
  - unfold PageTablesSpec.addr in Ha. lia.
  - apply addr_inj in Ha as [-> ->]; [|done|done]. auto.
Qed.
Lemma new_words_foreign w cur k i a :
  foreign a → 0 ≤ k < frames → 0 ≤ i < 512 → (k = 0 → owned i) → 1 ≤ cur < frames →
  new_table_words w cur k i !! a = w !! a.
Proof.
  intros Ha Hk Hi Ho Hc. unfold new_table_words. rewrite zero_words_other.
  - apply lookup_insert_ne. by apply not_eq_sym, foreign_entry.
  - intros j Hj. replace (addr cur 0 + 8 * j) with (addr cur j) by (unfold PageTablesSpec.addr; lia).
    apply foreign_entry; [done|lia|lia|lia].
Qed.

#[local] Opaque new_table_words.

(** How many tables of the levels beyond [l] a page lacks. *)
Fixpoint missing (T : gmap (Z * Z) Z) (l : Z) (n : nat) (pg : Z) : Z :=
  match n with
  | O => 0
  | S n' => (match T !! (l + 1, prefix (l + 1) pg) with Some _ => 0 | None => 1 end)
            + missing T (l + 1) n' pg
  end.
Lemma missing_insert T l q n pg l2 k : l2 ≤ l → missing (<[(l2, q) := k]> T) l n pg = missing T l n pg.
Proof.
  revert l. induction n as [|n IH]; intros l Hl; cbn [missing]; [done|].
  rewrite IH by lia. rewrite lookup_insert_ne; [done|]. intros [= ? ?]. lia.
Qed.

(** The effect of mapping one page on the translation. *)
Definition mapped_pte (old : option Z) (va : Z) : option Z :=
  match old with
  | Some e => if inval then Some (new_pte va) else Some e
  | None => Some (new_pte va)
  end.

(** What the levels from [l] on leave behind. *)
Record map_result (va l : Z) (w : gmap Z Z) (T : gmap (Z * Z) Z) (w' : gmap Z Z) (cur' : Z)
    (T' : gmap (Z * Z) Z) : Prop := {
  mr_area : area w';
  mr_tables : tables w' cur' T';
  mr_sub : T ⊆ T';
  mr_present j : l ≤ j ≤ 4 → is_Some (T' !! (j, prefix j (page va)));
  mr_foreign a : foreign a → w' !! a = w !! a;
  mr_pte pg : pte w' T' pg = if decide (pg = page va) then mapped_pte (pte w T pg) va else pte w T pg
}.

Lemma map_leaf cr3 va k w cur inv rel T :
  0 < va → area w → tables w cur T → T !! (4, prefix 4 (page va)) = Some k →
  ∃ w' inv', walk_levels off cr3 (_VmMapPage off) va (offsets_from 4 1 (page va)) 4 (base + 4096 * k)
      map_ctx (st w cur inv rel) = Ret (map_ctx, st w' cur inv' rel)
    ∧ map_result va 4 w T w' cur T.
Proof.
  intros Hva Har Htb Hk. set (pg := page va) in *. pose proof (index_range 4 pg) as Hi.
  pose proof (table_frame off base frames owned w cur T Htb _ _ _ Hk) as Hkf.
  pose proof (addr_bounds off base frames w Har k _ Hkf Hi) as [Ha1 Ha2].
  destruct (ar_mapped _ _ _ _ Har k _ Hkf Hi) as [e He].
  rewrite offsets_from_S. cbn [offsets_from seq fmap list_fmap].
  assert (Hpr : ∀ j, 4 ≤ j ≤ 4 → is_Some (T !! (j, prefix j (page va)))).
  { intros j Hj. replace j with 4 by lia. by eexists. }
  assert (Hpte : pte w T pg = if present e then Some e else None).
  { unfold pte, PageTablesSpec.page_entry. rewrite Hk. cbn. rewrite He. cbn. by destruct (present e). }
  destruct (decide (present e = false ∨ inval = true)) as [Hnew|Hold].
  - eexists (<[addr k (index 4 pg) := new_pte va]> w), _. split.
    { erewrite walk_levels_step; [reflexivity|done..| |by apply lookup_insert_eq|lia].
      eapply _VmMapPage_leaf; done. }
    split; [|by eapply tables_leaf|done|done| |].
    + eapply area_mono; [done|]. intros a Ha. apply lookup_insert_is_Some'. by right.
    + intros a Hf. apply lookup_insert_ne, not_eq_sym. apply foreign_entry; [done..|].
      intros ->. pose proof (tb_inj _ _ _ _ _ _ _ Htb _ _ _ Hk (tb_root _ _ _ _ _ _ _ Htb)). congruence.
    + intros pg'. unfold pte at 1. erewrite page_entry_leaf; [|done|done|by eexists].
      fold pg. destruct (decide (pg' = pg)) as [->|]; [|done].
      unfold new_pte at 1. rewrite pte_value_present. cbn [fmap option_fmap option_map snd].
      fold (new_pte va). rewrite Hpte. unfold mapped_pte.
      destruct Hnew as [H|H]; rewrite H; [reflexivity|destruct (present e); reflexivity].
  - assert (present e = true ∧ inval = false) as [Hp Hinv].
    { split; [destruct (present e)|destruct inval]; tauto. }
    eexists w, _. split.
    { erewrite walk_levels_step; [reflexivity|done..| |done|lia].
      apply (_VmMapPage_present _ _ _ _ _ _ _ _ e); done. }
    split; try done. intros pg'. fold pg. destruct (decide (pg' = pg)) as [->|]; [|done].
    rewrite Hpte, Hp. unfold mapped_pte. by rewrite Hinv.
Qed.

(** The level at which a table is added. *)
Record dir_result (l k pg : Z) (w : gmap Z Z) (cur : Z) (T : gmap (Z * Z) Z) (w1 : gmap Z Z) (e : Z) : Prop := {
  dr_area : area w1;
  dr_tables : tables w1 (cur + 1) (<[(l + 1, prefix (l + 1) pg) := cur]> T);
  dr_entry : w1 !! addr k (index l pg) = Some e;
  dr_large : large e = false;
  dr_frame : frame_of e = base / 4096 + cur;
  dr_foreign a : foreign a → w1 !! a = w !! a;
  dr_pte pg' : pte w1 (<[(l + 1, prefix (l + 1) pg) := cur]> T) pg' = pte w T pg'
}.
Lemma map_dir cr3 va l k w cur inv rel T e :
  1 ≤ l < 4 → 0 < va → area w → tables w cur T → T !! (l, prefix l (page va)) = Some k →
  owned (index 1 (page va)) → T !! (l + 1, prefix (l + 1) (page va)) = None → cur < frames →
  w !! addr k (index l (page va)) = Some e → present e = false →
  ∃ w1 e1 inv1, _VmMapPage off cr3 (addr k (index l (page va))) va l map_ctx (st w cur inv rel)
      = Ret ((true, map_ctx), st w1 (cur + 1) inv1 rel)
    ∧ dir_result l k (page va) w cur T w1 e1.
Proof.
  intros Hl Hva Har Htb Hk Ho Hnew Hcur He Hp. set (pg := page va) in *.
  pose proof (index_range l pg) as Hi. pose proof (table_frame off base frames owned w cur T Htb _ _ _ Hk) as Hkf.
  pose proof (tb_frame _ _ _ _ _ _ _ Htb _ _ _ Hk) as Hkc. pose proof (tb_cur _ _ _ _ _ _ _ Htb) as Hc1.
  pose proof Har as [[Hb1 [Hb2 Hb3]] Hfr _ _].
  assert (Hroot : k = 0 → owned (index l pg)).
  { intros ->. pose proof (tb_inj _ _ _ _ _ _ _ Htb _ _ _ Hk (tb_root _ _ _ _ _ _ _ Htb)) as [= -> _]. exact Ho. }
  assert (Hol : l = 1 → owned (index l pg)) by (intros ->; exact Ho).
  set (e1 := pte_value (base + 4096 * cur) dir_flags).
  assert (He1 : new_table_words w cur k (index l pg) !! addr k (index l pg) = Some e1)
    by (apply new_words_entry; lia).
  assert (Hl1 : large e1 = false) by (apply pte_value_dir; reflexivity).
  assert (Hf1 : frame_of e1 = base / 4096 + cur).
  { unfold e1. rewrite pte_value_frame. change (2 ^ 12) with 4096.
    replace ((base + 4096 * cur) / 4096) with (base / 4096 + cur) by lia. apply Z.mod_small. lia. }
  exists (new_table_words w cur k (index l pg)), e1, (addr cur 0 :: inv).
  split; [apply (_VmMapPage_dir _ _ _ _ _ _ _ _ _ e); first [assumption|lia]|].
  rewrite prefix_next in Hnew by lia.
  split; [|rewrite prefix_next by lia|exact He1|exact Hl1|exact Hf1| |intros pg'; unfold pte; rewrite prefix_next by lia; f_equal].
  - eapply area_mono; [exact Har|]. intros a. apply new_words_mono.
  - apply (tables_new off base frames owned w _ cur T l _ k _ e1); first
      [assumption|lia|apply pte_value_present|intros; apply new_words_zero; lia|intros; apply new_words_same; first [lia|assumption]].
  - intros a Ha. apply new_words_foreign; first [assumption|lia].
  - apply (page_entry_new off base frames owned w _ cur T l _ k _ e1); first
      [assumption|lia|apply pte_value_present|intros; apply new_words_zero; lia|intros; apply new_words_same; first [lia|assumption]].
Qed.

Lemma map_levels cr3 va n l k w cur inv rel T :
  l + Z.of_nat n = 4 → 1 ≤ l → 0 < va → area w → tables w cur T →
  T !! (l, prefix l (page va)) = Some k → owned (index 1 (page va)) →
  cur + missing T l n (page va) ≤ frames →
  ∃ w' inv' T', walk_levels off cr3 (_VmMapPage off) va (offsets_from l (S n) (page va)) l
      (base + 4096 * k) map_ctx (st w cur inv rel)
      = Ret (map_ctx, st w' (cur + missing T l n (page va)) inv' rel)
    ∧ map_result va l w T w' (cur + missing T l n (page va)) T'.
Proof.
  revert l k w cur inv T. induction n as [|n IH]; intros l k w cur inv T Hl Hl1 Hva Har Htb Hk Ho Hc;
    cbn [missing] in Hc |- *; rewrite ?Z.add_0_r in *.
  { assert (l = 4) as -> by lia. edestruct map_leaf as (w' & inv' & Hr & Hres); [done..|].
    by exists w', inv', T. }
  set (pg := page va) in *. pose proof (index_range l pg) as Hi.
  pose proof (table_frame off base frames owned w cur T Htb _ _ _ Hk) as Hkf.
  pose proof (addr_bounds off base frames w Har k _ Hkf Hi) as [Ha1 Ha2].
  destruct (tb_dir _ _ _ _ _ _ _ Htb l _ k (index l pg) Hk) as (e & He & Hm);
    [lia|done|by intros ->|]. rewrite <-prefix_next in Hm by lia.
  rewrite offsets_from_S.
  destruct (T !! (l + 1, prefix (l + 1) pg)) as [k'|] eqn:E.
  - destruct Hm as (Hp & Hlg & Hf). rewrite Z.add_0_l in *.
    pose proof (table_frame off base frames owned w cur T Htb _ _ _ E) as Hkf'.
    destruct (IH (l + 1) k' w cur inv T) as (w' & inv' & T' & Hr & Hres); try done; [lia|lia|].
    exists w', inv', T'. split.
    + erewrite walk_levels_step; [|done|done|done|lia| |done|done].
      * rewrite Hf, (frame_base off base frames w) by done. exact Hr.
      * apply (_VmMapPage_present _ _ _ _ _ _ _ _ e); (done || lia).
    + destruct Hres as [R1 R2 R3 R4 R5 R6]. split; try done. intros j Hj.
      destruct (decide (j = l)) as [->|]; [|apply R4; lia].
      eexists. eapply lookup_weaken; [exact Hk|done].
  - assert (0 ≤ missing T (l + 1) n pg) as Hmiss.
    { clear. revert l. induction n as [|n IH]; intros l; cbn [missing]; [lia|].
      specialize (IH (l + 1)). destruct (T !! _); lia. }
    destruct (map_dir cr3 va l k w cur inv rel T e) as (w1 & e1 & inv1 & Hcb & [D1 D2 D3 D4 D5 D6 D7]);
      try assumption; [lia|lia|]. fold pg in Hcb, D2, D3, D7.
    set (T1 := <[(l + 1, prefix (l + 1) pg) := cur]> T) in *.
    pose proof (tb_cur _ _ _ _ _ _ _ Htb) as Hcur.
    assert (HT1 : T1 !! (l + 1, prefix (l + 1) pg) = Some cur) by apply lookup_insert_eq.
    assert (Hms : missing T1 (l + 1) n pg = missing T (l + 1) n pg) by (apply missing_insert; lia).
    destruct (IH (l + 1) cur w1 (cur + 1) inv1 T1) as (w' & inv' & T' & Hr & Hres);
      try assumption; [lia|lia|fold pg; lia|]. fold pg in Hr, Hres. rewrite Hms in Hr, Hres.
    replace (cur + 1 + missing T (l + 1) n pg) with (cur + (1 + missing T (l + 1) n pg)) in Hr, Hres by lia.
    exists w', inv', T'. split.
    + erewrite walk_levels_step; [|exact Har|exact Hkf|exact Hi|lia|exact Hcb|exact D3|intros _; exact D4].
      rewrite D5, (frame_base off base frames w) by first [assumption|lia]. exact Hr.
    + destruct Hres as [R1 R2 R3 R4 R5 R6].
      assert (T ⊆ T') as Hsub by (etrans; [by apply insert_subseteq|exact R3]).
      split; [exact R1|exact R2|exact Hsub| | |].
      * intros j Hj. destruct (decide (j = l)) as [->|]; [|apply R4; lia].
        eexists. eapply lookup_weaken; [exact Hk|exact Hsub].
      * intros a Ha. rewrite R5 by exact Ha. by apply D6.
      * intros pg'. rewrite R6. by rewrite !D7.
Qed.

(** The tables that [n] pages from page [p] on can lack: those of the levels 2 to 4 that hold
    one of them. *)
Definition tables_needed (p n : Z) : Z :=
  (prefix 2 (p + n - 1) - prefix 2 p + 1) + (prefix 3 (p + n - 1) - prefix 3 p + 1)
  + (prefix 4 (p + n - 1) - prefix 4 p + 1).

(** One more page costs the tables that the page before it does not share. *)
Lemma missing_next T pg (prev : Z → Z) :
  (∀ j, 2 ≤ j ≤ 4 → prev j ≤ prefix j pg) →
  (∀ j, 2 ≤ j ≤ 4 → prev j = prefix j pg → is_Some (T !! (j, prefix j pg))) →
  missing T 1 3 pg ≤ (prefix 2 pg - prev 2) + (prefix 3 pg - prev 3) + (prefix 4 pg - prev 4).
Proof.
  intros Hle Hsome. cbn [missing]. change (1 + 1) with 2. change (2 + 1) with 3. change (3 + 1) with 4.
  assert (∀ j, 2 ≤ j ≤ 4 →
    match T !! (j, prefix j pg) with Some _ => 0 | None => 1 end ≤ prefix j pg - prev j) as Hone.
  { intros j Hj. specialize (Hle j Hj). destruct (T !! (j, prefix j pg)) eqn:E; [lia|].
    destruct (decide (prev j = prefix j pg)) as [Heq|]; [|lia].
    destruct (Hsome j Hj Heq). congruence. }
  pose proof (Hone 2). pose proof (Hone 3). pose proof (Hone 4). lia.
Qed.

Section Range.
Variables (cr3 : Z) (n : nat).
Abbreviation P := (page va0).
Hypotheses (Hva0 : 0 < va0) (Htop : va0 + 4096 * Z.of_nat n ≤ 2 ^ 64) (HP : P + Z.of_nat n ≤ 2 ^ 36)
  (Hown : ∀ i, 0 ≤ i < Z.of_nat n → owned (index 1 (P + i))).
Definition prev (i j : Z) : Z := if decide (i = 0) then prefix j P - 1 else prefix j (P + i - 1).

Lemma map_pages m i w cur inv rel T :
  i + Z.of_nat m = Z.of_nat n → 0 ≤ i → area w → tables w cur T →
  (0 < i → ∀ j, 1 ≤ j ≤ 4 → is_Some (T !! (j, prefix j (P + i - 1)))) →
  (∀ e, e = P + Z.of_nat n - 1 → 0 < Z.of_nat m →
     cur + (prefix 2 e - prev i 2) + (prefix 3 e - prev i 3) + (prefix 4 e - prev i 4) ≤ frames) →
  ∃ w' cur' inv' T',
    for_fold m i map_ctx (λ i ctx, walk_levels off cr3 (_VmMapPage off) (va0 + 4096 * i)
      (offsets_from 1 4 (P + i)) 1 base ctx) (st w cur inv rel)
      = Ret (map_ctx, st w' cur' inv' rel)
    ∧ area w' ∧ tables w' cur' T'
    ∧ (cur ≤ cur' ∧ (m = O → cur' = cur) ∧ ∀ e, e = P + Z.of_nat n - 1 → 0 < Z.of_nat m →
         cur' ≤ cur + (prefix 2 e - prev i 2) + (prefix 3 e - prev i 3) + (prefix 4 e - prev i 4))
    ∧ (∀ a, foreign a → w' !! a = w !! a)
    ∧ ∀ pg, pte w' T' pg = if decide (P + i ≤ pg < P + Z.of_nat n)
        then mapped_pte (pte w T pg) (va0 + 4096 * (pg - P)) else pte w T pg.
Proof using Hva0 Htop HP Hown.
  revert i w cur inv T. induction m as [|m IH]; intros i w cur inv T Him Hi Har Htb Hprev Hneed;
    cbn [for_fold].
  { exists w, cur, inv, T. do 3 (split; [done|]). split; [split_and!; [lia|done|intros; lia]|]. split; [done|].
    intros pg. by rewrite decide_False by lia. }
  set (pg := P + i). pose proof (page_range va0) as HP0.
  assert (Hpage : page (va0 + 4096 * i) = pg) by (apply page_add; lia).
  assert (Hmiss : missing T 1 3 pg
    ≤ (prefix 2 pg - prev i 2) + (prefix 3 pg - prev i 3) + (prefix 4 pg - prev i 4)).
  { apply missing_next; intros j Hj; unfold prev; destruct (decide (i = 0)) as [->|].
    - pose proof (prefix_mono j P pg). lia.
    - apply prefix_mono; lia.
    - unfold pg. rewrite Z.add_0_r. lia.
    - intros <-. apply Hprev; lia. }
  specialize (Hneed (P + Z.of_nat n - 1) eq_refl ltac:(lia)).
  assert (Hrest : ∀ j, 2 ≤ j ≤ 4 → prefix j pg ≤ prefix j (P + Z.of_nat n - 1))
    by (intros j Hj; apply prefix_mono; lia).
  pose proof (Hrest 2). pose proof (Hrest 3). pose proof (Hrest 4).
  destruct (map_levels cr3 (va0 + 4096 * i) 3 1 0 w cur inv rel T) as (w1 & inv1 & T1 & Hr & [R1 R2 R3 R4 R5 R6]);
    rewrite ?Hpage; try assumption; try lia.
  { rewrite prefix_root by lia. apply (tb_root _ _ _ _ _ _ _ Htb). }
  { apply Hown. lia. }
  rewrite Hpage in Hr, R2, R4, R6. rewrite Z.mul_0_r, Z.add_0_r in Hr. mrun Hr.
  assert (0 ≤ missing T 1 3 pg) by (cbn [missing]; destruct (T !! _), (T !! _), (T !! _); lia).
  destruct (IH (i + 1) w1 (cur + missing T 1 3 pg) inv1 T1) as (w' & cur' & inv' & T' & Hr' & A1 & A2 & A3 & A4 & A5);
    try assumption; try lia.
  { intros _ j Hj. replace (P + (i + 1) - 1) with pg by (unfold pg; lia). by apply R4. }
  { intros e -> Hm. unfold prev. destruct (decide (i + 1 = 0)); [lia|].
    replace (P + (i + 1) - 1) with pg by (unfold pg; lia). lia. }
  exists w', cur', inv', T'. split; [exact Hr'|]. split; [done|]. split; [done|].
  assert (Hstep : ∀ j, prev (i + 1) j = prefix j pg).
  { intros j. unfold prev. rewrite decide_False by lia. f_equal. unfold pg. lia. }
  destruct A3 as (A3 & A30 & A3'). split.
  { split; [lia|]. split; [done|]. intros e -> _. destruct (decide (m = O)) as [->|].
    - rewrite A30 by done.
      assert (∀ j, prefix j (P + Z.of_nat n - 1) = prefix j pg) as Heq by (intros j; f_equal; unfold pg; lia).
      rewrite !Heq. lia.
    - specialize (A3' _ eq_refl ltac:(lia)). rewrite !Hstep in A3'. lia. }
  split; [intros a Ha; rewrite A4 by done; by apply R5|].
  intros pg'. rewrite A5, R6. destruct (decide (pg' = pg)) as [->|Hne].
  - rewrite decide_False by (unfold pg; lia). rewrite decide_True by (unfold pg; lia).
    by replace (pg - P) with i by (unfold pg; lia).
  - destruct (decide (P + (i + 1) ≤ pg' < P + Z.of_nat n)).
    + by rewrite decide_True by lia.
    + by rewrite decide_False by (unfold pg in *; lia).
Qed.
End Range.
End Map.

(** * Unmapping *)
Section Unmap.
Variables (s0 : PAGING) (pd : PPAGING_DATA) (off base frames : Z) (kernel : bool).
Abbreviation st := (st s0 pd base frames kernel).
Abbreviation addr := (addr off base).
Abbreviation area := (area off base frames).
Abbreviation page_entry := (page_entry off base).
Variables (MmuReleaseMemory : Z → Z → M PAGING unit) (release : bool).
(** mmu.h: the frames are scheduled to be released by the zero worker thread. *)
Hypothesis Hrelease : ∀ pa s,
  MmuReleaseMemory pa 1 s = Ret (tt, set_released (pg_released s ++ [(pa, 1)]) s).

Definition unmap_ctx : VMM_MAP_UNMAP_PAGE_WALK_CONTEXT := mkMapContext None 0 0 0 false false release.
(** The frames released with a page that was mapped by [e]. *)
Definition released_with (e : Z) : list (Z * Z) := if release then [(4096 * frame_of e, 1)] else [].

Lemma _VmUnmapPage_absent cr3 l p va w cur inv rel e :
  w !! p = Some e → 0 < p → 0 < va → 1 ≤ l ≤ 4 → present e = false →
  _VmUnmapPage MmuReleaseMemory cr3 p va l unmap_ctx (st w cur inv rel)
  = Ret ((false, unmap_ctx), st w cur inv rel).
Proof.
  intros He Hp Hva Hl Hpr. unfold _VmUnmapPage.
  rewrite (callback_start s0 pd base frames kernel l p va _ _ _ _ _ e) by assumption. by rewrite Hpr.
Qed.
Lemma _VmUnmapPage_dir cr3 l p va w cur inv rel e :
  w !! p = Some e → 0 < p → 0 < va → 1 ≤ l < 4 → present e = true →
  _VmUnmapPage MmuReleaseMemory cr3 p va l unmap_ctx (st w cur inv rel)
  = Ret ((true, unmap_ctx), st w cur inv rel).
Proof.
  intros He Hp Hva Hl Hpr. unfold _VmUnmapPage.
  rewrite (callback_start s0 pd base frames kernel l p va _ _ _ _ _ e) by first [assumption|lia].
  rewrite Hpr. cbn [negb]. change PAGING_TABLES_LAST_LEVEL with 4. by rewrite (proj2 (Z.eqb_neq l 4)) by lia.
Qed.
Lemma _VmUnmapPage_leaf cr3 p va w cur inv rel e :
  w !! p = Some e → 0 < p → p + 8 ≤ 2 ^ 64 → 0 < va → present e = true →
  _VmUnmapPage MmuReleaseMemory cr3 p va 4 unmap_ctx (st w cur inv rel)
  = Ret ((true, unmap_ctx), st (<[p := 0]> w) cur (va :: inv) (rel ++ released_with e)).
Proof.
  intros He Hp Hp2 Hva Hpr. unfold _VmUnmapPage.
  rewrite (callback_start s0 pd base frames kernel 4 p va _ _ _ _ _ e) by first [assumption|lia].
  rewrite Hpr. cbn [negb]. change PAGING_TABLES_LAST_LEVEL with 4. rewrite Z.eqb_refl.
  rewrite bind_assoc. erewrite bind_Ret by (by apply PteGetPhysicalAddress_run). cbn beta iota.
  rewrite bind_assoc. erewrite bind_Ret by (apply PteUnmap_run; [by eexists|done|done]). cbn beta iota.
  rewrite bind_assoc.
  erewrite bind_Ret by (unfold PageInvalidateTlb; munfold; rewrite st_invalidated, set_invalidated_st; reflexivity).
  cbn beta iota. cbn [unmap_ctx ReleaseMemory]. unfold released_with. destruct release.
  - rewrite (bind_Ret _ _ _ _ _ (Hrelease _ _)), st_released, set_released_st. reflexivity.
  - rewrite app_nil_r. reflexivity.
Qed.

Variable owned : Z → Prop.
Abbreviation tables := (tables off base frames owned).

(** The state after the walk for one page. *)
Definition unmapped (pe : option (Z * Z)) (va : Z) (w : gmap Z Z) (cur : Z) (inv : list Z) (rel : list (Z * Z)) : PAGING :=
  match pe with
  | Some (a, e) => st (<[a := 0]> w) cur (va :: inv) (rel ++ released_with e)
  | None => st w cur inv rel
  end.

Lemma unmap_levels cr3 va n l k w cur inv rel T :
  l + Z.of_nat n = 4 → 1 ≤ l → 0 < va → area w → tables w cur T →
  T !! (l, prefix l (page va)) = Some k → owned (index 1 (page va)) →
  walk_levels off cr3 (_VmUnmapPage MmuReleaseMemory) va (offsets_from l (S n) (page va)) l
    (base + 4096 * k) unmap_ctx (st w cur inv rel)
  = Ret (unmap_ctx, unmapped (page_entry w T (page va)) va w cur inv rel).
Proof.
  revert l k. induction n as [|n IH]; intros l k Hl Hl1 Hva Har Htb Hk Ho; set (pg := page va) in *;
    pose proof (index_range l pg) as Hi; pose proof (table_frame off base frames owned w cur T Htb _ _ _ Hk) as Hkf;
    pose proof (addr_bounds off base frames w Har k _ Hkf Hi) as [Ha1 Ha2]; rewrite offsets_from_S.
  - assert (l = 4) as -> by lia. cbn [offsets_from seq fmap list_fmap].
    destruct (ar_mapped _ _ _ _ Har k _ Hkf Hi) as [e He].
    unfold PageTablesSpec.page_entry. rewrite Hk. cbn [mbind option_bind]. rewrite He. cbn [mbind option_bind].
    destruct (present e) eqn:Hp; cbn [unmapped].
    + erewrite walk_levels_step; [reflexivity|exact Har|exact Hkf|exact Hi|lia| |apply lookup_insert_eq|lia].
      by apply _VmUnmapPage_leaf.
    + cbn [walk_levels]. fold (entry_at off (base + 4096 * k) (index 4 pg)).
      rewrite (entry_addr off base frames w) by assumption.
      by mrun (_VmUnmapPage_absent cr3 4 (addr k (index 4 pg)) va w cur inv rel e He Ha1 Hva ltac:(lia) Hp).
  - destruct (tb_dir _ _ _ _ _ _ _ Htb l _ k (index l pg) Hk) as (e & He & Hm);
      [lia|done|by intros ->|]. rewrite <-prefix_next in Hm by lia.
    destruct (T !! (l + 1, prefix (l + 1) pg)) as [k'|] eqn:E.
    + destruct Hm as (Hp & Hlg & Hf).
      pose proof (table_frame off base frames owned w cur T Htb _ _ _ E) as Hkf'.
      erewrite walk_levels_step; [|exact Har|exact Hkf|exact Hi|lia| |exact He|intros _; exact Hlg].
      * rewrite Hf, (frame_base off base frames w) by assumption. apply IH; first [assumption|lia].
      * apply (_VmUnmapPage_dir _ _ _ _ _ _ _ _ e); first [assumption|lia].
    + cbn [walk_levels]. fold (entry_at off (base + 4096 * k) (index l pg)).
      rewrite (entry_addr off base frames w) by assumption.
      mrun (_VmUnmapPage_absent cr3 l (addr k (index l pg)) va w cur inv rel e He Ha1 Hva ltac:(lia) Hm).
      unfold PageTablesSpec.page_entry.
      rewrite (tables_above off base frames owned w cur T Htb (l + 1)) by first [assumption|lia]. reflexivity.
Qed.

(** The frames released by unmapping the [n] pages from page [p] on, in that order. *)
Definition released_pages (entry : Z → option Z) (p i n : Z) : list (Z * Z) :=
  flat_map (λ j, match entry (p + j) with Some e => released_with e | None => [] end) (seqZ i n).
Lemma released_pages_ext f g p i n :
  (∀ j, i ≤ j < i + n → f (p + j) = g (p + j)) → released_pages f p i n = released_pages g p i n.
Proof.
  intros Hfg. unfold released_pages. assert (Forall (λ j, f (p + j) = g (p + j)) (seqZ i n)) as Hall.
  { apply Forall_forall. intros j Hj%elem_of_seqZ. by apply Hfg. }
  induction Hall as [|j l Hj _ IH]; cbn; [done|]. by rewrite Hj, IH.
Qed.

Abbreviation pte := (pte off base).
Abbreviation foreign := (foreign off base frames owned).

Lemma unmapped_step va w cur inv rel T :
  area w → tables w cur T → owned (index 1 (page va)) →
  ∃ w' inv', unmapped (page_entry w T (page va)) va w cur inv rel
    = st w' cur inv' (rel ++ match pte w T (page va) with Some e => released_with e | None => [] end)
  ∧ area w' ∧ tables w' cur T ∧ (∀ a, foreign a → w' !! a = w !! a)
  ∧ ∀ pg, pte w' T pg = if decide (pg = page va) then None else pte w T pg.
Proof.
  intros Har Htb Ho. set (pg := page va) in *. pose proof (index_range 4 pg) as Hi.
  unfold PageTablesSpec.pte. destruct (page_entry w T pg) as [[a e]|] eqn:Hpe; cbn [unmapped fmap option_fmap option_map snd].
  - assert (Hk : ∃ k, T !! (4, prefix 4 pg) = Some k ∧ a = addr k (index 4 pg) ∧ w !! a = Some e).
    { unfold PageTablesSpec.page_entry in Hpe. destruct (T !! (4, prefix 4 pg)) as [k|]; [|done].
      cbn [mbind option_bind] in Hpe. destruct (w !! addr k (index 4 pg)) as [e'|] eqn:He; [|done].
      cbn [mbind option_bind] in Hpe. destruct (present e'); [|done]. injection Hpe as <- <-. eauto. }
    destruct Hk as (k & Hk & -> & He). eexists _, _. split; [reflexivity|].
    split; [|split; [|split]].
    + eapply area_mono; [exact Har|]. intros a Ha. apply lookup_insert_is_Some'. by right.
    + by eapply tables_leaf.
    + intros a Ha. apply lookup_insert_ne, not_eq_sym.
      apply (foreign_entry off base frames owned); [exact Ha|by eapply table_frame|exact Hi|].
      intros ->. pose proof (tb_inj _ _ _ _ _ _ _ Htb _ _ _ Hk (tb_root _ _ _ _ _ _ _ Htb)). congruence.
    + intros pg'. erewrite page_entry_leaf; [|exact Htb|exact Hk|by eexists].
      by destruct (decide (pg' = pg)).
  - exists w, inv. rewrite app_nil_r. do 4 (split; [done|]). intros pg'.
    destruct (decide (pg' = pg)) as [->|]; [|done]. by rewrite Hpe.
Qed.

Section Range.
Variables (cr3 va0 : Z) (n : nat).
Abbreviation P := (page va0).
Hypotheses (Hva0 : 0 < va0) (HP : P + Z.of_nat n ≤ 2 ^ 36)
  (Hown : ∀ i, 0 ≤ i < Z.of_nat n → owned (index 1 (P + i))).

Lemma unmap_pages m i w cur inv rel T :
  i + Z.of_nat m = Z.of_nat n → 0 ≤ i → area w → tables w cur T →
  ∃ w' inv',
    for_fold m i unmap_ctx (λ i ctx, walk_levels off cr3 (_VmUnmapPage MmuReleaseMemory)
      (va0 + 4096 * i) (offsets_from 1 4 (P + i)) 1 base ctx) (st w cur inv rel)
      = Ret (unmap_ctx, st w' cur inv' (rel ++ released_pages (pte w T) P i (Z.of_nat m)))
    ∧ area w' ∧ tables w' cur T ∧ (∀ a, foreign a → w' !! a = w !! a)
    ∧ ∀ pg, pte w' T pg = if decide (P + i ≤ pg < P + Z.of_nat n) then None else pte w T pg.
Proof.
  revert i w inv rel. induction m as [|m IH]; intros i w inv rel Him Hi Har Htb; cbn [for_fold].
  { exists w, inv. rewrite app_nil_r. do 4 (split; [done|]). intros pg. by rewrite decide_False by lia. }
  pose proof (page_range va0) as HP0.
  assert (Hpage : page (va0 + 4096 * i) = P + i) by (apply page_add; lia).
  assert (Ho : owned (index 1 (page (va0 + 4096 * i)))) by (rewrite Hpage; apply Hown; lia).
  assert (Hroot : T !! (1, prefix 1 (page (va0 + 4096 * i))) = Some 0).
  { rewrite prefix_root by apply page_range. apply (tb_root _ _ _ _ _ _ _ Htb). }
  assert (Hlv := unmap_levels cr3 (va0 + 4096 * i) 3 1 0 w cur inv rel T
    ltac:(lia) ltac:(lia) ltac:(lia) Har Htb Hroot Ho).
  destruct (unmapped_step (va0 + 4096 * i) w cur inv rel T Har Htb Ho) as (w1 & inv1 & Heq & A1 & A2 & A3 & A4).
  rewrite Heq in Hlv. rewrite Hpage in Hlv, A4. rewrite Z.mul_0_r, Z.add_0_r in Hlv. mrun Hlv.
  destruct (IH (i + 1) w1 inv1 (rel ++ match pte w T (P + i) with Some e => released_with e | None => [] end))
    as (w' & inv' & Hr & B1 & B2 & B3 & B4); try assumption; try lia.
  exists w', inv'. split; [|split; [done|split; [done|split]]].
  - rewrite Hr. do 3 f_equal. rewrite <-app_assoc. f_equal.
    unfold released_pages at 2. rewrite seqZ_cons by lia. cbn [flat_map]. f_equal.
    fold (released_pages (pte w T) P (Z.succ i) (Z.pred (Z.of_nat (S m)))).
    replace (Z.succ i) with (i + 1) by lia. replace (Z.pred (Z.of_nat (S m))) with (Z.of_nat m) by lia.
    apply released_pages_ext. intros j Hj. rewrite A4. by rewrite decide_False by lia.
  - intros a Ha. rewrite B3 by done. by apply A3.
  - intros pg. rewrite B4, A4. destruct (decide (pg = P + i)) as [->|].
    + rewrite decide_False by lia. by rewrite decide_True by lia.
    + destruct (decide (P + (i + 1) ≤ pg < P + Z.of_nat n)).
      * by rewrite decide_True by lia.
      * by rewrite decide_False by lia.
Qed.
End Range.
End Unmap.

(** * Translating *)
Section Retrieve.
Variables (s0 : PAGING) (pd : PPAGING_DATA) (off base frames : Z) (kernel : bool).
Abbreviation st := (st s0 pd base frames kernel).
Variables (wantA wantD : bool).

(** The walk meets only entries in memory, and large pages of 2 MB but none of 1 GB. *)
Fixpoint levels_ok (w : gmap Z Z) (offsets : list Z) (i pa : Z) : bool :=
  match offsets with
  | [] => true
  | offset :: offsets' =>
      let a := entry_at off pa offset in
      (0 <? a) && (a + 8 <=? 2 ^ 64) &&
      match w !! a with
      | None => false
      | Some e => negb (present e) || (i =? 4) ||
          (if large e then i =? 3 else levels_ok w offsets' (i + 1) (4096 * frame_of e))
      end
  end.
Definition walk_ok (w : gmap Z Z) (cr3 va : Z) : bool :=
  levels_ok w (offsets_from 1 4 (page va)) 1 (4096 * get_field PML4_Pcide_PhysicalAddress cr3).

(** The address to which the entry [e] of level [l] maps the page at [va]. *)
Definition page_address (l va e : Z) : Z :=
  if l =? 3 then 2 ^ 21 * get_field PD_ENTRY_2MB_PhysicalAddress e + va mod 2 ^ 21
  else 4096 * frame_of e.
Definition cleared (e : Z) : Z :=
  let e := if wantA then set_field PT_ENTRY_Accessed 0 e else e in
  if wantD then set_field PT_ENTRY_Dirty 0 e else e.
Definition retrieve_ctx : VMM_RETRIEVE_PHYS_ACCESS_PAGE_WALK_CONTEXT :=
  mkRetrieveContext 0 false false wantA wantD.
Definition retrieved (r : option (Z * Z * Z)) (va : Z) : VMM_RETRIEVE_PHYS_ACCESS_PAGE_WALK_CONTEXT :=
  match r with
  | Some (l, a, e) => mkRetrieveContext (page_address l va e) (Z.testbit e 5) (Z.testbit e 6) wantA wantD
  | None => retrieve_ctx
  end.
Definition retrieved_state (r : option (Z * Z * Z)) (va : Z) (w : gmap Z Z) (cur : Z) (inv : list Z)
    (rel : list (Z * Z)) : PAGING :=
  match r with
  | Some (l, a, e) => st (<[a := cleared e]> w) cur (if wantA || wantD then va :: inv else inv) rel
  | None => st w cur inv rel
  end.

Lemma retrieve_access_run p va pa w cur inv rel e :
  w !! p = Some e →
  retrieve_access p va (mkRetrieveContext pa false false wantA wantD) (st w cur inv rel)
  = Ret (mkRetrieveContext pa (Z.testbit e 5) (Z.testbit e 6) wantA wantD,
      st (<[p := cleared e]> w) cur (if wantA || wantD then va :: inv else inv) rel).
Proof.
  intros He. unfold retrieve_access.
  mrun (read_field_run s0 pd base frames kernel w cur inv rel p PT_ENTRY_Accessed e He).
  mrun (read_field_run s0 pd base frames kernel w cur inv rel p PT_ENTRY_Dirty e He).
  cbn [ClearAccessed ClearDirty PhysicalAddress]. unfold PT_ENTRY_Accessed, PT_ENTRY_Dirty.
  rewrite !get_field_1_testbit by lia.
  assert (∀ b, (bit b =? 1) = b) as Hbit by (by intros []). rewrite !Hbit.
  unfold cleared, PageInvalidateTlb, PT_ENTRY_Accessed, PT_ENTRY_Dirty.
  assert (Hw := write_field_run s0 pd base frames kernel). destruct wantA, wantD; cbn [orb].
  - erewrite bind_Ret by (apply Hw, He). erewrite bind_Ret by (apply Hw, lookup_insert_eq).
    rewrite insert_insert_eq. munfold. by rewrite st_invalidated, set_invalidated_st.
  - erewrite bind_Ret by (apply Hw, He). munfold. by rewrite st_invalidated, set_invalidated_st.
  - munfold. rewrite (Hw w _ _ _ _ _ _ _ He). by rewrite st_invalidated, set_invalidated_st.
  - rewrite insert_id by done. munfold. reflexivity.
Qed.

Lemma PteLargePageGetPhysicalAddress_run w cur inv rel p e :
  w !! p = Some e → 0 < p →
  PteLargePageGetPhysicalAddress p (st w cur inv rel)
  = Ret (2 ^ 21 * get_field PD_ENTRY_2MB_PhysicalAddress e, st w cur inv rel).
Proof.
  intros Hp Hr. unfold PteLargePageGetPhysicalAddress.
  massert ltac:(unfold NULL; apply negb_true_iff, Z.eqb_neq; lia).
  mrun (read_field_run s0 pd base frames kernel w cur inv rel p PD_ENTRY_2MB_PhysicalAddress e Hp).
  change SHIFT_FOR_LARGE_PAGE with 21. rewrite Z.shiftl_mul_pow2, Z.mul_comm by lia.
  pose proof (get_field_range PD_ENTRY_2MB_PhysicalAddress e ltac:(cbn; lia)) as Hf.
  cbn [PD_ENTRY_2MB_PhysicalAddress snd] in Hf. rewrite u64_id by lia. reflexivity.
Qed.

Lemma _VmRetrievePhyAccess_absent cr3 l p va w cur inv rel e :
  w !! p = Some e → 0 < p → 0 < va → 1 ≤ l ≤ 4 → present e = false →
  _VmRetrievePhyAccess cr3 p va l retrieve_ctx (st w cur inv rel)
  = Ret ((false, retrieve_ctx), st w cur inv rel).
Proof.
  intros He Hp Hva Hl Hpr. unfold _VmRetrievePhyAccess.
  rewrite (callback_start s0 pd base frames kernel l p va _ _ _ _ _ e) by assumption.
  rewrite Hpr. reflexivity.
Qed.
Lemma _VmRetrievePhyAccess_dir cr3 l p va w cur inv rel e :
  w !! p = Some e → 0 < p → 0 < va → 1 ≤ l < 4 → present e = true → large e = false →
  _VmRetrievePhyAccess cr3 p va l retrieve_ctx (st w cur inv rel)
  = Ret ((true, retrieve_ctx), st w cur inv rel).
Proof.
  intros He Hp Hva Hl Hpr Hlg. unfold _VmRetrievePhyAccess.
  rewrite (callback_start s0 pd base frames kernel l p va _ _ _ _ _ e) by first [assumption|lia].
  rewrite Hpr. cbn [negb]. change PAGING_TABLES_LAST_LEVEL with 4. change (4 - 1) with 3.
  destruct (Z.ltb_spec l 3); [reflexivity|]. assert (l = 3) as -> by lia. rewrite Z.eqb_refl.
  rewrite bind_assoc.
  mrun (read_field_run s0 pd base frames kernel w cur inv rel p PD_ENTRY_2MB_PageSize e He).
  unfold PD_ENTRY_2MB_PageSize. rewrite get_field_1_testbit by lia. fold (large e). rewrite Hlg. reflexivity.
Qed.
Lemma _VmRetrievePhyAccess_page cr3 l p va w cur inv rel e :
  w !! p = Some e → 0 < p → 0 < va < 2 ^ 64 → present e = true → l = 4 ∨ l = 3 ∧ large e = true →
  _VmRetrievePhyAccess cr3 p va l retrieve_ctx (st w cur inv rel)
  = Ret ((false, retrieved (Some (l, p, e)) va), retrieved_state (Some (l, p, e)) va w cur inv rel).
Proof.
  intros He Hp Hva Hpr Hl. unfold _VmRetrievePhyAccess.
  rewrite (callback_start s0 pd base frames kernel l p va _ _ _ _ _ e) by first [assumption|lia].
  rewrite Hpr. cbn [negb]. change PAGING_TABLES_LAST_LEVEL with 4. change (4 - 1) with 3.
  rewrite (proj2 (Z.ltb_ge l 3)) by lia. unfold retrieved, retrieved_state, page_address.
  destruct Hl as [->|[-> Hlg]].
  - change (4 =? 3) with false. cbv iota.
    rewrite bind_assoc. massert ltac:(reflexivity). rewrite bind_assoc.
    mrun (PteGetPhysicalAddress_run s0 pd base frames kernel w cur inv rel p e He Hp).
    rewrite (bind_Ret _ _ _ (false, with_PhysicalAddress (4096 * frame_of e) retrieve_ctx) (st w cur inv rel)) by reflexivity.
    cbv iota beta. unfold with_PhysicalAddress. cbn [negb retrieve_ctx Accessed Dirty ClearAccessed ClearDirty].
    by mrun (retrieve_access_run p va (4096 * frame_of e) w cur inv rel e He).
  - rewrite Z.eqb_refl. rewrite bind_assoc.
    mrun (read_field_run s0 pd base frames kernel w cur inv rel p PD_ENTRY_2MB_PageSize e He).
    unfold PD_ENTRY_2MB_PageSize. rewrite get_field_1_testbit by lia. fold (large e). rewrite Hlg.
    change (bit true =? 1) with true. cbv iota. rewrite bind_assoc.
    mrun (PteLargePageGetPhysicalAddress_run w cur inv rel p e He Hp).
    pose proof (get_field_range PD_ENTRY_2MB_PhysicalAddress e ltac:(cbn; lia)) as Hf.
    cbn [PD_ENTRY_2MB_PhysicalAddress snd] in Hf.
    set (pa := 2 ^ 21 * get_field _ _ + va mod 2 ^ 21).
    replace (PtrOffset _ _) with pa.
    2: { unfold PtrOffset, AddressOffset, PAGE_2MB_OFFSET, pa.
         replace (Z.shiftl 1 21 - 1 + 1 - 1) with (Z.ones 21) by reflexivity.
         rewrite Z.land_ones by lia. pose proof (Z.mod_pos_bound va (2 ^ 21)). rewrite u64_id by lia. reflexivity. }
    rewrite (bind_Ret _ _ _ (false, with_PhysicalAddress pa retrieve_ctx) (st w cur inv rel)) by reflexivity.
    cbv iota beta. unfold with_PhysicalAddress. cbn [negb retrieve_ctx Accessed Dirty ClearAccessed ClearDirty].
    by mrun (retrieve_access_run p va pa w cur inv rel e He).
Qed.

Lemma retrieve_levels cr3 va n l pa w cur inv rel :
  l + Z.of_nat n = 4 → 1 ≤ l → 0 < va < 2 ^ 64 → levels_ok w (offsets_from l (S n) (page va)) l pa = true →
  walk_levels off cr3 _VmRetrievePhyAccess va (offsets_from l (S n) (page va)) l pa retrieve_ctx (st w cur inv rel)
  = let r := hw_levels off w (offsets_from l (S n) (page va)) l pa in
    Ret (retrieved r va, retrieved_state r va w cur inv rel).
Proof.
  revert l pa. induction n as [|n IH]; intros l pa Hl Hl1 Hva Hok; rewrite offsets_from_S in *;
    cbn [levels_ok hw_levels walk_levels] in *; cbv zeta in *; fold (entry_at off pa (index l (page va)));
    set (p := entry_at off pa (index l (page va))) in *;
    apply andb_true_iff in Hok as [[Hp1%Z.ltb_lt Hp2%Z.leb_le]%andb_true_iff Hok];
    destruct (w !! p) as [e|] eqn:He; try discriminate; cbn [mbind option_bind];
    destruct (present e) eqn:Hpr; cbn [negb orb] in *.
  - assert (l = 4) as -> by lia. change (4 =? 4) with true. cbn [orb].
    by mrun (_VmRetrievePhyAccess_page cr3 4 p va w cur inv rel e He Hp1 Hva Hpr (or_introl eq_refl)).
  - by mrun (_VmRetrievePhyAccess_absent cr3 l p va w cur inv rel e He Hp1 ltac:(lia) ltac:(lia) Hpr).
  - rewrite (proj2 (Z.eqb_neq l 4)) in * by lia. cbn [orb] in *. destruct (large e) eqn:Hlg.
    + apply Z.eqb_eq in Hok as ->.
      by mrun (_VmRetrievePhyAccess_page cr3 3 p va w cur inv rel e He Hp1 Hva Hpr (or_intror (conj eq_refl Hlg))).
    + mrun (_VmRetrievePhyAccess_dir cr3 l p va w cur inv rel e He Hp1 ltac:(lia) ltac:(lia) Hpr Hlg). cbn [negb].
      change PAGING_TABLES_LAST_LEVEL with 4. rewrite (proj2 (Z.eqb_neq l 4)) by lia. cbn [negb].
      rewrite bind_assoc.
      mrun (read_field_run s0 pd base frames kernel w cur inv rel p PD_ENTRY_PT_PageSize e He).
      unfold PD_ENTRY_PT_PageSize. rewrite get_field_1_testbit by lia. fold (large e). rewrite Hlg.
      massert ltac:(reflexivity).
      mrun (PteGetPhysicalAddress_run s0 pd base frames kernel w cur inv rel p e He Hp1).
      apply IH; [lia|lia|exact Hva|exact Hok].
  - by mrun (_VmRetrievePhyAccess_absent cr3 l p va w cur inv rel e He Hp1 ltac:(lia) ltac:(lia) Hpr).
Qed.
End Retrieve.

(** * The operations *)
Section Operations.
Variables (off : Z) (fuel : nat) (owned : Z → Prop) (pd : PPAGING_DATA).

(** The PAGING_DATA describes a tree of tables. *)
Definition well_formed (s : PAGING) : Prop :=
  let d := paging_data pd s in
  area off (BasePhysicalAddress d) (NumberOfFrames d) (pg_words s)
  ∧ ∃ T, tables off (BasePhysicalAddress d) (NumberOfFrames d) owned (pg_words s) (CurrentIndex d) T.
(** The entry by which the processor translates an address. *)
Definition translation (s : PAGING) (va : Z) : option Z :=
  hw_pte off (pg_words s) (BasePhysicalAddress (paging_data pd s)) va.

(** Of the rest of the state only the list of invalidated pages and CurrentIndex differ, and of
    the words none that does not belong to the tree. *)
Definition only_tables_differ (s s' : PAGING) : Prop :=
  let d := paging_data pd s in
  (∃ w cur inv,
     s' = st s pd (BasePhysicalAddress d) (NumberOfFrames d) (KernelSpace d) w cur inv (pg_released s))
  ∧ ∀ a, foreign off (BasePhysicalAddress d) (NumberOfFrames d) owned a → pg_words s' !! a = pg_words s !! a.

Lemma hw_pte_tables base frames w cur T va :
  area off base frames w → tables off base frames owned w cur T → owned (index 1 (page va)) →
  hw_pte off w base va = pte off base w T (page va).
Proof.
  intros Har Htb Ho. unfold hw_pte, pte. rewrite (hw_walk_tables off base frames owned w cur T Har Htb va Ho).
  by destruct (page_entry _ _ _ _ _) as [[]|].
Qed.

(** The pages of a range, none of which wraps around the end of the address space. *)
Definition range_ok (va : Z) (n : Z) : Prop :=
  0 < va ∧ va mod 4096 = 0 ∧ 0 < n ∧ va + 4096 * n ≤ 2 ^ 64 ∧ page va + n ≤ 2 ^ 36
  ∧ ∀ i, 0 ≤ i < n → owned (index 1 (page va + i)).
Definition in_range (va n va' : Z) : Prop := page va ≤ page va' < page va + n.
#[global] Instance in_range_dec va n va' : Decision (in_range va n va').
Proof. unfold in_range. apply _. Defined.

Lemma aligned_4096 x : 0 ≤ x < 2 ^ 64 → x mod 4096 = 0 → IsAddressAligned x PAGE_SIZE = true.
Proof.
  intros Hx Hm. change PAGE_SIZE with (2 ^ 12). rewrite IsAddressAligned_pow2 by lia.
  by apply Z.eqb_eq.
Qed.

Lemma size_ok n :
  0 < n → 4096 * n < 2 ^ 64 → negb (0 =? 4096 * n) && IsAddressAligned (4096 * n) PAGE_SIZE = true.
Proof.
  intros Hn Ht. rewrite (proj2 (Z.eqb_neq _ _)) by lia. apply aligned_4096; [lia|].
  rewrite Z.mul_comm. apply Z.mod_mul. lia.
Qed.

Lemma VmmMapMemoryInternal_run s phys va n rights inval uncach :
  well_formed s → range_ok va n → 0 ≤ phys → phys mod 4096 = 0 → phys + 4096 * n ≤ 2 ^ 52 →
  (Z.to_nat n < fuel)%nat →
  CurrentIndex (paging_data pd s) + tables_needed (page va) n ≤ NumberOfFrames (paging_data pd s) →
  ∃ s', VmmMapMemoryInternal off fuel (Some pd) phys (4096 * n) va rights inval uncach s = Ret (tt, s')
  ∧ well_formed s' ∧ only_tables_differ s s'
  ∧ CurrentIndex (paging_data pd s') ≤ CurrentIndex (paging_data pd s) + tables_needed (page va) n
  ∧ ∀ va', owned (index 1 (page va')) →
      translation s' va' =
      if decide (in_range va n va')
      then mapped_pte s (KernelSpace (paging_data pd s)) phys va rights inval uncach
             (translation s va') (va + 4096 * (page va' - page va))
      else translation s va'.
Proof.
  intros [Har [T Htb]] (Hva & Hvm & Hn & Htop & HP & Hown) Hp0 Hpm Hptop Hfuel Hneed.
  set (d := paging_data pd s) in *. pose proof (page_range va) as Hpr.
  edestruct (map_pages s pd off (BasePhysicalAddress d) (NumberOfFrames d) (KernelSpace d)
    phys va rights inval uncach owned (BasePhysicalAddress d) (Z.to_nat n)) as
    (w' & cur' & inv' & T' & Hr & A1 & A2 & A3 & A4 & A5);
    [lia|lia|lia|intros i Hi; apply Hown; lia|by rewrite Z.add_0_l|lia|exact Har|exact Htb|lia| |].
  { intros e -> _. unfold prev. rewrite !decide_True by done. unfold tables_needed in Hneed.
    replace (Z.of_nat (Z.to_nat n)) with n by lia. lia. }
  eexists. split.
  { pose proof (st_self s pd) as Hs. cbv zeta in Hs. fold d in Hs. rewrite <-Hs in Hr.
    unfold VmmMapMemoryInternal. erewrite bind_Ret by reflexivity.
    massert ltac:(apply aligned_4096; lia).
    massert ltac:(by apply size_ok; lia).
    erewrite bind_Ret by apply gets_run. fold d. erewrite bind_Ret; [reflexivity|].
    replace n with (Z.of_nat (Z.to_nat n)) at 1 by lia.
    rewrite walk_pages by lia. rewrite (cr3_base off _ _ _ Har). exact Hr. }
  unfold well_formed, translation, only_tables_differ.
  rewrite st_paging, st_words. cbn [BasePhysicalAddress NumberOfFrames CurrentIndex]. fold d.
  split; [split; [done|by eexists]|]. split; [split; [|done]|split].
  - eexists _, _, _. reflexivity.
  - destruct A3 as (_ & _ & A3). specialize (A3 _ eq_refl ltac:(lia)). unfold prev in A3.
    rewrite !decide_True in A3 by done. unfold tables_needed.
    replace (Z.of_nat (Z.to_nat n)) with n in A3 by lia. lia.
  - intros va' Ho. rewrite !(hw_pte_tables _ _ _ _ _ _ A1 A2), !(hw_pte_tables _ _ _ _ _ _ Har Htb) by done.
    rewrite A5, Z.add_0_r. unfold in_range. replace (Z.of_nat (Z.to_nat n)) with n by lia. done.
Qed.

(** A CR3 of the tree: the base with any PCID. *)
Definition cr3_of (s : PAGING) (Cr3 : Z) : Prop :=
  4096 * get_field PML4_Pcide_PhysicalAddress Cr3 = BasePhysicalAddress (paging_data pd s).

Section Release.
Variable MmuReleaseMemory : Z → Z → M PAGING unit.
Hypothesis Hrelease : ∀ pa s,
  MmuReleaseMemory pa 1 s = Ret (tt, set_released (pg_released s ++ [(pa, 1)]) s).

Lemma VmmUnmapMemoryEx_run s Cr3 va n release :
  well_formed s → cr3_of s Cr3 → range_ok va n → (Z.to_nat n < fuel)%nat →
  ∃ s', VmmUnmapMemoryEx off fuel MmuReleaseMemory Cr3 va (4096 * n) release s = Ret (tt, s')
  ∧ well_formed s'
  ∧ (let d := paging_data pd s in
     (∃ w inv, s' = st s pd (BasePhysicalAddress d) (NumberOfFrames d) (KernelSpace d) w (CurrentIndex d) inv
        (pg_released s ++ released_pages release (λ pg, translation s (4096 * pg)) (page va) 0 n))
     ∧ ∀ a, foreign off (BasePhysicalAddress d) (NumberOfFrames d) owned a → pg_words s' !! a = pg_words s !! a)
  ∧ ∀ va', owned (index 1 (page va')) →
      translation s' va' = if decide (in_range va n va') then None else translation s va'.
Proof.
  intros [Har [T Htb]] Hcr (Hva & Hvm & Hn & Htop & HP & Hown) Hfuel.
  pose proof (st_self s pd) as Hs. cbv zeta in Hs. set (d := paging_data pd s) in *. pose proof (page_range va) as Hpr.
  edestruct (unmap_pages s pd off (BasePhysicalAddress d) (NumberOfFrames d) (KernelSpace d)
    MmuReleaseMemory release Hrelease owned Cr3 va (Z.to_nat n)) as (w' & inv' & Hr & A1 & A2 & A3 & A4);
    [lia|lia|intros i Hi; apply Hown; lia|by rewrite Z.add_0_l|lia|exact Har|exact Htb|].
  rewrite <-Hs in Hr. eexists. split.
  { unfold VmmUnmapMemoryEx. rewrite (proj2 (Z.eqb_neq NULL va)) by (unfold NULL; lia).
    rewrite aligned_4096 by lia. cbn [negb orb].
    pose proof (size_ok n ltac:(lia) ltac:(lia)) as [H1 H2]%andb_true_iff. apply negb_true_iff in H1.
    rewrite H1, H2. cbn [negb orb]. erewrite bind_Ret; [reflexivity|].
    replace n with (Z.of_nat (Z.to_nat n)) at 1 by lia.
    rewrite walk_pages by lia. rewrite Hcr. exact Hr. }
  unfold well_formed, translation. rewrite st_paging, st_words.
  cbn [BasePhysicalAddress NumberOfFrames CurrentIndex]. fold d.
  split; [split; [done|by eexists]|]. split; [split; [|done]|].
  - eexists _, _. do 2 f_equal. replace (Z.of_nat (Z.to_nat n)) with n by lia. apply released_pages_ext. intros j Hj.
    assert (page (4096 * (page va + j)) = page va + j) as Hpg.
    { unfold page at 1. rewrite Z.mul_comm, Z.div_mul by lia. apply Z.mod_small. lia. }
    rewrite (hw_pte_tables _ _ _ _ _ _ Har Htb), Hpg; [done|]. rewrite Hpg. apply Hown. lia.
  - intros va' Ho. rewrite !(hw_pte_tables _ _ _ _ _ _ A1 A2), !(hw_pte_tables _ _ _ _ _ _ Har Htb) by done.
    rewrite A4, Z.add_0_r. unfold in_range. replace (Z.of_nat (Z.to_nat n)) with n by lia. done.
Qed.
End Release.

(** The walk for a page of the tree meets only its tables. *)
Lemma walk_ok_tables base frames w cur T va Cr3 :
  4096 * get_field PML4_Pcide_PhysicalAddress Cr3 = base →
  area off base frames w → tables off base frames owned w cur T → owned (index 1 (page va)) →
  walk_ok off w Cr3 va = true.
Proof.
  intros Hcr Har Htb Ho. unfold walk_ok. rewrite Hcr. replace base with (base + 4096 * 0) by lia.
  assert (T !! (1, prefix 1 (page va)) = Some 0) as Hk.
  { rewrite prefix_root by apply page_range. apply (tb_root _ _ _ _ _ _ _ Htb). }
  enough (∀ n l k, l + Z.of_nat n = 4 → 1 ≤ l → T !! (l, prefix l (page va)) = Some k →
    levels_ok off w (offsets_from l (S n) (page va)) l (base + 4096 * k) = true) as Hgen
    by (by apply (Hgen 3%nat 1)).
  clear Hk. intros n. induction n as [|n IH]; intros l k Hl Hl1 Hk; rewrite offsets_from_S;
    cbn [levels_ok]; cbv zeta; pose proof (index_range l (page va)) as Hi;
    pose proof (table_frame off base frames owned w cur T Htb _ _ _ Hk) as Hkf;
    rewrite (entry_addr off base frames w) by assumption;
    pose proof (addr_bounds off base frames w Har k _ Hkf Hi) as [H1%Z.ltb_lt H2%Z.leb_le]; rewrite H1, H2; cbn [andb].
  - destruct (ar_mapped _ _ _ _ Har k _ Hkf Hi) as [e ->]. assert (l = 4) as -> by lia.
    by rewrite Z.eqb_refl, orb_true_r.
  - destruct (tb_dir _ _ _ _ _ _ _ Htb l _ k (index l (page va)) Hk) as (e & He & Hm);
      [lia|done|by intros ->|]. rewrite <-prefix_next in Hm by lia. rewrite He.
    destruct (T !! (l + 1, prefix (l + 1) (page va))) as [k'|] eqn:E; [|by rewrite Hm].
    destruct Hm as (-> & -> & Hf). rewrite (proj2 (Z.eqb_neq l 4)) by lia. cbn [negb orb].
    rewrite Hf, (frame_base off base frames w) by (by eauto using table_frame). apply IH; [lia|lia|done].
Qed.

Lemma VmmGetPhysicalAddressEx_run s Cr3 va wantA wantD :
  0 < va < 2 ^ 64 → va mod 4096 = 0 → walk_ok off (pg_words s) Cr3 va = true → (1 < fuel)%nat →
  let r := hw_walk off (pg_words s) Cr3 va in
  let ctx := retrieved wantA wantD r va in
  VmmGetPhysicalAddressEx off fuel Cr3 va wantA wantD s
  = Ret ((PhysicalAddress ctx, (if wantA then Some (Accessed ctx) else None),
       (if wantD then Some (Dirty ctx) else None)),
     match r with
     | Some (_, a, e) => set_invalidated (if wantA || wantD then va :: pg_invalidated s else pg_invalidated s)
         (set_words (<[a := cleared wantA wantD e]> (pg_words s)) s)
     | None => s
     end).
Proof.
  intros Hva Hvm Hok Hfuel r ctx. pose proof (page_range va).
  assert (page va + 1 ≤ 2 ^ 36) by lia.
  pose proof (st_self s pd) as Hs. cbv zeta in Hs. set (d := paging_data pd s) in *.
  unfold VmmGetPhysicalAddressEx. massert ltac:(unfold NULL; apply negb_true_iff, Z.eqb_neq; lia).
  massert ltac:(apply aligned_4096; lia).
  erewrite bind_Ret.
  2: { change PAGE_SIZE with (4096 * Z.of_nat 1). rewrite walk_pages by lia. cbn [for_fold].
       rewrite Z.mul_0_r, !Z.add_0_r. erewrite bind_Ret; [reflexivity|].
       rewrite Hs at 1. apply retrieve_levels; [done|lia|lia|exact Hok]. }
  cbn beta iota zeta. fold (hw_walk off (pg_words s) Cr3 va). fold r. unfold mret, M_ret. do 2 f_equal.
  unfold retrieved_state. destruct r as [[[l a] e]|]; [|by rewrite <-Hs].
  set (inv := if wantA || wantD then _ else _). set (w := <[a := _]> _).
  transitivity (set_invalidated inv (set_words w (st s pd (BasePhysicalAddress d) (NumberOfFrames d)
    (KernelSpace d) (pg_words s) (CurrentIndex d) (pg_invalidated s) (pg_released s)))).
  - by rewrite set_words_st, set_invalidated_st.
  - by rewrite <-Hs.
Qed.
End Operations.
