(* ===== verification/PageTablesProps.v ===== *)
(** The theorems about the paging structures, with an address space in which they apply. *)
From S2P Require Import Prelude Cpu RwSpinlock BitField PageTables PageTablesSpec.

#[local] Ltac Zify.zify_post_hook ::= Z.to_euclidean_division_equations.

(** * Entries *)
(** The code reads the value [v] from a bit-field of the entry at [p]. *)
Definition reads_as (p : Z) (f : bitfield) (v : Z) (s : PAGING) : Prop :=
  read_field p f s = Ret (v, s).

(** What PteMap writes into an entry is what pte.c reads back from it: the entry is present,
    PteGetPhysicalAddress returns the address that was mapped, and the bits of the rights, the
    mode and the caching index are those of the flags; PteUnmap makes it absent again. *)
Theorem PteMap_encodes s p pa f :
  is_Some (pg_words s !! p) → 0 < p → p + 8 ≤ 2 ^ 64 → 0 ≤ pa < 2 ^ 52 → pa mod 4096 = 0 →
  0 ≤ PatIndex f < 8 →
  ∃ s', PteMap p pa f s = Ret (tt, s')
  ∧ PteIsPresent p s' = Ret (true, s') ∧ PteGetPhysicalAddress p s' = Ret (pa, s')
  ∧ reads_as p PT_ENTRY_ReadWrite (bit (Writable f)) s'
  ∧ reads_as p PT_ENTRY_XD (bit (negb (Executable f))) s'
  ∧ reads_as p PT_ENTRY_UserSupervisor (bit (UserAccess f)) s'
  ∧ (PagingStructure f = true → reads_as p PD_ENTRY_PT_PageSize 0 s')
  ∧ (PagingStructure f = false → reads_as p PT_ENTRY_Global (bit (GlobalPage f)) s'
     ∧ ∃ pat pcd pwt, reads_as p PT_ENTRY_PAT pat s'
       ∧ reads_as p PT_ENTRY_PCD pcd s' ∧ reads_as p PT_ENTRY_PWT pwt s'
       ∧ 4 * pat + 2 * pcd + pwt = PatIndex f)
  ∧ ∃ t, PteUnmap p s' = Ret (tt, t) ∧ PteIsPresent p t = Ret (false, t).
Proof.
  intros Hw Hp Hp2 Hpa Hal Hpat.
  pose proof (st_self s kernel_paging) as Hs. cbv zeta in Hs. set (d := paging_data kernel_paging s) in *.
  set (b := BasePhysicalAddress d) in *. set (n := NumberOfFrames d) in *. set (k := KernelSpace d) in *.
  pose proof (PteMap_run s kernel_paging b n k _ (CurrentIndex d) (pg_invalidated s) (pg_released s) p pa f Hw Hp Hp2)
    as Hrun.
  rewrite <-Hs in Hrun. eexists. split; [exact Hrun|]. set (e := pte_value pa f).
  set (w := <[p := e]> (pg_words s)).
  assert (He : w !! p = Some e) by apply lookup_insert_eq.
  assert (Hread : ∀ fl v, get_field fl e = v →
    read_field p fl (st s kernel_paging b n k w (CurrentIndex d) (pg_invalidated s) (pg_released s))
    = Ret (v, st s kernel_paging b n k w (CurrentIndex d) (pg_invalidated s) (pg_released s))).
  { intros fl v <-. by apply read_field_run. }
  assert (He' : e = pte_value pa f) by done. unfold pte_value in He'. cbv zeta in He'.
  split; [rewrite (PteIsPresent_run _ _ _ _ _ _ _ _ _ _ e) by done; by rewrite (pte_value_present pa f : present e = true)|].
  split.
  { rewrite (PteGetPhysicalAddress_run _ _ _ _ _ _ _ _ _ _ e) by done. do 2 f_equal. unfold e.
    rewrite pte_value_frame. change (2 ^ 12) with 4096. rewrite Z.mod_small by lia. lia. }
  clearbody e.
  do 3 (split; [apply Hread; rewrite He'; destruct (PagingStructure f); get_fields; apply bit_mod|]).
  split; [intros Hf; apply Hread; rewrite He', Hf; by get_fields|]. split.
  - intros Hf. rewrite Hf in He'. split; [apply Hread; rewrite He'; get_fields; apply bit_mod|].
    exists (PatIndex f / 4), (PatIndex f / 2 mod 2), (PatIndex f mod 2).
    assert (∀ i, 0 ≤ i → Z.land (Z.shiftr (PatIndex f) i) 1 = PatIndex f / 2 ^ i mod 2) as Hbits.
    { intros i Hi. change 1 with (Z.ones 1). by rewrite Z.land_ones, Z.shiftr_div_pow2 by lia. }
    rewrite !Hbits in He' by lia.
    split; [apply Hread; rewrite He'; get_fields; cbn; lia|].
    split; [apply Hread; rewrite He'; get_fields; cbn; lia|].
    split; [apply Hread; rewrite He'; get_fields; cbn; rewrite ?Z.div_1_r; lia|lia].
  - eexists. split; [apply PteUnmap_run; [by eexists|done|done]|].
    rewrite (PteIsPresent_run _ _ _ _ _ _ _ _ _ _ 0); [done|apply lookup_insert_eq|done].
Qed.

(** * Operations on an address space *)
Section Props.
Variables (off : Z) (fuel : nat) (owned : Z → Prop) (pd : PPAGING_DATA).
Variable MmuReleaseMemory : Z → Z → M PAGING unit.
(** mmu.h: the frames are scheduled to be released by the zero worker thread. *)
Hypothesis Hrelease : ∀ pa s,
  MmuReleaseMemory pa 1 s = Ret (tt, set_released (pg_released s ++ [(pa, 1)]) s).
Abbreviation well_formed := (well_formed off owned pd).
Abbreviation translation := (translation off pd).
Abbreviation range_ok := (range_ok owned).

(** A physical range that an entry can express. *)
Definition phys_ok (phys n : Z) : Prop := 0 ≤ phys ∧ phys mod 4096 = 0 ∧ phys + 4096 * n ≤ 2 ^ 52.
(** The entry that maps a page of a range with the rights asked for. *)
Definition entry_for (s : PAGING) (phys va rights : Z) (uncach : bool) (va' : Z) : Z :=
  new_pte s (KernelSpace (paging_data pd s)) phys va rights uncach (va + 4096 * (page va' - page va)).

(** C32: mapping a range, when the frames for the tables it can need are left, returns and leaves
    well-formed tables; each page of the range is translated to its page of the physical range
    with the rights asked for, unless it was mapped and Invalidate is not set, and the
    translation of every other page, as well as every word that is not part of the tables, is
    unchanged. *)
Theorem VmmMapMemoryInternal_maps s phys va n rights inval uncach :
  well_formed s → range_ok va n → phys_ok phys n → (Z.to_nat n < fuel)%nat →
  CurrentIndex (paging_data pd s) + tables_needed (page va) n ≤ NumberOfFrames (paging_data pd s) →
  ∃ s', VmmMapMemoryInternal off fuel (Some pd) phys (4096 * n) va rights inval uncach s = Ret (tt, s')
  ∧ well_formed s' ∧ only_tables_differ off owned pd s s'
  ∧ ∀ va', owned (index 1 (page va')) →
      translation s' va' =
      if decide (in_range va n va') then
        match translation s va' with
        | Some e => if inval then Some (entry_for s phys va rights uncach va') else Some e
        | None => Some (entry_for s phys va rights uncach va')
        end
      else translation s va'.
Proof.
  intros Hwf Hr (Hp1 & Hp2 & Hp3) Hf Hn.
  destruct (VmmMapMemoryInternal_run off fuel owned pd s phys va n rights inval uncach Hwf Hr Hp1 Hp2 Hp3 Hf Hn)
    as (s' & Hrun & H1 & H2 & _ & H3). by exists s'.
Qed.

(** Unmapping a range returns and leaves well-formed tables: the pages of the range are no
    longer translated, the frames of those that were are handed to the zero worker thread, in
    order, if ReleaseMemory is set, and no other page and no foreign word changes. *)
Theorem VmmUnmapMemoryEx_unmaps s Cr3 va n release :
  well_formed s → cr3_of pd s Cr3 → range_ok va n → (Z.to_nat n < fuel)%nat →
  ∃ s', VmmUnmapMemoryEx off fuel MmuReleaseMemory Cr3 va (4096 * n) release s = Ret (tt, s')
  ∧ well_formed s' ∧ paging_data pd s' = paging_data pd s
  ∧ pg_released s' = pg_released s ++
      flat_map (λ i, match translation s (4096 * (page va + i)) with
                     | Some e => if release then [(4096 * frame_of e, 1)] else []
                     | None => []
                     end) (seqZ 0 n)
  ∧ (∀ va', owned (index 1 (page va')) →
       translation s' va' = if decide (in_range va n va') then None else translation s va')
  ∧ ∀ a, foreign off (BasePhysicalAddress (paging_data pd s)) (NumberOfFrames (paging_data pd s)) owned a →
      pg_words s' !! a = pg_words s !! a.
Proof.
  intros Hwf Hcr Hr Hf.
  destruct (VmmUnmapMemoryEx_run off fuel owned pd MmuReleaseMemory Hrelease s Cr3 va n release Hwf Hcr Hr Hf)
    as (s' & Hrun & H1 & [(w & inv & Hs') H2] & H3). exists s'. split; [exact Hrun|]. split; [exact H1|].
  split; [rewrite Hs', st_paging; by destruct (paging_data pd s)|].
  split; [rewrite Hs' at 1; apply st_released|]. by split.
Qed.

(** C33: VmmGetPhysicalAddressEx agrees with the walk of the processor, for pages of 4 KB and of
    2 MB, in whatever state the tables are, as long as the walk stays in memory: it returns the
    physical address, NULL if the page is not mapped, and the accessed and dirty bits asked
    for, which it clears in the entry. *)
Theorem VmmGetPhysicalAddressEx_translates s Cr3 va wantA wantD :
  0 < va < 2 ^ 64 → va mod 4096 = 0 → walk_ok off (pg_words s) Cr3 va = true → (1 < fuel)%nat →
  VmmGetPhysicalAddressEx off fuel Cr3 va wantA wantD s =
  Ret (match hw_walk off (pg_words s) Cr3 va with
       | Some (l, a, e) =>
           ((page_address l va e, (if wantA then Some (Z.testbit e 5) else None),
             (if wantD then Some (Z.testbit e 6) else None)),
            set_invalidated (if wantA || wantD then va :: pg_invalidated s else pg_invalidated s)
              (set_words (<[a := cleared wantA wantD e]> (pg_words s)) s))
       | None =>
           ((NULL, (if wantA then Some false else None), (if wantD then Some false else None)), s)
       end).
Proof.
  intros Hva Hvm Hok Hf. rewrite (VmmGetPhysicalAddressEx_run off fuel (λ _, True) kernel_paging) by assumption.
  destruct (hw_walk off (pg_words s) Cr3 va) as [[[l a] e]|]; reflexivity.
Qed.

(** After a range of pages that were not mapped has been mapped, asking for the physical
    address of one of them returns the address it was mapped to; after unmapping, NULL. *)
Theorem map_get_unmap_roundtrip s phys va n rights uncach i :
  well_formed s → range_ok va n → phys_ok phys n → (Z.to_nat n < fuel)%nat →
  CurrentIndex (paging_data pd s) + tables_needed (page va) n ≤ NumberOfFrames (paging_data pd s) →
  (∀ j, 0 ≤ j < n → translation s (va + 4096 * j) = None) → 0 ≤ i < n →
  let cr3 := BasePhysicalAddress (paging_data pd s) in
  ∃ s1 s2, VmmMapMemoryInternal off fuel (Some pd) phys (4096 * n) va rights false uncach s = Ret (tt, s1)
  ∧ VmmGetPhysicalAddressEx off fuel cr3 (va + 4096 * i) false false s1 = Ret ((phys + 4096 * i, None, None), s1)
  ∧ VmmUnmapMemoryEx off fuel MmuReleaseMemory cr3 va (4096 * n) false s1 = Ret (tt, s2)
  ∧ VmmGetPhysicalAddressEx off fuel cr3 (va + 4096 * i) false false s2 = Ret ((NULL, None, None), s2).
Proof.
  intros Hwf Hr (Hp1 & Hp2 & Hp3) Hf Hn Hnone Hi cr3. pose proof Hr as (Hva & Hvm & Hn0 & Htop & HP & Hown).
  pose proof (page_range va) as Hpr.
  destruct (VmmMapMemoryInternal_run off fuel owned pd s phys va n rights false uncach Hwf Hr Hp1 Hp2 Hp3 Hf Hn)
    as (s1 & Hmap & Hwf1 & [(w & cur & inv & Hs1) _] & _ & Htr1).
  assert (Hb1 : BasePhysicalAddress (paging_data pd s1) = cr3) by (by rewrite Hs1, st_paging).
  assert (Hcr : cr3_of pd s1 cr3).
  { unfold cr3_of. rewrite Hb1. destruct Hwf1 as [Har1 _]. rewrite Hb1 in Har1. eapply cr3_base, Har1. }
  destruct (VmmUnmapMemoryEx_run off fuel owned pd MmuReleaseMemory Hrelease s1 cr3 va n false Hwf1 Hcr Hr Hf)
    as (s2 & Hun & Hwf2 & [(w2 & inv2 & Hs2) _] & Htr2).
  assert (Hb2 : BasePhysicalAddress (paging_data pd s2) = cr3) by (by rewrite Hs2, st_paging).
  assert (Hpage : page (va + 4096 * i) = page va + i) by (apply page_add; lia).
  assert (Ho : owned (index 1 (page (va + 4096 * i)))) by (rewrite Hpage; apply Hown; lia).
  assert (Hin : in_range va n (va + 4096 * i)) by (unfold in_range; lia).
  specialize (Htr1 _ Ho). specialize (Htr2 _ Ho). rewrite decide_True in Htr1, Htr2 by exact Hin.
  rewrite Hnone in Htr1 by done. cbn [mapped_pte] in Htr1.
  assert (Hwalk : ∀ t, PageTablesSpec.well_formed off owned pd t → BasePhysicalAddress (paging_data pd t) = cr3 →
    walk_ok off (pg_words t) cr3 (va + 4096 * i) = true
    ∧ ∀ l a e, hw_walk off (pg_words t) cr3 (va + 4096 * i) = Some (l, a, e) → l = 4 ∧ pg_words t !! a = Some e).
  { intros t [Ha [T Ht]] Hb. rewrite Hb in Ha, Ht. split.
    - eapply walk_ok_tables; [by eapply cr3_base|exact Ha|exact Ht|exact Ho].
    - intros l a e He. erewrite hw_walk_tables in He; [|exact Ha|exact Ht|exact Ho].
      unfold page_entry in He. destruct (T !! _) as [k|]; [|done]. cbn [mbind option_bind] in He.
      destruct (pg_words t !! _) as [e'|] eqn:Hw; [|done]. cbn [mbind option_bind] in He.
      destruct (present e'); [|done]. cbn in He. injection He as <- <- <-. done. }
  destruct (Hwalk s1 Hwf1 Hb1) as [Hok1 Hent1]. destruct (Hwalk s2 Hwf2 Hb2) as [Hok2 _].
  assert (Hvm' : (va + 4096 * i) mod 4096 = 0).
  { rewrite (Z.mul_comm 4096), Z.mod_add by lia. exact Hvm. }
  exists s1, s2. split; [exact Hmap|].
  assert (Hsame : ∀ t, set_invalidated (pg_invalidated t) t = t) by (by intros []).
  unfold PageTablesSpec.translation, hw_pte in Htr1, Htr2. rewrite Hb1 in Htr1. rewrite Hb2 in Htr2.
  split; [|split; [exact Hun|]].
  - rewrite (VmmGetPhysicalAddressEx_run off fuel (λ _, True) kernel_paging) by first [assumption|lia].
    destruct (hw_walk off (pg_words s1) cr3 (va + 4096 * i)) as [[[l a] e]|] eqn:Hw1; [|done].
    destruct (Hent1 _ _ _ eq_refl) as [-> Hwe]. cbn [fmap option_fmap option_map snd] in Htr1. injection Htr1 as ->.
    cbn [retrieved PhysicalAddress orb]. cbv iota. unfold cleared. rewrite insert_id by exact Hwe.
    assert (set_words (pg_words s1) s1 = s1) as -> by (by destruct s1). rewrite Hsame.
    unfold page_address, new_pte. change (4 =? 3) with false. cbv iota. do 4 f_equal.
    rewrite pte_value_frame. change (2 ^ 12) with 4096. unfold PtrOffset, PtrDiff. rewrite Hpage.
    replace (va + 4096 * (page va + i - page va) - va) with (4096 * i) by lia.
    rewrite s64_id, u64_id by lia. rewrite (Z.mul_comm 4096 i), Z.div_add by lia.
    rewrite Z.mod_small by lia. lia.
  - rewrite (VmmGetPhysicalAddressEx_run off fuel (λ _, True) kernel_paging) by first [assumption|lia].
    by destruct (hw_walk off (pg_words s2) cr3 (va + 4096 * i)) as [[[l a] e]|].
Qed.

(** ** Sequences of operations *)
Inductive paging_op :=
  | OpMap (phys va n rights : Z) (inval uncach : bool)
  | OpUnmap (va n : Z) (release : bool).
Definition run_op (op : paging_op) : M PAGING unit :=
  match op with
  | OpMap phys va n rights inval uncach =>
      VmmMapMemoryInternal off fuel (Some pd) phys (4096 * n) va rights inval uncach
  | OpUnmap va n release =>
      cr3 ← gets (λ s, BasePhysicalAddress (paging_data pd s));
      VmmUnmapMemoryEx off fuel MmuReleaseMemory cr3 va (4096 * n) release
  end.
Fixpoint run_ops (ops : list paging_op) : M PAGING unit :=
  match ops with [] => mret tt | op :: ops' => run_op op;; run_ops ops' end.
Definition op_ok (op : paging_op) : Prop :=
  match op with
  | OpMap phys va n _ _ _ => range_ok va n ∧ phys_ok phys n ∧ (Z.to_nat n < fuel)%nat
  | OpUnmap va n _ => range_ok va n ∧ (Z.to_nat n < fuel)%nat
  end.
Definition op_tables (op : paging_op) : Z :=
  match op with OpMap _ va n _ _ _ => tables_needed (page va) n | OpUnmap _ _ _ => 0 end.

(** The specification: an address space is a map from page numbers to entries. [s] is a state
    with the caching indices and the mode of the address space. *)
Definition page_map : Type := Z → option Z.
Definition spec_op (s : PAGING) (op : paging_op) (m : page_map) : page_map := λ pg,
  match op with
  | OpMap phys va n rights inval uncach =>
      if decide (page va ≤ pg < page va + n)
      then mapped_pte s (KernelSpace (paging_data pd s)) phys va rights inval uncach (m pg)
             (va + 4096 * (pg - page va))
      else m pg
  | OpUnmap va n _ => if decide (page va ≤ pg < page va + n) then None else m pg
  end.

(** What no operation changes. *)
Definition same_settings (s s' : PAGING) : Prop :=
  WriteBackIndex s' = WriteBackIndex s ∧ UncacheableIndex s' = UncacheableIndex s
  ∧ BasePhysicalAddress (paging_data pd s') = BasePhysicalAddress (paging_data pd s)
  ∧ NumberOfFrames (paging_data pd s') = NumberOfFrames (paging_data pd s)
  ∧ KernelSpace (paging_data pd s') = KernelSpace (paging_data pd s).
Lemma same_settings_st s w cur inv rel :
  let d := paging_data pd s in
  same_settings s (st s pd (BasePhysicalAddress d) (NumberOfFrames d) (KernelSpace d) w cur inv rel).
Proof.
  cbv zeta. unfold same_settings. rewrite st_WriteBackIndex, st_UncacheableIndex, st_paging. done.
Qed.
Lemma spec_op_settings s s' op m pg : same_settings s s' → spec_op s' op m pg = spec_op s op m pg.
Proof.
  intros (H1 & H2 & _ & _ & H3). destruct op; cbn [spec_op]; [|done].
  unfold mapped_pte, new_pte, page_flags. by rewrite H1, H2, H3.
Qed.

Lemma table_op_refines s op :
  well_formed s → op_ok op →
  CurrentIndex (paging_data pd s) + op_tables op ≤ NumberOfFrames (paging_data pd s) →
  ∃ s', run_op op s = Ret (tt, s') ∧ well_formed s' ∧ same_settings s s'
  ∧ CurrentIndex (paging_data pd s') ≤ CurrentIndex (paging_data pd s) + op_tables op
  ∧ ∀ va m, owned (index 1 (page va)) → m (page va) = translation s va →
      translation s' va = spec_op s op m (page va).
Proof.
  intros Hwf Hok Hn. destruct op as [phys va n rights inval uncach|va n release]; cbn [run_op op_ok op_tables spec_op] in *.
  - destruct Hok as (Hr & (Hp1 & Hp2 & Hp3) & Hf).
    destruct (VmmMapMemoryInternal_run off fuel owned pd s phys va n rights inval uncach Hwf Hr Hp1 Hp2 Hp3 Hf Hn)
      as (s' & Hrun & Hwf' & [(w & cur & inv & Hs') _] & Hcur & Htr).
    exists s'. split; [exact Hrun|]. split; [exact Hwf'|]. split; [rewrite Hs'; apply same_settings_st|].
    split; [exact Hcur|]. intros va' m Ho ->. by rewrite Htr.
  - destruct Hok as (Hr & Hf). pose proof Hwf as [Har _].
    destruct (VmmUnmapMemoryEx_run off fuel owned pd MmuReleaseMemory Hrelease s
      (BasePhysicalAddress (paging_data pd s)) va n release Hwf (cr3_base _ _ _ _ Har) Hr Hf)
      as (s' & Hrun & Hwf' & [(w & inv & Hs') _] & Htr).
    exists s'. rewrite (bind_Ret _ _ _ _ _ (gets_run _ s)). split; [exact Hrun|]. split; [exact Hwf'|].
    split; [rewrite Hs'; apply same_settings_st|]. split; [rewrite Hs', st_paging; cbn; lia|].
    intros va' m Ho ->. by rewrite Htr.
Qed.

Lemma translation_page s va : translation s (4096 * page va) = translation s va.
Proof.
  unfold PageTablesSpec.translation, hw_pte, hw_walk. do 3 f_equal. unfold page.
  pose proof (Z.mod_pos_bound (va / 4096) (2 ^ 36)).
  by rewrite (Z.mul_comm 4096), Z.div_mul, Z.mod_mod by lia.
Qed.

(** C25: the paging structures refine a map from pages to entries: any sequence of mapping and
    unmapping operations, as long as the frames for their tables are there, returns, keeps the
    tables well-formed, and has on the translation of every page of the address space the
    effect of the same operations on the map. *)
Theorem page_tables_refine_page_map s ops :
  well_formed s → Forall op_ok ops →
  CurrentIndex (paging_data pd s) + foldr (λ op c, op_tables op + c) 0 ops
    ≤ NumberOfFrames (paging_data pd s) →
  ∃ s', run_ops ops s = Ret (tt, s') ∧ well_formed s'
  ∧ ∀ va, owned (index 1 (page va)) →
      translation s' va
      = foldl (λ m op, spec_op s op m) (λ pg, translation s (4096 * pg)) ops (page va).
Proof.
  intros Hwf Hok Hn.
  enough (∀ t m, well_formed t → same_settings s t →
    CurrentIndex (paging_data pd t) + foldr (λ op c, op_tables op + c) 0 ops ≤ NumberOfFrames (paging_data pd s) →
    (∀ va, owned (index 1 (page va)) → translation t va = m (page va)) →
    ∃ s', run_ops ops t = Ret (tt, s') ∧ well_formed s' ∧ ∀ va, owned (index 1 (page va)) →
      translation s' va = foldl (λ m op, spec_op s op m) m ops (page va)) as Hgen.
  { apply Hgen; [done|done|done|]. intros va _. by rewrite translation_page. }
  clear Hwf Hn. induction Hok as [|op ops Hop Hok IH]; intros t m Hwf Hset Hn Hm; cbn [run_ops foldl foldr] in *.
  { by exists t. }
  assert (Hpos : 0 ≤ foldr (λ op c, op_tables op + c) 0 ops).
  { clear -Hok. induction Hok as [|op ops Hop _ IH]; cbn [foldr]; [lia|]. enough (0 ≤ op_tables op) by lia.
    destruct op as [phys va n rights inval uncach|]; cbn [op_tables op_ok] in *; [|lia].
    destruct Hop as ((_ & _ & Hn & _) & _ & _). unfold tables_needed.
    pose proof (prefix_mono 2 (page va) (page va + n - 1)). pose proof (prefix_mono 3 (page va) (page va + n - 1)).
    pose proof (prefix_mono 4 (page va) (page va + n - 1)). lia. }
  pose proof Hset as (S1 & S2 & S3 & S4 & S5).
  destruct (table_op_refines t op Hwf Hop ltac:(lia)) as (t1 & Hrun & Hwf1 & Hset1 & Hcur & Htr).
  mrun Hrun. apply IH; [exact Hwf1| |lia|].
  - destruct Hset1 as (U1 & U2 & U3 & U4 & U5). unfold same_settings. rewrite U1, U2, U3, U4, U5. done.
  - intros va Ho. rewrite (Htr va m Ho (eq_sym (Hm va Ho))). by apply spec_op_settings.
Qed.
End Props.

(** * An address space: 8 frames at 1 MB, mapped at the base of the kernel's half *)
Module PagingExample.
Definition off : Z := 0xFFFF800000000000.
Definition base : Z := 0x100000.
Definition zeros (n : Z) : gmap Z Z := foldr (λ i m, <[off + base + 8 * i := 0]> m) ∅ (seqZ 0 n).
Definition words : gmap Z Z := zeros 4096.
Definition lock : PAGING_LOCK_DATA := mkLockData (mkREC RW_zero 0 3 NULL) (mkPaging base 8 1 true).
Definition start_with (w : gmap Z Z) : PAGING := mkState w 0 3 lock lock [] [].
Definition start : PAGING := start_with words.
Definition everything (i : Z) : Prop := True.
Definition release (pa n : Z) : M PAGING unit := λ s, Ret (tt, set_released (pg_released s ++ [(pa, n)]) s).
Lemma release_ok pa s : release pa 1 s = Ret (tt, set_released (pg_released s ++ [(pa, 1)]) s).
Proof. reflexivity. Qed.

Definition all_zero (w : gmap Z Z) (n : Z) : bool :=
  forallb (λ i, match w !! (off + base + 8 * i) with Some 0 => true | _ => false end) (seqZ 0 n).
Lemma words_all_zero : all_zero words 4096 = true.
Proof. vm_compute. reflexivity. Qed.
#[local] Opaque words.
Lemma words_zero i : 0 ≤ i < 4096 → words !! (off + base + 8 * i) = Some 0.
Proof.
  intros Hi. pose proof words_all_zero as Hall. unfold all_zero in Hall. rewrite forallb_forall in Hall.
  specialize (Hall i (proj1 (list_elem_of_In _ _) (proj2 (elem_of_seqZ 0 4096 i) ltac:(lia)))).
  cbv beta in Hall. destruct (words !! (off + base + 8 * i)) as [[]|]; [reflexivity|discriminate Hall..].
Qed.
Lemma addr_words k i : addr off base k i = off + base + 8 * (512 * k + i).
Proof. unfold addr. change (vbase off base) with (off + base). lia. Qed.
Lemma start_area : area off base 8 words.
Proof.
  split; [unfold base; lia|lia|change (vbase off base) with (off + base); unfold off, base; lia|].
  intros k i Hk Hi. rewrite addr_words, words_zero by lia. by eexists.
Qed.
Lemma start_tables :
  tables off base 8 everything words 1 {[(1, 0) := 0]} ∧ ∀ pg, page_entry off base words {[(1, 0) := 0]} pg = None.
Proof.
  apply fresh_tables; [lia|]. intros i Hi _. exists 0. by rewrite addr_words, words_zero by lia.
Qed.
Lemma start_well_formed : well_formed off everything kernel_paging start.
Proof. split; [exact start_area|]. eexists. exact (proj1 start_tables). Qed.
Lemma start_translation va : translation off kernel_paging start va = None.
Proof.
  unfold translation. erewrite hw_pte_tables; [|exact start_area|exact (proj1 start_tables)|done].
  unfold pte. change (pg_words start) with words. by rewrite (proj2 start_tables).
Qed.

Definition va : Z := 0xFFFF800000400000.
Lemma va_page : page va = 0x800000400.
Proof. reflexivity. Qed.
Lemma va_range : range_ok everything va 3.
Proof. unfold range_ok. rewrite va_page. unfold va. split_and!; try lia. done. Qed.
Lemma va_phys : phys_ok 0x200000 3.
Proof. unfold phys_ok. lia. Qed.
Lemma va_tables : CurrentIndex (paging_data kernel_paging start) + tables_needed (page va) 3
  ≤ NumberOfFrames (paging_data kernel_paging start).
Proof. rewrite va_page. vm_compute. discriminate. Qed.

Lemma PteMap_encodes_witness :
  ∃ s', PteMap (off + base) 0x300000 (mkFlags 3 true false false false true) start = Ret (tt, s')
    ∧ PteGetPhysicalAddress (off + base) s' = Ret (0x300000, s').
Proof.
  destruct (PteMap_encodes start (off + base) 0x300000 (mkFlags 3 true false false false true))
    as (s' & H1 & _ & H2 & _); [|unfold off, base; lia|unfold off, base; lia|lia|reflexivity|cbn; lia|exact (ex_intro _ s' (conj H1 H2))].
  change (is_Some (words !! (off + base))). rewrite <-(Z.add_0_r (off + base)), <-(Z.mul_0_r 8), words_zero by lia.
  by eexists.
Defined.
Lemma VmmMapMemoryInternal_maps_witness :
  ∃ s', VmmMapMemoryInternal off 4 (Some kernel_paging) 0x200000 (4096 * 3) va PAGE_RIGHTS_READWRITE true false start
      = Ret (tt, s')
    ∧ translation off kernel_paging s' (va + 4096)
      = Some (entry_for kernel_paging start 0x200000 va PAGE_RIGHTS_READWRITE false (va + 4096)).
Proof.
  destruct (VmmMapMemoryInternal_maps off 4 everything kernel_paging start 0x200000 va 3 PAGE_RIGHTS_READWRITE
    true false start_well_formed va_range va_phys ltac:(lia) va_tables) as (s' & Hrun & _ & _ & Htr).
  exists s'. split; [exact Hrun|]. rewrite Htr by done. rewrite start_translation, decide_True; [done|].
  unfold in_range. change (page (va + 4096)) with 0x800000401. rewrite va_page. lia.
Defined.
Lemma base_cr3 : cr3_of kernel_paging start (base + 5).
Proof. reflexivity. Qed.
Lemma VmmUnmapMemoryEx_unmaps_witness :
  ∃ s', VmmUnmapMemoryEx off 4 release (base + 5) va (4096 * 3) true start = Ret (tt, s')
    ∧ translation off kernel_paging s' va = None.
Proof.
  destruct (VmmUnmapMemoryEx_unmaps off 4 everything kernel_paging release release_ok start (base + 5) va 3 true
    start_well_formed base_cr3 va_range ltac:(lia)) as (s' & Hrun & _ & _ & _ & Htr & _).
  exists s'. split; [exact Hrun|]. rewrite Htr by done. apply decide_True.
  unfold in_range. rewrite va_page. lia.
Defined.
Lemma map_get_unmap_roundtrip_witness :
  ∃ s1, VmmMapMemoryInternal off 4 (Some kernel_paging) 0x200000 (4096 * 3) va PAGE_RIGHTS_READWRITE false false start
      = Ret (tt, s1)
    ∧ VmmGetPhysicalAddressEx off 4 base (va + 4096 * 2) false false s1 = Ret ((0x202000, None, None), s1).
Proof.
  destruct (map_get_unmap_roundtrip off 4 everything kernel_paging release release_ok start 0x200000 va 3
    PAGE_RIGHTS_READWRITE false 2 start_well_formed va_range va_phys ltac:(lia) va_tables
    (λ j _, start_translation (va + 4096 * j)) ltac:(lia)) as (s1 & s2 & H1 & H2 & _).
  exact (ex_intro _ s1 (conj H1 H2)).
Defined.

Definition ops : list paging_op :=
  [OpMap 0x200000 va 3 PAGE_RIGHTS_READWRITE false false; OpUnmap va 3 true].
Lemma ops_ok : Forall (op_ok 4 everything) ops.
Proof.
  unfold ops. constructor; [|constructor; [|constructor]]; cbn [op_ok].
  - split; [exact va_range|]. split; [exact va_phys|lia].
  - split; [exact va_range|lia].
Qed.
Lemma page_tables_refine_page_map_witness :
  ∃ s', run_ops off 4 kernel_paging release ops start = Ret (tt, s') ∧ translation off kernel_paging s' va = None.
Proof.
  destruct (page_tables_refine_page_map off 4 everything kernel_paging release release_ok start ops
    start_well_formed ops_ok) as (s' & Hrun & _ & Htr).
  - unfold ops. cbn [foldr op_tables]. rewrite va_page. vm_compute. discriminate.
  - exists s'. split; [exact Hrun|]. rewrite Htr by done. unfold ops. cbn [foldl spec_op].
    apply decide_True. rewrite va_page. lia.
Defined.

(** A large page: three tables of which one entry each is in use. *)
Definition large_words : gmap Z Z :=
  list_to_map [(off + base, base + 0x1000 + 3); (off + base + 0x1000, base + 0x2000 + 3);
               (off + base + 0x2000 + 16, 0x600000 + 0xE3)].
Lemma VmmGetPhysicalAddressEx_translates_witness :
  walk_ok off large_words base 0x403000 = true
  ∧ ∃ s', VmmGetPhysicalAddressEx off 2 base 0x403000 true true (start_with large_words)
    = Ret ((0x603000, Some true, Some true), s').
Proof.
  assert (Hok : walk_ok off large_words base 0x403000 = true) by (vm_compute; reflexivity).
  split; [exact Hok|]. eexists.
  rewrite (VmmGetPhysicalAddressEx_translates off 2 (start_with large_words) base 0x403000 true true
    ltac:(lia) ltac:(done) Hok ltac:(lia)).
  vm_compute. reflexivity.
Defined.
End PagingExample.
