(* ===== verification/PageWalk.v ===== *)
(** Termination of the walks over the paging structures: they end whatever the structures hold,
    entries that point back to a table above them or out of the area included. *)
From S2P Require Import Prelude Cpu RwSpinlock BitField PageTables PageTablesSpec PageTablesProps.

#[local] Ltac Zify.zify_post_hook ::= Z.to_euclidean_division_equations.

(** A run ends: with a result, in a failed assertion or in a fault, but not because the fuel is
    used up. *)
Definition ends {St A} (m : M St A) : Prop := ∀ s, m s ≠ OutOfFuel.

Create HintDb ends.
Section Rules.
Context {St : Type}.
Lemma ends_ret {A} (a : A) : ends (mret a : M St A).
Proof. done. Qed.
Lemma ends_bind {A B} (m : M St A) (k : A → M St B) : ends m → (∀ a, ends (k a)) → ends (m ≫= k).
Proof. intros Hm Hk s. unfold mbind, M_bind. specialize (Hm s). destruct (m s) as [[a s']| | |]; [apply Hk|done..]. Qed.
Lemma ends_ASSERT b : ends (ASSERT b : M St unit).
Proof. by destruct b. Qed.
Lemma ends_get : ends (get : M St St).
Proof. done. Qed.
Lemma ends_gets {A} (f : St → A) : ends (gets f).
Proof. done. Qed.
Lemma ends_modify (f : St → St) : ends (modify f).
Proof. done. Qed.
Lemma ends_option {A} (o : option A) : ends (from_option_fault o : M St A).
Proof. by destruct o. Qed.
Lemma ends_fault {A} : ends (fault : M St A).
Proof. done. Qed.
Lemma ends_for_each n (body : Z → M St unit) : (∀ i, ends (body i)) → ∀ i, ends (for_each n i body).
Proof. intros Hb. induction n as [|n IH]; intros i; cbn [for_each]; [apply ends_ret|by apply ends_bind]. Qed.
End Rules.
#[export] Hint Resolve ends_ret ends_ASSERT ends_get ends_gets ends_modify ends_option ends_fault : ends.

(** The rule for the outermost construct of a program. *)
Ltac ends_step :=
  match goal with
  | |- ends (_ ≫= _) => apply ends_bind; [|intros ?]
  | |- ends (for_each _ _ _) => apply ends_for_each; intros ?
  | |- ends (match ?x with _ => _ end) => destruct x
  | |- ends (let _ := _ in _) => cbv zeta
  | |- _ => solve [eauto with ends]
  end.
Ltac ends_tac := repeat ends_step.

Lemma ends_read_field p f : ends (read_field p f).
Proof. unfold read_field, read_qword. ends_tac. Qed.
Lemma ends_write_qword p v : ends (write_qword p v).
Proof. unfold write_qword. ends_tac. Qed.
#[export] Hint Resolve ends_read_field ends_write_qword : ends.
Lemma ends_write_field p f v : ends (write_field p f v).
Proof. unfold write_field, read_qword. ends_tac. Qed.
Lemma ends_zero_qwords p n : ends (zero_qwords p n).
Proof. unfold zero_qwords. ends_tac. Qed.
Lemma ends_PageInvalidateTlb p : ends (PageInvalidateTlb p).
Proof. unfold PageInvalidateTlb. ends_tac. Qed.
#[export] Hint Resolve ends_write_field ends_zero_qwords ends_PageInvalidateTlb : ends.
Lemma ends_PteMap p pa f : ends (PteMap p pa f).
Proof. unfold PteMap. ends_tac. Qed.
Lemma ends_PteUnmap p : ends (PteUnmap p).
Proof. unfold PteUnmap. ends_tac. Qed.
Lemma ends_PteGetPhysicalAddress p : ends (PteGetPhysicalAddress p).
Proof. unfold PteGetPhysicalAddress. ends_tac. Qed.
Lemma ends_PteLargePageGetPhysicalAddress p : ends (PteLargePageGetPhysicalAddress p).
Proof. unfold PteLargePageGetPhysicalAddress. ends_tac. Qed.
Lemma ends_PteIsPresent p : ends (PteIsPresent p).
Proof. unfold PteIsPresent. ends_tac. Qed.
#[export] Hint Resolve ends_PteMap ends_PteUnmap ends_PteGetPhysicalAddress ends_PteLargePageGetPhysicalAddress
  ends_PteIsPresent : ends.

Section Walk.
Variables (off : Z) (fuel : nat).
Variable MmuReleaseMemory : Z → Z → M PAGING unit.
Hypothesis Hrelease : ∀ pa n, ends (MmuReleaseMemory pa n).

Lemma ends_VmMapPage Cr3 p va l ctx : ends (_VmMapPage off Cr3 p va l ctx).
Proof using. unfold _VmMapPage, _VmSetupPagingStructure, _VmRetrieveNextPhysicalAddressForPagingStructure. ends_tac. Qed.
Lemma ends_VmUnmapPage Cr3 p va l ctx : ends (_VmUnmapPage MmuReleaseMemory Cr3 p va l ctx).
Proof using Hrelease. unfold _VmUnmapPage. ends_tac. Qed.
Lemma ends_VmRetrievePhyAccess Cr3 p va l ctx : ends (_VmRetrievePhyAccess Cr3 p va l ctx).
Proof using. unfold _VmRetrievePhyAccess, retrieve_access. ends_tac. Qed.

Lemma ends_walk_levels {C} Cr3 (cb : Z → Z → Z → Z → C → M PAGING (bool * C)) va offsets :
  (∀ p l ctx, ends (cb Cr3 p va l ctx)) → ∀ i pa ctx, ends (walk_levels off Cr3 cb va offsets i pa ctx).
Proof using. intros Hcb. induction offsets as [|o offsets IH]; intros i pa ctx; cbn [walk_levels]; ends_tac; apply IH. Qed.

(** A range of [n] pages takes [n] rounds, and one that finds the end. *)
Lemma ends_VmWalkPagingTables {C} Cr3 base n (cb : Z → Z → Z → Z → C → M PAGING (bool * C)) ctx :
  (∀ p va l ctx, ends (cb Cr3 p va l ctx)) → 0 ≤ n → 4096 * n < 2 ^ 64 → (Z.to_nat n < fuel)%nat →
  ends (_VmWalkPagingTables off fuel Cr3 base (4096 * n) cb ctx).
Proof using.
  intros Hcb Hn Htop Hf. unfold _VmWalkPagingTables.
  assert (Hgen : ∀ m g k ctx, Z.of_nat m = n - k → 0 ≤ k → (m < g)%nat → ends (loop g (λ '(offset, Context),
    if negb (offset <? 4096 * n) then mret (inr Context) else
    Context ← walk_levels off Cr3 cb (PtrOffset base offset)
      [MASK_PML4_OFFSET (PtrOffset base offset); MASK_PDPTE_OFFSET (PtrOffset base offset);
       MASK_PDE_OFFSET (PtrOffset base offset); MASK_PTE_OFFSET (PtrOffset base offset)] PAGING_TABLES_FIRST_LEVEL
      (u64 (Z.shiftl (get_field PML4_Pcide_PhysicalAddress Cr3) SHIFT_FOR_PHYSICAL_ADDR)) Context;
    mret (inl (u64 (offset + PAGE_SIZE), Context))) (4096 * k, ctx))).
  { induction m as [|m IH]; intros [|g] k c Hm Hk Hg s; try lia.
    - erewrite loop_break; [done|]. by rewrite (proj2 (Z.ltb_ge (4096 * k) (4096 * n))) by lia.
    - rewrite loop_S. rewrite (proj2 (Z.ltb_lt (4096 * k) (4096 * n))) by lia. cbn [negb]. rewrite bind_assoc.
      revert s. change (ends ?m) with (∀ s, m s ≠ OutOfFuel).
      apply (ends_bind (walk_levels off Cr3 cb _ _ _ _ c)); [by apply ends_walk_levels|]. intros c'.
      replace (u64 (4096 * k + PAGE_SIZE)) with (4096 * (k + 1)) by (unfold PAGE_SIZE; rewrite u64_id; lia).
      intros s. apply (IH g (k + 1) c'); lia. }
  apply (Hgen (Z.to_nat n) fuel 0 ctx); lia.
Qed.

(** C30: mapping, unmapping and translating end for every range of whole pages and whatever the
    paging structures hold, with one round for each page of the range: a table that refers to
    itself or to memory outside of the structures cannot keep the walk going. *)
Theorem paging_walks_end pd phys va n rights inval uncach Cr3 release wantA wantD :
  0 ≤ n → 4096 * n < 2 ^ 64 → (Z.to_nat n < fuel)%nat → (1 < fuel)%nat →
  ends (VmmMapMemoryInternal off fuel pd phys (4096 * n) va rights inval uncach)
  ∧ ends (VmmUnmapMemoryEx off fuel MmuReleaseMemory Cr3 va (4096 * n) release)
  ∧ ends (VmmGetPhysicalAddressEx off fuel Cr3 va wantA wantD).
Proof using Hrelease.
  intros Hn Htop Hf Hf1. split_and!.
  - unfold VmmMapMemoryInternal. ends_tac; try (by intros s). apply ends_VmWalkPagingTables; try done.
    intros. apply ends_VmMapPage.
  - unfold VmmUnmapMemoryEx. ends_tac. apply ends_VmWalkPagingTables; try done. intros. apply ends_VmUnmapPage.
  - unfold VmmGetPhysicalAddressEx. ends_tac. change PAGE_SIZE with (4096 * 1).
    apply ends_VmWalkPagingTables; try done. intros. apply ends_VmRetrievePhyAccess.
Qed.
End Walk.

Module PageWalkExample.
Import PagingExample.
(** The first entry of the top table refers to that table: the walk for the address 0x1000 visits
    it four times and ends. *)
Definition cyclic : PAGING := start_with (<[off + base + 8 := 0]> (<[off + base := base + 3]> ∅)).
Lemma paging_walks_end_witness :
  VmmUnmapMemoryEx off 3 release base 0x1000 (4096 * 2) true cyclic ≠ OutOfFuel
  ∧ ∃ s', VmmGetPhysicalAddressEx off 3 base 0x1000 false false cyclic = Ret ((0, None, None), s').
Proof.
  destruct (paging_walks_end off 3 release (λ pa n s, ltac:(done)) (Some kernel_paging) 0 0x1000 2 0 false false base
    true false false ltac:(lia) ltac:(lia) ltac:(lia) ltac:(lia)) as (_ & H & _).
  split; [apply H|]. eexists. vm_compute. reflexivity.
Defined.
End PageWalkExample.
