(* ===== verification/PagingTypes.v ===== *)
(** Types of the state of the paging code: every operation keeps the words, the indices and the
    counts within the types of their C declarations, and answers within them. *)
From S2P Require Import Prelude Cpu RwSpinlock BitField PageTables PageTablesSpec PageTablesProps.

#[local] Ltac Zify.zify_post_hook ::= Z.to_euclidean_division_equations.

Definition qword (x : Z) : Prop := 0 ≤ x < 2 ^ 64.
(** The words of the structures are QWORDs, the indices into the PAT have three bits, and of each
    area no more frames are handed out than it has. *)
Record data_typed (d : PAGING_DATA) : Prop := {
  dt_base : qword (BasePhysicalAddress d);
  dt_index : 0 ≤ CurrentIndex d ≤ NumberOfFrames d;
  dt_frames : NumberOfFrames d < 2 ^ 32
}.
Record paging_typed (s : PAGING) : Prop := {
  pt_words p w : pg_words s !! p = Some w → qword w;
  pt_wb : 0 ≤ WriteBackIndex s < 8;
  pt_uc : 0 ≤ UncacheableIndex s < 8;
  pt_data pd : data_typed (paging_data pd s)
}.
(** [m] keeps the state typed and answers with [P]. *)
Definition types {A} (m : M PAGING A) (P : A → Prop) : Prop :=
  ∀ s a s', paging_typed s → m s = Ret (a, s') → paging_typed s' ∧ P a.
Definition any {A} (_ : A) : Prop := True.

Create HintDb types.
Lemma types_ret {A} (a : A) (P : A → Prop) : P a → types (mret a) P.
Proof. intros Ha s b s' Hs [= <- <-]. done. Qed.
Lemma types_bind {A B} (m : M PAGING A) (k : A → M PAGING B) P Q :
  types m P → (∀ a, P a → types (k a) Q) → types (m ≫= k) Q.
Proof.
  intros Hm Hk s b s' Hs. unfold mbind, M_bind. destruct (m s) as [[a s1]| | |] eqn:E; try done.
  destruct (Hm _ _ _ Hs E) as [Hs1 Ha]. by apply Hk.
Qed.
Lemma types_weaken {A} (m : M PAGING A) (P Q : A → Prop) : types m P → (∀ a, P a → Q a) → types m Q.
Proof. intros Hm HPQ s a s' Hs Hr. destruct (Hm _ _ _ Hs Hr). split; [done|by apply HPQ]. Qed.
Lemma types_ASSERT b : types (ASSERT b) (λ _, b = true).
Proof. intros s a s' Hs. destruct b; [by intros [= <- <-]|done]. Qed.
Lemma types_ASSERT_any b : types (ASSERT b) any.
Proof. eapply types_weaken; [apply types_ASSERT|done]. Qed.
Lemma types_option {A} (o : option A) : types (from_option_fault o) (λ a, o = Some a).
Proof. intros s a s' Hs. destruct o; [by intros [= <- <-]|done]. Qed.
Lemma types_gets {A} (f : PAGING → A) P : (∀ s, paging_typed s → P (f s)) → types (gets f) P.
Proof. intros Hf s a s' Hs [= <- <-]. split; [done|by apply Hf]. Qed.
Lemma types_get : types get paging_typed.
Proof. by intros s a s' Hs [= <- <-]. Qed.
Lemma types_modify f : (∀ s, paging_typed s → paging_typed (f s)) → types (modify f) any.
Proof. intros Hf s a s' Hs [= <- <-]. split; [by apply Hf|done]. Qed.
Lemma types_fault {A} P : types (fault : M PAGING A) P.
Proof. by intros s a s' Hs. Qed.
Lemma types_panic {A} P : types (λ _, @Panic (A * PAGING)) P.
Proof. by intros s a s' Hs. Qed.
Lemma types_for_each n (body : Z → M PAGING unit) : (∀ i, types (body i) any) → ∀ i, types (for_each n i body) any.
Proof.
  intros Hb. induction n as [|n IH]; intros i; cbn [for_each]; [by apply types_ret|].
  eapply types_bind; [apply Hb|]. intros _ _. apply IH.
Qed.
Lemma types_for_fold {Acc} n (body : Z → Acc → M PAGING Acc) P :
  ∀ i acc, P acc → (∀ j acc, i ≤ j < i + Z.of_nat n → P acc → types (body j acc) P) → types (for_fold n i acc body) P.
Proof.
  induction n as [|n IH]; intros i acc Hacc Hb; cbn [for_fold]; [by apply types_ret|].
  eapply types_bind; [apply Hb; [lia|done]|]. intros a Ha. apply IH; [done|]. intros j b Hj. apply Hb. lia.
Qed.
Lemma types_loop {A B} fuel (body : A → M PAGING (A + B)) (P : A → Prop) (Q : B → Prop) :
  (∀ a, P a → types (body a) (λ r, match r with inl a' => P a' | inr b => Q b end)) →
  ∀ a, P a → types (loop fuel body a) Q.
Proof.
  intros Hb. induction fuel as [|f IH]; intros a Ha s b s' Hs; [done|]. rewrite loop_S.
  apply (types_bind (body a) _ _ Q (Hb a Ha)); [|done].
  intros [a'|b'] Hr; [by apply IH|by apply types_ret].
Qed.

Ltac types_step :=
  match goal with
  | |- types (_ ≫= _) _ => eapply types_bind; [solve [eauto with types]|intros ? ?]
  | |- types (match ?x with _ => _ end ≫= _) _ => destruct x eqn:?
  | |- types (mret _) _ => apply types_ret
  | |- types (match ?x with _ => _ end) _ => destruct x eqn:?
  | |- types (let _ := _ in _) _ => cbv zeta
  | |- _ => solve [eauto with types]
  end.
Ltac types_tac := repeat types_step.
#[export] Hint Resolve types_ASSERT types_ASSERT_any types_option types_get types_fault types_panic : types.
#[export] Hint Extern 1 (any _) => exact I : types.

Lemma types_set_words p v s : paging_typed s → qword v → paging_typed (set_words (<[p := v]> (pg_words s)) s).
Proof.
  intros [H1 H2 H3 H4] Hv. split; [|done|done|by intros []; apply (H4 kernel_paging) || apply (H4 process_paging)].
  intros q w. cbn. rewrite lookup_insert_Some. intros [[<- <-]|[_ Hw]]; [done|by eapply H1].
Qed.
Lemma types_read_qword p : types (read_qword p) qword.
Proof. intros s a s' Hs. unfold read_qword, mbind, M_bind, get. destruct (_ !! p) eqn:E; [|done]. intros [= <- <-]. split; [done|by eapply pt_words]. Qed.
Lemma types_write_qword p v : qword v → types (write_qword p v) any.
Proof.
  intros Hv s a s' Hs. unfold write_qword, mbind, M_bind, get. destruct (_ !! p) eqn:E; [|done].
  intros [= <- <-]. split; [by apply types_set_words|done].
Qed.
#[export] Hint Resolve types_read_qword types_write_qword : types.
Lemma types_read_field p f : 0 ≤ f.2 → types (read_field p f) (λ x, 0 ≤ x < 2 ^ f.2).
Proof. intros Hf. unfold read_field. types_tac. by apply get_field_range. Qed.
Lemma types_write_field p f v : field_ok 64 f → types (write_field p f v) any.
Proof.
  intros Hf. unfold write_field. types_step. apply types_write_qword. by apply set_field_range.
Qed.
Lemma types_zero_qwords p n : types (zero_qwords p n) any.
Proof. unfold zero_qwords. apply types_for_each. intros i. by apply types_write_qword. Qed.
Lemma types_PageInvalidateTlb p : types (PageInvalidateTlb p) any.
Proof.
  apply types_modify. intros s [H1 H2 H3 H4].
  split; [done|done|done|by intros []; apply (H4 kernel_paging) || apply (H4 process_paging)].
Qed.
#[export] Hint Resolve types_zero_qwords types_PageInvalidateTlb : types.
#[export] Hint Extern 1 (types (read_field _ _) _) => apply types_read_field; done : types.
#[export] Hint Extern 1 (types (write_field _ _ _) _) => apply types_write_field; done : types.

(** * HAL/src/pte.c *)
Lemma u64_qword x : qword (u64 x).
Proof. unfold qword, u64. lia. Qed.
#[export] Hint Resolve u64_qword : types.
Lemma types_PteMap p pa f : types (PteMap p pa f) any.
Proof. unfold PteMap. types_tac. Qed.
Lemma types_PteUnmap p : types (PteUnmap p) any.
Proof. unfold PteUnmap. types_tac. Qed.
Lemma types_PteIsPresent p : types (PteIsPresent p) any.
Proof. unfold PteIsPresent. types_tac. Qed.
Lemma types_PteGetPhysicalAddress p : types (PteGetPhysicalAddress p) qword.
Proof. unfold PteGetPhysicalAddress. types_tac. Qed.
Lemma types_PteLargePageGetPhysicalAddress p : types (PteLargePageGetPhysicalAddress p) qword.
Proof. unfold PteLargePageGetPhysicalAddress. types_tac. Qed.
#[export] Hint Resolve types_PteMap types_PteUnmap types_PteIsPresent types_PteGetPhysicalAddress
  types_PteLargePageGetPhysicalAddress : types.

(** * The walks *)
Lemma types_gets_data pd : types (gets (paging_data pd)) data_typed.
Proof. apply types_gets. intros s Hs. apply Hs. Qed.
Lemma types_set_data pd d : data_typed d → types (modify (set_paging_data pd d)) any.
Proof.
  intros Hd. apply types_modify. intros s [H1 H2 H3 H4].
  pose proof (H4 kernel_paging) as Hk. pose proof (H4 process_paging) as Hp.
  destruct pd; split; try done; intros []; done.
Qed.
Lemma types_gets_any {A} (f : PAGING → A) : types (gets f) any.
Proof. by apply types_gets. Qed.
#[export] Hint Resolve types_gets_data types_gets_any | 5 : types.
Section Walk.
Variables (off : Z) (fuel : nat).
Variable MmuReleaseMemory : Z → Z → M PAGING unit.
Hypothesis Hrelease : ∀ pa n, qword pa → types (MmuReleaseMemory pa n) any.

Lemma types_next_frame pd : types (_VmRetrieveNextPhysicalAddressForPagingStructure pd) qword.
Proof using.
  unfold _VmRetrieveNextPhysicalAddressForPagingStructure. eapply types_bind; [apply types_gets_data|].
  intros d [Hb Hi Hf]. cbv zeta. eapply types_bind; [apply types_ASSERT|]. intros _ Hlt%Z.ltb_lt.
  eapply types_bind; [apply types_set_data|].
  - split; cbn [BasePhysicalAddress CurrentIndex NumberOfFrames]; [done| |done]. rewrite u32_id; lia.
  - intros _ _. apply types_ret, u64_qword.
Qed.
#[local] Hint Resolve types_next_frame : types.
Lemma types_VmMapPage Cr3 p va l ctx : types (_VmMapPage off Cr3 p va l ctx) any.
Proof using.
  unfold _VmMapPage, _VmSetupPagingStructure. types_tac.
  all: eapply types_bind; [|intros ? _; types_tac].
  all: types_tac.
Qed.
Lemma types_VmUnmapPage Cr3 p va l ctx : types (_VmUnmapPage MmuReleaseMemory Cr3 p va l ctx) any.
Proof using Hrelease.
  unfold _VmUnmapPage. types_tac.
  all: eapply types_bind; [|intros ? _; types_tac].
  all: types_tac.
Qed.
Definition ctx_typed (ctx : VMM_RETRIEVE_PHYS_ACCESS_PAGE_WALK_CONTEXT) : Prop := qword (PhysicalAddress ctx).
Lemma types_retrieve_access p va ctx : ctx_typed ctx → types (retrieve_access p va ctx) ctx_typed.
Proof using. intros Hc. unfold retrieve_access. types_tac; done. Qed.
#[local] Hint Resolve types_retrieve_access : types.
Lemma types_VmRetrievePhyAccess Cr3 p va l ctx :
  ctx_typed ctx → types (_VmRetrievePhyAccess Cr3 p va l ctx) (λ r, ctx_typed r.2).
Proof using.
  intros Hc. unfold _VmRetrievePhyAccess. do 4 types_step.
  types_step; [by apply types_ret|]. types_step; [by apply types_ret|].
  assert (Hrest : ∀ r : bool * VMM_RETRIEVE_PHYS_ACCESS_PAGE_WALK_CONTEXT, ctx_typed r.2 →
    types (let '(bContinue, Context) := r in
      if negb bContinue then Context ← retrieve_access p va Context; mret (bContinue, Context)
      else mret (bContinue, Context)) (λ r, ctx_typed r.2)).
  { intros [[] c] Hr; types_tac; done. }
  apply (types_bind _ _ (λ r, ctx_typed r.2)); [|exact Hrest]. clear Hrest.
  destruct (l =? _); types_tac; (done || by apply u64_qword).
Qed.

Lemma types_walk_levels {C} Cr3 (cb : Z → Z → Z → Z → C → M PAGING (bool * C)) (P : C → Prop) va offsets :
  (∀ p l ctx, P ctx → types (cb Cr3 p va l ctx) (λ r, P r.2)) →
  ∀ i pa ctx, P ctx → types (walk_levels off Cr3 cb va offsets i pa ctx) P.
Proof using.
  intros Hcb. induction offsets as [|o offsets IH]; intros i pa ctx Hc; cbn [walk_levels]; [by apply types_ret|].
  eapply types_bind; [by apply Hcb|]. intros [c ctx'] Hc'. destruct (negb c); [by apply types_ret|].
  apply (types_bind _ _ any); [destruct (negb _); types_tac|]. intros ? _.
  eapply types_bind; [apply types_PteGetPhysicalAddress|]. intros ? _. by apply IH.
Qed.
Lemma types_VmWalkPagingTables {C} Cr3 base size (cb : Z → Z → Z → Z → C → M PAGING (bool * C)) (P : C → Prop) ctx :
  (∀ p va l ctx, P ctx → types (cb Cr3 p va l ctx) (λ r, P r.2)) → P ctx →
  types (_VmWalkPagingTables off fuel Cr3 base size cb ctx) P.
Proof using.
  intros Hcb Hctx. unfold _VmWalkPagingTables. apply (types_loop _ _ (λ r, P r.2)); [|done].
  intros [o c] Hc. destruct (negb _); [by apply types_ret|]. cbv zeta.
  eapply types_bind; [apply (types_walk_levels Cr3 cb P); [by intros; apply Hcb|done]|].
  intros c' Hc'. by apply types_ret.
Qed.
#[local] Hint Resolve types_VmMapPage types_VmUnmapPage types_VmRetrievePhyAccess : types.
Lemma types_VmmMapMemoryInternal pd phys size va rights inval uncach :
  types (VmmMapMemoryInternal off fuel pd phys size va rights inval uncach) any.
Proof using.
  unfold VmmMapMemoryInternal. destruct pd as [pd|]; [|by intros s a s']. do 4 types_step.
  apply (types_bind _ _ any); [|by intros; apply types_ret]. apply types_VmWalkPagingTables; [|done].
  intros. eapply types_weaken; [apply types_VmMapPage|done].
Qed.
Lemma types_VmmUnmapMemoryEx Cr3 va size release :
  types (VmmUnmapMemoryEx off fuel MmuReleaseMemory Cr3 va size release) any.
Proof using Hrelease.
  unfold VmmUnmapMemoryEx. do 2 (types_step; [by apply types_ret|]). cbv zeta.
  apply (types_bind _ _ any); [|by intros; apply types_ret]. apply types_VmWalkPagingTables; [|done].
  intros. eapply types_weaken; [by apply types_VmUnmapPage|done].
Qed.
Lemma types_VmmGetPhysicalAddressEx Cr3 va wantA wantD :
  types (VmmGetPhysicalAddressEx off fuel Cr3 va wantA wantD) (λ r, qword r.1.1).
Proof using.
  unfold VmmGetPhysicalAddressEx. do 2 types_step.
  apply (types_bind _ _ ctx_typed); [|by intros ctx Hc; apply types_ret]. apply types_VmWalkPagingTables; [|done].
  intros. by apply types_VmRetrievePhyAccess.
Qed.
Lemma types_VmDeterminePatIndices v wb uc :
  0 ≤ wb < 8 → 0 ≤ uc < 8 → types (_VmDeterminePatIndices v wb uc) (λ r, 0 ≤ r.2.1 < 8 ∧ 0 ≤ r.2.2 < 8).
Proof using.
  intros Hw Hu. unfold _VmDeterminePatIndices.
  apply (types_bind _ _ (λ r, 0 ≤ r.1.2 < 8 ∧ 0 ≤ r.2 < 8)).
  - apply types_for_fold; [done|]. intros j [[[b1 b2] w] u] Hj [H1 H2]. cbn in H1, H2. apply types_ret.
    repeat case_match; cbn; lia.
  - intros [[[b1 b2] w] u] H. by apply types_ret.
Qed.
Lemma types_VmmPreparePagingData pat : types (VmmPreparePagingData pat) any.
Proof using.
  unfold VmmPreparePagingData.
  apply (types_bind _ _ (λ i, 0 ≤ i < 8)); [by apply types_gets; intros s []|]. intros wb Hwb.
  apply (types_bind _ _ (λ i, 0 ≤ i < 8)); [by apply types_gets; intros s []|]. intros uc Huc.
  eapply types_bind; [by apply types_VmDeterminePatIndices|]. intros [r [wb' uc']] [H1 H2]. cbn in *.
  apply (types_bind _ _ any); [|by intros; apply types_ret]. apply types_modify.
  intros s [S1 S2 S3 S4]. split; [done|done|done|by intros []; apply (S4 kernel_paging) || apply (S4 process_paging)].
Qed.
Lemma types_VmmSetupPageTables pw pd base frames kernel :
  qword base → 0 < frames → types (VmmSetupPageTables off fuel pw pd base frames kernel) any.
Proof using.
  intros Hb Hf. unfold VmmSetupPageTables. do 2 types_step. cbv zeta.
  eapply types_bind; [apply types_ASSERT|]. intros _ Hmax%Z.leb_le.
  eapply types_bind; [apply types_set_data; split; cbn; [done|lia|unfold MAX_DWORD, PAGE_SIZE in Hmax; lia]|]. intros _ _.
  eapply types_bind; [apply types_VmmMapMemoryInternal|]. intros _ _.
  apply (types_bind _ _ any); [|by intros; apply types_ret]. destruct pw, pd; types_tac; done.
Qed.

(** C31: the paging code keeps its state within the types of its declarations, on every run that
    returns and for any tables: the entries stay QWORDs, the PAT indices stay below 8, and of the
    area of a PAGING_DATA never more frames are handed out than it has; physical addresses that
    are returned are QWORDs. *)
Theorem paging_well_typed pd pw pw2 phys size va rights inval uncach Cr3 release wantA wantD pat base frames kernel :
  qword base → 0 < frames →
  types (VmmMapMemoryInternal off fuel pd phys size va rights inval uncach) any
  ∧ types (VmmUnmapMemoryEx off fuel MmuReleaseMemory Cr3 va size release) any
  ∧ types (VmmGetPhysicalAddressEx off fuel Cr3 va wantA wantD) (λ r, qword r.1.1)
  ∧ types (VmmPreparePagingData pat) any
  ∧ types (VmmSetupPageTables off fuel pw pw2 base frames kernel) any.
Proof using Hrelease.
  intros Hb Hf. split_and!; [apply types_VmmMapMemoryInternal|apply types_VmmUnmapMemoryEx
    |apply types_VmmGetPhysicalAddressEx|apply types_VmmPreparePagingData|by apply types_VmmSetupPageTables].
Qed.
End Walk.

Module PagingTypesExample.
Import PagingExample.
Definition start2 : PAGING := start_with (<[off + base + 8 := 0]> (<[off + base := base + 3]> ∅)).
Lemma start2_typed : paging_typed start2.
Proof.
  split; [|done|done|by intros []]. intros p w Hw. cbn in Hw.
  apply lookup_insert_Some in Hw as [[_ <-]|[_ Hw]]; [done|].
  apply lookup_insert_Some in Hw as [[_ <-]|[_ Hw]]; [done|]. by rewrite lookup_empty in Hw.
Qed.
Lemma release_types pa n : qword pa → types (release pa n) any.
Proof.
  intros _. apply (types_modify (λ s, set_released (pg_released s ++ [(pa, n)]) s)).
  intros s [S1 S2 S3 S4]. split; [done|done|done|by intros []; apply (S4 kernel_paging) || apply (S4 process_paging)].
Qed.
Lemma paging_well_typed_witness : ∃ s',
  VmmPreparePagingData 0x0007040600070406 start2 = Ret (STATUS_SUCCESS, s') ∧ paging_typed s'
  ∧ (WriteBackIndex s', UncacheableIndex s') = (0, 3).
Proof.
  destruct (paging_well_typed off 3 release release_types None kernel_paging process_paging 0 4096 4096 0 false false base
    false false false 0x0007040600070406 base 8 true ltac:(done) ltac:(lia)) as (_ & _ & _ & H & _).
  destruct (VmmPreparePagingData 0x0007040600070406 start2) as [[r s']| | |] eqn:E; [|vm_compute in E; discriminate..].
  destruct (H start2 r s' start2_typed E) as [Hs _]. exists s'. revert E. vm_compute. intros [= <- <-].
  split; [reflexivity|]. split; [exact Hs|reflexivity].
Defined.
End PagingTypesExample.
