(* ===== verification/Slices.v ===== *)
(** Buffers that are read from a store of bytes and written back to it: integers in them, slices of
    the store, and what a change of some bytes of a slice comes to. *)
From S2P Require Import Prelude Memory.

#[local] Ltac Zify.zify_post_hook ::= Z.to_euclidean_division_equations.

(** The bytes of a device, by their offset. *)
Abbreviation BYTES := (gmap Z Z).

(** * Buffers
    What ExAllocatePoolWithTag returns is a list of bytes; an access beyond its end is an error. *)
Definition in_buffer (buffer : list Z) (offset n : Z) : bool :=
  (0 <=? offset) && (offset + n <=? Z.of_nat (length buffer)).
Definition le_at {St} (n : nat) (buffer : list Z) (offset : Z) : M St Z :=
  if in_buffer buffer offset (Z.of_nat n)
  then mret (le_value (take n (drop (Z.to_nat offset) buffer))) else fault.
(** memcpy of [bytes] into the buffer *)
Definition set_bytes_at {St} (offset : Z) (bytes buffer : list Z) : M St (list Z) :=
  if in_buffer buffer offset (Z.of_nat (length bytes))
  then mret (take (Z.to_nat offset) buffer ++ bytes ++ drop (Z.to_nat offset + length bytes) buffer) else fault.
Definition dword_at {St} (buffer : list Z) (offset : Z) : M St Z := le_at 4 buffer offset.
Definition set_dword_at {St} (offset v : Z) (buffer : list Z) : M St (list Z) := set_bytes_at offset (le_bytes 4 v) buffer.
(** Division by 0 raises an exception. *)
Definition udiv {St} (x y : Z) : M St Z := if y =? 0 then fault else mret (x / y).
Definition umod {St} (x y : Z) : M St Z := if y =? 0 then fault else mret (x mod y).

(** * Sectors as slices of the volume *)
Lemma bytes_from_length b p n : length (bytes_from b p n) = n.
Proof. unfold bytes_from. by rewrite length_fmap, length_seq. Qed.
Lemma bytes_from_app b p n m : bytes_from b p (n + m) = bytes_from b p n ++ bytes_from b (p + Z.of_nat n) m.
Proof.
  unfold bytes_from. rewrite seq_app, fmap_app. f_equal. rewrite (Nat.add_comm 0), <-(fmap_add_seq n 0 m).
  rewrite <-list_fmap_compose. apply list_fmap_ext. intros i x _. cbn. do 2 f_equal. lia.
Qed.
Lemma bytes_from_slice b p n o m :
  (o + m ≤ n)%nat → take m (drop o (bytes_from b p n)) = bytes_from b (p + Z.of_nat o) m.
Proof.
  intros H. replace n with (o + (m + (n - o - m)))%nat by lia. rewrite !bytes_from_app.
  rewrite drop_app_length' by by rewrite bytes_from_length. by rewrite take_app_length' by by rewrite bytes_from_length.
Qed.
Definition volume_ok (b : BYTES) : Prop := ∀ p v, b !! p = Some v → byte_ok v.
Lemma bytes_from_ok b p n : volume_ok b → Forall byte_ok (bytes_from b p n).
Proof.
  intros Hb. apply Forall_forall. intros x Hx. apply list_elem_of_fmap in Hx as (i & -> & _).
  destruct (b !! _) eqn:E; [by eapply Hb|done].
Qed.
(** Storing the bytes that are there changes nothing. *)
Lemma store_self b p n : volume_ok b → mapped b p (Z.of_nat n) → store b p (bytes_from b p n) = b.
Proof.
  intros Hb Hm. apply map_eq. intros q.
  destruct (decide (p ≤ q < p + Z.of_nat n)) as [Hin|Hout].
  2: { apply store_out. rewrite bytes_from_length. lia. }
  pose proof (store_at b p (bytes_from b p n)) as Hs. rewrite map_u8_id in Hs by by apply bytes_from_ok.
  pose proof (bytes_from_at b p n Hm) as Ha.
  destruct (lookup_lt_is_Some_2 (bytes_from b p n) (Z.to_nat (q - p))) as [x Hx]; [rewrite bytes_from_length; lia|].
  replace q with (p + Z.of_nat (Z.to_nat (q - p))) by lia. by rewrite (Hs _ _ Hx), (Ha _ _ Hx).
Qed.
Lemma store_ok b p bs : volume_ok b → volume_ok (store b p bs).
Proof.
  revert b p. induction bs as [|x bs IH]; intros b p Hb; cbn [store]; [done|]. apply IH.
  intros q v [[_ <-]|[_ Hq]]%lookup_insert_Some; [apply u8_ok|by eapply Hb].
Qed.

(** A slice whose bytes from [o] on are replaced. *)
Lemma store_slice b p n o xs :
  volume_ok b → mapped b p (Z.of_nat n) → (o + length xs ≤ n)%nat →
  store b p (take o (bytes_from b p n) ++ xs ++ drop (o + length xs) (bytes_from b p n)) = store b (p + Z.of_nat o) xs.
Proof.
  intros Hb Hm Ho.
  assert (Htake : take o (bytes_from b p n) = bytes_from b p o).
  { pose proof (bytes_from_slice b p n 0 o ltac:(lia)) as H. rewrite drop_0, Z.add_0_r in H. exact H. }
  set (m := (n - o - length xs)%nat).
  assert (Hdrop : drop (o + length xs) (bytes_from b p n) = bytes_from b (p + Z.of_nat (o + length xs)) m).
  { pose proof (bytes_from_slice b p n (o + length xs) m ltac:(lia)) as H. rewrite <-H, take_ge; [done|].
    rewrite length_drop, bytes_from_length. lia. }
  rewrite Htake, Hdrop, !store_app, !bytes_from_length.
  rewrite store_self; [|done|intros q Hq; apply Hm; lia].
  set (b1 := store b (p + Z.of_nat o) xs).
  replace (p + Z.of_nat o + Z.of_nat (length xs)) with (p + Z.of_nat (o + length xs)) by lia.
  assert (Heq : bytes_from b (p + Z.of_nat (o + length xs)) m = bytes_from b1 (p + Z.of_nat (o + length xs)) m).
  { unfold bytes_from. apply list_fmap_ext. intros i x [-> Hi]%lookup_seq. unfold b1. rewrite store_out; [done|lia]. }
  rewrite Heq. apply store_self; [by apply store_ok|].
  intros q Hq. apply store_dom, Hm. unfold m in Hq. lia.
Qed.
Definition put_dword (p v : Z) (b : BYTES) : BYTES := store b p (le_bytes 4 v).
Definition dword (b : BYTES) (p : Z) : Z := word b p 4.
Lemma put_dword_same b p v : 0 ≤ v < 2 ^ 32 → dword (put_dword p v b) p = v.
Proof.
  intros Hv. pose proof (word_at_store b p 4 v) as Hw. unfold dword, word, put_dword.
  replace (bytes_from (store b p (le_bytes 4 v)) p 4) with (le_bytes 4 v); [by apply le_value_le_bytes|].
  pose proof (bytes_at_mapped _ _ _ Hw) as Hm. rewrite le_bytes_length in Hm.
  apply (bytes_at_inj _ _ _ _ Hw (bytes_from_at _ _ _ Hm)). by rewrite le_bytes_length, bytes_from_length.
Qed.
Lemma put_dword_other b p v q : q + 4 ≤ p ∨ p + 4 ≤ q → dword (put_dword p v b) q = dword b q.
Proof.
  intros Hd. unfold dword, word, bytes_from, put_dword. f_equal. apply list_fmap_ext. intros i x [-> Hi]%lookup_seq.
  rewrite store_out; [done|]. rewrite le_bytes_length. lia.
Qed.

(** A buffer that was read from the volume holds its integers, and setting bytes in it is cutting
    it in three. *)
Lemma in_buffer_run b p n o m : 0 ≤ o → o + m ≤ Z.of_nat n → in_buffer (bytes_from b p n) o m = true.
Proof. intros H1 H2. unfold in_buffer. rewrite bytes_from_length. apply andb_true_iff. split; apply Z.leb_le; lia. Qed.
Lemma le_at_run m b p n o {St} (r : St) :
  0 ≤ o → o + Z.of_nat m ≤ Z.of_nat n → le_at m (bytes_from b p n) o r = Ret (word b (p + o) m, r).
Proof.
  intros Ho Hn. unfold le_at. rewrite in_buffer_run by lia. rewrite bytes_from_slice by lia.
  unfold mret, M_ret, word. do 4 f_equal. lia.
Qed.
(** A buffer that was read from the volume, after a DWORD in it was set, is what would be read had
    the DWORD been set in the volume. *)
Lemma bytes_from_agree b b' p n :
  (∀ q, p ≤ q < p + Z.of_nat n → b' !! q = b !! q) → bytes_from b' p n = bytes_from b p n.
Proof. intros H. apply list_fmap_ext. intros i x [-> Hi]%lookup_seq. cbn. rewrite H; [done|lia]. Qed.
Lemma put_dword_out b p v q : q < p ∨ p + 4 ≤ q → put_dword p v b !! q = b !! q.
Proof. intros H. apply store_out. by rewrite le_bytes_length. Qed.
Lemma bytes_from_put_dword b p v : bytes_from (put_dword p v b) p 4 = le_bytes 4 v.
Proof.
  pose proof (word_at_store b p 4 v) as Hw. pose proof (bytes_at_mapped _ _ _ Hw) as Hm. rewrite le_bytes_length in Hm.
  symmetry. apply (bytes_at_inj _ _ _ _ Hw (bytes_from_at _ _ _ Hm)). by rewrite le_bytes_length, bytes_from_length.
Qed.
Lemma dword_at_run b p n o {St} (r : St) : 0 ≤ o → o + 4 ≤ Z.of_nat n → dword_at (bytes_from b p n) o r = Ret (dword b (p + o), r).
Proof. intros Ho Hn. apply le_at_run; lia. Qed.
Lemma set_dword_at_run b p n o v {St} (r : St) :
  0 ≤ o → o + 4 ≤ Z.of_nat n →
  set_dword_at o v (bytes_from b p n) r = Ret (bytes_from (put_dword (p + o) v b) p n, r).
Proof.
  intros Ho Hn. unfold set_dword_at, set_bytes_at. rewrite le_bytes_length, in_buffer_run by lia.
  unfold mret, M_ret. do 2 f_equal.
  set (b' := put_dword (p + o) v b). set (k := Z.to_nat o). set (m := (n - k - 4)%nat).
  replace n with (k + (4 + m))%nat by lia. rewrite !bytes_from_app.
  rewrite take_app_length' by by rewrite bytes_from_length.
  rewrite <-drop_drop, drop_app_length', drop_app_length' by by rewrite bytes_from_length.
  rewrite (bytes_from_agree b b' p k) by (intros q Hq; apply put_dword_out; lia).
  replace (p + Z.of_nat k) with (p + o) by lia. rewrite (bytes_from_put_dword b (p + o) v : bytes_from b' (p + o) 4 = _).
  rewrite (bytes_from_agree b b' (p + o + Z.of_nat 4) m) by (intros q Hq; apply put_dword_out; lia). done.
Qed.
Lemma put_dword_lookup b p v q :
  put_dword p v b !! q = if decide (p ≤ q < p + 4) then le_bytes 4 v !! Z.to_nat (q - p) else b !! q.
Proof.
  destruct (decide _) as [Hin|Hout]; [|apply put_dword_out; lia].
  destruct (lookup_lt_is_Some_2 (le_bytes 4 v) (Z.to_nat (q - p))) as [x Hx]; [rewrite le_bytes_length; lia|].
  rewrite Hx, <-(word_at_store b p 4 v _ _ Hx). f_equal. lia.
Qed.
Lemma store_from b b' p n :
  volume_ok b → mapped b p (Z.of_nat n) → ∀ q, store b' p (bytes_from b p n) !! q =
    if decide (p ≤ q < p + Z.of_nat n) then b !! q else b' !! q.
Proof.
  intros Hb Hm q. destruct (decide _) as [Hin|Hout]; [|apply store_out; rewrite bytes_from_length; lia].
  destruct (lookup_lt_is_Some_2 (bytes_from b p n) (Z.to_nat (q - p))) as [x Hx]; [rewrite bytes_from_length; lia|].
  pose proof (store_at b' p (bytes_from b p n)) as Hs. rewrite map_u8_id in Hs by by apply bytes_from_ok.
  pose proof (bytes_from_at b p n Hm) as Ha. specialize (Hs _ _ Hx). specialize (Ha _ _ Hx).
  replace (p + Z.of_nat (Z.to_nat (q - p))) with q in * by lia. congruence.
Qed.
(** Writing back a buffer in which DWORDs were set, to a volume that has changed elsewhere. *)
Lemma store_put_dword b b' p n q v :
  volume_ok b → mapped b p (Z.of_nat n) → p ≤ q → q + 4 ≤ p + Z.of_nat n →
  store b' p (bytes_from (put_dword q v b) p n) = put_dword q v (store b' p (bytes_from b p n)).
Proof.
  intros Hb Hm H1 H2. apply map_eq. intros r.
  rewrite store_from; [|by apply store_ok|by apply mapped_store].
  rewrite !put_dword_lookup, (store_from b b' p n Hb Hm r).
  destruct (decide (q ≤ r < q + 4)); [by rewrite decide_True by lia|done].
Qed.

(** * Slices of a volume that changes in them *)
Lemma store_bytes_from b b1 p n :
  volume_ok b1 → mapped b1 p (Z.of_nat n) → (∀ q, q < p ∨ p + Z.of_nat n ≤ q → b1 !! q = b !! q) →
  store b p (bytes_from b1 p n) = b1.
Proof.
  intros Hb Hm Hq. apply map_eq. intros q. rewrite (store_from b1 b p n Hb Hm).
  destruct (decide _); [done|]. symmetry. apply Hq. lia.
Qed.
Lemma bytes_from_store b p xs : Forall byte_ok xs → bytes_from (store b p xs) p (length xs) = xs.
Proof.
  intros Hx. pose proof (store_at b p xs) as H. rewrite map_u8_id in H by done.
  symmetry. apply (bytes_at_inj _ _ _ _ H).
  - apply bytes_from_at. rewrite <-(map_u8_id xs) at 2 by done. apply bytes_at_mapped, store_at.
  - by rewrite bytes_from_length.
Qed.
Lemma set_bytes_at_run b p n o xs {St} (r : St) :
  Forall byte_ok xs → 0 ≤ o → o + Z.of_nat (length xs) ≤ Z.of_nat n →
  set_bytes_at o xs (bytes_from b p n) r = Ret (bytes_from (store b (p + o) xs) p n, r).
Proof.
  intros Hx Ho Hn. unfold set_bytes_at. rewrite in_buffer_run by lia. unfold mret, M_ret. do 2 f_equal.
  set (b' := store b (p + o) xs). set (k := Z.to_nat o). set (m := (n - k - length xs)%nat).
  replace n with (k + (length xs + m))%nat by lia. rewrite !bytes_from_app.
  rewrite take_app_length' by by rewrite bytes_from_length.
  rewrite <-drop_drop, drop_app_length', drop_app_length' by by rewrite bytes_from_length.
  rewrite (bytes_from_agree b b' p k) by (intros q Hq; apply store_out; lia).
  replace (p + Z.of_nat k) with (p + o) by lia. rewrite (bytes_from_store b (p + o) xs Hx : bytes_from b' (p + o) _ = _).
  rewrite (bytes_from_agree b b' (p + o + Z.of_nat (length xs)) m) by (intros q Hq; apply store_out; lia). done.
Qed.
