(* ===== verification/Fat.v ===== *)
(** FAT32/src/fat_utils.c and the reading and writing of files in FAT32/src/fat_operations.c: the
    file allocation table and the chains of clusters in it, on a volume that is a store of bytes. *)
From S2P Require Import Prelude Memory Slices BitField Heap.

(** CommonLib/inc/status.h, CommonLib/inc/base.h *)
Definition STATUS_TIME_INVALID : Z := error_status GENERAL_MASK 0x1C.
Definition STATUS_DISK_FULL : Z := error_status DISK_MASK 0x2.
Definition STATUS_DEVICE_FILESYSTEM_UNSUPPORTED : Z := error_status DEVICE_MASK 0xC.
Definition STATUS_DEVICE_CLUSTER_INVALID : Z := error_status DEVICE_MASK 0xD.

(** * FAT32/headers *)
Definition FAT32_CLUSTER_MASK : Z := 0x0FFFFFFF.
Definition FAT32_EOC_MARK : Z := 0x0FFFFFFF.
Definition FAT32_BAD_CLUSTER : Z := 0x0FFFFFF7.
Definition FAT32_EOC (cluster : Z) : bool := FAT32_BAD_CLUSTER <? cluster.
Definition FAT32_UNKNOWN : Z := 0xFFFFFFFF.
Definition sizeof_FAT32_ENTRY : Z := 4.
(** The FSINFO is the second sector; the offsets of the fields that the code uses. *)
Definition sizeof_FSINFO : Z := 512.
Definition FSI_Free_Count : Z := 488.
Definition FSI_Nxt_Free : Z := 492.
(** The VolumeDevice is the device that the state of the operations is about. *)
Record FAT_DATA := mkFatData {
  CountOfClusters : Z;
  RootDirectoryStartSector : Z;
  ReservedSectors : Z;
  FirstDataSector : Z;
  SectorsPerCluster : Z;
  BytesPerSector : Z;
  EntriesPerSector : Z;
  AllocationSize : Z
}.
(** The first sector of the volume, and the offsets of the fields that the code uses. *)
Definition sizeof_FAT_BPB : Z := 512.
Definition BPB_BytsPerSec : Z := 11.
Definition BPB_SecPerClus : Z := 13.
Definition BPB_RsvdSecCnt : Z := 14.
Definition BPB_NumFATs : Z := 16.
Definition BPB_TotSec16 : Z := 19.
Definition BPB_FATSz16 : Z := 22.
Definition BPB_TotSec32 : Z := 32.
Definition BPB_FATSz32 : Z := 36.
Definition BPB_RootClus : Z := 44.
Definition FAT12_MAX_CLUSTERS : Z := 4085.
Definition FAT16_MAX_CLUSTERS : Z := 65525.

(** The sizes and offsets of a DIR_ENTRY; the attributes of a long entry are at the same offset. *)
Definition sizeof_DIR_ENTRY : Z := 32.
Definition DIR_Name : Z := 0x0.
Definition DIR_Attr : Z := 0xB.
Definition DIR_LstAccDate : Z := 0x12.
Definition DIR_FstClusHI : Z := 0x14.
Definition DIR_WrtTime : Z := 0x16.
Definition DIR_WrtDate : Z := 0x18.
Definition DIR_FstClusLO : Z := 0x1A.
Definition DIR_FileSize : Z := 0x1C.
Definition FREE_ENTRY : Z := 0xE5.
Definition FREE_JAP_ENTRY : Z := 0x05.
Definition ATTR_LONG_NAME : Z := 0x0F.
Definition ATTR_LONG_NAME_MASK : Z := 0x3F.
Definition WORDS_TO_DWORD (x y : Z) : Z := Z.lor (u32 (Z.shiftl x 16)) y.
(** The fields of a FATDATE and of a FATTIME, which are WORDs. *)
Definition FATDATE_Day : bitfield := (0, 5).
Definition FATDATE_Month : bitfield := (5, 4).
Definition FATDATE_Year : bitfield := (9, 7).
Definition FATTIME_Second : bitfield := (0, 5).
Definition FATTIME_Minute : bitfield := (5, 6).
Definition FATTIME_Hour : bitfield := (11, 5).
Definition FAT_START_YEAR : Z := 1980.
(** CommonLib/inc/time.h *)
Record DATE := mkDate { Day : Z; Month : Z; Year : Z }.
Record TIME := mkTime { Second : Z; Minute : Z; Hour : Z }.
Record DATETIME := mkDateTime { Date : DATE; Time_ : TIME }.

(** * Dates *)
(** The status and the date as far as it was set before a field was found to be invalid. *)
Definition _ConvertFatDateToDate (FatDate : Z) (RealDate : DATE) : Z * DATE :=
  let day := get_field FATDATE_Day FatDate in
  let RealDate := mkDate day (Month RealDate) (Year RealDate) in
  if (day <? 1) || (31 <? day) then (STATUS_TIME_INVALID, RealDate) else
  let month := get_field FATDATE_Month FatDate in
  let RealDate := mkDate day month (Year RealDate) in
  if (month <? 1) || (12 <? month) then (STATUS_TIME_INVALID, RealDate) else
  (STATUS_SUCCESS, mkDate day month (get_field FATDATE_Year FatDate + FAT_START_YEAR)).
Definition _ConvertFatTimeToTime (FatTime : Z) (RealTime : TIME) : Z * TIME :=
  let second := get_field FATTIME_Second FatTime in
  let RealTime := mkTime second (Minute RealTime) (Hour RealTime) in
  if (second <? 0) || (29 <? second) then (STATUS_TIME_INVALID, RealTime) else
  let second := u8 (second * 2) in
  let minute := get_field FATTIME_Minute FatTime in
  let RealTime := mkTime second minute (Hour RealTime) in
  if (minute <? 0) || (59 <? minute) then (STATUS_TIME_INVALID, RealTime) else
  let hour := get_field FATTIME_Hour FatTime in
  let RealTime := mkTime second minute hour in
  if (hour <? 0) || (23 <? hour) then (STATUS_TIME_INVALID, RealTime) else (STATUS_SUCCESS, RealTime).
Definition ConvertFatDateTimeToDateTime (FatDate FatTime : Z) (DateTime : DATETIME) : Z * DATETIME :=
  let '(status, date) := _ConvertFatDateToDate FatDate (Date DateTime) in
  if negb (SUCCEEDED status) then (status, mkDateTime date (Time_ DateTime)) else
  let '(status, time) := _ConvertFatTimeToTime FatTime (Time_ DateTime) in
  (status, mkDateTime date time).
Definition _ConvertDateToFatDate (RealDate : DATE) (FatDate : Z) : Z :=
  set_field FATDATE_Day (Day RealDate) (set_field FATDATE_Month (Month RealDate)
    (set_field FATDATE_Year (Year RealDate - FAT_START_YEAR) FatDate)).
Definition _ConvertTimeToFatTime (RealTime : TIME) (FatTime : Z) : Z :=
  set_field FATTIME_Second (Second RealTime / 2) (set_field FATTIME_Minute (Minute RealTime)
    (set_field FATTIME_Hour (Hour RealTime) FatTime)).
Definition ConvertDateTimeToFatDateTime (DateTime : DATETIME) (FatDate FatTime : Z) : Z * Z :=
  (_ConvertDateToFatDate (Date DateTime) FatDate, _ConvertTimeToFatTime (Time_ DateTime) FatTime).

Section Ops.
(** The rounds of the loops over the sectors of the table, over the entries of a sector and over
    the clusters of a file; the requests to the device of the volume (io_devices.c), which get a
    length or the bytes, the offset and whether to wait, and return the status and the bytes
    read or their number; the allocator. *)
Variable fuel : nat.
Variables (IoReadDeviceEx : Z → Z → bool → M BYTES (Z * list Z))
          (IoWriteDeviceEx : list Z → Z → bool → M BYTES (Z * Z)).
Variables (ExAllocatePoolWithTag : Z → Z → Z → Z → M BYTES Z) (ExFreePoolWithTag : Z → Z → M BYTES unit).
Definition IoReadDevice (length offset : Z) : M BYTES (Z * list Z) := IoReadDeviceEx length offset false.
Definition IoWriteDevice (data : list Z) (offset : Z) : M BYTES (Z * Z) := IoWriteDeviceEx data offset false.

Variable IoGetCurrentDateTime : M BYTES DATETIME.
Variable FatData : FAT_DATA.

(** * Sectors and clusters *)
Definition valid_cluster (Cluster : Z) : bool :=
  negb ((u32 (CountOfClusters FatData + 1) <? Cluster) || (Cluster <? 2)).
(** The status and *Sector, which is not set for a cluster that does not exist. *)
Definition FirstSectorOfCluster (Cluster : Z) : Z * option Z :=
  if negb (valid_cluster Cluster) then (STATUS_DEVICE_CLUSTER_INVALID, None)
  else (STATUS_SUCCESS, Some (u64 (u64 ((Cluster - 2) * SectorsPerCluster FatData) + FirstDataSector FatData))).
Definition ClusterOfSector (Sector : Z) : M BYTES (Z * Z) :=
  q ← udiv (u64 (Sector - FirstDataSector FatData)) (SectorsPerCluster FatData);
  let Cluster := u64 (q + 2) in
  mret (if negb (valid_cluster Cluster) then STATUS_DEVICE_CLUSTER_INVALID else STATUS_SUCCESS, Cluster).

(** The sector of the table that holds the entry of a cluster, and the index of the entry in it. *)
Definition sector_of_entry (Cluster : Z) : M BYTES Z :=
  q ← udiv (u64 (Cluster * sizeof_FAT32_ENTRY)) (BytesPerSector FatData);
  mret (u64 (ReservedSectors FatData + q)).
Definition index_of_entry (Cluster : Z) : M BYTES Z :=
  umod Cluster (BytesPerSector FatData / sizeof_FAT32_ENTRY).
(** [pFat32Entries[i]] *)
Definition get_entry (pFat32Entries : list Z) (i : Z) : M BYTES Z := dword_at pFat32Entries (4 * i).
(** The entry gets a link; the four reserved bits are preserved. *)
Definition set_link (pFat32Entries : list Z) (i link : Z) : M BYTES (list Z) :=
  e ← get_entry pFat32Entries i;
  set_dword_at (4 * i) (Z.lor (Z.land e (u32 (Z.lnot FAT32_CLUSTER_MASK))) link) pFat32Entries.
(** A sector is read into the buffer, or written from it. *)
Definition read_sector (bytesToRead offset : Z) : M BYTES (Z * list Z) :=
  '(status, data) ← IoReadDevice bytesToRead offset;
  (if SUCCEEDED status then ASSERT (Z.of_nat (length data) =? BytesPerSector FatData) else mret tt);;
  mret (status, data).
Definition write_sector (data : list Z) (offset : Z) : M BYTES Z :=
  '(status, n) ← IoWriteDevice data offset;
  (if SUCCEEDED status then ASSERT (n =? BytesPerSector FatData) else mret tt);;
  mret status.

(** * Chains *)
(** The status and *NextCluster. *)
Definition next_cluster (sectorNumber indexInSector : Z) : M BYTES (Z * Z) :=
  let offset := u64 (sectorNumber * BytesPerSector FatData) in
  '(status, pFat32Entries) ← read_sector (BytesPerSector FatData) offset;
  if negb (SUCCEEDED status) then mret (status, 0) else
  e ← get_entry pFat32Entries indexInSector;
  let nextCluster := Z.land e FAT32_CLUSTER_MASK in
  if 0 =? nextCluster then
    pFat32Entries ← set_link pFat32Entries indexInSector FAT32_EOC_MARK;
    status ← write_sector pFat32Entries offset;
    mret (if negb (SUCCEEDED status) then status else STATUS_SUCCESS, FAT32_EOC_MARK)
  else mret (STATUS_SUCCESS, if FAT32_BAD_CLUSTER =? nextCluster then FAT32_EOC_MARK else nextCluster).
Definition NextClusterInChain (CurrentCluster : Z) : M BYTES (Z * Z) :=
  sectorNumber ← sector_of_entry CurrentCluster;
  indexInSector ← index_of_entry CurrentCluster;
  p ← ExAllocatePoolWithTag PoolAllocateZeroMemory (BytesPerSector FatData) HEAP_TEMP_TAG 0;
  if p =? NULL then mret (STATUS_HEAP_NO_MORE_MEMORY, 0) else
  r ← next_cluster sectorNumber indexInSector;
  ExFreePoolWithTag p HEAP_TEMP_TAG;;
  mret r.

(** The first entry from [indexInSector] on whose link is 0. *)
Definition free_in_sector (pFat32Entries : list Z) (indexInSector : Z) : M BYTES (option Z) :=
  loop fuel (λ indexInSector,
    if negb (indexInSector <? BytesPerSector FatData / sizeof_FAT32_ENTRY) then mret (inr None) else
    e ← get_entry pFat32Entries indexInSector;
    if 0 =? Z.land e FAT32_CLUSTER_MASK then mret (inr (Some indexInSector))
    else mret (inl (u64 (indexInSector + 1)))) indexInSector.
(** One round of the loop over the sectors: the status so far, or the status and the cluster. *)
Definition free_step (MarkReserved : bool) (firstFatSector entriesPerFat sectorsPerFat : Z)
    '(status, currentSector, indexInSector) : M BYTES (Z * Z * Z + Z * Z) :=
  if negb (currentSector <? sectorsPerFat) then mret (inr (status, 0)) else
  let offset := u64 (currentSector * BytesPerSector FatData) in
  '(status, pFat32Entries) ← read_sector (BytesPerSector FatData) offset;
  if negb (SUCCEEDED status) then mret (inr (status, 0)) else
  found ← free_in_sector pFat32Entries indexInSector;
  match found with
  | None => mret (inl (status, u64 (currentSector + 1), 0))
  | Some indexInSector =>
      status ← (if MarkReserved : bool then
          pFat32Entries ← set_link pFat32Entries indexInSector FAT32_EOC_MARK;
          write_sector pFat32Entries offset
        else mret status);
      if negb (SUCCEEDED status) then mret (inr (status, 0)) else
      let clusterIndex := u64 (u64 (currentSector - firstFatSector)
        * (BytesPerSector FatData / sizeof_FAT32_ENTRY) + indexInSector) in
      ASSERT ((2 <=? clusterIndex) && (clusterIndex <? entriesPerFat));;
      ASSERT (negb (FAT32_UNKNOWN =? clusterIndex));;
      mret (inr (status, clusterIndex))
  end.
Definition _FirstFreeCluster (FirstCheckedCluster : Z) (MarkReserved : bool) : M BYTES (Z * Z) :=
  p ← ExAllocatePoolWithTag PoolAllocateZeroMemory (BytesPerSector FatData) HEAP_TEMP_TAG 0;
  if p =? NULL then mret (STATUS_HEAP_NO_MORE_MEMORY, 0) else
  let firstFatSector := ReservedSectors FatData in
  let entriesPerFat := u32 (CountOfClusters FatData + 2) in
  sectorsPerFat ← udiv (u64 (entriesPerFat * sizeof_FAT32_ENTRY)) (BytesPerSector FatData);
  r ← (if entriesPerFat <=? FirstCheckedCluster then mret (STATUS_SUCCESS, 0) else
    let firstCheckedCluster := if FAT32_UNKNOWN =? FirstCheckedCluster then 2 else FirstCheckedCluster in
    currentSector ← sector_of_entry firstCheckedCluster;
    indexInSector ← index_of_entry firstCheckedCluster;
    loop fuel (free_step MarkReserved firstFatSector entriesPerFat sectorsPerFat)
      (STATUS_UNSUCCESSFUL, currentSector, indexInSector));
  ExFreePoolWithTag p HEAP_TEMP_TAG;;
  mret r.

(** The link of the last cluster of a chain is set. *)
Definition link_cluster (LastClusterFromChain reservedCluster : Z) : M BYTES Z :=
  p ← ExAllocatePoolWithTag PoolAllocateZeroMemory (BytesPerSector FatData) HEAP_TEMP_TAG 0;
  if p =? NULL then mret STATUS_HEAP_NO_MORE_MEMORY else
  sectorFromFat ← sector_of_entry LastClusterFromChain;
  indexInSector ← index_of_entry LastClusterFromChain;
  let offset := u64 (sectorFromFat * BytesPerSector FatData) in
  '(status, pFat32Entries) ← read_sector (BytesPerSector FatData) offset;
  status ← (if negb (SUCCEEDED status) then mret status else
    pFat32Entries ← set_link pFat32Entries indexInSector (u32 reservedCluster);
    write_sector pFat32Entries offset);
  ExFreePoolWithTag p HEAP_TEMP_TAG;;
  mret status.
(** The free clusters behind the one that was reserved: the status and the new FSI_Free_Count. *)
Definition count_free_step '(freeCluster, count) : M BYTES (Z * Z + Z * Z) :=
  '(status, freeCluster) ← _FirstFreeCluster (u64 (freeCluster + 1)) false;
  if negb (SUCCEEDED status) then mret (inr (status, count)) else
  if 0 =? freeCluster then mret (inr (status, count))
  else mret (inl (freeCluster, u32 (count + 1))).
Definition count_free (reservedCluster : Z) : M BYTES (Z * Z) := loop fuel count_free_step (reservedCluster, 0).
(** The body of the __try: the status, the FSINFO, and the cluster that was reserved, or 0. *)
Definition extend_chain (LastClusterFromChain : Z) : M BYTES (Z * list Z * Z) :=
  '(status, pFsInfo) ← read_sector sizeof_FSINFO (1 * BytesPerSector FatData);
  if negb (SUCCEEDED status) then mret (status, pFsInfo, 0) else
  freeCount ← dword_at pFsInfo FSI_Free_Count;
  if 0 =? freeCount then
    pFsInfo ← set_dword_at FSI_Nxt_Free FAT32_UNKNOWN pFsInfo;
    mret (STATUS_DISK_FULL, pFsInfo, 0)
  else
  nxtFree ← dword_at pFsInfo FSI_Nxt_Free;
  '(status, reservedCluster) ← _FirstFreeCluster nxtFree true;
  if negb (SUCCEEDED status) then mret (status, pFsInfo, reservedCluster) else
  if 0 =? reservedCluster then
    ASSERT (FAT32_UNKNOWN =? freeCount);;
    pFsInfo ← set_dword_at FSI_Free_Count 0 pFsInfo;
    pFsInfo ← set_dword_at FSI_Nxt_Free FAT32_UNKNOWN pFsInfo;
    mret (STATUS_DISK_FULL, pFsInfo, 0)
  else
  status ← link_cluster LastClusterFromChain reservedCluster;
  if negb (SUCCEEDED status) then mret (status, pFsInfo, reservedCluster) else
  pFsInfo ← set_dword_at FSI_Nxt_Free (u32 reservedCluster) pFsInfo;
  '(status, freeCount) ← (if FAT32_UNKNOWN =? freeCount then count_free reservedCluster
    else mret (status, u32 (freeCount - 1)));
  pFsInfo ← set_dword_at FSI_Free_Count freeCount pFsInfo;
  mret (status, pFsInfo, reservedCluster).
(** The status and *ReservedCluster. The __finally writes the FSINFO back in every case, and the
    status of this write is the one that is returned. *)
Definition _AddNewClusterToChain (LastClusterFromChain : Z) : M BYTES (Z * Z) :=
  ASSERT (negb (FAT32_EOC LastClusterFromChain));;
  p ← ExAllocatePoolWithTag PoolAllocateZeroMemory sizeof_FSINFO HEAP_TEMP_TAG 0;
  if p =? NULL then (λ _, Panic) : M BYTES (Z * Z) else
  '(_, pFsInfo, reservedCluster) ← extend_chain LastClusterFromChain;
  '(status, n) ← IoWriteDevice pFsInfo (1 * BytesPerSector FatData);
  ASSERT (n =? BytesPerSector FatData);;
  ExFreePoolWithTag p HEAP_TEMP_TAG;;
  mret (status, reservedCluster).

(** The status and *NextSector, which keeps its value when it is [None]. *)
Definition NextSectorInClusterChain (CurrentSector : Z) (ExtendChain : bool) : M BYTES (Z * option Z) :=
  '(status, currentCluster) ← ClusterOfSector CurrentSector;
  if negb (SUCCEEDED status) then mret (status, None) else
  '(status, nextCluster) ← NextClusterInChain currentCluster;
  if negb (SUCCEEDED status) then mret (status, None) else
  if FAT32_EOC nextCluster then
    if negb ExtendChain then mret (status, Some 0) else
    '(status, nextCluster) ← _AddNewClusterToChain currentCluster;
    if negb (SUCCEEDED status) then mret (status, None) else
    mret (FirstSectorOfCluster nextCluster)
  else mret (FirstSectorOfCluster nextCluster).

(** * Directory entries *)
Definition dir_cluster_bytes : Z := u32 (BytesPerSector FatData * SectorsPerCluster FatData).
(** The directory cluster that starts at a sector is read into a buffer. *)
Definition read_dir_cluster (EntrySector : Z) : M BYTES (Z * list Z) :=
  '(status, pDirEntryArray) ← IoReadDevice dir_cluster_bytes (u64 (EntrySector * BytesPerSector FatData));
  (if SUCCEEDED status then ASSERT (Z.of_nat (length pDirEntryArray) =? dir_cluster_bytes) else mret tt);;
  mret (status, pDirEntryArray).
(** One round of the search: the entry is in use, is not a part of a long name, and its first
    cluster is the one that is searched for. *)
Definition dir_entry_matches (pDirEntryArray : list Z) (index cluster : Z) : M BYTES bool :=
  name ← le_at 1 pDirEntryArray (index * sizeof_DIR_ENTRY + DIR_Name);
  if (FREE_ENTRY =? name) || (FREE_JAP_ENTRY =? name) then mret false else
  attr ← le_at 1 pDirEntryArray (index * sizeof_DIR_ENTRY + DIR_Attr);
  if Z.land attr ATTR_LONG_NAME_MASK =? ATTR_LONG_NAME then mret false else
  hi ← le_at 2 pDirEntryArray (index * sizeof_DIR_ENTRY + DIR_FstClusHI);
  lo ← le_at 2 pDirEntryArray (index * sizeof_DIR_ENTRY + DIR_FstClusLO);
  mret (cluster =? WORDS_TO_DWORD hi lo).
Definition find_dir_step (pDirEntryArray : list Z) (cluster index : Z) : M BYTES (Z + option Z) :=
  if negb (index <? dir_cluster_bytes / sizeof_DIR_ENTRY) then mret (inr None) else
  found ← dir_entry_matches pDirEntryArray index cluster;
  if (found : bool) then mret (inr (Some index)) else mret (inl (u64 (index + 1))).
Definition find_dir_entry (pDirEntryArray : list Z) (cluster : Z) : M BYTES (option Z) :=
  loop fuel (find_dir_step pDirEntryArray cluster) 0.
(** The status, *EntryIndex and *DirEntry, the bytes of the entry; [None] is not set. *)
Definition GetDirEntryFromSector (EntrySector DirFirstSector : Z) : M BYTES (Z * option Z * option (list Z)) :=
  p ← ExAllocatePoolWithTag PoolAllocateZeroMemory dir_cluster_bytes HEAP_TEMP_TAG 0;
  if p =? NULL then mret (STATUS_HEAP_NO_MORE_MEMORY, None, None) else
  '(status, pDirEntryArray) ← read_dir_cluster EntrySector;
  r ← (if negb (SUCCEEDED status) then mret (status, None, None) else
    '(status, dirFstClusterToSearch) ← ClusterOfSector DirFirstSector;
    if negb (SUCCEEDED status) then mret (status, None, None) else
    found ← find_dir_entry pDirEntryArray dirFstClusterToSearch;
    match found with
    | Some index => mret (STATUS_SUCCESS, Some index,
        Some (take 32 (drop (Z.to_nat (index * sizeof_DIR_ENTRY)) pDirEntryArray)))
    | None => mret (STATUS_ELEMENT_NOT_FOUND, Some MAX_DWORD, None)
    end);
  ExFreePoolWithTag p HEAP_TEMP_TAG;;
  mret r.
Definition WriteDirEntryToSector (EntrySector EntryIndex : Z) (DirEntry : list Z) : M BYTES Z :=
  p ← ExAllocatePoolWithTag PoolAllocateZeroMemory dir_cluster_bytes HEAP_TEMP_TAG 0;
  if p =? NULL then mret STATUS_HEAP_NO_MORE_MEMORY else
  '(status, pDirEntryArray) ← read_dir_cluster EntrySector;
  status ← (if negb (SUCCEEDED status) then mret status else
    pDirEntryArray ← set_bytes_at (EntryIndex * sizeof_DIR_ENTRY) DirEntry pDirEntryArray;
    '(status, n) ← IoWriteDevice pDirEntryArray (u64 (EntrySector * BytesPerSector FatData));
    if negb (SUCCEEDED status) then mret status else
    ASSERT (n =? dir_cluster_bytes);;
    mret STATUS_SUCCESS);
  ExFreePoolWithTag p HEAP_TEMP_TAG;;
  mret status.

(** * Files *)
(** The first sector of the cluster in which the sector [SectorOffset] of a file lies. *)
Definition skip_step (SectorOffset : Z) (ExtendChain : bool) '(currentSector, sectorsTraversed)
    : M BYTES (Z * Z + Z * Z) :=
  if negb (u64 (sectorsTraversed + SectorsPerCluster FatData) <=? SectorOffset)
  then mret (inr (STATUS_SUCCESS, currentSector)) else
  ASSERT (SectorsPerCluster FatData <=? SectorOffset);;
  '(status, nextSector) ← NextSectorInClusterChain currentSector ExtendChain;
  if negb (SUCCEEDED status) then mret (inr (status, currentSector)) else
  nextSector ← from_option_fault nextSector;
  mret (inl (nextSector, u64 (sectorsTraversed + SectorsPerCluster FatData))).
(** The sectors of a cluster are read behind those that were read before. The result is the
    status, how many sectors remain and the bytes in the buffer. *)
Definition read_step (Asynchronous : bool) '(currentSector, sectorsRemaining, sectorsToRead, data)
    : M BYTES (Z * Z * Z * list Z + Z * Z * list Z) :=
  '(status, chunk) ← IoReadDeviceEx (u64 (sectorsToRead * BytesPerSector FatData))
    (u64 (currentSector * BytesPerSector FatData)) Asynchronous;
  if negb (SUCCEEDED status) then mret (inr (status, sectorsRemaining, data)) else
  ASSERT (Z.of_nat (length chunk) =? u64 (sectorsToRead * BytesPerSector FatData));;
  let data := data ++ chunk in
  let sectorsRemaining := u64 (sectorsRemaining - sectorsToRead) in
  if 0 =? sectorsRemaining then mret (inr (STATUS_SUCCESS, sectorsRemaining, data)) else
  '(status, nextSector) ← NextSectorInClusterChain currentSector false;
  if negb (SUCCEEDED status) then mret (inr (status, sectorsRemaining, data)) else
  nextSector ← from_option_fault nextSector;
  if 0 =? nextSector then mret (inr (STATUS_SUCCESS, sectorsRemaining, data)) else
  mret (inl (nextSector, sectorsRemaining, Z.min (SectorsPerCluster FatData) sectorsRemaining, data)).
(** The end of FatReadFile and FatWriteFile: the entry of the file in its directory is changed. *)
Definition update_dir_entry (DirEntrySector BaseFileSector : Z) (change : list Z → M BYTES (list Z)) : M BYTES Z :=
  '(status, dirEntryIndex, dirEntry) ← GetDirEntryFromSector DirEntrySector BaseFileSector;
  if negb (SUCCEEDED status) then mret status else
  dirEntryIndex ← from_option_fault dirEntryIndex;
  dirEntry ← from_option_fault dirEntry;
  dirEntry ← change dirEntry;
  WriteDirEntryToSector DirEntrySector dirEntryIndex dirEntry.
(** The status, *SectorsRead and the bytes that were stored from Buffer on. *)
Definition FatReadFile (BaseFileSector SectorOffset DirEntrySector Buffer SectorsToRead : Z) (Asynchronous : bool)
    : M BYTES (Z * option Z * list Z) :=
  ASSERT (negb (Buffer =? NULL));;
  ASSERT (IsAddressAligned BaseFileSector (SectorsPerCluster FatData));;
  if 0 =? SectorsToRead then mret (STATUS_SUCCESS, Some 0, []) else
  '(status, currentSector) ← loop fuel (skip_step SectorOffset false) (BaseFileSector, 0);
  if negb (SUCCEEDED status) then mret (status, None, []) else
  ASSERT (negb (currentSector =? 0));;
  inCluster ← umod SectorOffset (SectorsPerCluster FatData);
  let currentSector := u64 (currentSector + inCluster) in
  let sectorsToRead := Z.min SectorsToRead (SectorsPerCluster FatData - inCluster) in
  '(status, sectorsRemaining, data) ← loop fuel (read_step Asynchronous) (currentSector, SectorsToRead, sectorsToRead, []);
  if negb (SUCCEEDED status) then mret (status, None, data) else
  status ← update_dir_entry DirEntrySector BaseFileSector (λ dirEntry,
    currentDateTime ← IoGetCurrentDateTime;
    set_bytes_at DIR_LstAccDate (le_bytes 2 (ConvertDateTimeToFatDateTime currentDateTime 0 0).1) dirEntry);
  mret (status, if SUCCEEDED status then Some (u64 (SectorsToRead - sectorsRemaining)) else None, data).
(** The bytes at Buffer are written cluster by cluster; [data] are those that are left. *)
Definition write_step (Asynchronous : bool) '(currentSector, sectorsRemaining, sectorsToWrite, data)
    : M BYTES (Z * Z * Z * list Z + Z) :=
  let bytesToWrite := u64 (sectorsToWrite * BytesPerSector FatData) in
  '(status, n) ← IoWriteDeviceEx (take (Z.to_nat bytesToWrite) data) (u64 (currentSector * BytesPerSector FatData)) Asynchronous;
  if negb (SUCCEEDED status) then mret (inr status) else
  ASSERT (n =? bytesToWrite);;
  let data := drop (Z.to_nat bytesToWrite) data in
  let sectorsRemaining := u64 (sectorsRemaining - sectorsToWrite) in
  if 0 =? sectorsRemaining then mret (inr STATUS_SUCCESS) else
  '(status, nextSector) ← NextSectorInClusterChain currentSector true;
  if negb (SUCCEEDED status) then mret (inr status) else
  nextSector ← from_option_fault nextSector;
  mret (inl (nextSector, sectorsRemaining, Z.min (SectorsPerCluster FatData) sectorsRemaining, data)).
(** [Buffer] is the address and [data] the bytes of the buffer. *)
Definition FatWriteFile (BaseFileSector SectorOffset DirEntrySector Buffer : Z) (data : list Z) (SectorsToWrite : Z)
    (Asynchronous : bool) : M BYTES (Z * option Z) :=
  ASSERT (negb (Buffer =? NULL));;
  ASSERT (IsAddressAligned BaseFileSector (SectorsPerCluster FatData));;
  if 0 =? SectorsToWrite then mret (STATUS_SUCCESS, Some 0) else
  '(status, currentSector) ← loop fuel (skip_step SectorOffset true) (BaseFileSector, 0);
  if negb (SUCCEEDED status) then mret (status, None) else
  ASSERT (negb (currentSector =? 0));;
  inCluster ← umod SectorOffset (SectorsPerCluster FatData);
  let currentSector := u64 (currentSector + inCluster) in
  let sectorsToWrite := Z.min SectorsToWrite (SectorsPerCluster FatData - inCluster) in
  status ← loop fuel (write_step Asynchronous) (currentSector, SectorsToWrite, sectorsToWrite, data);
  if negb (SUCCEEDED status) then mret (status, None) else
  status ← update_dir_entry DirEntrySector BaseFileSector (λ dirEntry,
    let nextByteToWrite := u32 (u32 (u64 (SectorOffset + SectorsToWrite)) * BytesPerSector FatData) in
    size ← dword_at dirEntry DIR_FileSize;
    dirEntry ← (if size <? nextByteToWrite then set_dword_at DIR_FileSize nextByteToWrite dirEntry else mret dirEntry);
    currentDateTime ← IoGetCurrentDateTime;
    let '(fatDate, fatTime) := ConvertDateTimeToFatDateTime currentDateTime 0 0 in
    dirEntry ← set_bytes_at DIR_LstAccDate (le_bytes 2 fatDate) dirEntry;
    dirEntry ← set_bytes_at DIR_WrtDate (le_bytes 2 fatDate) dirEntry;
    set_bytes_at DIR_WrtTime (le_bytes 2 fatTime) dirEntry);
  mret (status, if SUCCEEDED status then Some SectorsToWrite else None).
End Ops.

(** * The volume *)
Definition set_CountOfClusters (v : Z) (d : FAT_DATA) : FAT_DATA :=
  mkFatData v (RootDirectoryStartSector d) (ReservedSectors d) (FirstDataSector d) (SectorsPerCluster d)
    (BytesPerSector d) (EntriesPerSector d) (AllocationSize d).
Definition set_data_layout (first spc : Z) (d : FAT_DATA) : FAT_DATA :=
  mkFatData (CountOfClusters d) (RootDirectoryStartSector d) (ReservedSectors d) first spc
    (BytesPerSector d) (EntriesPerSector d) (AllocationSize d).
(** The status and the FAT_DATA. *)
Definition FatInitVolume (IoReadDeviceEx : Z → Z → bool → M BYTES (Z * list Z)) (DeviceAlignment : Z)
    (FatData : FAT_DATA) : M BYTES (Z * FAT_DATA) :=
  '(status, bpb) ← IoReadDevice IoReadDeviceEx sizeof_FAT_BPB 0;
  if negb (SUCCEEDED status) then mret (status, FatData) else
  signature ← le_at 2 bpb (2 * 255);
  if negb (MBR_BOOT_SIGNATURE =? signature) then mret (STATUS_DISK_MBR_NOT_PRESENT, FatData) else
  fatSize16 ← le_at 2 bpb BPB_FATSz16;
  fatSize ← (if negb (0 =? fatSize16) then mret fatSize16 else dword_at bpb BPB_FATSz32);
  totalSectors16 ← le_at 2 bpb BPB_TotSec16;
  totalSectors ← (if negb (0 =? totalSectors16) then mret totalSectors16 else dword_at bpb BPB_TotSec32);
  reserved ← le_at 2 bpb BPB_RsvdSecCnt;
  numFATs ← le_at 1 bpb BPB_NumFATs;
  let tables := u32 (reserved + u32 (numFATs * fatSize)) in
  let dataSectors := u32 (totalSectors - tables) in
  secPerClus ← le_at 1 bpb BPB_SecPerClus;
  count ← udiv dataSectors secPerClus;
  let FatData := set_CountOfClusters count FatData in
  if count <? FAT12_MAX_CLUSTERS then mret (STATUS_DEVICE_FILESYSTEM_UNSUPPORTED, FatData) else
  if count <? FAT16_MAX_CLUSTERS then mret (STATUS_DEVICE_FILESYSTEM_UNSUPPORTED, FatData) else
  let FatData := set_data_layout tables secPerClus FatData in
  rootClus ← dword_at bpb BPB_RootClus;
  match FirstSectorOfCluster FatData rootClus with
  | (status, Some root) =>
      bytesPerSec ← le_at 2 bpb BPB_BytsPerSec;
      ASSERT (DeviceAlignment <=? u32 (secPerClus * bytesPerSec));;
      mret (status, mkFatData count root reserved tables secPerClus bytesPerSec (bytesPerSec / sizeof_DIR_ENTRY)
        (u32 (secPerClus * bytesPerSec)))
  | (status, None) => mret (status, FatData)
  end.
