(* ===== verification/FatSpec.v ===== *)
(** The file allocation table as a function from clusters to links, and what the operations of Fat
    do to it. *)
From S2P Require Import Prelude Memory Slices BitField Heap Fat.

#[local] Ltac Zify.zify_post_hook ::= Z.to_euclidean_division_equations.

Lemma filter_none {A} (P : A → Prop) `{∀ x, Decision (P x)} (l : list A) : (∀ x, x ∈ l → ¬ P x) → filter P l = [].
Proof.
  induction l as [|x l IH]; intros H0; [done|]. rewrite filter_cons_False by (apply H0; left).
  apply IH. intros y Hy. apply H0. by right.
Qed.

(** What the device of a volume is asked for: some whole sectors, at most 65535 of them. *)
Definition request (n off : Z) : Prop := 0 < n ≤ 512 * 65535 ∧ n mod 512 = 0 ∧ 0 ≤ off ∧ off mod 512 = 0.
Lemma request_sectors n k : 0 < n ≤ 65535 → 0 ≤ k → request (512 * n) (512 * k).
Proof. unfold request. lia. Qed.
Lemma request_sector k : 0 ≤ k → request 512 (512 * k).
Proof. apply (request_sectors 1). lia. Qed.

(** * The table *)
Section Table.
Variable fuel : nat.
Variables (IoReadDeviceEx : Z → Z → bool → M BYTES (Z * list Z))
          (IoWriteDeviceEx : list Z → Z → bool → M BYTES (Z * Z)).
Variables (ExAllocatePoolWithTag : Z → Z → Z → Z → M BYTES Z) (ExFreePoolWithTag : Z → Z → M BYTES unit).
(** The device transfers what it is asked for, and there is memory for a buffer. *)
Hypothesis Hread : ∀ b n off async,
  request n off → mapped b off n → IoReadDeviceEx n off async b = Ret ((STATUS_SUCCESS, bytes_from b off (Z.to_nat n)), b).
Hypothesis Hwrite : ∀ b data off async, request (Z.of_nat (length data)) off → mapped b off (Z.of_nat (length data)) →
  IoWriteDeviceEx data off async b = Ret ((STATUS_SUCCESS, Z.of_nat (length data)), store b off data).
Hypothesis Halloc : ∀ b flags n tag align, ∃ p, ExAllocatePoolWithTag flags n tag align b = Ret (p, b) ∧ p ≠ NULL.
Hypothesis Hfree : ∀ b p tag, ExFreePoolWithTag p tag b = Ret (tt, b).
Variable fd : FAT_DATA.

(** A volume with sectors of 512 bytes, whose table lies between the reserved sectors and the
    data, and whose clusters have numbers below the marks for bad clusters and ends. *)
Record geometry : Prop := {
  g_bps : BytesPerSector fd = 512;
  g_spc : 0 < SectorsPerCluster fd < 2 ^ 8;
  g_reserved : 2 ≤ ReservedSectors fd < 2 ^ 16;
  g_count : 0 < CountOfClusters fd < FAT32_BAD_CLUSTER - 2;
  g_table : 512 * ReservedSectors fd + 4 * (CountOfClusters fd + 2) ≤ 512 * FirstDataSector fd;
  g_first : FirstDataSector fd < 2 ^ 32
}.
Hypothesis Hgeo : geometry.
(** The sectors in front of the data are there. *)
Definition volume_rep (b : BYTES) : Prop := volume_ok b ∧ mapped b 0 (512 * FirstDataSector fd).
Definition entry_pos (c : Z) : Z := 512 * ReservedSectors fd + 4 * c.
Definition entry (b : BYTES) (c : Z) : Z := dword b (entry_pos c).
Definition link (b : BYTES) (c : Z) : Z := Z.land (entry b c) FAT32_CLUSTER_MASK.
(** The volume after the link of a cluster was set; the four bits above it are kept. *)
Definition with_link (c l : Z) (b : BYTES) : BYTES :=
  put_dword (entry_pos c) (Z.lor (Z.land (entry b c) 0xF0000000) l) b.
Definition in_table (c : Z) : Prop := 0 ≤ c < CountOfClusters fd + 2.

Lemma dword_range b p : volume_ok b → 0 ≤ dword b p < 2 ^ 32.
Proof using. intros Hb. pose proof (word_bound b p 4 Hb) as H. exact H. Qed.
Lemma new_entry_range e l : 0 ≤ e < 2 ^ 32 → 0 ≤ l < 2 ^ 28 → 0 ≤ Z.lor (Z.land e 0xF0000000) l < 2 ^ 32.
Proof using.
  intros He Hl. assert (0 ≤ Z.lor (Z.land e 0xF0000000) l) by (apply Z.lor_nonneg; split; [apply Z.land_nonneg|]; lia).
  split; [done|]. apply below_pow2; [lia| |done]. intros n Hn.
  rewrite Z.lor_spec, Z.land_spec. change 0xF0000000 with (Z.shiftl (Z.ones 4) 28).
  rewrite Z.shiftl_spec, Z.testbit_ones by lia.
  rewrite (proj2 (Z.ltb_ge (n - 28) 4)), andb_false_r, andb_false_r by lia. cbn [orb].
  rewrite <-(Z.mod_small l (2 ^ 28)), Z.mod_pow2_bits_high by lia. done.
Qed.
Lemma new_entry_link e l : 0 ≤ l < 2 ^ 28 → Z.land (Z.lor (Z.land e 0xF0000000) l) FAT32_CLUSTER_MASK = l.
Proof using.
  intros Hl. rewrite Z.land_lor_distr_l, <-Z.land_assoc. change (Z.land 0xF0000000 FAT32_CLUSTER_MASK) with 0.
  rewrite Z.land_0_r, Z.lor_0_l. change FAT32_CLUSTER_MASK with (Z.ones 28). rewrite Z.land_ones by lia.
  by apply Z.mod_small.
Qed.
Lemma link_range b c : 0 ≤ link b c < 2 ^ 28.
Proof using.
  unfold link. change FAT32_CLUSTER_MASK with (Z.ones 28). rewrite Z.land_ones by lia. by apply Z.mod_pos_bound.
Qed.
Lemma link_with_link b c l c' :
  volume_ok b → 0 ≤ l < 2 ^ 28 → link (with_link c l b) c' = if decide (c' = c) then l else link b c'.
Proof using.
  intros Hb Hl. unfold link, with_link. destruct (decide (c' = c)) as [->|Hne].
  - unfold entry at 1. rewrite put_dword_same; [by apply new_entry_link|].
    apply new_entry_range; [by apply dword_range|done].
  - unfold entry at 1. rewrite put_dword_other; [done|]. unfold entry_pos. lia.
Qed.
Lemma volume_rep_store b p bs : volume_rep b → volume_rep (store b p bs).
Proof using. intros [H1 H2]. split; [by apply store_ok|by apply mapped_store]. Qed.
Lemma with_link_rep b c l : volume_rep b → volume_rep (with_link c l b).
Proof using. apply volume_rep_store. Qed.
(** Bytes outside of the table are not changed. *)
Lemma with_link_other b c l p : p < entry_pos c ∨ entry_pos c + 4 ≤ p → with_link c l b !! p = b !! p.
Proof using. intros Hp. apply store_out. by rewrite le_bytes_length. Qed.

(** ** Sectors of the table *)
Abbreviation read_sector := (Fat.read_sector IoReadDeviceEx fd).
Abbreviation write_sector := (Fat.write_sector IoWriteDeviceEx fd).
Definition sector (c : Z) : Z := ReservedSectors fd + c / 128.
Lemma sector_of_entry_run c b : 0 ≤ c < 2 ^ 32 → sector_of_entry fd c b = Ret (sector c, b).
Proof using Hgeo.
  intros Hc. destruct Hgeo as [E _ Hr _ _ _]. unfold sector_of_entry, udiv. rewrite E. change (512 =? 0) with false.
  unfold sizeof_FAT32_ENTRY. erewrite bind_Ret by reflexivity. cbn beta. unfold mret, M_ret, sector. do 2 f_equal.
  rewrite (u64_id (c * 4)) by lia. rewrite u64_id; lia.
Qed.
Lemma index_of_entry_run c b : index_of_entry fd c b = Ret (c mod 128, b).
Proof using Hgeo. destruct Hgeo as [E _ _ _ _ _]. unfold index_of_entry, umod. by rewrite E. Qed.
Lemma sector_offset c : 0 ≤ c < 2 ^ 32 → u64 (sector c * BytesPerSector fd) = 512 * sector c.
Proof using Hgeo. intros Hc. destruct Hgeo as [E _ Hr _ _ _]. rewrite E, u64_id; unfold sector; lia. Qed.
Lemma sector_entry c : 512 * sector c + 4 * (c mod 128) = entry_pos c.
Proof using. unfold sector, entry_pos. lia. Qed.
Lemma sector_mapped b c : volume_rep b → in_table c → mapped b (512 * sector c) 512.
Proof using Hgeo.
  intros [_ Hm] Hc. destruct Hgeo as [_ _ Hr _ Ht _]. unfold in_table in Hc. intros q Hq. apply Hm. unfold sector in Hq. lia.
Qed.
Lemma sector_request c : 0 ≤ c → request 512 (512 * sector c).
Proof using Hgeo. intros Hc. destruct Hgeo as [_ _ Hr _ _ _]. apply request_sector. unfold sector. lia. Qed.
Lemma read_sector_run b off : request 512 off → mapped b off 512 → read_sector 512 off b = Ret ((STATUS_SUCCESS, bytes_from b off 512), b).
Proof using Hread Hgeo.
  intros Hq Hm. unfold Fat.read_sector, IoReadDevice. mrun (Hread b 512 off false Hq Hm).
  change (Z.to_nat 512) with 512%nat. change (SUCCEEDED STATUS_SUCCESS) with true. cbn iota.
  massert ltac:(rewrite bytes_from_length, (g_bps Hgeo); done). done.
Qed.
Lemma get_entry_run b off i r : 0 ≤ i < 128 → get_entry (bytes_from b off 512) i r = Ret (dword b (off + 4 * i), r).
Proof using.
  intros Hi. apply dword_at_run; lia.
Qed.
(** A sector in which the entry [i] has been replaced. *)
Definition patched (b : BYTES) (off i v : Z) : list Z :=
  take (Z.to_nat (4 * i)) (bytes_from b off 512) ++ le_bytes 4 v ++ drop (Z.to_nat (4 * i) + 4) (bytes_from b off 512).
Lemma set_link_run b off i l r :
  0 ≤ i < 128 → set_link (bytes_from b off 512) i l r
  = Ret (patched b off i (Z.lor (Z.land (dword b (off + 4 * i)) 0xF0000000) l), r).
Proof using.
  intros Hi. unfold set_link. mrun (get_entry_run b off i r Hi). unfold set_dword_at, set_bytes_at.
  by rewrite le_bytes_length, in_buffer_run by lia.
Qed.
Lemma write_patched b off i v :
  volume_ok b → request 512 off → mapped b off 512 → 0 ≤ i < 128 →
  write_sector (patched b off i v) off b = Ret (STATUS_SUCCESS, put_dword (off + 4 * i) v b).
Proof using Hwrite Hgeo.
  intros Hb Hq Hm Hi.
  assert (Hlen : length (patched b off i v) = 512%nat).
  { unfold patched. rewrite !length_app, length_take, length_drop, bytes_from_length, le_bytes_length. lia. }
  unfold Fat.write_sector, IoWriteDevice. assert (Hm' : mapped b off (Z.of_nat (length (patched b off i v)))) by (by rewrite Hlen).
  assert (Hq' : request (Z.of_nat (length (patched b off i v))) off) by (by rewrite Hlen).
  mrun (Hwrite b (patched b off i v) off false Hq' Hm'). change (SUCCEEDED STATUS_SUCCESS) with true. cbn iota.
  massert ltac:(rewrite Hlen, (g_bps Hgeo); done). unfold mret, M_ret. do 2 f_equal.
  pose proof (store_slice b off 512 (Z.to_nat (4 * i)) (le_bytes 4 v) Hb Hm) as Hs. rewrite le_bytes_length in Hs.
  unfold patched, put_dword. rewrite Hs by lia. f_equal. lia.
Qed.

(** ** Following a chain *)
(** The link of a cluster, where a free entry and a bad cluster end the chain. *)
Definition next_of (b : BYTES) (c : Z) : Z :=
  if (link b c =? 0) || (link b c =? FAT32_BAD_CLUSTER) then FAT32_EOC_MARK else link b c.
(** An entry that is free is marked as an end when a chain leads to it. *)
Definition after_next (b : BYTES) (c : Z) : BYTES :=
  if link b c =? 0 then with_link c FAT32_EOC_MARK b else b.
Lemma in_table_range c : in_table c → 0 ≤ c < 2 ^ 28.
Proof using Hgeo. destruct Hgeo as [_ _ _ Hc _ _]. unfold in_table, FAT32_BAD_CLUSTER in *. lia. Qed.
Lemma NextClusterInChain_run b c :
  volume_rep b → in_table c →
  NextClusterInChain IoReadDeviceEx IoWriteDeviceEx ExAllocatePoolWithTag ExFreePoolWithTag fd c b
  = Ret ((STATUS_SUCCESS, next_of b c), after_next b c).
Proof using Hread Hwrite Halloc Hfree Hgeo.
  intros Hb Hc. pose proof (in_table_range c Hc) as Hr. pose proof (sector_mapped b c Hb Hc) as Hm.
  pose proof (sector_request c (proj1 Hc)) as Hq.
  unfold NextClusterInChain. mrun (sector_of_entry_run c b ltac:(lia)). mrun (index_of_entry_run c b).
  destruct (Halloc b PoolAllocateZeroMemory (BytesPerSector fd) HEAP_TEMP_TAG 0) as (p & Hp & Hpn). mrun Hp.
  rewrite (proj2 (Z.eqb_neq _ _) Hpn).
  assert (Hnext : next_cluster IoReadDeviceEx IoWriteDeviceEx fd (sector c) (c mod 128) b
    = Ret ((STATUS_SUCCESS, next_of b c), after_next b c)).
  { unfold next_cluster. rewrite sector_offset by lia. rewrite (g_bps Hgeo).
    mrun (read_sector_run b _ Hq Hm). change (SUCCEEDED STATUS_SUCCESS) with true. cbn [negb].
    mrun (get_entry_run b (512 * sector c) (c mod 128) b ltac:(lia)). rewrite sector_entry.
    change (dword b (entry_pos c)) with (entry b c). change (Z.land (entry b c) FAT32_CLUSTER_MASK) with (link b c).
    unfold next_of, after_next. rewrite (Z.eqb_sym 0), (Z.eqb_sym FAT32_BAD_CLUSTER).
    destruct (link b c =? 0); cbn [orb]; [|by destruct (link b c =? _)].
    mrun (set_link_run b (512 * sector c) (c mod 128) FAT32_EOC_MARK b ltac:(lia)).
    mrun (write_patched b (512 * sector c) (c mod 128) (Z.lor (Z.land (dword b (512 * sector c + 4 * (c mod 128))) 0xF0000000) FAT32_EOC_MARK)
      (proj1 Hb) Hq Hm ltac:(lia)). rewrite sector_entry. reflexivity. }
  mrun Hnext. by mrun (Hfree (after_next b c) p HEAP_TEMP_TAG).
Qed.

(** ** Searching for a free cluster *)
(** The search stops where the sectors, counted from the start of the volume, are as many as the
    table has: the last entries of the table are not looked at. *)
Definition search_end : Z := 128 * (4 * (CountOfClusters fd + 2) / 512 - ReservedSectors fd).
Definition first_free (b : BYTES) (s c : Z) : Prop :=
  s ≤ c < search_end ∧ link b c = 0 ∧ ∀ d, s ≤ d < c → link b d ≠ 0.
Definition none_free (b : BYTES) (s : Z) : Prop := ∀ d, s ≤ d < search_end → link b d ≠ 0.
Definition reserved (mark : bool) (c : Z) (b : BYTES) : BYTES := if mark then with_link c FAT32_EOC_MARK b else b.

Lemma free_in_sector_run b k i r :
  0 ≤ k → 0 ≤ i ≤ 128 → (128 < fuel)%nat →
  (∃ j, i ≤ j < 128 ∧ link b (128 * k + j) = 0 ∧ (∀ d, i ≤ d < j → link b (128 * k + d) ≠ 0)
    ∧ free_in_sector fuel fd (bytes_from b (512 * (ReservedSectors fd + k)) 512) i r = Ret (Some j, r))
  ∨ ((∀ d, i ≤ d < 128 → link b (128 * k + d) ≠ 0)
    ∧ free_in_sector fuel fd (bytes_from b (512 * (ReservedSectors fd + k)) 512) i r = Ret (None, r)).
Proof using Hgeo.
  intros Hk Hi Hf. unfold free_in_sector. rewrite (g_bps Hgeo). change (512 / sizeof_FAT32_ENTRY) with 128.
  assert (Hm : (Z.to_nat (128 - i) < fuel)%nat) by lia. revert Hm. generalize fuel as g. clear Hf.
  remember (Z.to_nat (128 - i)) as m eqn:Em. revert i Hi Em.
  induction m as [|m IH]; intros i Hi Em [|g] Hg; try lia.
  - right. split; [lia|]. apply loop_break. by rewrite (proj2 (Z.ltb_ge i 128)) by lia.
  - assert (Hget : get_entry (bytes_from b (512 * (ReservedSectors fd + k)) 512) i r = Ret (entry b (128 * k + i), r)).
    { rewrite get_entry_run by lia. unfold entry, entry_pos. do 3 f_equal. lia. }
    assert (Hlt : (i <? 128) = true) by lia.
    destruct (Z.eqb_spec (link b (128 * k + i)) 0) as [Hz|Hz].
    + left. exists i. split_and!; [lia|lia|done|lia|]. apply loop_break. rewrite Hlt. cbn [negb]. mrun Hget.
      change (Z.land (entry b (128 * k + i)) FAT32_CLUSTER_MASK) with (link b (128 * k + i)). by rewrite Hz.
    + assert (Hstep : ∀ body, body = (λ indexInSector,
          if negb (indexInSector <? 128) then mret (inr None) else
          e ← get_entry (bytes_from b (512 * (ReservedSectors fd + k)) 512) indexInSector;
          if 0 =? Z.land e FAT32_CLUSTER_MASK then mret (inr (Some indexInSector))
          else mret (inl (u64 (indexInSector + 1)))) → loop (S g) body i r = loop g body (i + 1) r).
      { intros body ->. apply loop_continue. rewrite Hlt. cbn [negb]. mrun Hget.
        change (Z.land (entry b (128 * k + i)) FAT32_CLUSTER_MASK) with (link b (128 * k + i)).
        rewrite (proj2 (Z.eqb_neq 0 _)) by congruence. by rewrite u64_id by lia. }
      rewrite (Hstep _ eq_refl). specialize (IH (i + 1) ltac:(lia) ltac:(lia) g ltac:(lia)).
      destruct IH as [(j & Hj & H0 & Hd & Hl)|[Hd Hl]]; [left; exists j|right]; split_and!; try done; try lia.
      * intros d Hdj. destruct (decide (d = i)) as [->|]; [done|]. apply Hd. lia.
      * intros d Hdj. destruct (decide (d = i)) as [->|]; [done|]. apply Hd. lia.
Qed.

(** What the loop over the sectors comes to, from the entry [s] on. *)
Definition free_outcome (mark : bool) (b : BYTES) (s st : Z) (r : outcome ((Z * Z) * BYTES)) : Prop :=
  (∃ c, first_free b s c ∧ r = Ret ((STATUS_SUCCESS, c), reserved mark c b))
  ∨ (none_free b s ∧ r = Ret ((st, 0), b)).
Lemma free_loop_run mark b (e := CountOfClusters fd + 2) (n := 4 * e / 512) m :
  ∀ k i st g, volume_rep b → m = Z.to_nat (n - (ReservedSectors fd + k)) → 0 ≤ k → 0 ≤ i < 128 → 2 ≤ 128 * k + i →
  (m < g)%nat → (128 < fuel)%nat →
  free_outcome mark b (128 * k + i) (if decide (m = O) then st else STATUS_SUCCESS)
    (loop g (free_step fuel IoReadDeviceEx IoWriteDeviceEx fd mark (ReservedSectors fd) e n)
      (st, ReservedSectors fd + k, i) b).
Proof using Hread Hwrite Hgeo.
  assert (Hend : search_end = 128 * (n - ReservedSectors fd)) by done.
  destruct Hgeo as [Hbps _ Hres Hcnt Htab Hfst]. unfold FAT32_BAD_CLUSTER in Hcnt.
  assert (He : 2 < e < 2 ^ 28) by (unfold e; lia). assert (Hn : 0 ≤ n ∧ 512 * n ≤ 4 * e) by (unfold n; lia).
  assert (Htab' : 512 * ReservedSectors fd + 4 * e ≤ 512 * FirstDataSector fd) by done. clearbody n.
  induction m as [|m IH]; intros k i st [|g] Hb Hm Hk Hi Hpos Hg Hf; try lia.
  - right. split.
    + intros d Hd. rewrite Hend in Hd. lia.
    + apply loop_break. unfold free_step. by rewrite (proj2 (Z.ltb_ge _ _)) by lia.
  - assert (Hoff : u64 ((ReservedSectors fd + k) * 512) = 512 * (ReservedSectors fd + k)) by (rewrite u64_id; lia).
    assert (Hmap : mapped b (512 * (ReservedSectors fd + k)) 512) by (intros q Hq; apply Hb; lia).
    assert (Hq : request 512 (512 * (ReservedSectors fd + k))) by (apply request_sector; lia).
    assert (Hstep : free_step fuel IoReadDeviceEx IoWriteDeviceEx fd mark (ReservedSectors fd) e n
        (st, ReservedSectors fd + k, i) b
      = (found ← free_in_sector fuel fd (bytes_from b (512 * (ReservedSectors fd + k)) 512) i;
         match found with
         | None => mret (inl (STATUS_SUCCESS, u64 (ReservedSectors fd + k + 1), 0))
         | Some indexInSector =>
             status ← (if mark then
                 pFat32Entries ← set_link (bytes_from b (512 * (ReservedSectors fd + k)) 512) indexInSector FAT32_EOC_MARK;
                 write_sector pFat32Entries (512 * (ReservedSectors fd + k))
               else mret STATUS_SUCCESS);
             if negb (SUCCEEDED status) then mret (inr (status, 0)) else
             let clusterIndex := u64 (u64 (ReservedSectors fd + k - ReservedSectors fd) * 128 + indexInSector) in
             ASSERT ((2 <=? clusterIndex) && (clusterIndex <? e));;
             ASSERT (negb (FAT32_UNKNOWN =? clusterIndex));;
             mret (inr (status, clusterIndex))
         end) b).
    { unfold free_step. rewrite (proj2 (Z.ltb_lt (ReservedSectors fd + k) n)) by lia. cbn [negb].
      rewrite Hbps, Hoff. mrun (read_sector_run b _ Hq Hmap). reflexivity. }
    destruct (free_in_sector_run b k i b Hk ltac:(lia) Hf) as [(j & Hj & Hz & Hd & Hl)|[Hd Hl]].
    + left. exists (128 * k + j). split.
      { split_and!; [lia|rewrite Hend; lia|done|]. intros d Hdj. specialize (Hd (d - 128 * k) ltac:(lia)).
        by replace (128 * k + (d - 128 * k)) with d in Hd by lia. }
      apply loop_break. rewrite Hstep. mrun Hl.
      assert (Hmark : (if mark then pFat32Entries ← set_link (bytes_from b (512 * (ReservedSectors fd + k)) 512) j FAT32_EOC_MARK;
           write_sector pFat32Entries (512 * (ReservedSectors fd + k)) else mret STATUS_SUCCESS) b
         = Ret (STATUS_SUCCESS, reserved mark (128 * k + j) b)).
      { destruct mark; [|done]. mrun (set_link_run b (512 * (ReservedSectors fd + k)) j FAT32_EOC_MARK b ltac:(lia)).
        rewrite (write_patched b _ j _ (proj1 Hb) Hq Hmap) by lia. unfold reserved, with_link, entry.
        replace (512 * (ReservedSectors fd + k) + 4 * j) with (entry_pos (128 * k + j)) by (unfold entry_pos; lia).
        reflexivity. }
      mrun Hmark. change (SUCCEEDED STATUS_SUCCESS) with true. cbn [negb]. cbv zeta.
      replace (u64 (u64 (ReservedSectors fd + k - ReservedSectors fd) * 128 + j)) with (128 * k + j)
        by (rewrite (u64_id (ReservedSectors fd + k - ReservedSectors fd)) by lia; rewrite u64_id; lia).
      massert ltac:(apply andb_true_iff; split; [apply Z.leb_le|apply Z.ltb_lt]; lia).
      massert ltac:(apply negb_true_iff, Z.eqb_neq; unfold FAT32_UNKNOWN; lia). reflexivity.
    + erewrite loop_continue; [|rewrite Hstep; mrun Hl; reflexivity]. rewrite u64_id by lia.
      replace (ReservedSectors fd + k + 1) with (ReservedSectors fd + (k + 1)) by lia.
      destruct (IH (k + 1) 0 STATUS_SUCCESS g Hb ltac:(lia) ltac:(lia) ltac:(lia) ltac:(lia) ltac:(lia) Hf)
        as [(c & [Hc1 [Hc2 Hc3]] & ->)|[Hnone ->]].
      * left. exists c. split; [|done]. split_and!; [lia|lia|done|]. intros d Hdc.
        destruct (decide (d < 128 * (k + 1))); [|apply Hc3; lia]. specialize (Hd (d - 128 * k) ltac:(lia)).
        by replace (128 * k + (d - 128 * k)) with d in Hd by lia.
      * right. split; [|by destruct (decide (m = O))]. intros d Hdc.
        destruct (decide (d < 128 * (k + 1))); [|apply Hnone; lia]. specialize (Hd (d - 128 * k) ltac:(lia)).
        by replace (128 * k + (d - 128 * k)) with d in Hd by lia.
Qed.

(** Enough rounds: for the entries of a sector, and for the sectors of the table. *)
Definition table_sectors : Z := 4 * (CountOfClusters fd + 2) / 512.
Definition fuel_ok : Prop := (128 < fuel)%nat ∧ (Z.to_nat table_sectors < fuel)%nat.
Lemma entries_u32 : u32 (CountOfClusters fd + 2) = CountOfClusters fd + 2.
Proof using Hgeo. destruct Hgeo as [_ _ _ Hc _ _]. unfold FAT32_BAD_CLUSTER in Hc. apply u32_id. lia. Qed.
Lemma _FirstFreeCluster_run mark b s :
  volume_rep b → 2 ≤ s < 2 ^ 32 → fuel_ok →
  let r := _FirstFreeCluster fuel IoReadDeviceEx IoWriteDeviceEx ExAllocatePoolWithTag ExFreePoolWithTag fd s mark b in
  if CountOfClusters fd + 2 <=? s then r = Ret ((STATUS_SUCCESS, 0), b)
  else free_outcome mark b s (if table_sectors <=? sector s then STATUS_UNSUCCESSFUL else STATUS_SUCCESS) r.
Proof using Hread Hwrite Halloc Hfree Hgeo.
  intros Hb Hs [Hf1 Hf2]. cbv zeta. unfold _FirstFreeCluster.
  destruct (Halloc b PoolAllocateZeroMemory (BytesPerSector fd) HEAP_TEMP_TAG 0) as (p & Hp & Hpn). mrun Hp.
  rewrite (proj2 (Z.eqb_neq _ _) Hpn). cbv zeta. rewrite entries_u32. unfold udiv. rewrite (g_bps Hgeo).
  change (512 =? 0) with false. erewrite bind_Ret by reflexivity. cbn beta iota. unfold sizeof_FAT32_ENTRY.
  pose proof (g_count Hgeo) as Hc. unfold FAT32_BAD_CLUSTER in Hc.
  rewrite (u64_id ((CountOfClusters fd + 2) * 4)), (Z.mul_comm _ 4) by lia. fold table_sectors.
  destruct (CountOfClusters fd + 2 <=? s) eqn:Hle.
  { erewrite bind_Ret by reflexivity. cbn beta iota. by mrun (Hfree b p HEAP_TEMP_TAG). }
  apply Z.leb_gt in Hle. rewrite (proj2 (Z.eqb_neq FAT32_UNKNOWN s)) by (unfold FAT32_UNKNOWN; lia).
  rewrite !bind_assoc. mrun (sector_of_entry_run s b ltac:(lia)). rewrite !bind_assoc. mrun (index_of_entry_run s b).
  pose proof (free_loop_run mark b (Z.to_nat (table_sectors - sector s)) (s / 128) (s mod 128) STATUS_UNSUCCESSFUL fuel
    Hb eq_refl ltac:(lia) ltac:(lia) ltac:(lia) ltac:(pose proof (g_reserved Hgeo); unfold sector in *; lia) Hf1) as Hout.
  fold (sector s) in Hout. fold table_sectors in Hout. replace (128 * (s / 128) + s mod 128) with s in Hout by lia.
  replace (if table_sectors <=? sector s then STATUS_UNSUCCESSFUL else STATUS_SUCCESS)
    with (if decide (Z.to_nat (table_sectors - sector s) = O) then STATUS_UNSUCCESSFUL else STATUS_SUCCESS)
    by (destruct (decide _), (Z.leb_spec table_sectors (sector s)); (done || lia)).
  destruct Hout as [(c & Hc1 & Hrun)|[Hnone Hrun]].
  - left. exists c. split; [done|]. mrun Hrun. by mrun (Hfree (reserved mark c b) p HEAP_TEMP_TAG).
  - right. split; [done|]. mrun Hrun. by mrun (Hfree b p HEAP_TEMP_TAG).
Qed.
Lemma link_cluster_run b c l :
  volume_rep b → in_table c → 0 ≤ l < 2 ^ 28 →
  link_cluster IoReadDeviceEx IoWriteDeviceEx ExAllocatePoolWithTag ExFreePoolWithTag fd c l b
  = Ret (STATUS_SUCCESS, with_link c l b).
Proof using Hread Hwrite Halloc Hfree Hgeo.
  intros Hb Hc Hl. pose proof (in_table_range c Hc) as Hr. pose proof (sector_mapped b c Hb Hc) as Hm.
  pose proof (sector_request c (proj1 Hc)) as Hq. unfold link_cluster.
  destruct (Halloc b PoolAllocateZeroMemory (BytesPerSector fd) HEAP_TEMP_TAG 0) as (p & Hp & Hpn). mrun Hp.
  rewrite (proj2 (Z.eqb_neq _ _) Hpn). mrun (sector_of_entry_run c b ltac:(lia)). mrun (index_of_entry_run c b).
  cbv zeta. rewrite sector_offset, (g_bps Hgeo) by lia. mrun (read_sector_run b _ Hq Hm).
  change (SUCCEEDED STATUS_SUCCESS) with true. cbn [negb]. rewrite u32_id by lia.
  rewrite bind_assoc. mrun (set_link_run b (512 * sector c) (c mod 128) l b ltac:(lia)).
  mrun (write_patched b (512 * sector c) (c mod 128) (Z.lor (Z.land (dword b (512 * sector c + 4 * (c mod 128))) 0xF0000000) l)
    (proj1 Hb) Hq Hm ltac:(lia)). rewrite sector_entry. by mrun (Hfree (with_link c l b) p HEAP_TEMP_TAG).
Qed.

(** ** Extending a chain *)
Lemma seqZ_split s c n : s ≤ c → c < n → seqZ s (n - s) = seqZ s (c - s) ++ c :: seqZ (c + 1) (n - (c + 1)).
Proof using.
  intros H1 H2. replace (n - s) with (c - s + (n - c)) by lia. rewrite seqZ_app by lia. f_equal.
  replace (s + (c - s)) with c by lia. rewrite seqZ_cons by lia. do 2 f_equal; lia.
Qed.
(** The number of free entries from [s] on, as far as they are looked at. *)
Definition free_count (b : BYTES) (s : Z) : Z :=
  Z.of_nat (length (filter (λ d, link b d = 0) (seqZ s (search_end - s)))).
Lemma free_count_none b s : none_free b s → free_count b s = 0.
Proof using.
  intros H. unfold free_count. rewrite filter_none; [done|].
  intros d Hd%elem_of_seqZ. apply H. lia.
Qed.
Lemma free_count_first b s c : first_free b s c → free_count b s = 1 + free_count b (c + 1).
Proof using.
  intros (Hc & Hz & Hd). unfold free_count. rewrite (seqZ_split s c) by lia. rewrite filter_app.
  rewrite filter_none; [|intros d Hd'%elem_of_seqZ; apply Hd; lia].
  rewrite filter_cons_True by done. cbn [app length]. lia.
Qed.
Lemma free_count_bound b s : 2 ≤ s → free_count b s < 2 ^ 28.
Proof using Hgeo.
  intros Hs. destruct Hgeo as [_ _ Hr Hc _ _]. unfold FAT32_BAD_CLUSTER in Hc. unfold free_count.
  pose proof (length_filter (λ d, link b d = 0) (seqZ s (search_end - s))) as H. rewrite length_seqZ in H.
  unfold search_end in *. lia.
Qed.
Lemma search_end_bound : search_end < CountOfClusters fd + 2.
Proof using Hgeo. destruct Hgeo as [_ _ Hr Hc _ _]. unfold search_end, FAT32_BAD_CLUSTER in *. lia. Qed.

Abbreviation count_free_step := (Fat.count_free_step fuel IoReadDeviceEx IoWriteDeviceEx ExAllocatePoolWithTag ExFreePoolWithTag fd).
(** The clusters behind the reserved one are counted, up to the first search that does not find
    any; the status of that search does not matter in the end. *)
Lemma count_free_loop b m : ∀ c k g,
  volume_rep b → fuel_ok → 2 ≤ c < CountOfClusters fd + 2 → m = Z.to_nat (free_count b (c + 1)) →
  0 ≤ k → k + free_count b (c + 1) < 2 ^ 31 → (m < g)%nat →
  ∃ st, loop g count_free_step (c, k) b
  = Ret ((st, k + free_count b (c + 1)), b).
Proof using Hread Hwrite Halloc Hfree Hgeo.
  pose proof (g_count Hgeo) as Hc. unfold FAT32_BAD_CLUSTER in Hc. pose proof search_end_bound as Hend.
  induction m as [|m IH]; intros c k [|g] Hb Hf Hcc Hm Hk Hk2 Hg; try lia.
  - assert (Hz : free_count b (c + 1) = 0) by (unfold free_count in *; lia).
    pose proof (_FirstFreeCluster_run false b (c + 1) Hb ltac:(lia) Hf) as H. cbv zeta in H.
    assert (Hr : ∃ st, _FirstFreeCluster fuel IoReadDeviceEx IoWriteDeviceEx ExAllocatePoolWithTag ExFreePoolWithTag fd
        (c + 1) false b = Ret ((st, 0), b)).
    { destruct (_ <=? _); [by eexists|]. destruct H as [(d & Hd & _)|[_ H]]; [|by eexists].
      rewrite (free_count_first b (c + 1) d Hd) in Hz. unfold free_count in Hz. lia. }
    destruct Hr as (st & Hr). exists st. apply loop_break. unfold Fat.count_free_step. rewrite u64_id by lia. mrun Hr.
    rewrite Hz, Z.add_0_r. by destruct (SUCCEEDED st).
  - pose proof (_FirstFreeCluster_run false b (c + 1) Hb ltac:(lia) Hf) as H. cbv zeta in H.
    destruct (Z.leb_spec (CountOfClusters fd + 2) (c + 1)) as [Hle|Hle].
    { rewrite free_count_none in Hm; [done|]. intros d Hd. lia. }
    destruct H as [(d & Hd & Hr)|[Hn _]]; [|by rewrite free_count_none in Hm].
    pose proof (free_count_first b (c + 1) d Hd) as Hcount. destruct Hd as (Hd & Hz & _).
    pose proof (free_count_bound b (c + 1) ltac:(lia)) as Hbound.
    destruct (IH d (k + 1) g Hb Hf ltac:(lia) ltac:(lia) ltac:(lia) ltac:(lia) ltac:(lia)) as (st & Hl).
    exists st. erewrite loop_continue.
    2: { unfold Fat.count_free_step. rewrite u64_id by lia. mrun Hr. change (SUCCEEDED STATUS_SUCCESS) with true. cbn [negb].
         rewrite (proj2 (Z.eqb_neq 0 d)) by lia. rewrite u32_id by (unfold free_count in *; lia). reflexivity. }
    etransitivity; [exact Hl|]. rewrite Hcount. do 3 f_equal. lia.
Qed.

(** The fields of the FSINFO, which is the second sector. *)
Definition fs_free_count (b : BYTES) : Z := dword b (512 + FSI_Free_Count).
Definition fs_next_free (b : BYTES) : Z := dword b (512 + FSI_Nxt_Free).
Definition with_fs (count next : Z) (b : BYTES) : BYTES :=
  put_dword (512 + FSI_Free_Count) count (put_dword (512 + FSI_Nxt_Free) next b).
(** The count after the cluster [c] was taken: one less, or counted if it was unknown. *)
Definition count_after (b : BYTES) (last c : Z) : Z :=
  if fs_free_count b =? FAT32_UNKNOWN then free_count (with_link last c (with_link c FAT32_EOC_MARK b)) (c + 1)
  else fs_free_count b - 1.
(** The volume after [c] was appended to the chain that ends with [last]. *)
Definition extended (b : BYTES) (last c : Z) : BYTES :=
  with_fs (count_after b last c) c (with_link last c (with_link c FAT32_EOC_MARK b)).

Lemma FSINFO_mapped b : volume_rep b → mapped b 512 512.
Proof using Hgeo. intros [_ Hm]. destruct Hgeo as [_ _ Hr Hc Ht _]. intros q Hq. apply Hm. lia. Qed.
Lemma entry_behind_FSINFO c : 0 ≤ c → 1024 ≤ entry_pos c.
Proof using Hgeo. intros Hc. destruct Hgeo as [_ _ Hr _ _ _]. unfold entry_pos. lia. Qed.
Lemma with_fs_back b b2 count next :
  volume_rep b → (∀ q, 512 ≤ q < 1024 → b2 !! q = b !! q) → volume_rep b2 →
  store b2 512 (bytes_from (with_fs count next b) 512 512) = with_fs count next b2.
Proof using Hgeo.
  intros Hb Heq Hb2. unfold with_fs, FSI_Free_Count, FSI_Nxt_Free.
  rewrite store_put_dword; [|by apply store_ok, Hb|by apply mapped_store, FSINFO_mapped|lia|lia].
  rewrite store_put_dword; [|apply Hb|by apply FSINFO_mapped|lia|lia].
  do 2 f_equal. rewrite <-(bytes_from_agree b b2 512 512) by (intros q Hq; apply Heq; lia).
  apply store_self; [apply Hb2|by apply FSINFO_mapped].
Qed.
Lemma extend_chain_run b last c :
  volume_rep b → fuel_ok → (Z.to_nat (CountOfClusters fd + 2) < fuel)%nat → in_table last →
  fs_free_count b ≠ 0 → 2 ≤ fs_next_free b → first_free b (fs_next_free b) c →
  let b2 := with_link last c (with_link c FAT32_EOC_MARK b) in
  ∃ st, extend_chain fuel IoReadDeviceEx IoWriteDeviceEx ExAllocatePoolWithTag ExFreePoolWithTag fd last b
    = Ret ((st, bytes_from (with_fs (count_after b last c) c b) 512 512, c), b2).
Proof using Hread Hwrite Halloc Hfree Hgeo.
  intros Hb Hf Hf2 Hlast Hcount Hnext Hfirst b2. pose proof Hfirst as ([Hc1 Hc2] & Hz & _).
  pose proof (g_count Hgeo) as Hcl. unfold FAT32_BAD_CLUSTER in Hcl. pose proof search_end_bound as Hend.
  assert (Hb1 : volume_rep (with_link c FAT32_EOC_MARK b)) by by apply with_link_rep.
  assert (Hb2 : volume_rep b2) by by apply with_link_rep.
  pose proof (dword_range b (512 + FSI_Free_Count) (proj1 Hb)) as Hcr.
  unfold extend_chain, sizeof_FSINFO. rewrite (g_bps Hgeo). change (1 * 512) with 512.
  mrun (read_sector_run b 512 (request_sector 1 ltac:(lia)) (FSINFO_mapped b Hb)). change (SUCCEEDED STATUS_SUCCESS) with true. cbn [negb].
  mrun (dword_at_run b 512 512 FSI_Free_Count b ltac:(done) ltac:(done)). fold (fs_free_count b) in *.
  rewrite (proj2 (Z.eqb_neq 0 _)) by congruence.
  mrun (dword_at_run b 512 512 FSI_Nxt_Free b ltac:(done) ltac:(done)). fold (fs_next_free b).
  pose proof (_FirstFreeCluster_run true b (fs_next_free b) Hb ltac:(lia) Hf) as Hff. cbv zeta in Hff.
  rewrite (proj2 (Z.leb_gt _ _)) in Hff by lia.
  destruct Hff as [(c' & Hfirst' & Hff)|[Hn _]]; [|by destruct (Hn c)].
  assert (c' = c) as ->.
  { destruct Hfirst' as ([? ?] & Hz' & Hd'), Hfirst as (_ & _ & Hd).
    destruct (Z.lt_trichotomy c' c) as [Hlt|[Heq|Hlt]]; [by destruct (Hd c')|done|by destruct (Hd' c)]. }
  mrun Hff. change (SUCCEEDED STATUS_SUCCESS) with true. cbn [negb]. rewrite (proj2 (Z.eqb_neq 0 c)) by lia.
  cbn [reserved]. mrun (link_cluster_run (with_link c FAT32_EOC_MARK b) last c Hb1 Hlast ltac:(lia)).
  change (SUCCEEDED STATUS_SUCCESS) with true. cbn [negb]. rewrite (u32_id c) by lia. fold b2.
  mrun (set_dword_at_run b 512 512 FSI_Nxt_Free c b2 ltac:(done) ltac:(done)).
  assert (Hcnt : ∃ st, (if FAT32_UNKNOWN =? fs_free_count b then
      count_free fuel IoReadDeviceEx IoWriteDeviceEx ExAllocatePoolWithTag ExFreePoolWithTag fd c
      else mret (STATUS_SUCCESS, u32 (fs_free_count b - 1))) b2 = Ret ((st, count_after b last c), b2)).
  { unfold count_after. fold b2. rewrite (Z.eqb_sym FAT32_UNKNOWN). destruct (fs_free_count b =? FAT32_UNKNOWN).
    - pose proof (free_count_bound b2 (c + 1) ltac:(lia)) as Hbd. pose proof (length_filter (λ d, link b2 d = 0) (seqZ (c + 1) (search_end - (c + 1)))) as Hl.
      rewrite length_seqZ in Hl.
      destruct (count_free_loop b2 (Z.to_nat (free_count b2 (c + 1))) c 0 fuel Hb2 Hf ltac:(lia) eq_refl ltac:(lia) ltac:(lia))
        as (st & Hr); [unfold free_count; lia|]. exists st. exact Hr.
    - exists STATUS_SUCCESS. rewrite u32_id by lia. done. }
  destruct Hcnt as (st & Hcnt). exists st. mrun Hcnt.
  by mrun (set_dword_at_run (put_dword (512 + FSI_Nxt_Free) c b) 512 512 FSI_Free_Count (count_after b last c) b2 ltac:(done) ltac:(done)).
Qed.

Lemma _AddNewClusterToChain_run b last c :
  volume_rep b → fuel_ok → (Z.to_nat (CountOfClusters fd + 2) < fuel)%nat → in_table last →
  fs_free_count b ≠ 0 → 2 ≤ fs_next_free b → first_free b (fs_next_free b) c →
  _AddNewClusterToChain fuel IoReadDeviceEx IoWriteDeviceEx ExAllocatePoolWithTag ExFreePoolWithTag fd last b
  = Ret ((STATUS_SUCCESS, c), extended b last c).
Proof using Hread Hwrite Halloc Hfree Hgeo.
  intros Hb Hf Hf2 Hlast Hcount Hnext Hfirst.
  pose proof (g_count Hgeo) as Hcl. unfold FAT32_BAD_CLUSTER in Hcl. pose proof Hfirst as ([Hc1 Hc2] & _).
  set (b2 := with_link last c (with_link c FAT32_EOC_MARK b)).
  assert (Hb2 : volume_rep b2) by by apply with_link_rep, with_link_rep.
  assert (Heq : ∀ q, 512 ≤ q < 1024 → b2 !! q = b !! q).
  { intros q Hq. pose proof (entry_behind_FSINFO last ltac:(unfold in_table in Hlast; lia)).
    pose proof (entry_behind_FSINFO c ltac:(lia)). unfold b2. by rewrite !with_link_other by lia. }
  destruct (extend_chain_run b last c Hb Hf Hf2 Hlast Hcount Hnext Hfirst) as (st & Hext). fold b2 in Hext.
  unfold _AddNewClusterToChain. massert ltac:(apply negb_true_iff, Z.ltb_ge; unfold FAT32_BAD_CLUSTER, in_table in *; lia).
  destruct (Halloc b PoolAllocateZeroMemory sizeof_FSINFO HEAP_TEMP_TAG 0) as (p & Hp & Hpn). mrun Hp.
  rewrite (proj2 (Z.eqb_neq _ _) Hpn). mrun Hext. rewrite (g_bps Hgeo). change (1 * 512) with 512. unfold IoWriteDevice.
  assert (Hm : mapped b2 512 (Z.of_nat (length (bytes_from (with_fs (count_after b last c) c b) 512 512))))
    by (rewrite bytes_from_length; by apply FSINFO_mapped).
  assert (Hq : request (Z.of_nat (length (bytes_from (with_fs (count_after b last c) c b) 512 512))) 512)
    by (rewrite bytes_from_length; apply (request_sector 1); lia).
  mrun (Hwrite b2 (bytes_from (with_fs (count_after b last c) c b) 512 512) 512 false Hq Hm).
  massert ltac:(by rewrite bytes_from_length). rewrite (with_fs_back b b2) by done. by mrun (Hfree (extended b last c) p HEAP_TEMP_TAG).
Qed.

(** ** Sectors *)
Definition data_cluster (c : Z) : Prop := 2 ≤ c < CountOfClusters fd + 2.
Definition first_sector (c : Z) : Z := (c - 2) * SectorsPerCluster fd + FirstDataSector fd.
Lemma valid_cluster_spec c : 0 ≤ c → valid_cluster fd c = bool_decide (data_cluster c).
Proof using Hgeo.
  intros Hc. destruct Hgeo as [_ _ _ Hcl _ _]. unfold FAT32_BAD_CLUSTER, valid_cluster, data_cluster in *.
  rewrite u32_id by lia. apply eq_true_iff_eq. rewrite negb_true_iff, orb_false_iff, bool_decide_eq_true, !Z.ltb_ge. lia.
Qed.
Lemma first_sector_range c : data_cluster c → FirstDataSector fd ≤ first_sector c < 2 ^ 40.
Proof using Hgeo. intros Hc. destruct Hgeo as [_ Hs _ Hcl _ Hf]. unfold FAT32_BAD_CLUSTER, data_cluster, first_sector in *. nia. Qed.
Lemma FirstSectorOfCluster_run c :
  0 ≤ c → FirstSectorOfCluster fd c
  = if bool_decide (data_cluster c) then (STATUS_SUCCESS, Some (first_sector c)) else (STATUS_DEVICE_CLUSTER_INVALID, None).
Proof using Hgeo.
  intros Hc. unfold FirstSectorOfCluster. rewrite valid_cluster_spec by done. case_bool_decide as Hd; [|done]. cbn [negb].
  pose proof (first_sector_range c Hd) as Hr. destruct Hgeo as [_ Hs Hrs _ Ht _]. unfold first_sector, data_cluster in *.
  assert (0 ≤ (c - 2) * SectorsPerCluster fd) by nia. rewrite (u64_id ((c - 2) * _)), u64_id by lia. done.
Qed.
Lemma ClusterOfSector_run c j b :
  data_cluster c → 0 ≤ j < SectorsPerCluster fd → ClusterOfSector fd (first_sector c + j) b = Ret ((STATUS_SUCCESS, c), b).
Proof using Hgeo.
  intros Hc Hj. pose proof (first_sector_range c Hc) as Hr. pose proof (g_spc Hgeo) as Hs.
  pose proof (g_reserved Hgeo) as Hrs. pose proof (g_table Hgeo) as Ht. pose proof (g_count Hgeo) as Hcl.
  unfold ClusterOfSector, udiv. rewrite (proj2 (Z.eqb_neq (SectorsPerCluster fd) 0)) by lia.
  erewrite bind_Ret by reflexivity. cbn beta iota. unfold FAT32_BAD_CLUSTER in Hcl.
  rewrite (u64_id (first_sector c + j - FirstDataSector fd)) by lia.
  replace (first_sector c + j - FirstDataSector fd) with (j + (c - 2) * SectorsPerCluster fd) by (unfold first_sector; lia).
  rewrite Z.div_add, Z.div_small, Z.add_0_l by lia. unfold data_cluster in Hc. rewrite u64_id by lia.
  replace (c - 2 + 2) with c by lia. rewrite valid_cluster_spec by lia. by rewrite bool_decide_eq_true_2 by done.
Qed.

(** ** Chains *)
(** The clusters of a file, from its first one to one whose link ends the chain. *)
Definition ends_chain (b : BYTES) (c : Z) : Prop := FAT32_BAD_CLUSTER ≤ link b c.
Fixpoint chain (b : BYTES) (l : list Z) : Prop :=
  match l with
  | [] => False
  | c :: l' => data_cluster c ∧ match l' with [] => ends_chain b c | d :: _ => link b c = d ∧ chain b l' end
  end.
Lemma chain_data b l c : chain b l → c ∈ l → data_cluster c ∧ link b c ≠ 0.
Proof using.
  induction l as [|x l IH]; [done|]. intros [Hx Hl] [->|Hc]%elem_of_cons.
  - split; [done|]. destruct l as [|d l]; [unfold ends_chain, FAT32_BAD_CLUSTER in Hl; lia|].
    destruct Hl as [-> [Hd _]]. unfold data_cluster in Hd. lia.
  - destruct l as [|d l]; [by apply not_elem_of_nil in Hc|]. by apply IH; [apply Hl|].
Qed.
(** A change of the links outside of the chain does not matter. *)
Lemma chain_ext b b' l : (∀ c, c ∈ l → link b' c = link b c) → chain b l → chain b' l.
Proof using.
  induction l as [|c l IH]; intros Heq Hl; [done|]. destruct Hl as [Hc Hl]. split; [done|].
  assert (Hcc : link b' c = link b c) by (apply Heq; left).
  destruct l as [|d l]; [unfold ends_chain in *; by rewrite Hcc|]. rewrite Hcc. destruct Hl as [Hd Hl].
  split; [done|]. apply IH; [|done]. intros x Hx. apply Heq. by right.
Qed.
Lemma chain_last_cluster b l c : chain b l → List.last l 0 = c → ends_chain b c ∧ data_cluster c.
Proof using.
  induction l as [|x l IH]; [done|]. intros [Hx Hl]. destruct l as [|d l]; cbn; [by intros <-|]. apply IH, Hl.
Qed.
(** Only the last cluster of a chain ends it, so no cluster is visited twice. *)
Lemma chain_app_inv b l1 c l2 : chain b (l1 ++ c :: l2) → chain b (c :: l2).
Proof using. induction l1 as [|x l1 IH]; [done|]. intros [_ Hl]. apply IH. destruct l1 as [|y l1]; exact (proj2 Hl). Qed.
Lemma chain_det b c l1 l2 : chain b (c :: l1) → chain b (c :: l2) → l1 = l2.
Proof using Hgeo.
  pose proof (g_count Hgeo) as Hcl.
  revert c l2. induction l1 as [|d l1 IH]; intros c [|e l2] [Hc H1] [_ H2]; [done|..].
  - unfold ends_chain in H1. destruct H2 as [H2 [He _]]. unfold data_cluster in He. lia.
  - unfold ends_chain in H2. destruct H1 as [H1 [Hd _]]. unfold data_cluster in Hd. lia.
  - destruct H1 as [H1 Hl1], H2 as [H2 Hl2]. assert (d = e) as <- by congruence. f_equal. by eapply IH.
Qed.
Lemma chain_NoDup b l : chain b l → NoDup l.
Proof using Hgeo.
  induction l as [|c l IH]; intros Hl; [constructor|]. constructor.
  - intros (l1 & l2 & ->)%list_elem_of_split. pose proof Hl as Hl'.
    apply (chain_app_inv b (c :: l1) c l2) in Hl'. pose proof (chain_det _ _ _ _ Hl Hl') as Heq.
    apply (f_equal length) in Heq. rewrite length_app in Heq. cbn in Heq. lia.
  - destruct l as [|d l]; [constructor|]. apply IH, Hl.
Qed.

(** ** The next cluster of a file, by its sectors *)
Abbreviation NextSectorInClusterChain :=
  (Fat.NextSectorInClusterChain fuel IoReadDeviceEx IoWriteDeviceEx ExAllocatePoolWithTag ExFreePoolWithTag fd).
Lemma data_in_table c : data_cluster c → in_table c.
Proof using. unfold data_cluster, in_table. lia. Qed.
Lemma next_in_chain b c d j ext :
  volume_rep b → data_cluster c → data_cluster d → link b c = d → 0 ≤ j < SectorsPerCluster fd →
  NextSectorInClusterChain (first_sector c + j) ext b = Ret ((STATUS_SUCCESS, Some (first_sector d)), b).
Proof using Hread Hwrite Halloc Hfree Hgeo.
  intros Hb Hc Hd Hl Hj. pose proof (g_count Hgeo) as Hcl. pose proof Hd as Hd'. unfold data_cluster in Hd'.
  unfold Fat.NextSectorInClusterChain. mrun (ClusterOfSector_run c j b Hc Hj).
  change (SUCCEEDED STATUS_SUCCESS) with true. cbn [negb].
  mrun (NextClusterInChain_run b c Hb (data_in_table c Hc)). change (SUCCEEDED STATUS_SUCCESS) with true. cbn [negb].
  unfold next_of, after_next. rewrite Hl, (proj2 (Z.eqb_neq d 0)), (proj2 (Z.eqb_neq d FAT32_BAD_CLUSTER)) by lia. cbn [orb].
  unfold FAT32_EOC. rewrite (proj2 (Z.ltb_ge FAT32_BAD_CLUSTER d)) by lia.
  rewrite FirstSectorOfCluster_run by lia. by rewrite bool_decide_eq_true_2 by done.
Qed.
(** At the end of a chain the next cluster is an end mark; an end mark of a bad cluster as well. *)
Lemma next_of_end b c : ends_chain b c → FAT32_EOC (next_of b c) = true ∧ after_next b c = b.
Proof using.
  unfold ends_chain, next_of, after_next, FAT32_EOC. intros He.
  rewrite (proj2 (Z.eqb_neq (link b c) 0)) by (unfold FAT32_BAD_CLUSTER in *; lia). cbn [orb]. split; [|done].
  destruct (Z.eqb_spec (link b c) FAT32_BAD_CLUSTER); [done|]. apply Z.ltb_lt. lia.
Qed.
Lemma next_at_end b c j :
  volume_rep b → data_cluster c → ends_chain b c → 0 ≤ j < SectorsPerCluster fd →
  NextSectorInClusterChain (first_sector c + j) false b = Ret ((STATUS_SUCCESS, Some 0), b).
Proof using Hread Hwrite Halloc Hfree Hgeo.
  intros Hb Hc He Hj. destruct (next_of_end b c He) as [Hn Ha].
  unfold Fat.NextSectorInClusterChain. mrun (ClusterOfSector_run c j b Hc Hj).
  change (SUCCEEDED STATUS_SUCCESS) with true. cbn [negb].
  mrun (NextClusterInChain_run b c Hb (data_in_table c Hc)). change (SUCCEEDED STATUS_SUCCESS) with true. cbn [negb].
  by rewrite Hn, Ha.
Qed.
Lemma next_extends b c n j :
  volume_rep b → fuel_ok → (Z.to_nat (CountOfClusters fd + 2) < fuel)%nat → data_cluster c → ends_chain b c →
  0 ≤ j < SectorsPerCluster fd →
  fs_free_count b ≠ 0 → 2 ≤ fs_next_free b → first_free b (fs_next_free b) n →
  NextSectorInClusterChain (first_sector c + j) true b = Ret ((STATUS_SUCCESS, Some (first_sector n)), extended b c n).
Proof using Hread Hwrite Halloc Hfree Hgeo.
  intros Hb Hf Hf2 Hc He Hj H1 H2 H3. destruct (next_of_end b c He) as [Hn Ha].
  pose proof search_end_bound as Hend. pose proof H3 as ([Hn1 Hn2] & _).
  unfold Fat.NextSectorInClusterChain. mrun (ClusterOfSector_run c j b Hc Hj).
  change (SUCCEEDED STATUS_SUCCESS) with true. cbn [negb].
  mrun (NextClusterInChain_run b c Hb (data_in_table c Hc)). change (SUCCEEDED STATUS_SUCCESS) with true. cbn [negb].
  rewrite Hn, Ha. cbn [negb]. mrun (_AddNewClusterToChain_run b c n Hb Hf Hf2 (data_in_table c Hc) H1 H2 H3).
  change (SUCCEEDED STATUS_SUCCESS) with true. cbn [negb]. rewrite FirstSectorOfCluster_run by lia.
  by rewrite bool_decide_eq_true_2 by (unfold data_cluster; lia).
Qed.

(** ** The chains after a cluster was appended *)
Lemma extended_rep b c n : volume_rep b → volume_rep (extended b c n).
Proof using. intros Hb. unfold extended, with_fs. by apply volume_rep_store, volume_rep_store, with_link_rep, with_link_rep. Qed.
Lemma link_with_fs count next b c : 0 ≤ c → link (with_fs count next b) c = link b c.
Proof using Hgeo.
  intros Hc. pose proof (entry_behind_FSINFO c Hc). unfold link, entry, with_fs, FSI_Free_Count, FSI_Nxt_Free.
  by rewrite !put_dword_other by lia.
Qed.
Lemma link_extended b c n x :
  volume_rep b → 0 ≤ n < 2 ^ 28 → 0 ≤ x →
  link (extended b c n) x = if decide (x = c) then n else if decide (x = n) then FAT32_EOC_MARK else link b x.
Proof using Hgeo.
  intros Hb Hn Hx. unfold extended. rewrite link_with_fs by done.
  rewrite link_with_link by (by apply with_link_rep || done). by rewrite link_with_link by (apply Hb || done).
Qed.
Lemma extended_data b c n p :
  in_table c → in_table n → 512 * FirstDataSector fd ≤ p → extended b c n !! p = b !! p.
Proof using Hgeo.
  intros Hc Hn Hp. destruct Hgeo as [_ _ Hr _ Ht _]. unfold in_table in *.
  unfold extended, with_fs, FSI_Free_Count, FSI_Nxt_Free. rewrite !put_dword_out by lia.
  by rewrite !with_link_other by (unfold entry_pos; lia).
Qed.
(** A chain grows at its end when the link of its last cluster is set to a new end. *)
Lemma chain_snoc b b' l c n :
  chain b l → List.last l 0 = c → data_cluster n → ends_chain b' n → link b' c = n →
  (∀ x, x ∈ l → x ≠ c → link b' x = link b x) → chain b' (l ++ [n]).
Proof using Hgeo.
  intros Hl Hlast Hn Hend Hc Hx. pose proof (chain_NoDup b l Hl) as Hnd. revert Hl Hlast Hx Hnd.
  induction l as [|x l IH]; [done|]. intros [Hxd Hl] Hlast Hx [Hxl Hnd]%NoDup_cons.
  destruct l as [|d l].
  - cbn in Hlast. subst x. cbn. by split_and!.
  - destruct Hl as [Hxd' Hl]. assert (Hne : x ≠ c).
    { intros ->. apply Hxl. rewrite <-Hlast. change (List.last (c :: d :: l) 0) with (List.last (d :: l) 0).
      apply list_elem_of_In. destruct (exists_last (l := d :: l) ltac:(done)) as (l1 & y & ->).
      rewrite last_last. apply in_or_app. right. by left. }
    split; [done|]. cbn [app]. split; [by rewrite Hx by (done || left)|].
    apply IH; [done|exact Hlast| |done]. intros y Hy. apply Hx. by right.
Qed.
Lemma chain_tail b c l : l ≠ [] → chain b (c :: l) → chain b l.
Proof using. destruct l; [done|]. intros _ [_ [_ Hl]]. exact Hl. Qed.
End Table.
