(* ===== verification/FatFiles.v ===== *)
(** The bytes of a file on a FAT32 volume: what FatReadFile and FatWriteFile of Fat do to them, and
    to the entry of the file in its directory. *)
From S2P Require Import Prelude Memory Slices BitField Heap Fat FatSpec.

#[local] Ltac Zify.zify_post_hook ::= Z.to_euclidean_division_equations.

Section Files.
Variable fuel : nat.
Variables (IoReadDeviceEx : Z → Z → bool → M BYTES (Z * list Z))
          (IoWriteDeviceEx : list Z → Z → bool → M BYTES (Z * Z)).
Variables (ExAllocatePoolWithTag : Z → Z → Z → Z → M BYTES Z) (ExFreePoolWithTag : Z → Z → M BYTES unit).
Hypothesis Hread : ∀ b n off async,
  request n off → mapped b off n → IoReadDeviceEx n off async b = Ret ((STATUS_SUCCESS, bytes_from b off (Z.to_nat n)), b).
Hypothesis Hwrite : ∀ b data off async, request (Z.of_nat (length data)) off → mapped b off (Z.of_nat (length data)) →
  IoWriteDeviceEx data off async b = Ret ((STATUS_SUCCESS, Z.of_nat (length data)), store b off data).
Hypothesis Halloc : ∀ b flags n tag align, ∃ p, ExAllocatePoolWithTag flags n tag align b = Ret (p, b) ∧ p ≠ NULL.
Hypothesis Hfree : ∀ b p tag, ExFreePoolWithTag p tag b = Ret (tt, b).
Variable fd : FAT_DATA.
Hypothesis Hgeo : geometry fd.
Abbreviation SPC := (SectorsPerCluster fd).
Abbreviation chain := (FatSpec.chain fd).
Abbreviation first_sector := (FatSpec.first_sector fd).
Abbreviation volume_rep := (FatSpec.volume_rep fd).
Abbreviation data_cluster := (FatSpec.data_cluster fd).

(** * The bytes of a file *)
Definition cluster_pos (c : Z) : Z := 512 * first_sector c.
Definition cluster_size : nat := Z.to_nat (512 * SPC).
Definition cluster_bytes (b : BYTES) (c : Z) : list Z := bytes_from b (cluster_pos c) cluster_size.
Definition file_bytes (b : BYTES) (l : list Z) : list Z := concat (cluster_bytes b <$> l).
(** All the sectors of the volume are there, those of the clusters too. *)
Definition disk_rep (b : BYTES) : Prop := volume_rep b ∧ mapped b 0 (cluster_pos (CountOfClusters fd + 2)).
Lemma cluster_bytes_length b c : length (cluster_bytes b c) = cluster_size.
Proof using. apply bytes_from_length. Qed.
Lemma file_bytes_length b l : length (file_bytes b l) = (cluster_size * length l)%nat.
Proof using.
  induction l as [|c l IH]; [cbn; lia|]. unfold file_bytes in *. cbn. rewrite length_app, cluster_bytes_length, IH. lia.
Qed.
Lemma cluster_mapped b c j n :
  disk_rep b → data_cluster c → 0 ≤ j → 0 ≤ n → j + n ≤ SPC → mapped b (512 * (first_sector c + j)) (512 * n).
Proof using Hgeo.
  intros [_ Hm] Hc Hj Hn Hs. pose proof (g_spc fd Hgeo) as Hspc. pose proof (first_sector_range fd Hgeo c Hc) as Hr.
  pose proof (g_reserved fd Hgeo) as Hres. pose proof (g_table fd Hgeo) as Ht. pose proof (g_count fd Hgeo) as Hcnt.
  intros q Hq. apply Hm. unfold cluster_pos, FatSpec.first_sector, FatSpec.data_cluster in *. nia.
Qed.
Lemma chain_length b l : chain b l → Z.of_nat (length l) ≤ CountOfClusters fd.
Proof using Hgeo.
  intros Hl. pose proof (chain_NoDup fd Hgeo b l Hl) as Hnd. pose proof (g_count fd Hgeo) as Hc.
  assert (Hs : l ⊆+ seqZ 2 (CountOfClusters fd)).
  { apply NoDup_submseteq; [done|]. intros c Hin. destruct (chain_data fd b l c Hl Hin) as [Hd _].
    apply elem_of_seqZ. unfold FatSpec.data_cluster in Hd. lia. }
  apply submseteq_length in Hs. rewrite length_seqZ in Hs. lia.
Qed.

Abbreviation NextSectorInClusterChain :=
  (Fat.NextSectorInClusterChain fuel IoReadDeviceEx IoWriteDeviceEx ExAllocatePoolWithTag ExFreePoolWithTag fd).
Lemma next_cluster_sector b c d l j ext :
  volume_rep b → chain b (c :: d :: l) → 0 ≤ j < SPC →
  NextSectorInClusterChain (first_sector c + j) ext b = Ret ((STATUS_SUCCESS, Some (first_sector d)), b).
Proof using Hread Hwrite Halloc Hfree Hgeo.
  intros Hb [Hc [Hl [Hd _]]] Hj. by eapply next_in_chain.
Qed.

(** * To the cluster of a sector *)
Abbreviation skip_step :=
  (Fat.skip_step fuel IoReadDeviceEx IoWriteDeviceEx ExAllocatePoolWithTag ExFreePoolWithTag fd).
Lemma skip_loop b ext c l2 off l1 : ∀ t g,
  volume_rep b → chain b (l1 ++ c :: l2) → (length l1 < g)%nat → 0 ≤ t →
  t + SPC * Z.of_nat (length l1) ≤ off < t + SPC * Z.of_nat (length l1) + SPC → off < 2 ^ 60 →
  loop g (skip_step off ext) (first_sector (hd 0 (l1 ++ c :: l2)), t) b = Ret ((STATUS_SUCCESS, first_sector c), b).
Proof using Hread Hwrite Halloc Hfree Hgeo.
  pose proof (g_spc fd Hgeo) as Hs.
  induction l1 as [|x l1 IH]; intros t [|g] Hb Hl Hg Ht Hoff Hmax; cbn [length] in *; try lia.
  - apply loop_break. unfold Fat.skip_step. rewrite u64_id by lia. by rewrite (proj2 (Z.leb_gt _ _)) by lia.
  - erewrite loop_continue; [apply (IH (t + SPC) g); try done; try lia; apply (chain_tail fd b x); [by destruct l1|done]|].
    unfold Fat.skip_step. rewrite u64_id by lia. rewrite (proj2 (Z.leb_le _ _)) by lia. cbn [negb].
    massert ltac:(apply Z.leb_le; lia).
    assert (Hd : ∃ d l', l1 ++ c :: l2 = d :: l') by (destruct l1; cbn; eauto). destruct Hd as (d & l' & Hd).
    rewrite <-app_comm_cons, Hd in Hl |- *. cbn [hd].
    pose proof (next_cluster_sector b x d l' 0 ext Hb Hl ltac:(lia)) as Hn. rewrite Z.add_0_r in Hn. mrun Hn.
    change (SUCCEEDED STATUS_SUCCESS) with true. cbn [negb]. mrun (deref_Some (first_sector d) b). reflexivity.
Qed.

(** * Reading *)
(** Some sectors of a cluster are a slice of the file. *)
Lemma cluster_slice b c j n :
  0 ≤ j → 0 ≤ n → j + n ≤ SPC →
  bytes_from b (512 * (first_sector c + j)) (Z.to_nat (512 * n))
  = take (Z.to_nat (512 * n)) (drop (Z.to_nat (512 * j)) (cluster_bytes b c)).
Proof using.
  intros Hj Hn Hs. unfold cluster_bytes. rewrite bytes_from_slice by (unfold cluster_size; lia). f_equal. unfold cluster_pos. lia.
Qed.
Lemma file_bytes_cons b c l : file_bytes b (c :: l) = cluster_bytes b c ++ file_bytes b l.
Proof using. done. Qed.
(** What remains of a file from the sector [j] of its first cluster on. *)
Lemma file_slice_in b c l j n :
  0 ≤ j → 0 ≤ n → j + n ≤ SPC →
  take (Z.to_nat (512 * n)) (drop (Z.to_nat (512 * j)) (file_bytes b (c :: l)))
  = take (Z.to_nat (512 * n)) (drop (Z.to_nat (512 * j)) (cluster_bytes b c)).
Proof using.
  intros Hj Hn Hs. pose proof (cluster_bytes_length b c) as Hc. unfold cluster_size in Hc.
  rewrite file_bytes_cons, drop_app_le by lia. rewrite take_app_le; [done|]. rewrite length_drop. lia.
Qed.
Lemma file_slice_over b c l j n :
  0 ≤ j < SPC → SPC - j ≤ n →
  take (Z.to_nat (512 * n)) (drop (Z.to_nat (512 * j)) (file_bytes b (c :: l)))
  = take (Z.to_nat (512 * (SPC - j))) (drop (Z.to_nat (512 * j)) (cluster_bytes b c))
    ++ take (Z.to_nat (512 * (n - (SPC - j)))) (file_bytes b l).
Proof using.
  intros Hj Hn. pose proof (cluster_bytes_length b c) as Hc. unfold cluster_size in Hc.
  rewrite file_bytes_cons, drop_app_le by lia. rewrite take_app. f_equal.
  - rewrite !take_ge; [done| |]; rewrite length_drop; lia.
  - f_equal. rewrite length_drop. lia.
Qed.
Abbreviation read_step :=
  (Fat.read_step fuel IoReadDeviceEx IoWriteDeviceEx ExAllocatePoolWithTag ExFreePoolWithTag fd).
(** The sectors of a chain of [k] clusters from the sector [j] on, at most [rem]. *)
Definition available (rem : Z) (k : nat) (j : Z) : Z := Z.min rem (SPC * Z.of_nat k - j).
Lemma read_chunk b c j n async :
  disk_rep b → data_cluster c → 0 ≤ j → 0 < n → j + n ≤ SPC →
  IoReadDeviceEx (u64 (n * BytesPerSector fd)) (u64 ((first_sector c + j) * BytesPerSector fd)) async b
  = Ret ((STATUS_SUCCESS, take (Z.to_nat (512 * n)) (drop (Z.to_nat (512 * j)) (cluster_bytes b c))), b).
Proof using Hread Hgeo.
  intros Hb Hc Hj Hn Hs. pose proof (g_spc fd Hgeo) as Hspc. pose proof (first_sector_range fd Hgeo c Hc) as Hr.
  pose proof (g_reserved fd Hgeo) as Hres. pose proof (g_table fd Hgeo) as Ht. pose proof (g_count fd Hgeo) as Hcnt.
  rewrite (g_bps fd Hgeo), !u64_id by lia.
  replace (n * 512) with (512 * n) by lia. replace ((first_sector c + j) * 512) with (512 * (first_sector c + j)) by lia.
  rewrite Hread; [|apply request_sectors; lia|apply cluster_mapped; (done || lia)]. by rewrite cluster_slice by lia.
Qed.
Lemma cluster_slice_length b c j n :
  0 ≤ j → 0 ≤ n → j + n ≤ SPC →
  length (take (Z.to_nat (512 * n)) (drop (Z.to_nat (512 * j)) (cluster_bytes b c))) = Z.to_nat (512 * n).
Proof using.
  intros Hj Hn Hs. rewrite length_take, length_drop, cluster_bytes_length. unfold cluster_size. lia.
Qed.
Lemma read_loop b async l : ∀ c j rem data g,
  disk_rep b → chain b (c :: l) → 0 ≤ j < SPC → 0 < rem < 2 ^ 64 → (length l < g)%nat →
  let n := available rem (length (c :: l)) j in
  loop g (read_step async) (first_sector c + j, rem, Z.min rem (SPC - j), data) b
  = Ret ((STATUS_SUCCESS, rem - n,
          data ++ take (Z.to_nat (512 * n)) (drop (Z.to_nat (512 * j)) (file_bytes b (c :: l)))), b).
Proof using Hread Hwrite Halloc Hfree Hgeo.
  pose proof (g_spc fd Hgeo) as Hspc.
  induction l as [|d l IH]; intros c j rem data [|g] Hb Hl Hj Hrem Hg; cbn [length] in *; try lia; cbv zeta;
    pose proof Hl as [Hc Hl']; unfold available; set (tr := Z.min rem (SPC - j));
    (assert (Htr : 0 < tr ≤ SPC - j) by lia);
    (assert (Hlen : (Z.of_nat (length (take (Z.to_nat (512 * tr)) (drop (Z.to_nat (512 * j)) (cluster_bytes b c))))
      =? u64 (tr * BytesPerSector fd)) = true)
     by (rewrite (g_bps fd Hgeo), cluster_slice_length, u64_id by lia; apply Z.eqb_eq; lia));
    pose proof (read_chunk b c j tr async Hb Hc ltac:(lia) ltac:(lia) ltac:(lia)) as Hchunk.
  - apply loop_break. unfold Fat.read_step. mrun Hchunk. change (SUCCEEDED STATUS_SUCCESS) with true. cbn [negb].
    massert ltac:(exact Hlen). rewrite u64_id by lia. replace (Z.min rem (SPC * Z.of_nat 1 - j)) with tr by lia.
    rewrite file_slice_in by lia. destruct (Z.eqb_spec 0 (rem - tr)) as [Hz|Hz]; [done|].
    mrun (next_at_end fuel _ _ _ _ Hread Hwrite Halloc Hfree fd Hgeo b c j (proj1 Hb) Hc Hl' Hj).
    change (SUCCEEDED STATUS_SUCCESS) with true. cbn [negb]. by mrun (deref_Some 0 b).
  - destruct (Z.eqb_spec 0 (rem - tr)) as [Hz|Hz].
    + apply loop_break. unfold Fat.read_step. mrun Hchunk. change (SUCCEEDED STATUS_SUCCESS) with true. cbn [negb].
      massert ltac:(exact Hlen). rewrite u64_id by lia. rewrite (proj2 (Z.eqb_eq 0 _) Hz).
      replace (Z.min rem (SPC * Z.of_nat (S (S (length l))) - j)) with tr by lia. by rewrite file_slice_in by lia.
    + erewrite loop_continue.
      2: { unfold Fat.read_step. mrun Hchunk. change (SUCCEEDED STATUS_SUCCESS) with true. cbn [negb].
           massert ltac:(exact Hlen). rewrite u64_id by lia. rewrite (proj2 (Z.eqb_neq 0 _) Hz).
           mrun (next_cluster_sector b c d l j false (proj1 Hb) Hl Hj).
           change (SUCCEEDED STATUS_SUCCESS) with true. cbn [negb]. mrun (deref_Some (first_sector d) b).
           pose proof (first_sector_range fd Hgeo d ltac:(apply Hl')) as Hfd. pose proof (g_reserved fd Hgeo) as Hres.
           pose proof (g_table fd Hgeo) as Ht. pose proof (g_count fd Hgeo) as Hcnt.
           rewrite (proj2 (Z.eqb_neq 0 (first_sector d))) by lia. reflexivity. }
      assert (Htr' : tr = SPC - j) by lia.
      pose proof (IH d 0 (rem - tr) (data ++ take (Z.to_nat (512 * tr)) (drop (Z.to_nat (512 * j)) (cluster_bytes b c)))
        g Hb ltac:(apply Hl') ltac:(lia) ltac:(lia) ltac:(lia)) as HI.
      rewrite Z.add_0_r, Z.sub_0_r in HI. rewrite (Z.min_comm SPC). etransitivity; [exact HI|]. unfold available.
      rewrite (file_slice_over b c (d :: l) j) by (cbn [length]; lia). rewrite <-Htr', <-app_assoc. cbn [length]. rewrite drop_0. do 4 f_equal; [lia|].
      do 3 f_equal. lia.
Qed.

(** * The entry of a file in its directory *)
Definition entry_at (sector i : Z) : Z := 512 * sector + 32 * i.
(** The entry at [p] is in use, is not a part of a long name, and belongs to the file that starts
    with [cluster]. *)
Definition is_entry_of (b : BYTES) (p cluster : Z) : bool :=
  negb ((FREE_ENTRY =? word b (p + DIR_Name) 1) || (FREE_JAP_ENTRY =? word b (p + DIR_Name) 1))
  && negb (Z.land (word b (p + DIR_Attr) 1) ATTR_LONG_NAME_MASK =? ATTR_LONG_NAME)
  && (cluster =? WORDS_TO_DWORD (word b (p + DIR_FstClusHI) 2) (word b (p + DIR_FstClusLO) 2)).
Definition entries_per_cluster : Z := 16 * SPC.
Definition first_entry_of (b : BYTES) (sector cluster i : Z) : Prop :=
  0 ≤ i < entries_per_cluster ∧ is_entry_of b (entry_at sector i) cluster = true
  ∧ ∀ k, 0 ≤ k < i → is_entry_of b (entry_at sector k) cluster = false.
Definition no_entry_of (b : BYTES) (sector cluster : Z) : Prop :=
  ∀ k, 0 ≤ k < entries_per_cluster → is_entry_of b (entry_at sector k) cluster = false.

Lemma dir_cluster_bytes_eq : dir_cluster_bytes fd = 512 * SPC.
Proof using Hgeo.
  pose proof (g_spc fd Hgeo) as Hs. unfold dir_cluster_bytes. rewrite (g_bps fd Hgeo), u32_id; lia.
Qed.
Lemma dir_entry_matches_run b sector i cluster r :
  0 ≤ i < entries_per_cluster →
  dir_entry_matches (bytes_from b (512 * sector) cluster_size) i cluster r
  = Ret (is_entry_of b (entry_at sector i) cluster, r).
Proof using.
  unfold entries_per_cluster. intros Hi.
  assert (Hat : ∀ m o, 0 ≤ o → o + Z.of_nat m ≤ 32 →
    le_at m (bytes_from b (512 * sector) cluster_size) (i * sizeof_DIR_ENTRY + o) r
    = Ret (word b (entry_at sector i + o) m, r)).
  { intros m o H1 H2. unfold sizeof_DIR_ENTRY, cluster_size, entry_at. rewrite le_at_run by lia. do 3 f_equal. lia. }
  unfold dir_entry_matches, is_entry_of. mrun (Hat 1%nat DIR_Name ltac:(done) ltac:(done)).
  destruct (_ || _); [done|]. mrun (Hat 1%nat DIR_Attr ltac:(done) ltac:(done)).
  destruct (_ =? ATTR_LONG_NAME); [done|]. mrun (Hat 2%nat DIR_FstClusHI ltac:(done) ltac:(done)).
  by mrun (Hat 2%nat DIR_FstClusLO ltac:(done) ltac:(done)).
Qed.
Lemma find_dir_entry_run b sector cluster r :
  (Z.to_nat entries_per_cluster < fuel)%nat →
  (∃ i, first_entry_of b sector cluster i
    ∧ find_dir_entry fuel fd (bytes_from b (512 * sector) cluster_size) cluster r = Ret (Some i, r))
  ∨ (no_entry_of b sector cluster
    ∧ find_dir_entry fuel fd (bytes_from b (512 * sector) cluster_size) cluster r = Ret (None, r)).
Proof using Hgeo.
  unfold find_dir_entry, first_entry_of, no_entry_of.
  pose proof (g_spc fd Hgeo) as Hspc. set (body := find_dir_step fd _ cluster).
  assert (Hstep : ∀ i g, 0 ≤ i < entries_per_cluster → loop (S g) body i r =
    if is_entry_of b (entry_at sector i) cluster then Ret (Some i, r) else loop g body (i + 1) r).
  { intros i g Hi. pose proof (dir_entry_matches_run b sector i cluster r Hi) as Hm.
    unfold entries_per_cluster in Hi.
    assert (Hlt : (i <? dir_cluster_bytes fd / sizeof_DIR_ENTRY) = true)
      by (rewrite dir_cluster_bytes_eq; unfold sizeof_DIR_ENTRY; apply Z.ltb_lt; lia).
    destruct (is_entry_of _ _ _).
    - apply loop_break. unfold body, find_dir_step. rewrite Hlt. cbn [negb]. by mrun Hm.
    - apply loop_continue. unfold body, find_dir_step. rewrite Hlt. cbn [negb]. mrun Hm. by rewrite u64_id by lia. }
  assert (Hend : ∀ g, loop (S g) body entries_per_cluster r = Ret (None, r)).
  { intros g. apply loop_break. unfold body, find_dir_step, entries_per_cluster. rewrite dir_cluster_bytes_eq. unfold sizeof_DIR_ENTRY. by rewrite (proj2 (Z.ltb_ge _ _)) by lia. }
  clearbody body. unfold entries_per_cluster in *. intros Hf. remember (Z.to_nat (16 * SPC)) as m eqn:Em.
  assert (Hgen : ∀ i g, 0 ≤ i → m = Z.to_nat (16 * SPC - i) → i ≤ 16 * SPC → (m < g)%nat →
    (∀ k, 0 ≤ k < i → is_entry_of b (entry_at sector k) cluster = false) →
    (∃ j, (0 ≤ j < 16 * SPC ∧ is_entry_of b (entry_at sector j) cluster = true
      ∧ ∀ k, 0 ≤ k < j → is_entry_of b (entry_at sector k) cluster = false) ∧ loop g body i r = Ret (Some j, r))
    ∨ (∀ k, 0 ≤ k < 16 * SPC → is_entry_of b (entry_at sector k) cluster = false) ∧ loop g body i r = Ret (None, r)).
  2: { apply (Hgen 0 fuel); lia. }
  clear Hf Em. induction m as [|m IH]; intros i [|g] Hi Hm Hle Hg Hbefore; try lia.
  - right. replace i with (16 * SPC) in * by lia. split; [done|]. apply Hend.
  - rewrite Hstep by lia. destruct (is_entry_of b (entry_at sector i) cluster) eqn:E.
    + left. exists i. split_and!; try done; lia.
    + apply IH; try lia. intros k Hk. destruct (decide (k = i)) as [->|]; [done|]. apply Hbefore. lia.
Qed.
Lemma first_entry_unique b sector cluster i j :
  first_entry_of b sector cluster i → first_entry_of b sector cluster j → i = j.
Proof using.
  intros (Hi & Ei & Bi) (Hj & Ej & Bj). destruct (Z.lt_trichotomy i j) as [H|[H|H]]; [|done|].
  - by rewrite (Bj i) in Ei by lia.
  - by rewrite (Bi j) in Ej by lia.
Qed.

Lemma read_dir_cluster_run dc b' :
  data_cluster dc → disk_rep b' → read_dir_cluster IoReadDeviceEx fd (first_sector dc) b'
  = Ret ((STATUS_SUCCESS, cluster_bytes b' dc), b').
Proof using Hread Hgeo.
  intros Hdc Hb'. pose proof (g_spc fd Hgeo) as Hspc. unfold read_dir_cluster, IoReadDevice.
  pose proof (read_chunk b' dc 0 SPC false Hb' Hdc ltac:(lia) ltac:(lia) ltac:(lia)) as Hch.
  rewrite Z.add_0_r, (g_bps fd Hgeo) in Hch. rewrite u64_id in Hch by lia.
  rewrite dir_cluster_bytes_eq, (g_bps fd Hgeo), (Z.mul_comm 512 SPC). mrun Hch.
  rewrite drop_0, take_ge by (rewrite cluster_bytes_length; unfold cluster_size; lia).
  change (SUCCEEDED STATUS_SUCCESS) with true. cbn iota.
  massert ltac:(rewrite cluster_bytes_length; unfold cluster_size; apply Z.eqb_eq; lia). done.
Qed.

Section Directory.
(** The directory cluster [dc], whose entry [i] is the one of the file that starts with [c]. *)
Variables (b : BYTES) (dc c i : Z).
Hypotheses (Hdisk : disk_rep b) (Hdc : data_cluster dc) (Hc : data_cluster c)
           (Hentry : first_entry_of b (first_sector dc) c i) (Hfuel : (Z.to_nat entries_per_cluster < fuel)%nat).
Let p := entry_at (first_sector dc) i.
Lemma GetDirEntryFromSector_run :
  GetDirEntryFromSector fuel IoReadDeviceEx ExAllocatePoolWithTag ExFreePoolWithTag fd (first_sector dc) (first_sector c) b
  = Ret ((STATUS_SUCCESS, Some i, Some (bytes_from b p 32)), b).
Proof using Hread Halloc Hfree Hgeo Hdisk Hdc Hc Hentry Hfuel.
  pose proof (g_spc fd Hgeo) as Hspc.
  unfold GetDirEntryFromSector. destruct (Halloc b PoolAllocateZeroMemory (dir_cluster_bytes fd) HEAP_TEMP_TAG 0) as (q & Hq & Hqn).
  mrun Hq. rewrite (proj2 (Z.eqb_neq _ _) Hqn). mrun (read_dir_cluster_run dc b Hdc Hdisk).
  change (SUCCEEDED STATUS_SUCCESS) with true. cbn [negb].
  pose proof (ClusterOfSector_run fd Hgeo c 0 b Hc ltac:(lia)) as Hcs. rewrite Z.add_0_r in Hcs.
  erewrite bind_Ret.
  2: { mrun Hcs. change (SUCCEEDED STATUS_SUCCESS) with true. cbn [negb]. unfold cluster_bytes, cluster_pos.
       destruct (find_dir_entry_run b (first_sector dc) c b Hfuel) as [(i' & Hi' & Hr)|[Hn Hr]].
       - rewrite (first_entry_unique _ _ _ _ _ Hi' Hentry) in Hr. mrun Hr. reflexivity.
       - destruct Hentry as (Hi & He & _). by rewrite (Hn i Hi) in He. }
  cbn beta iota. mrun (Hfree b q HEAP_TEMP_TAG). unfold mret, M_ret. do 3 f_equal.
  destruct Hentry as (Hi & _). unfold entries_per_cluster in Hi. f_equal. unfold sizeof_DIR_ENTRY.
  rewrite bytes_from_slice by (unfold cluster_size; lia). f_equal. unfold p, entry_at. lia.
Qed.
(** An entry that was read and changed is written back. *)
Lemma WriteDirEntryToSector_run b1 :
  volume_ok b1 → (∀ q, q < p ∨ p + 32 ≤ q → b1 !! q = b !! q) → mapped b1 p 32 →
  WriteDirEntryToSector IoReadDeviceEx IoWriteDeviceEx ExAllocatePoolWithTag ExFreePoolWithTag fd
    (first_sector dc) i (bytes_from b1 p 32) b = Ret (STATUS_SUCCESS, b1).
Proof using Hread Hwrite Halloc Hfree Hgeo Hdisk Hdc Hentry Hfuel.
  intros Hb1 Hout Hm. pose proof (g_spc fd Hgeo) as Hspc. destruct Hentry as (Hi & _). unfold entries_per_cluster in Hi.
  pose proof (cluster_mapped b dc 0 SPC Hdisk Hdc ltac:(lia) ltac:(lia) ltac:(lia)) as Hmap. rewrite Z.add_0_r in Hmap.
  unfold WriteDirEntryToSector. destruct (Halloc b PoolAllocateZeroMemory (dir_cluster_bytes fd) HEAP_TEMP_TAG 0) as (q & Hq & Hqn).
  mrun Hq. rewrite (proj2 (Z.eqb_neq _ _) Hqn). mrun (read_dir_cluster_run dc b Hdc Hdisk).
  change (SUCCEEDED STATUS_SUCCESS) with true. cbn [negb].
  assert (Hset : set_bytes_at (i * sizeof_DIR_ENTRY) (bytes_from b1 p 32) (cluster_bytes b dc) b = Ret (cluster_bytes b1 dc, b)).
  { unfold cluster_bytes, cluster_pos, sizeof_DIR_ENTRY. rewrite set_bytes_at_run.
    - replace (512 * first_sector dc + i * 32) with p by (unfold p, entry_at; lia).
      by rewrite (store_bytes_from b b1 p 32) by done.
    - by apply bytes_from_ok.
    - lia.
    - rewrite bytes_from_length. unfold cluster_size. lia. }
  assert (Hm1 : mapped b1 (cluster_pos dc) (Z.of_nat cluster_size)).
  { intros r Hr. destruct (decide (p ≤ r < p + 32)) as [Hin|Hno]; [by apply Hm|]. rewrite Hout by lia. apply Hmap.
    unfold cluster_pos, cluster_size in Hr. lia. }
  assert (Hoff : u64 (first_sector dc * 512) = cluster_pos dc).
  { pose proof (first_sector_range fd Hgeo dc Hdc) as Hr. pose proof (g_reserved fd Hgeo) as Hres.
    pose proof (g_table fd Hgeo) as Ht. pose proof (g_count fd Hgeo) as Hcnt. unfold cluster_pos. rewrite u64_id; lia. }
  assert (Hmw : mapped b (cluster_pos dc) (Z.of_nat (length (cluster_bytes b1 dc)))).
  { rewrite cluster_bytes_length. unfold cluster_pos, cluster_size. by replace (Z.of_nat _) with (512 * SPC) by lia. }
  assert (Hback : store b (cluster_pos dc) (cluster_bytes b1 dc) = b1).
  { apply store_bytes_from; [done|done|]. intros r Hr. apply Hout. unfold cluster_pos, cluster_size in Hr.
    unfold p, entry_at. lia. }
  assert (Hqw : request (Z.of_nat (length (cluster_bytes b1 dc))) (cluster_pos dc)).
  { rewrite cluster_bytes_length. unfold cluster_pos, cluster_size. rewrite Z2Nat.id by lia.
    pose proof (first_sector_range fd Hgeo dc Hdc) as Hr. pose proof (g_reserved fd Hgeo) as Hres.
    pose proof (g_table fd Hgeo) as Ht. pose proof (g_count fd Hgeo) as Hcnt. apply request_sectors; lia. }
  pose proof (Hwrite b (cluster_bytes b1 dc) (cluster_pos dc) false Hqw Hmw) as Hw. rewrite Hback in Hw.
  erewrite bind_Ret.
  2: { mrun Hset. rewrite (g_bps fd Hgeo), Hoff. unfold IoWriteDevice. mrun Hw.
       change (SUCCEEDED STATUS_SUCCESS) with true. cbn [negb].
       massert ltac:(rewrite cluster_bytes_length, dir_cluster_bytes_eq; unfold cluster_size; apply Z.eqb_eq; lia).
       reflexivity. }
  cbn beta. by mrun (Hfree b1 q HEAP_TEMP_TAG).
Qed.
Lemma update_dir_entry_run change b1 :
  volume_ok b1 → (∀ q, q < p ∨ p + 32 ≤ q → b1 !! q = b !! q) → mapped b1 p 32 →
  change (bytes_from b p 32) b = Ret (bytes_from b1 p 32, b) →
  update_dir_entry fuel IoReadDeviceEx IoWriteDeviceEx ExAllocatePoolWithTag ExFreePoolWithTag fd
    (first_sector dc) (first_sector c) change b = Ret (STATUS_SUCCESS, b1).
Proof using Hread Hwrite Halloc Hfree Hgeo Hdisk Hdc Hc Hentry Hfuel.
  intros H1 H2 H3 Hch. unfold update_dir_entry. mrun GetDirEntryFromSector_run.
  change (SUCCEEDED STATUS_SUCCESS) with true. cbn [negb]. mrun (deref_Some i b). mrun (deref_Some (bytes_from b p 32) b).
  mrun Hch. by apply WriteDirEntryToSector_run.
Qed.
End Directory.

(** * What changes outside of some clusters *)
Definition in_cluster (q c : Z) : Prop := cluster_pos c ≤ q < cluster_pos c + 512 * SPC.
Definition only_in (l : list Z) (b b' : BYTES) : Prop := ∀ q, (∀ x, x ∈ l → ¬ in_cluster q x) → b' !! q = b !! q.
Lemma only_in_trans l b b1 b2 : only_in l b b1 → only_in l b1 b2 → only_in l b b2.
Proof using. intros H1 H2 q Hq. by rewrite H2, H1. Qed.
Lemma only_in_mono l l' b b' : l ⊆ l' → only_in l b b' → only_in l' b b'.
Proof using. intros Hs H q Hq. apply H. intros x Hx. by apply Hq, Hs. Qed.
Lemma clusters_disjoint q c d : in_cluster q c → in_cluster q d → c = d.
Proof using. unfold in_cluster, cluster_pos, FatSpec.first_sector. intros H1 H2. nia. Qed.
Lemma cluster_bytes_outside l b b' c : only_in l b b' → c ∉ l → cluster_bytes b' c = cluster_bytes b c.
Proof using.
  intros Ho Hc. apply bytes_from_agree. intros q Hq. apply Ho. intros x Hx Hin.
  assert (c = x) as <-; [|done]. apply (clusters_disjoint q); [|done]. unfold in_cluster, cluster_size in *. lia.
Qed.
Lemma file_bytes_outside l b b' l' : only_in l b b' → (∀ x, x ∈ l' → x ∉ l) → file_bytes b' l' = file_bytes b l'.
Proof using.
  intros Ho. induction l' as [|c l' IH]; intros Hd; [done|]. rewrite !file_bytes_cons. f_equal.
  - apply (cluster_bytes_outside l); [done|]. apply Hd. left.
  - apply IH. intros x Hx. apply Hd. by right.
Qed.
Lemma link_agree b b' c :
  (∀ q, q < 512 * FirstDataSector fd → b' !! q = b !! q) → data_cluster c → link fd b' c = link fd b c.
Proof using Hgeo.
  intros Hq Hc. pose proof (g_table fd Hgeo) as Ht. unfold link, entry, dword, word. do 2 f_equal.
  apply bytes_from_agree. intros q Hr. apply Hq. unfold FatSpec.data_cluster, entry_pos in *. lia.
Qed.
Lemma only_in_table l b b' :
  (∀ x, x ∈ l → data_cluster x) → only_in l b b' → ∀ q, q < 512 * FirstDataSector fd → b' !! q = b !! q.
Proof using Hgeo.
  intros Hl Ho q Hq. apply Ho. intros x Hx Hin. pose proof (first_sector_range fd Hgeo x (Hl x Hx)) as Hr.
  unfold in_cluster, cluster_pos in Hin. lia.
Qed.
Lemma chain_only_in l b b' l' :
  (∀ x, x ∈ l → data_cluster x) → only_in l b b' → chain b l' → chain b' l'.
Proof using Hgeo.
  intros Hl Ho Hc. apply (chain_ext fd b b'); [|done]. intros c Hin.
  apply link_agree; [by apply (only_in_table l)|]. by apply (chain_data fd b l').
Qed.
Lemma disk_rep_store b p bs : disk_rep b → disk_rep (store b p bs).
Proof using. intros [H1 H2]. split; [by apply volume_rep_store|by apply mapped_store]. Qed.
Lemma bytes_from_patch b p n o xs :
  Forall byte_ok xs → (o + length xs ≤ n)%nat →
  bytes_from (store b (p + Z.of_nat o) xs) p n
  = take o (bytes_from b p n) ++ xs ++ drop (o + length xs) (bytes_from b p n).
Proof using.
  intros Hx Hn. pose proof (set_bytes_at_run b p n (Z.of_nat o) xs b Hx ltac:(lia) ltac:(lia)) as H.
  unfold set_bytes_at in H. rewrite in_buffer_run in H by lia. unfold mret, M_ret in H. rewrite Nat2Z.id in H. congruence.
Qed.

(** * Writing *)
Abbreviation write_step :=
  (Fat.write_step fuel IoReadDeviceEx IoWriteDeviceEx ExAllocatePoolWithTag ExFreePoolWithTag fd).
(** The bytes of a file in which [data] was put at the sector [off]. *)
Definition patch (off : Z) (data F : list Z) : list Z :=
  take (Z.to_nat (512 * off)) F ++ data ++ drop (Z.to_nat (512 * off) + length data) F.
Lemma write_chunk b c l j n data async :
  disk_rep b → chain b (c :: l) → 0 ≤ j → 0 < n → j + n ≤ SPC → Forall byte_ok data → length data = Z.to_nat (512 * n) →
  ∃ b', IoWriteDeviceEx data (u64 ((first_sector c + j) * BytesPerSector fd)) async b
      = Ret ((STATUS_SUCCESS, 512 * n), b')
    ∧ disk_rep b' ∧ only_in [c] b b' ∧ chain b' (c :: l)
    ∧ cluster_bytes b' c = patch j data (cluster_bytes b c) ∧ file_bytes b' l = file_bytes b l.
Proof using Hwrite Hgeo.
  intros Hb Hl Hj Hn Hs Hd Hlen. pose proof Hl as [Hc _]. pose proof (g_spc fd Hgeo) as Hspc.
  pose proof (first_sector_range fd Hgeo c Hc) as Hr.
  pose proof (g_reserved fd Hgeo) as Hres. pose proof (g_table fd Hgeo) as Ht. pose proof (g_count fd Hgeo) as Hcnt.
  rewrite (g_bps fd Hgeo), u64_id by lia. replace ((first_sector c + j) * 512) with (512 * (first_sector c + j)) by lia.
  pose proof (Hwrite b data (512 * (first_sector c + j)) async) as Hw. rewrite Hlen, Z2Nat.id in Hw by lia.
  specialize (Hw ltac:(apply request_sectors; lia) (cluster_mapped b c j n Hb Hc Hj ltac:(lia) Hs)).
  set (b' := store b (512 * (first_sector c + j)) data) in *. exists b'.
  assert (Ho : only_in [c] b b').
  { intros q Hq. apply store_out. specialize (Hq c ltac:(left)). unfold in_cluster, cluster_pos in Hq. lia. }
  assert (Hl' : chain b' (c :: l)).
  { apply (chain_only_in [c] b b'); [|done|done]. intros x [->|Hx%not_elem_of_nil]%elem_of_cons; [done|destruct Hx]. }
  split_and!; [done|by apply disk_rep_store|done|done| |].
  - unfold b', cluster_bytes. replace (512 * (first_sector c + j)) with (cluster_pos c + Z.of_nat (Z.to_nat (512 * j)))
      by (unfold cluster_pos; lia).
    by rewrite bytes_from_patch by (done || unfold cluster_size; lia).
  - apply (file_bytes_outside [c]); [done|]. intros x Hx [->|Hx'%not_elem_of_nil]%elem_of_cons; [|done].
    by apply (chain_NoDup fd Hgeo b), NoDup_cons in Hl as [? _].
Qed.
Lemma patch_in b c l j data :
  0 ≤ j → (Z.to_nat (512 * j) + length data ≤ cluster_size)%nat →
  patch j data (file_bytes b (c :: l)) = patch j data (cluster_bytes b c) ++ file_bytes b l.
Proof using.
  intros Hj Hn. pose proof (cluster_bytes_length b c) as Hc. unfold patch.
  rewrite file_bytes_cons, take_app_le, drop_app_le by lia. by rewrite <-!app_assoc.
Qed.
Lemma patch_over b c l j data k :
  0 ≤ j < SPC → k = Z.to_nat (512 * (SPC - j)) → (k ≤ length data)%nat →
  patch j data (file_bytes b (c :: l))
  = patch j (take k data) (cluster_bytes b c) ++ patch 0 (drop k data) (file_bytes b l).
Proof using.
  intros Hj Hk Hd. pose proof (cluster_bytes_length b c) as Hc. unfold cluster_size in Hc. unfold patch.
  rewrite length_take_le, length_drop by done. rewrite file_bytes_cons, take_app_le by lia.
  rewrite drop_app_ge by lia. rewrite (drop_ge (cluster_bytes b c) (_ + k)) by lia.
  rewrite take_0, app_nil_l, app_nil_r, <-app_assoc. f_equal. rewrite (app_assoc (take k data)), take_drop. f_equal. f_equal. lia.
Qed.
Lemma write_loop async l : ∀ b c j rem data g,
  disk_rep b → chain b (c :: l) → 0 ≤ j < SPC → 0 < rem < 2 ^ 64 → j + rem ≤ SPC * Z.of_nat (length (c :: l)) →
  Forall byte_ok data → length data = Z.to_nat (512 * rem) → (length l < g)%nat →
  ∃ b', loop g (write_step async) (first_sector c + j, rem, Z.min rem (SPC - j), data) b = Ret (STATUS_SUCCESS, b')
    ∧ disk_rep b' ∧ only_in (c :: l) b b' ∧ file_bytes b' (c :: l) = patch j data (file_bytes b (c :: l)).
Proof using Hread Hwrite Halloc Hfree Hgeo.
  pose proof (g_spc fd Hgeo) as Hspc.
  induction l as [|d l IH]; intros b c j rem data [|g] Hb Hl Hj Hrem Hfit Hd Hlen Hg; cbn [length] in *; try lia;
    set (tr := Z.min rem (SPC - j)); (assert (Htr : 0 < tr ≤ SPC - j ∧ tr ≤ rem) by lia);
    (assert (Hbytes : u64 (tr * BytesPerSector fd) = 512 * tr) by (rewrite (g_bps fd Hgeo), u64_id; lia));
    (assert (Htl : length (take (Z.to_nat (512 * tr)) data) = Z.to_nat (512 * tr)) by (rewrite length_take; lia));
    destruct (write_chunk b c _ j tr (take (Z.to_nat (512 * tr)) data) async Hb Hl ltac:(lia) ltac:(lia) ltac:(lia)
      (Forall_take _ _ _ Hd) Htl) as (b1 & Hw & Hb1 & Ho & Hl1 & Hcb & Hfb).
  - exists b1. split_and!; [|done|done|].
    + apply loop_break. unfold Fat.write_step. rewrite Hbytes. mrun Hw. change (SUCCEEDED STATUS_SUCCESS) with true.
      cbn [negb]. massert ltac:(by apply Z.eqb_eq). rewrite u64_id by lia. by rewrite (proj2 (Z.eqb_eq 0 (rem - tr))) by lia.
    + rewrite take_ge in Hcb by lia. rewrite file_bytes_cons, Hcb, Hfb, patch_in; [done|lia|unfold cluster_size; lia].
  - destruct (Z.eqb_spec 0 (rem - tr)) as [Hz|Hz].
    + exists b1. split_and!; [|done| |].
      * apply loop_break. unfold Fat.write_step. rewrite Hbytes. mrun Hw. change (SUCCEEDED STATUS_SUCCESS) with true.
        cbn [negb]. massert ltac:(by apply Z.eqb_eq). rewrite u64_id by lia. by rewrite (proj2 (Z.eqb_eq 0 (rem - tr)) Hz).
      * apply (only_in_mono [c]); [|done]. intros x [->|Hx%not_elem_of_nil]%elem_of_cons; [left|destruct Hx].
      * rewrite take_ge in Hcb by lia. rewrite file_bytes_cons, Hcb, Hfb, patch_in; [done|lia|unfold cluster_size; lia].
    + assert (Htr' : tr = SPC - j) by lia. pose proof Hl1 as [_ [_ Hl1']]. pose proof (chain_NoDup fd Hgeo b1 _ Hl1) as Hnd.
      destruct (IH b1 d 0 (rem - tr) (drop (Z.to_nat (512 * tr)) data) g Hb1 Hl1' ltac:(lia) ltac:(lia) ltac:(lia)
        (Forall_drop _ _ _ Hd) ltac:(rewrite length_drop; lia) ltac:(lia)) as (b2 & Hr & Hb2 & Ho2 & Hf2).
      exists b2. split_and!; [|done| |].
      * erewrite loop_continue.
        2: { unfold Fat.write_step. rewrite Hbytes. mrun Hw. change (SUCCEEDED STATUS_SUCCESS) with true. cbn [negb].
             massert ltac:(by apply Z.eqb_eq). rewrite u64_id by lia. rewrite (proj2 (Z.eqb_neq 0 _) Hz).
             mrun (next_cluster_sector b1 c d l j true (proj1 Hb1) Hl1 Hj).
             change (SUCCEEDED STATUS_SUCCESS) with true. cbn [negb]. mrun (deref_Some (first_sector d) b1). reflexivity. }
        rewrite Z.add_0_r, Z.sub_0_r in Hr. by rewrite (Z.min_comm SPC).
      * apply (only_in_trans _ b b1); [|apply (only_in_mono (d :: l)); [set_solver|done]].
        apply (only_in_mono [c]); [set_solver|done].
      * rewrite file_bytes_cons, Hf2, Hfb, (cluster_bytes_outside (d :: l) b1 b2), Hcb; [|done|by apply NoDup_cons in Hnd as [? _]].
        rewrite (patch_over b c (d :: l) j data (Z.to_nat (512 * tr))) by lia. done.
Qed.

(** * FatReadFile and FatWriteFile *)
Variables (IoGetCurrentDateTime : M BYTES DATETIME) (now : DATETIME).
Hypothesis Hnow : ∀ b, IoGetCurrentDateTime b = Ret (now, b).
Definition fat_date : Z := (ConvertDateTimeToFatDateTime now 0 0).1.
Definition fat_time : Z := (ConvertDateTimeToFatDateTime now 0 0).2.
(** The sector [off] of a file is the sector [off mod SPC] of one of its clusters. *)
Lemma split_at (l : list Z) off :
  0 ≤ off < SPC * Z.of_nat (length l) →
  ∃ l1 c l2, l = l1 ++ c :: l2 ∧ Z.of_nat (length l1) = off / SPC.
Proof using Hgeo.
  intros Hoff. pose proof (g_spc fd Hgeo) as Hspc. assert (Hk : (Z.to_nat (off / SPC) < length l)%nat) by nia.
  destruct (lookup_lt_is_Some_2 l _ Hk) as [c Hc]. exists (take (Z.to_nat (off / SPC)) l), c, (drop (S (Z.to_nat (off / SPC))) l).
  split; [by rewrite take_drop_middle|]. rewrite length_take_le by lia. rewrite Z2Nat.id; [done|]. apply Z.div_pos; lia.
Qed.
Lemma file_bytes_app b l1 l2 : file_bytes b (l1 ++ l2) = file_bytes b l1 ++ file_bytes b l2.
Proof using. unfold file_bytes. by rewrite fmap_app, concat_app. Qed.
Lemma file_drop b l1 l2 off :
  Z.of_nat (length l1) = off / SPC → 0 ≤ off →
  drop (Z.to_nat (512 * off)) (file_bytes b (l1 ++ l2)) = drop (Z.to_nat (512 * (off mod SPC))) (file_bytes b l2).
Proof using Hgeo.
  intros Hl Hoff. pose proof (g_spc fd Hgeo) as Hspc. pose proof (file_bytes_length b l1) as Hlen.
  unfold cluster_size in Hlen. rewrite file_bytes_app, drop_app_ge by nia. f_equal. rewrite Hlen. nia.
Qed.
Lemma file_patch b l1 l2 off data :
  Z.of_nat (length l1) = off / SPC → 0 ≤ off →
  patch off data (file_bytes b (l1 ++ l2)) = file_bytes b l1 ++ patch (off mod SPC) data (file_bytes b l2).
Proof using Hgeo.
  intros Hl Hoff. pose proof (g_spc fd Hgeo) as Hspc. pose proof (file_bytes_length b l1) as Hlen.
  unfold cluster_size in Hlen. unfold patch. rewrite file_bytes_app.
  assert (Heq : Z.to_nat (512 * off) = (length (file_bytes b l1) + Z.to_nat (512 * (off mod SPC)))%nat) by (rewrite Hlen; nia).
  rewrite Heq, take_app_add, <-Nat.add_assoc, drop_app_add. by rewrite <-app_assoc.
Qed.

Lemma first_entry_agree b b' dc c i :
  (∀ q, in_cluster q dc → b' !! q = b !! q) →
  first_entry_of b (first_sector dc) c i → first_entry_of b' (first_sector dc) c i.
Proof using.
  intros Hq.
  assert (Hent : ∀ k, 0 ≤ k < entries_per_cluster →
    is_entry_of b' (entry_at (first_sector dc) k) c = is_entry_of b (entry_at (first_sector dc) k) c).
  { unfold entries_per_cluster, entry_at. intros k Hk. unfold is_entry_of.
    assert (Hw : ∀ m o, 0 ≤ o → o + Z.of_nat m ≤ 32 →
      word b' (512 * first_sector dc + 32 * k + o) m = word b (512 * first_sector dc + 32 * k + o) m).
    { intros m o H1 H2. unfold word. f_equal. apply bytes_from_agree. intros q Hr. apply Hq.
      unfold in_cluster, cluster_pos. lia. }
    by rewrite !Hw by done. }
  intros (Hi & He & Hbefore). split; [done|]. split; [by rewrite Hent|]. intros k Hk. rewrite Hent by lia. by apply Hbefore.
Qed.
Lemma chain_hd b l : chain b l → data_cluster (hd 0 l).
Proof using. destruct l; [done|]. by intros [Hc _]. Qed.

Lemma off_bound b l off : chain b l → 0 ≤ off < SPC * Z.of_nat (length l) → off < 2 ^ 60.
Proof using Hgeo.
  intros Hl Hoff. pose proof (g_spc fd Hgeo) as Hs. pose proof (chain_length b l Hl) as Hlen.
  pose proof (g_count fd Hgeo) as Hc. unfold FAT32_BAD_CLUSTER in Hc. nia.
Qed.

Section Run.
Variables (b : BYTES) (l : list Z) (dc i off n Buffer : Z) (async : bool).
Hypotheses (Hdisk : disk_rep b) (Hl : chain b l) (Hdc : data_cluster dc)
  (Hentry : first_entry_of b (first_sector dc) (hd 0 l) i)
  (Halign : IsAddressAligned (first_sector (hd 0 l)) SPC = true) (Hbuf : Buffer ≠ NULL)
  (Hoff : 0 ≤ off < SPC * Z.of_nat (length l)) (Hn : 0 < n < 2 ^ 64)
  (Hfuel : (Z.to_nat (CountOfClusters fd) < fuel)%nat) (Hfuel' : (Z.to_nat entries_per_cluster < fuel)%nat).
Abbreviation update_dir_entry :=
  (Fat.update_dir_entry fuel IoReadDeviceEx IoWriteDeviceEx ExAllocatePoolWithTag ExFreePoolWithTag fd).
Let p := entry_at (first_sector dc) i.
Lemma entry_mapped b' : disk_rep b' → mapped b' p 32.
Proof using Hgeo Hdc Hentry.
  clear Hfuel Hfuel' Hoff Hn. intros Hb'. destruct Hentry as (Hi & _). unfold entries_per_cluster in Hi.
  pose proof (cluster_mapped b' dc 0 SPC Hb' Hdc ltac:(lia) ltac:(lia) ltac:(lia)) as Hm. rewrite Z.add_0_r in Hm.
  intros q Hq. apply Hm. unfold p, entry_at in Hq. lia.
Qed.
Lemma update_access_date b' :
  disk_rep b' → first_entry_of b' (first_sector dc) (hd 0 l) i →
  update_dir_entry (first_sector dc) (first_sector (hd 0 l)) (λ dirEntry,
    currentDateTime ← IoGetCurrentDateTime;
    set_bytes_at DIR_LstAccDate (le_bytes 2 (ConvertDateTimeToFatDateTime currentDateTime 0 0).1) dirEntry) b'
  = Ret (STATUS_SUCCESS, store b' (p + DIR_LstAccDate) (le_bytes 2 fat_date)).
Proof using Hread Hwrite Halloc Hfree Hgeo Hnow Hdc Hl Hentry Hfuel'.
  clear Hfuel Hoff Hn. intros Hb' He.
  eapply (update_dir_entry_run b' dc (hd 0 l) i Hb' Hdc (chain_hd b l Hl) He Hfuel').
  - apply store_ok, Hb'.
  - intros q Hq. fold p in Hq. apply store_out. rewrite le_bytes_length. unfold DIR_LstAccDate. lia.
  - apply mapped_store. by apply entry_mapped.
  - mrun (Hnow b'). apply set_bytes_at_run; [apply le_bytes_ok|done|by rewrite le_bytes_length].
Qed.
Lemma FatReadFile_run (k := available n (length l) off) :
  FatReadFile fuel IoReadDeviceEx IoWriteDeviceEx ExAllocatePoolWithTag ExFreePoolWithTag IoGetCurrentDateTime fd
    (first_sector (hd 0 l)) off (first_sector dc) Buffer n async b
  = Ret ((STATUS_SUCCESS, Some k, take (Z.to_nat (512 * k)) (drop (Z.to_nat (512 * off)) (file_bytes b l))),
         store b (p + DIR_LstAccDate) (le_bytes 2 fat_date)).
Proof using Hread Hwrite Halloc Hfree Hgeo Hnow Hdisk Hl Hdc Hentry Halign Hbuf Hoff Hn Hfuel Hfuel'.
  pose proof (g_spc fd Hgeo) as Hspc. pose proof (off_bound b l off Hl Hoff) as Hob. pose proof (chain_length b l Hl) as Hlen.
  destruct (split_at l off Hoff) as (l1 & c & l2 & El & El1).
  set (j := off mod SPC). assert (Hj : 0 ≤ j < SPC) by (unfold j; lia).
  assert (Ek : k = available n (length (c :: l2)) j).
  { unfold k, available. rewrite El, length_app. unfold j. cbn [length]. nia. }
  assert (Hc : chain b (c :: l2)) by (rewrite El in Hl; by apply chain_app_inv in Hl).
  unfold FatReadFile. massert ltac:(by apply negb_true_iff, Z.eqb_neq). massert ltac:(exact Halign).
  rewrite (proj2 (Z.eqb_neq 0 n)) by lia.
  assert (Hskip : loop fuel (skip_step off false) (first_sector (hd 0 l), 0) b = Ret ((STATUS_SUCCESS, first_sector c), b)).
  { rewrite El. apply skip_loop; [apply Hdisk|by rewrite <-El|rewrite El, length_app in Hlen; lia|lia|nia|lia]. }
  mrun Hskip. change (SUCCEEDED STATUS_SUCCESS) with true. cbn [negb].
  pose proof (first_sector_range fd Hgeo c ltac:(apply Hc)) as Hfs. pose proof (g_reserved fd Hgeo) as Hres.
  pose proof (g_table fd Hgeo) as Ht. pose proof (g_count fd Hgeo) as Hcnt.
  massert ltac:(apply negb_true_iff, Z.eqb_neq; lia). unfold umod. rewrite (proj2 (Z.eqb_neq SPC 0)) by lia.
  erewrite bind_Ret by reflexivity. cbn beta iota. fold j. rewrite u64_id by lia.
  mrun (read_loop b async l2 c j n [] fuel Hdisk Hc Hj Hn ltac:(rewrite El, length_app in Hlen; cbn [length] in Hlen; lia)).
  change (SUCCEEDED STATUS_SUCCESS) with true. cbn [negb]. mrun (update_access_date b Hdisk Hentry).
  change (SUCCEEDED STATUS_SUCCESS) with true. cbn iota. unfold mret, M_ret. rewrite <-Ek. cbn [app].
  rewrite El, file_drop by lia. fold j. rewrite u64_id by (rewrite Ek; unfold available; cbn [length]; nia).
  do 5 f_equal. lia.
Qed.

(** The entry after a write that ended at the byte [next]. *)
Definition with_written (next : Z) (b' : BYTES) : BYTES :=
  let b' := if dword b' (p + DIR_FileSize) <? next then put_dword (p + DIR_FileSize) next b' else b' in
  store (store (store b' (p + DIR_LstAccDate) (le_bytes 2 fat_date)) (p + DIR_WrtDate) (le_bytes 2 fat_date))
    (p + DIR_WrtTime) (le_bytes 2 fat_time).
Lemma with_written_rep next b' : disk_rep b' → disk_rep (with_written next b').
Proof using.
  intros Hb'. unfold with_written. do 3 apply disk_rep_store. destruct (_ <? _); [by apply disk_rep_store|done].
Qed.
Lemma with_written_out next b' q : q < p ∨ p + 32 ≤ q → with_written next b' !! q = b' !! q.
Proof using.
  clear. intros Hq. unfold with_written, DIR_WrtTime, DIR_WrtDate, DIR_LstAccDate, DIR_FileSize.
  rewrite !store_out by (rewrite le_bytes_length; lia). destruct (_ <? _); [|done]. apply put_dword_out. lia.
Qed.
Lemma with_written_size next b' :
  volume_ok b' → 0 ≤ next < 2 ^ 32 → dword (with_written next b') (p + DIR_FileSize) = Z.max (dword b' (p + DIR_FileSize)) next.
Proof using.
  clear. intros Hb' Hn. unfold with_written.
  assert (Hfar : ∀ b1 o v, o + 2 ≤ DIR_FileSize →
    dword (store b1 (p + o) (le_bytes 2 v)) (p + DIR_FileSize) = dword b1 (p + DIR_FileSize)).
  { intros b1 o v Ho. unfold dword, word. f_equal. apply bytes_from_agree. intros q Hq. apply store_out.
    rewrite le_bytes_length. lia. }
  rewrite !Hfar by done. destruct (Z.ltb_spec (dword b' (p + DIR_FileSize)) next).
  - rewrite put_dword_same by done. lia.
  - lia.
Qed.
Lemma update_written next b' :
  disk_rep b' → first_entry_of b' (first_sector dc) (hd 0 l) i →
  update_dir_entry (first_sector dc) (first_sector (hd 0 l)) (λ dirEntry,
    size ← dword_at dirEntry DIR_FileSize;
    dirEntry ← (if size <? next then set_dword_at DIR_FileSize next dirEntry else mret dirEntry);
    currentDateTime ← IoGetCurrentDateTime;
    let '(fatDate, fatTime) := ConvertDateTimeToFatDateTime currentDateTime 0 0 in
    dirEntry ← set_bytes_at DIR_LstAccDate (le_bytes 2 fatDate) dirEntry;
    dirEntry ← set_bytes_at DIR_WrtDate (le_bytes 2 fatDate) dirEntry;
    set_bytes_at DIR_WrtTime (le_bytes 2 fatTime) dirEntry) b'
  = Ret (STATUS_SUCCESS, with_written next b').
Proof using Hread Hwrite Halloc Hfree Hgeo Hnow Hdc Hl Hentry Hfuel'.
  clear Hfuel Hoff Hn. intros Hb' He.
  eapply (update_dir_entry_run b' dc (hd 0 l) i Hb' Hdc (chain_hd b l Hl) He Hfuel').
  - by apply (with_written_rep next).
  - intros q Hq. fold p in Hq. by apply with_written_out.
  - by apply entry_mapped, with_written_rep.
  - fold p. mrun (dword_at_run b' p 32 DIR_FileSize b' ltac:(done) ltac:(done)). unfold with_written. cbv zeta.
    set (b1 := if dword b' (p + DIR_FileSize) <? next then put_dword (p + DIR_FileSize) next b' else b').
    assert (Hs : (if dword b' (p + DIR_FileSize) <? next then set_dword_at DIR_FileSize next (bytes_from b' p 32)
      else mret (bytes_from b' p 32)) b' = Ret (bytes_from b1 p 32, b')).
    { unfold b1. destruct (_ <? _); [|done]. by apply set_dword_at_run. }
    mrun Hs. mrun (Hnow b'). unfold fat_date, fat_time. destruct (ConvertDateTimeToFatDateTime now 0 0) as [date time].
    cbn [fst snd].
    mrun (set_bytes_at_run b1 p 32 DIR_LstAccDate (le_bytes 2 date) b' (le_bytes_ok 2 date) ltac:(done) ltac:(done)).
    mrun (set_bytes_at_run (store b1 (p + DIR_LstAccDate) (le_bytes 2 date)) p 32 DIR_WrtDate (le_bytes 2 date) b'
      (le_bytes_ok 2 date) ltac:(done) ltac:(done)).
    by apply set_bytes_at_run; [apply le_bytes_ok| |].
Qed.
Lemma FatWriteFile_run data :
  dc ∉ l → off + n ≤ SPC * Z.of_nat (length l) → 512 * (off + n) < 2 ^ 32 →
  Forall byte_ok data → length data = Z.to_nat (512 * n) →
  ∃ b1, FatWriteFile fuel IoReadDeviceEx IoWriteDeviceEx ExAllocatePoolWithTag ExFreePoolWithTag IoGetCurrentDateTime fd
      (first_sector (hd 0 l)) off (first_sector dc) Buffer data n async b
    = Ret ((STATUS_SUCCESS, Some n), with_written (512 * (off + n)) b1)
    ∧ disk_rep b1 ∧ only_in l b b1 ∧ file_bytes b1 l = patch off data (file_bytes b l).
Proof using Hread Hwrite Halloc Hfree Hgeo Hnow Hdisk Hl Hdc Hentry Halign Hbuf Hoff Hn Hfuel Hfuel'.
  intros Hdl Hfit Hmax Hd Hdlen.
  pose proof (g_spc fd Hgeo) as Hspc. pose proof (off_bound b l off Hl Hoff) as Hob. pose proof (chain_length b l Hl) as Hlen.
  destruct (split_at l off Hoff) as (l1 & c & l2 & El & El1).
  set (j := off mod SPC). assert (Hj : 0 ≤ j < SPC) by (unfold j; lia).
  assert (Hc : chain b (c :: l2)) by (rewrite El in Hl; by apply chain_app_inv in Hl).
  assert (Hfit' : j + n ≤ SPC * Z.of_nat (length (c :: l2))).
  { rewrite El, length_app in Hfit. unfold j. cbn [length] in *. nia. }
  assert (Hl2 : (length l2 < fuel)%nat) by (rewrite El, length_app in Hlen; cbn [length] in Hlen; lia).
  destruct (write_loop async l2 b c j n data fuel Hdisk Hc Hj Hn Hfit' Hd Hdlen Hl2) as (b1 & Hw & Hb1 & Ho & Hf).
  assert (Hsub : c :: l2 ⊆ l) by (rewrite El; intros x Hx; apply elem_of_app; by right).
  assert (Ho' : only_in l b b1) by by apply (only_in_mono (c :: l2)).
  assert (Hd' : ∀ x, x ∈ l1 → x ∉ c :: l2).
  { pose proof (chain_NoDup fd Hgeo b l Hl) as Hnd. rewrite El in Hnd. by apply NoDup_app in Hnd as (_ & Hnd & _). }
  assert (He1 : first_entry_of b1 (first_sector dc) (hd 0 l) i).
  { apply (first_entry_agree b); [|done]. intros q Hq. apply Ho'. intros x Hx Hin. apply Hdl.
    by rewrite (clusters_disjoint q dc x Hq Hin). }
  exists b1. split_and!; [|done|done|].
  - unfold FatWriteFile. massert ltac:(by apply negb_true_iff, Z.eqb_neq). massert ltac:(exact Halign).
    rewrite (proj2 (Z.eqb_neq 0 n)) by lia.
    assert (Hskip : loop fuel (skip_step off true) (first_sector (hd 0 l), 0) b = Ret ((STATUS_SUCCESS, first_sector c), b)).
    { rewrite El. apply skip_loop; [apply Hdisk|by rewrite <-El|rewrite El, length_app in Hlen; lia|lia|nia|lia]. }
    mrun Hskip. change (SUCCEEDED STATUS_SUCCESS) with true. cbn [negb].
    pose proof (first_sector_range fd Hgeo c ltac:(apply Hc)) as Hfs. pose proof (g_reserved fd Hgeo) as Hres.
    pose proof (g_table fd Hgeo) as Ht. pose proof (g_count fd Hgeo) as Hcnt.
    massert ltac:(apply negb_true_iff, Z.eqb_neq; lia). unfold umod. rewrite (proj2 (Z.eqb_neq SPC 0)) by lia.
    erewrite bind_Ret by reflexivity. cbn beta iota. fold j. rewrite (u64_id (first_sector c + j)) by lia. mrun Hw.
    change (SUCCEEDED STATUS_SUCCESS) with true. cbn [negb].
    assert (Hnext : u32 (u32 (u64 (off + n)) * BytesPerSector fd) = 512 * (off + n)).
    { rewrite (g_bps fd Hgeo), (u64_id (off + n)), (u32_id (off + n)), u32_id by lia. lia. }
    rewrite Hnext. by mrun (update_written (512 * (off + n)) b1 Hb1 He1).
  - rewrite El, file_patch by lia. fold j. rewrite <-Hf, file_bytes_app. f_equal.
    by apply (file_bytes_outside (c :: l2)).
Qed.

Lemma with_written_only next b' : only_in [dc] b' (with_written next b').
Proof using Hentry.
  clear - Hentry. destruct Hentry as (Hi & _). unfold entries_per_cluster in Hi. intros q Hq. apply with_written_out.
  specialize (Hq dc ltac:(left)). unfold in_cluster, cluster_pos in Hq. unfold p, entry_at. lia.
Qed.
(** The entry still is the one of the file. *)
Lemma with_written_entry next b' :
  first_entry_of b' (first_sector dc) (hd 0 l) i → first_entry_of (with_written next b') (first_sector dc) (hd 0 l) i.
Proof using.
  clear. unfold first_entry_of.
  assert (Hent : ∀ k, is_entry_of (with_written next b') (entry_at (first_sector dc) k) (hd 0 l)
    = is_entry_of b' (entry_at (first_sector dc) k) (hd 0 l)).
  { intros k. unfold is_entry_of.
    assert (Hw : ∀ m o, 0 ≤ o → o + Z.of_nat m ≤ DIR_LstAccDate ∨ DIR_FstClusHI ≤ o ∧ o + Z.of_nat m ≤ DIR_WrtTime
        ∨ DIR_FstClusLO ≤ o ∧ o + Z.of_nat m ≤ DIR_FileSize →
      word (with_written next b') (entry_at (first_sector dc) k + o) m = word b' (entry_at (first_sector dc) k + o) m).
    { intros m o H0 Ho. unfold word. f_equal. apply bytes_from_agree. intros q Hq. unfold with_written.
      unfold DIR_LstAccDate, DIR_FstClusHI, DIR_WrtTime, DIR_FstClusLO, DIR_FileSize, DIR_WrtDate in *.
      assert (q < p ∨ p + 32 ≤ q ∨ k = i) as Hk by (unfold p, entry_at in *; lia).
      rewrite !store_out by (rewrite le_bytes_length; unfold p, entry_at in *; lia).
      destruct (_ <? next); [|done]. apply put_dword_out. unfold p, entry_at in *. lia. }
    rewrite (Hw 1%nat DIR_Name), (Hw 1%nat DIR_Attr), (Hw 2%nat DIR_FstClusHI), (Hw 2%nat DIR_FstClusLO); try done.
    - right. by right.
    - right. by left.
    - by left.
    - by left. }
  intros (Hi & He & Hbefore). split; [done|]. split; [by rewrite Hent|]. intros k Hk. rewrite Hent. by apply Hbefore.
Qed.
End Run.
End Files.
