(* ===== verification/FatProps.v ===== *)
(** What FAT32/src/fat_utils.c and the reading and writing of files in FAT32/src/fat_operations.c
    promise: how a chain grows, and that a file holds what was written to it. *)
From S2P Require Import Prelude Memory Slices BitField Heap Fat FatSpec FatFiles.

(** A cluster [n] was appended to the chain [l]: the other chains are as they were, and [n] was in
    none of them. *)
Definition appended (fd : FAT_DATA) (b b' : BYTES) (l : list Z) (n : Z) : Prop :=
  chain fd b' (l ++ [n]) ∧
  ∀ l', chain fd b l' → (n ∉ l') ∧ (List.last l 0 ∉ l' → chain fd b' l').
(** The file with the clusters [l] has the entry [i] of the directory cluster [dc], which is not a
    cluster of the file. *)
Definition file_at (fd : FAT_DATA) (b : BYTES) (l : list Z) (dc i : Z) : Prop :=
  disk_rep fd b ∧ chain fd b l ∧ data_cluster fd dc ∧ (dc ∉ l) ∧
  first_entry_of fd b (first_sector fd dc) (hd 0 l) i ∧
  IsAddressAligned (first_sector fd (hd 0 l)) (SectorsPerCluster fd) = true.
(** DIR_FileSize of the entry *)
Definition size_in_entry (fd : FAT_DATA) (b : BYTES) (dc i : Z) : Z :=
  dword b (entry_at (first_sector fd dc) i + DIR_FileSize).

Section Props.
Variable fuel : nat.
Variables (IoReadDeviceEx : Z → Z → bool → M BYTES (Z * list Z))
          (IoWriteDeviceEx : list Z → Z → bool → M BYTES (Z * Z)).
Variables (ExAllocatePoolWithTag : Z → Z → Z → Z → M BYTES Z) (ExFreePoolWithTag : Z → Z → M BYTES unit).
Variables (IoGetCurrentDateTime : M BYTES DATETIME) (now : DATETIME).
Hypothesis Hread : ∀ b n off async,
  request n off → mapped b off n → IoReadDeviceEx n off async b = Ret ((STATUS_SUCCESS, bytes_from b off (Z.to_nat n)), b).
Hypothesis Hwrite : ∀ b data off async, request (Z.of_nat (length data)) off → mapped b off (Z.of_nat (length data)) →
  IoWriteDeviceEx data off async b = Ret ((STATUS_SUCCESS, Z.of_nat (length data)), store b off data).
Hypothesis Halloc : ∀ b flags n tag align, ∃ p, ExAllocatePoolWithTag flags n tag align b = Ret (p, b) ∧ p ≠ NULL.
Hypothesis Hfree : ∀ b p tag, ExFreePoolWithTag p tag b = Ret (tt, b).
Hypothesis Hnow : ∀ b, IoGetCurrentDateTime b = Ret (now, b).
Variable fd : FAT_DATA.
Hypothesis Hgeo : geometry fd.
Abbreviation NextSectorInClusterChain :=
  (Fat.NextSectorInClusterChain fuel IoReadDeviceEx IoWriteDeviceEx ExAllocatePoolWithTag ExFreePoolWithTag fd).
Abbreviation FatReadFile :=
  (Fat.FatReadFile fuel IoReadDeviceEx IoWriteDeviceEx ExAllocatePoolWithTag ExFreePoolWithTag IoGetCurrentDateTime fd).
Abbreviation FatWriteFile :=
  (Fat.FatWriteFile fuel IoReadDeviceEx IoWriteDeviceEx ExAllocatePoolWithTag ExFreePoolWithTag IoGetCurrentDateTime fd).

(** C11: at the end of a file, NextSectorInClusterChain with ExtendChain takes the first free
    cluster from FSI_Nxt_Free on and returns its first sector; the cluster is then the last one of
    the file, it was in no chain before, the other chains and the data are as they were, and
    FSI_Nxt_Free names the cluster. *)
Theorem NextSectorInClusterChain_extends b l c n j :
  volume_rep fd b → fuel_ok fuel fd → (Z.to_nat (CountOfClusters fd + 2) < fuel)%nat →
  chain fd b l → List.last l 0 = c → 0 ≤ j < SectorsPerCluster fd →
  fs_free_count b ≠ 0 → 2 ≤ fs_next_free b → first_free fd b (fs_next_free b) n →
  ∃ b', NextSectorInClusterChain (first_sector fd c + j) true b = Ret ((STATUS_SUCCESS, Some (first_sector fd n)), b')
    ∧ volume_rep fd b' ∧ appended fd b b' l n
    ∧ (∀ p, 512 * FirstDataSector fd ≤ p → b' !! p = b !! p)
    ∧ fs_next_free b' = n ∧ (fs_free_count b ≠ FAT32_UNKNOWN → fs_free_count b' = fs_free_count b - 1).
Proof using Hread Hwrite Halloc Hfree Hgeo.
  intros Hb Hf Hf2 Hl Hlast Hj H1 H2 H3. destruct (chain_last_cluster fd b l c Hl Hlast) as [Hend Hc].
  pose proof (search_end_bound fd Hgeo) as Hse. pose proof (g_count fd Hgeo) as Hcnt. unfold FAT32_BAD_CLUSTER in Hcnt.
  pose proof H3 as ([Hn1 Hn2] & Hz & _).
  assert (Hnd : data_cluster fd n) by (unfold data_cluster; lia).
  assert (Hrange : 0 ≤ n < 2 ^ 28) by lia.
  assert (Hfresh : ∀ l', chain fd b l' → n ∉ l') by (intros l' Hl' Hin; by destruct (chain_data fd b l' n Hl' Hin)).
  assert (Hlink : ∀ x, x ≠ c → x ≠ n → data_cluster fd x → link fd (extended fd b c n) x = link fd b x).
  { intros x Hxc Hxn Hx. rewrite link_extended by (done || unfold data_cluster in Hx; lia). by rewrite !decide_False by done. }
  exists (extended fd b c n). split_and!.
  - by apply next_extends.
  - by apply extended_rep.
  - split.
    + unfold data_cluster in *. apply (chain_snoc fd Hgeo b _ l c n Hl Hlast Hnd).
      * unfold ends_chain. rewrite link_extended by (done || lia). rewrite decide_False, decide_True; [done..|].
        intros ->. unfold ends_chain, FAT32_BAD_CLUSTER in Hend. lia.
      * rewrite link_extended by (done || lia). by rewrite decide_True by done.
      * intros x Hx Hne. apply Hlink; [done| |]; [intros ->; by destruct (Hfresh l Hl)|by apply (chain_data fd b l)].
    + intros l' Hl'. split; [by apply Hfresh|]. rewrite Hlast. intros Hcl.
      apply (chain_ext fd b _ l'); [|done]. intros x Hx. apply Hlink; [by intros ->|intros ->; by destruct (Hfresh l' Hl')|].
      by apply (chain_data fd b l').
  - intros p Hp. apply extended_data; [by apply Hgeo|by apply data_in_table..|done].
  - unfold fs_next_free, extended, with_fs. rewrite put_dword_other by (unfold FSI_Nxt_Free, FSI_Free_Count; lia).
    apply put_dword_same. lia.
  - intros Hu. pose proof (dword_range b (512 + FSI_Free_Count) (proj1 Hb)) as Hr. fold (fs_free_count b) in Hr.
    unfold fs_free_count at 1. unfold extended, with_fs. rewrite put_dword_same.
    + unfold count_after. by rewrite (proj2 (Z.eqb_neq _ _) Hu).
    + unfold count_after. rewrite (proj2 (Z.eqb_neq _ _) Hu). lia.
Qed.

Lemma patch_slice off data F :
  (Z.to_nat (512 * off) + length data ≤ length F)%nat →
  take (length data) (drop (Z.to_nat (512 * off)) (patch off data F)) = data.
Proof using.
  intros H. unfold patch. rewrite drop_app_length' by (rewrite length_take; lia). by rewrite take_app_length.
Qed.
(** C9: what FatWriteFile writes to sectors that a file has is what FatReadFile returns for them
    from then on, and every other sector of the file reads as before; the size in the entry of the
    file covers what was written, and no byte of the volume outside of the clusters of the file and
    the cluster of its entry is changed. *)
Theorem FatWriteFile_then_FatReadFile b l dc i off n data Buffer async :
  file_at fd b l dc i → Buffer ≠ NULL → 0 ≤ off → 0 < n → off + n ≤ SectorsPerCluster fd * Z.of_nat (length l) →
  512 * (off + n) < 2 ^ 32 → Forall byte_ok data → length data = Z.to_nat (512 * n) →
  (Z.to_nat (CountOfClusters fd) < fuel)%nat → (Z.to_nat (entries_per_cluster fd) < fuel)%nat →
  let read off n := FatReadFile (first_sector fd (hd 0 l)) off (first_sector fd dc) Buffer n async in
  ∃ b', FatWriteFile (first_sector fd (hd 0 l)) off (first_sector fd dc) Buffer data n async b
      = Ret ((STATUS_SUCCESS, Some n), b')
    ∧ file_at fd b' l dc i ∧ only_in fd (dc :: l) b b'
    ∧ size_in_entry fd b' dc i = Z.max (size_in_entry fd b dc i) (512 * (off + n))
    ∧ (∃ b'', read off n b' = Ret ((STATUS_SUCCESS, Some n, data), b''))
    ∧ ∀ off' n', 0 ≤ off' < SectorsPerCluster fd * Z.of_nat (length l) → 0 < n' < 2 ^ 64 →
      let k := available fd n' (length l) off' in
      ∃ b'', read off' n' b' = Ret ((STATUS_SUCCESS, Some k,
        take (Z.to_nat (512 * k)) (drop (Z.to_nat (512 * off')) (patch off data (file_bytes fd b l)))), b'').
Proof using Hread Hwrite Halloc Hfree Hgeo Hnow.
  intros (Hd & Hl & Hdc & Hdl & He & Ha) Hbuf Hoff Hn Hfit Hmax Hdata Hlen Hf1 Hf2 read.
  pose proof (g_spc fd Hgeo) as Hspc. pose proof (file_bytes_length fd b l) as Hfl. unfold cluster_size in Hfl.
  destruct (FatWriteFile_run fuel _ _ _ _ Hread Hwrite Halloc Hfree fd Hgeo _ now Hnow b l dc i off n Buffer async Hd Hl Hdc He
    Ha Hbuf ltac:(lia) ltac:(lia) Hf1 Hf2 data Hdl Hfit Hmax Hdata Hlen) as (b1 & Hw & Hb1 & Ho1 & Hfb).
  set (b' := with_written fd now dc i (512 * (off + n)) b1) in *.
  assert (He1 : first_entry_of fd b1 (first_sector fd dc) (hd 0 l) i).
  { apply (first_entry_agree fd b); [|done]. intros q Hq. apply Ho1. intros x Hx Hin. apply Hdl.
    by rewrite (clusters_disjoint fd q dc x Hq Hin). }
  pose proof (with_written_only fd now b1 l dc i He1 (512 * (off + n)) b1) as Ho2. fold b' in Ho2.
  assert (Ho : only_in fd (dc :: l) b b').
  { apply (only_in_trans fd _ b b1); [apply (only_in_mono fd l); [set_solver|done]|].
    apply (only_in_mono fd [dc]); [set_solver|done]. }
  assert (Hfb' : file_bytes fd b' l = patch off data (file_bytes fd b l)).
  { rewrite <-Hfb. apply (file_bytes_outside fd [dc]); [done|]. intros x Hx Hin. apply list_elem_of_singleton in Hin. by subst x. }
  assert (Hat : file_at fd b' l dc i).
  { split_and!; [by apply with_written_rep| |done|done|by apply with_written_entry|done].
    apply (chain_only_in fd Hgeo (dc :: l) b b'); [|done|done].
    intros x [->|Hx]%elem_of_cons; [done|by apply (chain_data fd b l)]. }
  assert (Hrd : ∀ off' n', 0 ≤ off' < SectorsPerCluster fd * Z.of_nat (length l) → 0 < n' < 2 ^ 64 →
    let k := available fd n' (length l) off' in
    ∃ b'', read off' n' b' = Ret ((STATUS_SUCCESS, Some k,
      take (Z.to_nat (512 * k)) (drop (Z.to_nat (512 * off')) (patch off data (file_bytes fd b l)))), b'')).
  { intros off' n' H1 H2 k. destruct Hat as (Hd' & Hl' & _ & _ & He' & _). eexists. rewrite <-Hfb'. unfold read.
    by apply (FatReadFile_run fuel _ _ _ _ Hread Hwrite Halloc Hfree fd Hgeo _ now Hnow b' l dc i off' n' Buffer async). }
  exists b'. split_and!; [done|done|done| | |done].
  - unfold size_in_entry, b'. rewrite with_written_size by (apply Hb1 || lia). f_equal.
    unfold dword, word. f_equal. apply bytes_from_agree. intros q Hq. apply Ho1. intros x Hx Hin. apply Hdl.
    assert (in_cluster fd q dc) as Hqd.
    { destruct He as ((? & ?) & _). unfold entries_per_cluster in *. unfold in_cluster, cluster_pos.
      unfold entry_at, DIR_FileSize in Hq. lia. }
    by rewrite (clusters_disjoint fd q dc x Hqd Hin).
  - destruct (Hrd off n ltac:(lia) ltac:(lia)) as (b'' & Hr). exists b''. rewrite Hr.
    replace (available fd n (length l) off) with n by (unfold available; lia).
    rewrite <-Hlen, patch_slice; [done|]. rewrite Hfl, Hlen. lia.
Qed.
End Props.

(** * Mounting a volume *)
(** The first sector describes a volume with sectors of 512 bytes: [reserved] sectors, [fats]
    tables of [fatsz] sectors each, and clusters of [spc] sectors in the rest of [total] sectors. *)
Record formatted (b : BYTES) (reserved fats fatsz spc total root : Z) : Prop := {
  fm_sector : volume_ok b ∧ mapped b 0 512;
  fm_signature : word b 510 2 = 0xAA55;
  fm_bps : word b 11 2 = 512;
  fm_spc : word b 13 1 = spc;
  fm_reserved : word b 14 2 = reserved;
  fm_fats : word b 16 1 = fats;
  fm_sizes16 : word b 19 2 = 0 ∧ word b 22 2 = 0;
  fm_total : word b 32 4 = total;
  fm_fatsz : word b 36 4 = fatsz;
  fm_root : word b 44 4 = root;
  fm_layout : 2 ≤ reserved ∧ 0 < fats ∧ 0 < spc ∧ reserved + fats * fatsz ≤ total
}.
Definition clusters (reserved fats fatsz spc total : Z) : Z := (total - (reserved + fats * fatsz)) / spc.

(** C34: FatInitVolume reads the layout of the volume from its first sector: with fewer than 65525
    clusters the file system is not supported, and otherwise the FAT_DATA is the layout that the
    operations on chains rely on, with the table of the clusters between the reserved sectors and
    the data, and the root directory at the first sector of its cluster. *)
Theorem FatInitVolume_establishes_geometry IoReadDeviceEx b reserved fats fatsz spc total root align fd :
  (∀ b n off async,
    request n off → mapped b off n → IoReadDeviceEx n off async b = Ret ((STATUS_SUCCESS, bytes_from b off (Z.to_nat n)), b)) →
  formatted b reserved fats fatsz spc total root →
  let count := clusters reserved fats fatsz spc total in
  4 * (count + 2) ≤ 512 * fatsz → count < FAT32_BAD_CLUSTER - 2 → 2 ≤ root < count + 2 → align ≤ 512 →
  ∃ st fd', FatInitVolume IoReadDeviceEx align fd b = Ret ((st, fd'), b) ∧
    (count < 65525 → st = STATUS_DEVICE_FILESYSTEM_UNSUPPORTED) ∧
    (65525 ≤ count → st = STATUS_SUCCESS ∧ geometry fd' ∧ CountOfClusters fd' = count
      ∧ ReservedSectors fd' = reserved ∧ FirstDataSector fd' = reserved + fats * fatsz
      ∧ SectorsPerCluster fd' = spc ∧ EntriesPerSector fd' = 16 ∧ AllocationSize fd' = 512 * spc
      ∧ RootDirectoryStartSector fd' = first_sector fd' root).
Proof.
  intros Hread [[Hok Hm] Hsig Hbps Hspc Hres Hfats [Ht16 Hf16] Htot Hfsz Hroot (Hr2 & Hf1 & Hs1 & Hfit)] count Htab Hcnt Hrt Hal.
  pose proof (word_bound b 13 1 Hok) as B1. pose proof (word_bound b 14 2 Hok) as B2. pose proof (word_bound b 16 1 Hok) as B3.
  pose proof (word_bound b 32 4 Hok) as B4. pose proof (word_bound b 36 4 Hok) as B5.
  rewrite Hspc in B1. rewrite Hres in B2. rewrite Hfats in B3. rewrite Htot in B4. rewrite Hfsz in B5.
  assert (Hat : ∀ m o, 0 ≤ o → o + Z.of_nat m ≤ 512 → le_at m (bytes_from b 0 512) o b = Ret (word b o m, b)).
  { intros m o H1 H2. rewrite le_at_run by lia. by rewrite Z.add_0_l. }
  assert (Hat4 : ∀ o, 0 ≤ o → o + 4 ≤ 512 → dword_at (bytes_from b 0 512) o b = Ret (word b o 4, b)).
  { intros o H1 H2. by apply Hat. }
  assert (Hn1 : u32 (fats * fatsz) = fats * fatsz) by (apply u32_id; lia).
  assert (Hn2 : u32 (reserved + fats * fatsz) = reserved + fats * fatsz) by (apply u32_id; lia).
  assert (Hn3 : u32 (total - (reserved + fats * fatsz)) = total - (reserved + fats * fatsz)) by (apply u32_id; lia).
  assert (Hc0 : 0 ≤ count) by (apply Z.div_pos; lia). assert (Hone : fatsz ≤ fats * fatsz) by nia.
  assert (Hrun : ∀ st fd',
    (if count <? FAT12_MAX_CLUSTERS then mret (STATUS_DEVICE_FILESYSTEM_UNSUPPORTED, set_CountOfClusters count fd) else
     if count <? FAT16_MAX_CLUSTERS then mret (STATUS_DEVICE_FILESYSTEM_UNSUPPORTED, set_CountOfClusters count fd) else
     let d := set_data_layout (reserved + fats * fatsz) spc (set_CountOfClusters count fd) in
     match FirstSectorOfCluster d root with
     | (status, Some r) =>
        ASSERT (align <=? u32 (spc * 512));;
        mret (status, mkFatData count r reserved (reserved + fats * fatsz) spc 512 16 (u32 (spc * 512)))
     | (status, None) => mret (status, d)
     end) b = Ret ((st, fd'), b) →
    FatInitVolume IoReadDeviceEx align fd b = Ret ((st, fd'), b)).
  { intros st fd' <-. unfold FatInitVolume, IoReadDevice. mrun (Hread b 512 0 false (request_sector 0 ltac:(lia)) Hm).
    change (SUCCEEDED STATUS_SUCCESS) with true. cbn [negb]. change (Z.to_nat sizeof_FAT_BPB) with 512%nat.
    mrun (Hat 2%nat 510 ltac:(done) ltac:(done)). rewrite Hsig. change (negb (MBR_BOOT_SIGNATURE =? 43605)) with false. cbn iota.
    mrun (Hat 2%nat BPB_FATSz16 ltac:(done) ltac:(done)). change BPB_FATSz16 with 22. rewrite Hf16. cbn [Z.eqb negb].
    mrun (Hat4 36 ltac:(done) ltac:(done)). rewrite Hfsz.
    mrun (Hat 2%nat BPB_TotSec16 ltac:(done) ltac:(done)). change BPB_TotSec16 with 19. rewrite Ht16. cbn [Z.eqb negb].
    mrun (Hat4 32 ltac:(done) ltac:(done)). rewrite Htot.
    mrun (Hat 2%nat 14 ltac:(done) ltac:(done)). rewrite Hres. mrun (Hat 1%nat 16 ltac:(done) ltac:(done)). rewrite Hfats.
    mrun (Hat 1%nat 13 ltac:(done) ltac:(done)). rewrite Hspc. cbv zeta. rewrite Hn1, Hn2, Hn3.
    unfold udiv. rewrite (proj2 (Z.eqb_neq spc 0)) by lia. erewrite bind_Ret by reflexivity. cbn beta.
    fold (clusters reserved fats fatsz spc total). fold count. destruct (count <? FAT12_MAX_CLUSTERS); [done|].
    destruct (count <? FAT16_MAX_CLUSTERS); [done|]. mrun (Hat4 44 ltac:(done) ltac:(done)). rewrite Hroot.
    destruct (FirstSectorOfCluster _ root) as [st1 [r|]]; [|done].
    mrun (Hat 2%nat 11 ltac:(done) ltac:(done)). by rewrite Hbps. }
  destruct (Z.ltb_spec count FAT16_MAX_CLUSTERS) as [Hlt|Hge]; unfold FAT16_MAX_CLUSTERS in *.
  - eexists _, _. split; [apply Hrun; by destruct (count <? FAT12_MAX_CLUSTERS)|]. split; [done|]. lia.
  - set (fd' r := mkFatData count r reserved (reserved + fats * fatsz) spc 512 16 (u32 (spc * 512))).
    assert (Hal2 : u32 (spc * 512) = 512 * spc) by (rewrite u32_id; lia).
    assert (Hfirst : FirstSectorOfCluster (set_data_layout (reserved + fats * fatsz) spc (set_CountOfClusters count fd)) root
      = (STATUS_SUCCESS, Some ((root - 2) * spc + (reserved + fats * fatsz)))).
    { unfold FirstSectorOfCluster, valid_cluster, FAT32_BAD_CLUSTER in *. cbn [CountOfClusters SectorsPerCluster FirstDataSector set_data_layout set_CountOfClusters].
      rewrite u32_id by lia. rewrite (proj2 (Z.ltb_ge (count + 1) root)), (proj2 (Z.ltb_ge root 2)) by lia. cbn [orb negb].
      assert (0 ≤ (root - 2) * spc < 2 ^ 40) by nia. by rewrite (u64_id ((root - 2) * spc)), u64_id by lia. }
    eexists _, (fd' _). split.
    + apply Hrun. unfold FAT12_MAX_CLUSTERS, FAT16_MAX_CLUSTERS. rewrite (proj2 (Z.ltb_ge _ _)) by lia.
      cbv zeta. rewrite Hfirst. massert ltac:(apply Z.leb_le; lia). reflexivity.
    + split; [lia|]. intros _. split; [done|]. split; [|by rewrite <-Hal2].
      split; cbn; try lia.
Qed.

(** * Volumes *)
Module FatExample.
Definition dev_read (n off : Z) (async : bool) : M BYTES (Z * list Z) :=
  λ b, Ret ((STATUS_SUCCESS, bytes_from b off (Z.to_nat n)), b).
Definition dev_write (data : list Z) (off : Z) (async : bool) : M BYTES (Z * Z) :=
  λ b, Ret ((STATUS_SUCCESS, Z.of_nat (length data)), store b off data).
Definition alloc (flags n tag align : Z) : M BYTES Z := mret 0x1000.
Definition free_pool (p tag : Z) : M BYTES unit := mret tt.
Definition today : DATETIME := mkDateTime (mkDate 14 3 2024) (mkTime 30 15 9).
Definition zeros (n : nat) : BYTES := store ∅ 0 (replicate n 0).
Lemma zeros_ok n : volume_ok (zeros n).
Proof. by apply store_ok. Qed.
Lemma zeros_mapped n : mapped (zeros n) 0 (Z.of_nat n).
Proof.
  pose proof (bytes_at_mapped _ _ _ (store_at ∅ 0 (replicate n 0))) as H. by rewrite length_map, length_replicate in H.
Qed.

(** 382 clusters, whose table is three sectors long: the cluster 3 is a file, 4 is another one, and
    the search starts at the cluster 4. *)
Definition big : FAT_DATA := mkFatData 382 5 2 5 1 512 16 512.
Definition big_volume : BYTES :=
  put_dword (512 + FSI_Free_Count) 300 (put_dword (512 + FSI_Nxt_Free) 4
    (put_dword (1024 + 4 * 3) FAT32_EOC_MARK (put_dword (1024 + 4 * 4) FAT32_EOC_MARK (zeros 2560)))).
Lemma NextSectorInClusterChain_extends_witness :
  ∃ b', Fat.NextSectorInClusterChain 400 dev_read dev_write alloc free_pool big 6 true big_volume
    = Ret ((STATUS_SUCCESS, Some 8), b') ∧ chain big b' [3; 5] ∧ chain big b' [4].
Proof.
  destruct (NextSectorInClusterChain_extends 400 dev_read dev_write alloc free_pool
    ltac:(done) ltac:(done) ltac:(intros; by exists 0x1000) ltac:(done) big
    ltac:(split; cbn; unfold FAT32_BAD_CLUSTER; lia) big_volume [3] 3 5 0) as (b' & Hr & _ & [Hc Ho] & _).
  - apply volume_rep_store, volume_rep_store, volume_rep_store, volume_rep_store.
    split; [apply zeros_ok|apply (zeros_mapped 2560)].
  - split; [lia|]. apply Nat.ltb_lt. by vm_compute.
  - cbn. lia.
  - split; [split; cbn; lia|]. apply Z.leb_le. by vm_compute.
  - done.
  - cbn. lia.
  - intros H. by vm_compute in H.
  - apply Z.leb_le. by vm_compute.
  - assert (fs_next_free big_volume = 4) as -> by by vm_compute. split; [assert (search_end big = 128) as -> by done; lia|].
    split; [by vm_compute|]. intros d Hd. replace d with 4 by lia. intros H. by vm_compute in H.
  - exists b'. split; [exact Hr|]. split; [exact Hc|]. apply (Ho [4]).
    + split; [split; cbn; lia|]. apply Z.leb_le. by vm_compute.
    + cbn. intros H%list_elem_of_singleton. lia.
Defined.

(** 32 reserved sectors, two tables of 512 sectors, and 65530 clusters of one sector. *)
Definition first_sector_bytes : BYTES :=
  store (store (store (store (store (store (store (store (zeros 512) 11 [0; 2]) 13 [1]) 14 [32; 0]) 16 [2])
    32 (le_bytes 4 (32 + 2 * 512 + 65530))) 36 (le_bytes 4 512)) 44 (le_bytes 4 2)) 510 [0x55; 0xAA].
Lemma FatInitVolume_establishes_geometry_witness :
  ∃ st d, FatInitVolume dev_read 512 big first_sector_bytes = Ret ((st, d), first_sector_bytes) ∧ st = STATUS_SUCCESS
    ∧ geometry d ∧ CountOfClusters d = 65530.
Proof.
  destruct (FatInitVolume_establishes_geometry dev_read first_sector_bytes 32 2 512 1 (32 + 2 * 512 + 65530) 2 512 big)
    as (st & d & Hr & _ & H).
  - done.
  - split; try by vm_compute.
    split; [by repeat apply store_ok|]. do 8 apply mapped_store. apply (zeros_mapped 512).
  - by vm_compute.
  - by vm_compute.
  - by vm_compute.
  - lia.
  - destruct H as (Hs & Hg & Hc & _); [by vm_compute|]. exists st, d. split; [exact Hr|]. split; [exact Hs|]. split; [exact Hg|]. rewrite Hc. by vm_compute.
Defined.

(** Three clusters: the cluster 2 is a directory, whose first entry is the one of the file with the
    clusters 3 and 4. *)
Definition small : FAT_DATA := mkFatData 3 3 2 3 1 512 16 512.
Definition small_volume : BYTES :=
  store (put_dword (1024 + 4 * 3) 4 (put_dword (1024 + 4 * 4) FAT32_EOC_MARK (zeros 3072)))
    1536 (map Z.of_N [70; 73; 76; 69; 32; 32; 32; 32; 84; 88; 84; 32; 0; 0; 0; 0;
           0; 0; 0; 0; 0; 0; 0; 0; 0; 0; 3; 0; 100; 0; 0; 0]%N).
Lemma FatWriteFile_then_FatReadFile_witness :
  ∃ b' b'', Fat.FatWriteFile 200 dev_read dev_write alloc free_pool (mret today) small 4 1 3 0x2000 (replicate 512 7) 1 false
      small_volume = Ret ((STATUS_SUCCESS, Some 1), b')
    ∧ Fat.FatReadFile 200 dev_read dev_write alloc free_pool (mret today) small 4 1 3 0x2000 1 false b'
      = Ret ((STATUS_SUCCESS, Some 1, replicate 512 7), b'')
    ∧ size_in_entry small b' 2 0 = 1024.
Proof.
  assert (Hchain : chain small small_volume [3; 4]).
  { split; [split; cbn; lia|]. split; [by vm_compute|]. split; [split; cbn; lia|]. apply Z.leb_le. by vm_compute. }
  destruct (FatWriteFile_then_FatReadFile 200 dev_read dev_write alloc free_pool (mret today) today
    ltac:(done) ltac:(done) ltac:(intros; by exists 0x1000) ltac:(done) ltac:(done) small
    ltac:(split; cbn; unfold FAT32_BAD_CLUSTER; lia) small_volume [3; 4] 2 0 1 1 (replicate 512 7) 0x2000 false)
    as (b' & Hw & _ & _ & Hs & (b'' & Hr) & _).
  - split_and!; [|done|split; cbn; lia| | |by vm_compute].
    + do 3 apply disk_rep_store. split; [split; [apply zeros_ok|]|].
      * intros q Hq. apply (zeros_mapped 3072). cbn in Hq. lia.
      * intros q Hq. apply (zeros_mapped 3072). change (cluster_pos small _) with 3072 in Hq. lia.
    + intros H. by repeat (apply elem_of_cons in H as [H|H]); [..|apply not_elem_of_nil in H].
    + split; [by vm_compute|]. split; [by vm_compute|]. intros k Hk. lia.
  - done.
  - lia.
  - lia.
  - cbn. lia.
  - lia.
  - apply Forall_replicate. unfold byte_ok. lia.
  - done.
  - cbn. lia.
  - apply Nat.ltb_lt. by vm_compute.
  - exists b', b''. split; [exact Hw|]. split; [exact Hr|]. rewrite Hs. by vm_compute.
Defined.
End FatExample.
