(* ===== verification/Io.v ===== *)
(** HAL9000/src/io_devices.c, Volume/src/volume_dispatch.c, Disk/src/disk_dispatch.c and
    Ata/src/ata_dispatch.c: requests, which go down a stack of devices from a volume over its disk
    to the controller. *)
From S2P Require Import Prelude Memory Slices Heap.

(** CommonLib/inc/status.h, shared/kernel/heap_tags.h *)
Definition STATUS_INVALID_PARAMETER5 : Z := error_status GENERAL_MASK 0x15.
Definition STATUS_DEVICE_NOT_INITIALIZED : Z := error_status DEVICE_MASK 0x4.
Definition STATUS_DEVICE_SECTOR_OFFSET_EXCEEDED : Z := error_status DEVICE_MASK 0x5.
Definition STATUS_DEVICE_SECTOR_COUNT_EXCEEDED : Z := error_status DEVICE_MASK 0x6.
Definition STATUS_DEVICE_INVALID_OPERATION : Z := error_status DEVICE_MASK 0x9.
Definition STATUS_DEVICE_DATA_ALIGNMENT_ERROR : Z := error_status DEVICE_MASK 0xA.
Definition STATUS_DEVICE_ALIGNMENT_NO_SATISFIED : Z := error_status DEVICE_MASK 0xE.
Definition LBA48_MAX_VALUE : Z := 0xFFFFFFFFFFFF.

(** * shared/kernel/io_structures.h *)
Definition IRP_MJ_READ : Z := 2.
Definition IRP_MJ_WRITE : Z := 3.
Definition IRP_MJ_DEVICE_CONTROL : Z := 6.
Definition IOCTL_DISK_GET_LENGTH_INFO : Z := 0.
Definition IOCTL_DISK_LAYOUT_INFO : Z := 1.
Definition IOCTL_VOLUME_PARTITION_INFO : Z := 2.
Record PARTITION_INFORMATION := mkPartition {
  OffsetInDisk : Z; PartitionSize : Z; PartitionType : Z; Bootable : bool
}.
Definition sizeof_PARTITION_INFORMATION : Z := 24.
Definition sizeof_DISK_LAYOUT_INFORMATION : Z := 8.
Definition sizeof_GET_LENGTH_INFORMATION : Z := 8.
(** The structure that an OutputBuffer points to. *)
Inductive OUTPUT := LengthInfo (Length : Z) | LayoutInfo (Partitions : list PARTITION_INFORMATION)
  | PartitionInfo (Partition : PARTITION_INFORMATION).
Inductive PARAMETERS :=
  | ReadWrite (Length Offset : Z)
  | DeviceControl (IoControlCode InputBufferLength OutputBufferLength : Z).
(** MinorFunction, DeviceObject and FileObject are for file systems; the Mdl of an IRP is for the
    transfers by DMA. *)
Record IO_STACK_LOCATION := mkLocation { MajorFunction : Z; Parameters_ : PARAMETERS }.
(** Buffer is the bytes at the address, [None] for NULL. *)
Record IRP := mkIrp {
  Buffer : option (list Z);
  OutputBuffer : option OUTPUT;
  IoStatus_Information : Z;
  IoStatus_Status : Z;
  Completed : bool;
  Asynchronous : bool;
  CurrentStackLocation : Z;
  StackLocations : list IO_STACK_LOCATION
}.
(** Ata/headers/ata_structures.h, Disk/headers/disk_structures.h, Volume/headers/volume_structures.h *)
Inductive ATA_TRANSFER_STATE := AtaTransferStateFree | AtaTransferStateInProgress | AtaTransferStateFinished.
#[export] Instance ATA_TRANSFER_STATE_eq_dec : EqDecision ATA_TRANSFER_STATE.
Proof. solve_decision. Defined.
Record ATA_DEVICE := mkAta { TotalSectors : Z; Initialized : bool; TransferState : ATA_TRANSFER_STATE }.
(** DiskLayout is what the pointer points to, [None] for NULL. *)
Record DISK_OBJECT := mkDisk { NumberOfSectors : Z; DiskDeviceController : Z; DiskLayout : option (list PARTITION_INFORMATION) }.
Record VOLUME := mkVolume { DiskDevice : Z; PartitionInformation : PARTITION_INFORMATION }.
Inductive EXTENSION := AtaExtension (d : ATA_DEVICE) | DiskExtension (d : DISK_OBJECT) | VolumeExtension (d : VOLUME).
(** DispatchFunctions is the one of the DriverObject, which the DriverEntry of the driver fills. *)
Inductive PFUNC_DriverDispatch := pAtaDispatchReadWrite | pAtaDispatchDeviceControl | pDiskDispatchReadWrite
  | pDiskDispatchDeviceControl | pVolDispatchReadWrite | pVolDispatchDeviceControl.
Record DEVICE_OBJECT := mkDevice {
  DispatchFunctions : Z → option PFUNC_DriverDispatch;
  DeviceExtension : EXTENSION;
  StackSize : Z;
  DeviceAlignment : Z;
  AttachedDevice : Z
}.
Definition AtaDriverEntry_DispatchFunctions (major : Z) : option PFUNC_DriverDispatch :=
  if (major =? IRP_MJ_READ) || (major =? IRP_MJ_WRITE) then Some pAtaDispatchReadWrite else
  if major =? IRP_MJ_DEVICE_CONTROL then Some pAtaDispatchDeviceControl else None.
Definition DiskDriverEntry_DispatchFunctions (major : Z) : option PFUNC_DriverDispatch :=
  if (major =? IRP_MJ_READ) || (major =? IRP_MJ_WRITE) then Some pDiskDispatchReadWrite else
  if major =? IRP_MJ_DEVICE_CONTROL then Some pDiskDispatchDeviceControl else None.
Definition VolDriverEntry_DispatchFunctions (major : Z) : option PFUNC_DriverDispatch :=
  if (major =? IRP_MJ_READ) || (major =? IRP_MJ_WRITE) then Some pVolDispatchReadWrite else
  if major =? IRP_MJ_DEVICE_CONTROL then Some pVolDispatchDeviceControl else None.

(** * The state: the devices by their address, those whose DeviceLock is held, and the bytes on the
    medium of each controller *)
Record IO := mkIo { io_devices : gmap Z DEVICE_OBJECT; io_locked : gset Z; io_media : gmap Z BYTES }.
Definition get_device (p : Z) : M IO DEVICE_OBJECT := d ← gets (λ s, io_devices s !! p); from_option_fault d.
Definition set_extension (p : Z) (e : EXTENSION) : M IO unit :=
  d ← get_device p;
  modify (λ s, mkIo (<[p := mkDevice (DispatchFunctions d) e (StackSize d) (DeviceAlignment d) (AttachedDevice d)]> (io_devices s))
    (io_locked s) (io_media s)).
Definition get_ata (p : Z) : M IO ATA_DEVICE :=
  d ← get_device p; match DeviceExtension d with AtaExtension a => mret a | _ => fault end.
Definition get_disk (p : Z) : M IO DISK_OBJECT :=
  d ← get_device p; match DeviceExtension d with DiskExtension a => mret a | _ => fault end.
Definition get_volume (p : Z) : M IO VOLUME :=
  d ← get_device p; match DeviceExtension d with VolumeExtension a => mret a | _ => fault end.
(** The mutex of a device as the thread with the request sees it: it is not recursive. *)
Definition lock_device (p : Z) : M IO unit :=
  locked ← gets io_locked;
  ASSERT (bool_decide (p ∉ locked));;
  modify (λ s, mkIo (io_devices s) ({[p]} ∪ io_locked s) (io_media s)).
Definition unlock_device (p : Z) : M IO unit :=
  locked ← gets io_locked;
  ASSERT (bool_decide (p ∈ locked));;
  modify (λ s, mkIo (io_devices s) (io_locked s ∖ {[p]}) (io_media s)).

(** * Requests *)
Definition IoGetCurrentIrpStackLocation (Irp : IRP) : M IO IO_STACK_LOCATION :=
  ASSERT (negb (MAX_BYTE =? CurrentStackLocation Irp));;
  from_option_fault (StackLocations Irp !! Z.to_nat (CurrentStackLocation Irp)).
Definition with_locations (l : list IO_STACK_LOCATION) (Irp : IRP) : IRP :=
  mkIrp (Buffer Irp) (OutputBuffer Irp) (IoStatus_Information Irp) (IoStatus_Status Irp) (Completed Irp)
    (Asynchronous Irp) (CurrentStackLocation Irp) l.
Definition with_current (i : Z) (Irp : IRP) : IRP :=
  mkIrp (Buffer Irp) (OutputBuffer Irp) (IoStatus_Information Irp) (IoStatus_Status Irp) (Completed Irp)
    (Asynchronous Irp) i (StackLocations Irp).
Definition with_buffer (b : option (list Z)) (Irp : IRP) : IRP :=
  mkIrp b (OutputBuffer Irp) (IoStatus_Information Irp) (IoStatus_Status Irp) (Completed Irp)
    (Asynchronous Irp) (CurrentStackLocation Irp) (StackLocations Irp).
Definition with_output (b : option OUTPUT) (Irp : IRP) : IRP :=
  mkIrp (Buffer Irp) b (IoStatus_Information Irp) (IoStatus_Status Irp) (Completed Irp)
    (Asynchronous Irp) (CurrentStackLocation Irp) (StackLocations Irp).
Definition with_status (status : Z) (Irp : IRP) : IRP :=
  mkIrp (Buffer Irp) (OutputBuffer Irp) (IoStatus_Information Irp) status (Completed Irp)
    (Asynchronous Irp) (CurrentStackLocation Irp) (StackLocations Irp).
Definition with_information (information : Z) (Irp : IRP) : IRP :=
  mkIrp (Buffer Irp) (OutputBuffer Irp) information (IoStatus_Status Irp) (Completed Irp)
    (Asynchronous Irp) (CurrentStackLocation Irp) (StackLocations Irp).
(** The next stack location is filled by [f]. *)
Definition set_next_location (f : IO_STACK_LOCATION → IO_STACK_LOCATION) (Irp : IRP) : M IO IRP :=
  ASSERT (negb (0 =? CurrentStackLocation Irp));;
  location ← from_option_fault (StackLocations Irp !! Z.to_nat (CurrentStackLocation Irp - 1));
  mret (with_locations (<[Z.to_nat (CurrentStackLocation Irp - 1) := f location]> (StackLocations Irp)) Irp).
Definition IoCopyCurrentStackLocationToNext (Irp : IRP) : M IO IRP :=
  location ← from_option_fault (StackLocations Irp !! Z.to_nat (CurrentStackLocation Irp));
  set_next_location (λ _, location) Irp.
Definition IoCompleteIrp (Irp : IRP) : M IO IRP :=
  ASSERT (negb (Completed Irp));;
  mret (mkIrp (Buffer Irp) (OutputBuffer Irp) (IoStatus_Information Irp) (IoStatus_Status Irp) true
    (Asynchronous Irp) (CurrentStackLocation Irp) (StackLocations Irp)).
Definition read_write_parameters (location : IO_STACK_LOCATION) : M IO (Z * Z) :=
  match Parameters_ location with ReadWrite length offset => mret (length, offset) | _ => fault end.
Definition device_control_parameters (location : IO_STACK_LOCATION) : M IO (Z * Z * Z) :=
  match Parameters_ location with DeviceControl code input output => mret (code, input, output) | _ => fault end.
Definition is_read_write (major : Z) : bool := (IRP_MJ_READ =? major) || (IRP_MJ_WRITE =? major).
Definition with_offset (offset : Z) (location : IO_STACK_LOCATION) : IO_STACK_LOCATION :=
  match Parameters_ location with
  | ReadWrite length _ => mkLocation (MajorFunction location) (ReadWrite length offset)
  | _ => location
  end.

Section Ops.
(** How many devices a request may go through; the transfer of sectors by the programming of the
    controller, with its device, the index and the number of the sectors, the buffer, whether to
    wait for an interrupt and whether to write, which returns the status and the buffer; the
    allocator. *)
Variable fuel : nat.
Variable AtaTransfer : Z → Z → Z → list Z → bool → bool → M IO (Z * list Z).
Variables (ExAllocatePoolWithTag : Z → Z → Z → Z → M IO Z) (ExFreePoolWithTag : Z → Z → M IO unit).

(** ** Ata/src/ata_dispatch.c *)
Definition _AtaCheckAlignment (Size Offset : Z) : Z :=
  if negb (IsAddressAligned Size SECTOR_SIZE) then STATUS_DEVICE_DATA_ALIGNMENT_ERROR else
  if negb (IsAddressAligned Offset SECTOR_SIZE) then STATUS_DEVICE_DATA_ALIGNMENT_ERROR else STATUS_SUCCESS.
Definition _AtaCheckIOParameters (Device : ATA_DEVICE) (SectorIndex SectorCount : Z) : Z :=
  if negb (Initialized Device) then STATUS_DEVICE_NOT_INITIALIZED else
  if TotalSectors Device <=? SectorIndex then STATUS_DEVICE_SECTOR_OFFSET_EXCEEDED else
  if LBA48_MAX_VALUE <=? SectorIndex then STATUS_DEVICE_SECTOR_OFFSET_EXCEEDED else
  if u64 (TotalSectors Device - SectorIndex) <? SectorCount then STATUS_DEVICE_SECTOR_COUNT_EXCEEDED else STATUS_SUCCESS.
(** The status, the number of sectors, which is set on success only, and the buffer. *)
Definition AtaReadWriteSectors (Device SectorIndex SectorCount : Z) (Buffer : option (list Z)) (Asynchronous WriteOperation : bool)
    : M IO (Z * Z * option (list Z)) :=
  if 0 =? SectorCount then mret (STATUS_INVALID_PARAMETER3, 0, Buffer) else
  match Buffer with
  | None => mret (STATUS_INVALID_PARAMETER4, 0, Buffer)
  | Some data =>
      '(status, data) ← AtaTransfer Device SectorIndex SectorCount data Asynchronous WriteOperation;
      if negb (SUCCEEDED status) then mret (status, 0, Some data) else mret (STATUS_SUCCESS, SectorCount, Some data)
  end.
Definition set_transfer_state (p : Z) (state : ATA_TRANSFER_STATE) : M IO ATA_TRANSFER_STATE :=
  a ← get_ata p;
  set_extension p (AtaExtension (mkAta (TotalSectors a) (Initialized a) state));;
  mret (TransferState a).
(** The body of the __try: the status, the sectors that were read and the buffer. *)
Definition ata_read_write (DeviceObject length offset : Z) (write : bool) (Irp : IRP) : M IO (Z * Z * option (list Z)) :=
  let status := _AtaCheckAlignment length offset in
  if negb (SUCCEEDED status) then mret (status, 0, Buffer Irp) else
  let sectorIndex := offset / SECTOR_SIZE in
  let sectorCount := length / SECTOR_SIZE in
  if MAX_WORD <? sectorCount then mret (STATUS_DEVICE_SECTOR_COUNT_EXCEEDED, 0, Buffer Irp) else
  pAtaDevice ← get_ata DeviceObject;
  let status := _AtaCheckIOParameters pAtaDevice sectorIndex (u16 sectorCount) in
  if negb (SUCCEEDED status) then mret (status, 0, Buffer Irp) else
  (** _InterlockedCompareExchange stores only when the state is the one that is compared with. *)
  ASSERT (bool_decide (TransferState pAtaDevice = AtaTransferStateFree));;
  set_transfer_state DeviceObject AtaTransferStateInProgress;;
  r ← AtaReadWriteSectors DeviceObject sectorIndex (u16 sectorCount) (Buffer Irp) (Asynchronous Irp) write;
  set_transfer_state DeviceObject AtaTransferStateFree;;
  mret r.
Definition AtaDispatchReadWrite (DeviceObject : Z) (Irp : IRP) : M IO (Z * IRP) :=
  pStackLocation ← IoGetCurrentIrpStackLocation Irp;
  ASSERT (is_read_write (MajorFunction pStackLocation));;
  '(length, offset) ← read_write_parameters pStackLocation;
  '(status, sectorsRead, data) ← ata_read_write DeviceObject length offset (IRP_MJ_WRITE =? MajorFunction pStackLocation) Irp;
  Irp ← IoCompleteIrp (with_information (sectorsRead * SECTOR_SIZE) (with_status status (with_buffer data Irp)));
  mret (STATUS_SUCCESS, Irp).
(** The end of the handlers of device control: the status and the information are set, and the
    output is copied where there is one. *)
Definition end_control (status information : Z) (output : option OUTPUT) (Irp : IRP) : IRP :=
  with_information information (with_status status (match output with Some o => with_output (Some o) Irp | None => Irp end)).
Definition AtaDispatchDeviceControl (DeviceObject : Z) (Irp : IRP) : M IO (Z * IRP) :=
  pStackLocation ← IoGetCurrentIrpStackLocation Irp;
  pAtaDevice ← get_ata DeviceObject;
  ASSERT (IRP_MJ_DEVICE_CONTROL =? MajorFunction pStackLocation);;
  '(code, _, outputLength) ← device_control_parameters pStackLocation;
  let '(status, information, output) :=
    if code =? IOCTL_DISK_GET_LENGTH_INFO then
      if outputLength <? sizeof_GET_LENGTH_INFORMATION then (STATUS_BUFFER_TOO_SMALL, sizeof_GET_LENGTH_INFORMATION, None)
      else (STATUS_SUCCESS, sizeof_GET_LENGTH_INFORMATION, Some (LengthInfo (u64 (TotalSectors pAtaDevice * SECTOR_SIZE))))
    else (STATUS_UNSUPPORTED, 0, None) in
  mret (STATUS_SUCCESS, end_control status information output Irp).

(** ** Disk/src/disk_dispatch.c *)
Definition DiskDispatchReadWrite (IoCallDriver : Z → IRP → M IO (Z * IRP)) (DeviceObject : Z) (Irp : IRP) : M IO (Z * IRP) :=
  pDiskObject ← get_disk DeviceObject;
  Irp ← IoCopyCurrentStackLocationToNext Irp;
  IoCallDriver (DiskDeviceController pDiskObject) Irp.
Definition DiskDispatchDeviceControl (DeviceObject : Z) (Irp : IRP) : M IO (Z * IRP) :=
  pStackLocation ← IoGetCurrentIrpStackLocation Irp;
  pDiskObject ← get_disk DeviceObject;
  ASSERT (IRP_MJ_DEVICE_CONTROL =? MajorFunction pStackLocation);;
  layout ← from_option_fault (DiskLayout pDiskObject);
  let information := u32 (sizeof_DISK_LAYOUT_INFORMATION + Z.of_nat (length layout) * sizeof_PARTITION_INFORMATION) in
  '(code, _, outputLength) ← device_control_parameters pStackLocation;
  let '(status, output) :=
    if code =? IOCTL_DISK_LAYOUT_INFO then
      if outputLength <? information then (STATUS_BUFFER_TOO_SMALL, None)
      else (STATUS_SUCCESS, Some (LayoutInfo layout))
    else (STATUS_UNSUPPORTED, None) in
  mret (STATUS_SUCCESS, end_control status information output Irp).

(** ** Volume/src/volume_dispatch.c *)
Definition _VolCheckIOParameters (Volume : VOLUME) (SectorIndex SectorCount : Z) : Z :=
  let size := PartitionSize (PartitionInformation Volume) in
  if size <=? SectorIndex then STATUS_DEVICE_SECTOR_OFFSET_EXCEEDED else
  if u64 (size - SectorIndex) <? SectorCount then STATUS_DEVICE_SECTOR_COUNT_EXCEEDED else STATUS_SUCCESS.
Definition VolDispatchReadWrite (IoCallDriver : Z → IRP → M IO (Z * IRP)) (DeviceObject : Z) (Irp : IRP) : M IO (Z * IRP) :=
  pVolume ← get_volume DeviceObject;
  pStackLocation ← IoGetCurrentIrpStackLocation Irp;
  ASSERT (is_read_write (MajorFunction pStackLocation));;
  '(length, offset) ← read_write_parameters pStackLocation;
  let lengthInSectors := length / SECTOR_SIZE in
  let offsetInSectors := offset / SECTOR_SIZE in
  let status := _VolCheckIOParameters pVolume offsetInSectors lengthInSectors in
  '(status, Irp) ← (if negb (SUCCEEDED status) then mret (status, Irp) else
    Irp ← IoCopyCurrentStackLocationToNext Irp;
    Irp ← set_next_location
      (with_offset (u64 (u64 (offsetInSectors + OffsetInDisk (PartitionInformation pVolume)) * SECTOR_SIZE))) Irp;
    IoCallDriver (DiskDevice pVolume) Irp);
  Irp ← (if negb (SUCCEEDED status) then IoCompleteIrp (with_status status Irp) else mret Irp);
  mret (STATUS_SUCCESS, Irp).
Definition VolDispatchDeviceControl (DeviceObject : Z) (Irp : IRP) : M IO (Z * IRP) :=
  pVolume ← get_volume DeviceObject;
  pStackLocation ← IoGetCurrentIrpStackLocation Irp;
  ASSERT (IRP_MJ_DEVICE_CONTROL =? MajorFunction pStackLocation);;
  '(code, _, outputLength) ← device_control_parameters pStackLocation;
  let '(status, information, output) :=
    if code =? IOCTL_VOLUME_PARTITION_INFO then
      if outputLength <? sizeof_PARTITION_INFORMATION then (STATUS_BUFFER_TOO_SMALL, sizeof_PARTITION_INFORMATION, None)
      else (STATUS_SUCCESS, sizeof_PARTITION_INFORMATION, Some (PartitionInfo (PartitionInformation pVolume)))
    else (STATUS_UNSUPPORTED, 0, None) in
  Irp ← IoCompleteIrp Irp;
  mret (STATUS_SUCCESS, end_control status information output Irp).

(** ** HAL9000/src/io_devices.c *)
Definition dispatch (IoCallDriver : Z → IRP → M IO (Z * IRP)) (f : PFUNC_DriverDispatch) : Z → IRP → M IO (Z * IRP) :=
  match f with
  | pAtaDispatchReadWrite => AtaDispatchReadWrite
  | pAtaDispatchDeviceControl => AtaDispatchDeviceControl
  | pDiskDispatchReadWrite => DiskDispatchReadWrite IoCallDriver
  | pDiskDispatchDeviceControl => DiskDispatchDeviceControl
  | pVolDispatchReadWrite => VolDispatchReadWrite IoCallDriver
  | pVolDispatchDeviceControl => VolDispatchDeviceControl
  end.
(** The check of the parameters of a read or write against the alignment of the device. *)
Definition alignment_satisfied (Device : DEVICE_OBJECT) (location : IO_STACK_LOCATION) : M IO bool :=
  if negb (is_read_write (MajorFunction location)) then mret true else
  '(length, offset) ← read_write_parameters location;
  if negb (IsAddressAligned length (DeviceAlignment Device)) then mret false else
  mret (IsAddressAligned offset (DeviceAlignment Device)).
Fixpoint IoCallDriver (fuel : nat) (Device : Z) (Irp : IRP) : M IO (Z * IRP) :=
  match fuel with
  | O => λ _, OutOfFuel
  | S fuel =>
      ASSERT (negb (0 =? CurrentStackLocation Irp));;
      let Irp := with_current (CurrentStackLocation Irp - 1) Irp in
      pStackLocation ← IoGetCurrentIrpStackLocation Irp;
      device ← get_device Device;
      aligned ← alignment_satisfied device pStackLocation;
      if negb aligned then mret (STATUS_DEVICE_ALIGNMENT_NO_SATISFIED, Irp) else
      '(status, Irp) ← (match DispatchFunctions device (MajorFunction pStackLocation) with
        | None => mret (STATUS_DEVICE_INVALID_OPERATION, Irp)
        | Some pDispatchFunction =>
            lock_device Device;;
            r ← dispatch (IoCallDriver fuel) pDispatchFunction Device Irp;
            unlock_device Device;;
            mret r
        end);
      mret (if negb (SUCCEEDED status) then status else STATUS_SUCCESS, Irp)
  end.
Definition HEAP_IRP_TAG : Z := 0x3A505249.
(** The sizes of an IRP and of a stack location *)
Definition sizeof_IRP : Z := 40.
Definition sizeof_IO_STACK_LOCATION : Z := 48.
(** The address, NULL when there is no memory, and the IRP, whose bytes are 0. *)
Definition IoAllocateIrp (StackSize : Z) : M IO (Z * IRP) :=
  ASSERT (0 <? StackSize);;
  p ← ExAllocatePoolWithTag PoolAllocateZeroMemory (u32 (sizeof_IRP + StackSize * sizeof_IO_STACK_LOCATION)) HEAP_IRP_TAG 0;
  mret (p, mkIrp None None 0 0 false false StackSize (replicate (Z.to_nat StackSize) (mkLocation 0 (ReadWrite 0 0)))).
Definition IoFreeIrp (p : Z) : M IO unit := ExFreePoolWithTag p HEAP_IRP_TAG.
(** [data] are the bytes at Buffer. The status, *Length and the bytes at Buffer. *)
Definition _IoReadWriteDevice (DeviceObject : Z) (data : list Z) (Length Offset : Z) (Write Async : bool)
    : M IO (Z * Z * list Z) :=
  device ← get_device DeviceObject;
  '(p, Irp) ← IoAllocateIrp (StackSize device);
  ASSERT (negb (p =? NULL));;
  Irp ← set_next_location (λ _, mkLocation (if Write : bool then IRP_MJ_WRITE else IRP_MJ_READ) (ReadWrite Length Offset))
    (mkIrp (Some data) (OutputBuffer Irp) (IoStatus_Information Irp) (IoStatus_Status Irp) (Completed Irp) Async
      (CurrentStackLocation Irp) (StackLocations Irp));
  '(status, Irp) ← IoCallDriver fuel DeviceObject Irp;
  data ← from_option_fault (Buffer Irp);
  IoFreeIrp p;;
  if negb (SUCCEEDED status) then mret (status, Length, data)
  else mret (IoStatus_Status Irp, IoStatus_Information Irp, data).
Definition IoReadDeviceEx (DeviceObject : Z) (data : list Z) (Length Offset : Z) (Async : bool) : M IO (Z * Z * list Z) :=
  _IoReadWriteDevice DeviceObject data Length Offset false Async.
Definition IoWriteDeviceEx (DeviceObject : Z) (data : list Z) (Length Offset : Z) (Async : bool) : M IO (Z * Z * list Z) :=
  _IoReadWriteDevice DeviceObject data Length Offset true Async.
Definition IoAttachDevice (SourceDevice TargetDevice : Z) : M IO unit :=
  source ← get_device SourceDevice;
  target ← get_device TargetDevice;
  ASSERT (AttachedDevice source =? NULL);;
  modify (λ s, mkIo (<[SourceDevice := mkDevice (DispatchFunctions source) (DeviceExtension source)
      (u8 (StackSize target + 1)) (DeviceAlignment source) TargetDevice]> (io_devices s)) (io_locked s) (io_media s)).
Definition IoBuildDeviceIoControlRequest (IoControlCode DeviceObject : Z) (InputBuffer : option (list Z)) (InputBufferLength : Z)
    (output : option OUTPUT) (OutputBufferLength : Z) : M IO (Z * IRP) :=
  device ← get_device DeviceObject;
  '(p, Irp) ← IoAllocateIrp (StackSize device);
  if p =? NULL then mret (p, Irp) else
  Irp ← set_next_location (λ _, mkLocation IRP_MJ_DEVICE_CONTROL (DeviceControl IoControlCode InputBufferLength OutputBufferLength)) Irp;
  mret (p, with_output output (with_buffer InputBuffer Irp)).
End Ops.
