(* ===== verification/IoSpec.v ===== *)
(** A request for sectors on its way from a volume over the disk to the controller, and back: the
    status, the buffer and the medium after it. *)
From S2P Require Import Prelude Memory Slices Heap Io.

#[local] Ltac Zify.zify_post_hook ::= Z.to_euclidean_division_equations.

Lemma aligned_sector x : 0 ≤ x < 2 ^ 64 → IsAddressAligned x 512 = (x mod 512 =? 0).
Proof. intros Hx. apply (IsAddressAligned_pow2 9); lia. Qed.

Definition with_medium (a : Z) (m : BYTES) (s : IO) : IO := mkIo (io_devices s) (io_locked s) (<[a := m]> (io_media s)).

(** * Locks *)
Definition with_lock (p : Z) (s : IO) : IO := mkIo (io_devices s) ({[p]} ∪ io_locked s) (io_media s).
Lemma lock_device_run p s : p ∉ io_locked s → lock_device p s = Ret (tt, with_lock p s).
Proof.
  intros Hp. unfold lock_device. erewrite bind_Ret by reflexivity. cbn beta.
  massert ltac:(by apply bool_decide_eq_true). done.
Qed.
Lemma unlock_device_run p s devs media : 
  p ∉ io_locked s → unlock_device p (mkIo devs ({[p]} ∪ io_locked s) media) = Ret (tt, mkIo devs (io_locked s) media).
Proof.
  intros Hp. unfold unlock_device. erewrite bind_Ret by reflexivity. cbn beta. cbn [io_locked].
  massert ltac:(apply bool_decide_eq_true; set_solver). unfold modify. do 3 f_equal. cbn. set_solver.
Qed.

(** * What the drivers rely on: the controller transfers the sectors it is asked for, without an
    interrupt, and there is memory for a request *)
Definition reads_sectors (AtaTransfer : Z → Z → Z → list Z → bool → bool → M IO (Z * list Z)) : Prop :=
  ∀ s a m i n data,
  io_media s !! a = Some m → 0 ≤ i < LBA48_MAX_VALUE → 0 < n ≤ 65535 → mapped m (512 * i) (512 * n) → length data = Z.to_nat (512 * n) →
  AtaTransfer a i n data false false s = Ret ((STATUS_SUCCESS, bytes_from m (512 * i) (Z.to_nat (512 * n))), s).
Definition writes_sectors (AtaTransfer : Z → Z → Z → list Z → bool → bool → M IO (Z * list Z)) : Prop :=
  ∀ s a m i n data,
  io_media s !! a = Some m → 0 ≤ i < LBA48_MAX_VALUE → 0 < n ≤ 65535 → mapped m (512 * i) (512 * n) → length data = Z.to_nat (512 * n) →
  AtaTransfer a i n data false true s = Ret ((STATUS_SUCCESS, data), with_medium a (store m (512 * i) data) s).
Definition allocates (ExAllocatePoolWithTag : Z → Z → Z → Z → M IO Z) : Prop :=
  ∀ s flags n tag align, ∃ p, ExAllocatePoolWithTag flags n tag align s = Ret (p, s) ∧ p ≠ NULL.
Definition frees (ExFreePoolWithTag : Z → Z → M IO unit) : Prop := ∀ s p tag, ExFreePoolWithTag p tag s = Ret (tt, s).

Section Stack.
Variable AtaTransfer : Z → Z → Z → list Z → bool → bool → M IO (Z * list Z).
Variables (ExAllocatePoolWithTag : Z → Z → Z → Z → M IO Z) (ExFreePoolWithTag : Z → Z → M IO unit).
Abbreviation IoCallDriver := (Io.IoCallDriver AtaTransfer).
Hypothesis Hread : reads_sectors AtaTransfer.
Hypothesis Hwrite : writes_sectors AtaTransfer.
Hypothesis Halloc : allocates ExAllocatePoolWithTag.
Hypothesis Hfree : frees ExFreePoolWithTag.

(** A disk [d] behind a controller [a] with [total] sectors: no request is under way. *)
Record disk_stack (s : IO) (d a total : Z) (m : BYTES) : Prop := {
  ds_disk : ∃ n layout attached, io_devices s !! d
    = Some (mkDevice DiskDriverEntry_DispatchFunctions (DiskExtension (mkDisk n a layout)) 2 512 attached);
  ds_ata : ∃ attached, io_devices s !! a
    = Some (mkDevice AtaDriverEntry_DispatchFunctions (AtaExtension (mkAta total true AtaTransferStateFree)) 1 512 attached);
  ds_free : (d ∉ io_locked s) ∧ (a ∉ io_locked s);
  ds_distinct : d ≠ a;
  ds_medium : io_media s !! a = Some m ∧ mapped m 0 (512 * total);
  ds_total : 0 ≤ total < 2 ^ 64
}.
(** A partition as the table of partitions describes it: its offset and its size are DWORDs. *)
Definition partition_ok (part : PARTITION_INFORMATION) : Prop :=
  (0 ≤ OffsetInDisk part < 2 ^ 32) ∧ (0 ≤ PartitionSize part < 2 ^ 32).
(** A volume [v] on a partition of the disk. *)
Record volume_stack (s : IO) (v d a : Z) (part : PARTITION_INFORMATION) (total : Z) (m : BYTES) : Prop := {
  vs_disk : disk_stack s d a total m;
  vs_volume : ∃ attached, io_devices s !! v
    = Some (mkDevice VolDriverEntry_DispatchFunctions (VolumeExtension (mkVolume d part)) 3 512 attached);
  vs_free : v ∉ io_locked s;
  vs_distinct : v ≠ d ∧ v ≠ a;
  vs_partition : partition_ok part
}.

(** ** The controller *)
(** What the controller answers to a request for [n] sectors from [i] on. *)
Definition ata_status (total i n : Z) : Z :=
  if 65535 <? n then STATUS_DEVICE_SECTOR_COUNT_EXCEEDED else
  if total <=? i then STATUS_DEVICE_SECTOR_OFFSET_EXCEEDED else
  if LBA48_MAX_VALUE <=? i then STATUS_DEVICE_SECTOR_OFFSET_EXCEEDED else
  if total - i <? n then STATUS_DEVICE_SECTOR_COUNT_EXCEEDED else
  if 0 =? n then STATUS_INVALID_PARAMETER3 else STATUS_SUCCESS.
Definition major_of (write : bool) : Z := if write then IRP_MJ_WRITE else IRP_MJ_READ.
(** The media, the buffer and IoStatus.Information after a request with the status [st]. *)
Definition media_after (st a i : Z) (m : BYTES) (write : bool) (data : list Z) (media : gmap Z BYTES) : gmap Z BYTES :=
  if write && SUCCEEDED st then <[a := store m (512 * i) data]> media else media.
Definition buffer_after (st i n : Z) (m : BYTES) (write : bool) (data : list Z) : list Z :=
  if negb write && SUCCEEDED st then bytes_from m (512 * i) (Z.to_nat (512 * n)) else data.
Definition information_of (st n : Z) : Z := if SUCCEEDED st then 512 * n else 0.

Lemma set_transfer_state_run s a attached total init st st' media :
  io_devices s !! a = Some (mkDevice AtaDriverEntry_DispatchFunctions (AtaExtension (mkAta total init st)) 1 512 attached) →
  set_transfer_state a st' (mkIo (io_devices s) (io_locked s) media)
  = Ret (st, mkIo (<[a := mkDevice AtaDriverEntry_DispatchFunctions (AtaExtension (mkAta total init st')) 1 512 attached]>
      (io_devices s)) (io_locked s) media).
Proof using.
  intros Ha. unfold set_transfer_state, get_ata, set_extension, get_device.
  munfold. cbn. rewrite Ha. cbn. rewrite Ha. done.
Qed.
Lemma ata_read_write_run s a attached total m i n write irp data :
  io_devices s !! a = Some (mkDevice AtaDriverEntry_DispatchFunctions (AtaExtension (mkAta total true AtaTransferStateFree)) 1 512 attached) →
  io_media s !! a = Some m → mapped m 0 (512 * total) → 0 ≤ total < 2 ^ 64 →
  Buffer irp = Some data → Asynchronous irp = false → length data = Z.to_nat (512 * n) →
  0 ≤ i → 512 * i < 2 ^ 64 → 0 ≤ n → 512 * n < 2 ^ 64 →
  ata_read_write AtaTransfer a (512 * n) (512 * i) write irp s
  = Ret ((ata_status total i n, if SUCCEEDED (ata_status total i n) then n else 0,
          Some (buffer_after (ata_status total i n) i n m write data)),
         mkIo (io_devices s) (io_locked s) (media_after (ata_status total i n) a i m write data (io_media s))).
Proof using Hread Hwrite.
  intros Ha Hm Hmap Htot Hbuf Has Hlen Hi Hi' Hn Hn'.
  assert (Hs : s = mkIo (io_devices s) (io_locked s) (io_media s)) by by destruct s.
  assert (Hfail : ∀ st, SUCCEEDED st = false →
    Ret ((st, 0, Buffer irp), s) = Ret ((st, if SUCCEEDED st then n else 0, Some (buffer_after st i n m write data)),
      mkIo (io_devices s) (io_locked s) (media_after st a i m write data (io_media s)))).
  { intros st Hst. unfold buffer_after, media_after. by rewrite Hst, !andb_false_r, Hbuf, <-Hs. }
  unfold ata_read_write, _AtaCheckAlignment, SECTOR_SIZE. rewrite !aligned_sector by lia.
  rewrite (proj2 (Z.eqb_eq ((512 * n) mod 512) 0)), (proj2 (Z.eqb_eq ((512 * i) mod 512) 0)) by lia. cbn [negb].
  change (SUCCEEDED STATUS_SUCCESS) with true. cbn [negb].
  replace (512 * i / 512) with i by lia. replace (512 * n / 512) with n by lia. unfold MAX_WORD.
  change 0xFFFF with 65535. unfold ata_status.
  destruct (Z.ltb_spec 65535 n) as [Hbig|Hsmall]; [by apply Hfail|].
  assert (Hget : get_ata a s = Ret (mkAta total true AtaTransferStateFree, s)).
  { unfold get_ata, get_device. munfold. cbn. by rewrite Ha. }
  mrun Hget. unfold _AtaCheckIOParameters. cbn [Initialized TotalSectors negb].
  destruct (Z.leb_spec total i) as [Hout|Hin]; [by apply Hfail|].
  destruct (Z.leb_spec LBA48_MAX_VALUE i) as [Hlba|Hlba]; [by apply Hfail|].
  rewrite u64_id, u16_id by lia.
  destruct (Z.ltb_spec (total - i) n) as [Hcut|Hfit]; [by apply Hfail|].
  change (SUCCEEDED STATUS_SUCCESS) with true. cbn [negb]. massert ltac:(by apply bool_decide_eq_true).
  set (dev st := mkDevice AtaDriverEntry_DispatchFunctions (AtaExtension (mkAta total true st)) 1 512 attached) in *.
  pose proof (set_transfer_state_run s a attached total true _ AtaTransferStateInProgress (io_media s) Ha) as H1.
  rewrite <-Hs in H1. mrun H1. fold (dev AtaTransferStateInProgress).
  set (s1 := mkIo (<[a := dev AtaTransferStateInProgress]> (io_devices s)) (io_locked s) (io_media s)).
  assert (Hback : ∀ media, set_transfer_state a AtaTransferStateFree (mkIo (io_devices s1) (io_locked s1) media)
    = Ret (AtaTransferStateInProgress, mkIo (io_devices s) (io_locked s) media)).
  { intros media. rewrite (set_transfer_state_run s1 a attached total true AtaTransferStateInProgress) by apply lookup_insert_eq.
    fold (dev AtaTransferStateFree). cbn. rewrite insert_insert_eq, insert_id by done. done. }
  unfold AtaReadWriteSectors. destruct (Z.eqb_spec 0 n) as [Hz|Hz].
  { erewrite bind_Ret by reflexivity. mrun (Hback (io_media s1)). cbn. rewrite <-Hs. by apply Hfail. }
  rewrite Hbuf. unfold buffer_after, media_after. change (SUCCEEDED STATUS_SUCCESS) with true. rewrite !andb_true_r, Has.
  assert (Hmi : mapped m (512 * i) (512 * n)) by (intros q Hq; apply Hmap; lia).
  destruct write; cbn [negb].
  - erewrite bind_Ret; [|mrun (Hwrite s1 a m i n data Hm (conj Hi Hlba) ltac:(lia) Hmi Hlen); reflexivity].
    unfold with_medium. mrun (Hback (<[a := store m (512 * i) data]> (io_media s1))). done.
  - erewrite bind_Ret; [|mrun (Hread s1 a m i n data Hm (conj Hi Hlba) ltac:(lia) Hmi Hlen); reflexivity].
    mrun (Hback (io_media s1)). cbn. by rewrite <-Hs.
Qed.

(** ** Through the stack *)
Lemma is_read_write_major write : is_read_write (major_of write) = true.
Proof using. by destruct write. Qed.
Lemma is_write_major write : (IRP_MJ_WRITE =? major_of write) = write.
Proof using. by destruct write. Qed.
(** What IoCallDriver does before and after the handler of a device. *)
Lemma call_device f p dev fn write len off data out info st async k ls s devs media r :
  io_devices s !! p = Some dev → DispatchFunctions dev (major_of write) = Some fn → DeviceAlignment dev = 512 →
  p ∉ io_locked s → 0 ≤ k < MAX_BYTE → ls !! Z.to_nat k = Some (mkLocation (major_of write) (ReadWrite len off)) →
  0 ≤ len < 2 ^ 64 → 0 ≤ off < 2 ^ 64 → len mod 512 = 0 → off mod 512 = 0 →
  dispatch AtaTransfer (IoCallDriver f) fn p (mkIrp (Some data) out info st false async k ls) (with_lock p s)
  = Ret ((STATUS_SUCCESS, r), mkIo devs ({[p]} ∪ io_locked s) media) →
  IoCallDriver (S f) p (mkIrp (Some data) out info st false async (k + 1) ls) s
  = Ret ((STATUS_SUCCESS, r), mkIo devs (io_locked s) media).
Proof using.
  intros Hp Hfn Hal Hlock Hk Hls Hlen Hoff Hml Hmo Hd. cbn [Io.IoCallDriver]. cbn [CurrentStackLocation].
  massert ltac:(apply negb_true_iff, Z.eqb_neq; lia). unfold with_current. cbn [Buffer OutputBuffer IoStatus_Information
    IoStatus_Status Completed Asynchronous CurrentStackLocation StackLocations]. replace (k + 1 - 1) with k by lia.
  assert (Hcur : IoGetCurrentIrpStackLocation (mkIrp (Some data) out info st false async k ls) s
    = Ret (mkLocation (major_of write) (ReadWrite len off), s)).
  { unfold IoGetCurrentIrpStackLocation. cbn [CurrentStackLocation StackLocations].
    massert ltac:(apply negb_true_iff, Z.eqb_neq; lia). by rewrite Hls. }
  mrun Hcur. assert (Hget : get_device p s = Ret (dev, s)) by (unfold get_device; munfold; cbn; by rewrite Hp).
  mrun Hget. assert (Haln : alignment_satisfied dev (mkLocation (major_of write) (ReadWrite len off)) s = Ret (true, s)).
  { unfold alignment_satisfied. cbn [MajorFunction]. rewrite is_read_write_major. cbn [negb].
    unfold read_write_parameters. cbn [Parameters_]. erewrite bind_Ret by reflexivity. cbn beta iota.
    rewrite Hal, !aligned_sector by done.
    by rewrite (proj2 (Z.eqb_eq _ _) Hml), (proj2 (Z.eqb_eq _ _) Hmo). }
  mrun Haln. cbn [negb MajorFunction]. rewrite Hfn. rewrite bind_assoc. mrun (lock_device_run p s Hlock).
  rewrite bind_assoc. mrun Hd. rewrite bind_assoc. mrun (unlock_device_run p s devs media Hlock). done.
Qed.
Abbreviation sectors_at write n i := (mkLocation (major_of write) (ReadWrite (512 * n) (512 * i))).
Section Run.
Variables (d a total : Z) (m : BYTES) (s0 : IO).
Hypothesis Hstack : disk_stack s0 d a total m.
(** The locks of the devices above are held while a request is on its way. *)
Abbreviation locked l := (mkIo (io_devices s0) (l ∪ io_locked s0) (io_media s0)).
Abbreviation done_ l st i write data := (mkIo (io_devices s0) (l ∪ io_locked s0) (media_after st a i m write data (io_media s0))).
Lemma ata_dispatch_run L out info st ls i n write data :
  0 ≤ i → 512 * i < 2 ^ 64 → 0 ≤ n → 512 * n < 2 ^ 64 → length data = Z.to_nat (512 * n) →
  AtaDispatchReadWrite AtaTransfer a (mkIrp (Some data) out info st false false 0 (sectors_at write n i :: ls)) (locked L)
  = Ret ((STATUS_SUCCESS, mkIrp (Some (buffer_after (ata_status total i n) i n m write data)) out
      (information_of (ata_status total i n) n) (ata_status total i n) true false 0 (sectors_at write n i :: ls)),
      done_ L (ata_status total i n) i write data).
Proof using Hread Hwrite Hstack.
  intros Hi Hi' Hn Hn' Hlen. destruct Hstack as [_ (attached & Ha) _ _ (Hm & Hmap) Htot].
  unfold AtaDispatchReadWrite. set (irp := mkIrp _ _ _ _ _ _ _ _).
  assert (Hcur : IoGetCurrentIrpStackLocation irp (locked L) = Ret (sectors_at write n i, locked L)) by done.
  mrun Hcur. massert ltac:(apply is_read_write_major). cbn [Parameters_ read_write_parameters MajorFunction].
  erewrite bind_Ret by reflexivity. cbn beta iota. rewrite is_write_major.
  mrun (ata_read_write_run (locked L) a attached total m i n write irp data Ha Hm Hmap Htot eq_refl eq_refl Hlen Hi Hi' Hn Hn').
  erewrite bind_Ret by (unfold IoCompleteIrp; massert ltac:(done); reflexivity). unfold mret, M_ret. do 3 f_equal.
  unfold irp, information_of, with_information, with_status, with_buffer, SECTOR_SIZE. cbn.
  f_equal. destruct (SUCCEEDED (ata_status total i n)); lia.
Qed.
Lemma disk_dispatch_run f L out info st l0 ls i n write data :
  a ∉ L → 0 ≤ i → 512 * i < 2 ^ 64 → 0 ≤ n → 512 * n < 2 ^ 64 → length data = Z.to_nat (512 * n) →
  DiskDispatchReadWrite (IoCallDriver (S f)) d
    (mkIrp (Some data) out info st false false 1 (l0 :: sectors_at write n i :: ls)) (locked L)
  = Ret ((STATUS_SUCCESS, mkIrp (Some (buffer_after (ata_status total i n) i n m write data)) out
      (information_of (ata_status total i n) n) (ata_status total i n) true false 0
      (sectors_at write n i :: sectors_at write n i :: ls)), done_ L (ata_status total i n) i write data).
Proof using Hread Hwrite Hstack.
  intros HL Hi Hi' Hn Hn' Hlen. pose proof Hstack as [(nn & lay & att & Hd) (attached & Ha) (_ & Hfa) _ _ _].
  unfold DiskDispatchReadWrite.
  assert (Hget : get_disk d (locked L) = Ret (mkDisk nn a lay, locked L)).
  { unfold get_disk, get_device. munfold. cbn. by rewrite Hd. }
  mrun Hget. unfold IoCopyCurrentStackLocationToNext, set_next_location. cbn [CurrentStackLocation StackLocations].
  erewrite bind_Ret.
  2: { erewrite bind_Ret by reflexivity. cbn beta. massert ltac:(done). erewrite bind_Ret by reflexivity. reflexivity. }
  cbn beta. cbn [DiskDeviceController].
  refine (call_device f a _ pAtaDispatchReadWrite write (512 * n) (512 * i) data out info st false 0
    (sectors_at write n i :: sectors_at write n i :: ls) (locked L) (io_devices s0)
    (media_after (ata_status total i n) a i m write data (io_media s0)) _ Ha _ _ _ _ _ _ _ _ _ _); try done; try lia.
  - by destruct write.
  - by apply not_elem_of_union.
  - unfold with_lock, dispatch. cbn [io_devices io_locked io_media]. rewrite !assoc_L by apply _.
    by apply ata_dispatch_run.
Qed.
Lemma disk_call_run f L out info st l0 ls i n write data :
  d ∉ L → a ∉ L → 0 ≤ i → 512 * i < 2 ^ 64 → 0 ≤ n → 512 * n < 2 ^ 64 → length data = Z.to_nat (512 * n) →
  IoCallDriver (S (S f)) d (mkIrp (Some data) out info st false false 2 (l0 :: sectors_at write n i :: ls)) (locked L)
  = Ret ((STATUS_SUCCESS, mkIrp (Some (buffer_after (ata_status total i n) i n m write data)) out
      (information_of (ata_status total i n) n) (ata_status total i n) true false 0
      (sectors_at write n i :: sectors_at write n i :: ls)), done_ L (ata_status total i n) i write data).
Proof using Hread Hwrite Hstack.
  intros HdL HaL Hi Hi' Hn Hn' Hlen. pose proof Hstack as [(nn & lay & att & Hd) _ (Hfd & _) Hda _ _].
  refine (call_device (S f) d _ pDiskDispatchReadWrite write (512 * n) (512 * i) data out info st false 1
    (l0 :: sectors_at write n i :: ls) (locked L) (io_devices s0)
    (media_after (ata_status total i n) a i m write data (io_media s0)) _ Hd _ _ _ _ _ _ _ _ _ _); try done; try lia.
  - by destruct write.
  - by apply not_elem_of_union.
  - unfold with_lock, dispatch. cbn [io_devices io_locked io_media]. rewrite !assoc_L by apply _.
    apply disk_dispatch_run; try done. apply not_elem_of_union. split; [by apply not_elem_of_singleton|done].
Qed.
End Run.

(** ** Volumes *)
(** What a volume answers to a request for [n] of its sectors from [i] on. *)
Definition volume_status (part : PARTITION_INFORMATION) (total i n : Z) : Z :=
  if PartitionSize part <=? i then STATUS_DEVICE_SECTOR_OFFSET_EXCEEDED else
  if PartitionSize part - i <? n then STATUS_DEVICE_SECTOR_COUNT_EXCEEDED else
  ata_status total (OffsetInDisk part + i) n.
Section Volume.
Variables (v d a : Z) (part : PARTITION_INFORMATION) (total : Z) (m : BYTES) (s0 : IO).
Hypothesis Hstack : volume_stack s0 v d a part total m.
Abbreviation outcome st i write data := (mkIo (io_devices s0) (io_locked s0) (media_after st a i m write data (io_media s0))).
Abbreviation irp_at_volume l0 l1 i n write data :=
  (mkIrp (Some data) None 0 0 false false 2 [l0; l1; sectors_at write n i]).
(** What the volume, its disk and the controller have made of a request and of the state. *)
Definition answered (st i n : Z) (write : bool) (data : list Z) (irp : IRP) : Prop :=
  Buffer irp = Some (buffer_after st (OffsetInDisk part + i) n m write data) ∧ IoStatus_Status irp = st
  ∧ IoStatus_Information irp = information_of st n.
Lemma vol_refuses e l0 l1 i n write data :
  SUCCEEDED e = false → ∃ irp, answered e i n write data irp
    ∧ (Irp ← IoCompleteIrp (with_status e (irp_at_volume l0 l1 i n write data)); mret (STATUS_SUCCESS, Irp)) (with_lock v s0)
      = Ret ((STATUS_SUCCESS, irp), mkIo (io_devices s0) ({[v]} ∪ io_locked s0)
          (media_after e a (OffsetInDisk part + i) m write data (io_media s0))).
Proof using.
  intros He. eexists. split; cycle 1.
  - erewrite bind_Ret by (unfold IoCompleteIrp; massert ltac:(done); reflexivity).
    unfold media_after. rewrite He, andb_false_r. reflexivity.
  - unfold answered, buffer_after, information_of. by rewrite He, andb_false_r.
Qed.
(** The stack locations that the volume fills for its disk. *)
Lemma vol_copies l0 l1 i n write data o s :
  (Irp ← IoCopyCurrentStackLocationToNext (irp_at_volume l0 l1 i n write data); set_next_location (with_offset (512 * o)) Irp) s
  = Ret (mkIrp (Some data) None 0 0 false false 2 [l0; sectors_at write n o; sectors_at write n i], s).
Proof using.
  erewrite bind_Ret.
  2: { unfold IoCopyCurrentStackLocationToNext, set_next_location. cbn [CurrentStackLocation StackLocations].
       erewrite bind_Ret by reflexivity. cbn beta. massert ltac:(done). erewrite bind_Ret by reflexivity. reflexivity. }
  cbn beta. unfold set_next_location. cbn [CurrentStackLocation StackLocations with_locations]. massert ltac:(done).
  erewrite bind_Ret by reflexivity. done.
Qed.
Lemma vol_dispatch_run f l0 l1 i n write data :
  0 ≤ i → 512 * i < 2 ^ 64 → 0 ≤ n → 512 * n < 2 ^ 64 → length data = Z.to_nat (512 * n) →
  let st := volume_status part total i n in
  ∃ irp, answered st i n write data irp
    ∧ VolDispatchReadWrite (IoCallDriver (S (S f))) v (irp_at_volume l0 l1 i n write data) (with_lock v s0)
      = Ret ((STATUS_SUCCESS, irp), mkIo (io_devices s0) ({[v]} ∪ io_locked s0)
          (media_after st a (OffsetInDisk part + i) m write data (io_media s0))).
Proof using Hread Hwrite Hstack.
  intros Hi Hi' Hn Hn' Hlen st. pose proof Hstack as [Hds (att & Hv) _ [Hvd Hva] [Hoff Hsize]].
  assert (Hget : get_volume v (with_lock v s0) = Ret (mkVolume d part, with_lock v s0)).
  { unfold get_volume, get_device. munfold. cbn. by rewrite Hv. }
  unfold VolDispatchReadWrite. erewrite bind_Ret by exact Hget. cbn beta.
  erewrite (bind_Ret (IoGetCurrentIrpStackLocation _)) by reflexivity. cbn beta. cbn [MajorFunction]. rewrite is_read_write_major.
  erewrite bind_Ret by reflexivity. cbn beta. cbn [Parameters_ read_write_parameters].
  erewrite bind_Ret by reflexivity. cbn beta iota. unfold SECTOR_SIZE.
  replace (512 * i / 512) with i by lia. replace (512 * n / 512) with n by lia.
  unfold _VolCheckIOParameters. cbn [PartitionInformation DiskDevice].
  unfold volume_status in st. destruct (Z.leb_spec (PartitionSize part) i) as [Hout|Hin]; [by apply vol_refuses|].
  rewrite u64_id by lia. destruct (Z.ltb_spec (PartitionSize part - i) n) as [Hcut|Hfit]; [by apply vol_refuses|].
  eexists. split; cycle 1.
  - change (SUCCEEDED STATUS_SUCCESS) with true. cbn [negb].
    rewrite (u64_id (i + OffsetInDisk part)), (u64_id ((i + OffsetInDisk part) * 512)) by lia.
    replace ((i + OffsetInDisk part) * 512) with (512 * (OffsetInDisk part + i)) by lia.
    erewrite bind_Ret; [|rewrite <-bind_assoc; erewrite bind_Ret by apply vol_copies;
      apply (disk_call_run d a total m s0 Hds f {[v]} None 0 0 l0 [sectors_at write n i]
        (OffsetInDisk part + i) n write data); [by apply not_elem_of_singleton..|lia|lia|lia|lia|done]].
    cbn beta iota. change (SUCCEEDED STATUS_SUCCESS) with true. cbn [negb].
    erewrite bind_Ret by reflexivity. reflexivity.
  - done.
Qed.
Lemma volume_call_run f l0 l1 i n write data :
  0 ≤ i → 512 * i < 2 ^ 64 → 0 ≤ n → 512 * n < 2 ^ 64 → length data = Z.to_nat (512 * n) →
  let st := volume_status part total i n in
  ∃ irp, answered st i n write data irp
    ∧ IoCallDriver (S (S (S f))) v (mkIrp (Some data) None 0 0 false false 3 [l0; l1; sectors_at write n i]) s0
      = Ret ((STATUS_SUCCESS, irp), outcome st (OffsetInDisk part + i) write data).
Proof using Hread Hwrite Hstack.
  intros Hi Hi' Hn Hn' Hlen st. pose proof Hstack as [_ (att & Hv) Hfv _ _].
  destruct (vol_dispatch_run f l0 l1 i n write data Hi Hi' Hn Hn' Hlen) as (irp & Hirp & Hrun).
  exists irp. split; [done|].
  refine (call_device (S (S f)) v _ pVolDispatchReadWrite write (512 * n) (512 * i) data None 0 0 false 2
    [l0; l1; sectors_at write n i] s0 (io_devices s0) _ irp Hv _ _ _ _ _ _ _ _ _ _); try done; try lia.
  by destruct write.
Qed.

(** ** IoReadDeviceEx and IoWriteDeviceEx on a volume *)
(** The status of a request for [len] bytes at [off]. *)
Definition request_status (len off : Z) : Z :=
  if (len mod 512 =? 0) && (off mod 512 =? 0) then volume_status part total (off / 512) (len / 512)
  else STATUS_DEVICE_ALIGNMENT_NO_SATISFIED.
(** The length that the caller gets back: it stays as it is only when the request does not reach
    a handler. *)
Definition request_length (len off : Z) : Z :=
  if (len mod 512 =? 0) && (off mod 512 =? 0) && negb (SUCCEEDED (request_status len off)) then 0 else len.
Lemma aligned_status len off :
  len mod 512 = 0 → off mod 512 = 0 → request_status len off = volume_status part total (off / 512) (len / 512).
Proof using. intros H1 H2. unfold request_status. by rewrite (proj2 (Z.eqb_eq _ _) H1), (proj2 (Z.eqb_eq _ _) H2). Qed.
Lemma volume_call_unaligned f l0 l1 len off write data :
  0 ≤ len < 2 ^ 64 → 0 ≤ off < 2 ^ 64 → (len mod 512 =? 0) && (off mod 512 =? 0) = false →
  IoCallDriver (S f) v (mkIrp (Some data) None 0 0 false false 3 [l0; l1; mkLocation (major_of write) (ReadWrite len off)]) s0
  = Ret ((STATUS_DEVICE_ALIGNMENT_NO_SATISFIED,
      mkIrp (Some data) None 0 0 false false 2 [l0; l1; mkLocation (major_of write) (ReadWrite len off)]), s0).
Proof using Hstack.
  intros Hlen Hoff Hal. destruct Hstack as [_ (att & Hv) _ _ _]. cbn [Io.IoCallDriver]. massert ltac:(done).
  cbn [CurrentStackLocation]. erewrite bind_Ret by reflexivity. cbn beta. change (3 - 1) with 2.
  assert (Hget : get_device v s0 = Ret (mkDevice VolDriverEntry_DispatchFunctions (VolumeExtension (mkVolume d part)) 3 512 att, s0))
    by (unfold get_device; munfold; cbn; by rewrite Hv).
  mrun Hget. rewrite (bind_Ret _ _ _ false s0); [done|]. unfold alignment_satisfied. cbn [MajorFunction].
  rewrite is_read_write_major. cbn [negb]. unfold read_write_parameters. cbn [Parameters_].
  erewrite bind_Ret by reflexivity. cbn beta iota. cbn [DeviceAlignment]. rewrite !aligned_sector by done.
  destruct (len mod 512 =? 0); cbn in Hal |- *; [by rewrite Hal|done].
Qed.
Lemma io_read_write_run f len off write data :
  0 ≤ len < 2 ^ 64 → 0 ≤ off < 2 ^ 64 → Z.of_nat (length data) = len →
  let st := request_status len off in
  _IoReadWriteDevice (S (S (S f))) AtaTransfer ExAllocatePoolWithTag ExFreePoolWithTag v data len off write false s0
  = Ret ((st, request_length len off, if negb write && SUCCEEDED st then bytes_from m (512 * OffsetInDisk part + off) (Z.to_nat len) else data),
      if write && SUCCEEDED st then with_medium a (store m (512 * OffsetInDisk part + off) data) s0 else s0).
Proof using Hread Hwrite Halloc Hfree Hstack.
  intros Hlen Hoff Hdata st. pose proof Hstack as [_ (att & Hv) _ _ _]. unfold _IoReadWriteDevice.
  assert (Hget : get_device v s0 = Ret (mkDevice VolDriverEntry_DispatchFunctions (VolumeExtension (mkVolume d part)) 3 512 att, s0))
    by (unfold get_device; munfold; cbn; by rewrite Hv).
  mrun Hget. cbn [StackSize]. unfold IoAllocateIrp.
  destruct (Halloc s0 PoolAllocateZeroMemory (u32 (sizeof_IRP + 3 * sizeof_IO_STACK_LOCATION)) HEAP_IRP_TAG 0) as (p & Hp & Hnull).
  erewrite bind_Ret; [|massert ltac:(done); mrun Hp; reflexivity]. cbn beta iota.
  massert ltac:(by apply negb_true_iff, Z.eqb_neq).
  erewrite bind_Ret; [|unfold set_next_location; massert ltac:(done); cbn [StackLocations CurrentStackLocation];
    erewrite bind_Ret by reflexivity; reflexivity]. cbn beta. unfold with_locations.
  cbn [Buffer OutputBuffer IoStatus_Information IoStatus_Status Completed Asynchronous CurrentStackLocation StackLocations].
  set (l := mkLocation 0 (ReadWrite 0 0)).
  change (<[Z.to_nat (3 - 1) := ?x]> (replicate (Z.to_nat 3) l)) with [l; l; x].
  change (if write then IRP_MJ_WRITE else IRP_MJ_READ) with (major_of write).
  unfold request_length, st.
  destruct ((len mod 512 =? 0) && (off mod 512 =? 0)) eqn:Hal.
  - apply andb_true_iff in Hal as [H1%Z.eqb_eq H2%Z.eqb_eq]. rewrite (aligned_status len off H1 H2).
    set (i := off / 512). set (n := len / 512).
    assert (Hi : off = 512 * i) by lia. assert (Hn : len = 512 * n) by lia. rewrite Hi, Hn in *.
    destruct (volume_call_run f l l i n write data ltac:(lia) ltac:(lia) ltac:(lia) ltac:(lia) ltac:(lia))
      as (irp & (Hb & Hst & Hinf) & Hrun).
    mrun Hrun. rewrite Hb. erewrite bind_Ret by reflexivity. cbn beta. unfold IoFreeIrp. erewrite bind_Ret by apply Hfree. cbn beta.
    change (SUCCEEDED STATUS_SUCCESS) with true. cbn [negb]. rewrite Hst, Hinf.
    unfold buffer_after, media_after, information_of, with_medium.
    replace (512 * (OffsetInDisk part + i)) with (512 * OffsetInDisk part + 512 * i) by lia.
    destruct s0, write, (SUCCEEDED (volume_status part total i n)); done.
  - assert (Hst : request_status len off = STATUS_DEVICE_ALIGNMENT_NO_SATISFIED) by (unfold request_status; by rewrite Hal).
    mrun (volume_call_unaligned (S (S f)) l l len off write data Hlen Hoff Hal).
    erewrite bind_Ret by reflexivity. cbn beta. unfold IoFreeIrp. erewrite bind_Ret by apply Hfree. cbn beta. rewrite Hst. by destruct write.
Qed.
End Volume.
End Stack.

(** * A machine to run the definitions on: the controller transfers at once, the allocator never
    runs out, and the disk 2 behind the controller 1 has [total] sectors of zeros, with [image]
    from its start *)
Definition sample_transfer (a i n : Z) (data : list Z) (async write : bool) : M IO (Z * list Z) := λ s,
  match io_media s !! a with
  | None => Fault
  | Some m =>
      if write then Ret ((STATUS_SUCCESS, data), with_medium a (store m (512 * i) data) s)
      else Ret ((STATUS_SUCCESS, bytes_from m (512 * i) (Z.to_nat (512 * n))), s)
  end.
Definition sample_allocate (flags size tag align : Z) : M IO Z := mret 1.
Definition sample_free (p tag : Z) : M IO unit := mret tt.
Definition sample_medium (total : nat) (image : list Z) : BYTES := store (store ∅ 0 (replicate (512 * total) 0)) 0 image.
Definition sample_machine (total : nat) (image : list Z) (part : PARTITION_INFORMATION) : IO :=
  mkIo (<[3 := mkDevice VolDriverEntry_DispatchFunctions (VolumeExtension (mkVolume 2 part)) 3 512 2]>
    (<[2 := mkDevice DiskDriverEntry_DispatchFunctions (DiskExtension (mkDisk (Z.of_nat total) 1 None)) 2 512 1]>
    {[1 := mkDevice AtaDriverEntry_DispatchFunctions (AtaExtension (mkAta (Z.of_nat total) true AtaTransferStateFree)) 1 512 0]}))
    ∅ {[1 := sample_medium total image]}.
Lemma sample_reads : reads_sectors sample_transfer.
Proof. intros s a m i n data Hm _ _ _ _. unfold sample_transfer. by rewrite Hm. Qed.
Lemma sample_writes : writes_sectors sample_transfer.
Proof. intros s a m i n data Hm _ _ _ _. unfold sample_transfer. by rewrite Hm. Qed.
Lemma sample_allocates : allocates sample_allocate.
Proof. intros s flags n tag align. by exists 1. Qed.
Lemma sample_frees : frees sample_free.
Proof. done. Qed.
Lemma sample_mapped total image : mapped (sample_medium total image) 0 (512 * Z.of_nat total).
Proof.
  intros q Hq. apply store_dom. destruct (lookup_lt_is_Some_2 (map u8 (replicate (512 * total) 0)) (Z.to_nat q)) as [x Hx].
  { rewrite length_map, length_replicate. lia. }
  exists x. pose proof (store_at ∅ 0 (replicate (512 * total) 0) _ _ Hx) as H. by replace (0 + Z.of_nat (Z.to_nat q)) with q in H by lia.
Qed.
Lemma sample_medium_ok total image : volume_ok (sample_medium total image).
Proof. apply store_ok, store_ok. intros p v Hp. by rewrite lookup_empty in Hp. Qed.
Lemma sample_disk total image part :
  Z.of_nat total < 2 ^ 64 → disk_stack (sample_machine total image part) 2 1 (Z.of_nat total) (sample_medium total image).
Proof.
  intros Ht. split; try done.
  - by exists (Z.of_nat total), None, 1.
  - by exists 0.
  - split; [done|apply sample_mapped].
  - lia.
Qed.
Lemma sample_volume total image part :
  Z.of_nat total < 2 ^ 64 → partition_ok part →
  volume_stack (sample_machine total image part) 3 2 1 part (Z.of_nat total) (sample_medium total image).
Proof. intros Ht Hp. split; [by apply sample_disk|by exists 2|done|done|done]. Qed.
