(* ===== verification/IoProps.v ===== *)
(** A volume is an array of sectors of its own: requests to it read and write the bytes of its
    partition and nothing else on the disk. *)
From S2P Require Import Prelude Memory Slices Heap Io IoSpec.

#[local] Ltac Zify.zify_post_hook ::= Z.to_euclidean_division_equations.

(** * The abstract volume
    An array of bytes by their offset in the volume, [size] sectors of it. *)
Inductive REQUEST := ReadRequest (Length Offset : Z) | WriteRequest (data : list Z) (Offset : Z).
Definition volume_answer (size len off : Z) : Z :=
  if negb ((len mod 512 =? 0) && (off mod 512 =? 0)) then STATUS_DEVICE_ALIGNMENT_NO_SATISFIED else
  if size <=? off / 512 then STATUS_DEVICE_SECTOR_OFFSET_EXCEEDED else
  if size - off / 512 <? len / 512 then STATUS_DEVICE_SECTOR_COUNT_EXCEEDED else
  if 65535 <? len / 512 then STATUS_DEVICE_SECTOR_COUNT_EXCEEDED else
  if 0 =? len then STATUS_INVALID_PARAMETER3 else STATUS_SUCCESS.
(** The length that is reported: that of the request stays when it is not a matter of sectors. *)
Definition answer_length (size len off : Z) : Z :=
  if SUCCEEDED (volume_answer size len off) || negb ((len mod 512 =? 0) && (off mod 512 =? 0)) then len else 0.
(** The status, the length and what was read, and the bytes of the volume after the request. *)
Definition volume_step (size : Z) (b : BYTES) (r : REQUEST) : Z * Z * option (list Z) * BYTES :=
  match r with
  | ReadRequest len off =>
      (volume_answer size len off, answer_length size len off,
       if SUCCEEDED (volume_answer size len off) then Some (bytes_from b off (Z.to_nat len)) else None, b)
  | WriteRequest data off =>
      let len := Z.of_nat (length data) in
      (volume_answer size len off, answer_length size len off, None,
       if SUCCEEDED (volume_answer size len off) then store b off data else b)
  end.
Fixpoint volume_steps (size : Z) (b : BYTES) (rs : list REQUEST) : list (Z * Z * option (list Z)) * BYTES :=
  match rs with
  | [] => ([], b)
  | r :: rs => let '(x, b) := volume_step size b r in let '(xs, b) := volume_steps size b rs in (x :: xs, b)
  end.
(** Lengths and offsets are QWORDs. *)
Definition request_ok (r : REQUEST) : Prop :=
  match r with
  | ReadRequest len off => (0 ≤ len < 2 ^ 64) ∧ (0 ≤ off < 2 ^ 64)
  | WriteRequest data off => Z.of_nat (length data) < 2 ^ 64 ∧ (0 ≤ off < 2 ^ 64)
  end.
(** The bytes of a partition of the medium [m] *)
Definition shows (part : PARTITION_INFORMATION) (m b : BYTES) : Prop :=
  ∀ p, 0 ≤ p < 512 * PartitionSize part → b !! p = m !! (512 * OffsetInDisk part + p).

(** * The calls of a client of the volume *)
Section Calls.
Variable AtaTransfer : Z → Z → Z → list Z → bool → bool → M IO (Z * list Z).
Variables (ExAllocatePoolWithTag : Z → Z → Z → Z → M IO Z) (ExFreePoolWithTag : Z → Z → M IO unit).
(** A synchronous request: the last argument is Asynchronous. A read is into a buffer of zeros; of what
    is in it after a call that fails, nothing is said. *)
Definition submit (v : Z) (r : REQUEST) : M IO (Z * Z * option (list Z)) :=
  match r with
  | ReadRequest len off =>
      '(status, n, data) ← IoReadDeviceEx 3 AtaTransfer ExAllocatePoolWithTag ExFreePoolWithTag v
        (replicate (Z.to_nat len) 0) len off false;
      mret (status, n, if SUCCEEDED status then Some data else None)
  | WriteRequest data off =>
      '(status, n, _) ← IoWriteDeviceEx 3 AtaTransfer ExAllocatePoolWithTag ExFreePoolWithTag v
        data (Z.of_nat (length data)) off false;
      mret (status, n, None)
  end.
Fixpoint submit_all (v : Z) (rs : list REQUEST) : M IO (list (Z * Z * option (list Z))) :=
  match rs with
  | [] => mret []
  | r :: rs => x ← submit v r; xs ← submit_all v rs; mret (x :: xs)
  end.

Hypothesis Hread : reads_sectors AtaTransfer.
Hypothesis Hwrite : writes_sectors AtaTransfer.
Hypothesis Halloc : allocates ExAllocatePoolWithTag.
Hypothesis Hfree : frees ExFreePoolWithTag.
Variables (v d a : Z) (part : PARTITION_INFORMATION) (total : Z).
(** The partition is on the disk. *)
Hypothesis Hpart : OffsetInDisk part + PartitionSize part ≤ total.
Abbreviation size := (PartitionSize part).
Abbreviation base := (512 * OffsetInDisk part).

Lemma answer_of len off : partition_ok part → 0 ≤ len → 0 ≤ off → request_status part total len off = volume_answer size len off.
Proof using Hpart.
  intros [Ho Hs] Hlen Hoff. unfold request_status, volume_answer. destruct (len mod 512 =? 0) eqn:Hl; [|done].
  destruct (off mod 512 =? 0); [|done]. cbn [andb negb]. apply Z.eqb_eq in Hl. unfold volume_status, ata_status, LBA48_MAX_VALUE.
  destruct (Z.leb_spec size (off / 512)); [done|]. destruct (Z.ltb_spec (size - off / 512) (len / 512)); [done|].
  destruct (65535 <? len / 512); [done|].
  rewrite (proj2 (Z.leb_gt _ _)), (proj2 (Z.leb_gt _ _)), (proj2 (Z.ltb_ge _ _)) by lia.
  destruct (Z.eqb_spec 0 len) as [<-|Hne]; [done|]. by rewrite (proj2 (Z.eqb_neq 0 (len / 512))) by lia.
Qed.
Lemma answer_inside len off : 0 ≤ len → SUCCEEDED (volume_answer size len off) = true → off + len ≤ 512 * size.
Proof using.
  intros Hlen. unfold volume_answer. destruct (len mod 512 =? 0) eqn:Hl; [|done]. destruct (off mod 512 =? 0) eqn:Ho; [|done].
  cbn [andb negb]. apply Z.eqb_eq in Hl, Ho. destruct (Z.leb_spec size (off / 512)); [done|].
  destruct (Z.ltb_spec (size - off / 512) (len / 512)); [done|]. intros _. lia.
Qed.
Lemma length_of len off :
  partition_ok part → 0 ≤ len → 0 ≤ off → request_length part total len off = answer_length size len off.
Proof using Hpart.
  intros Hok Hlen Hoff. unfold request_length, answer_length. rewrite answer_of by done.
  destruct ((len mod 512 =? 0) && (off mod 512 =? 0)), (SUCCEEDED _); done.
Qed.
(** The medium after a write, for the next request. *)
Lemma stack_after s m data off :
  volume_stack s v d a part total m → volume_stack (with_medium a (store m off data) s) v d a part total (store m off data).
Proof using.
  intros [[H1 H2 H3 H4 [H5 H6] H7] H8 H9 H10 H11]. split; [split|..]; try done.
  cbn. split; [by rewrite lookup_insert_eq|]. intros q Hq. by apply store_dom, H6.
Qed.
Lemma store_shift xs b m k off p : b !! p = m !! (k + p) → store b off xs !! p = store m (k + off) xs !! (k + p).
Proof using.
  revert b m off. induction xs as [|x xs IH]; intros b m off Heq; cbn [store]; [done|].
  rewrite <-Z.add_assoc. apply IH. destruct (decide (p = off)) as [->|Hne].
  - by rewrite !lookup_insert_eq.
  - rewrite !lookup_insert_ne by lia. done.
Qed.
Lemma shows_bytes m b off len :
  shows part m b → 0 ≤ off → 0 ≤ len → off + len ≤ 512 * size → bytes_from m (base + off) (Z.to_nat len) = bytes_from b off (Z.to_nat len).
Proof using.
  intros Hb Hoff Hlen Hin. apply list_fmap_ext. intros i x [-> Hi]%lookup_seq. cbn. rewrite (Hb (off + Z.of_nat i)) by lia.
  do 2 f_equal. lia.
Qed.
(** The states that a request can lead to. *)
Definition same_elsewhere (s s' : IO) (m m' : BYTES) : Prop :=
  (∀ q, q < base ∨ base + 512 * size ≤ q → m' !! q = m !! q)
  ∧ io_devices s' = io_devices s ∧ io_locked s' = io_locked s ∧ (∀ a', a' ≠ a → io_media s' !! a' = io_media s !! a').
Lemma submit_run s m b r :
  volume_stack s v d a part total m → shows part m b → request_ok r → let '(x, b') := volume_step size b r in
  ∃ m' s', submit v r s = Ret (x, s') ∧ volume_stack s' v d a part total m' ∧ shows part m' b' ∧ same_elsewhere s s' m m'.
Proof using Hread Hwrite Halloc Hfree Hpart.
  intros Hs Hb Hr. pose proof (vs_partition _ _ _ _ _ _ _ Hs) as Hok. destruct r as [len off|data off]; cbn [volume_step].
  - destruct Hr as [Hlen Hoff]. exists m, s. split_and!; [|done..].
    unfold submit, IoReadDeviceEx.
    mrun (io_read_write_run AtaTransfer ExAllocatePoolWithTag ExFreePoolWithTag Hread Hwrite Halloc Hfree v d a part total m s Hs
      0 len off false (replicate (Z.to_nat len) 0) Hlen Hoff ltac:(rewrite length_replicate; lia)).
    rewrite answer_of, length_of by (done || lia). cbn [negb andb]. destruct (SUCCEEDED (volume_answer size len off)) eqn:Hst; [|done].
    rewrite (shows_bytes m b off len Hb) by (lia || by apply answer_inside; [lia|]). done.
  - destruct Hr as [Hlen Hoff]. set (len := Z.of_nat (length data)) in *.
    set (ok := SUCCEEDED (volume_answer size len off)).
    exists (if ok then store m (base + off) data else m), (if ok then with_medium a (store m (base + off) data) s else s).
    split_and!.
    + unfold submit, IoWriteDeviceEx. fold len.
      mrun (io_read_write_run AtaTransfer ExAllocatePoolWithTag ExFreePoolWithTag Hread Hwrite Halloc Hfree v d a part total m s Hs
        0 len off true data ltac:(lia) Hoff eq_refl).
      rewrite answer_of, length_of by (done || lia). cbn [negb andb]. fold ok. done.
    + destruct ok; [by apply stack_after|done].
    + destruct ok; [|done]. intros p Hp. by apply store_shift, Hb.
    + destruct ok eqn:Hst; [|done]. pose proof (answer_inside len off ltac:(lia) Hst) as Hin. split_and!; [|done..|].
      * intros q Hq. apply store_out. fold len. lia.
      * intros a' Ha'. cbn. by apply lookup_insert_ne.
Qed.
Lemma submit_all_run rs s m b :
  volume_stack s v d a part total m → shows part m b → Forall request_ok rs → let '(xs, b') := volume_steps size b rs in
  ∃ m' s', submit_all v rs s = Ret (xs, s') ∧ volume_stack s' v d a part total m' ∧ shows part m' b' ∧ same_elsewhere s s' m m'.
Proof using Hread Hwrite Halloc Hfree Hpart.
  revert s m b. induction rs as [|r rs IH]; intros s m b Hs Hb Hrs; cbn [volume_steps].
  { exists m, s. by split_and!. }
  apply Forall_cons in Hrs as [Hr Hrs]. pose proof (submit_run s m b r Hs Hb Hr) as H1.
  destruct (volume_step size b r) as [x b1]. destruct H1 as (m1 & s1 & Hrun1 & Hs1 & Hb1 & Hq1 & Hd1 & Hl1 & Hm1).
  specialize (IH s1 m1 b1 Hs1 Hb1 Hrs). destruct (volume_steps size b1 rs) as [xs b2].
  destruct IH as (m2 & s2 & Hrun2 & Hs2 & Hb2 & Hq2 & Hd2 & Hl2 & Hm2).
  exists m2, s2. split_and!; [cbn [submit_all]; mrun Hrun1; by mrun Hrun2|done|done|].
  split_and!; [|congruence|congruence|].
  - intros q Hq. by rewrite Hq2, Hq1.
  - intros a' Ha'. by rewrite Hm2, Hm1.
Qed.
End Calls.

(** * Properties *)
(** C10: A volume whose partition lies on the disk is an array of sectors: each of a sequence of
    synchronous reads and writes (Asynchronous is FALSE: no transfer by DMA) through IoReadDeviceEx and
    IoWriteDeviceEx, over the volume, its disk and a controller that transfers sectors, returns with the status, the length and the bytes that the array determines, and
    leaves its bytes in the partition; the rest of the disk, the other media and the devices are as
    before, and no lock is held. *)
Theorem volume_refines_sectors AtaTransfer ExAllocatePoolWithTag ExFreePoolWithTag v d a part total s m b rs
  (Hread : reads_sectors AtaTransfer) (Hwrite : writes_sectors AtaTransfer)
  (Halloc : allocates ExAllocatePoolWithTag) (Hfree : frees ExFreePoolWithTag)
  (Hpart : OffsetInDisk part + PartitionSize part ≤ total) (Hstack : volume_stack s v d a part total m)
  (Hshows : shows part m b) (Hrs : Forall request_ok rs) :
  let '(answers, b') := volume_steps (PartitionSize part) b rs in
  ∃ m' s', submit_all AtaTransfer ExAllocatePoolWithTag ExFreePoolWithTag v rs s = Ret (answers, s')
    ∧ volume_stack s' v d a part total m' ∧ shows part m' b'
    ∧ (∀ q, q < 512 * OffsetInDisk part ∨ 512 * OffsetInDisk part + 512 * PartitionSize part ≤ q → m' !! q = m !! q)
    ∧ io_devices s' = io_devices s ∧ io_locked s' = io_locked s ∧ (∀ a', a' ≠ a → io_media s' !! a' = io_media s !! a').
Proof. by apply submit_all_run. Qed.

Definition sample_partition : PARTITION_INFORMATION := mkPartition 1 2 0xC false.
Definition sample_requests : list REQUEST :=
  [WriteRequest (replicate 512 7) 512; ReadRequest 512 512; ReadRequest 1024 512; ReadRequest 512 1024; ReadRequest 100 0].
Lemma sample_shows : shows sample_partition (sample_medium 4 []) (sample_medium 2 []).
Proof.
  assert (Hz : ∀ n p, 0 ≤ p < 512 * Z.of_nat n → sample_medium n [] !! p = Some 0).
  { intros n p Hp. unfold sample_medium. cbn [store]. replace p with (0 + Z.of_nat (Z.to_nat p)) by lia.
    apply store_at. change (map u8 ?l) with (u8 <$> l). by rewrite list_lookup_fmap, lookup_replicate_2 by lia. }
  intros p Hp. change (PartitionSize sample_partition) with 2 in Hp. change (OffsetInDisk sample_partition) with 1.
  by rewrite !Hz by lia.
Qed.
Lemma volume_refines_sectors_witness :
  fst <$> (volume_steps 2 (sample_medium 2 []) sample_requests).1
    = [(STATUS_SUCCESS, 512); (STATUS_SUCCESS, 512); (STATUS_DEVICE_SECTOR_COUNT_EXCEEDED, 0);
       (STATUS_DEVICE_SECTOR_OFFSET_EXCEEDED, 0); (STATUS_DEVICE_ALIGNMENT_NO_SATISFIED, 100)]
  ∧ snd <$> (volume_steps 2 (sample_medium 2 []) sample_requests).1 !! 1%nat = Some (Some (replicate 512 7))
  ∧ let '(answers, b') := volume_steps 2 (sample_medium 2 []) sample_requests in
    ∃ m' s', submit_all sample_transfer sample_allocate sample_free 3 sample_requests
        (sample_machine 4 [] sample_partition) = Ret (answers, s')
      ∧ volume_stack s' 3 2 1 sample_partition 4 m' ∧ shows sample_partition m' b'.
Proof.
  split; [vm_compute; reflexivity|]. split; [vm_compute; reflexivity|].
  pose proof (volume_refines_sectors sample_transfer sample_allocate sample_free 3 2 1 sample_partition 4
    (sample_machine 4 [] sample_partition) (sample_medium 4 []) (sample_medium 2 []) sample_requests
    sample_reads sample_writes sample_allocates sample_frees ltac:(vm_compute; congruence)
    (sample_volume 4 [] sample_partition eq_refl ltac:(repeat split; vm_compute; congruence)) sample_shows
    ltac:(repeat constructor; vm_compute; congruence)) as H.
  change (PartitionSize sample_partition) with 2 in H. destruct (volume_steps 2 (sample_medium 2 []) sample_requests) as [answers b'].
  destruct H as (m' & s' & H1 & H2 & H3 & _). exists m', s'. exact (conj H1 (conj H2 H3)).
Defined.
