(* ===== verification/Disk.v ===== *)
(** Disk/src/disk.c: the table of partitions of a disk, which the master boot record and the chain
    of boot records of the extended partition hold. *)
From S2P Require Import Prelude Memory Slices Heap Io.

(** shared/kernel/heap_tags.h *)
Definition HEAP_DISK_TAG : Z := 0x3A4B5344.

(** * Disk/inc/mbr.h *)
Definition MBR_NO_OF_PARTITIONS : nat := 4.
Definition MBR_EXT_PARTITION_NO_OF_ENTRIES : nat := 2.
Definition MBR_STATUS_ACTIVE : Z := 0x80.
Definition MBR_STATUS_INACTIVE : Z := 0x00.
Definition MBR_PARTITION_EXTENDED_CHS : Z := 0x5.
Definition MBR_PARTITION_EXTENDED_LBA : Z := 0xF.
Definition sizeof_MBR : Z := 512.
Definition sizeof_MBR_PARTITION_ENTRY : Z := 16.
(** The offsets in a MBR of the partition entries and of the signature *)
Definition MBR_Partitions : Z := 446.
Definition MBR_BootSignature : Z := 510.
(** The code does not use the addresses by cylinder, head and sector. *)
Record MBR_PARTITION_ENTRY := mkEntry {
  EntryStatus : Z; EntryPartitionType : Z; FirstSectorLBA : Z; EntryNumberOfSectors : Z
}.
Definition partition_entry (Mbr : list Z) (i : nat) : M IO MBR_PARTITION_ENTRY :=
  let p := MBR_Partitions + sizeof_MBR_PARTITION_ENTRY * Z.of_nat i in
  status ← le_at 1 Mbr p;
  type ← le_at 1 Mbr (p + 4);
  lba ← le_at 4 Mbr (p + 8);
  sectors ← le_at 4 Mbr (p + 12);
  mret (mkEntry status type lba sectors).
(** CommonLib/src/cl_memory.c: cl_memscan on a buffer *)
Fixpoint memscan (buffer : list Z) (value : Z) : Z :=
  match buffer with
  | [] => 0
  | x :: buffer => if x =? value then 1 + memscan buffer value else 0
  end.

Section Ops.
(** How many devices a request may go through; the transfer of sectors; the allocator. *)
Variable fuel : nat.
Variable AtaTransfer : Z → Z → Z → list Z → bool → bool → M IO (Z * list Z).
Variables (ExAllocatePoolWithTag : Z → Z → Z → Z → M IO Z) (ExFreePoolWithTag : Z → Z → M IO unit).

(** [data] are the bytes at Buffer. The status, *SectorsRead and the bytes at Buffer. *)
Definition _DiskRead (DiskDevice SectorIndex SectorCount : Z) (data : list Z) (SectorsRead : Z) (Asynchronous : bool)
    : M IO (Z * Z * list Z) :=
  if DiskDevice =? NULL then mret (STATUS_INVALID_PARAMETER1, SectorsRead, data) else
  if MAX_QWORD / SECTOR_SIZE <=? SectorIndex then mret (STATUS_DEVICE_SECTOR_OFFSET_EXCEEDED, SectorsRead, data) else
  device ← get_device DiskDevice;
  '(p, Irp) ← IoAllocateIrp ExAllocatePoolWithTag (StackSize device);
  ASSERT (negb (p =? NULL));;
  Irp ← set_next_location
    (λ _, mkLocation IRP_MJ_READ (ReadWrite (SectorCount * SECTOR_SIZE) (u64 (SectorIndex * SECTOR_SIZE))))
    (mkIrp (Some data) (OutputBuffer Irp) (IoStatus_Information Irp) (IoStatus_Status Irp) (Completed Irp) Asynchronous
      (CurrentStackLocation Irp) (StackLocations Irp));
  '(status, Irp) ← IoCallDriver AtaTransfer fuel DiskDevice Irp;
  data ← from_option_fault (Buffer Irp);
  IoFreeIrp ExFreePoolWithTag p;;
  if negb (SUCCEEDED status) then mret (status, SectorsRead, data)
  else mret (IoStatus_Status Irp, u16 (IoStatus_Information Irp / SECTOR_SIZE), data).

(** The partitions of a DISK_LAYOUT_INFORMATION, [None] for NULL: a write beyond what was allocated
    for it is an error. *)
Abbreviation LAYOUT := (option (list PARTITION_INFORMATION)).
Definition set_partition (i : Z) (part : PARTITION_INFORMATION) (layout : LAYOUT) : M IO LAYOUT :=
  match layout with
  | None => mret None
  | Some l => if Z.to_nat i <? length l then mret (Some (<[Z.to_nat i := part]> l)) else fault
  end%nat.

Section Retrieve.
(** The call for the boot record at the offset of an extended partition: the offset, the first
    extended partition, the count and the layout. *)
Variable retrieve : Z → Z → Z → LAYOUT → M IO (Z * Z * LAYOUT).
Variables (Mbr : list Z) (DiskOffset : Z) (ExtendedPartition : bool) (FirstExtendedPartitionLBA : Z).
(** The loop over the entries from the one with index [i] on, [n] of them: the status, the count of
    partitions and the layout. *)
Fixpoint iterate_entries (n i : nat) (partitionCount : Z) (layout : LAYOUT) : M IO (Z * Z * LAYOUT) :=
  match n with
  | O => mret (STATUS_SUCCESS, partitionCount, layout)
  | S n =>
      let bytes := take 16 (drop (Z.to_nat (MBR_Partitions + sizeof_MBR_PARTITION_ENTRY * Z.of_nat i)) Mbr) in
      if ExtendedPartition && (sizeof_MBR_PARTITION_ENTRY =? memscan bytes 0)
      then mret (STATUS_SUCCESS, partitionCount, layout) else
      entry ← partition_entry Mbr i;
      if negb (MBR_STATUS_ACTIVE =? EntryStatus entry) && negb (MBR_STATUS_INACTIVE =? EntryStatus entry)
      then iterate_entries n (S i) partitionCount layout else
      if (MBR_PARTITION_EXTENDED_LBA =? EntryPartitionType entry) || (MBR_PARTITION_EXTENDED_CHS =? EntryPartitionType entry)
      then
        let offsetToFirstExtendedPartition := if ExtendedPartition then FirstExtendedPartitionLBA else FirstSectorLBA entry in
        retrieve (u32 (FirstSectorLBA entry + FirstExtendedPartitionLBA)) offsetToFirstExtendedPartition partitionCount layout
      else
        layout ← set_partition partitionCount
          (mkPartition (u32 (FirstSectorLBA entry + DiskOffset)) (EntryNumberOfSectors entry) (EntryPartitionType entry)
            (MBR_STATUS_ACTIVE =? EntryStatus entry)) layout;
        iterate_entries n (S i) (u32 (partitionCount + 1)) layout
  end.
End Retrieve.
(** [n] bounds how many boot records are read one after another: the recursion of the code has no
    bound of its own. *)
Fixpoint _DiskRetrievePartitionsFromDiskStartingAtOffset (n : nat) (DiskDevice DiskOffset : Z) (ExtendedPartition : bool)
    (FirstExtendedPartitionLBA PartitionCount : Z) (layout : LAYOUT) : M IO (Z * Z * LAYOUT) :=
  match n with
  | O => λ _, OutOfFuel
  | S n =>
      ASSERT (xorb ExtendedPartition (0 =? FirstExtendedPartitionLBA));;
      let entriesToIterateOver := if ExtendedPartition then MBR_EXT_PARTITION_NO_OF_ENTRIES else MBR_NO_OF_PARTITIONS in
      pMbr ← ExAllocatePoolWithTag PoolAllocateZeroMemory sizeof_MBR HEAP_TEMP_TAG 0;
      if pMbr =? NULL then mret (STATUS_HEAP_INSUFFICIENT_RESOURCES, PartitionCount, layout) else
      '(status, sectorsRead, Mbr) ← _DiskRead DiskDevice DiskOffset 1 (replicate (Z.to_nat sizeof_MBR) 0) 0 false;
      r ← (if negb (SUCCEEDED status) then mret (status, PartitionCount, layout) else
        ASSERT (1 =? sectorsRead);;
        signature ← le_at 2 Mbr MBR_BootSignature;
        if negb (MBR_BOOT_SIGNATURE =? signature) then mret (STATUS_DISK_MBR_NOT_PRESENT, PartitionCount, layout) else
        iterate_entries (λ offset first, _DiskRetrievePartitionsFromDiskStartingAtOffset n DiskDevice offset true first)
          Mbr DiskOffset ExtendedPartition FirstExtendedPartitionLBA entriesToIterateOver 0 PartitionCount layout);
      ExFreePoolWithTag pMbr HEAP_TEMP_TAG;;
      mret r
  end.
Definition set_layout (DiskDevice : Z) (layout : list PARTITION_INFORMATION) : M IO unit :=
  disk ← get_disk DiskDevice;
  set_extension DiskDevice (DiskExtension (mkDisk (NumberOfSectors disk) (DiskDeviceController disk) (Some layout))).
Definition _DiskRetrievePartitionsFromDisk (n : nat) (DiskDevice : Z) : M IO Z :=
  '(status, partitionCount, _) ← _DiskRetrievePartitionsFromDiskStartingAtOffset n DiskDevice 0 false 0 0 None;
  if negb (SUCCEEDED status) then mret status else
  let structureSize := u32 (sizeof_DISK_LAYOUT_INFORMATION + partitionCount * sizeof_PARTITION_INFORMATION) in
  p ← ExAllocatePoolWithTag PoolAllocateZeroMemory structureSize HEAP_DISK_TAG 0;
  if p =? NULL then mret STATUS_HEAP_NO_MORE_MEMORY else
  (** What there is room for in the structure *)
  let room := Z.to_nat ((structureSize - sizeof_DISK_LAYOUT_INFORMATION) / sizeof_PARTITION_INFORMATION) in
  '(status, partitionCount, layout) ← _DiskRetrievePartitionsFromDiskStartingAtOffset n DiskDevice 0 false 0 0
    (Some (replicate room (mkPartition 0 0 0 false)));
  if negb (SUCCEEDED status) then mret status else
  layout ← from_option_fault layout;
  (** NumberOfPartitions is partitionCount. *)
  set_layout DiskDevice (take (Z.to_nat partitionCount) layout);;
  mret status.
End Ops.
