(* ===== verification/DiskSpec.v ===== *)
(** The partitions of a disk, from its bytes: what _DiskRetrievePartitionsFromDisk finds. *)
From S2P Require Import Prelude Memory Slices Heap Io IoSpec Disk.

#[local] Ltac Zify.zify_post_hook ::= Z.to_euclidean_division_equations.

(** * Boot records as bytes of the medium *)
Definition entry_offset (off : Z) (i : nat) : Z := 512 * off + 446 + 16 * Z.of_nat i.
Definition entry_of (m : BYTES) (off : Z) (i : nat) : MBR_PARTITION_ENTRY :=
  let p := entry_offset off i in mkEntry (word m p 1) (word m (p + 4) 1) (dword m (p + 8)) (dword m (p + 12)).
Definition zero_entry (m : BYTES) (off : Z) (i : nat) : bool := forallb (Z.eqb 0) (bytes_from m (entry_offset off i) 16).
Definition valid_entry (e : MBR_PARTITION_ENTRY) : bool := (EntryStatus e =? 0x80) || (EntryStatus e =? 0).
Definition extended_entry (e : MBR_PARTITION_ENTRY) : bool := (EntryPartitionType e =? 0xF) || (EntryPartitionType e =? 0x5).
(** The valid ones of [n] entries from the one with index [i] on; in an extended partition an entry
    of zeros is the end. *)
Fixpoint entries (m : BYTES) (off : Z) (ext : bool) (n i : nat) : list MBR_PARTITION_ENTRY :=
  match n with
  | O => []
  | S n =>
      if ext && zero_entry m off i then []
      else (if valid_entry (entry_of m off i) then [entry_of m off i] else []) ++ entries m off ext n (S i)
  end.
(** The entries before the first one of an extended partition, and that one. *)
Fixpoint split_extended (l : list MBR_PARTITION_ENTRY) : list MBR_PARTITION_ENTRY * option MBR_PARTITION_ENTRY :=
  match l with
  | [] => ([], None)
  | e :: l => if extended_entry e then ([], Some e) else (e :: (split_extended l).1, (split_extended l).2)
  end.
Definition boot_record (m : BYTES) (off : Z) (ext : bool) := split_extended (entries m off ext (if ext then 2 else 4) 0).
Definition partition_of (off : Z) (e : MBR_PARTITION_ENTRY) : PARTITION_INFORMATION :=
  mkPartition (u32 (FirstSectorLBA e + off)) (EntryNumberOfSectors e) (EntryPartitionType e) (EntryStatus e =? 0x80).
Definition signature_ok (m : BYTES) (off : Z) : bool := word m (512 * off + 510) 2 =? 0xAA55.
(** The boot record at the sector [off] of a disk with [total] sectors and those that follow it:
    the status of reading them, none when an assertion fails since the first extended partition
    is at the sector 0, and the partitions that are found on the way. *)
Inductive partition_table (m : BYTES) (total : Z) : Z → bool → Z → option Z → list PARTITION_INFORMATION → Prop :=
  | table_at_0 off ext first : xorb ext (0 =? first) = false → partition_table m total off ext first None []
  | table_unreadable off ext first :
      xorb ext (0 =? first) = true → total ≤ off → partition_table m total off ext first (Some STATUS_DEVICE_SECTOR_OFFSET_EXCEEDED) []
  | table_unsigned off ext first :
      xorb ext (0 =? first) = true → off < total → signature_ok m off = false →
      partition_table m total off ext first (Some STATUS_DISK_MBR_NOT_PRESENT) []
  | table_last off ext first es :
      xorb ext (0 =? first) = true → off < total → signature_ok m off = true → boot_record m off ext = (es, None) →
      partition_table m total off ext first (Some STATUS_SUCCESS) (partition_of off <$> es)
  | table_next off ext first es e st l :
      xorb ext (0 =? first) = true → off < total → signature_ok m off = true → boot_record m off ext = (es, Some e) →
      partition_table m total (u32 (FirstSectorLBA e + first)) true (if ext then first else FirstSectorLBA e) st l →
      partition_table m total off ext first st ((partition_of off <$> es) ++ l).

(** ** The partitions of an orderly disk
    The layout that the format means, without the way the code looks for it: the boot records of the
    chain, each with the entries of its table, where an entry is in use when its status is valid and
    it has a type, and describes a partition unless it is the link to the next record. *)
Definition slots (m : BYTES) (off : Z) (ext : bool) : list MBR_PARTITION_ENTRY :=
  entry_of m off <$> seq 0 (if ext then 2 else 4).
Definition used_entry (e : MBR_PARTITION_ENTRY) : bool := valid_entry e && negb (EntryPartitionType e =? 0).
Definition data_entry (e : MBR_PARTITION_ENTRY) : bool := used_entry e && negb (extended_entry e).
Definition link_entry (e : MBR_PARTITION_ENTRY) : bool := valid_entry e && extended_entry e.
Definition link (l : list MBR_PARTITION_ENTRY) : option MBR_PARTITION_ENTRY := head (List.filter link_entry l).
Inductive record_chain (m : BYTES) : Z → bool → Z → list (Z * bool) → Prop :=
  | chain_last off ext first : link (slots m off ext) = None → record_chain m off ext first [(off, ext)]
  | chain_next off ext first e l :
      link (slots m off ext) = Some e →
      record_chain m (u32 (FirstSectorLBA e + first)) true (if ext then first else FirstSectorLBA e) l →
      record_chain m off ext first ((off, ext) :: l).
(** Nothing is in use behind the link of a record and, in an extended partition, behind an entry
    of zeros. *)
Definition orderly (m : BYTES) (r : Z * bool) : Prop :=
  ∀ i j, (i < j)%nat → link_entry (entry_of m r.1 i) ∨ (r.2 = true ∧ zero_entry m r.1 i = true) →
    (j < if r.2 then 2 else 4)%nat → used_entry (entry_of m r.1 j) = false.
Definition record_partitions (m : BYTES) (r : Z * bool) : list PARTITION_INFORMATION :=
  partition_of r.1 <$> List.filter data_entry (slots m r.1 r.2).
Definition used_partition (p : PARTITION_INFORMATION) : bool := negb (PartitionType p =? 0).

(** * The entries of a record that was read *)
Lemma partition_entry_run m off i s :
  (i < 4)%nat → partition_entry (bytes_from m (512 * off) 512) i s = Ret (entry_of m off i, s).
Proof.
  intros Hi. unfold partition_entry, MBR_Partitions, sizeof_MBR_PARTITION_ENTRY.
  do 4 (erewrite bind_Ret; [|apply le_at_run; lia]; cbn beta).
  unfold entry_of, entry_offset, dword, mret, M_ret. by rewrite !Z.add_assoc.
Qed.
Lemma memscan_bound l : 0 ≤ memscan l 0 ≤ Z.of_nat (length l).
Proof. induction l as [|x l IH]; cbn [memscan length]; [done|]. rewrite Nat2Z.inj_succ. destruct (x =? 0); lia. Qed.
Lemma memscan_zeros l : (memscan l 0 =? Z.of_nat (length l)) = forallb (Z.eqb 0) l.
Proof.
  induction l as [|x l IH]; [done|]. cbn [memscan length forallb]. rewrite (Z.eqb_sym 0 x), Nat2Z.inj_succ.
  destruct (x =? 0); cbn [andb]; [|apply Z.eqb_neq; lia].
  rewrite <-IH. apply Bool.eq_iff_eq_true. rewrite !Z.eqb_eq. lia.
Qed.
Lemma zero_entry_run m off i :
  (i < 4)%nat → (sizeof_MBR_PARTITION_ENTRY =? memscan (take 16 (drop (Z.to_nat (MBR_Partitions + sizeof_MBR_PARTITION_ENTRY * Z.of_nat i))
    (bytes_from m (512 * off) 512))) 0) = zero_entry m off i.
Proof.
  intros Hi. unfold MBR_Partitions, sizeof_MBR_PARTITION_ENTRY. rewrite bytes_from_slice by lia.
  unfold zero_entry. rewrite <-memscan_zeros, bytes_from_length, Z.eqb_sym.
  by replace (entry_offset off i) with (512 * off + Z.of_nat (Z.to_nat (446 + 16 * Z.of_nat i))) by (unfold entry_offset; lia).
Qed.
(** * The entries of an orderly record *)
Lemma zero_entry_unused m off i : zero_entry m off i = true → used_entry (entry_of m off i) = false.
Proof.
  unfold zero_entry, used_entry, entry_of, bytes_from, word, bytes_from. cbn.
  rewrite !andb_true_iff. intros (_ & _ & _ & _ & H & _).
  replace (entry_offset off i + 4 + Z.of_nat 0) with (entry_offset off i + Z.of_nat 4) by lia.
  apply Z.eqb_eq in H. rewrite <-H. cbn. apply andb_false_r.
Qed.
Lemma filter_data_none m off l : (∀ j, j ∈ l → used_entry (entry_of m off j) = false) → List.filter data_entry (entry_of m off <$> l) = [] ∧
  List.filter link_entry (entry_of m off <$> l) = [].
Proof.
  intros H. induction l as [|j l IH]; [done|]. rewrite !fmap_cons.
  destruct IH as [IH1 IH2]; [intros k Hk; apply H; by right|]. pose proof (H j ltac:(by left)) as Hj.
  assert (data_entry (entry_of m off j) = false ∧ link_entry (entry_of m off j) = false) as [Hd Hl].
  { unfold data_entry, link_entry. rewrite Hj. split; [done|]. unfold used_entry, extended_entry in *.
    destruct (valid_entry _); [|done]. cbn [andb] in *. apply negb_false_iff, Z.eqb_eq in Hj. by rewrite Hj. }
  cbn [List.filter]. by rewrite Hd, Hl.
Qed.
Lemma entries_orderly m off (ext : bool) n i :
  (i + n = if ext then 2 else 4)%nat → orderly m (off, ext) →
  let r := split_extended (entries m off ext n i) in
  List.filter used_partition (partition_of off <$> r.1) = partition_of off <$> List.filter data_entry (entry_of m off <$> seq i n)
  ∧ r.2 = head (List.filter link_entry (entry_of m off <$> seq i n)).
Proof.
  intros Hn Hord. revert i Hn. induction n as [|n IH]; intros i Hn; [done|]. cbn [entries seq].
  assert (Hrest : link_entry (entry_of m off i) ∨ ext = true ∧ zero_entry m off i = true →
    ∀ j, j ∈ seq (S i) n → used_entry (entry_of m off j) = false).
  { intros Hor j Hj. apply elem_of_seq in Hj. apply (Hord i j); cbn; [lia|done|lia]. }
  destruct (ext && zero_entry m off i) eqn:Hzero.
  - apply andb_true_iff in Hzero as [-> Hzero]. cbn [split_extended fst snd].
    destruct (filter_data_none m off (i :: seq (S i) n)) as [-> ->]; [|done].
    intros j [->|Hj]%elem_of_cons; [by apply zero_entry_unused|]. apply Hrest; auto.
  - specialize (IH (S i) ltac:(lia)). rewrite !fmap_cons. cbn [List.filter].
    set (e := entry_of m off i) in *. destruct (valid_entry e) eqn:Hvalid.
    + cbn [app split_extended]. destruct (extended_entry e) eqn:Hext.
      * assert (Hlink : link_entry e = true) by (unfold link_entry; by rewrite Hvalid, Hext).
        destruct (filter_data_none m off (seq (S i) n)) as [-> _]; [by apply Hrest; left; rewrite Hlink|].
        rewrite Hlink. unfold data_entry at 1. rewrite Hext, andb_false_r. done.
      * destruct IH as [IH1 IH2]. cbn [fst snd]. rewrite fmap_cons. cbn [List.filter]. rewrite IH1, IH2.
        assert (Hnone : link_entry e = false) by (unfold link_entry; by rewrite Hvalid, Hext).
        assert (Hdata : data_entry e = used_partition (partition_of off e))
          by (unfold data_entry, used_entry; by rewrite Hvalid, Hext, andb_true_r).
        rewrite Hnone, Hdata. split; [|done]. by destruct (used_partition _).
    + cbn [app]. assert (data_entry e = false ∧ link_entry e = false) as [-> ->]
        by (unfold data_entry, link_entry, used_entry; by rewrite Hvalid). done.
Qed.
(** What is found on an orderly disk is, unused entries of the master boot record aside, the
    partitions of its records. *)
Lemma partition_table_orderly m total off ext first st l rs :
  partition_table m total off ext first st l → st = Some STATUS_SUCCESS → record_chain m off ext first rs → Forall (orderly m) rs →
  List.filter used_partition l = rs ≫= record_partitions m.
Proof.
  intros Htable. revert rs. induction Htable as [| | |off ext first es Hx Hin Hsig Hrec|off ext first es e st l Hx Hin Hsig Hrec _ IH];
    intros rs Hst Hchain Hord; try done.
  all: assert (Hone : List.filter used_partition (partition_of off <$> (boot_record m off ext).1) = record_partitions m (off, ext)
    ∧ (boot_record m off ext).2 = link (slots m off ext))
    by (apply entries_orderly; [by destruct ext|]; destruct Hchain; by inversion Hord).
  all: rewrite Hrec in Hone; destruct Hone as [Hone Hlink]; cbn [fst snd] in Hone, Hlink.
  - inversion Hchain as [|? ? ? e ? Hl]; subst; [|by rewrite Hl in Hlink]. cbn. by rewrite app_nil_r, Hone.
  - inversion Hchain as [? ? ? Hl|? ? ? e' rs' Hl Hnext]; subst; rewrite Hl in Hlink; [done|]. injection Hlink as <-.
    rewrite List.filter_app, Hone. cbn. f_equal. apply IH; [done..|by inversion Hord].
Qed.

(** * The layout *)
Abbreviation LAYOUT := (option (list PARTITION_INFORMATION)).
Definition room (layout : LAYOUT) (n : Z) : Prop := match layout with Some l => n ≤ Z.of_nat (length l) | None => True end.
Definition put (c : Z) (parts : list PARTITION_INFORMATION) (layout : LAYOUT) : LAYOUT := list_inserts (Z.to_nat c) parts <$> layout.
Lemma set_partition_run c part layout s :
  0 ≤ c → room layout (c + 1) → set_partition c part layout s = Ret (put c [part] layout, s).
Proof.
  intros Hc Hroom. destruct layout as [l|]; [|done]. cbn in Hroom. unfold set_partition.
  rewrite (proj2 (Nat.ltb_lt (Z.to_nat c) (length l))) by lia. done.
Qed.
Lemma room_put layout n c parts : room layout n → room (put c parts layout) n.
Proof. destruct layout; cbn; [|done]. by rewrite length_inserts. Qed.
Lemma put_put c p parts layout : 0 ≤ c → put (c + 1) parts (put c [p] layout) = put c (p :: parts) layout.
Proof.
  intros Hc. destruct layout as [l|]; [|done]. unfold put. cbn [fmap option_fmap option_map list_inserts].
  replace (Z.to_nat (c + 1)) with (S (Z.to_nat c)) by lia. f_equal. symmetry. apply list_insert_inserts_lt. lia.
Qed.

Lemma put_app c xs ys layout : 0 ≤ c → put (c + Z.of_nat (length xs)) ys (put c xs layout) = put c (xs ++ ys) layout.
Proof.
  revert c layout. induction xs as [|x xs IH]; intros c layout Hc.
  - cbn [length app]. change (Z.of_nat 0) with 0. rewrite Z.add_0_r. by destruct layout.
  - cbn [app length]. rewrite <-(put_put c x xs), <-(put_put c x (xs ++ ys)), <-IH by lia.
    by replace (c + Z.of_nat (S (length xs))) with (c + 1 + Z.of_nat (length xs)) by lia.
Qed.
Lemma inserts_all {A} (l k : list A) : length k = length l → list_inserts 0 l k = l.
Proof.
  intros Hlen. apply list_eq. intros i. destruct (decide (i < length l)%nat) as [Hi|Hi].
  - rewrite list_lookup_inserts by lia. by rewrite Nat.sub_0_r.
  - rewrite !lookup_ge_None_2; [done|lia|rewrite length_inserts; lia].
Qed.

(** * The loop over the entries *)
Lemma valid_entry_eq e :
  negb (MBR_STATUS_ACTIVE =? EntryStatus e) && negb (MBR_STATUS_INACTIVE =? EntryStatus e) = negb (valid_entry e).
Proof. unfold valid_entry. rewrite negb_orb. by rewrite !(Z.eqb_sym (EntryStatus e)). Qed.
Lemma extended_entry_eq e :
  (MBR_PARTITION_EXTENDED_LBA =? EntryPartitionType e) || (MBR_PARTITION_EXTENDED_CHS =? EntryPartitionType e) = extended_entry e.
Proof. unfold extended_entry. by rewrite !(Z.eqb_sym (EntryPartitionType e)). Qed.
Lemma iterate_entries_run retrieve m off ext first n i c layout s :
  (i + n ≤ 4)%nat → 0 ≤ c →
  let '(es, next) := split_extended (entries m off ext n i) in
  c + Z.of_nat (length es) < 2 ^ 32 → room layout (c + Z.of_nat (length es)) →
  iterate_entries retrieve (bytes_from m (512 * off) 512) off ext first n i c layout s
  = match next with
    | None => Ret ((STATUS_SUCCESS, c + Z.of_nat (length es), put c (partition_of off <$> es) layout), s)
    | Some e => retrieve (u32 (FirstSectorLBA e + first)) (if ext then first else FirstSectorLBA e)
        (c + Z.of_nat (length es)) (put c (partition_of off <$> es) layout) s
    end.
Proof.
  assert (Hput : ∀ c layout, put c [] layout = layout) by (by intros ? []).
  revert i c layout. induction n as [|n IH]; intros i c layout Hn Hc.
  { cbn. intros _ _. by rewrite Z.add_0_r, Hput. }
  cbn [entries iterate_entries]. cbv zeta. rewrite zero_entry_run by lia.
  destruct (ext && zero_entry m off i). { cbn. intros _ _. by rewrite Z.add_0_r, Hput. }
  specialize (IH (S i)). set (rest := entries m off ext n (S i)) in *. set (e := entry_of m off i).
  destruct (valid_entry e) eqn:Hvalid; cbn [app].
  - cbn [split_extended]. revert IH; destruct (split_extended rest) as [es next]; intros IH. destruct (extended_entry e) eqn:Hext.
    + intros _ _. mrun (partition_entry_run m off i s ltac:(lia)). fold e.
      rewrite valid_entry_eq, extended_entry_eq, Hvalid, Hext. cbn [negb fst snd length].
      change (partition_of off <$> []) with (@nil PARTITION_INFORMATION). rewrite Hput. change (Z.of_nat 0) with 0.
      by rewrite Z.add_0_r.
    + cbn [fst snd length]. intros Hlt Hroom. mrun (partition_entry_run m off i s ltac:(lia)). fold e.
      rewrite valid_entry_eq, extended_entry_eq, Hvalid, Hext. cbn [negb].
      assert (Hroom1 : room layout (c + 1)) by (destruct layout; cbn in Hroom |- *; [lia|done]).
      mrun (set_partition_run c (mkPartition (u32 (FirstSectorLBA e + off)) (EntryNumberOfSectors e) (EntryPartitionType e)
        (MBR_STATUS_ACTIVE =? EntryStatus e)) layout s Hc Hroom1).
      replace (mkPartition _ _ _ _) with (partition_of off e)
        by (unfold partition_of, MBR_STATUS_ACTIVE; by rewrite (Z.eqb_sym 0x80)).
      rewrite (u32_id (c + 1)) by lia.
      assert (Heq : c + 1 + Z.of_nat (length es) = c + Z.of_nat (S (length es))) by lia.
      rewrite (IH (c + 1)); [|lia|lia|by rewrite Heq|apply room_put; by rewrite Heq].
      rewrite fmap_cons, Heq, put_put by done. done.
  - revert IH; destruct (split_extended rest) as [es next]; intros IH. intros Hlt Hroom. mrun (partition_entry_run m off i s ltac:(lia)). fold e.
    rewrite valid_entry_eq, Hvalid. cbn [negb]. apply IH; [lia..|done|done].
Qed.

Lemma insert_as_alter {A} (f : A → A) (i : Z) (x : A) (m : gmap Z A) : m !! i = Some x → <[i := f x]> m = alter f i m.
Proof.
  intros Hi. apply map_eq. intros j. destruct (decide (i = j)) as [<-|Hne].
  - by rewrite lookup_insert_eq, lookup_alter_eq, Hi.
  - by rewrite lookup_insert_ne, lookup_alter_ne by done.
Qed.

Section Disk.
Variable AtaTransfer : Z → Z → Z → list Z → bool → bool → M IO (Z * list Z).
Variables (ExAllocatePoolWithTag : Z → Z → Z → Z → M IO Z) (ExFreePoolWithTag : Z → Z → M IO unit).
Hypothesis Hread : reads_sectors AtaTransfer.
Hypothesis Hwrite : writes_sectors AtaTransfer.
Hypothesis Halloc : allocates ExAllocatePoolWithTag.
Hypothesis Hfree : frees ExFreePoolWithTag.
Variables (d a total : Z) (m : BYTES) (s0 : IO).
Hypothesis Hstack : disk_stack s0 d a total m.
Hypothesis Hd : d ≠ NULL.
(** IoCallDriver through the disk and the controller *)
Variable f : nat.
Abbreviation _DiskRead := (Disk._DiskRead (S (S f)) AtaTransfer ExAllocatePoolWithTag ExFreePoolWithTag).
Abbreviation retrieve := (_DiskRetrievePartitionsFromDiskStartingAtOffset (S (S f)) AtaTransfer ExAllocatePoolWithTag ExFreePoolWithTag).

Lemma DiskRead_run off data :
  0 ≤ off < 2 ^ 32 → length data = 512%nat →
  let st := ata_status total off 1 in
  _DiskRead d off 1 data 0 false s0 = Ret ((st, if SUCCEEDED st then 1 else 0, buffer_after st off 1 m false data), s0).
Proof using Hread Hwrite Halloc Hfree Hstack Hd.
  intros Hoff Hdata st. unfold Disk._DiskRead. rewrite (proj2 (Z.eqb_neq d NULL)) by done.
  change (MAX_QWORD / SECTOR_SIZE) with (2 ^ 55 - 1). rewrite (proj2 (Z.leb_gt (2 ^ 55 - 1) off)) by lia.
  pose proof Hstack as [(nn & lay & att & Hdev) _ [Hfd Hfa] _ _ _].
  erewrite bind_Ret by (unfold get_device; munfold; cbn; rewrite Hdev; reflexivity). cbn beta. cbn [StackSize].
  unfold IoAllocateIrp.
  destruct (Halloc s0 PoolAllocateZeroMemory (u32 (sizeof_IRP + 2 * sizeof_IO_STACK_LOCATION)) HEAP_IRP_TAG 0) as (p & Hp & Hnull).
  erewrite bind_Ret; [|massert ltac:(done); mrun Hp; reflexivity]. cbn beta iota.
  massert ltac:(by apply negb_true_iff, Z.eqb_neq).
  erewrite bind_Ret; [|unfold set_next_location; massert ltac:(done); cbn [StackLocations CurrentStackLocation];
    erewrite bind_Ret by reflexivity; reflexivity]. cbn beta. unfold with_locations.
  cbn [Buffer OutputBuffer IoStatus_Information IoStatus_Status Completed Asynchronous CurrentStackLocation StackLocations].
  set (l := mkLocation 0 (ReadWrite 0 0)).
  change (<[Z.to_nat (2 - 1) := ?x]> (replicate (Z.to_nat 2) l)) with [l; x].
  unfold SECTOR_SIZE. rewrite (u64_id (off * 512)), (Z.mul_comm off) by lia.
  pose proof (disk_call_run AtaTransfer Hread Hwrite d a total m s0 Hstack f ∅ None 0 0 l [] off 1 false data
    ltac:(apply not_elem_of_empty) ltac:(apply not_elem_of_empty) ltac:(lia) ltac:(lia) ltac:(lia) ltac:(lia) ltac:(lia)) as Hrun.
  rewrite !(left_id_L ∅ (∪)) in Hrun. fold st in Hrun. destruct s0 as [devs locks media]. cbn [io_devices io_locked io_media] in Hrun.
  change (1 * 512) with (512 * 1). mrun Hrun. erewrite bind_Ret by reflexivity. cbn beta.
  unfold IoFreeIrp. erewrite bind_Ret by apply Hfree. cbn beta. cbn [IoStatus_Status IoStatus_Information].
  change (SUCCEEDED STATUS_SUCCESS) with true. cbn [negb]. unfold information_of. by destruct (SUCCEEDED st).
Qed.
(** ** Reading a boot record *)
Lemma record_status off : 0 ≤ off < 2 ^ 32 →
  ata_status total off 1 = if total <=? off then STATUS_DEVICE_SECTOR_OFFSET_EXCEEDED else STATUS_SUCCESS.
Proof using.
  intros Hoff. unfold ata_status, LBA48_MAX_VALUE. change (65535 <? 1) with false. cbv iota.
  destruct (Z.leb_spec total off); [done|].
  rewrite (proj2 (Z.leb_gt _ off)), (proj2 (Z.ltb_ge (total - off) 1)) by lia. done.
Qed.
(** One step of the recursion. *)
Lemma retrieve_S n off ext first c layout :
  0 ≤ off < 2 ^ 32 → xorb ext (0 =? first) = true →
  ∃ p, retrieve (S n) d off ext first c layout s0
  = (r ← (if total <=? off then mret (STATUS_DEVICE_SECTOR_OFFSET_EXCEEDED, c, layout) else
        if negb (signature_ok m off) then mret (STATUS_DISK_MBR_NOT_PRESENT, c, layout) else
        iterate_entries (λ offset first, retrieve n d offset true first) (bytes_from m (512 * off) 512) off ext first
          (if ext then 2 else 4)%nat 0 c layout);
     ExFreePoolWithTag p HEAP_TEMP_TAG;; mret r) s0.
Proof using Hread Hwrite Halloc Hfree Hstack Hd.
  intros Hoff Hx. destruct (Halloc s0 PoolAllocateZeroMemory sizeof_MBR HEAP_TEMP_TAG 0) as (p & Hp & Hnull). exists p.
  cbn [_DiskRetrievePartitionsFromDiskStartingAtOffset]. massert ltac:(exact Hx). mrun Hp.
  rewrite (proj2 (Z.eqb_neq p NULL)) by done.
  mrun (DiskRead_run off (replicate (Z.to_nat sizeof_MBR) 0) Hoff eq_refl). rewrite (record_status off Hoff).
  destruct (total <=? off); [done|]. change (SUCCEEDED STATUS_SUCCESS) with true. cbn [negb]. rewrite !bind_assoc.
  massert ltac:(done). rewrite !bind_assoc. unfold buffer_after. cbn [negb andb]. change (SUCCEEDED STATUS_SUCCESS) with true.
  change (Z.to_nat (512 * 1)) with 512%nat. cbv iota. unfold MBR_BootSignature.
  erewrite bind_Ret by (apply le_at_run; lia). cbn beta. unfold signature_ok.
  rewrite (Z.eqb_sym MBR_BOOT_SIGNATURE). change MBR_BOOT_SIGNATURE with 0xAA55. destruct (word m (512 * off + 510) 2 =? 0xAA55); done.
Qed.
Lemma free_after {A} p (r : outcome (A * IO)) (k : M IO A) :
  k s0 = r → (r ← k; ExFreePoolWithTag p HEAP_TEMP_TAG;; mret r) s0 = r.
Proof using Hfree.
  intros Hk. munfold. unfold mbind, M_bind. rewrite Hk. destruct r as [[x s]| | |]; try done. by rewrite Hfree.
Qed.
Lemma retrieve_run off ext first st l :
  partition_table m total off ext first st l → 0 ≤ off < 2 ^ 32 → ∃ n0, ∀ n, (n0 ≤ n)%nat → ∀ c layout,
  0 ≤ c → c + Z.of_nat (length l) < 2 ^ 32 → room layout (c + Z.of_nat (length l)) →
  retrieve n d off ext first c layout s0
  = match st with Some st => Ret ((st, c + Z.of_nat (length l), put c l layout), s0) | None => Panic end.
Proof using Hread Hwrite Halloc Hfree Hstack Hd.
  assert (Hput : ∀ c layout, put c [] layout = layout) by (by intros ? []).
  induction 1 as [off ext first Hx|off ext first Hx Hout|off ext first Hx Hin Hsig|off ext first es Hx Hin Hsig Hrec
    |off ext first es e st l Hx Hin Hsig Hrec _ IH]; intros Hoff.
  - exists 1%nat. intros [|n] Hn c layout Hc Hlt Hroom; [lia|]. cbn [_DiskRetrievePartitionsFromDiskStartingAtOffset].
    by rewrite Hx.
  - exists 1%nat. intros [|n] Hn c layout Hc Hlt Hroom; [lia|]. destruct (retrieve_S n off ext first c layout Hoff Hx) as [p ->].
    apply free_after. rewrite (proj2 (Z.leb_le _ _)), Hput, Z.add_0_r by done. done.
  - exists 1%nat. intros [|n] Hn c layout Hc Hlt Hroom; [lia|]. destruct (retrieve_S n off ext first c layout Hoff Hx) as [p ->].
    apply free_after. rewrite (proj2 (Z.leb_gt _ _)), Hsig, Hput, Z.add_0_r by done. done.
  - exists 1%nat. intros [|n] Hn c layout Hc Hlt Hroom; [lia|]. destruct (retrieve_S n off ext first c layout Hoff Hx) as [p ->].
    apply free_after. rewrite (proj2 (Z.leb_gt _ _)), Hsig by done. cbn [negb]. rewrite length_fmap in Hlt, Hroom |- *.
    pose proof (iterate_entries_run (λ offset first, retrieve n d offset true first) m off ext first
      (if ext then 2 else 4) 0 c layout s0 ltac:(by destruct ext; lia) Hc) as Hrun.
    fold (boot_record m off ext) in Hrun. rewrite Hrec in Hrun. by apply Hrun.
  - destruct IH as [n0 IH]; [unfold u32; lia|]. exists (S n0). intros [|n] Hn c layout Hc Hlt Hroom; [lia|].
    destruct (retrieve_S n off ext first c layout Hoff Hx) as [p ->].
    apply free_after. rewrite (proj2 (Z.leb_gt _ _)), Hsig by done. cbn [negb].
    pose proof (iterate_entries_run (λ offset first, retrieve n d offset true first) m off ext first
      (if ext then 2 else 4) 0 c layout s0 ltac:(by destruct ext; lia) Hc) as Hrun.
    fold (boot_record m off ext) in Hrun. rewrite Hrec in Hrun. rewrite length_app, length_fmap in Hlt, Hroom |- *.
    rewrite Nat2Z.inj_add, Z.add_assoc in Hroom, Hlt |- *.
    rewrite Hrun; [|lia|destruct layout; cbn in Hroom |- *; [lia|done]].
    rewrite (IH n); [|lia..|by apply room_put].
    pose proof (put_app c (partition_of off <$> es) l layout Hc) as Happ. rewrite length_fmap in Happ.
    destruct st as [st|]; [by rewrite Happ|done].
Qed.
(** A disk whose chain of boot records comes back to a record: the recursion has no end. *)
Lemma retrieve_cyclic off first es e :
  0 ≤ off < 2 ^ 32 → first ≠ 0 → off < total → signature_ok m off = true → boot_record m off true = (es, Some e) →
  u32 (FirstSectorLBA e + first) = off → es = [] → ∀ n c layout, 0 ≤ c < 2 ^ 32 → room layout c →
  retrieve n d off true first c layout s0 = OutOfFuel.
Proof using Hread Hwrite Halloc Hfree Hstack Hd.
  intros Hoff Hfirst Hin Hsig Hrec Hback ->. assert (Hx : xorb true (0 =? first) = true) by (by rewrite (proj2 (Z.eqb_neq 0 first))).
  induction n as [|n IH]; intros c layout Hc Hroom; [done|].
  destruct (retrieve_S n off true first c layout Hoff Hx) as [p ->].
  apply free_after. rewrite (proj2 (Z.leb_gt _ _)), Hsig by done. cbn [negb].
  pose proof (iterate_entries_run (λ offset first, retrieve n d offset true first) m off true first 2 0 c layout s0
    ltac:(lia) ltac:(lia)) as Hrun.
  fold (boot_record m off true) in Hrun. rewrite Hrec in Hrun. cbn [length] in Hrun. rewrite Z.add_0_r in Hrun.
  change (partition_of off <$> []) with (@nil PARTITION_INFORMATION) in Hrun.
  rewrite Hrun by (first [lia|done]). rewrite Hback. apply IH; [done|by apply room_put].
Qed.

(** ** The partitions of a disk *)
Lemma set_layout_run nn lay att l :
  io_devices s0 !! d = Some (mkDevice DiskDriverEntry_DispatchFunctions (DiskExtension (mkDisk nn a lay)) 2 512 att) →
  set_layout d l s0 = Ret (tt, mkIo (<[d := mkDevice DiskDriverEntry_DispatchFunctions (DiskExtension (mkDisk nn a (Some l))) 2 512 att]>
    (io_devices s0)) (io_locked s0) (io_media s0)).
Proof using.
  intros Hdev. unfold set_layout, get_disk, set_extension, get_device. munfold. cbn. rewrite Hdev. cbn. by rewrite Hdev.
Qed.
(** The disk when its layout is set *)
Definition with_layout (l : list PARTITION_INFORMATION) (s : IO) : IO :=
  mkIo (alter (λ dev, mkDevice (DispatchFunctions dev)
      (match DeviceExtension dev with DiskExtension x => DiskExtension (mkDisk (NumberOfSectors x) (DiskDeviceController x) (Some l)) | x => x end)
      (StackSize dev) (DeviceAlignment dev) (AttachedDevice dev)) d (io_devices s)) (io_locked s) (io_media s).
Lemma retrieve_partitions_run st l :
  partition_table m total 0 false 0 st l → Z.of_nat (length l) < 2 ^ 27 → ∃ n0, ∀ n, (n0 ≤ n)%nat →
  _DiskRetrievePartitionsFromDisk (S (S f)) AtaTransfer ExAllocatePoolWithTag ExFreePoolWithTag n d s0
  = match st with Some st => Ret (st, if SUCCEEDED st then with_layout l s0 else s0) | None => Panic end.
Proof using Hread Hwrite Halloc Hfree Hstack Hd.
  intros Htable Hsmall. destruct (retrieve_run 0 false 0 st l Htable ltac:(lia)) as [n0 Hrun]. exists n0. intros n Hn.
  unfold _DiskRetrievePartitionsFromDisk. specialize (Hrun n Hn).
  destruct st as [st|]; [|unfold mbind, M_bind; by rewrite (Hrun 0 None ltac:(lia) ltac:(lia) I)].
  mrun (Hrun 0 None ltac:(lia) ltac:(lia) I). destruct (SUCCEEDED st) eqn:Hst; [|done]. cbn [negb].
  rewrite Z.add_0_l. set (k := Z.of_nat (length l)) in *.
  unfold sizeof_DISK_LAYOUT_INFORMATION, sizeof_PARTITION_INFORMATION. rewrite (u32_id (8 + k * 24)) by lia.
  destruct (Halloc s0 PoolAllocateZeroMemory (8 + k * 24) HEAP_DISK_TAG 0) as (p & Hp & Hnull). mrun Hp.
  rewrite (proj2 (Z.eqb_neq p NULL)) by done. replace ((8 + k * 24 - 8) / 24) with k by lia.
  replace (Z.to_nat k) with (length l) by lia.
  mrun (Hrun 0 (Some (replicate (length l) (mkPartition 0 0 0 false))) ltac:(lia) ltac:(lia)
    ltac:(cbn; rewrite length_replicate; lia)).
  rewrite Hst. cbn [negb put fmap option_fmap option_map]. erewrite bind_Ret by reflexivity. cbn beta.
  rewrite Z.add_0_l. replace (Z.to_nat k) with (length l) by lia.
  change (Z.to_nat 0) with 0%nat. rewrite inserts_all by by rewrite length_replicate.
  rewrite take_ge by done. pose proof Hstack as [(nn & lay & att & Hdev) _ _ _ _ _].
  mrun (set_layout_run nn lay att l Hdev). unfold with_layout. unfold mret, M_ret. do 3 f_equal.
  exact (insert_as_alter _ _ _ _ Hdev).
Qed.
(** Partitions of a table have the form that a volume relies on. *)
Lemma partition_table_ok off ext first st l : volume_ok m → partition_table m total off ext first st l → Forall partition_ok l.
Proof using.
  intros Hm. assert (Hone : ∀ off e n ext i, e ∈ entries m off ext n i → partition_ok (partition_of off e)).
  { intros off' e n ext'. induction n as [|n IH]; intros i; cbn [entries]; [by intros ?%not_elem_of_nil|].
    destruct (ext' && zero_entry m off' i); [by intros ?%not_elem_of_nil|]. intros [He|He]%elem_of_app; [|by apply (IH (S i))].
    destruct (valid_entry _); [|by apply not_elem_of_nil in He]. apply list_elem_of_singleton in He as ->.
    unfold partition_ok, partition_of, entry_of, u32. cbn. split; [lia|].
    exact (word_bound m (entry_offset off' i + 12) 4 Hm). }
  assert (Hsub : ∀ es e, e ∈ (split_extended es).1 → e ∈ es).
  { induction es as [|x es IH]; intros e; cbn; [done|]. destruct (extended_entry x); cbn; [by intros ?%not_elem_of_nil|].
    rewrite !elem_of_cons. naive_solver. }
  assert (Hes : ∀ off ext es x, boot_record m off ext = (es, x) → Forall partition_ok (partition_of off <$> es)).
  { intros off' ext' es x Hrec. apply Forall_fmap, Forall_forall. intros e He. eapply Hone, Hsub.
    unfold boot_record in Hrec. by rewrite Hrec. }
  induction 1 as [| | |? ? ? ? ? ? ? Hrec|? ? ? ? ? ? ? ? ? ? Hrec _ IH]; [done..|by eapply Hes|].
  apply Forall_app. split; [by eapply Hes|done].
Qed.
End Disk.

(** * Properties *)
(** C35: _DiskRetrievePartitionsFromDisk, on a disk whose boot records form a chain with an end and
    with fewer than 2^27 partitions, ends whatever the records hold, on a controller that transfers
    sectors and an allocator that does not fail: either an assertion fails, which is so exactly when
    the reading comes to an entry for an extended partition at the sector 0, or it answers the status of
    reading the chain. When that is a success the layout of the disk is the list of what the code
    looks for, in the order of the records: of each record the entries with the status 0x80 or 0 in
    front of the first one for an extended partition, up to the first entry of zeros when the record
    is one of the extended partition; in the master boot record that includes unused entries. The
    second pass over the records stays within the structure that was allocated for what the first
    one counted. On an orderly disk, where nothing is in use behind the entry for the extended
    partition of a record nor behind an entry of zeros in the extended partition, those of the list
    that have a type are exactly the partitions of the disk: every entry of every record of the
    chain that is in use and does not link to another record, once, at its place in the order. The
    disk is as before otherwise, no lock is held, and each partition of the list has the form that a
    volume relies on. *)
Theorem DiskRetrievePartitionsFromDisk_finds AtaTransfer ExAllocatePoolWithTag ExFreePoolWithTag d a total m s st l f
  (Hread : reads_sectors AtaTransfer) (Hwrite : writes_sectors AtaTransfer)
  (Halloc : allocates ExAllocatePoolWithTag) (Hfree : frees ExFreePoolWithTag)
  (Hstack : disk_stack s d a total m) (Hd : d ≠ NULL) (Hm : volume_ok m)
  (Htable : partition_table m total 0 false 0 st l) (Hsmall : Z.of_nat (length l) < 2 ^ 27) :
  (∃ n0, ∀ n, (n0 ≤ n)%nat →
    _DiskRetrievePartitionsFromDisk (S (S f)) AtaTransfer ExAllocatePoolWithTag ExFreePoolWithTag n d s
    = match st with Some st => Ret (st, if SUCCEEDED st then with_layout d l s else s) | None => Panic end)
  ∧ (∀ rs, st = Some STATUS_SUCCESS → record_chain m 0 false 0 rs → Forall (orderly m) rs →
      List.filter used_partition l = rs ≫= record_partitions m)
  ∧ Forall partition_ok l ∧ disk_stack (with_layout d l s) d a total m.
Proof.
  split; [by apply (retrieve_partitions_run AtaTransfer ExAllocatePoolWithTag ExFreePoolWithTag Hread Hwrite Halloc Hfree d a total m s)|].
  split; [intros rs; by apply (partition_table_orderly m total 0 false 0)|]. split; [by eapply partition_table_ok|].
  destruct Hstack as [(nn & lay & att & H1) (att' & H2) H3 H4 H5 H6]. split; try done.
  - exists nn, (Some l), att. cbn. by rewrite lookup_alter_eq, H1.
  - exists att'. cbn. by rewrite lookup_alter_ne.
Qed.

(** Two partitions in the master boot record, with an unused entry and one that is not valid, and
    one in the extended partition. *)
Definition sample_entry (status type lba sectors : Z) : list Z :=
  [status; 0; 0; 0; type; 0; 0; 0] ++ le_bytes 4 lba ++ le_bytes 4 sectors.
Definition sample_record (entries : list (list Z)) : list Z :=
  replicate 446 0 ++ take 64 (concat entries ++ replicate 64 0) ++ [0x55; 0xAA].
Definition sample_table : list Z :=
  sample_record [sample_entry 0x80 0xC 1 2; sample_entry 0 0 0 0; sample_entry 0x7F 0xC 9 9; sample_entry 0 0x5 3 2]
  ++ replicate 1024 0 ++ sample_record [sample_entry 0 0xC 1 1].
Lemma DiskRetrievePartitionsFromDisk_finds_witness :
  let l := [mkPartition 1 2 0xC true; mkPartition 0 0 0 false; mkPartition 4 1 0xC false] in
  let m := sample_medium 5 sample_table in
  let s := sample_machine 5 sample_table (mkPartition 0 0 0 false) in
  (∃ n0, ∀ n, (n0 ≤ n)%nat →
    _DiskRetrievePartitionsFromDisk 2 sample_transfer sample_allocate sample_free n 2 s
    = Ret (STATUS_SUCCESS, with_layout 2 l s))
  ∧ List.filter used_partition l = [(0, false); (3, true)] ≫= record_partitions m
  ∧ Forall partition_ok l.
Proof.
  intros l m s. assert (Htable : partition_table m 5 0 false 0 (Some STATUS_SUCCESS) l).
  { eapply (table_next _ _ 0 false 0 [mkEntry 0x80 0xC 1 2; mkEntry 0 0 0 0] (mkEntry 0 0x5 3 2) (Some STATUS_SUCCESS)
      [mkPartition 4 1 0xC false]); [vm_compute; reflexivity..|].
    eapply (table_last _ _ 3 true 3 [mkEntry 0 0xC 1 1]); vm_compute; reflexivity. }
  destruct (DiskRetrievePartitionsFromDisk_finds sample_transfer sample_allocate sample_free 2 1 5 m s
    (Some STATUS_SUCCESS) l 0 sample_reads sample_writes sample_allocates sample_frees
    (sample_disk 5 sample_table (mkPartition 0 0 0 false) eq_refl) ltac:(vm_compute; congruence) (sample_medium_ok 5 sample_table)
    Htable eq_refl) as (H1 & H2 & H3 & _).
  split; [exact H1|]. split; [|exact H3]. apply H2; [reflexivity| |].
  - eapply (chain_next _ 0 false 0 (mkEntry 0 0x5 3 2)); [vm_compute; reflexivity|].
    eapply (chain_last _ 3 true 3). vm_compute. reflexivity.
  - repeat constructor; intros i j Hij Hor Hj; cbn in Hj.
    + assert (i = 0%nat ∨ i = 1%nat ∨ i = 2%nat) as [->|[->| ->]] by lia; destruct Hor as [Hor|[Hor _]]; vm_compute in Hor; contradiction || discriminate.
    + assert (i = 0%nat ∧ j = 1%nat) as [-> ->] by lia. vm_compute. reflexivity.
Defined.

(** An extended partition whose second record is the first one again: the records are read without
    end. *)
Lemma cyclic_extended_partition_never_ends n :
  _DiskRetrievePartitionsFromDisk 2 sample_transfer sample_allocate sample_free n 2
    (sample_machine 2 (sample_record [sample_entry 0 0x5 1 1] ++ sample_record [sample_entry 0 0x5 0 1]) (mkPartition 0 0 0 false))
  = OutOfFuel.
Proof.
  set (image := _ ++ _). set (s := sample_machine _ _ _). unfold _DiskRetrievePartitionsFromDisk. apply bind_OutOfFuel.
  pose proof (sample_disk 2 image (mkPartition 0 0 0 false) eq_refl : disk_stack s 2 1 2 (sample_medium 2 image)) as Hs.
  destruct n as [|n]; [done|].
  destruct (retrieve_S sample_transfer sample_allocate sample_free sample_reads sample_writes sample_allocates sample_frees
    2 1 2 (sample_medium 2 image) s Hs ltac:(done) 0 n 0 false 0 0 None ltac:(lia) eq_refl) as [p ->].
  apply (free_after sample_free sample_frees).
  pose proof (iterate_entries_run (λ offset first, _DiskRetrievePartitionsFromDiskStartingAtOffset 2 sample_transfer sample_allocate
    sample_free n 2 offset true first) (sample_medium 2 image) 0 false 0 4 0 0 None s ltac:(lia) ltac:(lia)) as Hrun.
  replace (split_extended _) with ([] : list MBR_PARTITION_ENTRY, Some (mkEntry 0 0x5 1 1)) in Hrun by (vm_compute; reflexivity).
  replace (signature_ok _ _) with true by (vm_compute; reflexivity).
  specialize (Hrun eq_refl I). cbn [FirstSectorLBA length] in Hrun. change (Z.of_nat 0) with 0 in Hrun.
  change (u32 (1 + 0)) with 1 in Hrun. change (0 + 0) with 0 in Hrun. change (put 0 _ None) with (None : LAYOUT) in Hrun.
  assert (Hsig : signature_ok (sample_medium 2 image) 1 = true) by (vm_compute; reflexivity).
  assert (Hrec : boot_record (sample_medium 2 image) 1 true = ([], Some (mkEntry 0 0x5 0 1))) by (vm_compute; reflexivity).
  pose proof (retrieve_cyclic sample_transfer sample_allocate sample_free sample_reads sample_writes sample_allocates sample_frees
    2 1 2 (sample_medium 2 image) s Hs ltac:(done) 0 1 1 [] (mkEntry 0 0x5 0 1) ltac:(lia) ltac:(done) ltac:(lia) Hsig Hrec
    eq_refl eq_refl n 0 None ltac:(lia) I) as Hcyc.
  exact (eq_trans Hrun Hcyc).
Qed.
(** An entry for an extended partition at the sector 0: an assertion fails on what the disk holds. *)
Lemma extended_partition_at_0_panics n :
  _DiskRetrievePartitionsFromDisk 2 sample_transfer sample_allocate sample_free (S (S n)) 2
    (sample_machine 1 (sample_record [sample_entry 0 0x5 0 1]) (mkPartition 0 0 0 false)) = Panic.
Proof. vm_compute. reflexivity. Qed.
(** The unused entries of the master boot record are listed as partitions without sectors. *)
Lemma unused_entries_are_listed n :
  let s := sample_machine 1 (sample_record [sample_entry 0x80 0xC 1 2]) (mkPartition 0 0 0 false) in
  _DiskRetrievePartitionsFromDisk 2 sample_transfer sample_allocate sample_free (S n) 2 s
  = Ret (STATUS_SUCCESS, with_layout 2 (mkPartition 1 2 0xC true :: replicate 3 (mkPartition 0 0 0 false)) s).
Proof. vm_compute. reflexivity. Qed.
(** A partition whose entry is behind that of the extended partition is not listed. *)
Lemma entries_behind_the_extended_one_are_dropped :
  let s := sample_machine 4 (sample_record [sample_entry 0 0x5 3 1; sample_entry 0 0xC 1 2] ++ replicate 1024 0 ++ sample_record [])
    (mkPartition 0 0 0 false) in
  _DiskRetrievePartitionsFromDisk 2 sample_transfer sample_allocate sample_free 2 2 s = Ret (STATUS_SUCCESS, with_layout 2 [] s).
Proof. vm_compute. reflexivity. Qed.
