(* ===== verification/Mmu.v ===== *)
(** HAL9000/src/mmu.c and vmm.c: the memory of the system, composed of its parts.

    The state holds what the modules of the memory manager keep: the paging structures, the
    physical memory manager, the reservations of the kernel and of the process that the current
    thread belongs to, and the memory itself. The operations of a module run in it through a
    lens. *)
From S2P Require Import Prelude Memory Bitmap Cpu Spinlock RwSpinlock Pmm VmReservation BitField PageTables.
From S2P Require Import PageTablesSpec.

(** A reservation space with the memory at its ReservationList and of its commit bitmaps. *)
Record VA_SPACE := mkVaSpace {
  va_space : VMM_RESERVATION_SPACE;
  va_entries : list VMM_RESERVATION;
  va_bytes : gmap Z Z
}.
(** The two spaces a PVMM_RESERVATION_SPACE points to: m_vmmData.VmmReservationSpace and the
    VaSpace of the current process. *)
Inductive PVMM_RESERVATION_SPACE : Set := kernel_space | process_space.

Record MM := mkMM {
  mm_paging : PAGING;
  mm_pmm : PMM_DATA;
  mm_pmm_bytes : gmap Z Z;
  mm_kernel : VA_SPACE;
  mm_process : VA_SPACE;
  (** The CPU: its flags, APIC id and control registers. *)
  mm_rflags : Z;
  mm_apic : Z;
  mm_cr0 : Z;
  mm_cr3 : Z;
  (** VmmMemoryAccess, when there is a PCPU, and its PageFaults. *)
  mm_access : option bool;
  mm_page_faults : Z;
  (** The memory that is not part of the structures above, by physical address. *)
  mm_ram : Z → Z
}.
#[export] Instance MM_HasCpu : HasCpu MM.
Proof.
  by refine {| get_rflags := mm_rflags; get_apic_id := mm_apic;
    set_rflags f s := mkMM (mm_paging s) (mm_pmm s) (mm_pmm_bytes s) (mm_kernel s) (mm_process s) f
      (mm_apic s) (mm_cr0 s) (mm_cr3 s) (mm_access s) (mm_page_faults s) (mm_ram s) |};
    intros; destruct s.
Defined.

Definition set_paging (p : PAGING) (s : MM) : MM :=
  mkMM p (mm_pmm s) (mm_pmm_bytes s) (mm_kernel s) (mm_process s) (mm_rflags s) (mm_apic s)
    (mm_cr0 s) (mm_cr3 s) (mm_access s) (mm_page_faults s) (mm_ram s).
Definition set_cr0 (v : Z) (s : MM) : MM :=
  mkMM (mm_paging s) (mm_pmm s) (mm_pmm_bytes s) (mm_kernel s) (mm_process s) (mm_rflags s) (mm_apic s)
    v (mm_cr3 s) (mm_access s) (mm_page_faults s) (mm_ram s).
Definition set_page_faults (n : Z) (s : MM) : MM :=
  mkMM (mm_paging s) (mm_pmm s) (mm_pmm_bytes s) (mm_kernel s) (mm_process s) (mm_rflags s) (mm_apic s)
    (mm_cr0 s) (mm_cr3 s) (mm_access s) n (mm_ram s).
Definition set_ram (r : Z → Z) (s : MM) : MM :=
  mkMM (mm_paging s) (mm_pmm s) (mm_pmm_bytes s) (mm_kernel s) (mm_process s) (mm_rflags s) (mm_apic s)
    (mm_cr0 s) (mm_cr3 s) (mm_access s) (mm_page_faults s) r.

Definition lens_paging : lens MM PAGING.
Proof. by refine (mkLens mm_paging set_paging _ _ _); intros; destruct s. Defined.
(** The physical memory manager, with the CPU it takes its lock on. *)
Definition lens_pmm : lens MM PMM_STATE.
Proof.
  by refine (mkLens (λ s, mkPS (mm_pmm s) (mm_pmm_bytes s) (mm_rflags s) (mm_apic s))
    (λ p s, mkMM (mm_paging s) (m_pmmData p) (ps_bytes p) (mm_kernel s) (mm_process s) (ps_rflags p)
       (ps_apic p) (mm_cr0 s) (mm_cr3 s) (mm_access s) (mm_page_faults s) (mm_ram s)) _ _ _);
    intros; destruct s; try destruct a.
Defined.
Definition space_of (k : PVMM_RESERVATION_SPACE) (s : MM) : VA_SPACE :=
  match k with kernel_space => mm_kernel s | process_space => mm_process s end.
(** A reservation space, with the CPU that works on it. *)
Definition lens_vm (k : PVMM_RESERVATION_SPACE) : lens MM VM.
Proof.
  by refine (mkLens (λ s, mkVM (va_space (space_of k s)) (va_entries (space_of k s))
      (va_bytes (space_of k s)) (mm_rflags s) (mm_apic s) (mm_access s))
    (λ v s, let x := mkVaSpace (vm_space v) (vm_entries v) (vm_bytes v) in
       mkMM (mm_paging s) (mm_pmm s) (mm_pmm_bytes s)
         (match k with kernel_space => x | process_space => mm_kernel s end)
         (match k with kernel_space => mm_process s | process_space => x end)
         (vm_rflags v) (vm_apic v) (mm_cr0 s) (mm_cr3 s) (vm_access v) (mm_page_faults s) (mm_ram s)) _ _ _);
    intros; destruct s as [???[][]]; destruct k; try destruct a.
Defined.
(** [&PagingData->Lock] *)
Definition lens_Lock (pd : PPAGING_DATA) : lens MM REC_RW_SPINLOCK.
Proof.
  by refine (mkLens (λ s, Lock (lock_data pd (mm_paging s)))
    (λ k s, let p := mm_paging s in
       set_paging (set_lock_data pd (mkLockData k (Data (lock_data pd p))) p) s) _ _ _);
    intros; destruct s as [[???[][]]]; destruct pd.
Defined.
#[export] Instance Lock_LensCpu pd : LensCpu (lens_Lock pd).
Proof. by split. Qed.

(** HAL/inc/pte.h, register.h *)
Definition VA_HIGHEST_VALID_BIT : Z := 47.
Definition CR0_WP : Z := Z.shiftl 1 16.

Section Ops.
(** gVirtualToPhysicalOffset, the bound on the rounds of the loops, the lock functions that were
    selected at the start and the return address that they store. *)
Variables (off : Z) (fuel : nat) (L : LOCK_FUNCS PMM_STATE) (ret : Z).
(** The part of mmu.c that hands frames to the zero worker thread. *)
Variable MmuReleaseMemory : Z → Z → M PAGING unit.

(** * vmm.c *)
Definition VmmMapMemoryEx (PagingData : option PPAGING_DATA) (PhysicalAddress Size PageRights : Z)
    (Invalidate Uncacheable : bool) : M MM Z :=
  if negb (bool_decide (is_Some PagingData)) then mret NULL else
  if negb (IsAddressAligned PhysicalAddress PAGE_SIZE) then mret NULL else
  if (0 =? Size) || negb (IsAddressAligned Size PAGE_SIZE) then mret NULL else
  pVirtualAddress ← zoom (lens_vm kernel_space) (VmReservationSpaceDetermineNextFreeVirtualAddress Size);
  ASSERT (IsAddressAligned pVirtualAddress PAGE_SIZE);;
  zoom lens_paging (VmmMapMemoryInternal off fuel PagingData PhysicalAddress Size pVirtualAddress
    PageRights Invalidate Uncacheable);;
  mret pVirtualAddress.

(** * mmu.c *)
(** [(PagingData == NULL) ? &m_mmuData.PagingData : PagingData] *)
Definition paging_or_kernel (PagingData : option PPAGING_DATA) : PPAGING_DATA :=
  default kernel_paging PagingData.

Definition MmuGetHighestPhysicalMemoryAddressPresent : M MM Z :=
  zoom lens_pmm PmmGetHighestPhysicalMemoryAddressPresent.

Definition MmuMapMemoryEx (PhysicalAddress Size PageRights : Z) (Invalidate Uncacheable : bool)
    (PagingData : option PPAGING_DATA) : M MM Z :=
  ASSERT (negb (Size =? 0));;
  let alignedPhysicalAddress := AlignAddressLower PhysicalAddress PAGE_SIZE in
  let alignmentDifferences := u32 (AddressOffset PhysicalAddress PAGE_SIZE) in
  let alignedSize := AlignAddressUpper (u64 (Size + alignmentDifferences)) PAGE_SIZE in
  highest ← MmuGetHighestPhysicalMemoryAddressPresent;
  ASSERT (alignedPhysicalAddress <? u64 (PtrDiff highest alignedSize));;
  let pd := paging_or_kernel PagingData in
  oldState ← RecRwSpinlockAcquire fuel (lens_Lock pd) true;
  pCurPointer ← VmmMapMemoryEx (Some pd) alignedPhysicalAddress alignedSize PageRights Invalidate Uncacheable;
  RecRwSpinlockRelease (lens_Lock pd) oldState true;;
  if NULL =? pCurPointer then mret NULL else mret (PtrOffset pCurPointer alignmentDifferences).

Definition MmuMapMemoryInternal (PhysicalAddress Size PageRights VirtualAddress : Z)
    (Invalidate Uncacheable : bool) (PagingData : option PPAGING_DATA) : M MM unit :=
  ASSERT (negb (0 =? Size));;
  ASSERT (IsAddressAligned Size PAGE_SIZE);;
  ASSERT (negb (NULL =? VirtualAddress));;
  ASSERT (IsAddressAligned VirtualAddress PAGE_SIZE);;
  let pd := paging_or_kernel PagingData in
  oldState ← RecRwSpinlockAcquire fuel (lens_Lock pd) true;
  zoom lens_paging (VmmMapMemoryInternal off fuel (Some pd) PhysicalAddress Size VirtualAddress
    PageRights Invalidate Uncacheable);;
  RecRwSpinlockRelease (lens_Lock pd) oldState true.

(** [alignedSize] is a DWORD. *)
Definition MmuUnmapMemoryEx (VirtualAddress Size : Z) (ReleaseMemory : bool)
    (PagingData : option PPAGING_DATA) : M MM unit :=
  ASSERT (negb (VirtualAddress =? NULL));;
  ASSERT (negb (Size =? 0));;
  let pd := paging_or_kernel PagingData in
  let alignedVirtualAddress := AlignAddressLower VirtualAddress PAGE_SIZE in
  let alignmentDifferences := u32 (VirtualAddress - alignedVirtualAddress) in
  let alignedSize := u32 (AlignAddressUpper (u64 (Size + alignmentDifferences)) PAGE_SIZE) in
  oldState ← RecRwSpinlockAcquire fuel (lens_Lock pd) true;
  cr3 ← gets (λ s, BasePhysicalAddress (paging_data pd (mm_paging s)));
  zoom lens_paging (VmmUnmapMemoryEx off fuel MmuReleaseMemory cr3 alignedVirtualAddress alignedSize
    ReleaseMemory);;
  RecRwSpinlockRelease (lens_Lock pd) oldState true.

Definition MmuGetPhysicalAddressEx (VirtualAddress : Z) (PagingData : option PPAGING_DATA) (Cr3Base : Z)
    : M MM Z :=
  if NULL =? VirtualAddress then mret NULL else
  ASSERT (xorb (bool_decide (is_Some PagingData)) (negb (Cr3Base =? NULL)));;
  let alignedAddress := AlignAddressLower VirtualAddress PAGE_SIZE in
  let alignmentDifference := u32 (AddressOffset VirtualAddress PAGE_SIZE) in
  oldState ← (match PagingData with
    | Some pd => RecRwSpinlockAcquire fuel (lens_Lock pd) false
    | None => mret INTR_OFF
    end);
  cr3 ← gets (λ s, match PagingData with
    | Some pd => BasePhysicalAddress (paging_data pd (mm_paging s))
    | None => Cr3Base
    end);
  '(pa, _, _) ← zoom lens_paging (VmmGetPhysicalAddressEx off fuel cr3 alignedAddress false false);
  (match PagingData with
   | Some pd => RecRwSpinlockRelease (lens_Lock pd) oldState false
   | None => mret tt
   end);;
  mret (PtrOffset pa alignmentDifference).

Definition MmuGetPhysicalAddress (VirtualAddress : Z) : M MM Z :=
  cr3 ← gets mm_cr3;
  MmuGetPhysicalAddressEx VirtualAddress None cr3.

(** * Accesses of the processor to memory *)
(** A write to a linear address in supervisor mode, through the tables of CR3. A page that is
    not mapped, or is read-only while CR0.WP is set, raises a page fault. *)
Definition physical (l va e : Z) : Z := page_address l (va - va mod 4096) e + va mod 4096.
Definition write_allowed (cr0 e : Z) : bool :=
  (get_field PT_ENTRY_ReadWrite e =? 1) || negb (IsBooleanFlagOn cr0 CR0_WP).
Definition write_byte (va v : Z) : M MM unit :=
  s ← get;
  match hw_walk off (pg_words (mm_paging s)) (mm_cr3 s) va with
  | Some (l, _, e) =>
      if write_allowed (mm_cr0 s) e
      then modify (set_ram (λ p, if p =? physical l va e then v else mm_ram s p))
      else fault
  | None => fault
  end.
Definition memzero (va n : Z) : M MM unit :=
  for_each (Z.to_nat n) 0 (λ i, write_byte (PtrOffset va i) 0).
End Ops.
