(* ===== verification/MmuSpec.v ===== *)
(** Runs of the operations of Mmu: what they leave of the composed state. *)
From S2P Require Import Prelude Memory Bitmap Cpu Spinlock RwSpinlock Pmm VmReservation BitField PageTables.
From S2P Require Import PageTablesSpec Mmu.

#[local] Ltac Zify.zify_post_hook ::= Z.to_euclidean_division_equations.

(** * The lock of the paging structures *)
Definition with_Lock (pd : PPAGING_DATA) (k : REC_RW_SPINLOCK) (p : PAGING) : PAGING :=
  set_lock_data pd (mkLockData k (Data (lock_data pd p))) p.
Lemma with_Lock_lens pd k s : lset (lens_Lock pd) k s = set_paging (with_Lock pd k (mm_paging s)) s.
Proof. reflexivity. Qed.
Lemma with_Lock_st pd k p base frames kernel w cur inv rel :
  with_Lock pd k (st p pd base frames kernel w cur inv rel)
  = st (with_Lock pd k p) pd base frames kernel w cur inv rel.
Proof. by destruct pd. Qed.
Lemma with_Lock_twice pd k k' p : with_Lock pd k (with_Lock pd k' p) = with_Lock pd k p.
Proof. by destruct pd. Qed.
Lemma with_Lock_self pd p : with_Lock pd (Lock (lock_data pd p)) p = p.
Proof. destruct p as [???[][]]. by destruct pd. Qed.
Lemma with_Lock_data pd k p : paging_data pd (with_Lock pd k p) = paging_data pd p.
Proof. by destruct pd. Qed.
Lemma with_Lock_words pd k p : pg_words (with_Lock pd k p) = pg_words p.
Proof. by destruct pd. Qed.
Lemma st_Lock pd p base frames kernel w cur inv rel :
  Lock (lock_data pd (st p pd base frames kernel w cur inv rel)) = Lock (lock_data pd p).
Proof. by destruct pd. Qed.
Lemma with_Lock_Lock pd k p : Lock (lock_data pd (with_Lock pd k p)) = k.
Proof. by destruct pd. Qed.
Lemma set_paging_twice p p' s : set_paging p (set_paging p' s) = set_paging p s.
Proof. reflexivity. Qed.
Lemma set_paging_self s : set_paging (mm_paging s) s = s.
Proof. by destruct s. Qed.

(** The lock is free, for [max] nested acquisitions. *)
Record lock_idle (pd : PPAGING_DATA) (max : Z) (s : MM) : Prop := {
  li_lock : Lock (lock_data pd (mm_paging s)) = rec_state 0 max NULL;
  li_max : 0 < max ≤ 255;
  li_apic : apic_ok (mm_apic s)
}.
Definition held_lock (max : Z) (s : MM) : REC_RW_SPINLOCK := rec_state 1 max (cpu_of (mm_apic s)).

Section Lock.
Variables (fuel : nat) (Hfuel : (0 < fuel)%nat).
Lemma paging_lock_run pd max s :
  lock_idle pd max s →
  RecRwSpinlockAcquire fuel (lens_Lock pd) true s = Ret (intr_of (mm_rflags s),
    set_paging (with_Lock pd (held_lock max s) (mm_paging s)) (set_rflags (intr_flags false (mm_rflags s)) s)).
Proof using Hfuel.
  intros [Hl Hm Ha]. by rewrite (rec_acquire_run fuel Hfuel (lens_Lock pd) s 0 max) by (done || lia).
Qed.
Lemma paging_unlock_run pd max old p s :
  lock_idle pd max s → Lock (lock_data pd p) = held_lock max s →
  let s1 := set_paging p (set_rflags (intr_flags false (mm_rflags s)) s) in
  ∃ f, RecRwSpinlockRelease (lens_Lock pd) old true s1
    = Ret (tt, set_paging (with_Lock pd (rec_state 0 max NULL) p) (set_rflags f s)) ∧ intr_of f = old.
Proof using Hfuel.
  intros [Hl Hm Ha] Hp s1. exists (intr_flags old (intr_flags false (mm_rflags s))).
  split; [|apply intr_of_flags].
  rewrite (rec_release_run fuel Hfuel (lens_Lock pd) s1 1 max old); [done|exact Hp|apply intr_of_flags|lia|lia].
Qed.
(** A section under the lock. *)
Lemma paging_section_run {A B} pd max (m : M PAGING A) (k : bool → A → M MM B) s a p :
  lock_idle pd max s → m (with_Lock pd (held_lock max s) (mm_paging s)) = Ret (a, p) →
  (oldState ← RecRwSpinlockAcquire fuel (lens_Lock pd) true;
   a ← zoom lens_paging m; k oldState a) s
  = k (intr_of (mm_rflags s)) a (set_paging p (set_rflags (intr_flags false (mm_rflags s)) s)).
Proof using Hfuel.
  intros Hl Hm. mrun (paging_lock_run pd max s Hl).
  by erewrite bind_Ret by (apply zoom_run; exact Hm).
Qed.
End Lock.

(** * Mapping *)
Section Map.
Variables (off : Z) (fuel : nat) (owned : Z → Prop) (pd : PPAGING_DATA).

Lemma well_formed_Lock k p :
  PageTablesSpec.well_formed off owned pd (with_Lock pd k p) ↔ PageTablesSpec.well_formed off owned pd p.
Proof. unfold PageTablesSpec.well_formed. by rewrite with_Lock_data, with_Lock_words. Qed.
Lemma translation_Lock k p va : translation off pd (with_Lock pd k p) va = translation off pd p va.
Proof. unfold translation. by rewrite with_Lock_data, with_Lock_words. Qed.
Lemma range_ok_page va : range_ok owned va 1 → 0 < va ∧ va mod 4096 = 0 ∧ va + 4096 ≤ 2 ^ 64.
Proof. intros (? & ? & _ & ? & _). lia. Qed.

(** Mapping does not touch the lock. *)
Lemma only_tables_Lock p p' k :
  only_tables_differ off owned pd (with_Lock pd k p) p' →
  Lock (lock_data pd p') = k ∧ ∀ k', only_tables_differ off owned pd (with_Lock pd k' p) (with_Lock pd k' p').
Proof.
  unfold only_tables_differ. intros [(w & cur & inv & ->) Hf].
  rewrite st_Lock, with_Lock_Lock. split; [done|]. intros k'.
  rewrite with_Lock_data in *. split.
  - exists w, cur, inv. rewrite with_Lock_data, with_Lock_st, with_Lock_twice. by destruct pd.
  - intros a Ha. rewrite with_Lock_data in Ha. rewrite !with_Lock_words. specialize (Hf a Ha). by rewrite with_Lock_words in Hf.
Qed.

(** What the mapping of a range leaves: the paging structures, and the flags with the interrupts
    as they were. *)
Record map_done (s : MM) (phys va n rights : Z) (inval uncach : bool) (p : PAGING) : Prop := {
  md_wf : PageTablesSpec.well_formed off owned pd p;
  md_same : only_tables_differ off owned pd (mm_paging s) p;
  md_lock : Lock (lock_data pd p) = Lock (lock_data pd (mm_paging s));
  md_index : CurrentIndex (paging_data pd p)
    ≤ CurrentIndex (paging_data pd (mm_paging s)) + tables_needed (page va) n;
  md_translation va' : owned (index 1 (page va')) →
    translation off pd p va' =
    if decide (in_range va n va')
    then mapped_pte (mm_paging s) (KernelSpace (paging_data pd (mm_paging s))) phys va rights inval uncach
           (translation off pd (mm_paging s) va') (va + 4096 * (page va' - page va))
    else translation off pd (mm_paging s) va'
}.

Lemma mapped_pte_Lock k p kernel phys va rights inval uncach o va' :
  mapped_pte (with_Lock pd k p) kernel phys va rights inval uncach o va'
  = mapped_pte p kernel phys va rights inval uncach o va'.
Proof. unfold mapped_pte, new_pte, page_flags. by destruct pd. Qed.

Lemma MmuMapMemoryInternal_run s max phys va n rights inval uncach PagingData :
  paging_or_kernel PagingData = pd → lock_idle pd max s →
  PageTablesSpec.well_formed off owned pd (mm_paging s) → range_ok owned va n →
  0 ≤ phys → phys mod 4096 = 0 → phys + 4096 * n ≤ 2 ^ 52 → (Z.to_nat n < fuel)%nat →
  CurrentIndex (paging_data pd (mm_paging s)) + tables_needed (page va) n
    ≤ NumberOfFrames (paging_data pd (mm_paging s)) →
  ∃ p f, MmuMapMemoryInternal off fuel phys (4096 * n) rights va inval uncach PagingData s
      = Ret (tt, set_paging p (set_rflags f s))
    ∧ intr_of f = intr_of (mm_rflags s) ∧ map_done s phys va n rights inval uncach p.
Proof.
  intros Hpd Hidle Hwf Hrange Hp1 Hp2 Hp3 Hf Hframes. pose proof Hidle as [Hl Hm Ha].
  pose proof Hrange as (Hva & Hvm & Hn & Htop & _).
  set (p0 := with_Lock pd (held_lock max s) (mm_paging s)).
  destruct (VmmMapMemoryInternal_run off fuel owned pd p0 phys va n rights inval uncach)
    as (p1 & Hrun & Hwf1 & Hsame & Hidx & Htr); [by apply well_formed_Lock|done|done|done|done|done|..].
  { unfold p0. by rewrite with_Lock_data. }
  destruct (only_tables_Lock _ _ _ Hsame) as [Hlock Hsame'].
  destruct (paging_unlock_run fuel ltac:(lia) pd max (intr_of (mm_rflags s)) p1 s Hidle Hlock) as (f & Hrel & Hintr).
  exists (with_Lock pd (rec_state 0 max NULL) p1), f. split; [|split; [done|]].
  - pose proof (size_ok owned n ltac:(lia) ltac:(lia)) as [H1 H2]%andb_true_iff.
    unfold MmuMapMemoryInternal. massert ltac:(exact H1). massert ltac:(exact H2).
    massert ltac:(apply negb_true_iff, Z.eqb_neq; unfold NULL; lia).
    massert ltac:(by apply (aligned_4096 owned); [lia|]). rewrite Hpd.
    by rewrite (paging_section_run fuel ltac:(lia) pd max _ _ s tt p1 Hidle Hrun).
  - split.
    + by apply well_formed_Lock.
    + rewrite <-(with_Lock_self pd (mm_paging s)), Hl. by apply Hsame'.
    + by rewrite with_Lock_Lock, Hl.
    + rewrite with_Lock_data. unfold p0 in Hidx. by rewrite with_Lock_data in Hidx.
    + intros va' Ho. rewrite translation_Lock, Htr by done. unfold p0.
      by rewrite translation_Lock, with_Lock_data, mapped_pte_Lock.
Qed.
End Map.

(** * Unmapping *)
Lemma AlignAddressUpper_4096 x :
  0 ≤ x → x + 4095 < 2 ^ 64 → AlignAddressUpper x PAGE_SIZE = 4096 * ((x + 4095) / 4096).
Proof.
  intros H1 H2. change PAGE_SIZE with (2 ^ 12). rewrite AlignAddressUpper_pow2 by lia.
  change (2 ^ 12) with 4096. do 2 f_equal. lia.
Qed.
Lemma AlignAddressLower_4096 x : 0 ≤ x < 2 ^ 64 → AlignAddressLower x PAGE_SIZE = x - x mod 4096.
Proof.
  intros H. change PAGE_SIZE with (2 ^ 12). rewrite AlignAddressLower_pow2 by lia. change (2 ^ 12) with 4096. lia.
Qed.
Lemma page_lower va : page (va - va mod 4096) = page va.
Proof. unfold page. f_equal. lia. Qed.
Lemma page_offset va i : va mod 4096 = 0 → 0 ≤ i < 4096 → page (va + i) = page va.
Proof. intros H1 H2. unfold page. f_equal. lia. Qed.

Section Unmap.
Variables (off : Z) (fuel : nat) (owned : Z → Prop) (pd : PPAGING_DATA).
Variable MmuReleaseMemory : Z → Z → M PAGING unit.
Hypothesis Hrelease : ∀ pa s,
  MmuReleaseMemory pa 1 s = Ret (tt, set_released (pg_released s ++ [(pa, 1)]) s).

(** The pages that a range of bytes touches, and those that are unmapped: the size is kept in 32
    bits. *)
Definition page_count (va size : Z) : Z := (va mod 4096 + size + 4095) / 4096.
Definition unmapped_count (va size : Z) : Z := page_count va size mod 2 ^ 20.

Record unmap_done (s : MM) (va n : Z) (release : bool) (p : PAGING) : Prop := {
  ud_wf : PageTablesSpec.well_formed off owned pd p;
  ud_data : lock_data pd p = lock_data pd (mm_paging s);
  ud_released : pg_released p = pg_released (mm_paging s) ++
    released_pages release (λ pg, translation off pd (mm_paging s) (4096 * pg)) (page va) 0 n;
  ud_foreign a : foreign off (BasePhysicalAddress (paging_data pd p)) (NumberOfFrames (paging_data pd p)) owned a →
    pg_words p !! a = pg_words (mm_paging s) !! a;
  ud_translation va' : owned (index 1 (page va')) →
    translation off pd p va' = if decide (in_range va n va') then None else translation off pd (mm_paging s) va'
}.

Lemma cr3_of_base p : PageTablesSpec.well_formed off owned pd p → cr3_of pd p (BasePhysicalAddress (paging_data pd p)).
Proof using. intros [Har _]. exact (cr3_base off _ _ _ Har). Qed.

Lemma MmuUnmapMemoryEx_run s max va size release PagingData (n := unmapped_count va size) :
  paging_or_kernel PagingData = pd → lock_idle pd max s →
  PageTablesSpec.well_formed off owned pd (mm_paging s) → 0 < va < 2 ^ 64 → 0 < size →
  va mod 4096 + size + 4095 < 2 ^ 64 →
  range_ok owned (va - va mod 4096) n → (Z.to_nat n < fuel)%nat →
  ∃ p f, MmuUnmapMemoryEx off fuel MmuReleaseMemory va size release PagingData s
      = Ret (tt, set_paging p (set_rflags f s))
    ∧ intr_of f = intr_of (mm_rflags s) ∧ unmap_done s va n release p.
Proof using Hrelease.
  intros Hpd Hidle Hwf Hva Hsz Hdw Hrange Hf. pose proof Hidle as [Hl Hm Ha].
  assert (Hn : u32 (4096 * ((va mod 4096 + size + 4095) / 4096)) = 4096 * n).
  { unfold u32, n, unmapped_count, page_count. change (2 ^ 32) with (4096 * 2 ^ 20).
    rewrite Z.mul_mod_distr_l by lia. reflexivity. }
  clearbody n.
  set (p0 := with_Lock pd (held_lock max s) (mm_paging s)).
  assert (Hwf0 : PageTablesSpec.well_formed off owned pd p0) by by apply well_formed_Lock.
  destruct (VmmUnmapMemoryEx_run off fuel owned pd MmuReleaseMemory Hrelease p0
    (BasePhysicalAddress (paging_data pd (mm_paging s))) (va - va mod 4096) n release)
    as (p1 & Hrun & Hwf1 & [(w & inv & Hp1) Hfor] & Htr); [done| |done|done|].
  { unfold p0. rewrite <-(with_Lock_data pd (held_lock max s)). by apply cr3_of_base. }
  assert (Hlock : Lock (lock_data pd p1) = held_lock max s).
  { rewrite Hp1, st_Lock. apply with_Lock_Lock. }
  destruct (paging_unlock_run fuel ltac:(lia) pd max (intr_of (mm_rflags s)) p1 s Hidle Hlock) as (f & Hrel & Hintr).
  exists (with_Lock pd (rec_state 0 max NULL) p1), f. split; [|split; [done|]].
  - unfold MmuUnmapMemoryEx. massert ltac:(apply negb_true_iff, Z.eqb_neq; unfold NULL; lia).
    massert ltac:(apply negb_true_iff, Z.eqb_neq; lia). rewrite Hpd, AlignAddressLower_4096 by lia.
    replace (u32 (va - (va - va mod 4096))) with (va mod 4096) by (rewrite u32_id; lia).
    rewrite u64_id by lia. rewrite AlignAddressUpper_4096 by lia.
    replace (size + va mod 4096 + 4095) with (va mod 4096 + size + 4095) by lia. rewrite Hn.
    mrun (paging_lock_run fuel ltac:(lia) pd max s Hidle). erewrite bind_Ret by apply gets_run. cbn beta iota.
    change (paging_data pd (mm_paging (set_paging ?p ?x))) with (paging_data pd p). rewrite with_Lock_data.
    erewrite bind_Ret by (apply zoom_run; exact Hrun). cbn beta iota. exact Hrel.
  - assert (Hd : paging_data pd p1 = paging_data pd (mm_paging s)).
    { rewrite Hp1, st_paging. unfold p0. rewrite with_Lock_data. by destruct (paging_data pd (mm_paging s)). }
    split.
    + by apply well_formed_Lock.
    + unfold with_Lock. unfold paging_data in Hd. rewrite Hd, <-Hl. destruct (mm_paging s) as [???[][]]; by destruct pd, p1.
    + transitivity (pg_released p1); [by destruct pd|]. rewrite Hp1, st_released, page_lower. unfold p0.
      f_equal; [by destruct pd|]. apply released_pages_ext. intros j _. by rewrite translation_Lock.
    + intros a. rewrite with_Lock_data, with_Lock_words, Hd. unfold p0 in Hfor. intros Hfa. rewrite Hfor.
      * by rewrite with_Lock_words.
      * by rewrite with_Lock_data.
    + intros va' Ho. rewrite translation_Lock, Htr by done.
      unfold p0. rewrite translation_Lock. apply decide_ext. unfold in_range. by rewrite page_lower.
Qed.
End Unmap.

(** * Translating *)
Lemma hw_levels_lookup off w offsets i pa l a e :
  hw_levels off w offsets i pa = Some (l, a, e) → w !! a = Some e ∧ present e = true.
Proof.
  revert i pa. induction offsets as [|o offsets IH]; intros i pa; cbn [hw_levels]; [done|]. cbv zeta.
  destruct (w !! entry_at off pa o) as [x|] eqn:Hx; cbn; [|done].
  destruct (present x) eqn:Hp; cbn; [|done]. destruct ((i =? 4) || large x); [|apply IH].
  by intros [= <- <- <-].
Qed.
Lemma hw_walk_page off w cr3 va va' : page va = page va' → hw_walk off w cr3 va = hw_walk off w cr3 va'.
Proof. unfold hw_walk. by intros ->. Qed.

Lemma hw_walk_cr3 off w cr3 base va :
  4096 * get_field PML4_Pcide_PhysicalAddress cr3 = 4096 * get_field PML4_Pcide_PhysicalAddress base →
  hw_walk off w cr3 va = hw_walk off w base va.
Proof. unfold hw_walk. by intros ->. Qed.
(** The tree maps pages of 4 KB only. *)
Lemma translation_walk off owned pd p cr3 va e :
  PageTablesSpec.well_formed off owned pd p → cr3_of pd p cr3 → owned (index 1 (page va)) →
  translation off pd p va = Some e → ∃ a, hw_walk off (pg_words p) cr3 va = Some (4, a, e).
Proof.
  intros [Har [T Htb]] Hcr Ho Htr. rewrite (hw_walk_cr3 _ _ _ (BasePhysicalAddress (paging_data pd p))).
  2: { unfold cr3_of in Hcr. rewrite Hcr. by rewrite (cr3_base off _ _ _ Har). }
  unfold translation, hw_pte in Htr. rewrite (hw_walk_tables off _ _ owned _ _ _ Har Htb) in * by done.
  destruct (page_entry _ _ _ _ _) as [[a x]|]; [|done]. cbn in *. injection Htr as ->. by exists a.
Qed.

Section Translate.
Variables (off : Z) (fuel : nat).

(** The physical address that the processor reaches. *)
Definition reached (w : gmap Z Z) (cr3 va : Z) : option Z :=
  match hw_walk off w cr3 va with
  | Some (l, _, e) => Some (page_address l (va - va mod 4096) e + va mod 4096)
  | None => None
  end.
(** What the code answers for the byte: the offset in its page when the page is not mapped. *)
Definition physical_address (w : gmap Z Z) (cr3 va : Z) : Z :=
  match hw_walk off w cr3 va with
  | Some (l, _, e) => PtrOffset (page_address l (va - va mod 4096) e) (va mod 4096)
  | None => va mod 4096
  end.
(** The tables that the caller asks for: those of a PAGING_LOCK_DATA or those at an address. *)
Definition tables_asked (PagingData : option PPAGING_DATA) (Cr3Base : Z) (s : MM) : Z :=
  match PagingData with
  | Some pd => BasePhysicalAddress (paging_data pd (mm_paging s))
  | None => Cr3Base
  end.
Definition asked_one (max : Z) (PagingData : option PPAGING_DATA) (Cr3Base : Z) (s : MM) : Prop :=
  match PagingData with
  | Some pd => Cr3Base = NULL ∧ lock_idle pd max s
  | None => Cr3Base ≠ NULL
  end.

Lemma VmmGetPhysicalAddressEx_plain p cr3 va :
  0 < va < 2 ^ 64 → va mod 4096 = 0 → walk_ok off (pg_words p) cr3 va = true → (1 < fuel)%nat →
  VmmGetPhysicalAddressEx off fuel cr3 va false false p
  = Ret ((match hw_walk off (pg_words p) cr3 va with Some (l, _, e) => page_address l va e | None => NULL end,
         None, None), p).
Proof.
  intros Hva Hvm Hok Hf.
  rewrite (VmmGetPhysicalAddressEx_run off fuel (λ _, True) kernel_paging) by assumption.
  destruct (hw_walk off (pg_words p) cr3 va) as [[[l a] e]|] eqn:Hw; [|done].
  apply hw_levels_lookup in Hw as [Hw _]. unfold cleared. cbn [orb retrieved PhysicalAddress].
  rewrite insert_id by done. by destruct p.
Qed.

Lemma MmuGetPhysicalAddressEx_run s max va PagingData Cr3Base :
  let cr3 := tables_asked PagingData Cr3Base s in
  asked_one max PagingData Cr3Base s → 4096 ≤ va < 2 ^ 64 →
  walk_ok off (pg_words (mm_paging s)) cr3 va = true → (1 < fuel)%nat →
  ∃ f, MmuGetPhysicalAddressEx off fuel va PagingData Cr3Base s
      = Ret (physical_address (pg_words (mm_paging s)) cr3 va, set_rflags f s)
    ∧ intr_of f = intr_of (mm_rflags s).
Proof.
  intros cr3 Hask Hva Hok Hf. unfold MmuGetPhysicalAddressEx.
  rewrite (proj2 (Z.eqb_neq NULL va)) by (unfold NULL; lia).
  rewrite AlignAddressLower_4096 by lia.
  replace (u32 (AddressOffset va PAGE_SIZE)) with (va mod 4096).
  2: { unfold AddressOffset. change (PAGE_SIZE - 1) with (Z.ones 12). rewrite Z.land_ones by lia.
       change (2 ^ 12) with 4096. rewrite u32_id; lia. }
  assert (Hget : ∀ p, pg_words p = pg_words (mm_paging s) →
    VmmGetPhysicalAddressEx off fuel cr3 (va - va mod 4096) false false p
    = Ret ((match hw_walk off (pg_words (mm_paging s)) cr3 va with
            | Some (l, _, e) => page_address l (va - va mod 4096) e | None => NULL end, None, None), p)).
  { intros p Hp. rewrite VmmGetPhysicalAddressEx_plain; [|lia|lia| |done].
    - by rewrite Hp, (hw_walk_page off _ cr3 _ va) by apply page_lower.
    - unfold walk_ok. by rewrite page_lower, Hp. }
  assert (Hres : PtrOffset (match hw_walk off (pg_words (mm_paging s)) cr3 va with
      | Some (l, _, e) => page_address l (va - va mod 4096) e | None => NULL end) (va mod 4096)
    = physical_address (pg_words (mm_paging s)) cr3 va).
  { unfold physical_address. destruct (hw_walk _ _ _ _) as [[[]]|]; [done|].
    unfold PtrOffset, NULL. rewrite u64_id; lia. }
  destruct PagingData as [pd|]; cbn in Hask.
  - destruct Hask as [-> [Hl Hm Ha]]. massert ltac:(done).
    mrun (rec_shared_acquire fuel ltac:(lia) (lens_Lock pd) s max Hl).
    set (s1 := lset (lens_Lock pd) _ _). erewrite bind_Ret by apply gets_run. cbn beta iota.
    change (mm_paging s1) with (with_Lock pd (rec_shared max) (mm_paging s)).
    rewrite with_Lock_data. fold cr3. change (BasePhysicalAddress _) with cr3.
    erewrite bind_Ret by (apply zoom_run, Hget, with_Lock_words). cbn beta iota.
    rewrite lset_lget.
    erewrite bind_Ret by (apply (rec_shared_release (lens_Lock pd) s1 max);
      [apply lget_lset|apply intr_of_flags]). cbn beta iota.
    rewrite Hres. eexists. split; [|apply intr_of_flags]. unfold mret, M_ret. do 2 f_equal. unfold s1.
    autorewrite with spin; try apply _. rewrite <-Hl.
    rewrite <-(lens_rflags_comm (l := lens_Lock pd)).
    change (Lock (lock_data pd (mm_paging s))) with (lget (lens_Lock pd) s). by rewrite lset_lget.
  - massert ltac:(by cbn; rewrite (proj2 (Z.eqb_neq _ _))).
    exists (mm_rflags s). split; [|done].
    erewrite bind_Ret by reflexivity. cbn beta iota. erewrite bind_Ret by apply gets_run. cbn beta iota.
    erewrite bind_Ret by (apply zoom_run, Hget; reflexivity). cbn beta iota. rewrite lset_lget.
    erewrite bind_Ret by reflexivity. cbn beta iota. rewrite Hres. by destruct s.
Qed.
End Translate.

(** * Zeroing memory *)
Section Zero.
Variable off : Z.
Definition zero_ram (ram : Z → Z) (pa n : Z) : Z → Z := λ p, if decide (pa ≤ p < pa + n) then 0 else ram p.

(** Within a page, [n] bytes from [i] on. *)
Lemma memzero_run s va l a e i n :
  0 < va → va mod 4096 = 0 → va + 4096 ≤ 2 ^ 64 → 0 ≤ i → 0 ≤ n → i + n ≤ 4096 →
  hw_walk off (pg_words (mm_paging s)) (mm_cr3 s) va = Some (l, a, e) →
  write_allowed (mm_cr0 s) e = true →
  ∃ ram, memzero off (va + i) n s = Ret (tt, set_ram ram s)
    ∧ ∀ p, ram p = zero_ram (mm_ram s) (page_address l va e + i) n p.
Proof.
  intros Hva Hvm Htop Hi Hn Hin Hw Hwr. unfold memzero.
  assert (Hgen : ∀ m k s', set_ram (mm_ram s) s' = s → (Z.to_nat k + m = Z.to_nat n)%nat → 0 ≤ k →
    ∃ ram, for_each m k (λ j, write_byte off (PtrOffset (va + i) j) 0) s' = Ret (tt, set_ram ram s)
    ∧ ∀ p, ram p = zero_ram (mm_ram s') (page_address l va e + i + k) (Z.of_nat m) p).
  { intros m. induction m as [|m IH]; intros k s' Hs Hm Hk; cbn [for_each].
    - exists (mm_ram s'). split; [by rewrite <-Hs; destruct s'|].
      intros p. unfold zero_ram. by rewrite decide_False by lia.
    - assert (Hbyte : write_byte off (PtrOffset (va + i) k) 0 s'
        = Ret (tt, set_ram (λ p, if p =? page_address l va e + (i + k) then 0 else mm_ram s' p) s')).
      { unfold write_byte. erewrite bind_Ret by reflexivity. cbn beta iota.
        assert (Hpw : pg_words (mm_paging s') = pg_words (mm_paging s)) by (by rewrite <-Hs).
        assert (Hcr : mm_cr3 s' = mm_cr3 s) by (by rewrite <-Hs).
        assert (Hcr0 : mm_cr0 s' = mm_cr0 s) by (by rewrite <-Hs).
        assert (Hadr : PtrOffset (va + i) k = va + (i + k)) by (unfold PtrOffset; rewrite u64_id; lia).
        rewrite Hpw, Hcr, Hcr0, Hadr, (hw_walk_page off _ _ _ va) by (apply page_offset; lia).
        rewrite Hw, Hwr. unfold physical.
        assert (Hmod : (va + (i + k)) mod 4096 = i + k) by lia. rewrite Hmod.
        replace (va + (i + k) - (i + k)) with va by lia. done. }
      mrun Hbyte. destruct (IH (k + 1) (set_ram (λ p, if p =? page_address l va e + (i + k) then 0 else mm_ram s' p) s'))
        as (ram & Hrun & Hram); [exact Hs|lia|lia|].
      exists ram. split; [exact Hrun|]. intros p. rewrite Hram. unfold zero_ram. cbn [mm_ram set_ram].
      destruct (Z.eqb_spec p (page_address l va e + (i + k))) as [->|Hne].
      + rewrite decide_False by lia. by rewrite decide_True by lia.
      + apply decide_ext. lia. }
  destruct (Hgen (Z.to_nat n) 0 s) as (ram & Hrun & Hram); [by destruct s|lia|lia|].
  exists ram. split; [exact Hrun|]. intros p. rewrite Hram, Z.add_0_r. by rewrite Z2Nat.id by lia.
Qed.
End Zero.
