(* ===== verification/MmuExample.v ===== *)
(** A system in which the theorems about the memory manager apply: the kernel has reserved nothing,
    the process has a region of two pages, the first of which is committed, and three of eight
    frames are in use. *)
From S2P Require Import Prelude Memory Bitmap Cpu Spinlock RwSpinlock Pmm VmReservation VmReservationSpec BitField.
From S2P Require Import PageTables PageTablesSpec PageTablesProps Mmu MmuSpec.

Module MmuExample.
#[local] Opaque PagingExample.words.
Definition off : Z := PagingExample.off.
Definition process_lock : PAGING_LOCK_DATA :=
  mkLockData (mkREC RW_zero 0 3 NULL) (mkPaging PagingExample.base 8 1 false).
Definition paging0 : PAGING := mkState PagingExample.words 0 3 PagingExample.lock process_lock [] [].
Definition frames0 : PMM_STATE := PmmExample.frames.
Definition space0 (v : VM) : VA_SPACE := mkVaSpace (vm_space v) (vm_entries v) (vm_bytes v).
Definition mm0 : MM :=
  mkMM paging0 (m_pmmData frames0) (ps_bytes frames0) (space0 VmExample.vm0) (space0 VmExample.vm1)
    0x2 0 (Z.shiftl 1 16) PagingExample.base (Some false) 7 (λ _, 0xAA).
Lemma paging0_well_formed pd : PageTablesSpec.well_formed off PagingExample.everything pd paging0.
Proof.
  split; [destruct pd; exact PagingExample.start_area|]. eexists.
  destruct pd; exact (proj1 PagingExample.start_tables).
Qed.
Lemma paging0_translation pd va : translation off pd paging0 va = None.
Proof.
  pose proof (PagingExample.start_translation va) as H. unfold translation in *.
  replace (BasePhysicalAddress (paging_data pd paging0)) with PagingExample.base by (by destruct pd).
  exact H.
Qed.
Lemma mm0_process : vm_rep (lget (lens_vm process_space) mm0) [Some VmExample.r1] 1.
Proof. exact VmExample.vm1_rep. Qed.


Lemma mm0_lock pd : lock_idle pd 3 mm0.
Proof. split; [by destruct pd|lia|by split]. Qed.
End MmuExample.
