(* ===== verification/MmuProps.v ===== *)
(** The theorems about mapping, translation and unmapping by the functions of mmu.c. *)
From S2P Require Import Prelude Memory Bitmap Cpu Spinlock RwSpinlock Pmm VmReservation BitField PageTables.
From S2P Require Import PageTablesSpec PageTablesProps Mmu MmuSpec MmuExample.

#[local] Ltac Zify.zify_post_hook ::= Z.to_euclidean_division_equations.

Lemma new_pte_answer p kernel phys va rights uncach j :
  0 < va → va mod 4096 = 0 → 0 ≤ phys → phys mod 4096 = 0 → 0 ≤ j < 2 ^ 48 → phys + j < 2 ^ 52 →
  PtrOffset (4096 * frame_of (new_pte p kernel phys va rights uncach (va + 4096 * (j / 4096)))) (j mod 4096) = phys + j.
Proof.
  intros Hva Hvm Hp Hpm Hj Htop. unfold new_pte. rewrite pte_value_frame. change (2 ^ 12) with 4096.
  unfold PtrOffset at 2, PtrDiff. replace (va + 4096 * (j / 4096) - va) with (4096 * (j / 4096)) by lia.
  rewrite s64_id by lia. rewrite (u64_id (phys + _)) by lia.
  replace ((phys + 4096 * (j / 4096)) / 4096) with (phys / 4096 + j / 4096) by lia.
  rewrite Z.mod_small by lia. unfold PtrOffset. rewrite u64_id; lia.
Qed.
Section Props.
Variables (off : Z) (fuel : nat) (owned : Z → Prop) (pd : PPAGING_DATA).
Variable MmuReleaseMemory : Z → Z → M PAGING unit.
Hypothesis Hrelease : ∀ pa s,
  MmuReleaseMemory pa 1 s = Ret (tt, set_released (pg_released s ++ [(pa, 1)]) s).
Abbreviation well_formed := (PageTablesSpec.well_formed off owned pd).
Abbreviation translation := (PageTablesSpec.translation off pd).

(** MmuGetPhysicalAddressEx answers [pa] for [va] and leaves all but the flags register. *)
Definition answers (s : MM) (va pa : Z) : Prop := ∃ f,
  MmuGetPhysicalAddressEx off fuel va (Some pd) NULL s = Ret (pa, set_rflags f s)
  ∧ intr_of f = intr_of (mm_rflags s).

(** What it answers, by the translation of the page. *)
Lemma answers_translation s max va :
  well_formed (mm_paging s) → lock_idle pd max s → owned (index 1 (page va)) → 4096 ≤ va < 2 ^ 64 → (1 < fuel)%nat →
  answers s va (match translation (mm_paging s) va with
    | Some e => PtrOffset (4096 * frame_of e) (va mod 4096)
    | None => va mod 4096
    end).
Proof using.
  intros Hwf Hidle Ho Hva Hf.
  assert (Hcr : cr3_of pd (mm_paging s) (BasePhysicalAddress (paging_data pd (mm_paging s)))) by by eapply cr3_of_base.
  destruct (MmuGetPhysicalAddressEx_run off fuel s max va (Some pd) NULL) as (f & Hrun & Hi);
    [by split|done| |done|].
  { destruct Hwf as [Har [T Htb]]. by eapply walk_ok_tables. }
  exists f. split; [|exact Hi]. rewrite Hrun. do 2 f_equal. unfold physical_address.
  change (tables_asked (Some pd) NULL s) with (BasePhysicalAddress (paging_data pd (mm_paging s))).
  destruct (translation (mm_paging s) va) as [e|] eqn:Htr.
  - destruct (translation_walk off owned pd _ _ va e Hwf Hcr Ho Htr) as (x & ->). done.
  - unfold PageTablesSpec.translation, hw_pte in Htr. by destruct (hw_walk _ _ _ _).
Qed.

Lemma answers_mapped s max va e :
  well_formed (mm_paging s) → lock_idle pd max s → owned (index 1 (page va)) → 4096 ≤ va < 2 ^ 64 → (1 < fuel)%nat →
  translation (mm_paging s) va = Some e → answers s va (PtrOffset (4096 * frame_of e) (va mod 4096)).
Proof using.
  intros Hwf Hidle Ho Hva Hf Htr. pose proof (answers_translation s max va Hwf Hidle Ho Hva Hf) as H. by rewrite Htr in H.
Qed.
Lemma translation_same_page p va va' : page va = page va' → translation p va = translation p va'.
Proof using. intros H. unfold PageTablesSpec.translation, hw_pte. by rewrite (hw_walk_page off _ _ va va'). Qed.
(** The pages of a range, byte by byte. *)
Lemma range_byte va n j :
  range_ok owned va n → 0 ≤ j < 4096 * n →
  page (va + j) = page va + j / 4096 ∧ (va + j) mod 4096 = j mod 4096
  ∧ owned (index 1 (page (va + j))) ∧ in_range va n (va + j).
Proof using.
  intros (Hva & Hvm & Hn & Htop & HP & Hown) Hj. pose proof (page_range va) as Hpr.
  assert (page (va + j) = page va + j / 4096) as E.
  { replace (va + j) with (va + 4096 * (j / 4096) + j mod 4096) by lia.
    rewrite page_offset by lia. apply page_add; lia. }
  unfold in_range. rewrite E. split_and!; [done|lia|apply Hown; lia|lia|lia].
Qed.
Lemma lock_idle_paging s max p f :
  lock_idle pd max s → Lock (lock_data pd p) = Lock (lock_data pd (mm_paging s)) →
  lock_idle pd max (set_paging p (set_rflags f s)).
Proof using. intros [L1 L2 L3] Hp. split; [by rewrite <-L1, <-Hp|done|done]. Qed.

Record mmu_kept (max : Z) (s s' : MM) : Prop := {
  mk_wf : well_formed (mm_paging s');
  mk_lock : lock_idle pd max s';
  mk_intr : intr_of (mm_rflags s') = intr_of (mm_rflags s);
  mk_ram : mm_ram s' = mm_ram s
}.
(** The byte [j] of the range is mapped to [phys + j]. *)
Definition maps_byte (p : PAGING) (va phys j : Z) : Prop := ∃ e,
  translation p (va + j) = Some e ∧ PtrOffset (4096 * frame_of e) ((va + j) mod 4096) = phys + j.
Lemma map_bytes s max phys va n rights uncach :
  well_formed (mm_paging s) → lock_idle pd max s → range_ok owned va n → phys_ok phys n → (Z.to_nat n < fuel)%nat →
  CurrentIndex (paging_data pd (mm_paging s)) + tables_needed (page va) n ≤ NumberOfFrames (paging_data pd (mm_paging s)) →
  (∀ j, 0 ≤ j < n → translation (mm_paging s) (va + 4096 * j) = None) →
  ∃ s1, MmuMapMemoryInternal off fuel phys (4096 * n) rights va false uncach (Some pd) s = Ret (tt, s1)
  ∧ mmu_kept max s s1 ∧ ∀ j, 0 ≤ j < 4096 * n → maps_byte (mm_paging s1) va phys j.
Proof using.
  intros Hwf Hidle Hrange (Hp1 & Hp2 & Hp3) Hf Hroom Hnone.
  pose proof Hrange as (Hva & Hvm & Hn & Htop & HP & _). pose proof (page_range va) as Hpr.
  destruct (MmuMapMemoryInternal_run off fuel owned pd s max phys va n rights false uncach (Some pd)
    eq_refl Hidle Hwf Hrange Hp1 Hp2 Hp3 Hf Hroom) as (p1 & f1 & Hmap & Hi1 & [M1 M2 M3 _ M5]).
  assert (Hidle1 : lock_idle pd max (set_paging p1 (set_rflags f1 s))) by (by apply lock_idle_paging).
  exists (set_paging p1 (set_rflags f1 s)). split; [exact Hmap|]. split; [split; [exact M1|exact Hidle1|exact Hi1|reflexivity]|].
  intros j Hj. destruct (range_byte va n j Hrange Hj) as (E1 & E2 & E3 & E4).
  assert (Hold : translation (mm_paging s) (va + j) = None).
  { rewrite <-(Hnone (j / 4096)) by lia. apply translation_same_page. rewrite E1. symmetry. apply page_add; lia. }
  eexists. split.
  - cbn [mm_paging set_paging]. rewrite M5, decide_True, Hold by assumption. rewrite E1.
    replace (page va + j / 4096 - page va) with (j / 4096) by lia. reflexivity.
  - rewrite E2. apply new_pte_answer; lia.
Qed.
Lemma answers_byte s max va phys j :
  well_formed (mm_paging s) → lock_idle pd max s → owned (index 1 (page (va + j))) → 4096 ≤ va + j < 2 ^ 64 →
  (1 < fuel)%nat → maps_byte (mm_paging s) va phys j → answers s (va + j) (phys + j).
Proof using. intros Hwf Hidle Ho Hva Hf (e & Htr & <-). by apply (answers_mapped s max). Qed.

(** The size is kept in 32 bits: a range of a multiple of 4 GB is not unmapped at all. *)
Lemma MmuUnmapMemoryEx_truncates s max va size release m :
  lock_idle pd max s → 0 < va < 2 ^ 64 → 0 < size → va mod 4096 + size + 4095 < 2 ^ 64 → (0 < fuel)%nat →
  4096 * page_count va size = 2 ^ 32 * m →
  ∃ f, MmuUnmapMemoryEx off fuel MmuReleaseMemory va size release (Some pd) s = Ret (tt, set_rflags f s)
    ∧ intr_of f = intr_of (mm_rflags s).
Proof using.
  clear owned Hrelease. intros Hidle Hva Hsz Htop Hf Hm. unfold page_count in Hm.
  set (p0 := with_Lock pd (held_lock max s) (mm_paging s)).
  destruct (paging_unlock_run fuel Hf pd max (intr_of (mm_rflags s)) p0 s Hidle (with_Lock_Lock pd _ _))
    as (f & Hrel & Hi). exists f. split; [|exact Hi].
  unfold MmuUnmapMemoryEx. massert ltac:(apply negb_true_iff, Z.eqb_neq; unfold NULL; lia).
  massert ltac:(apply negb_true_iff, Z.eqb_neq; lia). cbn [paging_or_kernel default]. rewrite AlignAddressLower_4096 by lia.
  replace (u32 (va - (va - va mod 4096))) with (va mod 4096) by (rewrite u32_id; lia).
  rewrite u64_id by lia. rewrite AlignAddressUpper_4096 by lia.
  replace (size + va mod 4096 + 4095) with (va mod 4096 + size + 4095) by lia.
  replace (u32 (4096 * ((va mod 4096 + size + 4095) / 4096))) with 0
    by (rewrite Hm, Z.mul_comm; unfold u32; by rewrite Z.mod_mul).
  mrun (paging_lock_run fuel Hf pd max s Hidle). erewrite bind_Ret by apply gets_run. cbn beta iota. fold p0.
  erewrite bind_Ret.
  2: { apply (zoom_run lens_paging _ _ tt p0). unfold VmmUnmapMemoryEx. by destruct (_ || _). }
  cbn beta iota. change (lset lens_paging p0 (set_paging p0 ?x)) with (set_paging p0 x). unfold p0 in Hrel.
  change (default kernel_paging (Some pd)) with pd. etransitivity; [exact Hrel|]. unfold mret, M_ret. do 2 f_equal.
  rewrite with_Lock_twice, <-(li_lock _ _ _ Hidle), with_Lock_self. by destruct s.
Qed.
(** What unmapping leaves of the translations: those of the pages beyond the size modulo 4 GB. *)
Lemma unmap_bytes s max va n (m := n mod 2 ^ 20) :
  well_formed (mm_paging s) → lock_idle pd max s → range_ok owned va n → (Z.to_nat n < fuel)%nat →
  ∃ s2, MmuUnmapMemoryEx off fuel MmuReleaseMemory va (4096 * n) false (Some pd) s = Ret (tt, s2)
  ∧ mmu_kept max s s2 ∧ ∀ j, 0 ≤ j < 4096 * n →
    translation (mm_paging s2) (va + j) = if j <? 4096 * m then None else translation (mm_paging s) (va + j).
Proof using Hrelease.
  intros Hwf Hidle Hrange Hf. pose proof Hrange as (Hva & Hvm & Hn & Htop & HP & Hown). pose proof (page_range va) as Hpr.
  assert (Hcount : page_count va (4096 * n) = n) by (unfold page_count; lia).
  assert (Hlow : va - va mod 4096 = va) by lia.
  destruct (decide (m = 0)) as [Hm|Hm].
  { destruct (MmuUnmapMemoryEx_truncates s max va (4096 * n) false (n / 2 ^ 20)) as (f & Hun & Hi);
      [done|lia|lia|lia|lia|rewrite Hcount; unfold m in Hm; lia|].
    exists (set_rflags f s). split; [exact Hun|]. split.
    - split; [done| |done|done]. destruct Hidle as [L1 L2 L3]. by split.
    - intros j Hj. rewrite Hm. by rewrite (proj2 (Z.ltb_ge j _)) by lia. }
  assert (Hr' : range_ok owned va m).
  { split_and!; try (unfold m in *; lia). intros i Hi. apply Hown. unfold m in *. lia. }
  destruct (MmuUnmapMemoryEx_run off fuel owned pd MmuReleaseMemory Hrelease s max va (4096 * n) false (Some pd))
    as (p2 & f2 & Hun & Hi2 & [U1 U2 _ _ U5]); [done|done|done|lia|lia|lia| | |].
  { unfold unmapped_count. by rewrite Hcount, Hlow. }
  { unfold unmapped_count. rewrite Hcount. fold m. unfold m. lia. }
  unfold unmapped_count in U5. rewrite Hcount in U5. fold m in U5.
  exists (set_paging p2 (set_rflags f2 s)). split; [exact Hun|]. split.
  { split; [exact U1|apply lock_idle_paging; [done|by rewrite U2]|exact Hi2|reflexivity]. }
  intros j Hj. destruct (range_byte va n j Hrange Hj) as (E1 & E2 & E3 & E4).
  cbn [mm_paging set_paging]. rewrite U5 by assumption.
  destruct (Z.ltb_spec j (4096 * m)); [rewrite decide_True; [done|]|rewrite decide_False; [done|]]; unfold in_range; lia.
Qed.

(** C28: after MmuMapMemoryInternal has mapped a range of [n] pages that were not mapped,
    MmuGetPhysicalAddressEx answers for every byte of it the byte of the physical range at the
    same distance. After MmuUnmapMemoryEx of the same range it answers the offset within the page,
    which is NULL only for the first byte of a page, for every byte of the first [n mod 2^20]
    pages, that is for all of a range of less than 4 GB; the other pages of a larger range are
    still mapped, and it answers for them what it answered before. Both leave the locks free and
    the interrupts as they were. The range is any one of the canonical size (48 bits) whose
    tables fit the frames that are left for them. *)
Theorem mmu_map_get_unmap s max phys va n rights uncach :
  well_formed (mm_paging s) → lock_idle pd max s → range_ok owned va n → phys_ok phys n → (Z.to_nat n < fuel)%nat →
  (1 < fuel)%nat →
  CurrentIndex (paging_data pd (mm_paging s)) + tables_needed (page va) n ≤ NumberOfFrames (paging_data pd (mm_paging s)) →
  (∀ j, 0 ≤ j < n → translation (mm_paging s) (va + 4096 * j) = None) →
  ∃ s1 s2,
    MmuMapMemoryInternal off fuel phys (4096 * n) rights va false uncach (Some pd) s = Ret (tt, s1)
  ∧ (∀ j, 0 ≤ j < 4096 * n → answers s1 (va + j) (phys + j))
  ∧ MmuUnmapMemoryEx off fuel MmuReleaseMemory va (4096 * n) false (Some pd) s1 = Ret (tt, s2)
  ∧ (∀ j, 0 ≤ j < 4096 * n → answers s2 (va + j) (if j <? 4096 * (n mod 2 ^ 20) then j mod 4096 else phys + j))
  ∧ lock_idle pd max s2 ∧ intr_of (mm_rflags s2) = intr_of (mm_rflags s) ∧ mm_ram s2 = mm_ram s.
Proof using Hrelease.
  intros Hwf Hidle Hrange Hp Hf Hf1 Hroom Hnone. pose proof Hrange as (Hva & Hvm & _ & Htop & _).
  assert (4096 ≤ va) as Hva2 by lia.
  destruct (map_bytes s max phys va n rights uncach Hwf Hidle Hrange Hp Hf Hroom Hnone)
    as (s1 & Hmap & [K1 K2 K3 K4] & Hb1).
  destruct (unmap_bytes s1 max va n K1 K2 Hrange Hf) as (s2 & Hun & [K5 K6 K7 K8] & Hb2).
  exists s1, s2. split_and!; [exact Hmap| |exact Hun| |exact K6|congruence|congruence].
  - intros j Hj. destruct (range_byte va n j Hrange Hj) as (_ & _ & Ho & _).
    apply (answers_byte s1 max); try done; [lia|by apply Hb1].
  - intros j Hj. destruct (range_byte va n j Hrange Hj) as (_ & Ho2 & Ho & _). specialize (Hb2 j Hj).
    destruct (j <? 4096 * (n mod 2 ^ 20)).
    + pose proof (answers_translation s2 max (va + j) K5 K6 Ho ltac:(lia) Hf1) as H. by rewrite Hb2, Ho2 in H.
    + apply (answers_byte s2 max); try done; [lia|]. destruct (Hb1 j Hj) as (e & He & Hpa). exists e. by rewrite Hb2.
Qed.
End Props.

Module MmuPropsExample.
Import MmuExample.
Definition va : Z := PagingExample.va.
Lemma va_unmapped j : 0 ≤ j < 3 → PageTablesSpec.translation off kernel_paging (mm_paging mm0) (va + 4096 * j) = None.
Proof. intros _. apply paging0_translation. Qed.
(** Three pages of the kernel: before and after unmapping, for the byte 0x1234 of the range. *)
Lemma mmu_map_get_unmap_witness : ∃ s1 s2 f1 f2,
  MmuMapMemoryInternal off 4 0x200000 (4096 * 3) PAGE_RIGHTS_READWRITE va false false (Some kernel_paging) mm0 = Ret (tt, s1)
  ∧ MmuGetPhysicalAddressEx off 4 (va + 0x1234) (Some kernel_paging) NULL s1 = Ret (0x201234, f1)
  ∧ MmuUnmapMemoryEx off 4 PagingExample.release va (4096 * 3) false (Some kernel_paging) s1 = Ret (tt, s2)
  ∧ MmuGetPhysicalAddressEx off 4 (va + 0x1234) (Some kernel_paging) NULL s2 = Ret (0x234, f2).
Proof.
  destruct (mmu_map_get_unmap off 4 PagingExample.everything kernel_paging PagingExample.release PagingExample.release_ok
    mm0 3 0x200000 va 3 PAGE_RIGHTS_READWRITE false (paging0_well_formed kernel_paging) (mm0_lock kernel_paging)
    PagingExample.va_range PagingExample.va_phys ltac:(lia) ltac:(lia) PagingExample.va_tables va_unmapped)
    as (s1 & s2 & H1 & H2 & H3 & H4 & _).
  destruct (H2 0x1234 ltac:(lia)) as (f1 & H2' & _). destruct (H4 0x1234 ltac:(lia)) as (f2 & H4' & _).
  exists s1, s2, (set_rflags f1 s1), (set_rflags f2 s2). exact (conj H1 (conj H2' (conj H3 H4'))).
Defined.
End MmuPropsExample.
