(* ===== verification/Vmm.v ===== *)
(** HAL9000/src/vmm.c and mmu.c: the virtual memory of the system. Page faults, the allocation and
    release of regions, and the check of the buffers that user code passes to the kernel. *)
From S2P Require Import Prelude Memory Bitmap Cpu Spinlock RwSpinlock Pmm VmReservation PageTables Mmu.

(** CommonLib/inc/status.h, shared/common/mem_structures.h *)
Definition STATUS_MEMORY_PREVENTS_USERMODE_ACCESS : Z := error_status MEMORY_MASK 0x11.
Definition STATUS_MEMORY_INSUFFICIENT_ACCESS_RIGHTS : Z := error_status MEMORY_MASK 0x12.
Definition VMM_ALLOC_TYPE_NOT_LAZY : Z := 4.
Definition VMM_ALLOC_TYPE_ZERO : Z := 8.

(** shared/kernel/io_structures.h; the Translations are as many as were allocated. *)
Record MDL_TRANSLATION_PAIR := mkPair { Address : Z; NumberOfBytes : Z }.
Record MDL := mkMDL {
  mdl_StartVa : Z;
  ByteCount : Z;
  ByteOffset : Z;
  NumberOfTranslationPairs : Z;
  Translations : list MDL_TRANSLATION_PAIR
}.
(** mdl.c; NULL is [None]. *)
Definition MdlGetNumberOfPairs {St} (Mdl : option MDL) : M St Z :=
  match Mdl with Some m => mret (NumberOfTranslationPairs m) | None => λ _, Panic end.
Definition MdlGetTranslationPair {St} (Mdl : option MDL) (Index : Z) : M St (option MDL_TRANSLATION_PAIR) :=
  match Mdl with
  | Some m =>
      if Index <? NumberOfTranslationPairs m then
        p ← from_option_fault (Translations m !! Z.to_nat Index); mret (Some p)
      else mret None
  | None => λ _, Panic
  end.

Section Ops.
(** As in Mmu; IoReadFile (io_files.c) gets the file, the size, the offset and the buffer and
    returns the status and the number of bytes read. *)
Variables (off : Z) (fuel : nat) (L : LOCK_FUNCS PMM_STATE) (ret : Z).
Variable MmuReleaseMemory : Z → Z → M PAGING unit.
Variables (IoReadFile : Z → Z → Z → Z → M MM (Z * Z)) (IoCloseFile : Z → M MM Z).

(** * Addresses *)
Definition _VmIsKernelAddress (Address : Z) : bool :=
  IsBooleanFlagOn Address (Z.shiftl 1 VA_HIGHEST_VALID_BIT).
Definition _VmIsKernelRange {St} (Address RangeSize : Z) : M St bool :=
  ASSERT (negb (RangeSize =? 0));;
  mret (_VmIsKernelAddress Address || _VmIsKernelAddress (PtrOffset Address (u64 (RangeSize - 1)))).
(** The current thread belongs to a process with a space of its own. *)
Definition _VmmRetrieveReservationSpaceForAddress (VirtualAddress : Z) : PVMM_RESERVATION_SPACE :=
  if _VmIsKernelAddress VirtualAddress then kernel_space else process_space.

(** * Page faults *)
(** The part of VmmSolvePageFault for an access that is allowed. *)
Definition solve_page_fault (FaultingAddress pageRights : Z) (uncacheable : bool)
    (pBackingFile fileOffset : Z) (PagingData : PPAGING_DATA) : M MM bool :=
  pa ← zoom lens_pmm (PmmReserveMemory L ret 1);
  ASSERT (negb (NULL =? pa));;
  let alignedAddress := AlignAddressLower FaultingAddress PAGE_SIZE in
  MmuMapMemoryInternal off fuel pa PAGE_SIZE pageRights alignedAddress true uncacheable (Some PagingData);;
  '(status, bytesReadFromFile) ← (if negb (pBackingFile =? NULL) then
      '(status, n) ← IoReadFile pBackingFile PAGE_SIZE fileOffset alignedAddress;
      (if SUCCEEDED status then ASSERT (n <=? PAGE_SIZE) else mret tt);;
      mret (status, n)
    else mret (STATUS_SUCCESS, 0));
  if negb (SUCCEEDED status) then mret false else
  (if negb (bytesReadFromFile =? PAGE_SIZE) then
     modify (λ s, set_cr0 (Z.land (mm_cr0 s) (Z.lnot CR0_WP)) s);;
     memzero off (PtrOffset alignedAddress bytesReadFromFile) (PAGE_SIZE - u32 bytesReadFromFile);;
     modify (λ s, set_cr0 (Z.lor (mm_cr0 s) CR0_WP) s)
   else mret tt);;
  pCpu ← gets mm_access;
  (if bool_decide (is_Some pCpu) then modify (λ s, set_page_faults (u64 (mm_page_faults s + 1)) s)
   else mret tt);;
  mret true.

Definition VmmSolvePageFault (FaultingAddress RightsRequested : Z) (PagingData : PPAGING_DATA) : M MM bool :=
  i ← CpuIntrGetState;
  ASSERT (eqb INTR_OFF i);;
  if NULL =? AlignAddressLower FaultingAddress PAGE_SIZE then mret false else
  let bKernelAddress := _VmIsKernelAddress FaultingAddress in
  KernelSpace ← gets (λ s, KernelSpace (paging_data PagingData (mm_paging s)));
  if bKernelAddress && negb KernelSpace then mret false else
  if negb bKernelAddress && KernelSpace then mret false else
  '(bAccessValid, r) ← zoom (lens_vm (_VmmRetrieveReservationSpaceForAddress FaultingAddress))
    (VmReservationCanAddressBeAccessed fuel FaultingAddress RightsRequested);
  if negb (bAccessValid : bool) then mret false else
  '(pageRights, uncacheable, pBackingFile, fileOffset) ← from_option_fault r;
  solve_page_fault FaultingAddress pageRights uncacheable pBackingFile fileOffset PagingData.

(** mmu.c: the bits of the error code, and the entry from the interrupt handler. *)
Definition PAGE_FAULT_ERR_CODE_Write (Raw : Z) : bool := Z.testbit Raw 1.
Definition PAGE_FAULT_ERR_CODE_Usermode (Raw : Z) : bool := Z.testbit Raw 2.
Definition PAGE_FAULT_ERR_CODE_Execution (Raw : Z) : bool := Z.testbit Raw 4.
Definition MmuSolvePageFault (FaultingAddress ErrorCode : Z) : M MM bool :=
  i ← CpuIntrGetState;
  ASSERT (eqb INTR_OFF i);;
  let rightsRequested := PAGE_RIGHTS_READ in
  let rightsRequested := Z.lor rightsRequested
    (if PAGE_FAULT_ERR_CODE_Write ErrorCode then PAGE_RIGHTS_WRITE else 0) in
  let rightsRequested := Z.lor rightsRequested
    (if PAGE_FAULT_ERR_CODE_Execution ErrorCode then PAGE_RIGHTS_EXECUTE else 0) in
  VmmSolvePageFault FaultingAddress rightsRequested
    (if PAGE_FAULT_ERR_CODE_Usermode ErrorCode then process_paging else kernel_paging).

(** * Regions *)
Definition _VmmMapDescribedRegion (BaseAddress : Z) (Mdl : option MDL) (Rights : Z)
    (PagingData : option PPAGING_DATA) : M MM unit :=
  ASSERT (negb (BaseAddress =? NULL));;
  ASSERT (IsAddressAligned BaseAddress PAGE_SIZE);;
  ASSERT (bool_decide (is_Some Mdl));;
  loop fuel (λ '(i, currentOffset),
    n ← MdlGetNumberOfPairs Mdl;
    if negb (i <? n) then mret (inr tt) else
    pMdlPair ← MdlGetTranslationPair Mdl i;
    pMdlPair ← from_option_fault pMdlPair;
    let alignedPa := AlignAddressLower (Address pMdlPair) PAGE_SIZE in
    let alignedPaSize := AlignAddressUpper
      (u64 (NumberOfBytes pMdlPair + AddressOffset (Address pMdlPair) PAGE_SIZE)) PAGE_SIZE in
    MmuMapMemoryInternal off fuel alignedPa alignedPaSize Rights (PtrOffset BaseAddress currentOffset)
      false false PagingData;;
    mret (inl (u32 (i + 1), u64 (currentOffset + alignedPaSize)))) (0, 0).

Definition free_commit_bits (p n : Z) : M MM unit := MmuUnmapMemoryEx off fuel MmuReleaseMemory p n true None.
Definition space_or_kernel (VaSpace : option PVMM_RESERVATION_SPACE) : PVMM_RESERVATION_SPACE :=
  default kernel_space VaSpace.

(** The frames of a region that is not mapped lazily and not described by an MDL: the status, and
    the frames. *)
Definition map_region (BaseAddress alignedSize Rights : Z) (Uncacheable : bool) (FileObject : Z)
    (PagingData : option PPAGING_DATA) : M MM (Z * Z) :=
  ASSERT (alignedSize / PAGE_SIZE <=? MAX_DWORD);;
  let noOfFrames := u32 (alignedSize / PAGE_SIZE) in
  pa ← zoom lens_pmm (PmmReserveMemory L ret noOfFrames);
  if NULL =? pa then mret (STATUS_SUCCESS, pa) else
  MmuMapMemoryInternal off fuel pa alignedSize Rights BaseAddress true Uncacheable PagingData;;
  if negb (FileObject =? NULL) then
    '(status, bytesRead) ← IoReadFile FileObject alignedSize 0 BaseAddress;
    if negb (SUCCEEDED status) then mret (status, pa) else
    ASSERT (u64 (alignedSize - bytesRead) <=? MAX_DWORD);;
    memzero off (PtrOffset BaseAddress bytesRead) (u32 (alignedSize - bytesRead));;
    mret (status, pa)
  else mret (STATUS_SUCCESS, pa).

Definition VmmAllocRegionEx (BaseAddress Size AllocType Rights : Z) (Uncacheable : bool) (FileObject : Z)
    (VaSpace : option PVMM_RESERVATION_SPACE) (PagingData : option PPAGING_DATA) (Mdl : option MDL) : M MM Z :=
  ASSERT (negb (Size =? 0));;
  ASSERT (IsFlagOn AllocType (Z.lor VMM_ALLOC_TYPE_COMMIT VMM_ALLOC_TYPE_RESERVE));;
  ASSERT (negb (bool_decide (is_Some Mdl)) || IsBooleanFlagOn AllocType VMM_ALLOC_TYPE_NOT_LAZY);;
  ASSERT (negb (IsBooleanFlagOn AllocType VMM_ALLOC_TYPE_ZERO));;
  ASSERT (negb (bool_decide (is_Some Mdl)) || (FileObject =? NULL));;
  let pVaSpace := space_or_kernel VaSpace in
  '(status, r) ← zoom (lens_vm pVaSpace)
    (VmReservationSpaceAllocRegion fuel BaseAddress Size AllocType Rights Uncacheable FileObject);
  let '(pBaseAddress, alignedSize) := default (NULL, 0) r in
  '(status, pa) ← (if negb (SUCCEEDED status) then mret (status, NULL) else
    ASSERT (negb (NULL =? pBaseAddress));;
    if IsBooleanFlagOn AllocType VMM_ALLOC_TYPE_NOT_LAZY then
      ASSERT (IsBooleanFlagOn AllocType VMM_ALLOC_TYPE_COMMIT);;
      match Mdl with
      | Some m =>
          ASSERT (ByteCount m <=? alignedSize);;
          _VmmMapDescribedRegion pBaseAddress Mdl Rights PagingData;;
          mret (status, NULL)
      | None => map_region pBaseAddress alignedSize Rights Uncacheable FileObject PagingData
      end
    else mret (status, NULL));
  if negb (SUCCEEDED status) then
    if negb (pBaseAddress =? NULL) then
      '(pAlignedAddress, alignedSize) ← VmReservationSpaceFreeRegion fuel (lens_vm pVaSpace)
        free_commit_bits IoCloseFile pBaseAddress 0 VMM_FREE_TYPE_RELEASE;
      ASSERT (pAlignedAddress =? pBaseAddress);;
      (if negb (pa =? NULL) then
         MmuUnmapMemoryEx off fuel MmuReleaseMemory pAlignedAddress (u32 alignedSize) true PagingData
       else mret tt);;
      mret NULL
    else ASSERT (pa =? NULL);; mret NULL
  else mret pBaseAddress.

Definition VmmFreeRegionEx (Address Size FreeType : Z) (Release : bool)
    (VaSpace : option PVMM_RESERVATION_SPACE) (PagingData : option PPAGING_DATA) : M MM unit :=
  ASSERT (negb (Address =? NULL));;
  ASSERT (xorb (IsBooleanFlagOn FreeType VMM_FREE_TYPE_RELEASE)
    (IsBooleanFlagOn FreeType VMM_FREE_TYPE_DECOMMIT));;
  ASSERT ((IsBooleanFlagOn FreeType VMM_FREE_TYPE_RELEASE && (Size =? 0))
    || (IsBooleanFlagOn FreeType VMM_FREE_TYPE_DECOMMIT && negb (Size =? 0)));;
  '(alignedAddress, alignedSize) ← VmReservationSpaceFreeRegion fuel (lens_vm (space_or_kernel VaSpace))
    free_commit_bits IoCloseFile Address Size FreeType;
  if IsFlagOn FreeType (Z.lor VMM_FREE_TYPE_DECOMMIT VMM_FREE_TYPE_RELEASE) then
    ASSERT (negb (NULL =? alignedAddress));;
    ASSERT (negb (0 =? alignedSize));;
    MmuUnmapMemoryEx off fuel MmuReleaseMemory alignedAddress alignedSize Release PagingData
  else mret tt.

(** * Buffers *)
Definition VmmIsBufferValid (Buffer BufferSize RightsRequested : Z) (ReservationSpace : PVMM_RESERVATION_SPACE)
    (KernelAccess : bool) : M MM Z :=
  ASSERT (negb (Buffer =? NULL));;
  ASSERT (negb (BufferSize =? 0));;
  r ← (if KernelAccess then mret false else _VmIsKernelRange Buffer BufferSize);
  if (r : bool) then mret STATUS_MEMORY_PREVENTS_USERMODE_ACCESS else
  '(status, rightsGranted) ← zoom (lens_vm ReservationSpace)
    (VmReservationReturnRightsForAddress fuel Buffer BufferSize);
  if negb (SUCCEEDED status) then mret status else
  rightsGranted ← from_option_fault rightsGranted;
  if negb (IsBooleanFlagOn rightsGranted RightsRequested)
  then mret STATUS_MEMORY_INSUFFICIENT_ACCESS_RIGHTS else
  mret STATUS_SUCCESS.

(** mmu.c; of the process, its image (HeaderInfo), its VaSpace and its PagingData. [None] stands
    for the NULL pointer, [Some (base, size)] for the current process with this image. *)
Definition MmuIsBufferValid (Buffer BufferSize RightsRequested : Z) (Process : option (Z * Z)) : M MM Z :=
  if Buffer =? NULL then mret STATUS_INVALID_PARAMETER1 else
  if BufferSize =? 0 then mret STATUS_INVALID_PARAMETER2 else
  match Process with
  | None => mret STATUS_INVALID_PARAMETER4
  | Some (ImageBase, ImageSize) =>
      if (ImageBase <=? Buffer) && (Buffer <? PtrOffset ImageBase ImageSize) then mret STATUS_SUCCESS else
      KernelSpace ← gets (λ s, KernelSpace (paging_data process_paging (mm_paging s)));
      VmmIsBufferValid Buffer BufferSize RightsRequested process_space KernelSpace
  end.
End Ops.
