(* ===== verification/BufferSpec.v ===== *)
(** The check of buffers that user code passes to the kernel: VmReservationReturnRightsForAddress
    (vm_reservation_space.c), VmmIsBufferValid (vmm.c) and MmuIsBufferValid (mmu.c). *)
From S2P Require Import Prelude Memory Bitmap Cpu Spinlock RwSpinlock Pmm VmReservation VmReservationSpec BitField.
From S2P Require Import PageTables PageTablesSpec PageTablesProps Mmu MmuExample Vmm.

#[local] Ltac Zify.zify_post_hook ::= Z.to_euclidean_division_equations.

(** * The rights of a range *)
(** The region that holds all [n] bytes from [a] on. *)
Definition range_region (rs : slots) (a n : Z) : option region :=
  i ← find_slot rs a n; mjoin (rs !! i).
(** The code looks at the address itself and then at every 4096th byte behind it. *)
Definition sampled_committed (r : region) (a n : Z) : bool :=
  forallb (λ k, r_committed r (a + 4096 * k)) (seqZ 0 ((n + 4095) / 4096)).
Definition rights_answer (rs : slots) (a n : Z) : Z * option Z :=
  match range_region rs a n with
  | Some r => (if sampled_committed r a n then STATUS_SUCCESS else STATUS_MEMORY_IS_NOT_COMMITED, Some (r_rights r))
  | None => (STATUS_MEMORY_IS_NOT_COMMITED, None)
  end.

Section Rights.
Implicit Types (s : VM) (r : region).

Lemma contains_byte r a n k : r_contains r a n = true → 0 ≤ k < n → r_contains r (a + k) 1 = true.
Proof. unfold r_contains. rewrite !andb_true_iff, !Z.leb_le. lia. Qed.

Lemma rights_loop fuel s e r a n m k :
  entry_rep (get_bytes s) e (Some r) → region_ok r → 0 < a → r_contains r a n = true → 0 < n →
  0 ≤ k → (n + 4095) / 4096 = k + Z.of_nat m → (m < fuel)%nat →
  loop fuel (λ k,
      if k <? n then
        c ← _VmIsVaCommited e (PtrOffset a k);
        mret (if (c : bool) then inl (u64 (k + PAGE_SIZE)) else inr false)
      else mret (inr true)) (4096 * k) s
  = Ret (forallb (λ k, r_committed r (a + 4096 * k)) (seqZ k (Z.of_nat m)), s).
Proof.
  intros Hr Hok Ha Hc Hn. pose proof (ro_end _ Hok) as Hend.
  assert (a + n < 2 ^ 64) as Hbound.
  { unfold r_contains in Hc. apply andb_true_iff in Hc as [_ ?%Z.leb_le]. lia. }
  assert (n < 2 ^ 62) as Hsize.
  { unfold r_contains in Hc. apply andb_true_iff in Hc as [?%Z.leb_le ?%Z.leb_le].
    pose proof (ro_count _ Hok). unfold r_end, r_size, PAGE_SIZE, MAX_DWORD in *. lia. }
  revert fuel k. induction m as [|m IH]; intros fuel k Hk Hm Hf; (destruct fuel as [|fuel]; [lia|]).
  - apply loop_break. by rewrite (proj2 (Z.ltb_ge _ _)) by lia.
  - rewrite seqZ_cons by lia. cbn [forallb].
    assert (Hrun : _VmIsVaCommited e (PtrOffset a (4096 * k)) s = Ret (r_committed r (a + 4096 * k), s)).
    { unfold PtrOffset. rewrite u64_id by lia. apply _VmIsVaCommited_run; [done|done|].
      apply (contains_byte r a n); [done|lia]. }
    destruct (r_committed r (a + 4096 * k)) eqn:E; cbn [andb].
    + erewrite loop_continue.
      2: { rewrite (proj2 (Z.ltb_lt _ _)) by lia. by mrun Hrun. }
      replace (u64 (4096 * k + PAGE_SIZE)) with (4096 * (k + 1)) by (unfold PAGE_SIZE; rewrite u64_id; lia).
      rewrite IH by lia. do 4 f_equal; lia.
    + apply loop_break. rewrite (proj2 (Z.ltb_lt _ _)) by lia. by mrun Hrun.
Qed.

Lemma VmReservationReturnRightsForAddress_run fuel s rs spare a n :
  vm_rep s rs spare → (length rs < fuel)%nat → 0 < a → 0 < n → a + n < 2 ^ 64 →
  (n + 4095) / 4096 < Z.of_nat fuel →
  ∃ f, VmReservationReturnRightsForAddress fuel a n s = Ret (rights_answer rs a n, set_rflags f s)
    ∧ intr_of f = intr_of (get_rflags s).
Proof.
  intros [Hl HV] Hf Ha Hn Htop Hpages. unfold VmReservationReturnRightsForAddress.
  massert ltac:(apply negb_true_iff, Z.eqb_neq; unfold NULL; lia).
  massert ltac:(apply negb_true_iff, Z.eqb_neq; lia).
  mrun (rw_acquire_free (St := VM) fuel ltac:(lia) lens_ReservationLock s false Hl). set (s1 := lset _ _ _).
  assert (HV1 : vm_in s1 rs spare) by (by apply vm_in_lock).
  mrun (_VmFindReservation_run fuel s1 rs spare a n HV1 Ha Hn Htop Hf).
  assert (Hrel : ∀ x : bool * option Z, ∃ f,
    (RwSpinlockRelease lens_ReservationLock (intr_of (get_rflags s)) false;;
     mret (if x.1 then STATUS_SUCCESS else STATUS_MEMORY_IS_NOT_COMMITED, x.2)) s1
    = Ret ((if x.1 then STATUS_SUCCESS else STATUS_MEMORY_IS_NOT_COMMITED, x.2), set_rflags f s)
    ∧ intr_of f = intr_of (get_rflags s)).
  { intros x. mrun (rw_release_held lens_ReservationLock s1 false (intr_of (get_rflags s)) eq_refl).
    exists (intr_flags (intr_of (get_rflags s)) (get_rflags s1)). split; [|apply intr_of_flags].
    unfold mret, M_ret. do 2 f_equal. subst s1. destruct s as [[]]. simpl in *. by rewrite Hl. }
  unfold rights_answer, range_region. destruct (find_slot rs a n) as [i|] eqn:Ef.
  - destruct (find_slot_Some rs a n i Ef) as (r & Hi & Hc). cbn [mbind option_bind]. rewrite Hi. cbn [mjoin option_join].
    destruct (vc_slot _ _ _ _ _ HV1 i _ Hi) as (e & He & Hr). destruct (vc_region _ _ _ _ _ HV1 i r Hi) as [Hok _].
    change (negb (SUCCEEDED STATUS_SUCCESS)) with false. cbn iota. rewrite bind_assoc. mderef.
    rewrite bind_assoc. mrun (entry_run _ _ _ He). rewrite bind_assoc.
    pose proof (rights_loop fuel s1 e r a n (Z.to_nat ((n + 4095) / 4096)) 0 Hr Hok Ha Hc Hn ltac:(lia) ltac:(lia) ltac:(lia)) as Hloop.
    rewrite Z.mul_0_r in Hloop. mrun Hloop. rewrite Z2Nat.id by lia. fold (sampled_committed r a n).
    erewrite bind_Ret by reflexivity. cbn beta iota. destruct Hr as (_ & _ & _ & -> & _).
    exact (Hrel (sampled_committed r a n, Some (r_rights r))).
  - change (negb (SUCCEEDED STATUS_ELEMENT_NOT_FOUND)) with true. cbn iota.
    erewrite bind_Ret by reflexivity. cbn beta iota. exact (Hrel (false, None)).
Qed.
End Rights.

(** * Buffers *)
Definition in_image (image : Z * Z) (a : Z) : bool := (image.1 <=? a) && (a <? PtrOffset image.1 image.2).
(** The status for a buffer outside of the image of the process. *)
Definition buffer_status (rs : slots) (a n rights : Z) (kernel : bool) : Z :=
  if negb kernel && (_VmIsKernelAddress a || _VmIsKernelAddress (PtrOffset a (n - 1)))
  then STATUS_MEMORY_PREVENTS_USERMODE_ACCESS else
  match range_region rs a n with
  | Some r =>
      if negb (sampled_committed r a n) then STATUS_MEMORY_IS_NOT_COMMITED
      else if negb (IsBooleanFlagOn (r_rights r) rights) then STATUS_MEMORY_INSUFFICIENT_ACCESS_RIGHTS
      else STATUS_SUCCESS
  | None => STATUS_MEMORY_IS_NOT_COMMITED
  end.

(** In a page-aligned buffer every page is looked at. *)
Lemma sampled_aligned r a n k :
  region_ok r → r_contains r a n = true → a mod 4096 = 0 → sampled_committed r a n = true → 0 ≤ k < n →
  r_committed r (a + k) = true.
Proof.
  intros Hok Hc Ha Hs Hk. unfold sampled_committed in Hs. rewrite forallb_forall in Hs.
  specialize (Hs (k / 4096)). rewrite <-list_elem_of_In, elem_of_seqZ in Hs. specialize (Hs ltac:(lia)).
  pose proof (ro_aligned _ Hok) as Hal. unfold PAGE_SIZE in Hal.
  rewrite <-Hs. unfold r_committed, page_of, PAGE_SIZE. do 3 f_equal. lia.
Qed.

Section Buffers.
Variable fuel : nat.

Lemma VmmIsBufferValid_run s rs spare a n rights space kernel :
  vm_rep (lget (lens_vm space) s) rs spare → (length rs < fuel)%nat → 0 < a → 0 < n → a + n < 2 ^ 64 →
  (n + 4095) / 4096 < Z.of_nat fuel →
  ∃ f, VmmIsBufferValid fuel a n rights space kernel s = Ret (buffer_status rs a n rights kernel, set_rflags f s)
    ∧ intr_of f = intr_of (mm_rflags s).
Proof.
  intros Hrep Hf Ha Hn Htop Hpages. unfold VmmIsBufferValid.
  massert ltac:(apply negb_true_iff, Z.eqb_neq; unfold NULL; lia).
  massert ltac:(apply negb_true_iff, Z.eqb_neq; lia). unfold buffer_status.
  assert (Hrange : (if kernel then mret false else _VmIsKernelRange a n) s
    = Ret (negb kernel && (_VmIsKernelAddress a || _VmIsKernelAddress (PtrOffset a (n - 1))), s)).
  { destruct kernel; [done|]. unfold _VmIsKernelRange. massert ltac:(apply negb_true_iff, Z.eqb_neq; lia).
    by rewrite u64_id by lia. }
  mrun Hrange. clear Hrange. destruct (negb kernel && _) eqn:Hk.
  { exists (mm_rflags s). by destruct s. }
  destruct (VmReservationReturnRightsForAddress_run fuel _ rs spare a n Hrep Hf Ha Hn Htop Hpages) as (f & Hrun & Hintr).
  mrun (zoom_run (lens_vm space) _ s _ _ Hrun). exists f. split; [|exact Hintr].
  assert (Hset : lset (lens_vm space) (set_rflags f (lget (lens_vm space) s)) s = set_rflags f s)
    by (destruct s as [???[][]]; by destruct space).
  rewrite Hset. unfold rights_answer. destruct (range_region rs a n) as [r|]; [|done].
  destruct (sampled_committed r a n); [|done]. change (negb (SUCCEEDED STATUS_SUCCESS)) with false.
  cbn [negb]. mderef. by destruct (IsBooleanFlagOn (r_rights r) rights).
Qed.

(** C27: MmuIsBufferValid accepts a buffer of user code outside of the image of the process exactly
    when neither end is a kernel address, one region holds all of it, every address it looks at
    is committed and the region grants the rights; in a page-aligned buffer that it accepts every
    byte can then be accessed by user code with these rights. For a buffer that begins in the
    image it does not look at the size or the rights. The arguments NULL and 0 are refused, and
    nothing but the flags register changes. The buffer ends below 2^64 (behind that the address
    wraps around, which is a finding), and the space of the process holds disjoint regions and
    their commit bits, anywhere below 2^64. *)
Theorem MmuIsBufferValid_decides s rs spare a n rights image
    (kernel := KernelSpace (paging_data process_paging (mm_paging s))) :
  vm_rep (lget (lens_vm process_space) s) rs spare → (length rs < fuel)%nat →
  0 ≤ a → 0 ≤ n → a + n < 2 ^ 64 → (n + 4095) / 4096 < Z.of_nat fuel →
  ∃ f, MmuIsBufferValid fuel a n rights image s
      = Ret (if a =? NULL then STATUS_INVALID_PARAMETER1
             else if n =? 0 then STATUS_INVALID_PARAMETER2
             else match image with
             | None => STATUS_INVALID_PARAMETER4
             | Some image => if in_image image a then STATUS_SUCCESS else buffer_status rs a n rights kernel
             end, set_rflags f s)
    ∧ intr_of f = intr_of (mm_rflags s)
    ∧ (buffer_status rs a n rights kernel = STATUS_SUCCESS → a mod 4096 = 0 → 0 < n →
       ∀ k, 0 ≤ k < n → ∃ r, range_region rs a n = Some r ∧ r_contains r (a + k) 1 = true
         ∧ r_committed r (a + k) = true ∧ IsBooleanFlagOn (r_rights r) rights = true).
Proof.
  intros Hrep Hf Ha Hn Htop Hpages.
  assert (Hsafe : buffer_status rs a n rights kernel = STATUS_SUCCESS → a mod 4096 = 0 → 0 < n →
    ∀ k, 0 ≤ k < n → ∃ r, range_region rs a n = Some r ∧ r_contains r (a + k) 1 = true
      ∧ r_committed r (a + k) = true ∧ IsBooleanFlagOn (r_rights r) rights = true).
  { unfold buffer_status. intros Hok Hal Hn' k Hk. destruct (negb kernel && _); [done|].
    destruct (range_region rs a n) as [r|] eqn:Er; [|done].
    destruct (sampled_committed r a n) eqn:Es; [|done]. destruct (IsBooleanFlagOn (r_rights r) rights) eqn:Ei; [|done].
    exists r. unfold range_region in Er. destruct (find_slot rs a n) as [i|] eqn:Ef; [|done].
    destruct (find_slot_Some rs a n i Ef) as (r' & Hi & Hc). cbn in Er. rewrite Hi in Er. cbn in Er. injection Er as ->.
    destruct (vc_region _ _ _ _ _ (proj2 Hrep) i r Hi) as [Hro _].
    split_and!; [done|by apply (contains_byte r a n)|by apply (sampled_aligned r a n)|done]. }
  assert (Hsame : ∀ st : Z, ∃ f, Ret (st, s) = Ret (st, set_rflags f s) ∧ intr_of f = intr_of (mm_rflags s)).
  { intros st. exists (mm_rflags s). by destruct s. }
  unfold MmuIsBufferValid. destruct (Z.eqb_spec a NULL) as [|Hna].
  { destruct (Hsame STATUS_INVALID_PARAMETER1) as (f & ? & ?). by exists f. }
  destruct (Z.eqb_spec n 0) as [|Hnn].
  { destruct (Hsame STATUS_INVALID_PARAMETER2) as (f & ? & ?). by exists f. }
  destruct image as [[base size]|].
  2: { destruct (Hsame STATUS_INVALID_PARAMETER4) as (f & ? & ?). by exists f. }
  unfold in_image. cbn [fst snd]. destruct ((base <=? a) && (a <? PtrOffset base size)).
  { destruct (Hsame STATUS_SUCCESS) as (f & ? & ?). by exists f. }
  erewrite bind_Ret by apply gets_run. cbn beta iota. fold kernel.
  destruct (VmmIsBufferValid_run s rs spare a n rights process_space kernel Hrep Hf) as (f & Hrun & Hintr);
    [unfold NULL in Hna; lia|lia|lia|done|]. by exists f.
Qed.
End Buffers.

Module BufferExample.
Import MmuExample.
(** 2 KB of the committed page, to be written by the kernel on behalf of the user. *)
Lemma MmuIsBufferValid_decides_witness : ∃ f,
  MmuIsBufferValid 4 0x105000 0x800 PAGE_RIGHTS_WRITE (Some (0x400000, 0x1000)) mm0
    = Ret (STATUS_SUCCESS, set_rflags f mm0).
Proof.
  destruct (MmuIsBufferValid_decides 4 mm0 [Some VmExample.r1] 1 0x105000 0x800 PAGE_RIGHTS_WRITE
    (Some (0x400000, 0x1000)) mm0_process) as (f & Hr & _ & _); [simpl; lia|lia|lia|lia|vm_compute; reflexivity|].
  exists f. exact Hr.
Defined.

(** The status, without the state. *)
Definition status_of (o : outcome (Z * MM)) : option Z := match o with Ret (st, _) => Some st | _ => None end.
(** A buffer that begins in the image passes whatever its size: here it reaches into the
    kernel's half. *)
Lemma image_any_size :
  status_of (MmuIsBufferValid 4 0x400000 0xFFFFFF0000000000 PAGE_RIGHTS_WRITE (Some (0x400000, 0x1000)) mm0)
  = Some STATUS_SUCCESS.
Proof. vm_compute. reflexivity. Qed.
(** Both pages of the region are committed, and the end of the buffer wraps around to an address in
    front of the region: neither check notices, and the walk over its pages runs into the
    assertion at the end of the commit bits. *)
Definition mm1 : MM :=
  mkMM (mm_paging mm0) (mm_pmm mm0) (mm_pmm_bytes mm0) (mm_kernel mm0)
    (mkVaSpace (va_space (mm_process mm0)) (va_entries (mm_process mm0)) (<[0x101000 := 3]> (va_bytes (mm_process mm0))))
    (mm_rflags mm0) (mm_apic mm0) (mm_cr0 mm0) (mm_cr3 mm0) (mm_access mm0) (mm_page_faults mm0) (mm_ram mm0).
Lemma wrapped_size_panics :
  MmuIsBufferValid 4 0x105000 (2 ^ 64 - 0x1000) PAGE_RIGHTS_READ (Some (0x400000, 0x1000)) mm1 = Panic.
Proof. vm_compute. reflexivity. Qed.
End BufferExample.
