(* ===== verification/VmmSpec.v ===== *)
(** Page faults: what VmmSolvePageFault does, against the reservations, the frames and the page
    tables that it works on. *)
From S2P Require Import Prelude Memory Bitmap Cpu Spinlock RwSpinlock Pmm VmReservation VmReservationSpec BitField.
From S2P Require Import PageTables PageTablesSpec Mmu MmuSpec Vmm.

#[local] Ltac Zify.zify_post_hook ::= Z.to_euclidean_division_equations.

(** * One frame *)
(** The lowest free frame. *)
Definition first_free (bits : list bool) : option nat := fst <$> list_find (λ b, b = false) bits.

Lemma first_free_Some bits i :
  first_free bits = Some i ↔ is_run bits i 1 false ∧ ∀ j, (j < i)%nat → ¬ is_run bits j 1 false.
Proof.
  assert (Hone : ∀ j, is_run bits j 1 false ↔ bits !! j = Some false).
  { intros j. unfold is_run. split; [intros H; specialize (H O ltac:(lia)); by rewrite Nat.add_0_r in H|].
    intros H k Hk. by replace (j + k)%nat with j by lia. }
  unfold first_free. setoid_rewrite Hone. rewrite fmap_Some. split.
  - intros ([j b] & (Hb & -> & Hmin)%list_find_Some & ->). cbn. split; [done|].
    intros k Hk Hf. by eapply Hmin.
  - intros [Hi Hmin]. exists (i, false). split; [|done]. apply list_find_Some. split_and!; [done|done|].
    intros j y Hj Hlt ->. by eapply Hmin.
Qed.
Lemma first_free_None bits : first_free bits = None → ∀ i, ¬ is_run bits i 1 false.
Proof.
  intros H i Hr. unfold first_free in H. apply fmap_None, list_find_None in H.
  specialize (Hr O ltac:(lia)). rewrite Nat.add_0_r in Hr.
  apply list_elem_of_lookup_2 in Hr. by eapply Forall_forall in H.
Qed.

Section Frame.
Context (L : LOCK_FUNCS PMM_STATE) `{!LockLaws L}.
Variable ret : Z.

Lemma PmmReserveMemory_run s bits :
  pmm_frames s bits →
  ∃ s', PmmReserveMemory L ret 1 s
      = Ret (match first_free bits with Some i => Z.of_nat i * PAGE_SIZE | None => NULL end, s')
    ∧ pmm_same s s'
    ∧ pmm_frames s' (match first_free bits with Some i => set_range bits i 1 true | None => bits end).
Proof.
  intros Hs.
  destruct (PmmReserveMemoryEx_run L ret s bits 0 1 Hs ltac:(done) ltac:(lia))
    as (r & s' & bits' & Hrun & Hf & Hsame & [(-> & -> & Hno)|(i & -> & _ & Hi & -> & Hmin)]); exists s'.
  - destruct (first_free bits) as [j|] eqn:E; [|by split_and!].
    apply first_free_Some in E as [E _]. by destruct (Hno j ltac:(lia)).
  - assert (first_free bits = Some i) as ->; [|by split_and!].
    apply first_free_Some. split; [done|]. intros j Hj. apply Hmin. lia.
Qed.
End Frame.

(** The physical memory manager in the composed state. *)
Definition frames_rep (s : MM) (bits : list bool) : Prop := pmm_frames (lget lens_pmm s) bits.
Lemma frames_bound s bits : frames_rep s bits → Z.of_nat (length bits) ≤ MAX_DWORD.
Proof. intros [Hrep _ _]. exact (rep_bound _ _ _ Hrep). Qed.
Lemma frames_rep_same s s' bits :
  mm_pmm s' = mm_pmm s → mm_pmm_bytes s' = mm_pmm_bytes s → mm_apic s' = mm_apic s →
  frames_rep s bits → frames_rep s' bits.
Proof. intros H1 H2 H3 [A B C]. split; cbn in *; congruence. Qed.

Lemma clear_WP c e : write_allowed (Z.land c (Z.lnot CR0_WP)) e = true.
Proof.
  unfold write_allowed, IsBooleanFlagOn. rewrite <-Z.land_assoc, (Z.land_comm (Z.lnot CR0_WP)).
  rewrite Z.land_lnot_diag, Z.land_0_r. apply orb_true_r.
Qed.
Lemma restore_WP c : Z.lor (Z.land c (Z.lnot CR0_WP)) CR0_WP = Z.lor c CR0_WP.
Proof.
  apply Z.bits_inj'. intros n Hn. rewrite !Z.lor_spec, Z.land_spec, Z.lnot_spec by done.
  by destruct (Z.testbit c n), (Z.testbit CR0_WP n).
Qed.
(** Memory with some bytes stored at an address. *)
Definition fill (ram : Z → Z) (pa : Z) (data : list Z) : Z → Z := λ p,
  if decide (pa ≤ p) then default (ram p) (data !! Z.to_nat (p - pa)) else ram p.
Lemma fill_nil ram pa p : fill ram pa [] p = ram p.
Proof. unfold fill. by destruct (decide _). Qed.
(** What is read into the frame, and zeroes behind it. *)
Lemma fill_zero ram pa data p :
  Z.of_nat (length data) ≤ 4096 →
  zero_ram (fill ram pa data) (pa + Z.of_nat (length data)) (4096 - Z.of_nat (length data)) p
  = if decide (pa ≤ p < pa + 4096) then default 0 (data !! Z.to_nat (p - pa)) else ram p.
Proof.
  intros Hlen. unfold zero_ram, fill.
  destruct (decide (pa ≤ p < pa + 4096)) as [Hin|Hout].
  - destruct (decide (p < pa + Z.of_nat (length data))) as [Hd|Hd].
    + rewrite decide_False, decide_True by lia. destruct (data !! Z.to_nat (p - pa)) eqn:E; [done|].
      apply lookup_ge_None in E. lia.
    + rewrite decide_True by lia. by rewrite lookup_ge_None_2 by lia.
  - rewrite decide_False by lia. destruct (decide (pa ≤ p)); [|done]. by rewrite lookup_ge_None_2 by lia.
Qed.

Lemma frame_of_new i f : 0 ≤ Z.of_nat i < 2 ^ 40 → frame_of (pte_value (4096 * Z.of_nat i) f) = Z.of_nat i.
Proof.
  intros Hi. rewrite pte_value_frame. change (2 ^ 12) with 4096. rewrite (Z.mul_comm 4096), Z.div_mul by lia.
  by rewrite Z.mod_small.
Qed.

Section Fault.
Variables (off : Z) (fuel : nat) (owned : Z → Prop) (pd : PPAGING_DATA).
Context (L : LOCK_FUNCS PMM_STATE) `{!LockLaws L}.
Variables (ret max : Z).
(** The operations run in this state: the locks are free, the frames are [bits], the first of
    which is never free, the tables are well formed and have room for three more, and the CPU
    uses them. *)
Record fault_state (bits : list bool) (s : MM) : Prop := {
  fs_frames : frames_rep s bits;
  fs_first : bits !! O = Some true;
  fs_lock : lock_idle pd max s;
  fs_tables : PageTablesSpec.well_formed off owned pd (mm_paging s);
  fs_room : CurrentIndex (paging_data pd (mm_paging s)) + 3 ≤ NumberOfFrames (paging_data pd (mm_paging s));
  fs_cr3 : cr3_of pd (mm_paging s) (mm_cr3 s);
  fs_intr : intr_of (mm_rflags s) = INTR_OFF
}.

(** The frame of the page and its translation; everything else of the state is as it was. *)
Record frame_mapped (s s' : MM) (bits : list bool) (i : nat) (a rights : Z) (uncach : bool) : Prop := {
  fm_frames : frames_rep s' (set_range bits i 1 true);
  fm_lock : lock_idle pd max s';
  fm_tables : PageTablesSpec.well_formed off owned pd (mm_paging s');
  fm_cr3 : cr3_of pd (mm_paging s') (mm_cr3 s');
  fm_translation va : owned (index 1 (page va)) →
    translation off pd (mm_paging s') va =
    if decide (page va = page a)
    then Some (pte_value (4096 * Z.of_nat i)
      (page_flags (mm_paging s) (KernelSpace (paging_data pd (mm_paging s))) rights uncach))
    else translation off pd (mm_paging s) va;
  fm_spaces : mm_kernel s' = mm_kernel s ∧ mm_process s' = mm_process s ∧ mm_access s' = mm_access s;
  fm_intr : intr_of (mm_rflags s') = INTR_OFF
}.
Lemma frame_mapped_memory s s1 bits i a rights uncach n c ram :
  frame_mapped s s1 bits i a rights uncach →
  frame_mapped s (set_page_faults n (set_cr0 c (set_ram ram s1))) bits i a rights uncach.
Proof. intros [F1 [L1 L2 L3] F3 F4 F5 F6 F7]. by split. Qed.
Lemma frame_mapped_rflags s s1 bits i a rights uncach f :
  frame_mapped (set_rflags f s) s1 bits i a rights uncach → frame_mapped s s1 bits i a rights uncach.
Proof. intros [F1 [L1 L2 L3] F3 F4 F5 F6 F7]. by split. Qed.
(** The page that was given to an address: [data] is what was read into it, the rest of it is
    zero. *)
Record page_given (s s' : MM) (bits : list bool) (i : nat) (a rights : Z) (uncach : bool) (data : list Z) : Prop := {
  pg_mapped : frame_mapped s s' bits i a rights uncach;
  pg_ram p : mm_ram s' p =
    if decide (4096 * Z.of_nat i ≤ p < 4096 * Z.of_nat i + 4096)
    then default 0 (data !! Z.to_nat (p - 4096 * Z.of_nat i)) else mm_ram s p;
  pg_cr0 : mm_cr0 s' = if decide (Z.of_nat (length data) = PAGE_SIZE) then mm_cr0 s else Z.lor (mm_cr0 s) CR0_WP;
  pg_count : mm_page_faults s' =
    if bool_decide (is_Some (mm_access s)) then u64 (mm_page_faults s + 1) else mm_page_faults s
}.

Lemma page_given_rflags s s1 bits i a rights uncach data f :
  page_given (set_rflags f s) s1 bits i a rights uncach data → page_given s s1 bits i a rights uncach data.
Proof. intros [P1 P2 P3 P4]. split; [by eapply frame_mapped_rflags|done..]. Qed.

(** Reserving the frame and mapping it. *)
Lemma map_frame_run s bits i a rights uncach :
  fault_state bits s → first_free bits = Some i → 4096 ≤ a < 2 ^ 64 → owned (index 1 (page a)) → (1 < fuel)%nat →
  ∃ s', (∀ B (k : Z → M MM B), (pa ← zoom lens_pmm (PmmReserveMemory L ret 1);
      ASSERT (negb (NULL =? pa));;
      MmuMapMemoryInternal off fuel pa PAGE_SIZE rights (a - a mod 4096) true uncach (Some pd);; k pa) s
    = k (4096 * Z.of_nat i) s')
  ∧ frame_mapped s s' bits i a rights uncach
  ∧ mm_ram s' = mm_ram s ∧ mm_cr0 s' = mm_cr0 s ∧ mm_page_faults s' = mm_page_faults s.
Proof using LockLaws0.
  intros [Hfr H0 Hlock Hwf Hroom Hcr Hi] Hff Ha Ho Hfuel.
  destruct (PmmReserveMemory_run L ret (lget lens_pmm s) bits Hfr) as (q & Hq & [Q1 Q2 Q3 _] & Hq').
  rewrite Hff in Hq, Hq'. set (s1 := lset lens_pmm q s).
  assert (Hlock1 : lock_idle pd max s1) by (destruct Hlock; split; cbn in *; [done|done|congruence]).
  pose proof (frames_bound _ _ Hfr) as Hbound. apply first_free_Some in Hff as [Hrun Hmin].
  specialize (Hrun O ltac:(lia)). rewrite Nat.add_0_r in Hrun. pose proof (lookup_lt_Some _ _ _ Hrun) as Hlt.
  assert (i ≠ O) as Hi0 by (intros ->; congruence). unfold MAX_DWORD in Hbound.
  assert (Hp : page (a - a mod 4096) = page a) by apply page_lower.
  pose proof (page_range a) as Hpr.
  assert (Hneed : ∀ p, tables_needed p 1 = 3) by (intros p; unfold tables_needed; replace (p + 1 - 1) with p by lia; lia).
  destruct (MmuMapMemoryInternal_run off fuel owned pd s1 max (4096 * Z.of_nat i) (a - a mod 4096) 1 rights true uncach (Some pd))
    as (p & f & Hmap & Hf & [M1 M2 M3 _ M5]); [done|done|exact Hwf| |lia|lia|lia|lia|rewrite Hneed; exact Hroom|].
  { unfold range_ok. rewrite Hp. split_and!; try lia. intros j Hj. by replace (page a + j) with (page a) by lia. }
  exists (set_paging p (set_rflags f s1)). split; [|split; [|done]].
  - intros B k. mrun (zoom_run lens_pmm _ s _ _ Hq). fold s1. massert ltac:(apply negb_true_iff, Z.eqb_neq; unfold NULL, PAGE_SIZE; lia).
    replace (Z.of_nat i * PAGE_SIZE) with (4096 * Z.of_nat i) by (unfold PAGE_SIZE; lia).
    change PAGE_SIZE with (4096 * 1). by mrun Hmap.
  - split.
    + by destruct Hq'.
    + destruct Hlock as [Hl Hm Hap]. split; [|done|].
      * cbn. rewrite M3. exact Hl.
      * cbn. rewrite Q3. exact Hap.
    + exact M1.
    + cbn [mm_paging mm_cr3 set_paging set_rflags]. destruct M2 as [(w & cur & inv & ->) _].
      unfold cr3_of. rewrite st_paging. exact Hcr.
    + intros va Hva. cbn [mm_paging set_paging]. rewrite M5 by done.
      change (mm_paging s1) with (mm_paging s).
      destruct (decide (page va = page a)) as [Heq|Hne].
      2: { rewrite decide_False; [done|]. unfold in_range. rewrite Hp. lia. }
      rewrite decide_True by (unfold in_range; rewrite Hp; lia). rewrite Hp, Heq, Z.sub_diag, Z.mul_0_r, Z.add_0_r.
      assert (Hnew : new_pte (mm_paging s) (KernelSpace (paging_data pd (mm_paging s))) (4096 * Z.of_nat i)
          (a - a mod 4096) rights uncach (a - a mod 4096)
        = pte_value (4096 * Z.of_nat i) (page_flags (mm_paging s) (KernelSpace (paging_data pd (mm_paging s))) rights uncach)).
      { unfold new_pte. f_equal. unfold PtrDiff, PtrOffset. rewrite Z.sub_diag. change (s64 0) with 0.
        rewrite u64_id; lia. }
      unfold mapped_pte. rewrite Hnew. by destruct (translation off pd (mm_paging s) va).
    + cbn. split_and!; try done; by destruct s.
    + cbn [mm_rflags set_paging set_rflags get_rflags]. transitivity (intr_of f); [done|]. rewrite Hf.
      change (intr_of (ps_rflags q) = INTR_OFF). rewrite Q2. exact Hi.
Qed.
(** io_files.c: IoReadFile reads at most the bytes asked for and returns how many it put into the
    buffer, or fails and leaves the buffer alone. *)
Variables (IoReadFile : Z → Z → Z → Z → M MM (Z * Z)) (file_data : Z → Z → option (list Z)).
Definition reads_page : Prop := ∀ f o va s a e,
  hw_walk off (pg_words (mm_paging s)) (mm_cr3 s) va = Some (4, a, e) →
  match file_data f o with
  | Some data => Z.of_nat (length data) ≤ PAGE_SIZE ∧
      IoReadFile f PAGE_SIZE o va s
      = Ret ((STATUS_SUCCESS, Z.of_nat (length data)), set_ram (fill (mm_ram s) (4096 * frame_of e) data) s)
  | None => ∃ st n, SUCCEEDED st = false ∧ IoReadFile f PAGE_SIZE o va s = Ret ((st, n), s)
  end.

Hypothesis Hread : reads_page.

(** What is in the page: the data of the file, when there is one. *)
Definition page_data (file o : Z) : option (list Z) := if file =? NULL then Some [] else file_data file o.

(** No frame is free: the assertion fails. *)
Lemma solve_no_frame s bits a rights uncach file o :
  fault_state bits s → first_free bits = None →
  solve_page_fault off fuel L ret IoReadFile a rights uncach file o pd s = Panic.
Proof using LockLaws0.
  intros Hst Hff. unfold solve_page_fault.
  destruct (PmmReserveMemory_run L ret (lget lens_pmm s) bits (fs_frames _ _ Hst)) as (q & Hq & _ & _).
  rewrite Hff in Hq. by mrun (zoom_run lens_pmm _ s _ _ Hq).
Qed.

(** The read of the file, as the code does it. *)
Lemma read_run s i va a e file o :
  hw_walk off (pg_words (mm_paging s)) (mm_cr3 s) va = Some (4, a, e) → frame_of e = Z.of_nat i →
  ∃ st n ram, (if negb (file =? NULL) then
      '(status, n) ← IoReadFile file PAGE_SIZE o va;
      (if SUCCEEDED status then ASSERT (n <=? PAGE_SIZE) else mret tt);;
      mret (status, n)
    else mret (STATUS_SUCCESS, 0)) s = Ret ((st, n), set_ram ram s)
  ∧ match page_data file o with
    | Some data => st = STATUS_SUCCESS ∧ n = Z.of_nat (length data) ∧ n ≤ 4096
        ∧ ∀ p, ram p = fill (mm_ram s) (4096 * Z.of_nat i) data p
    | None => SUCCEEDED st = false ∧ ram = mm_ram s
    end.
Proof using owned Hread.
  intros Hw He. unfold page_data. destruct (file =? NULL); cbn [negb].
  - exists STATUS_SUCCESS, 0, (mm_ram s). split; [by destruct s|]. split_and!; [done|done|lia|].
    intros p. by rewrite fill_nil.
  - pose proof (Hread file o va s a e Hw) as Hf. destruct (file_data file o) as [data|].
    + destruct Hf as [Hlen Hf]. rewrite He in Hf. eexists _, _, _. split.
      { mrun Hf. change (SUCCEEDED STATUS_SUCCESS) with true. cbn iota. massert ltac:(by apply Z.leb_le). done. }
      by split_and!.
    + destruct Hf as (st & n & Hst & Hf). exists st, n, (mm_ram s). split; [|done].
      mrun Hf. rewrite Hst. by destruct s.
Qed.

(** An access that is allowed. *)
Lemma solve_page_fault_run s bits i a rights uncach file o :
  fault_state bits s → first_free bits = Some i → 4096 ≤ a < 2 ^ 64 → owned (index 1 (page a)) → (1 < fuel)%nat →
  ∃ s', solve_page_fault off fuel L ret IoReadFile a rights uncach file o pd s
      = Ret (bool_decide (is_Some (page_data file o)), s')
  ∧ match page_data file o with
    | Some data => page_given s s' bits i a rights uncach data
    | None => frame_mapped s s' bits i a rights uncach ∧ mm_ram s' = mm_ram s
    end.
Proof using LockLaws0 Hread.
  intros Hst Hff Ha Ho Hfuel. unfold solve_page_fault. cbv zeta. rewrite AlignAddressLower_4096 by lia.
  destruct (map_frame_run s bits i a rights uncach Hst Hff Ha Ho Hfuel) as (s1 & Hrun & Hfm & Hram & Hcr0 & Hpf).
  rewrite Hrun. clear Hrun. pose proof Hfm as [_ _ F3 F4 F5 (F6 & F7 & F8) F9].
  pose proof Hst as [Hfr _ _ _ _ _ _]. pose proof (frames_bound _ _ Hfr) as Hbound. unfold MAX_DWORD in Hbound.
  assert (i < length bits)%nat as Hlt.
  { apply first_free_Some in Hff as [Hr _]. specialize (Hr O ltac:(lia)). apply lookup_lt_Some in Hr. lia. }
  set (e := pte_value (4096 * Z.of_nat i) (page_flags (mm_paging s) (KernelSpace (paging_data pd (mm_paging s))) rights uncach)) in F5.
  assert (Hpg : page (a - a mod 4096) = page a) by apply page_lower.
  assert (Htr : translation off pd (mm_paging s1) (a - a mod 4096) = Some e).
  { rewrite F5 by (by rewrite Hpg). by rewrite Hpg, decide_True. }
  destruct (translation_walk off owned pd (mm_paging s1) (mm_cr3 s1) (a - a mod 4096) e F3 F4
    ltac:(by rewrite Hpg) Htr) as (x & Hw).
  assert (He : frame_of e = Z.of_nat i) by (apply frame_of_new; lia).
  destruct (read_run s1 i _ x e file o Hw He) as (st & n & ram & Hrd & Hout).
  mrun Hrd. destruct (page_data file o) as [data|].
  2: { destruct Hout as [-> ->]. cbn [negb]. exists s1. split; [by destruct s1|done]. }
  destruct Hout as (-> & -> & Hn & Hfill). change (SUCCEEDED STATUS_SUCCESS) with true. cbn [negb].
  assert (Hfin : ∀ t, mm_access t = mm_access s → mm_page_faults t = mm_page_faults s →
    (pCpu ← gets mm_access;
     (if bool_decide (is_Some pCpu) then modify (λ s, set_page_faults (u64 (mm_page_faults s + 1)) s) else mret tt);;
     mret true) t = Ret (true, set_page_faults
       (if bool_decide (is_Some (mm_access s)) then u64 (mm_page_faults s + 1) else mm_page_faults s) t)).
  { intros t H1 H2. erewrite bind_Ret by apply gets_run. cbn beta iota. rewrite H1.
    destruct (bool_decide _); erewrite bind_Ret by reflexivity; cbn beta iota; rewrite <-H2; by destruct t. }
  rewrite bool_decide_true by done.
  destruct (Z.eqb_spec (Z.of_nat (length data)) PAGE_SIZE) as [Hfull|Hpart]; cbn [negb].
  - eexists. split.
    { erewrite bind_Ret by reflexivity. cbn beta iota. by apply Hfin. }
    split; [exact (frame_mapped_memory s s1 bits i a rights uncach _ (mm_cr0 s1) ram Hfm)| |by rewrite decide_True|done].
    intros p. cbn [mm_ram set_page_faults set_ram]. rewrite Hfill, Hram.
    rewrite <-(fill_zero (mm_ram s) (4096 * Z.of_nat i) data p Hn). unfold zero_ram. unfold PAGE_SIZE in Hfull.
    by rewrite decide_False by lia.
  - rewrite u32_id by (unfold PAGE_SIZE; lia).
    replace (PtrOffset (a - a mod 4096) (Z.of_nat (length data))) with (a - a mod 4096 + Z.of_nat (length data))
      by (unfold PtrOffset, PAGE_SIZE in *; rewrite u64_id; lia).
    set (s2 := set_cr0 (Z.land (mm_cr0 s1) (Z.lnot CR0_WP)) (set_ram ram s1)).
    destruct (memzero_run off s2 (a - a mod 4096) 4 x e (Z.of_nat (length data)) (PAGE_SIZE - Z.of_nat (length data)))
      as (ram2 & Hz & Hram2); [lia|lia|lia|lia|unfold PAGE_SIZE in *; lia|unfold PAGE_SIZE; lia|exact Hw|apply clear_WP|].
    eexists. split.
    { rewrite bind_assoc. erewrite bind_Ret by reflexivity. cbn beta iota. fold s2.
      rewrite bind_assoc. mrun Hz. erewrite bind_Ret by reflexivity. cbn beta iota.
      by apply Hfin. }
    split; [exact (frame_mapped_memory s s1 bits i a rights uncach _ _ ram2 Hfm)| | |done].
    + intros p. cbn [mm_ram set_page_faults set_cr0 set_ram]. rewrite Hram2.
      unfold page_address. cbn [Z.eqb]. rewrite He. unfold PAGE_SIZE.
      rewrite <-(fill_zero (mm_ram s) (4096 * Z.of_nat i) data p Hn). unfold zero_ram. cbn [mm_ram s2 set_cr0 set_ram].
      destruct (decide _); [done|]. by rewrite Hfill, Hram.
    + rewrite decide_False by done. cbn. rewrite restore_WP. by rewrite Hcr0.
Qed.
(** * The handler *)
Lemma fault_state_rflags bits s f :
  fault_state bits s → intr_of f = INTR_OFF → fault_state bits (set_rflags f s).
Proof using. intros [F1 F2 [L1 L2 L3] F4 F5 F6 F7] Hf. split; [by apply (frames_rep_same s)|done..]. Qed.

(** The address is not in the first page, and in the half of the address space that the tables
    are for. *)
Definition right_half (a : Z) (s : MM) : bool :=
  negb (a <? PAGE_SIZE) && eqb (_VmIsKernelAddress a) (KernelSpace (paging_data pd (mm_paging s))).

(** What happens to an access: nothing, when it is not allowed; else the lowest free frame is
    mapped, unless there is none or its data cannot be read. *)
Definition fault_outcome (s : MM) (bits : list bool) (a : Z) (d : option (Z * bool * Z * Z))
    (o : outcome (bool * MM)) : Prop :=
  match d, first_free bits with
  | None, _ => ∃ f, o = Ret (false, set_rflags f s) ∧ intr_of f = INTR_OFF
  | Some _, None => o = Panic
  | Some (rights, uncach, file, offset), Some i =>
      match page_data file offset with
      | Some data => ∃ s', o = Ret (true, s') ∧ page_given s s' bits i a rights uncach data
      | None => ∃ s', o = Ret (false, s') ∧ frame_mapped s s' bits i a rights uncach ∧ mm_ram s' = mm_ram s
      end
  end.

Lemma VmmSolvePageFault_run s bits rs spare a rights (k := _VmmRetrieveReservationSpaceForAddress a) :
  fault_state bits s → vm_rep (lget (lens_vm k) s) rs spare → (length rs < fuel)%nat → (1 < fuel)%nat →
  0 ≤ a → a + 1 < 2 ^ 64 → owned (index 1 (page a)) →
  fault_outcome s bits a (if right_half a s then fault_decision (lget (lens_vm k) s) rs a rights else None)
    (VmmSolvePageFault off fuel L ret IoReadFile a rights pd s).
Proof using LockLaws0 Hread.
  intros Hst Hrep Hf Hf1 Ha Ha2 Ho. pose proof Hst as [_ _ _ _ _ _ Hi].
  assert (Hself : s = set_rflags (mm_rflags s) s) by (by destruct s).
  assert (Hno : ∃ f, Ret (false, s) = Ret (false, set_rflags f s) ∧ intr_of f = INTR_OFF) by (by exists (mm_rflags s); rewrite <-Hself).
  unfold VmmSolvePageFault. erewrite bind_Ret by reflexivity. cbn beta iota.
  massert ltac:(change (get_rflags s) with (mm_rflags s); by rewrite Hi).
  rewrite AlignAddressLower_4096 by lia. unfold right_half. change PAGE_SIZE with 4096. change NULL with 0.
  destruct (Z.ltb_spec a 4096) as [Hlow|Hhigh].
  { rewrite (proj2 (Z.eqb_eq 0 _)) by lia. cbn [negb andb]. exact Hno. }
  rewrite (proj2 (Z.eqb_neq 0 _)) by lia. cbn [negb andb]. erewrite bind_Ret by apply gets_run. cbv zeta.
  set (kernel := KernelSpace (paging_data pd (mm_paging s))).
  destruct (_VmIsKernelAddress a) eqn:Hk, kernel eqn:Hks; cbn [negb andb eqb]; try exact Hno.
  all: destruct (VmReservationCanAddressBeAccessed_run fuel (lget (lens_vm k) s) rs spare a rights Hrep Hi Hf Ha Ha2) as (f & Hrun & Hoff).
  all: fold k; assert (Hset : lset (lens_vm k) (set_rflags f (lget (lens_vm k) s)) s = set_rflags f s)
    by (destruct s as [???[][]]; by destruct k).
  all: mrun (zoom_run (lens_vm k) _ s _ _ Hrun); rewrite Hset.
  all: unfold fault_outcome; destruct (fault_decision (lget (lens_vm k) s) rs a rights) as [[[[r unc] file] o]|]; cbn [negb];
    [|rewrite bool_decide_false by (by intros [? ?]); by exists f].
  all: rewrite bool_decide_true by done; cbn [negb]; mderef.
  all: pose proof (fault_state_rflags bits s f Hst Hoff) as Hst'.
  all: destruct (first_free bits) as [i|] eqn:Hff; [|by eapply solve_no_frame].
  all: destruct (solve_page_fault_run (set_rflags f s) bits i a r unc file o Hst' Hff ltac:(lia) Ho Hf1) as (s' & Hrs & Hout).
  all: rewrite Hrs; destruct (page_data file o) as [data|]; cbn; exists s'; (split; [done|]).
  all: first [by eapply page_given_rflags|destruct Hout; split; [by eapply frame_mapped_rflags|done]].
Qed.
End Fault.
