(* ===== verification/VmmProps.v ===== *)
(** The theorems about the virtual memory manager, with a system in which they apply. *)
From S2P Require Import Prelude Memory Bitmap Cpu Spinlock RwSpinlock Pmm VmReservation VmReservationSpec BitField.
From S2P Require Import PageTables PageTablesSpec PageTablesProps Mmu MmuSpec MmuExample Vmm VmmSpec.

#[local] Ltac Zify.zify_post_hook ::= Z.to_euclidean_division_equations.

Section Props.
Variables (off : Z) (fuel : nat) (owned : Z → Prop) (ret max : Z).
Context (L : LOCK_FUNCS PMM_STATE) `{!LockLaws L}.

(** The rights that an access with this error code needs, and the tables it went through. *)
Definition rights_needed (ErrorCode : Z) : Z :=
  (if Z.testbit ErrorCode 1 then PAGE_RIGHTS_WRITE else 0) + (if Z.testbit ErrorCode 4 then PAGE_RIGHTS_EXECUTE else 0).
Definition faulting_tables (ErrorCode : Z) : PPAGING_DATA :=
  if Z.testbit ErrorCode 2 then process_paging else kernel_paging.

(** C26: a page fault is solved exactly when the reservations allow the access and it goes to the
    half of the address space that belongs to the mode of the CPU: then the page is mapped to the
    lowest free frame with the rights and the cacheability of its region, the frame holds the
    data of the backing file and zeroes behind it, and no other translation, byte of memory or
    reservation changes. An access that is not allowed changes nothing; without a free frame the
    system stops; when the file cannot be read the fault is not solved, but the page stays mapped
    to a frame that was not cleared. The handler runs with interrupts off, the locks of the frames,
    of the paging structures and of the reservations that it asks are free, the tables it maps in
    are the ones of the CPU, well formed and with three frames left, and the space of the address
    holds disjoint regions and their commit bits, anywhere below 2^64 (of the kernel's in the
    upper half too); what IoReadFile reads it puts into the page. *)
Theorem MmuSolvePageFault_decides IoReadFile file_data s bits rs spare a ErrorCode
    (pd := faulting_tables ErrorCode) (k := _VmmRetrieveReservationSpaceForAddress a) :
  reads_page off IoReadFile file_data →
  fault_state off owned pd max bits s → vm_rep (lget (lens_vm k) s) rs spare → (length rs < fuel)%nat →
  (1 < fuel)%nat → 0 ≤ a → a + 1 < 2 ^ 64 → owned (index 1 (page a)) →
  fault_outcome off owned pd max file_data s bits a
    (if right_half pd a s then fault_decision (lget (lens_vm k) s) rs a (rights_needed ErrorCode) else None)
    (MmuSolvePageFault off fuel L ret IoReadFile a ErrorCode s).
Proof using LockLaws0.
  intros Hread Hst Hrep Hf Hf1 Ha Ha2 Ho. unfold MmuSolvePageFault. erewrite bind_Ret by reflexivity. cbn beta iota.
  massert ltac:(change (get_rflags s) with (mm_rflags s); by rewrite (fs_intr _ _ _ _ _ _ Hst)).
  cbv zeta. unfold PAGE_FAULT_ERR_CODE_Write, PAGE_FAULT_ERR_CODE_Execution, PAGE_FAULT_ERR_CODE_Usermode.
  fold (faulting_tables ErrorCode). fold pd.
  replace (Z.lor (Z.lor PAGE_RIGHTS_READ (if Z.testbit ErrorCode 1 then PAGE_RIGHTS_WRITE else 0))
    (if Z.testbit ErrorCode 4 then PAGE_RIGHTS_EXECUTE else 0)) with (rights_needed ErrorCode)
    by (unfold rights_needed; by destruct (Z.testbit ErrorCode 1), (Z.testbit ErrorCode 4)).
  by eapply VmmSolvePageFault_run.
Qed.
End Props.

(** * The calls of the release of a region *)
Section Release.
Variables (off : Z) (fuel : nat) (owned : Z → Prop) (max : Z) (MmuReleaseMemory : Z → Z → M PAGING unit).
Hypothesis Hrelease : ∀ pa s,
  MmuReleaseMemory pa 1 s = Ret (tt, set_released (pg_released s ++ [(pa, 1)]) s).

(** The pages of the commit bits are unmapped from the tables of the kernel; in the model the
    reservations keep even the bytes of these pages. *)
Lemma free_commit_bits_run s p n k :
  lock_idle kernel_paging max s → PageTablesSpec.well_formed off owned kernel_paging (mm_paging s) →
  0 < p < 2 ^ 64 → 0 < n → p mod 4096 + n + 4095 < 2 ^ 64 →
  range_ok owned (p - p mod 4096) (unmapped_count p n) → (Z.to_nat (unmapped_count p n) < fuel)%nat →
  ∃ s1, free_commit_bits off fuel MmuReleaseMemory p n s = Ret (tt, s1)
    ∧ bytes_changed p n (lget (lens_vm k) s) (lget (lens_vm k) s1).
Proof using Hrelease.
  intros Hl Hwf Hp Hn Htop Hr Hf.
  destruct (MmuUnmapMemoryEx_run off fuel owned kernel_paging MmuReleaseMemory Hrelease s max p n true None)
    as (q & f & Hrun & Hi & _); [done..|].
  exists (set_paging q (set_rflags f s)). split; [exact Hrun|].
  exists f, (get_bytes (lget (lens_vm k) s)). by split_and!.
Qed.
(** So the release of a region without a file runs. *)
Lemma release_calls_run IoCloseFile s k rs spare a i r :
  let s0 := lset (lens_vm k) (taken_out i (lget (lens_vm k) s)) s in
  vm_rep (lget (lens_vm k) s) rs spare → rs !! i = Some (Some r) → r_file r = NULL →
  lock_idle kernel_paging max s0 → PageTablesSpec.well_formed off owned kernel_paging (mm_paging s) →
  range_ok owned (r_buffer r) (unmapped_count (r_buffer r) (bits_size r)) →
  (Z.to_nat (unmapped_count (r_buffer r) (bits_size r)) < fuel)%nat →
  (length rs < fuel)%nat → 0 < a → a + 1 < 2 ^ 64 → find_slot rs a 1 = Some i →
  ∃ s', VmReservationSpaceFreeRegion fuel (lens_vm k) (free_commit_bits off fuel MmuReleaseMemory) IoCloseFile
      a 0 VMM_FREE_TYPE_RELEASE s = Ret ((r_start r, r_size r), s')
    ∧ call_done (lget (lens_vm k) s) (lget (lens_vm k) s') (<[i := None]> rs) spare.
Proof using Hrelease.
  intros s0 Hrep Hi Hfile Hl Hwf Hrange Hfu Hf Ha Ha2 Hfs. pose proof (proj2 Hrep) as HV.
  destruct (vc_region _ _ _ _ _ HV _ _ Hi) as [Hok (B1 & B2 & B3)]. pose proof (r_buffer_end_gt r Hok) as Hgt.
  destruct (vc_space _ _ _ _ _ HV) as [S1 S2 S3 S4 _ _]. destruct Hok as [_ _ P1 P2 _]. unfold PAGE_SIZE in B1.
  destruct (free_commit_bits_run s0 (r_buffer r) (bits_size r) k) as (s1 & Hun & Hb); try done.
  { lia. }
  { unfold bits_size. lia. }
  { unfold bits_size, MAX_DWORD in *. lia. }
  { by rewrite B1, Z.sub_0_r. }
  unfold s0 in Hb. rewrite lget_lset in Hb.
  destruct (free_release_run fuel (lens_vm k) (free_commit_bits off fuel MmuReleaseMemory) IoCloseFile s s1 rs spare
    a i r Hrep Hf Ha Ha2 Hfs Hi) as (s2 & Hrun & _ & Hd); [by split|].
  eexists. split; [exact Hrun|]. by rewrite lget_lset.
Qed.
End Release.

(** * Page faults of a process *)
Module VmmExample.
Import MmuExample.
#[local] Opaque PagingExample.words.
Definition LP : LOCK_FUNCS PMM_STATE := LockSystemInit 3 true.
#[local] Instance LP_laws : LockLaws LP.
Proof. exact (LockSystemInit_laws 3 ltac:(lia) true (St := PMM_STATE)). Qed.
(** A read that finds three bytes in every file, at any offset. *)
Definition file0 (f o : Z) : option (list Z) := Some [1; 2; 3].
Definition IoReadFile0 (f n o va : Z) : M MM (Z * Z) := λ s,
  match hw_walk off (pg_words (mm_paging s)) (mm_cr3 s) va with
  | Some (_, _, e) => Ret ((STATUS_SUCCESS, 3), set_ram (fill (mm_ram s) (4096 * frame_of e) [1; 2; 3]) s)
  | None => Fault
  end.
Lemma IoReadFile0_ok : reads_page off IoReadFile0 file0.
Proof. intros f o va s a e Hw. split; [done|]. unfold IoReadFile0. by rewrite Hw. Qed.

Definition bits0 : list bool := [true; true; true; false; false; false; false; false].
Lemma mm0_state pd : fault_state off PagingExample.everything pd 3 bits0 mm0.
Proof.
  split; [|done| |apply paging0_well_formed|by destruct pd|by destruct pd|done].
  - destruct PmmExample.frames_ok as [H1 H2 H3]. by split.
  - split; [by destruct pd|lia|by split].
Qed.
(** A write of user code to the committed page is given frame 3, which is zero afterwards. *)
Lemma MmuSolvePageFault_decides_witness : ∃ s',
  MmuSolvePageFault off 4 LP 0x401000 IoReadFile0 0x105008 6 mm0 = Ret (true, s')
  ∧ mm_ram s' 0x3008 = 0 ∧ mm_page_faults s' = 8.
Proof.
  pose proof (MmuSolvePageFault_decides off 4 PagingExample.everything 0x401000 3 LP IoReadFile0 file0 mm0 bits0
    [Some VmExample.r1] 1 0x105008 6 IoReadFile0_ok (mm0_state process_paging) mm0_process
    ltac:(simpl; lia) ltac:(lia) ltac:(lia) ltac:(lia) I) as H.
  set (d := if right_half _ _ _ then _ else _) in H.
  assert (Hd : d = Some (PAGE_RIGHTS_READWRITE, false, NULL, 0)) by reflexivity. rewrite Hd in H.
  unfold fault_outcome in H. change (first_free bits0) with (Some 3%nat) in H.
  destruct H as (s' & Hr & [_ Hram _ Hcount]). exists s'. split; [exact Hr|].
  split; [rewrite Hram; rewrite decide_True by lia; reflexivity|exact Hcount].
Defined.
End VmmExample.
