(* ===== verification/Mdl.v ===== *)
(** HAL9000/src/mdl.c, and the functions of mmu.c that give the kernel access to the memory of a
    process: probing, memory descriptor lists and the mapping of a user buffer. *)
From S2P Require Import Prelude Memory Bitmap Cpu Spinlock RwSpinlock Pmm Heap VmReservation PageTables PageTablesSpec.
From S2P Require Import Mmu Vmm.

(** CommonLib/inc/status.h *)
(** shared/kernel/heap_tags.h, shared/kernel/io_structures.h (structures are aligned to 8) *)
Definition HEAP_MDL_TAG : Z := 0x3A4C4D44.
Definition sizeof_MDL : Z := 24.
Definition sizeof_MDL_TRANSLATION_PAIR : Z := 16.
Definition with_header (va count offset : Z) (m : MDL) : MDL :=
  mkMDL va count offset (NumberOfTranslationPairs m) (Translations m).
Definition with_NumberOfTranslationPairs (n : Z) (m : MDL) : MDL :=
  mkMDL (mdl_StartVa m) (ByteCount m) (ByteOffset m) n (Translations m).
(** [Mdl->Translations[i] = pair]: a store behind the memory of the list is an error. *)
Definition store_pair {St} (i : Z) (pair : MDL_TRANSLATION_PAIR) (m : MDL) : M St MDL :=
  if i <? Z.of_nat (length (Translations m))
  then mret (mkMDL (mdl_StartVa m) (ByteCount m) (ByteOffset m) (NumberOfTranslationPairs m)
               (<[Z.to_nat i := pair]> (Translations m)))
  else fault.

Section Ops.
(** As in Vmm; ExAllocatePoolWithTag and ExFreePoolWithTag (ex.c) work on a heap. *)
Variables (off : Z) (fuel : nat) (L : LOCK_FUNCS PMM_STATE) (ret : Z).
Variable MmuReleaseMemory : Z → Z → M PAGING unit.
Variables (IoReadFile : Z → Z → Z → Z → M MM (Z * Z)) (IoCloseFile : Z → M MM Z).
Variables (ExAllocatePoolWithTag : Z → Z → Z → Z → M MM Z) (ExFreePoolWithTag : MDL → Z → M MM unit).

(** * Reads of the kernel *)
(** isr.c, for a page fault whose error code the processor has pushed. *)
Definition _IsrExceptionHandler (pfAddr errorCode : Z) : M MM unit :=
  exceptionHandled ← MmuSolvePageFault off fuel L ret IoReadFile pfAddr errorCode;
  ASSERT exceptionHandled.
(** A read in supervisor mode. When the page is not mapped, the processor disables the interrupts
    and calls the handler, restores the flags when it returns, and repeats the read. *)
Definition read_access (va : Z) : M MM unit :=
  loop fuel (λ _,
    s ← get;
    match hw_walk off (pg_words (mm_paging s)) (mm_cr3 s) va with
    | Some _ => mret (inr tt)
    | None =>
        modify (set_rflags (intr_flags false (mm_rflags s)));;
        _IsrExceptionHandler va 0;;
        modify (set_rflags (mm_rflags s));;
        mret (inl tt)
    end) tt.
(** mmu.c *)
Definition MmuProbeMemory (Buffer NumberOfBytes : Z) : M MM unit :=
  ASSERT (negb (NULL =? Buffer));;
  ASSERT (negb (0 =? NumberOfBytes));;
  let pBuffer := AlignAddressLower Buffer PAGE_SIZE in
  let alignmentDifferences := u32 (AddressOffset Buffer PAGE_SIZE) in
  let alignedSize := u32 (AlignAddressUpper (u32 (NumberOfBytes + alignmentDifferences)) PAGE_SIZE) in
  loop fuel (λ offset,
    if negb (offset <? alignedSize) then mret (inr tt) else
    read_access (PtrOffset pBuffer offset);;
    mret (inl (u32 (offset + PAGE_SIZE)))) 0.

(** * Memory descriptor lists *)
(** The pages behind the first one: one round of the loop that counts the pairs, and of the loop
    that stores them. *)
Section Steps.
Variables (pAlignedAddress alignedSize Cr3 : Z) (PagingData : option PPAGING_DATA).
Definition count_step '(offset, mdlCurPair, noOfPairs) : M MM (Z * MDL_TRANSLATION_PAIR * Z + Z) :=
  if negb (offset <? alignedSize) then mret (inr noOfPairs) else
  pa ← MmuGetPhysicalAddressEx off fuel (PtrOffset pAlignedAddress offset) PagingData Cr3;
  ASSERT (negb (NULL =? pa));;
  if PtrOffset (Address mdlCurPair) (NumberOfBytes mdlCurPair) =? pa
  then mret (inl (u32 (offset + PAGE_SIZE),
         mkPair (Address mdlCurPair) (u32 (NumberOfBytes mdlCurPair + PAGE_SIZE)), noOfPairs))
  else mret (inl (u32 (offset + PAGE_SIZE), mkPair pa PAGE_SIZE, u32 (noOfPairs + 1))).
Definition store_step '(offset, mdlCurPair, pMdl, indexInMdlArray)
    : M MM (Z * MDL_TRANSLATION_PAIR * MDL * Z + MDL_TRANSLATION_PAIR * MDL * Z) :=
  if negb (offset <? alignedSize) then mret (inr (mdlCurPair, pMdl, indexInMdlArray)) else
  pa ← MmuGetPhysicalAddressEx off fuel (PtrOffset pAlignedAddress offset) PagingData Cr3;
  ASSERT (negb (NULL =? pa));;
  if PtrOffset (Address mdlCurPair) (NumberOfBytes mdlCurPair) =? pa
  then mret (inl (u32 (offset + PAGE_SIZE),
         mkPair (Address mdlCurPair) (u32 (NumberOfBytes mdlCurPair + PAGE_SIZE)), pMdl, indexInMdlArray))
  else
    pMdl ← store_pair indexInMdlArray mdlCurPair pMdl;
    mret (inl (u32 (offset + PAGE_SIZE), mkPair pa PAGE_SIZE, pMdl, u32 (indexInMdlArray + 1))).
End Steps.

Definition MdlAllocateEx (VirtualAddress Length Cr3 : Z) (PagingData : option PPAGING_DATA) : M MM (option MDL) :=
  ASSERT (negb (NULL =? VirtualAddress));;
  ASSERT (negb (0 =? Length));;
  ASSERT (xorb (negb (Cr3 =? NULL)) (bool_decide (is_Some PagingData)));;
  let pAlignedAddress := AlignAddressLower VirtualAddress PAGE_SIZE in
  let alignmentDifferences := u32 (AddressOffset VirtualAddress PAGE_SIZE) in
  let alignedSize := u32 (AlignAddressUpper (u32 (Length + alignmentDifferences)) PAGE_SIZE) in
  bKernelMemory ← gets (λ s, match PagingData with
    | None => true
    | Some pd => KernelSpace (paging_data pd (mm_paging s))
    end);
  (if (bKernelMemory : bool) then MmuProbeMemory VirtualAddress Length else mret tt);;
  pa ← MmuGetPhysicalAddressEx off fuel VirtualAddress PagingData Cr3;
  if pa =? NULL then ASSERT (negb bKernelMemory);; mret None else
  noOfPairs ← loop fuel (count_step pAlignedAddress alignedSize Cr3 PagingData)
    (PAGE_SIZE, mkPair pa (PAGE_SIZE - alignmentDifferences), 1);
  let mdlSize := u32 (sizeof_MDL + sizeof_MDL_TRANSLATION_PAIR * noOfPairs) in
  pMdl ← ExAllocatePoolWithTag PoolAllocateZeroMemory mdlSize HEAP_MDL_TAG 0;
  if NULL =? pMdl then mret None else
  let pMdl := mkMDL NULL 0 0 0
    (replicate (Z.to_nat ((mdlSize - sizeof_MDL) / sizeof_MDL_TRANSLATION_PAIR)) (mkPair NULL 0)) in
  let pMdl := with_header pAlignedAddress Length alignmentDifferences pMdl in
  pa ← MmuGetPhysicalAddressEx off fuel VirtualAddress PagingData Cr3;
  ASSERT (negb (pa =? NULL));;
  '(mdlCurPair, pMdl, indexInMdlArray) ← loop fuel (store_step pAlignedAddress alignedSize Cr3 PagingData)
    (PAGE_SIZE, mkPair pa (PAGE_SIZE - ByteOffset pMdl), pMdl, 0);
  pMdl ← store_pair indexInMdlArray mdlCurPair pMdl;
  let indexInMdlArray := u32 (indexInMdlArray + 1) in
  let pMdl := with_NumberOfTranslationPairs indexInMdlArray pMdl in
  ASSERT (indexInMdlArray =? noOfPairs);;
  mret (Some pMdl).
Definition MdlFree (Mdl : option MDL) : M MM unit :=
  match Mdl with Some m => ExFreePoolWithTag m HEAP_MDL_TAG | None => λ _, Panic end.

(** * User buffers *)
(** Of the process, its PagingData; NULL is [None]. The result is the status and *KernelAddress. *)
Definition MmuGetSystemVirtualAddressForUserBuffer (UserAddress Size PageRights : Z)
    (Process : option PPAGING_DATA) (KernelAddress : bool) : M MM (Z * option Z) :=
  if UserAddress =? NULL then mret (STATUS_INVALID_PARAMETER1, None) else
  if Size =? 0 then mret (STATUS_INVALID_PARAMETER2, None) else
  match Process with
  | None => mret (STATUS_INVALID_PARAMETER3, None)
  | Some PagingData =>
      if negb KernelAddress then mret (STATUS_INVALID_PARAMETER4, None) else
      ASSERT (Size <=? MAX_DWORD);;
      pMdl ← MdlAllocateEx UserAddress (u32 Size) NULL (Some PagingData);
      match pMdl with
      | None => mret (STATUS_UNSUCCESSFUL, None)
      | Some m =>
          pKernelAddress ← VmmAllocRegionEx off fuel L ret MmuReleaseMemory IoReadFile IoCloseFile NULL Size
            (Z.lor (Z.lor VMM_ALLOC_TYPE_RESERVE VMM_ALLOC_TYPE_COMMIT) VMM_ALLOC_TYPE_NOT_LAZY)
            PageRights false NULL None None pMdl;
          MdlFree pMdl;;
          if pKernelAddress =? NULL then mret (STATUS_MEMORY_CANNOT_BE_COMMITED, None) else
          mret (STATUS_SUCCESS, Some (PtrOffset pKernelAddress (AddressOffset UserAddress PAGE_SIZE)))
      end
  end.
Definition MmuFreeSystemVirtualAddressForUserBuffer (KernelAddress : Z) : M MM unit :=
  ASSERT (negb (KernelAddress =? NULL));;
  VmmFreeRegionEx off fuel MmuReleaseMemory IoCloseFile KernelAddress 0 VMM_FREE_TYPE_RELEASE false None None.
End Ops.
