(* ===== verification/MdlSpec.v ===== *)
(** The two passes of MdlAllocateEx: the pairs that they find, and what the pairs describe. *)
From S2P Require Import Prelude Memory Bitmap Cpu Spinlock RwSpinlock Pmm Heap VmReservation BitField PageTables.
From S2P Require Import PageTablesSpec Mmu MmuSpec Vmm Mdl.

#[local] Ltac Zify.zify_post_hook ::= Z.to_euclidean_division_equations.

(** * Pairs *)
(** The bytes that a pair describes. *)
Definition pair_bytes (p : MDL_TRANSLATION_PAIR) : list Z := seqZ (Address p) (NumberOfBytes p).
Definition contiguous (p : MDL_TRANSLATION_PAIR) (pa : Z) : bool := Address p + NumberOfBytes p =? pa.
(** The pairs for pages at the addresses [pas] behind the bytes of [cur]. *)
Fixpoint merge (cur : MDL_TRANSLATION_PAIR) (pas : list Z) : list MDL_TRANSLATION_PAIR :=
  match pas with
  | [] => [cur]
  | pa :: pas' =>
      if contiguous cur pa then merge (mkPair (Address cur) (NumberOfBytes cur + 4096)) pas'
      else cur :: merge (mkPair pa 4096) pas'
  end.
(** No pair continues the one before it. *)
Fixpoint separated (l : list MDL_TRANSLATION_PAIR) : Prop :=
  match l with
  | p :: ((q :: _) as l') => contiguous p (Address q) = false ∧ separated l'
  | _ => True
  end.

Lemma merge_head cur pas : ∃ n l, merge cur pas = mkPair (Address cur) n :: l.
Proof.
  revert cur. induction pas as [|pa pas IH]; intros [a n]; cbn [merge Address NumberOfBytes]; [by eauto|].
  destruct (contiguous _ _); [|by eauto]. destruct (IH (mkPair a (n + 4096))) as (m & l & ->). by eauto.
Qed.
Lemma merge_length cur pas : (1 ≤ length (merge cur pas) ≤ S (length pas))%nat.
Proof.
  revert cur. induction pas as [|pa pas IH]; intros cur; cbn [merge length]; [lia|].
  destruct (contiguous _ _); cbn [length];
    [specialize (IH (mkPair (Address cur) (NumberOfBytes cur + 4096)))|specialize (IH (mkPair pa 4096))]; lia.
Qed.
Lemma merge_separated cur pas : separated (merge cur pas).
Proof.
  revert cur. induction pas as [|pa pas IH]; intros cur; cbn [merge]; [done|].
  destruct (contiguous cur pa) eqn:E; [apply IH|].
  specialize (IH (mkPair pa 4096)). destruct (merge_head (mkPair pa 4096) pas) as (m & l & Hl).
  rewrite Hl in *. by split.
Qed.
(** They describe the bytes of the pages, in order. *)
Lemma merge_bytes cur pas :
  0 ≤ NumberOfBytes cur → mjoin (pair_bytes <$> merge cur pas) = pair_bytes cur ++ mjoin ((λ pa, seqZ pa 4096) <$> pas).
Proof.
  revert cur. induction pas as [|pa pas IH]; intros cur Hn; cbn [merge]; [done|].
  destruct (contiguous cur pa) eqn:E.
  - apply Z.eqb_eq in E. rewrite IH by (cbn; lia). unfold pair_bytes at 1. cbn [Address NumberOfBytes].
    rewrite seqZ_app by lia. by rewrite E, <-app_assoc.
  - cbn [fmap list_fmap mjoin list_join]. by rewrite IH by (cbn; lia).
Qed.
Lemma merge_sizes cur pas : 0 < NumberOfBytes cur → Forall (λ p, 0 < NumberOfBytes p) (merge cur pas).
Proof.
  revert cur. induction pas as [|pa pas IH]; intros cur Hn; cbn [merge]; [by constructor|].
  destruct (contiguous _ _); [apply IH; cbn; lia|]. constructor; [done|]. apply IH. cbn. lia.
Qed.

(** * Addresses of bytes *)
Lemma page_address_range l va e : 0 ≤ page_address l va e < 2 ^ 52.
Proof.
  unfold page_address. pose proof (get_field_range PD_ENTRY_2MB_PhysicalAddress e ltac:(by cbn)) as H1.
  pose proof (get_field_range PT_ENTRY_PhysicalAddress e ltac:(by cbn)) as H2. unfold frame_of.
  cbn [snd PD_ENTRY_2MB_PhysicalAddress PT_ENTRY_PhysicalAddress] in *. destruct (l =? 3); lia.
Qed.
Lemma physical_address_range off w cr3 va : 0 ≤ physical_address off w cr3 va < 2 ^ 53.
Proof.
  unfold physical_address. destruct (hw_walk off w cr3 va) as [[[l a] e]|]; [|lia].
  pose proof (page_address_range l (va - va mod 4096) e). unfold PtrOffset. rewrite u64_id; lia.
Qed.
(** The bytes of a page are at consecutive addresses. *)
Lemma physical_address_page off w cr3 va i :
  0 ≤ i → va mod 4096 + i < 4096 → physical_address off w cr3 (va + i) = physical_address off w cr3 va + i.
Proof.
  intros Hi Hin.
  assert (Hm : (va + i) mod 4096 = va mod 4096 + i) by lia.
  assert (Hl : va + i - (va mod 4096 + i) = va - va mod 4096) by lia.
  assert (Hp : page (va + i) = page va) by (rewrite <-(page_lower (va + i)), Hm, Hl; apply page_lower).
  unfold physical_address. rewrite (hw_walk_page off w cr3 _ _ Hp), Hm, Hl.
  destruct (hw_walk off w cr3 va) as [[[l a] e]|]; [|lia].
  pose proof (page_address_range l (va - va mod 4096) e). unfold PtrOffset. rewrite !u64_id; lia.
Qed.
Lemma page_bytes off w cr3 va k n :
  0 ≤ n → (va + k) mod 4096 + n ≤ 4096 →
  seqZ (physical_address off w cr3 (va + k)) n = (λ i, physical_address off w cr3 (va + i)) <$> seqZ k n.
Proof.
  intros Hn Hin. unfold seqZ. rewrite <-list_fmap_compose. apply list_fmap_ext. intros i x Hx.
  apply lookup_seq in Hx as [-> Hx]. unfold compose.
  replace (va + (Z.of_nat (0 + i) + k)) with (va + k + Z.of_nat i) by lia.
  rewrite (physical_address_page off w cr3 (va + k) (Z.of_nat i)) by lia. lia.
Qed.

(** * The two passes *)
Section Passes.
Variables (off : Z) (fuel : nat).
Variables (s : MM) (low Cr3 : Z) (PagingData : option PPAGING_DATA) (n : Z) (phys : Z → Z).
(** The state, with other flags. *)
Definition same_but_flags (r : MM) : Prop := ∃ f, r = set_rflags f s ∧ intr_of f = intr_of (mm_rflags s).
(** The addresses of the pages, from page [k] on. *)
Definition page_addresses (k : Z) : list Z := phys <$> seqZ k (n - k).
(** What MmuGetPhysicalAddressEx answers for the page [j] of the buffer. *)
Hypothesis Hget : ∀ j r, 1 ≤ j < n → same_but_flags r → ∃ r',
  MmuGetPhysicalAddressEx off fuel (PtrOffset low (4096 * j)) PagingData Cr3 r = Ret (phys j, r') ∧ same_but_flags r'.
Hypothesis Hphys : ∀ j, 0 ≤ phys j < 2 ^ 53.
Hypothesis Hn : 4096 * n < 2 ^ 32.
Abbreviation count_step := (Mdl.count_step off fuel low (4096 * n) Cr3 PagingData).
Abbreviation store_step := (Mdl.store_step off fuel low (4096 * n) Cr3 PagingData).

Lemma page_addresses_cons k : k < n → page_addresses k = phys k :: page_addresses (k + 1).
Proof using.
  intros H. unfold page_addresses. rewrite seqZ_cons by lia. cbn.
  by replace (Z.pred (n - k)) with (n - (k + 1)) by lia.
Qed.
Lemma page_addresses_nil k : n ≤ k → page_addresses k = [].
Proof using. intros H. unfold page_addresses. by rewrite seqZ_nil by lia. Qed.

(** A pair over at most [k] pages. *)
Definition pair_ok (p : MDL_TRANSLATION_PAIR) (k : Z) : Prop :=
  0 ≤ Address p < 2 ^ 53 ∧ 0 ≤ NumberOfBytes p ≤ 4096 * k.
(** The pair that the loops go on with. *)
Definition next_pair (p : MDL_TRANSLATION_PAIR) (k : Z) : MDL_TRANSLATION_PAIR :=
  if contiguous p (phys k) then mkPair (Address p) (NumberOfBytes p + 4096) else mkPair (phys k) 4096.
Lemma next_pair_ok p k : 0 ≤ k → pair_ok p k → pair_ok (next_pair p k) (k + 1).
Proof using Hphys.
  intros Hk [H1 H2]. unfold next_pair, pair_ok.
  destruct (contiguous _ _); cbn [Address NumberOfBytes]; [lia|]. pose proof (Hphys k). lia.
Qed.
Lemma merge_next p k :
  k < n → merge p (page_addresses k)
  = (if contiguous p (phys k) then [] else [p]) ++ merge (next_pair p k) (page_addresses (k + 1)).
Proof using.
  intros Hk. rewrite page_addresses_cons by done. cbn [merge]. unfold next_pair. by destruct (contiguous _ _).
Qed.

Lemma count_step_run k p c r :
  1 ≤ k < n → pair_ok p k → 0 < c < 2 ^ 32 - 1 → same_but_flags r →
  ∃ r', count_step (4096 * k, p, c) r
    = (if phys k =? NULL then Panic
       else Ret (inl (4096 * (k + 1), next_pair p k, if contiguous p (phys k) then c else c + 1), r'))
  ∧ same_but_flags r'.
Proof using Hget Hn.
  intros Hk [Hp1 Hp2] Hc Hr. destruct (Hget k r Hk Hr) as (r' & Hrun & Hr'). exists r'. split; [|done].
  unfold Mdl.count_step. rewrite (proj2 (Z.ltb_lt (4096 * k) (4096 * n))) by lia. cbn [negb]. mrun Hrun.
  rewrite (Z.eqb_sym NULL). destruct (phys k =? NULL) eqn:Hz; [reflexivity|]. massert ltac:(done).
  unfold next_pair, PAGE_SIZE, PtrOffset. unfold contiguous.
  rewrite (u64_id (Address p + NumberOfBytes p)), !u32_id by lia.
  replace (4096 * k + 4096) with (4096 * (k + 1)) by lia. by destruct (_ =? phys k).
Qed.

(** The first pass counts the pairs, unless a page is not mapped. *)
Lemma count_run m : ∀ k p c r g,
  Z.of_nat m = n - k → 1 ≤ k → pair_ok p k → 0 < c → c + Z.of_nat m < 2 ^ 32 → (m < g)%nat → same_but_flags r →
  if existsb (Z.eqb NULL) (page_addresses k) then loop g count_step (4096 * k, p, c) r = Panic
  else ∃ r', loop g count_step (4096 * k, p, c) r
    = Ret (c - 1 + Z.of_nat (length (merge p (page_addresses k))), r') ∧ same_but_flags r'.
Proof using Hget Hphys Hn.
  induction m as [|m IH]; intros k p c r [|g] Hm Hk Hp Hc Htop Hg Hr; try lia.
  - rewrite page_addresses_nil by lia. cbn [existsb].
    exists r. split; [|done]. erewrite loop_break.
    2: { unfold Mdl.count_step. rewrite (proj2 (Z.ltb_ge (4096 * k) (4096 * n))) by lia. reflexivity. }
    cbn. do 2 f_equal. lia.
  - destruct (count_step_run k p c r ltac:(lia) Hp ltac:(lia) Hr) as (r1 & Hstep & Hr1).
    assert (existsb (Z.eqb NULL) (page_addresses k)
      = (phys k =? NULL) || existsb (Z.eqb NULL) (page_addresses (k + 1))) as ->.
    { rewrite page_addresses_cons by lia. cbn [existsb]. by rewrite (Z.eqb_sym NULL). }
    destruct (phys k =? NULL) eqn:Hz; cbn [orb].
    { rewrite loop_S. by rewrite (bind_Panic _ _ _ Hstep). }
    rewrite (loop_continue _ _ _ _ _ _ Hstep), (merge_next p k) by lia.
    specialize (IH (k + 1) (next_pair p k) (if contiguous p (phys k) then c else c + 1) r1 g ltac:(lia) ltac:(lia)
      (next_pair_ok p k ltac:(lia) Hp)).
    destruct (contiguous p (phys k)); cbn [app]; [by apply IH; try lia|].
    specialize (IH ltac:(lia) ltac:(lia) ltac:(lia) Hr1). destruct (existsb _ _); [exact IH|].
    destruct IH as (r' & Hl & Hr'). exists r'. split; [|done]. rewrite Hl. cbn [length]. do 2 f_equal. lia.
Qed.

Lemma store_pair_run va bc bo np pre x rest p (r : MM) :
  store_pair (Z.of_nat (length pre)) p (mkMDL va bc bo np (pre ++ x :: rest)) r
  = Ret (mkMDL va bc bo np (pre ++ p :: rest), r).
Proof using.
  unfold store_pair. cbn [Translations mdl_StartVa ByteCount ByteOffset NumberOfTranslationPairs].
  rewrite (proj2 (Z.ltb_lt _ _)) by (rewrite length_app; cbn; lia). rewrite Nat2Z.id.
  rewrite <-(Nat.add_0_r (length pre)) at 1. by rewrite insert_app_r.
Qed.
Lemma store_step_run k p va bc bo np pre rest r :
  1 ≤ k < n → pair_ok p k → phys k ≠ NULL → same_but_flags r → Z.of_nat (length pre) < 2 ^ 32 - 1 →
  (contiguous p (phys k) = false → (0 < length rest)%nat) →
  ∃ r' pre' rest', store_step (4096 * k, p, mkMDL va bc bo np (pre ++ rest), Z.of_nat (length pre)) r
    = Ret (inl (4096 * (k + 1), next_pair p k, mkMDL va bc bo np (pre' ++ rest'), Z.of_nat (length pre')), r')
  ∧ same_but_flags r' ∧ pre' = pre ++ (if contiguous p (phys k) then [] else [p])
  ∧ (length pre' + length rest' = length pre + length rest)%nat.
Proof using Hget Hn.
  intros Hk [Hp1 Hp2] Hz Hr Hlen Hrest. destruct (Hget k r Hk Hr) as (r' & Hrun & Hr').
  unfold Mdl.store_step. rewrite (proj2 (Z.ltb_lt (4096 * k) (4096 * n))) by lia. cbn [negb].
  rewrite (bind_Ret _ _ _ _ _ Hrun). cbn beta iota. rewrite (proj2 (Z.eqb_neq NULL (phys k))) by done.
  unfold next_pair, PAGE_SIZE, PtrOffset. unfold contiguous in *. rewrite (u64_id (Address p + NumberOfBytes p)) by lia.
  destruct (Address p + NumberOfBytes p =? phys k).
  - exists r', pre, rest. split_and!; [|done|by rewrite app_nil_r|done].
    massert ltac:(done). rewrite !u32_id by lia. by replace (4096 * k + 4096) with (4096 * (k + 1)) by lia.
  - destruct rest as [|x rest]; [specialize (Hrest eq_refl); cbn in Hrest; lia|].
    exists r', (pre ++ [p]), rest. split_and!; [|done|done|rewrite length_app; cbn; lia].
    massert ltac:(done). erewrite bind_Ret by apply store_pair_run. cbn beta iota. rewrite !u32_id by lia.
    rewrite <-app_assoc, length_app. cbn [length app]. replace (4096 * k + 4096) with (4096 * (k + 1)) by lia.
    by replace (Z.of_nat (length pre + 1)) with (Z.of_nat (length pre) + 1) by lia.
Qed.
(** The second pass stores them, all but the last one. *)
Lemma store_run m : ∀ k p va bc bo np pre rest r g,
  Z.of_nat m = n - k → 1 ≤ k → pair_ok p k → existsb (Z.eqb NULL) (page_addresses k) = false →
  (length (merge p (page_addresses k)) ≤ length rest)%nat → Z.of_nat (length pre + m) < 2 ^ 32 →
  (m < g)%nat → same_but_flags r →
  ∃ q pre' rest' r', loop g store_step (4096 * k, p, mkMDL va bc bo np (pre ++ rest), Z.of_nat (length pre)) r
    = Ret ((q, mkMDL va bc bo np (pre' ++ rest'), Z.of_nat (length pre')), r')
  ∧ pre' ++ [q] = pre ++ merge p (page_addresses k) ∧ (length pre' + length rest' = length pre + length rest)%nat
  ∧ same_but_flags r'.
Proof using Hget Hphys Hn.
  induction m as [|m IH]; intros k p va bc bo np pre rest r [|g] Hm Hk Hp Hnz Hrest Htop Hg Hr; try lia.
  - exists p, pre, rest, r. rewrite page_addresses_nil by lia. split_and!; [|done|done|done].
    apply loop_break. unfold Mdl.store_step. by rewrite (proj2 (Z.ltb_ge (4096 * k) (4096 * n))) by lia.
  - rewrite page_addresses_cons in Hnz by lia. cbn [existsb] in Hnz. apply orb_false_iff in Hnz as [Hz Hnz].
    rewrite merge_next in * by lia. pose proof (merge_length (next_pair p k) (page_addresses (k + 1))) as Hml.
    rewrite length_app in Hrest.
    destruct (store_step_run k p va bc bo np pre rest r) as (r1 & pre1 & rest1 & Hstep & Hr1 & Hpre & Hlen);
      [lia|done|by apply Z.eqb_neq; rewrite Z.eqb_sym|done|lia| |].
    { intros Hc. rewrite Hc in Hrest. cbn in Hrest. lia. }
    rewrite (loop_continue _ _ _ _ _ _ Hstep).
    destruct (IH (k + 1) (next_pair p k) va bc bo np pre1 rest1 r1 g) as (q & pre2 & rest2 & r2 & Hl & Heq & Hlen2 & Hr2);
      [lia|lia|by apply next_pair_ok; [lia|]|done| | |lia|done|].
    + rewrite Hpre, length_app in Hlen. lia.
    + rewrite Hpre, length_app. destruct (contiguous p (phys k)); cbn [length]; lia.
    + exists q, pre2, rest2, r2. split_and!; [exact Hl| |lia|done]. by rewrite Heq, Hpre, <-app_assoc.
Qed.
End Passes.
