(* ===== verification/MdlProps.v ===== *)
(** The theorem about memory descriptor lists, with buffers to which it applies. *)
From S2P Require Import Prelude Memory Bitmap Cpu Spinlock RwSpinlock Pmm Heap VmReservation VmReservationSpec BitField.
From S2P Require Import PageTables PageTablesSpec PageTablesProps Mmu MmuSpec MmuExample Vmm VmmSpec VmmProps Mdl MdlSpec.

#[local] Ltac Zify.zify_post_hook ::= Z.to_euclidean_division_equations.

(** The MDL [m] describes the whole pages of the buffer from [va] on: the bytes that its pairs
    stand for are those at [phys], in order, and no pair could be joined to the one before it. *)
Record describes (phys : Z → option Z) (va len : Z) (m : MDL) : Prop := {
  ds_header : mdl_StartVa m = va - va mod 4096 ∧ ByteCount m = len ∧ ByteOffset m = va mod 4096;
  ds_count : NumberOfTranslationPairs m = Z.of_nat (length (Translations m));
  ds_bytes : Some <$> mjoin (pair_bytes <$> Translations m)
    = (λ i, phys (va + i)) <$> seqZ 0 (4096 * page_count va len - va mod 4096);
  ds_separated : separated (Translations m);
  ds_sizes : Forall (λ p, 0 < NumberOfBytes p) (Translations m)
}.
(** The address of page [j] of the buffer. *)
Definition page_phys (phys : Z → Z) (va j : Z) : Z := phys (va + (4096 * j - va mod 4096)).

Lemma pages_bytes off w cr3 va m : ∀ k,
  mjoin ((λ pa, seqZ pa 4096) <$> (page_phys (physical_address off w cr3) va <$> seqZ k (Z.of_nat m)))
  = (λ i, physical_address off w cr3 (va + i)) <$> seqZ (4096 * k - va mod 4096) (4096 * Z.of_nat m).
Proof.
  induction m as [|m IH]; intros k; [done|].
  rewrite seqZ_cons by lia. replace (Z.pred (Z.of_nat (S m))) with (Z.of_nat m) by lia.
  cbn [fmap list_fmap mjoin list_join]. change (list_fmap Z Z ?f ?l) with (f <$> l). unfold page_phys at 1.
  rewrite page_bytes by lia. change (list_fmap Z (list Z) ?f ?l) with (f <$> l).
  change (list_join ?l) with (mjoin l). rewrite <-Z.add_1_r, IH, <-fmap_app. f_equal.
  replace (4096 * Z.of_nat (S m)) with (4096 + 4096 * Z.of_nat m) by lia.
  rewrite seqZ_app by lia. do 2 f_equal. lia.
Qed.

Lemma aligned_size_u32 va len :
  0 ≤ va → 0 < len → va mod 4096 + len + 4095 < 2 ^ 32 →
  u32 (AlignAddressUpper (u32 (len + va mod 4096)) PAGE_SIZE) = 4096 * page_count va len.
Proof.
  intros Hva Hlen Htop. rewrite (u32_id (len + _)), AlignAddressUpper_4096 by lia.
  unfold page_count. rewrite u32_id by lia. do 2 f_equal. lia.
Qed.
Lemma offset_u32 va : 0 ≤ va < 2 ^ 64 → u32 (AddressOffset va PAGE_SIZE) = va mod 4096.
Proof.
  intros H. unfold AddressOffset. change (PAGE_SIZE - 1) with (Z.ones 12). rewrite Z.land_ones by lia.
  change (2 ^ 12) with 4096. rewrite u32_id; lia.
Qed.
(** [None] stands for a byte that is not mapped. *)
Definition no_address (o : option Z) : bool := match o with Some p => p =? NULL | None => true end.
Lemma describes_ext phys phys' va len m :
  (∀ i, 0 ≤ i < 4096 * page_count va len - va mod 4096 → phys (va + i) = phys' (va + i)) →
  describes phys va len m → describes phys' va len m.
Proof.
  intros He [D1 D2 D3 D4 D5]. split; [done|done| |done|done]. rewrite D3.
  apply list_fmap_ext. intros k i [-> Hi]%lookup_seqZ. apply He. lia.
Qed.

Lemma describes_byte phys va len m k x :
  describes phys va len m → Z.of_nat k < 4096 * page_count va len - va mod 4096 →
  phys (va + Z.of_nat k) = Some x → mjoin (pair_bytes <$> Translations m) !! k = Some x.
Proof.
  intros [_ _ Hb _ _] Hk Hx. apply (f_equal (lookup k)) in Hb. rewrite !list_lookup_fmap in Hb.
  rewrite (proj2 (lookup_seqZ _ _ _ (Z.of_nat k))) in Hb by (split; [lia|done]).
  cbn [fmap option_fmap option_map] in Hb. rewrite Hx in Hb. destruct (mjoin _ !! k); cbn in Hb; congruence.
Qed.

(** What the code answers, and the walk of the processor. *)
Section Reached.
Variable off : Z.
Variables (w : gmap Z Z) (cr3 va len : Z).
Abbreviation phys := (reached off w cr3).
Lemma physical_address_reached a : physical_address off w cr3 a = default (a mod 4096) (phys a).
Proof.
  unfold physical_address, reached. destruct (hw_walk off w cr3 a) as [[[l x] e]|]; [|done]. cbn.
  unfold PtrOffset. pose proof (page_address_range l (a - a mod 4096) e). rewrite u64_id; lia.
Qed.
Lemma reached_page a b : page a = page b → is_Some (phys a) → is_Some (phys b).
Proof. unfold reached. intros Hp. rewrite (hw_walk_page off w cr3 a b Hp). by destruct (hw_walk off w cr3 b) as [[[]]|]. Qed.
Definition missing (j : Z) : bool := no_address (phys (va + (4096 * j - va mod 4096))).
Lemma missing_page j : (NULL =? page_phys (physical_address off w cr3) va j) = missing j.
Proof.
  unfold page_phys, missing. rewrite physical_address_reached.
  destruct (phys _) as [p|]; cbn; [apply Z.eqb_sym|].
  apply Z.eqb_eq. unfold NULL. replace (va + (4096 * j - va mod 4096)) with (va - va mod 4096 + j * 4096) by lia. lia.
Qed.
Lemma missing_pages js :
  existsb (Z.eqb NULL) (page_phys (physical_address off w cr3) va <$> js) = existsb missing js.
Proof. induction js as [|j js IH]; [done|]. cbn. by rewrite missing_page, <-IH. Qed.
(** The page of byte [i] is mapped, unless it is the first one. *)
Lemma byte_reached i :
  existsb missing (seqZ 1 (page_count va len - 1)) = false → 0 ≤ i < 4096 * page_count va len - va mod 4096 →
  page (va + i) = page va ∨ is_Some (phys (va + i)).
Proof.
  intros Hm Hi. set (j := (va mod 4096 + i) / 4096). destruct (decide (j = 0)) as [Hj|Hj].
  - left. unfold page. assert (va mod 4096 + i < 4096) by (unfold j in Hj; lia). f_equal. lia.
  - right. apply (reached_page (va + (4096 * j - va mod 4096))).
    + unfold page. f_equal. unfold j. lia.
    + assert (Hin : j ∈ seqZ 1 (page_count va len - 1)) by (apply elem_of_seqZ; unfold j in *; lia).
      apply list_elem_of_In in Hin. destruct (missing j) eqn:E.
      * rewrite (proj2 (existsb_exists _ _)) in Hm; [done|by exists j].
      * unfold missing, no_address in E. by destruct (phys _); [eexists|].
Qed.
End Reached.

Section Probe.
Variables (off : Z) (fuel : nat) (L : LOCK_FUNCS PMM_STATE) (ret : Z).
Variable IoReadFile : Z → Z → Z → Z → M MM (Z * Z).

(** Pages that are mapped are read without a fault. *)
Lemma read_access_run s va x :
  (0 < fuel)%nat → hw_walk off (pg_words (mm_paging s)) (mm_cr3 s) va = Some x →
  read_access off fuel L ret IoReadFile va s = Ret (tt, s).
Proof.
  intros Hf Hw. destruct fuel as [|f]; [lia|]. apply loop_break. unfold mbind, M_bind, get. by rewrite Hw.
Qed.
Lemma MmuProbeMemory_run s va len (n := page_count va len) :
  0 < va < 2 ^ 64 → 0 < len → va mod 4096 + len + 4095 < 2 ^ 32 → va - va mod 4096 + 4096 * n ≤ 2 ^ 64 →
  (Z.to_nat n < fuel)%nat →
  (∀ j, 0 ≤ j < n → is_Some (hw_walk off (pg_words (mm_paging s)) (mm_cr3 s) (va - va mod 4096 + 4096 * j))) →
  MmuProbeMemory off fuel L ret IoReadFile va len s = Ret (tt, s).
Proof.
  intros Hva Hlen Htop Hend Hf Hw. unfold MmuProbeMemory.
  massert ltac:(apply negb_true_iff, Z.eqb_neq; unfold NULL; lia). massert ltac:(apply negb_true_iff, Z.eqb_neq; lia).
  rewrite AlignAddressLower_4096, offset_u32, aligned_size_u32 by lia. fold n.
  assert (Hn : 4096 * n < 2 ^ 32) by (unfold n, page_count; lia). clearbody n.
  assert (Hgen : ∀ m k g, Z.of_nat m = n - k → 0 ≤ k → (m < g)%nat → loop g (λ offset,
    if negb (offset <? 4096 * n) then mret (inr tt) else
    read_access off fuel L ret IoReadFile (PtrOffset (va - va mod 4096) offset);;
    mret (inl (u32 (offset + PAGE_SIZE)))) (4096 * k) s = Ret (tt, s)).
  { induction m as [|m IH]; intros k [|g] Hm Hk Hg; try lia.
    - apply loop_break. by rewrite (proj2 (Z.ltb_ge (4096 * k) (4096 * n))) by lia.
    - destruct (Hw k ltac:(lia)) as (x & Hx). erewrite loop_continue.
      2: { rewrite (proj2 (Z.ltb_lt (4096 * k) (4096 * n))) by lia. cbn [negb].
           unfold PtrOffset. rewrite u64_id by lia. erewrite bind_Ret by (eapply read_access_run; [lia|exact Hx]).
           cbn beta iota. unfold PAGE_SIZE. rewrite u32_id by lia.
           replace (4096 * k + 4096) with (4096 * (k + 1)) by lia. reflexivity. }
      apply IH; lia. }
  destruct (decide (0 ≤ n)).
  - apply (Hgen (Z.to_nat n) 0 fuel); lia.
  - destruct fuel as [|f]; [lia|]. apply loop_break. by rewrite (proj2 (Z.ltb_ge 0 (4096 * n))) by lia.
Qed.
End Probe.

Section Allocate.
Variables (off : Z) (fuel : nat) (L : LOCK_FUNCS PMM_STATE) (ret max : Z).
Variable IoReadFile : Z → Z → Z → Z → M MM (Z * Z).
Variable ExAllocatePoolWithTag : Z → Z → Z → Z → M MM Z.
(** The address that the allocator returns for a size, NULL when it has no room. *)
Variable pool : Z → Z.
Hypothesis Hpool : ∀ size s, ExAllocatePoolWithTag PoolAllocateZeroMemory size HEAP_MDL_TAG 0 s = Ret (pool size, s).

Definition kernel_memory (PagingData : option PPAGING_DATA) (s : MM) : bool :=
  match PagingData with None => true | Some pd => KernelSpace (paging_data pd (mm_paging s)) end.
(** The buffer is within the address space, its tables can be walked, and a buffer of the kernel,
    which is probed first, is mapped in the tables that the processor uses. *)
Record buffer_ok (s : MM) (va len Cr3 : Z) (PagingData : option PPAGING_DATA) : Prop := {
  bo_va : 4096 ≤ va < 2 ^ 64;
  bo_len : 0 < len;
  bo_size : va mod 4096 + len + 4095 < 2 ^ 32;
  bo_end : va - va mod 4096 + 4096 * page_count va len ≤ 2 ^ 64;
  bo_asked : asked_one max PagingData Cr3 s;
  bo_walk j : 0 ≤ j < page_count va len →
    walk_ok off (pg_words (mm_paging s)) (tables_asked PagingData Cr3 s) (va - va mod 4096 + 4096 * j) = true;
  bo_probed j : kernel_memory PagingData s = true → 0 ≤ j < page_count va len →
    is_Some (hw_walk off (pg_words (mm_paging s)) (mm_cr3 s) (va - va mod 4096 + 4096 * j))
}.
(** The outcome, by what MmuGetPhysicalAddressEx answers: for an address 0 of the first page there
    is no MDL, for an address 0 of another one the system stops. *)
Definition run_outcome (s : MM) (va len Cr3 : Z) (PagingData : option PPAGING_DATA)
    (r : outcome (option MDL * MM)) : Prop :=
  let phys := physical_address off (pg_words (mm_paging s)) (tables_asked PagingData Cr3 s) in
  if phys va =? NULL then
    if kernel_memory PagingData s then r = Panic
    else ∃ s', r = Ret (None, s') ∧ same_but_flags s s'
  else if existsb (Z.eqb NULL) (page_phys phys va <$> seqZ 1 (page_count va len - 1)) then r = Panic
  else ∃ m s', describes (λ a, Some (phys a)) va len m ∧ same_but_flags s s'
    ∧ r = Ret (if NULL =? pool (24 + 16 * NumberOfTranslationPairs m) then None else Some m, s').

(** The outcome, by the walk of the processor. *)
(** The first page counts as if it were at the physical address 0. *)
Definition first_page_at_0 (phys : Z → option Z) (va a : Z) : option Z :=
  if decide (page a = page va) then Some (a mod 4096) else phys a.
Definition mdl_outcome (s : MM) (va len Cr3 : Z) (PagingData : option PPAGING_DATA)
    (r : outcome (option MDL * MM)) : Prop :=
  let phys := reached off (pg_words (mm_paging s)) (tables_asked PagingData Cr3 s) in
  let listed phys := ∃ m s', describes phys va len m ∧ same_but_flags s s'
    ∧ r = Ret (if NULL =? pool (24 + 16 * NumberOfTranslationPairs m) then None else Some m, s') in
  let refused := if kernel_memory PagingData s then r = Panic else ∃ s', r = Ret (None, s') ∧ same_but_flags s s' in
  let later := existsb (λ j, no_address (phys (va + (4096 * j - va mod 4096)))) (seqZ 1 (page_count va len - 1)) in
  match phys va with
  | Some p => if p =? NULL then refused else if later then r = Panic else listed phys
  | None =>
      if va mod 4096 =? 0 then refused else if later then r = Panic else listed (first_page_at_0 phys va)
  end.

Lemma same_flags_refl s : same_but_flags s s.
Proof. exists (mm_rflags s). split; [by destruct s|done]. Qed.
Lemma asked_one_flags s PagingData Cr3 f : asked_one max PagingData Cr3 s → asked_one max PagingData Cr3 (set_rflags f s).
Proof. destruct PagingData as [pd|]; [|done]. intros [H [L1 L2 L3]]. split; [done|]. by split. Qed.
(** The address of any byte of the buffer. *)
Lemma get_run s va len Cr3 PagingData va' r :
  buffer_ok s va len Cr3 PagingData → (1 < fuel)%nat → same_but_flags s r → 4096 ≤ va' < 2 ^ 64 →
  walk_ok off (pg_words (mm_paging s)) (tables_asked PagingData Cr3 s) va' = true →
  ∃ r', MmuGetPhysicalAddressEx off fuel va' PagingData Cr3 r
    = Ret (physical_address off (pg_words (mm_paging s)) (tables_asked PagingData Cr3 s) va', r') ∧ same_but_flags s r'.
Proof.
  intros Hb Hf (f & -> & Hfl) Hva Hw.
  destruct (MmuGetPhysicalAddressEx_run off fuel (set_rflags f s) max va' PagingData Cr3) as (f' & Hrun & Hi);
    [apply asked_one_flags, Hb|done| |done|].
  { by destruct PagingData. }
  exists (set_rflags f' s). split; [|exists f'; split; [done|]].
  - etransitivity; [exact Hrun|]. by destruct PagingData.
  - rewrite Hi. exact Hfl.
Qed.
Lemma get_page_run s va len Cr3 PagingData :
  buffer_ok s va len Cr3 PagingData → (1 < fuel)%nat →
  ∀ j r, 1 ≤ j < page_count va len → same_but_flags s r → ∃ r',
    MmuGetPhysicalAddressEx off fuel (PtrOffset (va - va mod 4096) (4096 * j)) PagingData Cr3 r
    = Ret (page_phys (physical_address off (pg_words (mm_paging s)) (tables_asked PagingData Cr3 s)) va j, r')
    ∧ same_but_flags s r'.
Proof.
  intros Hb Hf1 j x Hj Hx. pose proof Hb as [Hva Hlen Hsize Hend Hask Hwalk _].
  assert (Hn : 4096 * page_count va len < 2 ^ 32) by (unfold page_count; lia).
  assert (E : va + (4096 * j - va mod 4096) = va - va mod 4096 + 4096 * j) by lia.
  unfold page_phys. rewrite E. unfold PtrOffset. rewrite u64_id by lia.
  apply (get_run s va len Cr3 PagingData); [done|done|done|lia|]. apply Hwalk. lia.
Qed.
Lemma walk_ok_page w cr3 va va' : page va = page va' → walk_ok off w cr3 va = walk_ok off w cr3 va'.
Proof. unfold walk_ok. by intros ->. Qed.

(** What remains after the first pass: allocating the list and filling it. *)
Lemma fill_run s va len Cr3 PagingData l r (n := page_count va len)
    (phys := physical_address off (pg_words (mm_paging s)) (tables_asked PagingData Cr3 s)) :
  buffer_ok s va len Cr3 PagingData → (1 < fuel)%nat → (Z.to_nat n < fuel)%nat → same_but_flags s r →
  phys va ≠ NULL → existsb (Z.eqb NULL) (page_phys phys va <$> seqZ 1 (n - 1)) = false →
  l = merge (mkPair (phys va) (4096 - va mod 4096)) (page_phys phys va <$> seqZ 1 (n - 1)) →
  ∃ r', (
    let mdlSize := u32 (sizeof_MDL + sizeof_MDL_TRANSLATION_PAIR * Z.of_nat (length l)) in
    let pMdl := with_header (va - va mod 4096) len (va mod 4096) (mkMDL NULL 0 0 0
      (replicate (Z.to_nat ((mdlSize - sizeof_MDL) / sizeof_MDL_TRANSLATION_PAIR)) (mkPair NULL 0))) in
    pa ← MmuGetPhysicalAddressEx off fuel va PagingData Cr3;
    ASSERT (negb (pa =? NULL));;
    '(mdlCurPair, pMdl, indexInMdlArray) ← loop fuel
      (store_step off fuel (va - va mod 4096) (4096 * n) Cr3 PagingData)
      (PAGE_SIZE, mkPair pa (PAGE_SIZE - ByteOffset pMdl), pMdl, 0);
    pMdl ← store_pair indexInMdlArray mdlCurPair pMdl;
    let indexInMdlArray := u32 (indexInMdlArray + 1) in
    let pMdl := with_NumberOfTranslationPairs indexInMdlArray pMdl in
    ASSERT (indexInMdlArray =? Z.of_nat (length l));;
    mret (Some pMdl)) r
  = Ret (Some (mkMDL (va - va mod 4096) len (va mod 4096) (Z.of_nat (length l)) l), r') ∧ same_but_flags s r'.
Proof.
  intros Hb Hf1 Hf Hr Hnz Hnone Hl. pose proof Hb as [Hva Hlen Hsize Hend Hask Hwalk _].
  assert (Hn : 1 ≤ n ∧ 4096 * n < 2 ^ 32) by (unfold n, page_count; lia).
  pose proof (merge_length (mkPair (phys va) (4096 - va mod 4096)) (page_phys phys va <$> seqZ 1 (n - 1))) as Hml.
  rewrite <-Hl, length_fmap, length_seqZ in Hml.
  cbv zeta. unfold with_header, sizeof_MDL, sizeof_MDL_TRANSLATION_PAIR. rewrite u32_id by lia.
  replace (Z.to_nat _) with (length l) by lia.
  destruct (get_run s va len Cr3 PagingData va r Hb Hf1 Hr Hva) as (r1 & Hrun & Hr1).
  { rewrite (walk_ok_page _ _ _ (va - va mod 4096 + 4096 * 0)); [apply Hwalk; fold n; lia|].
    replace (va - va mod 4096 + 4096 * 0) with (va - va mod 4096) by lia. symmetry. apply page_lower. }
  mrun Hrun. fold phys. massert ltac:(by apply negb_true_iff, Z.eqb_neq).
  destruct (store_run off fuel s (va - va mod 4096) Cr3 PagingData n (page_phys phys va)) with
    (m := Z.to_nat (n - 1)) (k := 1) (p := mkPair (phys va) (4096 - va mod 4096)) (va := va - va mod 4096)
    (bc := len) (bo := va mod 4096) (np := 0) (pre := @nil MDL_TRANSLATION_PAIR)
    (rest := replicate (length l) (mkPair NULL 0)) (r := r1) (g := fuel)
    as (q & pre' & rest' & r2 & Hloop & Heq & Hlen' & Hr2); try done; try lia.
  { by apply get_page_run. }
  { intros j. apply physical_address_range. }
  { split; cbn [Address NumberOfBytes]; [apply physical_address_range|lia]. }
  { unfold page_addresses. rewrite <-Hl, length_replicate. done. }
  { cbn [length]. lia. }
  cbn [app length ByteOffset NumberOfTranslationPairs Translations mdl_StartVa ByteCount] in *.
  change (PAGE_SIZE - va mod 4096) with (4096 - va mod 4096). change (4096 * 1) with PAGE_SIZE in Hloop.
  mrun Hloop. unfold page_addresses in Heq. rewrite <-Hl in Heq. rewrite length_replicate in Hlen'.
  assert (Hll : length l = S (length pre')) by (rewrite <-Heq, length_app; cbn; lia).
  destruct rest' as [|x rest']; [cbn in Hlen'; lia|]. destruct rest'; [|cbn in Hlen'; lia].
  erewrite bind_Ret by apply store_pair_run. cbn beta iota. rewrite u32_id by lia.
  massert ltac:(apply Z.eqb_eq; lia). exists r2. split; [|done].
  unfold with_NumberOfTranslationPairs, mret, M_ret. cbn [mdl_StartVa ByteCount ByteOffset Translations].
  rewrite Heq, Hll. replace (Z.of_nat (S (length pre'))) with (Z.of_nat (length pre') + 1) by lia. reflexivity.
Qed.

Lemma merge_describes w cr3 va len (n := page_count va len) (phys := physical_address off w cr3)
    (l := merge (mkPair (phys va) (4096 - va mod 4096)) (page_phys phys va <$> seqZ 1 (n - 1))) :
  0 ≤ va → 0 < len →
  describes (λ a, Some (phys a)) va len (mkMDL (va - va mod 4096) len (va mod 4096) (Z.of_nat (length l)) l).
Proof.
  intros Hva Hlen. assert (Hn : 1 ≤ n) by (unfold n, page_count; lia).
  split; cbn [mdl_StartVa ByteCount ByteOffset NumberOfTranslationPairs Translations]; [done|done| | |].
  - rewrite (list_fmap_compose (λ i, phys (va + i)) Some (seqZ _ _) : (λ i, Some (phys (va + i))) <$> _ = _). f_equal.
    unfold l. rewrite merge_bytes by (cbn; lia). unfold pair_bytes. cbn [Address NumberOfBytes].
    replace (n - 1) with (Z.of_nat (Z.to_nat (n - 1))) by lia. unfold phys. rewrite pages_bytes.
    pose proof (page_bytes off w cr3 va 0 (4096 - va mod 4096)) as Hfirst. rewrite Z.add_0_r in Hfirst.
    rewrite Hfirst by lia. rewrite <-fmap_app. f_equal. fold n.
    replace (4096 * n - va mod 4096) with (4096 - va mod 4096 + 4096 * Z.of_nat (Z.to_nat (n - 1))) by lia.
    rewrite seqZ_app by lia. f_equal; f_equal; lia.
  - apply merge_separated.
  - apply merge_sizes. cbn. lia.
Qed.

Lemma MdlAllocateEx_run s va len Cr3 PagingData :
  buffer_ok s va len Cr3 PagingData → (1 < fuel)%nat → (Z.to_nat (page_count va len) < fuel)%nat →
  run_outcome s va len Cr3 PagingData
    (MdlAllocateEx off fuel L ret IoReadFile ExAllocatePoolWithTag va len Cr3 PagingData s).
Proof using Hpool.
  intros Hb Hf1 Hf. pose proof Hb as [Hva Hlen Hsize Hend Hask Hwalk Hprobe].
  unfold run_outcome. set (phys := physical_address _ _ _). set (n := page_count va len) in *.
  assert (Hn : 1 ≤ n ∧ 4096 * n < 2 ^ 32) by (unfold n, page_count; lia).
  unfold MdlAllocateEx. rewrite (AlignAddressLower_4096 va), (offset_u32 va) by lia. rewrite (aligned_size_u32 va len) by lia. fold n.
  assert (Harg : ∀ {B} (k : unit → M MM B), (ASSERT (negb (NULL =? va));;
    ASSERT (negb (0 =? len));; ASSERT (xorb (negb (Cr3 =? NULL)) (bool_decide (is_Some PagingData)));; k tt) s = k tt s).
  { intros B k. massert ltac:(apply negb_true_iff, Z.eqb_neq; unfold NULL; lia).
    massert ltac:(apply negb_true_iff, Z.eqb_neq; lia). massert idtac; [reflexivity|].
    destruct PagingData as [pd|]; cbn in Hask |- *; [by destruct Hask as [-> _]|]. by rewrite (proj2 (Z.eqb_neq _ _)). }
  match goal with |- context [(ASSERT _;; ASSERT _;; ASSERT _;; ?k) s] => rewrite (Harg _ (λ _, k)) end.
  clear Harg. erewrite bind_Ret by apply gets_run. cbn beta iota. fold (kernel_memory PagingData s).
  assert (Hpr : (if kernel_memory PagingData s then MmuProbeMemory off fuel L ret IoReadFile va len else mret tt) s
    = Ret (tt, s)).
  { destruct (kernel_memory PagingData s) eqn:Ek; [|done]. apply MmuProbeMemory_run; try done; [lia|].
    intros j Hj. by apply Hprobe. }
  mrun Hpr.
  destruct (get_run s va len Cr3 PagingData va s Hb Hf1 (same_flags_refl s) Hva) as (r1 & Hrun & Hr1).
  { rewrite (walk_ok_page _ _ _ (va - va mod 4096 + 4096 * 0)); [apply Hwalk; fold n; lia|].
    replace (va - va mod 4096 + 4096 * 0) with (va - va mod 4096) by lia. symmetry. apply page_lower. }
  mrun Hrun. fold phys. destruct (phys va =? NULL) eqn:Hz.
  { destruct (kernel_memory PagingData s); [reflexivity|]. by exists r1. }
  apply Z.eqb_neq in Hz.
  pose proof (count_run off fuel s (va - va mod 4096) Cr3 PagingData n (page_phys phys va)) as Hcount.
  specialize (Hcount (get_page_run s va len Cr3 PagingData Hb Hf1)
    (λ j, physical_address_range _ _ _ _) (proj2 Hn) (Z.to_nat (n - 1)) 1
    (mkPair (phys va) (PAGE_SIZE - va mod 4096)) 1 r1 fuel).
  change (4096 * 1) with PAGE_SIZE in Hcount. change (PAGE_SIZE - va mod 4096) with (4096 - va mod 4096) in *.
  unfold page_addresses in Hcount.
  assert (Hok : pair_ok (mkPair (phys va) (4096 - va mod 4096)) 1)
    by (split; cbn [Address NumberOfBytes]; [apply physical_address_range|lia]).
  specialize (Hcount ltac:(lia) ltac:(lia) Hok ltac:(lia) ltac:(lia) ltac:(lia) Hr1).
  destruct (existsb _ _) eqn:Hex.
  { by rewrite (bind_Panic _ _ _ Hcount). }
  destruct Hcount as (r2 & Hcount & Hr2). mrun Hcount. rewrite Z.sub_diag, Z.add_0_l.
  pose proof (merge_describes (pg_words (mm_paging s)) (tables_asked PagingData Cr3 s) va len ltac:(lia) Hlen) as Hd.
  fold phys in Hd. fold n in Hd.
  pose proof (merge_length (mkPair (phys va) (4096 - va mod 4096)) (page_phys phys va <$> seqZ 1 (n - 1))) as Hml.
  rewrite length_fmap, length_seqZ in Hml.
  set (l := merge _ _) in *. change sizeof_MDL with 24. change sizeof_MDL_TRANSLATION_PAIR with 16.
  mrun (Hpool (u32 (24 + 16 * Z.of_nat (length l))) r2).
  destruct (fill_run s va len Cr3 PagingData l r2 Hb Hf1 Hf Hr2 Hz Hex eq_refl) as (r3 & Hfill & Hr3).
  eexists _. destruct (NULL =? pool (u32 (24 + 16 * Z.of_nat (length l)))) eqn:Hp.
  - exists r2. split; [exact Hd|]. split; [exact Hr2|]. cbn [NumberOfTranslationPairs].
    rewrite u32_id in Hp by lia. by rewrite Hp.
  - exists r3. split; [exact Hd|]. split; [exact Hr3|]. cbn [NumberOfTranslationPairs].
    rewrite u32_id in Hp by lia. rewrite Hp. exact Hfill.
Qed.

(** C29: MdlAllocateEx describes the pages of a buffer exactly. When the processor finds every page
    of the buffer through the tables that are asked for, at physical addresses other than 0, the
    pairs of the list stand for the physical addresses of the bytes of the buffer to the end of
    its last page, in order, and no two neighbouring pairs could be one; the array that was
    allocated is filled and nothing is written behind it. When its first byte is found at the
    physical address 0, or its first page is not mapped and the buffer starts on a page boundary,
    there is no list (for a buffer of the kernel an assertion fails); when a later page is not mapped
    or at address 0, an assertion fails. A buffer that does not start on a page boundary and
    whose first page is not mapped gets a list all the same, in which that page stands for the
    physical page 0. The buffer is less than 4 GB, its tables can be read, and a buffer of the
    kernel is mapped in the tables of the processor when it is probed. *)
Theorem MdlAllocateEx_describes s va len Cr3 PagingData :
  buffer_ok s va len Cr3 PagingData → (1 < fuel)%nat → (Z.to_nat (page_count va len) < fuel)%nat →
  mdl_outcome s va len Cr3 PagingData
    (MdlAllocateEx off fuel L ret IoReadFile ExAllocatePoolWithTag va len Cr3 PagingData s).
Proof using Hpool.
  intros Hb Hf1 Hf. pose proof (MdlAllocateEx_run s va len Cr3 PagingData Hb Hf1 Hf) as Hrun.
  unfold run_outcome, mdl_outcome in *. set (w := pg_words _) in *. set (cr3 := tables_asked _ _ _) in *.
  rewrite missing_pages in Hrun. fold (missing off w cr3 va). rewrite physical_address_reached in Hrun.
  pose proof (byte_reached off w cr3 va len) as Hby.
  destruct (reached off w cr3 va) as [p|] eqn:Hva; cbn [default] in Hrun; destruct (_ =? _); try exact Hrun;
    (destruct (existsb _ _); [exact Hrun|]); destruct Hrun as (m & s' & Hd & Hrun); exists m, s'; (split; [|exact Hrun]);
    (eapply describes_ext; [|exact Hd]); intros i Hi; cbv beta; rewrite physical_address_reached.
  - assert (Hs : is_Some (reached off w cr3 (va + i))); [|by destruct (reached off w cr3 (va + i)); [|destruct Hs]].
    destruct (Hby i eq_refl Hi) as [Hp|]; [|done]. by apply (reached_page off w cr3 va); [|eexists].
  - unfold first_page_at_0. destruct (decide _) as [Hp|Hp].
    + destruct (reached off w cr3 (va + i)) eqn:E; [|done].
      destruct (reached_page off w cr3 _ _ Hp) as [? Hx]; [by eexists|]. congruence.
    + destruct (Hby i eq_refl Hi) as [|[p ->]]; done.
Qed.
End Allocate.

(** * Buffers of a process *)
Module MdlExample.
Import MmuExample.
Definition base : Z := PagingExample.base.
(** Three pages from 0x403000 on are mapped, to the frames 0x300, 0x301 and 0x500. *)
Definition words : gmap Z Z :=
  list_to_map [(off + base, base + 0x1000 + 3); (off + base + 0x1000, base + 0x2000 + 3);
               (off + base + 0x2000 + 16, base + 0x3000 + 3); (off + base + 0x3000 + 24, 0x300000 + 3);
               (off + base + 0x3000 + 32, 0x301000 + 3); (off + base + 0x3000 + 40, 0x500000 + 3);
               (off + base + 0x3000 + 48, 0); (off + base + 0x2000 + 32, 0)].
Definition mm1 : MM := set_paging (mkState words 0 3 PagingExample.lock process_lock [] []) mm0.
Definition alloc (flags size tag alignment : Z) : M MM Z := mret 0x10000.
Lemma alloc_ok size s : alloc PoolAllocateZeroMemory size HEAP_MDL_TAG 0 s = Ret ((λ _, 0x10000) size, s).
Proof. reflexivity. Qed.
Lemma mm1_buffer va len :
  4096 ≤ va < 2 ^ 32 → 0 < len → va mod 4096 + len + 4095 < 2 ^ 32 →
  forallb (λ j, walk_ok off words base (va - va mod 4096 + 4096 * j)) (seqZ 0 (page_count va len)) = true →
  buffer_ok off 3 mm1 va len NULL (Some process_paging).
Proof.
  intros Hva Hlen Hsz Hw. split; [lia|done|done|unfold page_count; lia| | |done].
  - split; [done|]. split; [done|lia|by split].
  - intros j Hj. rewrite forallb_forall in Hw. apply Hw. rewrite <-list_elem_of_In, elem_of_seqZ. lia.
Qed.
Definition describe (va len : Z) : outcome (option MDL * MM) :=
  MdlAllocateEx off 6 VmmExample.LP 0 VmmExample.IoReadFile0 alloc va len NULL (Some process_paging) mm1.
Definition result (r : outcome (option MDL * MM)) : option (option MDL) :=
  match r with Ret (m, _) => Some m | _ => None end.
(** The buffer of 0x2800 bytes at 0x403010: the bytes 0 and 0x1FF0 of its list. *)
Lemma MdlAllocateEx_describes_witness : ∃ m s',
  describe 0x403010 0x2800 = Ret (Some m, s')
  ∧ mjoin (pair_bytes <$> Translations m) !! 0%nat = Some 0x300010
  ∧ mjoin (pair_bytes <$> Translations m) !! 0x1FF0%nat = Some 0x500000.
Proof.
  pose proof (MdlAllocateEx_describes off 6 VmmExample.LP 0 3 VmmExample.IoReadFile0 alloc (λ _, 0x10000) alloc_ok
    mm1 0x403010 0x2800 NULL (Some process_paging)
    (mm1_buffer 0x403010 0x2800 ltac:(lia) ltac:(lia) ltac:(reflexivity) ltac:(vm_compute; reflexivity))
    ltac:(lia) ltac:(by apply Nat.ltb_lt)) as H.
  unfold mdl_outcome in H. set (phys := reached off (pg_words (mm_paging mm1)) (tables_asked _ _ _)) in H.
  assert (H0 : phys 0x403010 = Some 0x300010) by (vm_compute; reflexivity).
  assert (H2 : phys (0x403010 + 0x1FF0) = Some 0x500000) by (vm_compute; reflexivity).
  assert (Hn : existsb (λ j, no_address (phys (0x403010 + (4096 * j - 0x403010 mod 4096))))
    (seqZ 1 (page_count 0x403010 0x2800 - 1)) = false) by (vm_compute; reflexivity).
  clearbody phys. rewrite H0 in H. change (0x300010 =? NULL) with false in H. rewrite Hn in H.
  destruct H as (m & s' & Hd & _ & Hr). exists m, s'. split; [exact Hr|].
  assert (Hk : Z.of_nat 0x1FF0 = 0x1FF0) by (vm_compute; reflexivity).
  split; apply (describes_byte phys 0x403010 0x2800); [exact Hd|reflexivity|by rewrite Z.add_0_r|exact Hd|by rewrite Hk|by rewrite Hk].
Defined.
(** A user buffer whose last page has not been touched stops the system. *)
Example untouched_page_panics : describe 0x403010 0x3800 = Panic.
Proof. vm_compute. reflexivity. Qed.
(** One byte at an address that is not mapped: the list refers to the physical address 0x10. *)
Example unmapped_byte_described :
  result (describe 0x800010 1) = Some (Some (mkMDL 0x800000 1 0x10 1 [mkPair 0x10 0xFF0])).
Proof. vm_compute. reflexivity. Qed.
(** The size is rounded up in 32 bits: nearly 4 GB are described by one page. *)
Example huge_buffer_described :
  result (describe 0x403010 0xFFFFFFF0) = Some (Some (mkMDL 0x403000 0xFFFFFFF0 0x10 1 [mkPair 0x300010 0xFF0])).
Proof. vm_compute. reflexivity. Qed.
(** One page from 0x403010 on lies in two pages, which are both mapped; the region that is reserved
    for them is one page long, so the second one is mapped outside of it. *)
Definition mm2 : MM :=
  set_paging (mkState (foldr (λ i w, <[off + base + 0x4000 + 8 * i := 0]> w) (<[off + base + 8 * 256 := 0]> words) (seqZ 0 1536))
    0 3 (mkLockData (mkREC RW_zero 0 3 NULL) (mkPaging base 8 4 true)) process_lock [] []) mm0.
Definition close0 (f : Z) : M MM Z := mret STATUS_SUCCESS.
Definition free0 (m : MDL) (tag : Z) : M MM unit := mret tt.
Definition system_address : outcome ((Z * option Z) * MM) :=
  MmuGetSystemVirtualAddressForUserBuffer off 10 VmmExample.LP 0 PagingExample.release VmmExample.IoReadFile0
    close0 alloc free0 0x403010 0x1000 PAGE_RIGHTS_READWRITE (Some process_paging) true mm2.
Definition outside (s : MM) : Z * option Z :=
  (default 0 (Size <$> (va_entries (mm_kernel s) !! 0%nat)), 
   PageTablesSpec.translation off kernel_paging (mm_paging s) 0xFFFF800000106000).
Example mapped_outside_region :
  match system_address with
  | Ret (r, s) => r = (STATUS_SUCCESS, Some 0xFFFF800000105010) ∧ (outside s).1 = 0x1000 ∧ is_Some (outside s).2
  | _ => False
  end.
Proof. vm_compute. split; [reflexivity|]. split; [reflexivity|]. by eexists. Qed.
End MdlExample.
