(* ===== verification/SchedSpec.v ===== *)
(** An abstract scheduler: which thread runs on which CPU, which threads are ready,
    which wait at a queue, and who holds the locks. Sched.v models the code of thread.c,
    mutex.c and ex_event.c; its runs are runs of this machine. *)
From stdpp Require Import relations.
From S2P Require Import Prelude.

Inductive THREAD_STATE :=
  | ThreadStateRunning | ThreadStateReady | ThreadStateBlocked | ThreadStateDying.
#[export] Instance THREAD_STATE_eq_dec : EqDecision THREAD_STATE.
Proof. solve_decision. Defined.

(** What a thread is doing as far as scheduling is concerned; [q] is a queue of waiting
    threads (a mutex or an event), which has a lock. *)
Inductive phase :=
  | Normal
  | HoldQ (q : nat)              (* holds the lock of [q] *)
  | Queued (q : nat)             (* ... and has put itself into [q] *)
  | QueuedBlk (q : nat)          (* ... and has its own block lock *)
  | Blk                          (* has its own block lock *)
  | BlkSt                        (* ... and is marked as blocked *)
  | Switch                       (* switched out; on a CPU: holds the ready lock *)
  | Clean (p : nat)              (* switched in, behind the thread [p] *)
  | Unb1 (q t : nat)             (* holds [q], has taken [t] from it *)
  | Unb2 (q t : nat)             (* ... and has the block lock of [t] *)
  | Unb3 (q t : nat).            (* ... and has made [t] ready *)

Record astate := mkA {
  a_cur : gmap nat nat;
  a_prev : gmap nat nat;
  a_phase : gmap nat phase;
  a_st : gmap nat THREAD_STATE;
  a_blk : gmap nat nat;
  a_q : gmap nat (list nat);
  a_qlk : gmap nat nat;
  a_rl : option nat;
  a_ready : list nat
}.

Section Machine.
(** The idle thread of each CPU. *)
Variable idle : gmap nat nat.
Implicit Types (a : astate) (c t q : nat).

Definition is_idle (t : nat) : Prop := ∃ c, idle !! c = Some t.
Definition running a t : Prop := ∃ c, a_cur a !! c = Some t.
(** The thread on a CPU and its phase. *)
Definition on a c : option (nat * phase) :=
  t ← a_cur a !! c; p ← a_phase a !! t; Some (t, p).
Definition at_phase a c t p : Prop := on a c = Some (t, p).

(** The queue whose lock is held; whether the thread has its own block lock; the thread
    whose block lock it holds; the thread it is about to make ready; the queue it is in. *)
Definition held_q (p : phase) : option nat :=
  match p with
  | HoldQ q | Queued q | QueuedBlk q | Unb1 q _ | Unb2 q _ | Unb3 q _ => Some q
  | _ => None
  end.
Definition own_blk (p : phase) : bool := match p with QueuedBlk _ | Blk | BlkSt => true | _ => false end.
Definition their_blk (p : phase) : option nat := match p with Unb2 _ t | Unb3 _ t => Some t | _ => None end.
Definition target (p : phase) : option nat := match p with Unb1 _ t | Unb2 _ t => Some t | _ => None end.
Definition own_q (p : phase) : option nat := match p with Queued q | QueuedBlk q => Some q | _ => None end.
Definition blocking (p : phase) : bool := match p with Blk | BlkSt => true | _ => false end.

Definition in_queue a t q : Prop := ∃ l, a_q a !! q = Some l ∧ t ∈ l.
Definition pending a c t : Prop := ∃ u p, on a c = Some (u, p) ∧ target p = Some t.
Definition waiting a t : Prop := (∃ q, in_queue a t q) ∨ (∃ c, pending a c t).

Definition set_phase t p a : astate :=
  mkA (a_cur a) (a_prev a) (<[t := p]> (a_phase a)) (a_st a) (a_blk a) (a_q a) (a_qlk a) (a_rl a) (a_ready a).
Definition set_st t v a : astate :=
  mkA (a_cur a) (a_prev a) (a_phase a) (<[t := v]> (a_st a)) (a_blk a) (a_q a) (a_qlk a) (a_rl a) (a_ready a).
Definition set_blk (b : gmap nat nat) a : astate :=
  mkA (a_cur a) (a_prev a) (a_phase a) (a_st a) b (a_q a) (a_qlk a) (a_rl a) (a_ready a).
Definition set_qlk (b : gmap nat nat) a : astate :=
  mkA (a_cur a) (a_prev a) (a_phase a) (a_st a) (a_blk a) (a_q a) b (a_rl a) (a_ready a).
Definition set_q q l a : astate :=
  mkA (a_cur a) (a_prev a) (a_phase a) (a_st a) (a_blk a) (<[q := l]> (a_q a)) (a_qlk a) (a_rl a) (a_ready a).
Definition set_prev (p : gmap nat nat) a : astate :=
  mkA (a_cur a) p (a_phase a) (a_st a) (a_blk a) (a_q a) (a_qlk a) (a_rl a) (a_ready a).
Definition set_ready l a : astate :=
  mkA (a_cur a) (a_prev a) (a_phase a) (a_st a) (a_blk a) (a_q a) (a_qlk a) (a_rl a) l.
Definition set_rl o a : astate :=
  mkA (a_cur a) (a_prev a) (a_phase a) (a_st a) (a_blk a) (a_q a) (a_qlk a) o (a_ready a).

(** The next thread on [c], and what is left of the ready list. *)
Definition next_thread (c : nat) (ready : list nat) : option (nat * list nat) :=
  match ready with
  | t :: l => Some (t, l)
  | [] => t ← idle !! c; Some (t, [])
  end.
(** [t] leaves the CPU [c], which goes on with [n]. *)
Definition switch c t n l a : astate :=
  mkA (<[c := n]> (a_cur a)) (<[c := t]> (a_prev a)) (<[t := Switch]> (a_phase a)) (a_st a) (a_blk a)
    (a_q a) (a_qlk a) (Some c) l.

Inductive astep : astate → astate → Prop :=
  | a_lock_queue a c t q :
      at_phase a c t Normal → a_qlk a !! q = None → is_Some (a_q a !! q) →
      astep a (set_phase t (HoldQ q) (set_qlk (<[q := c]> (a_qlk a)) a))
  | a_unlock_queue a c t q :
      at_phase a c t (HoldQ q) →
      astep a (set_phase t Normal (set_qlk (delete q (a_qlk a)) a))
  | a_enqueue a c t q l :
      at_phase a c t (HoldQ q) → ¬ is_idle t → a_q a !! q = Some l →
      astep a (set_phase t (Queued q) (set_q q (l ++ [t]) a))
  | a_take_own a c t q :
      at_phase a c t (Queued q) → a_blk a !! t = None →
      astep a (set_phase t (QueuedBlk q) (set_blk (<[t := c]> (a_blk a)) a))
  | a_leave_queue a c t q :
      at_phase a c t (QueuedBlk q) →
      astep a (set_phase t Blk (set_qlk (delete q (a_qlk a)) a))
  | a_idle_take a c t :
      at_phase a c t Normal → idle !! c = Some t → a_blk a !! t = None →
      astep a (set_phase t Blk (set_blk (<[t := c]> (a_blk a)) a))
  | a_mark_blocked a c t :
      at_phase a c t Blk →
      astep a (set_phase t BlkSt (set_st t ThreadStateBlocked a))
  | a_dequeue a c t q u l :
      at_phase a c t (HoldQ q) → a_q a !! q = Some (u :: l) →
      astep a (set_phase t (Unb1 q u) (set_q q l a))
  | a_take_their a c t q u :
      at_phase a c t (Unb1 q u) → a_blk a !! u = None →
      astep a (set_phase t (Unb2 q u) (set_blk (<[u := c]> (a_blk a)) a))
  | a_make_ready a c t q u :
      at_phase a c t (Unb2 q u) → a_rl a = None →
      astep a (set_phase t (Unb3 q u) (set_st u ThreadStateReady (set_ready (a_ready a ++ [u]) a)))
  | a_drop_their a c t q u :
      at_phase a c t (Unb3 q u) →
      astep a (set_phase t (HoldQ q) (set_blk (delete u (a_blk a)) a))
  | a_yield a c t n l :
      at_phase a c t Normal → a_rl a = None → a_st a !! t ≠ Some ThreadStateDying →
      next_thread c (if decide (idle !! c = Some t) then a_ready a else a_ready a ++ [t]) = Some (n, l) →
      astep a (switch c t n l (set_st t ThreadStateReady a))
  | a_block a c t n l :
      at_phase a c t BlkSt → a_rl a = None → next_thread c (a_ready a) = Some (n, l) →
      astep a (switch c t n l a)
  | a_dying a c t :
      at_phase a c t Normal → ¬ is_idle t → astep a (set_st t ThreadStateDying a)
  | a_exit a c t n l :
      at_phase a c t Normal → a_st a !! t = Some ThreadStateDying → a_rl a = None →
      next_thread c (a_ready a) = Some (n, l) →
      astep a (switch c t n l a)
  | a_release_ready a c t p :
      at_phase a c t Switch → a_prev a !! c = Some p →
      astep a (set_phase t (Clean p) (set_rl None a))
  | a_release_blocked a c t p :
      at_phase a c t (Clean p) → a_blk a !! p = Some c →
      astep a (set_phase t Normal (set_blk (delete p (a_blk a)) a))
  | a_release_none a c t p (pr : gmap nat nat) :
      at_phase a c t (Clean p) → a_blk a !! p ≠ Some c →
      (∀ c', c' ≠ c → pr !! c' = a_prev a !! c') →
      astep a (set_phase t Normal (set_prev pr a)).

(** * The invariant *)
(** One CPU per thread; the threads on no CPU are switched out. *)
Record who_ok a : Prop := {
  i_cur c c' t : a_cur a !! c = Some t → a_cur a !! c' = Some t → c = c';
  i_cur_phase c t : a_cur a !! c = Some t → is_Some (a_phase a !! t);
  i_out t p : a_phase a !! t = Some p → ¬ running a t → p = Switch;
  i_idle_cpu c c' t : idle !! c = Some t → a_cur a !! c' = Some t → c = c';
  i_idle_inj c c' t : idle !! c = Some t → idle !! c' = Some t → c = c';
  i_idle_phase c t : idle !! c = Some t → is_Some (a_phase a !! t)
}.
(** The ready lock is held by the CPU that switches. *)
Record rl_ok a : Prop := {
  i_rl c : a_rl a = Some c ↔ ∃ t, on a c = Some (t, Switch);
  i_prev c t : on a c = Some (t, Switch) → is_Some (a_prev a !! c)
}.
(** The lock of a queue is held by the CPU whose thread is inside it. *)
Record qlk_ok a : Prop := {
  i_qlk c q : a_qlk a !! q = Some c ↔ ∃ t p, on a c = Some (t, p) ∧ held_q p = Some q;
  i_queue c t p q : on a c = Some (t, p) → held_q p = Some q → is_Some (a_q a !! q)
}.
Definition parked a t : Prop := a_st a !! t = Some ThreadStateBlocked ∧ ¬ running a t.
(** Why the block lock of [t] is held by [c]: [t] runs there and is about to block, or a
    thread there is making [t] ready, or [c] has just switched away from [t]. *)
Definition blk_reason a c t : Prop :=
  (∃ p, on a c = Some (t, p) ∧ own_blk p = true)
  ∨ (∃ u p, on a c = Some (u, p) ∧ their_blk p = Some t)
  ∨ ((∃ u, on a c = Some (u, Switch) ∧ a_prev a !! c = Some t ∨ on a c = Some (u, Clean t))
      ∧ (idle !! c = Some t ∨ (parked a t ∧ ¬ is_idle t))).
Record blk_ok a : Prop := {
  i_blk c t : a_blk a !! t = Some c → blk_reason a c t;
  i_own c t p : on a c = Some (t, p) → own_blk p = true → a_blk a !! t = Some c;
  i_their c u p t : on a c = Some (u, p) → their_blk p = Some t → a_blk a !! t = Some c
}.
(** Where the threads wait. *)
Record place_ok a : Prop := {
  i_ready_nodup : NoDup (a_ready a);
  i_ready t : t ∈ a_ready a → a_st a !! t = Some ThreadStateReady ∧ ¬ running a t ∧ ¬ is_idle t
    ∧ ¬ waiting a t ∧ is_Some (a_phase a !! t);
  i_queue_nodup q l : a_q a !! q = Some l → NoDup l;
  i_queue_one t q q' : in_queue a t q → in_queue a t q' → q = q';
  i_pending_one c c' t : pending a c t → pending a c' t → c = c';
  i_pending_out c t q : pending a c t → ¬ in_queue a t q;
  i_waiting t : waiting a t → ¬ is_idle t ∧ is_Some (a_phase a !! t)
}.
Record wait_ok a : Prop := {
  i_in_queue t q : in_queue a t q → parked a t
    ∨ ∃ c p, on a c = Some (t, p) ∧ (own_q p = Some q ∨ blocking p = true);
  i_pending c t : pending a c t → parked a t ∨ ∃ c' p, on a c' = Some (t, p) ∧ blocking p = true;
  i_queued c t p q : on a c = Some (t, p) → own_q p = Some q → in_queue a t q;
  i_blocking c t p : on a c = Some (t, p) → blocking p = true → waiting a t ∨ is_idle t;
  i_blocked c t : on a c = Some (t, BlkSt) → a_st a !! t = Some ThreadStateBlocked;
  i_idle_st t : is_idle t → a_st a !! t ≠ Some ThreadStateDying;
  (* nothing gets lost *)
  i_live t p : a_phase a !! t = Some p → ¬ running a t →
    t ∈ a_ready a ∨ waiting a t ∨ is_idle t ∨ a_st a !! t = Some ThreadStateDying
}.
Record inv a : Prop := {
  inv_who : who_ok a; inv_rl : rl_ok a; inv_qlk : qlk_ok a; inv_blk : blk_ok a;
  inv_place : place_ok a; inv_wait : wait_ok a
}.

(** * A thread changes its phase *)
Definition moves a a' c t p : Prop :=
  a_cur a !! c = Some t ∧ a_cur a' = a_cur a ∧ a_phase a' = <[t := p]> (a_phase a).
Lemma on_moved a a' c t p : moves a a' c t p → on a' c = Some (t, p).
Proof. intros (Hc & E1 & E2). unfold on. rewrite E1, E2, Hc. cbn. by rewrite lookup_insert_eq. Qed.
Lemma on_other a a' c t p c' : who_ok a → moves a a' c t p → c' ≠ c → on a' c' = on a c'.
Proof.
  intros Hw (Hc & E1 & E2) Hne. unfold on. rewrite E1, E2. destruct (a_cur a !! c') as [u|] eqn:Hu; [|done].
  cbn. rewrite lookup_insert_ne; [done|]. intros ->. by apply Hne, (i_cur _ Hw _ _ u).
Qed.
Lemma running_moved a a' c t p u : moves a a' c t p → (running a' u ↔ running a u).
Proof. intros (_ & E & _). unfold running. by rewrite E. Qed.
Lemma on_cur a c t p : on a c = Some (t, p) → a_cur a !! c = Some t.
Proof. unfold on. destruct (a_cur a !! c) as [u|]; [|done]. cbn. destruct (a_phase a !! u); cbn; congruence. Qed.
Lemma on_running a c t p : on a c = Some (t, p) → running a t.
Proof. intros H. exists c. by eapply on_cur. Qed.
Lemma on_inj a c c' t p p' : who_ok a → on a c = Some (t, p) → on a c' = Some (t, p') → c = c' ∧ p = p'.
Proof.
  intros Hw H H'. assert (c = c') as -> by (eapply (i_cur _ Hw); by eapply on_cur).
  rewrite H in H'. by simplify_eq.
Qed.
Lemma running_on a t : who_ok a → running a t → ∃ c p, on a c = Some (t, p).
Proof.
  intros Hw [c Hc]. destruct (i_cur_phase _ Hw _ _ Hc) as [p Hp]. exists c, p. unfold on.
  by rewrite Hc; cbn; rewrite Hp.
Qed.

Lemma who_moved a a' c t p : who_ok a → moves a a' c t p → who_ok a'.
Proof.
  intros [W1 W2 W3 W4 W5 W6] (Hc & E1 & E2). assert (Hi : ∀ u, is_Some (a_phase a !! u) → is_Some (a_phase a' !! u)).
  { intros u Hu. rewrite E2. destruct (decide (u = t)) as [->|]; [rewrite lookup_insert_eq; eauto|by rewrite lookup_insert_ne]. }
  split; rewrite ?E1; try done; unfold running in *; rewrite ?E1; [eauto| |eauto].
  intros u p' Hu Hr. rewrite E2 in Hu. destruct (decide (u = t)) as [->|]; [naive_solver|].
  rewrite lookup_insert_ne in Hu by done. by apply (W3 u).
Qed.

(** Case analysis on whether a CPU is the one that moves. *)
Ltac on_case Hw Hm c' :=
  let E := fresh "E" in
  destruct (decide (c' = _)) as [->|E];
  [rewrite ?(on_moved _ _ _ _ _ Hm) in *|rewrite ?(on_other _ _ _ _ _ c' Hw Hm E) in *].

Lemma rl_moved a a' c t p0 p :
  who_ok a → rl_ok a → on a c = Some (t, p0) → moves a a' c t p → p0 ≠ Switch → p ≠ Switch →
  a_rl a' = a_rl a → a_prev a' = a_prev a → rl_ok a'.
Proof.
  intros Hw [R1 R2] H0 Hm Hp0 Hp E1 E2.
  assert (Hon : ∀ c' u, on a' c' = Some (u, Switch) ↔ on a c' = Some (u, Switch)).
  { intros c' u. destruct (decide (c' = c)) as [->|Hne].
    - rewrite (on_moved _ _ _ _ _ Hm), H0. naive_solver.
    - by rewrite (on_other _ _ _ _ _ c' Hw Hm Hne). }
  split; intros *.
  - rewrite E1, R1. by setoid_rewrite Hon.
  - rewrite Hon, E2. apply R2.
Qed.

Lemma qlk_moved a a' c t p0 p :
  who_ok a → qlk_ok a → on a c = Some (t, p0) → moves a a' c t p → held_q p = held_q p0 →
  a_qlk a' = a_qlk a → (∀ q, is_Some (a_q a !! q) → is_Some (a_q a' !! q)) → qlk_ok a'.
Proof.
  intros Hw [Q1 Q2] H0 Hm Hp E1 E2.
  assert (Hon : ∀ c' q, (∃ u p', on a' c' = Some (u, p') ∧ held_q p' = Some q) ↔ (∃ u p', on a c' = Some (u, p') ∧ held_q p' = Some q)).
  { intros c' q. destruct (decide (c' = c)) as [->|Hne].
    - rewrite (on_moved _ _ _ _ _ Hm), H0. naive_solver congruence.
    - by rewrite (on_other _ _ _ _ _ c' Hw Hm Hne). }
  split; intros *.
  - by rewrite E1, Q1, Hon.
  - intros Hu Hq. apply E2. destruct (proj1 (Hon c0 q)) as (u & p' & ? & ?); [eauto|]. by eapply Q2.
Qed.

Lemma qlk_take a a' c t p0 p q :
  who_ok a → qlk_ok a → on a c = Some (t, p0) → moves a a' c t p → held_q p0 = None → held_q p = Some q →
  a_qlk a !! q = None → a_qlk a' = <[q := c]> (a_qlk a) → is_Some (a_q a !! q) →
  (∀ q, is_Some (a_q a !! q) → is_Some (a_q a' !! q)) → qlk_ok a'.
Proof.
  intros Hw [Q1 Q2] H0 Hm Hp0 Hp Hq E1 Hex E2. split.
  - intros c' q'. rewrite E1. destruct (decide (q' = q)) as [->|Hne].
    + rewrite lookup_insert_eq. split; [intros [= <-]; exists t, p; by rewrite (on_moved _ _ _ _ _ Hm)|].
      intros (u & p' & Hu & Hh). destruct (decide (c' = c)) as [->|Hc]; [done|].
      rewrite (on_other _ _ _ _ _ c' Hw Hm Hc) in Hu. assert (a_qlk a !! q = Some c') by (apply Q1; eauto). congruence.
    + rewrite lookup_insert_ne by done. rewrite Q1. destruct (decide (c' = c)) as [->|Hc].
      * rewrite (on_moved _ _ _ _ _ Hm), H0. naive_solver congruence.
      * by rewrite (on_other _ _ _ _ _ c' Hw Hm Hc).
  - intros c' u p' q' Hu Hh. apply E2. destruct (decide (c' = c)) as [->|Hc].
    + rewrite (on_moved _ _ _ _ _ Hm) in Hu. by simplify_eq.
    + rewrite (on_other _ _ _ _ _ c' Hw Hm Hc) in Hu. by eapply Q2.
Qed.
Lemma qlk_drop a a' c t p0 p q :
  who_ok a → qlk_ok a → on a c = Some (t, p0) → moves a a' c t p → held_q p0 = Some q → held_q p = None →
  a_qlk a' = delete q (a_qlk a) → a_q a' = a_q a → qlk_ok a'.
Proof.
  intros Hw [Q1 Q2] H0 Hm Hp0 Hp E1 E2. assert (Hq : a_qlk a !! q = Some c) by (apply Q1; eauto). split.
  - intros c' q'. rewrite E1. destruct (decide (c' = c)) as [->|Hc].
    + rewrite (on_moved _ _ _ _ _ Hm). split.
      * intros [Hne Hq']%lookup_delete_Some. apply Q1 in Hq' as (u & p' & Hu & Hh). congruence.
      * intros (u & p' & Hu & Hh). congruence.
    + rewrite (on_other _ _ _ _ _ c' Hw Hm Hc). rewrite lookup_delete_Some, Q1. split; [by intros [_ ?]|].
      intros Hx. split; [|done]. intros ->. assert (a_qlk a !! q' = Some c') by by apply Q1. congruence.
  - intros c' u p' q' Hu Hh. rewrite E2. destruct (decide (c' = c)) as [->|Hc].
    + rewrite (on_moved _ _ _ _ _ Hm) in Hu. congruence.
    + rewrite (on_other _ _ _ _ _ c' Hw Hm Hc) in Hu. by eapply Q2.
Qed.

Definition behind (p : phase) : bool := match p with Switch | Clean _ => true | _ => false end.
(** The reasons on the CPUs that do not move. *)
Lemma blk_reason_other a a' c t p c' u :
  who_ok a → moves a a' c t p → c' ≠ c → a_prev a' !! c' = a_prev a !! c' → (parked a u → parked a' u) →
  blk_reason a c' u → blk_reason a' c' u.
Proof.
  intros Hw Hm Hc Hpr Hpk. unfold blk_reason. rewrite (on_other _ _ _ _ _ c' Hw Hm Hc), Hpr. naive_solver.
Qed.
Lemma blk_moved a a' c t p0 p :
  who_ok a → blk_ok a → on a c = Some (t, p0) → moves a a' c t p → behind p0 = false →
  own_blk p = own_blk p0 → their_blk p = their_blk p0 → a_blk a' = a_blk a → a_prev a' = a_prev a →
  (∀ u c', c' ≠ c → a_blk a !! u = Some c' → parked a u → parked a' u) → blk_ok a'.
Proof.
  intros Hw [B1 B2 B3] H0 Hm Hb Ho Ht E1 E2 Hpk. split.
  - intros c' u. rewrite E1. intros Hu. destruct (decide (c' = c)) as [->|Hc].
    + destruct (B1 _ _ Hu) as [(p' & Hp' & Hown)|[(w & p' & Hp' & Hth)|[(w & [[Hp' _]|Hp']) _]]]; try congruence.
      * left. exists p. rewrite (on_moved _ _ _ _ _ Hm). split; congruence.
      * right; left. exists t, p. rewrite (on_moved _ _ _ _ _ Hm). split; congruence.
      * rewrite H0 in Hp'. by simplify_eq.
      * rewrite H0 in Hp'. by simplify_eq.
    + apply (blk_reason_other a a' c t p); eauto. by rewrite E2.
  - intros c' u p'. rewrite E1. destruct (decide (c' = c)) as [->|Hc].
    + rewrite (on_moved _ _ _ _ _ Hm). intros [= <- <-]. rewrite Ho. by apply B2.
    + rewrite (on_other _ _ _ _ _ c' Hw Hm Hc). apply B2.
  - intros c' w p' u. rewrite E1. destruct (decide (c' = c)) as [->|Hc].
    + rewrite (on_moved _ _ _ _ _ Hm). intros [= <- <-]. rewrite Ht. by eapply B3.
    + rewrite (on_other _ _ _ _ _ c' Hw Hm Hc). apply B3.
Qed.
(** A block lock is taken: the own one, or that of a thread to be made ready. *)
Lemma blk_take a a' c t p0 p u :
  who_ok a → blk_ok a → on a c = Some (t, p0) → moves a a' c t p → behind p0 = false →
  own_blk p0 = false → their_blk p0 = None →
  (own_blk p = true ∧ their_blk p = None ∧ u = t ∨ own_blk p = false ∧ their_blk p = Some u) →
  a_blk a !! u = None → a_blk a' = <[u := c]> (a_blk a) → a_prev a' = a_prev a → a_st a' = a_st a → blk_ok a'.
Proof.
  intros Hw [B1 B2 B3] H0 Hm Hb Ho Ht Hnew Hfree E1 E2 E3.
  assert (Hpk : ∀ w, parked a w → parked a' w).
  { intros w [? ?]. unfold parked. by rewrite E3, (running_moved _ _ _ _ _ _ Hm). }
  split.
  - intros c' w. rewrite E1. intros [[<- <-]|[Hne Hw']]%lookup_insert_Some.
    + destruct Hnew as [(?&_&->)|[_ ?]]; [left; exists p|right; left; exists t, p]; by rewrite (on_moved _ _ _ _ _ Hm).
    + destruct (decide (c' = c)) as [->|Hc].
      * destruct (B1 _ _ Hw') as [(p' & Hp' & Hown)|[(v & p' & Hp' & Hth)|[(v & [[Hp' _]|Hp']) _]]];
          rewrite H0 in Hp'; simplify_eq; congruence.
      * apply (blk_reason_other a a' c t p); eauto. by rewrite E2.
  - intros c' w p'. rewrite E1. destruct (decide (c' = c)) as [->|Hc].
    + rewrite (on_moved _ _ _ _ _ Hm). intros [= <- <-] Hown. destruct Hnew as [(_&_&->)|[? _]]; [|congruence].
      apply lookup_insert_eq.
    + rewrite (on_other _ _ _ _ _ c' Hw Hm Hc). intros Hon Hown. specialize (B2 _ _ _ Hon Hown).
      rewrite lookup_insert_ne; [done|congruence].
  - intros c' v p' w. rewrite E1. destruct (decide (c' = c)) as [->|Hc].
    + rewrite (on_moved _ _ _ _ _ Hm). intros [= <- <-] Hth. destruct Hnew as [(_&?&_)|[_ Hu]]; [congruence|].
      assert (w = u) as -> by congruence. apply lookup_insert_eq.
    + rewrite (on_other _ _ _ _ _ c' Hw Hm Hc). intros Hon Hown. specialize (B3 _ _ _ _ Hon Hown).
      rewrite lookup_insert_ne; [done|congruence].
Qed.
(** The block lock of [u], which [c] holds for [t], is released; [t] keeps none. *)
Lemma blk_drop a a' c t p0 p u :
  who_ok a → blk_ok a → on a c = Some (t, p0) → moves a a' c t p → own_blk p0 = false →
  own_blk p = false → their_blk p = None → (their_blk p0 = Some u ∨ p0 = Clean u) →
  a_blk a !! u = Some c → a_blk a' = delete u (a_blk a) → 
  (∀ c', c' ≠ c → a_prev a' !! c' = a_prev a !! c') → a_st a' = a_st a → blk_ok a'.
Proof.
  intros Hw [B1 B2 B3] H0 Hm Ho0 Ho Ht Hold Hu E1 E2 E3.
  assert (Hpk : ∀ w, parked a w → parked a' w).
  { intros w [? ?]. unfold parked. by rewrite E3, (running_moved _ _ _ _ _ _ Hm). }
  split.
  - intros c' w. rewrite E1. intros [Hne Hw']%lookup_delete_Some.
    destruct (decide (c' = c)) as [->|Hc].
    + destruct (B1 _ _ Hw') as [(p' & Hp' & Hown)|[(v & p' & Hp' & Hth)|[(v & [[Hp' _]|Hp']) _]]];
        rewrite H0 in Hp'; simplify_eq; destruct Hold; simplify_eq/=; congruence.
    + apply (blk_reason_other a a' c t p); eauto.
  - intros c' w p'. rewrite E1. destruct (decide (c' = c)) as [->|Hc].
    + rewrite (on_moved _ _ _ _ _ Hm). intros [= <- <-]. congruence.
    + rewrite (on_other _ _ _ _ _ c' Hw Hm Hc). intros Hon Hown. specialize (B2 _ _ _ Hon Hown).
      rewrite lookup_delete_ne; [done|congruence].
  - intros c' v p' w. rewrite E1. destruct (decide (c' = c)) as [->|Hc].
    + rewrite (on_moved _ _ _ _ _ Hm). intros [= <- <-]. congruence.
    + rewrite (on_other _ _ _ _ _ c' Hw Hm Hc). intros Hon Hown. specialize (B3 _ _ _ _ Hon Hown).
      rewrite lookup_delete_ne; [done|congruence].
Qed.

(** The CPU that has switched gives up the ready lock, later the block lock. *)
Lemma blk_release_ready a a' c t p :
  who_ok a → blk_ok a → on a c = Some (t, Switch) → a_prev a !! c = Some p → moves a a' c t (Clean p) →
  a_blk a' = a_blk a → a_prev a' = a_prev a → a_st a' = a_st a → blk_ok a'.
Proof.
  intros Hw [B1 B2 B3] H0 Hp Hm E1 E2 E3.
  assert (Hpk : ∀ w, parked a w → parked a' w).
  { intros w [? ?]. unfold parked. by rewrite E3, (running_moved _ _ _ _ _ _ Hm). }
  split.
  - intros c' u. rewrite E1. intros Hu. destruct (decide (c' = c)) as [->|Hc].
    + destruct (B1 _ _ Hu) as [(p' & Hp' & Hown)|[(w & p' & Hp' & Hth)|[(w & [[Hp' ?]|Hp']) Hr]]];
        rewrite H0 in Hp'; simplify_eq; try done.
      right; right. split; [|naive_solver]. exists w. right. by rewrite (on_moved _ _ _ _ _ Hm).
    + apply (blk_reason_other a a' c t (Clean p)); eauto. by rewrite E2.
  - intros c' u p'. rewrite E1. destruct (decide (c' = c)) as [->|Hc].
    + rewrite (on_moved _ _ _ _ _ Hm). by intros [= <- <-].
    + rewrite (on_other _ _ _ _ _ c' Hw Hm Hc). apply B2.
  - intros c' w p' u. rewrite E1. destruct (decide (c' = c)) as [->|Hc].
    + rewrite (on_moved _ _ _ _ _ Hm). by intros [= <- <-].
    + rewrite (on_other _ _ _ _ _ c' Hw Hm Hc). apply B3.
Qed.
Lemma blk_release_none a a' c t p :
  who_ok a → blk_ok a → on a c = Some (t, Clean p) → a_blk a !! p ≠ Some c → moves a a' c t Normal →
  a_blk a' = a_blk a → (∀ c', c' ≠ c → a_prev a' !! c' = a_prev a !! c') → a_st a' = a_st a → blk_ok a'.
Proof.
  intros Hw [B1 B2 B3] H0 Hp Hm E1 E2 E3.
  assert (Hpk : ∀ w, parked a w → parked a' w).
  { intros w [? ?]. unfold parked. by rewrite E3, (running_moved _ _ _ _ _ _ Hm). }
  split.
  - intros c' u. rewrite E1. intros Hu. destruct (decide (c' = c)) as [->|Hc].
    + destruct (B1 _ _ Hu) as [(p' & Hp' & Hown)|[(w & p' & Hp' & Hth)|[(w & [[Hp' ?]|Hp']) Hr]]];
        rewrite H0 in Hp'; simplify_eq; done.
    + apply (blk_reason_other a a' c t Normal); eauto.
  - intros c' u p'. rewrite E1. destruct (decide (c' = c)) as [->|Hc].
    + rewrite (on_moved _ _ _ _ _ Hm). by intros [= <- <-].
    + rewrite (on_other _ _ _ _ _ c' Hw Hm Hc). apply B2.
  - intros c' w p' u. rewrite E1. destruct (decide (c' = c)) as [->|Hc].
    + rewrite (on_moved _ _ _ _ _ Hm). by intros [= <- <-].
    + rewrite (on_other _ _ _ _ _ c' Hw Hm Hc). apply B3.
Qed.

(** * The places, when nobody changes place *)
Lemma pending_moved a a' c t p0 p c' u :
  who_ok a → on a c = Some (t, p0) → moves a a' c t p → target p = target p0 →
  (pending a' c' u ↔ pending a c' u).
Proof.
  intros Hw H0 Hm Ht. unfold pending. destruct (decide (c' = c)) as [->|Hc].
  - rewrite (on_moved _ _ _ _ _ Hm), H0. naive_solver congruence.
  - by rewrite (on_other _ _ _ _ _ c' Hw Hm Hc).
Qed.
Lemma phase_moved a a' c t p u : moves a a' c t p → is_Some (a_phase a !! u) → is_Some (a_phase a' !! u).
Proof.
  intros (_ & _ & E) Hu. rewrite E. destruct (decide (u = t)) as [->|]; [rewrite lookup_insert_eq; eauto|].
  by rewrite lookup_insert_ne.
Qed.
Lemma waiting_moved a a' c t p0 p u :
  who_ok a → on a c = Some (t, p0) → moves a a' c t p → target p = target p0 → a_q a' = a_q a →
  (waiting a' u ↔ waiting a u).
Proof.
  intros Hw H0 Hm Ht E. unfold waiting, in_queue. rewrite E.
  setoid_rewrite (λ c', pending_moved a a' c t p0 p c' u Hw H0 Hm Ht). done.
Qed.
Lemma place_moved a a' c t p0 p :
  who_ok a → place_ok a → on a c = Some (t, p0) → moves a a' c t p → target p = target p0 →
  a_q a' = a_q a → a_ready a' = a_ready a → (∀ u, u ≠ t → a_st a' !! u = a_st a !! u) → place_ok a'.
Proof.
  intros Hw [P1 P2 P3 P4 P5 P6 P7] H0 Hm Ht E1 E2 E3.
  assert (Hpend := λ c' u, pending_moved a a' c t p0 p c' u Hw H0 Hm Ht).
  assert (Hwait := λ u, waiting_moved a a' c t p0 p u Hw H0 Hm Ht E1).
  assert (Hph := λ u, phase_moved a a' c t p u Hm).
  split; unfold in_queue in *; rewrite ?E1, ?E2; try done.
  - intros u Hu. destruct (P2 u Hu) as (?&Hr&?&?&?). rewrite Hwait, (running_moved _ _ _ _ _ _ Hm).
    split_and!; eauto. rewrite E3; [done|]. intros ->. by eapply Hr, on_running.
  - intros c' c'' u. rewrite !Hpend. apply P5.
  - intros c' u q. rewrite !Hpend. apply P6.
  - intros u. rewrite Hwait. intros Hu. destruct (P7 u Hu). eauto.
Qed.
Lemma parked_moved a a' c t p u :
  moves a a' c t p → (∀ u, u ≠ t → a_st a' !! u = a_st a !! u) → (parked a' u ↔ parked a u).
Proof.
  intros Hm E. unfold parked. rewrite (running_moved _ _ _ _ _ _ Hm).
  destruct (decide (u = t)) as [->|Hne]; [|by rewrite E].
  assert (running a t) by (exists c; by destruct Hm). naive_solver.
Qed.
(** A thread is on some CPU in a phase with [P], before and after the move. *)
Lemma on_some_moved a a' c t p0 p u (P P' : phase → Prop) :
  who_ok a → on a c = Some (t, p0) → moves a a' c t p → (P p0 → P' p) → (∀ x, P x → P' x) →
  (∃ c' p', on a c' = Some (u, p') ∧ P p') → ∃ c' p', on a' c' = Some (u, p') ∧ P' p'.
Proof.
  intros Hw H0 Hm HP HPP (c' & p' & Hon & Hp). destruct (decide (c' = c)) as [->|Hc].
  - rewrite H0 in Hon. simplify_eq. exists c, p. rewrite (on_moved _ _ _ _ _ Hm). auto.
  - exists c', p'. rewrite (on_other _ _ _ _ _ c' Hw Hm Hc). auto.
Qed.
Lemma wait_moved a a' c t p0 p :
  who_ok a → wait_ok a → on a c = Some (t, p0) → moves a a' c t p → target p = target p0 →
  a_q a' = a_q a → a_ready a' = a_ready a → (∀ u, u ≠ t → a_st a' !! u = a_st a !! u) →
  (∀ q, own_q p0 = Some q → own_q p = Some q ∨ blocking p = true) →
  (blocking p0 = true → blocking p = true) →
  (∀ q, own_q p = Some q → own_q p0 = Some q) →
  (blocking p = true → blocking p0 = true ∨ is_Some (own_q p0) ∨ is_idle t) →
  (p = BlkSt → a_st a' !! t = Some ThreadStateBlocked) →
  (is_idle t → a_st a' !! t ≠ Some ThreadStateDying) → wait_ok a'.
Proof.
  intros Hw [W1 W2 W3 W4 W5 W6 W7] H0 Hm Ht E1 E2 E3 C1 C2 C3 C4 C5 C6.
  assert (Hpend := λ c' u, pending_moved a a' c t p0 p c' u Hw H0 Hm Ht).
  assert (Hwait := λ u, waiting_moved a a' c t p0 p u Hw H0 Hm Ht E1).
  assert (Hq : ∀ u q, in_queue a' u q ↔ in_queue a u q) by (intros; unfold in_queue; by rewrite E1).
  assert (Hpk := λ u, parked_moved a a' c t p u Hm E3).
  split.
  - intros u q. rewrite Hq, Hpk. intros [?|Hon]%W1; [by left|right].
    refine (on_some_moved a a' c t p0 p u _ _ Hw H0 Hm _ _ Hon); naive_solver.
  - intros c' u. rewrite Hpend, Hpk. intros [?|Hon]%W2; [by left|right].
    refine (on_some_moved a a' c t p0 p u (λ x, blocking x = true) _ Hw H0 Hm _ _ Hon); naive_solver.
  - intros c' u p' q. rewrite Hq. destruct (decide (c' = c)) as [->|Hc].
    + rewrite (on_moved _ _ _ _ _ Hm). intros [= <- <-] ?. eapply W3; eauto.
    + rewrite (on_other _ _ _ _ _ c' Hw Hm Hc). apply W3.
  - intros c' u p'. rewrite Hwait. destruct (decide (c' = c)) as [->|Hc].
    + rewrite (on_moved _ _ _ _ _ Hm). intros [= <- <-] Hb. destruct (C4 Hb) as [?|[[q ?]|?]]; [by eapply W4| |by right].
      left. left. exists q. by eapply W3.
    + rewrite (on_other _ _ _ _ _ c' Hw Hm Hc). apply W4.
  - intros c' u. destruct (decide (c' = c)) as [->|Hc].
    + rewrite (on_moved _ _ _ _ _ Hm). intros [= <- ->]. auto.
    + rewrite (on_other _ _ _ _ _ c' Hw Hm Hc). intros Hon. rewrite E3; [by eapply W5|].
      intros ->. apply Hc. by destruct (on_inj _ _ _ _ _ _ Hw Hon H0).
  - intros u Hu. destruct (decide (u = t)) as [->|Hne]; [auto|]. rewrite E3 by done. auto.
  - intros u p'. rewrite Hwait, (running_moved _ _ _ _ _ _ Hm), E2. intros Hu Hr.
    assert (u ≠ t) by (intros ->; by eapply Hr, on_running). rewrite E3 by done. apply (W7 u p'); [|done].
    destruct Hm as (_ & _ & Em). by rewrite Em, lookup_insert_ne in Hu.
Qed.

(** * Into the queue, out of the queue, into the ready list *)
Lemma running_waiting a c t p :
  who_ok a → wait_ok a → on a c = Some (t, p) → waiting a t → is_Some (own_q p) ∨ blocking p = true.
Proof.
  intros Hw W Ht [[q Hq]|[c' Hp]].
  - destruct (i_in_queue _ W _ _ Hq) as [[_ []]|(c2 & p2 & H2 & H3)]; [by eapply on_running|].
    destruct (on_inj _ _ _ _ _ _ Hw Ht H2) as [_ ->]. naive_solver.
  - destruct (i_pending _ W _ _ Hp) as [[_ []]|(c2 & p2 & H2 & H3)]; [by eapply on_running|].
    destruct (on_inj _ _ _ _ _ _ Hw Ht H2) as [_ ->]. auto.
Qed.

Section Enqueue.
Variables (a : astate) (c t q : nat) (l : list nat).
Hypotheses (Hi : inv a) (H0 : on a c = Some (t, HoldQ q)) (Hid : ¬ is_idle t) (Hl : a_q a !! q = Some l).
Let a' := set_phase t (Queued q) (set_q q (l ++ [t]) a).
Lemma enq_moves : moves a a' c t (Queued q).
Proof using H0. split; [by eapply on_cur|done]. Qed.
Lemma enq_pending c' u : pending a' c' u ↔ pending a c' u.
Proof using Hi H0. by apply (pending_moved a a' c t (HoldQ q) (Queued q)); [apply inv_who|..|apply enq_moves|]. Qed.
Lemma enq_in_queue u q' : in_queue a' u q' ↔ in_queue a u q' ∨ u = t ∧ q' = q.
Proof using Hl.
  unfold in_queue. simpl. destruct (decide (q' = q)) as [->|Hne].
  - rewrite lookup_insert_eq, Hl. setoid_rewrite (inj_iff Some). split.
    + intros (? & <- & [?|?%list_elem_of_singleton]%elem_of_app); eauto.
    + intros [(? & <- & ?)|[-> _]]; (eexists; split; [done|]); rewrite elem_of_app, list_elem_of_singleton; auto.
  - rewrite lookup_insert_ne by done. naive_solver.
Qed.
Lemma enq_waiting u : waiting a' u ↔ waiting a u ∨ u = t.
Proof using Hi H0 Hl. unfold waiting. setoid_rewrite enq_pending. setoid_rewrite enq_in_queue. naive_solver. Qed.
Lemma enq_not_waiting : ¬ waiting a t.
Proof using Hi H0.
  intros Hw. destruct (running_waiting _ _ _ _ (inv_who _ Hi) (inv_wait _ Hi) H0 Hw) as [[]|]; done.
Qed.
Lemma enq_place : place_ok a'.
Proof using Hi H0 Hid Hl.
  pose proof enq_not_waiting as Hnw. destruct (inv_place _ Hi) as [P1 P2 P3 P4 P5 P6 P7]. split; try done.
  - intros u Hu. destruct (P2 u Hu) as (?&Hr&?&?&?). rewrite enq_waiting, (running_moved _ _ _ _ _ _ enq_moves).
    split_and!; try done; [|by apply (phase_moved a a' c t _ u enq_moves)].
    intros [?| ->]; [done|]. by eapply Hr, on_running.
  - intros q' l'. simpl. destruct (decide (q' = q)) as [->|Hne]; [|rewrite lookup_insert_ne by done; apply P3].
    rewrite lookup_insert_eq. intros [= <-]. apply NoDup_app. split_and!; [by eapply P3| |apply NoDup_singleton].
    intros u Hu ->%list_elem_of_singleton. apply Hnw. left. exists q. by exists l.
  - intros u q1 q2. rewrite !enq_in_queue. intros [H1|[-> ->]] [H2|[? ->]]; subst; try done.
    + by eapply P4. + destruct Hnw. left. by exists q1. + destruct Hnw. left. by exists q2.
  - intros c1 c2 u. rewrite !enq_pending. apply P5.
  - intros c1 u q'. rewrite enq_pending, enq_in_queue. intros Hp [Hq|[-> _]]; [by eapply P6|].
    apply Hnw. right. by exists c1.
  - intros u. rewrite enq_waiting. intros [Hu| ->].
    + destruct (P7 u Hu). split; [done|]. by apply (phase_moved a a' c t _ u enq_moves).
    + split; [done|]. simpl. rewrite lookup_insert_eq. eauto.
Qed.
Lemma enq_wait : wait_ok a'.
Proof using Hi H0 Hid Hl.
  pose proof (inv_who _ Hi) as Hw. pose proof enq_moves as Hm. destruct (inv_wait _ Hi) as [W1 W2 W3 W4 W5 W6 W7].
  assert (Hpk := λ u, parked_moved a a' c t (Queued q) u Hm (λ _ _, eq_refl)). split.
  - intros u q'. rewrite enq_in_queue, Hpk. intros [[?|Hon]%W1|[-> ->]]; [by left| |].
    + right. refine (on_some_moved a a' c t _ _ u _ _ Hw H0 Hm _ _ Hon); naive_solver.
    + right. exists c, (Queued q). rewrite (on_moved _ _ _ _ _ Hm). auto.
  - intros c' u. rewrite enq_pending, Hpk. intros [?|Hon]%W2; [by left|right].
    refine (on_some_moved a a' c t _ _ u (λ x, blocking x = true) _ Hw H0 Hm _ _ Hon); naive_solver.
  - intros c' u p' q'. rewrite enq_in_queue. destruct (decide (c' = c)) as [->|Hc].
    + rewrite (on_moved _ _ _ _ _ Hm). naive_solver.
    + rewrite (on_other _ _ _ _ _ c' Hw Hm Hc). eauto.
  - intros c' u p'. rewrite enq_waiting. destruct (decide (c' = c)) as [->|Hc].
    + rewrite (on_moved _ _ _ _ _ Hm). naive_solver.
    + rewrite (on_other _ _ _ _ _ c' Hw Hm Hc). naive_solver.
  - intros c' u. destruct (decide (c' = c)) as [->|Hc].
    + rewrite (on_moved _ _ _ _ _ Hm). done.
    + rewrite (on_other _ _ _ _ _ c' Hw Hm Hc). apply W5.
  - apply W6.
  - intros u p'. rewrite enq_waiting, (running_moved _ _ _ _ _ _ Hm). intros Hu Hr.
    assert (u ≠ t) by (intros ->; by eapply Hr, on_running). simpl in Hu. rewrite lookup_insert_ne in Hu by done.
    destruct (W7 u p' Hu Hr) as [?|[?|[?|?]]]; auto.
Qed.
End Enqueue.

Section Dequeue.
Variables (a : astate) (c t q u : nat) (l : list nat).
Hypotheses (Hi : inv a) (H0 : on a c = Some (t, HoldQ q)) (Hl : a_q a !! q = Some (u :: l)).
Let a' := set_phase t (Unb1 q u) (set_q q l a).
Lemma deq_moves : moves a a' c t (Unb1 q u).
Proof using H0. split; [by eapply on_cur|done]. Qed.
Lemma deq_pending c' w : pending a' c' w ↔ pending a c' w ∨ c' = c ∧ w = u.
Proof using Hi H0 Hl.
  unfold pending. destruct (decide (c' = c)) as [->|Hne].
  - rewrite (on_moved _ _ _ _ _ deq_moves), H0. naive_solver.
  - rewrite (on_other _ _ _ _ _ c' (inv_who _ Hi) deq_moves Hne). naive_solver.
Qed.
Lemma deq_in : in_queue a u q.
Proof using Hl. exists (u :: l). split; [done|]. by left. Qed.
Lemma deq_in_queue w q' : in_queue a' w q' ↔ in_queue a w q' ∧ ¬ (w = u ∧ q' = q).
Proof using Hi Hl.
  unfold in_queue. simpl. destruct (decide (q' = q)) as [->|Hne].
  - pose proof (i_queue_nodup _ (inv_place _ Hi) _ _ Hl) as [Hu Hnd]%NoDup_cons.
    rewrite lookup_insert_eq, Hl. setoid_rewrite (inj_iff Some). split.
    + intros (? & <- & Hw). split; [|by intros [-> _]]. eexists; split; [done|]. by right.
    + intros [(? & <- & [->|Hw]%elem_of_cons) Hne]; [naive_solver|]. eauto.
  - rewrite lookup_insert_ne by done. naive_solver.
Qed.
Lemma deq_waiting w : waiting a' w ↔ waiting a w.
Proof using Hi H0 Hl.
  unfold waiting. setoid_rewrite deq_pending. setoid_rewrite deq_in_queue. pose proof deq_in.
  pose proof (i_queue_one _ (inv_place _ Hi)) as Ho. split.
  - intros [(q' & ? & _)|(c' & [?|[-> ->]])]; eauto.
  - intros [(q' & ?)|(c' & ?)]; [|eauto]. destruct (decide (w = u ∧ q' = q)) as [[-> ->]|Hne]; [|eauto]. right. eauto.
Qed.
Lemma deq_place : place_ok a'.
Proof using Hi H0 Hl.
  pose proof deq_in as Hin. destruct (inv_place _ Hi) as [P1 P2 P3 P4 P5 P6 P7]. split; try done.
  - intros w Hw. destruct (P2 w Hw) as (?&Hr&?&?&?). rewrite deq_waiting, (running_moved _ _ _ _ _ _ deq_moves).
    split_and!; try done. by apply (phase_moved a a' c t _ w deq_moves).
  - intros q' l'. simpl. destruct (decide (q' = q)) as [->|Hne]; [|rewrite lookup_insert_ne by done; apply P3].
    rewrite lookup_insert_eq. intros [= <-]. by apply P3, NoDup_cons in Hl as [_ ?].
  - intros w q1 q2. rewrite !deq_in_queue. intros [H1 _] [H2 _]. by eapply P4.
  - intros c1 c2 w. rewrite !deq_pending. intros [H1|[-> ->]] [H2|[-> ?]]; subst; try done; [by eapply P5|..].
    + by edestruct P6. + by edestruct P6.
  - intros c1 w q'. rewrite deq_pending, deq_in_queue. intros [Hp|[-> ->]] [Hq Hne]; [by eapply P6|].
    apply Hne. split; [done|]. by eapply P4.
  - intros w. rewrite deq_waiting. intros Hw. destruct (P7 w Hw). split; [done|].
    by apply (phase_moved a a' c t _ w deq_moves).
Qed.
(** The thread that is taken is out of its queue's lock. *)
Lemma deq_parked : parked a u ∨ ∃ c' p, on a c' = Some (u, p) ∧ blocking p = true.
Proof using Hi H0 Hl.
  destruct (i_in_queue _ (inv_wait _ Hi) _ _ deq_in) as [?|(c' & p & Hon & [Hq|Hb])]; [by left| |eauto].
  exfalso. assert (H1 : a_qlk a !! q = Some c) by (apply (inv_qlk _ Hi); eauto).
  assert (Hh : held_q p = Some q) by (destruct p; naive_solver).
  assert (H2 : a_qlk a !! q = Some c') by (apply (inv_qlk _ Hi); eauto).
  assert (c' = c) as -> by congruence. rewrite H0 in Hon. by simplify_eq.
Qed.
Lemma deq_wait : wait_ok a'.
Proof using Hi H0 Hl.
  pose proof (inv_who _ Hi) as Hw. pose proof deq_moves as Hm. pose proof deq_parked as Hpu.
  destruct (inv_wait _ Hi) as [W1 W2 W3 W4 W5 W6 W7].
  assert (Hpk := λ u, parked_moved a a' c t _ u Hm (λ _ _, eq_refl)). split.
  - intros w q'. rewrite deq_in_queue, Hpk. intros [[?|Hon]%W1 _]; [by left|right].
    refine (on_some_moved a a' c t _ _ w _ _ Hw H0 Hm _ _ Hon); naive_solver.
  - intros c' w. rewrite deq_pending, Hpk. intros Hp.
    assert (Hor : parked a w ∨ ∃ c' p, on a c' = Some (w, p) ∧ blocking p = true) by (destruct Hp as [?%W2|[_ ->]]; done).
    destruct Hor as [?|Hon]; [by left|right].
    refine (on_some_moved a a' c t _ _ w (λ x, blocking x = true) _ Hw H0 Hm _ _ Hon); naive_solver.
  - intros c' w p' q'. rewrite deq_in_queue. destruct (decide (c' = c)) as [->|Hc].
    + rewrite (on_moved _ _ _ _ _ Hm). naive_solver.
    + rewrite (on_other _ _ _ _ _ c' Hw Hm Hc). intros Hon Hq. split; [eauto|]. intros [-> ->]. apply Hc.
      assert (H1 : a_qlk a !! q = Some c) by (apply (inv_qlk _ Hi); eauto).
      assert (Hh : held_q p' = Some q) by (destruct p'; naive_solver).
      assert (H2 : a_qlk a !! q = Some c') by (apply (inv_qlk _ Hi); eauto). congruence.
  - intros c' w p'. rewrite deq_waiting. destruct (decide (c' = c)) as [->|Hc].
    + rewrite (on_moved _ _ _ _ _ Hm). naive_solver.
    + rewrite (on_other _ _ _ _ _ c' Hw Hm Hc). apply W4.
  - intros c' w. destruct (decide (c' = c)) as [->|Hc].
    + rewrite (on_moved _ _ _ _ _ Hm). done.
    + rewrite (on_other _ _ _ _ _ c' Hw Hm Hc). apply W5.
  - apply W6.
  - intros w p'. rewrite deq_waiting, (running_moved _ _ _ _ _ _ Hm). intros Hu Hr.
    assert (w ≠ t) by (intros ->; by eapply Hr, on_running). simpl in Hu. rewrite lookup_insert_ne in Hu by done.
    by eapply W7.
Qed.
End Dequeue.

Section MakeReady.
Variables (a : astate) (c t q u : nat).
Hypotheses (Hi : inv a) (H0 : on a c = Some (t, Unb2 q u)).
Let a' := set_phase t (Unb3 q u) (set_st u ThreadStateReady (set_ready (a_ready a ++ [u]) a)).
Lemma mkr_moves : moves a a' c t (Unb3 q u).
Proof using H0. split; [by eapply on_cur|done]. Qed.
Lemma mkr_target : pending a c u.
Proof using H0. by exists t, (Unb2 q u). Qed.
Lemma mkr_parked : parked a u.
Proof using Hi H0.
  destruct (i_pending _ (inv_wait _ Hi) _ _ mkr_target) as [?|(c' & p & Hon & Hb)]; [done|exfalso].
  assert (H1 : a_blk a !! u = Some c) by (eapply (i_their _ (inv_blk _ Hi)); eauto).
  assert (H2 : a_blk a !! u = Some c').
  { eapply (i_own _ (inv_blk _ Hi)); [done|]. by destruct p. }
  assert (c' = c) as -> by congruence. rewrite H0 in Hon. by simplify_eq.
Qed.
Lemma mkr_pending c' w : pending a' c' w ↔ pending a c' w ∧ w ≠ u.
Proof using Hi H0.
  pose proof (i_pending_one _ (inv_place _ Hi)) as Ho. pose proof mkr_target as Ht.
  destruct (decide (c' = c)) as [->|Hne].
  - unfold pending. rewrite (on_moved _ _ _ _ _ mkr_moves), H0. naive_solver.
  - assert (pending a' c' w ↔ pending a c' w) as ->.
    { unfold pending. by rewrite (on_other _ _ _ _ _ c' (inv_who _ Hi) mkr_moves Hne). }
    split; [|by intros [? _]]. intros Hp. split; [done|]. intros ->. apply Hne. by eapply Ho.
Qed.
Lemma mkr_waiting w : waiting a' w ↔ waiting a w ∧ w ≠ u.
Proof using Hi H0.
  unfold waiting. setoid_rewrite mkr_pending. change (in_queue a' w) with (in_queue a w).
  pose proof (i_pending_out _ (inv_place _ Hi)) as Ho. pose proof mkr_target. naive_solver.
Qed.
Lemma mkr_place : place_ok a'.
Proof using Hi H0.
  pose proof mkr_target as Ht. pose proof mkr_parked as [Hst Hnr].
  destruct (inv_place _ Hi) as [P1 P2 P3 P4 P5 P6 P7].
  assert (Hwu : waiting a u) by (right; eauto). destruct (P7 u Hwu) as [Hid Hph]. split; try done.
  - simpl. apply NoDup_app. split_and!; [done| |apply NoDup_singleton].
    intros w Hw ->%list_elem_of_singleton. by destruct (P2 u Hw) as (_&_&_&[]&_).
  - intros w. simpl. rewrite elem_of_app, list_elem_of_singleton, mkr_waiting, (running_moved _ _ _ _ _ _ mkr_moves).
    intros [Hw| ->].
    + destruct (P2 w Hw) as (?&?&?&?&?). assert (w ≠ u) by (intros ->; done).
      rewrite lookup_insert_ne by done. split_and!; try done; [naive_solver|]. by apply (phase_moved a a' c t _ w mkr_moves).
    + rewrite lookup_insert_eq. split_and!; try done; [naive_solver|]. by apply (phase_moved a a' c t _ u mkr_moves).
  - intros c1 c2 w. rewrite !mkr_pending. intros [? _] [? _]. by eapply P5.
  - intros c1 w q'. rewrite mkr_pending. intros [? _]. by eapply P6.
  - intros w. rewrite mkr_waiting. intros [Hw _]. destruct (P7 w Hw). split; [done|].
    by apply (phase_moved a a' c t _ w mkr_moves).
Qed.
Lemma mkr_wait : wait_ok a'.
Proof using Hi H0.
  pose proof (inv_who _ Hi) as Hw. pose proof mkr_moves as Hm. pose proof mkr_parked as [Hst Hnr].
  pose proof mkr_target as Ht. assert (Hwu : waiting a u) by (right; eauto).
  pose proof (i_waiting _ (inv_place _ Hi) u Hwu) as [Hid _].
  pose proof (λ q', i_pending_out _ (inv_place _ Hi) c u q' Ht) as Hout.
  destruct (inv_wait _ Hi) as [W1 W2 W3 W4 W5 W6 W7].
  assert (Hpk : ∀ w, w ≠ u → parked a w → parked a' w).
  { intros w Hne [? ?]. unfold parked. rewrite (running_moved _ _ _ _ _ _ Hm). simpl. by rewrite lookup_insert_ne. }
  split.
  - intros w q' Hq. change (in_queue a w q') in Hq. assert (w ≠ u) by (intros ->; by eapply Hout).
    destruct (W1 _ _ Hq) as [?|Hon]; [left; auto|right].
    refine (on_some_moved a a' c t _ _ w _ _ Hw H0 Hm _ _ Hon); naive_solver.
  - intros c' w. rewrite mkr_pending. intros [[?|Hon]%W2 Hne]; [left; auto|right].
    refine (on_some_moved a a' c t _ _ w (λ x, blocking x = true) _ Hw H0 Hm _ _ Hon); naive_solver.
  - intros c' w p' q'. destruct (decide (c' = c)) as [->|Hc].
    + rewrite (on_moved _ _ _ _ _ Hm). naive_solver.
    + rewrite (on_other _ _ _ _ _ c' Hw Hm Hc). apply W3.
  - intros c' w p'. rewrite mkr_waiting. destruct (decide (c' = c)) as [->|Hc].
    + rewrite (on_moved _ _ _ _ _ Hm). naive_solver.
    + rewrite (on_other _ _ _ _ _ c' Hw Hm Hc). intros Hon Hb. destruct (W4 _ _ _ Hon Hb); [left|by right].
      split; [done|]. intros ->. by eapply Hnr, on_running.
  - intros c' w. destruct (decide (c' = c)) as [->|Hc].
    + rewrite (on_moved _ _ _ _ _ Hm). done.
    + rewrite (on_other _ _ _ _ _ c' Hw Hm Hc). intros Hon. simpl. rewrite lookup_insert_ne; [by eapply W5|].
      intros ->. by eapply Hnr, on_running.
  - intros w Hidw. simpl. rewrite lookup_insert_ne; [by apply W6|]. intros ->. done.
  - intros w p'. rewrite mkr_waiting, (running_moved _ _ _ _ _ _ Hm). intros Hu Hr. simpl.
    rewrite elem_of_app, list_elem_of_singleton. destruct (decide (w = u)) as [->|Hne]; [auto|].
    rewrite lookup_insert_ne by done.
    assert (w ≠ t) by (intros ->; by eapply Hr, on_running). simpl in Hu. rewrite lookup_insert_ne in Hu by done.
    destruct (W7 w p' Hu Hr) as [?|[?|[?|?]]]; auto.
Qed.
End MakeReady.

(** * A switch *)
Section Switching.
Variables (a a' : astate) (c t n : nat) (p0 : phase) (r l : list nat).
Hypotheses (Hi : inv a) (H0 : on a c = Some (t, p0)) (Hrl : a_rl a = None)
  (Hheld : held_q p0 = None) (Htheir : their_blk p0 = None) (Htarget : target p0 = None)
  (Hownq : own_q p0 = None) (Hbehind : behind p0 = false)
  (Hnext : next_thread c r = Some (n, l))
  (Hr : r = a_ready a ∨ r = a_ready a ++ [t] ∧ ¬ is_idle t ∧ a_st a' !! t = Some ThreadStateReady
    ∧ ¬ waiting a t ∧ own_blk p0 = false)
  (Hlive : t ∈ r ∨ waiting a t ∨ is_idle t ∨ a_st a' !! t = Some ThreadStateDying)
  (Hwt : waiting a t → a_st a' !! t = Some ThreadStateBlocked)
  (Hown : own_blk p0 = true → a_st a' !! t = Some ThreadStateBlocked)
  (Hidle : is_idle t → a_st a' !! t ≠ Some ThreadStateDying)
  (E1 : a_cur a' = <[c := n]> (a_cur a)) (E2 : a_prev a' = <[c := t]> (a_prev a))
  (E3 : a_phase a' = <[t := Switch]> (a_phase a)) (E4 : ∀ u, u ≠ t → a_st a' !! u = a_st a !! u)
  (E5 : a_blk a' = a_blk a) (E6 : a_q a' = a_q a) (E7 : a_qlk a' = a_qlk a)
  (E8 : a_rl a' = Some c) (E9 : a_ready a' = l).
#[local] Set Default Proof Using "Type*".

Lemma sw_who : who_ok a.
Proof using Hi. apply Hi. Qed.
Lemma sw_t : a_cur a !! c = Some t. Proof using H0. by eapply on_cur. Qed.
Lemma sw_idle_t : is_idle t → idle !! c = Some t.
Proof using Hi H0. intros [c' Hc]. by rewrite <-(i_idle_cpu _ sw_who _ _ _ Hc sw_t). Qed.
Lemma sw_ready_t : t ∈ r → own_blk p0 = false ∧ ¬ waiting a t ∧ ¬ is_idle t.
Proof using Hi H0 Hr.
  intros Hin. destruct Hr as [E|(_ & ? & _ & ? & ?)]; [|done]. rewrite E in Hin.
  destruct (i_ready _ (inv_place _ Hi) _ Hin) as (_ & [] & _). exists c; apply sw_t.
Qed.
Lemma sw_n : n ∈ r ∧ r = n :: l ∨ idle !! c = Some n ∧ r = [] ∧ l = [].
Proof using Hnext.
  pose proof Hnext as Hn. unfold next_thread in Hn. clear -Hn. destruct r as [|x r'].
  - destruct (idle !! c); cbn in Hn; [|done]. simplify_eq. auto.
  - simplify_eq. left. split; [by left|done].
Qed.
Lemma sw_in_r u : u ∈ r → u ∈ a_ready a ∨ u = t.
Proof using Hr. destruct Hr as [E|(E & _)]; rewrite E; [auto|]. rewrite elem_of_app, list_elem_of_singleton. auto. Qed.
Lemma sw_n_new : n = t ∨ ¬ running a n ∧ a_phase a !! n = Some Switch
  ∧ (idle !! c = Some n ∨ n ∈ a_ready a).
Proof using Type*.
  destruct (decide (n = t)) as [->|Hne]; [by left|right].
  assert (Hr' : ¬ running a n ∧ is_Some (a_phase a !! n) ∧ (idle !! c = Some n ∨ n ∈ a_ready a)).
  { destruct sw_n as [[Hin _]|[Hid _]].
    - destruct (sw_in_r n Hin) as [Hin'|]; [|done]. destruct (i_ready _ (inv_place _ Hi) _ Hin') as (_&?&_&_&?). auto.
    - split_and!; [|by eapply (i_idle_phase _ sw_who)|by left]. intros [c' Hc'].
      pose proof (i_idle_cpu _ sw_who _ _ _ Hid Hc') as <-. pose proof sw_t. congruence. }
  destruct Hr' as (? & [p Hp] & ?). split_and!; try done. rewrite Hp. f_equal. by eapply (i_out _ sw_who).
Qed.
Lemma sw_n_idle c' : idle !! c' = Some n → c' = c.
Proof using Type*.
  intros Hc'. destruct sw_n as [[Hin _]|[Hid _]].
  - destruct (sw_in_r n Hin) as [Hin'| ->].
    + destruct (i_ready _ (inv_place _ Hi) _ Hin') as (_&_&[]&_). by exists c'.
    + by apply (i_idle_cpu _ sw_who c' c t), sw_t.
  - by apply (i_idle_inj _ sw_who c' c n).
Qed.
Lemma sw_n_waiting : ¬ waiting a n.
Proof using Type*.
  destruct sw_n as [[Hin _]|[Hid _]].
  - destruct (sw_in_r n Hin) as [Hin'| ->]; [by destruct (i_ready _ (inv_place _ Hi) _ Hin') as (_&_&_&?&_)|].
    by destruct (sw_ready_t Hin) as (_ & ? & _).
  - intros Hw. destruct (i_waiting _ (inv_place _ Hi) _ Hw) as [[] _]. by exists c.
Qed.
Lemma sw_on c' : on a' c' = if decide (c' = c) then Some (n, Switch) else on a c'.
Proof.
  unfold on. rewrite E1, E3. destruct (decide (c' = c)) as [->|Hne].
  - rewrite lookup_insert_eq. cbn. destruct sw_n_new as [->|(_ & Hp & _)]; [by rewrite lookup_insert_eq|].
    destruct (decide (n = t)) as [->|]; [by rewrite lookup_insert_eq|]. by rewrite lookup_insert_ne, Hp by done.
  - rewrite lookup_insert_ne by done. destruct (a_cur a !! c') as [u|] eqn:Hu; [|done]. cbn.
    rewrite lookup_insert_ne; [done|]. intros Hut. apply Hne, (i_cur _ sw_who _ _ t); [by rewrite Hut|apply sw_t].
Qed.
Lemma sw_on_same : on a' c = Some (n, Switch).
Proof. by rewrite sw_on, decide_True. Qed.
Lemma sw_on_other c' : c' ≠ c → on a' c' = on a c'.
Proof. intros. by rewrite sw_on, decide_False. Qed.
Lemma sw_running u : running a' u ↔ u = n ∨ u ≠ t ∧ running a u.
Proof.
  unfold running. rewrite E1. split.
  - intros [c' [[<- <-]|[Hne Hc']]%lookup_insert_Some]; [by left|]. right. split; [|eauto].
    intros ->. apply Hne. by apply (i_cur _ sw_who _ _ t); [apply sw_t|].
  - intros [->|[Hne [c' Hc']]]; [exists c; by rewrite lookup_insert_eq|]. exists c'.
    rewrite lookup_insert_ne; [done|]. intros <-. pose proof sw_t. congruence.
Qed.
Lemma sw_phase u : is_Some (a_phase a !! u) → is_Some (a_phase a' !! u).
Proof. rewrite E3. destruct (decide (u = t)) as [->|]; [rewrite lookup_insert_eq; eauto|by rewrite lookup_insert_ne]. Qed.
Lemma sw_pending c' u : pending a' c' u ↔ pending a c' u.
Proof.
  unfold pending. destruct (decide (c' = c)) as [->|Hne]; [|by rewrite sw_on_other].
  rewrite sw_on_same, H0. naive_solver congruence.
Qed.
Lemma sw_waiting u : waiting a' u ↔ waiting a u.
Proof. unfold waiting, in_queue. rewrite E6. by setoid_rewrite sw_pending. Qed.
Lemma sw_in_queue u q : in_queue a' u q ↔ in_queue a u q.
Proof. unfold in_queue. by rewrite E6. Qed.
(** A blocked thread stays parked, unless it runs now. *)
Lemma sw_parked u : u ≠ n → parked a u → parked a' u.
Proof.
  intros Hn [Hs Hnr]. assert (u ≠ t) by (intros ->; apply Hnr; exists c; apply sw_t).
  split; [by rewrite E4|]. rewrite sw_running. naive_solver.
Qed.
Lemma sw_parked_t : n ≠ t → a_st a' !! t = Some ThreadStateBlocked → parked a' t.
Proof. intros Hn Hs. split; [done|]. rewrite sw_running. naive_solver. Qed.

Lemma sw_who_ok : who_ok a'.
Proof.
  pose proof sw_n_new as Hn. destruct sw_who as [W1 W2 W3 W4 W5 W6]. split.
  - intros c1 c2 u. rewrite E1. intros [[<- <-]|[Hne1 H1]]%lookup_insert_Some [[<- ?]|[Hne2 H2]]%lookup_insert_Some; subst; try done.
    + destruct Hn as [->|[Hn _]]; [|destruct Hn; by exists c2]. by apply (W1 _ _ t); [apply sw_t|].
    + destruct Hn as [->|[Hn _]]; [|destruct Hn; by exists c1]. symmetry. by apply (W1 _ _ t); [apply sw_t|].
    + by eapply W1.
  - intros c' u. rewrite E1. intros [[<- <-]|[Hne1 H1]]%lookup_insert_Some; apply sw_phase; [|by eapply W2].
    destruct Hn as [->|(_ & ? & _)]; [apply (W2 c), sw_t|eauto].
  - intros u p. rewrite sw_running, E3. intros [[<- <-]|[Hne Hu]]%lookup_insert_Some Hnr; [done|].
    apply (W3 u p Hu). intros ?. apply Hnr. auto.
  - intros c1 c2 u Hu. rewrite E1. intros [[<- <-]|[Hne1 H1]]%lookup_insert_Some; [by apply sw_n_idle|by eapply W4].
  - done.
  - intros c' u Hu. by eapply sw_phase, W6.
Qed.
Lemma sw_rl_ok : rl_ok a'.
Proof.
  destruct (inv_rl _ Hi) as [R1 R2]. split.
  - intros c'. rewrite E8. split.
    + intros [= <-]. exists n. apply sw_on_same.
    + intros [u Hu]. f_equal. destruct (decide (c' = c)) as [->|Hne]; [done|]. rewrite sw_on_other in Hu by done.
      assert (a_rl a = Some c') by (apply R1; eauto). congruence.
  - intros c' u. rewrite E2. destruct (decide (c' = c)) as [->|Hne]; [rewrite lookup_insert_eq; eauto|].
    rewrite lookup_insert_ne, sw_on_other by done. apply R2.
Qed.
Lemma sw_qlk_ok : qlk_ok a'.
Proof.
  destruct (inv_qlk _ Hi) as [Q1 Q2]. split; intros c' *; rewrite ?E7, ?E6; destruct (decide (c' = c)) as [->|Hne];
    rewrite ?sw_on_same, ?sw_on_other by done; rewrite ?Q1, ?H0; naive_solver congruence.
Qed.
Lemma sw_blk_ok : blk_ok a'.
Proof.
  destruct (inv_blk _ Hi) as [B1 B2 B3]. split.
  - intros c' u. rewrite E5. intros Hu. destruct (decide (c' = c)) as [->|Hne].
    + assert (Hown' : own_blk p0 = true ∧ u = t).
      { destruct (B1 _ _ Hu) as [(p & Hp & Hb)|[(w & p & Hp & Hb)|[(w & [[Hp ?]|Hp]) _]]]; rewrite H0 in Hp;
          [injection Hp as <- <-; done|injection Hp as <- <-; congruence|exfalso; clear -Hp Hbehind; naive_solver..]. }
      destruct Hown' as [Hb ->]. right; right. split; [exists n; left; rewrite sw_on_same, E2; by rewrite lookup_insert_eq|].
      destruct (decide (idle !! c = Some t)) as [|Hid]; [by left|right].
      split; [|by intros ?%sw_idle_t]. apply sw_parked_t; [|auto].
      intros Hnt. destruct sw_n as [[Hin _]|[Hidn _]]; [|apply Hid; by rewrite <-Hnt].
      rewrite Hnt in Hin. destruct (sw_ready_t Hin). congruence.
    + destruct (B1 _ _ Hu) as [Hb|[Hb|[Hb Hc]]]; unfold blk_reason; rewrite (sw_on_other c' Hne), E2, lookup_insert_ne by done; [auto|auto|].
      right; right. split; [done|]. destruct Hc as [?|[Hpk Hid]]; [auto|right]. split; [|done].
      apply sw_parked; [|done]. intros ->. destruct Hpk as [Hs Hnr]. destruct sw_n_new as [->|(_ & _ & [?|Hin])].
      * apply Hnr. exists c. apply sw_t.
      * apply Hid. by exists c.
      * destruct (i_ready _ (inv_place _ Hi) _ Hin). congruence.
  - intros c' u p. rewrite E5. destruct (decide (c' = c)) as [->|Hne]; [rewrite sw_on_same; by intros [= <- <-]|].
    rewrite sw_on_other by done. apply B2.
  - intros c' w p u. rewrite E5. destruct (decide (c' = c)) as [->|Hne]; [rewrite sw_on_same; by intros [= <- <-]|].
    rewrite sw_on_other by done. apply B3.
Qed.
Lemma sw_r_nodup : NoDup r.
Proof using Hi H0 Hr.
  pose proof (i_ready_nodup _ (inv_place _ Hi)) as Hnd. destruct Hr as [E|(E & _)]; rewrite E; [done|].
  apply NoDup_app. split_and!; [done| |apply NoDup_singleton]. intros u Hu ->%list_elem_of_singleton.
  destruct (i_ready _ (inv_place _ Hi) _ Hu) as (_ & [] & _). exists c. apply sw_t.
Qed.
Lemma sw_l u : u ∈ l → u ∈ r ∧ u ≠ n.
Proof.
  intros Hu. pose proof sw_r_nodup as Hnd. destruct sw_n as [[_ E]|(_ & _ & E)]; rewrite E in *.
  - apply NoDup_cons in Hnd as [? _]. split; [by right|]. intros ->. done.
  - by apply not_elem_of_nil in Hu.
Qed.
Lemma sw_place_ok : place_ok a'.
Proof.
  pose proof sw_r_nodup as Hnd. destruct (inv_place _ Hi) as [P1 P2 P3 P4 P5 P6 P7].
  split; rewrite ?E6, ?E9; try done.
  - destruct sw_n as [[_ E]|(_ & _ & E)]; rewrite E in *; [by apply NoDup_cons in Hnd as [_ ?]|constructor].
  - intros u Hu. destruct (sw_l u Hu) as [Hur Hun]. rewrite sw_waiting, sw_running.
    destruct (decide (u = t)) as [->|Hne].
    + destruct (sw_ready_t Hur) as (_ & ? & ?). split_and!; try done; [|naive_solver|].
      * destruct Hr as [E|(_ & _ & ? & _)]; [|done]. rewrite E in Hur. destruct (P2 t Hur) as (_ & [] & _). exists c. apply sw_t.
      * rewrite E3, lookup_insert_eq. eauto.
    + destruct (sw_in_r u Hur) as [Hin|]; [|done]. destruct (P2 u Hin) as (?&?&?&?&?). rewrite E4 by done.
      split_and!; try done; [naive_solver|]. by apply sw_phase.
  - intros u q q'. rewrite !sw_in_queue. apply P4.
  - intros c1 c2 u. rewrite !sw_pending. apply P5.
  - intros c1 u q. rewrite sw_pending, sw_in_queue. apply P6.
  - intros u. rewrite sw_waiting. intros Hu. destruct (P7 u Hu). split; [done|]. by apply sw_phase.
Qed.
Lemma sw_wait_ok : wait_ok a'.
Proof.
  pose proof sw_n_waiting as Hnw. destruct (inv_wait _ Hi) as [W1 W2 W3 W4 W5 W6 W7].
  assert (Hpk : ∀ u, waiting a u → parked a u → parked a' u).
  { intros u Hu. apply sw_parked. by intros ->. }
  assert (Hon : ∀ u P, waiting a u → (∃ c' p, on a c' = Some (u, p) ∧ P p) →
    parked a' u ∨ ∃ c' p, on a' c' = Some (u, p) ∧ P p).
  { intros u P Hu (c' & p & Hc' & HP). destruct (decide (c' = c)) as [->|Hne].
    - rewrite H0 in Hc'. injection Hc' as <- <-. left. apply sw_parked_t; [|auto]. by intros Hnt; apply Hnw; rewrite Hnt.
    - right. exists c', p. by rewrite sw_on_other. }
  split.
  - intros u q. rewrite sw_in_queue. intros Hq. assert (waiting a u) by (left; eauto).
    destruct (W1 _ _ Hq) as [?|Hex]; [auto|]. by apply (Hon u (λ p, own_q p = Some q ∨ blocking p = true)).
  - intros c' u. rewrite sw_pending. intros Hp. assert (waiting a u) by (right; eauto).
    destruct (W2 _ _ Hp) as [?|Hex]; [auto|]. by apply (Hon u (λ p, blocking p = true)).
  - intros c' u p q. rewrite sw_in_queue. destruct (decide (c' = c)) as [->|Hne]; [rewrite sw_on_same; by intros [= <- <-]|].
    rewrite sw_on_other by done. apply W3.
  - intros c' u p. rewrite sw_waiting. destruct (decide (c' = c)) as [->|Hne]; [rewrite sw_on_same; by intros [= <- <-]|].
    rewrite sw_on_other by done. apply W4.
  - intros c' u. destruct (decide (c' = c)) as [->|Hne]; [rewrite sw_on_same; by intros [= <-]|].
    rewrite sw_on_other by done. intros Hu. rewrite E4; [by eapply W5|]. intros ->.
    destruct (on_inj _ _ _ _ _ _ sw_who Hu H0). done.
  - intros u Hu. destruct (decide (u = t)) as [->|]; [auto|]. rewrite E4 by done. auto.
  - intros u p Hu Hnr. rewrite sw_running in Hnr. rewrite sw_waiting, E9.
    assert (Hlr : u ∈ r → u ∈ l).
    { intros Hin. destruct sw_n as [[_ E]|(_ & E & _)]; rewrite E in Hin; [|by apply not_elem_of_nil in Hin].
      apply elem_of_cons in Hin as [->|]; [|done]. destruct Hnr. by left. }
    destruct (decide (u = t)) as [->|Hne]; [destruct Hlive as [?|[?|[?|?]]]; auto|].
    rewrite E4 by done. rewrite E3, lookup_insert_ne in Hu by done.
    assert (Hnru : ¬ running a u) by (intros ?; apply Hnr; auto).
    destruct (W7 u p Hu Hnru) as [?|[?|[?|?]]]; auto. left. apply Hlr.
    destruct Hr as [E|(E & _)]; rewrite E; [done|]. apply elem_of_app. by left.
Qed.
Lemma sw_inv : inv a'.
Proof. split; [apply sw_who_ok|apply sw_rl_ok|apply sw_qlk_ok|apply sw_blk_ok|apply sw_place_ok|apply sw_wait_ok]. Qed.
End Switching.

(** * Every step keeps the invariant *)
(** A move that takes or drops no place; what is left to show are the locks. *)
Lemma inv_moved a a' c t p0 p :
  inv a → on a c = Some (t, p0) → moves a a' c t p → target p = target p0 →
  a_q a' = a_q a → a_ready a' = a_ready a → (∀ u, u ≠ t → a_st a' !! u = a_st a !! u) →
  (∀ q, own_q p0 = Some q → own_q p = Some q ∨ blocking p = true) →
  (blocking p0 = true → blocking p = true) → (∀ q, own_q p = Some q → own_q p0 = Some q) →
  (blocking p = true → blocking p0 = true ∨ is_Some (own_q p0) ∨ is_idle t) →
  (p = BlkSt → a_st a' !! t = Some ThreadStateBlocked) → (is_idle t → a_st a' !! t ≠ Some ThreadStateDying) →
  rl_ok a' → qlk_ok a' → blk_ok a' → inv a'.
Proof.
  intros Hi H0 Hm Ht E1 E2 E3 C1 C2 C3 C4 C5 C6 Hrl Hql Hbl. pose proof (inv_who _ Hi) as Hw.
  split; try done; [by eapply who_moved|..].
  - by apply (place_moved a a' c t p0 p); [done|apply Hi|..].
  - by apply (wait_moved a a' c t p0 p); [done|apply Hi|..].
Qed.
Lemma idle_alive a t : inv a → is_idle t → a_st a !! t ≠ Some ThreadStateDying.
Proof. intros Hi. apply (i_idle_st _ (inv_wait _ Hi)). Qed.
Lemma moves_phase a c t p0 p a1 :
  on a c = Some (t, p0) → a_cur a1 = a_cur a → a_phase a1 = a_phase a → moves a (set_phase t p a1) c t p.
Proof. intros H0 E1 E2. split; [by eapply on_cur|]. simpl. by rewrite E1, E2. Qed.

Ltac local_step Hi H0 Hm :=
  match goal with
  | |- inv (set_phase ?t ?p ?a1) => pose proof (moves_phase _ _ _ _ p a1 H0 eq_refl eq_refl) as Hm
  end;
  eapply (inv_moved _ _ _ _ _ _ Hi H0 Hm); try done; try naive_solver;
  try (by eapply (rl_moved _ _ _ _ _ _ (inv_who _ Hi) (inv_rl _ Hi) H0 Hm));
  try (by eapply (qlk_moved _ _ _ _ _ _ (inv_who _ Hi) (inv_qlk _ Hi) H0 Hm));
  try (by eapply (blk_moved _ _ _ _ _ _ (inv_who _ Hi) (inv_blk _ Hi) H0 Hm)).

Lemma inv_step a a' : inv a → astep a a' → inv a'.
Proof.
  intros Hi Hs. pose proof (inv_who _ Hi) as Hw.
  destruct Hs as [a c t q H0 Hq Hl|a c t q H0|a c t q l H0 Hid Hl|a c t q H0 Hb|a c t q H0
    |a c t H0 Hid Hb|a c t H0|a c t q u l H0 Hl|a c t q u H0 Hb|a c t q u H0 Hrl|a c t q u H0
    |a c t n l H0 Hrl Hst Hn|a c t n l H0 Hrl Hn|a c t H0 Hid|a c t n l H0 Hst Hrl Hn|a c t p H0 Hp
    |a c t p H0 Hb|a c t p pr H0 Hb Hpr]; unfold at_phase in H0;
    pose proof (idle_alive a t Hi) as Halive.
  - local_step Hi H0 Hm. by eapply (qlk_take _ _ _ _ _ _ q Hw (inv_qlk _ Hi) H0 Hm).
  - local_step Hi H0 Hm. by eapply (qlk_drop _ _ _ _ _ _ q Hw (inv_qlk _ Hi) H0 Hm).
  - pose proof (enq_moves a c t q l H0) as Hm. split; [by eapply who_moved|..].
    + by eapply (rl_moved _ _ _ _ _ _ Hw (inv_rl _ Hi) H0 Hm).
    + eapply (qlk_moved _ _ _ _ _ _ Hw (inv_qlk _ Hi) H0 Hm); try done. intros q'. simpl.
      destruct (decide (q' = q)) as [->|]; [rewrite lookup_insert_eq; eauto|by rewrite lookup_insert_ne].
    + by eapply (blk_moved _ _ _ _ _ _ Hw (inv_blk _ Hi) H0 Hm).
    + by apply (enq_place a c).
    + by apply (enq_wait a c).
  - local_step Hi H0 Hm. eapply (blk_take _ _ _ _ _ _ t Hw (inv_blk _ Hi) H0 Hm); try done. by left.
  - local_step Hi H0 Hm. by eapply (qlk_drop _ _ _ _ _ _ q Hw (inv_qlk _ Hi) H0 Hm).
  - local_step Hi H0 Hm; [|eapply (blk_take _ _ _ _ _ _ t Hw (inv_blk _ Hi) H0 Hm); try done; by left].
    intros _. right; right. by exists c.
  - assert (Hst : ∀ u, u ≠ t → a_st (set_phase t BlkSt (set_st t ThreadStateBlocked a)) !! u = a_st a !! u)
      by (intros u Hne; simpl; by rewrite lookup_insert_ne).
    local_step Hi H0 Hm.
    + intros _. apply lookup_insert_eq.
    + intros _. simpl. by rewrite lookup_insert_eq.
    + eapply (blk_moved _ _ _ _ _ _ Hw (inv_blk _ Hi) H0 Hm); try done.
      intros u c' _ _. by apply (parked_moved _ _ _ _ _ u Hm Hst).
  - pose proof (deq_moves a c t q u l H0) as Hm. split; [by eapply who_moved|..].
    + by eapply (rl_moved _ _ _ _ _ _ Hw (inv_rl _ Hi) H0 Hm).
    + eapply (qlk_moved _ _ _ _ _ _ Hw (inv_qlk _ Hi) H0 Hm); try done. intros q'. simpl.
      destruct (decide (q' = q)) as [->|]; [rewrite lookup_insert_eq; eauto|by rewrite lookup_insert_ne].
    + by eapply (blk_moved _ _ _ _ _ _ Hw (inv_blk _ Hi) H0 Hm).
    + by apply (deq_place a c t q u l).
    + by apply (deq_wait a c t q u l).
  - local_step Hi H0 Hm. eapply (blk_take _ _ _ _ _ _ u Hw (inv_blk _ Hi) H0 Hm); try done. by right.
  - pose proof (mkr_moves a c t q u H0) as Hm. split; [by eapply who_moved|..].
    + by eapply (rl_moved _ _ _ _ _ _ Hw (inv_rl _ Hi) H0 Hm).
    + by eapply (qlk_moved _ _ _ _ _ _ Hw (inv_qlk _ Hi) H0 Hm).
    + eapply (blk_moved _ _ _ _ _ _ Hw (inv_blk _ Hi) H0 Hm); try done.
      intros w c' Hc Hw' [Hs Hr]. split; [|by rewrite (running_moved _ _ _ _ _ _ Hm)].
      simpl. rewrite lookup_insert_ne; [done|]. intros ->. apply Hc.
      pose proof (i_their _ (inv_blk _ Hi) _ _ _ w H0 eq_refl). congruence.
    + by apply (mkr_place a c t q u).
    + by apply (mkr_wait a c t q u).
  - local_step Hi H0 Hm. eapply (blk_drop _ _ _ _ _ _ u Hw (inv_blk _ Hi) H0 Hm); try done; [by left|].
    by eapply (i_their _ (inv_blk _ Hi)).
  - assert (Hnw : ¬ waiting a t).
    { intros Hwt. by destruct (running_waiting _ _ _ _ Hw (inv_wait _ Hi) H0 Hwt) as [[]|]. }
    eapply (sw_inv a _ c t n Normal _ l Hi H0 Hrl); try done; try exact Hn; simpl.
    + destruct (decide _) as [|Hid]; [by left|right]. split_and!; try done; [|apply lookup_insert_eq].
      intros [c' Hc']. pose proof (i_idle_cpu _ Hw _ _ _ Hc' (on_cur _ _ _ _ H0)). by subst c'.
    + destruct (decide _) as [|Hid]; [right; right; left; by exists c|left].
      apply elem_of_app. right. by apply list_elem_of_singleton.
    + intros _. by rewrite lookup_insert_eq.
    + intros u Hne. by rewrite lookup_insert_ne.
  - eapply (sw_inv a _ c t n BlkSt _ l Hi H0 Hrl); try done; try exact Hn; simpl.
    + by left.
    + destruct (i_blocking _ (inv_wait _ Hi) _ _ _ H0 eq_refl); auto.
    + intros _. by eapply (i_blocked _ (inv_wait _ Hi)).
    + intros _. by eapply (i_blocked _ (inv_wait _ Hi)).
  - set (a' := set_st t ThreadStateDying a).
    assert (Hst : ∀ u, u ≠ t → a_st a' !! u = a_st a !! u) by (intros u Hne; simpl; by rewrite lookup_insert_ne).
    assert (Hm : moves a a' c t Normal).
    { split; [by eapply on_cur|split; [done|]]. simpl. symmetry. apply insert_id.
      unfold on in H0. destruct (a_cur a !! c) as [w|]; [|done]. cbn in H0.
      destruct (a_phase a !! w) eqn:E; cbn in H0; congruence. }
    eapply (inv_moved _ _ _ _ _ _ Hi H0 Hm); try done;
      [by eapply (rl_moved _ _ _ _ _ _ Hw (inv_rl _ Hi) H0 Hm)|by eapply (qlk_moved _ _ _ _ _ _ Hw (inv_qlk _ Hi) H0 Hm)|].
    eapply (blk_moved _ _ _ _ _ _ Hw (inv_blk _ Hi) H0 Hm); try done.
    intros u c' _ _. by apply (parked_moved _ _ _ _ _ u Hm Hst).
  - assert (Hnw : ¬ waiting a t).
    { intros Hwt. by destruct (running_waiting _ _ _ _ Hw (inv_wait _ Hi) H0 Hwt) as [[]|]. }
    eapply (sw_inv a _ c t n Normal _ l Hi H0 Hrl); try done; try exact Hn; simpl; auto.
  - local_step Hi H0 Hm.
    + destruct (inv_rl _ Hi) as [R1 R2]. split.
      * intros c'. simpl. split; [done|]. intros [u Hu]. destruct (decide (c' = c)) as [->|Hne].
        -- by rewrite (on_moved _ _ _ _ _ Hm) in Hu.
        -- rewrite (on_other _ _ _ _ _ c' Hw Hm Hne) in Hu. destruct Hne.
           assert (a_rl a = Some c') by (apply R1; eauto). assert (a_rl a = Some c) by (apply R1; eauto). congruence.
      * intros c' u. destruct (decide (c' = c)) as [->|Hne]; [by rewrite (on_moved _ _ _ _ _ Hm)|].
        rewrite (on_other _ _ _ _ _ c' Hw Hm Hne). apply R2.
    + by eapply (blk_release_ready _ _ _ _ _ Hw (inv_blk _ Hi) H0 Hp Hm).
  - local_step Hi H0 Hm. eapply (blk_drop _ _ _ _ _ _ p Hw (inv_blk _ Hi) H0 Hm); try done. by right.
  - local_step Hi H0 Hm; [|by eapply (blk_release_none _ _ _ _ _ Hw (inv_blk _ Hi) H0 Hb Hm)].
    destruct (inv_rl _ Hi) as [R1 R2].
    assert (Hon : ∀ c' u, on (set_phase t Normal (set_prev pr a)) c' = Some (u, Switch) ↔ on a c' = Some (u, Switch)).
    { intros c' u. destruct (decide (c' = c)) as [->|Hne]; [rewrite (on_moved _ _ _ _ _ Hm), H0; naive_solver|].
      by rewrite (on_other _ _ _ _ _ c' Hw Hm Hne). }
    split.
    + intros c'. simpl. rewrite R1. by setoid_rewrite Hon.
    + intros c' u. rewrite Hon. intros Hu. simpl. rewrite Hpr; [by eapply R2|]. intros ->. congruence.
Qed.
End Machine.
