(* ===== verification/Sched.v ===== *)
(** HAL9000/src/thread.c, mutex.c, ex_event.c: threads, mutexes and executive events on
    several CPUs.

    Every thread has a stack of frames, each a position in one of the functions below; a
    CPU executes the topmost frame of its current thread up to the next point where other
    CPUs can interfere. ThreadSwitch makes another thread, with its own stack, the current
    one. Threads, CPUs, mutexes and events are numbered. A LOCK is the CPU that holds it
    (Spinlock.v, SpinlockSteps.v), a list of threads the sequence of its elements
    (ListEntry.v). Log output, the statistics of core.c and the change of the address space
    (mmu.c) are left out. *)
From S2P Require Import Prelude SchedSpec.

Definition THREAD_TIME_SLICE : Z := 1.
Definition THREAD_FLAG_FORCE_TERMINATE_PENDING : Z := 0x1.
Definition THREAD_FLAG_FORCE_TERMINATED : Z := 0x2.

Inductive EX_EVT_TYPE := ExEventTypeNotification | ExEventTypeSynchronization | ExEventTypeReserved.
#[export] Instance EX_EVT_TYPE_eq_dec : EqDecision EX_EVT_TYPE.
Proof. solve_decision. Defined.

(** * Positions in the functions *)
Inductive yield_pc := Y_enter | Y_lock (oldState bForcedYield : bool) | Y_return (oldState : bool).
Inductive cleanup_pc := C_enter | C_previous (prevThread : nat).
Inductive block_pc := B_enter | B_lock | B_return.
Inductive unblock_pc :=
  | U_lock | U_check (oldState : bool) | U_ready (oldState : bool) | U_unlock (oldState : bool).
Inductive acquire_pc :=
  | A_enter | A_lock (oldState : bool) | A_loop (oldState dummyState : bool)
  | A_unlock (oldState dummyState : bool) | A_again (oldState : bool).
Inductive release_pc := R_enter | R_lock | R_unlock (oldState : bool).
Inductive signal_pc := G_lock | G_next (oldState : bool) | G_woken (oldState : bool).
Inductive wait_pc :=
  | W_enter | W_try (oldState : bool) | W_lock (oldState : bool)
  | W_unlock (oldState dummyState : bool) | W_woken (oldState : bool).
Inductive exit_pc := X_enter (ExitStatus : Z) | X_notify | X_schedule | X_return.
Inductive idle_pc := I_loop | I_take | I_halt.
Inductive interrupt_pc := T_tick | T_return.
Inductive start_pc := S_cleanup | S_iretq.

(** [Run held] is the code of the thread itself, with the mutexes it has acquired. *)
Inductive frame :=
  | Run (held : list nat)
  | ThreadYieldAt (p : yield_pc)
  | ThreadScheduleAt
  | ThreadCleanupAt (p : cleanup_pc)
  | ThreadTakeBlockLockAt
  | ThreadBlockAt (p : block_pc)
  | ThreadUnblockAt (Thread : nat) (p : unblock_pc)
  | MutexAcquireAt (Mutex : nat) (p : acquire_pc)
  | MutexReleaseAt (Mutex : nat) (p : release_pc)
  | ExEventSignalAt (Event : nat) (p : signal_pc)
  | ExEventClearSignalAt (Event : nat)
  | ExEventWaitForSignalAt (Event : nat) (p : wait_pc)
  | ThreadExitAt (p : exit_pc)
  | IdleThreadAt (p : idle_pc)
  | InterruptAt (p : interrupt_pc)
  | ThreadStartAt (p : start_pc).

#[export] Instance yield_pc_eq_dec : EqDecision yield_pc. Proof. solve_decision. Defined.
#[export] Instance cleanup_pc_eq_dec : EqDecision cleanup_pc. Proof. solve_decision. Defined.
#[export] Instance block_pc_eq_dec : EqDecision block_pc. Proof. solve_decision. Defined.
#[export] Instance unblock_pc_eq_dec : EqDecision unblock_pc. Proof. solve_decision. Defined.
#[export] Instance acquire_pc_eq_dec : EqDecision acquire_pc. Proof. solve_decision. Defined.
#[export] Instance release_pc_eq_dec : EqDecision release_pc. Proof. solve_decision. Defined.
#[export] Instance signal_pc_eq_dec : EqDecision signal_pc. Proof. solve_decision. Defined.
#[export] Instance wait_pc_eq_dec : EqDecision wait_pc. Proof. solve_decision. Defined.
#[export] Instance exit_pc_eq_dec : EqDecision exit_pc. Proof. solve_decision. Defined.
#[export] Instance idle_pc_eq_dec : EqDecision idle_pc. Proof. solve_decision. Defined.
#[export] Instance interrupt_pc_eq_dec : EqDecision interrupt_pc. Proof. solve_decision. Defined.
#[export] Instance start_pc_eq_dec : EqDecision start_pc. Proof. solve_decision. Defined.
#[export] Instance frame_eq_dec : EqDecision frame. Proof. solve_decision. Defined.

(** * State *)
Record THREAD := mkThread {
  State : THREAD_STATE;
  ExitStatus : Z;
  TerminationEvt : nat;
  Flags : Z;
  BlockLock : option nat;
  TickCountCompleted : Z;
  UninterruptedTicks : Z;
  TickCountEarly : Z;
  RefCnt : Z;
  Process : nat;
  Stack : list frame
}.
(** The THREADING_DATA of a PCPU, and the interrupt flag. *)
Record CPU := mkCpu {
  RunningThreadTicks : Z;
  IdleThread : nat;
  CurrentThread : nat;
  PreviousThread : option nat;
  YieldOnInterruptReturn : bool;
  IdleTicks : Z;
  KernelTicks : Z;
  Intr : bool
}.
Record MUTEX := mkMutex {
  MutexLock : option nat;
  CurrentRecursivityDepth : Z;
  MaxRecursivityDepth : Z;
  WaitingList : list nat;
  Holder : option nat
}.
Record EX_EVENT := mkEvent {
  EventLock : option nat;
  EventWaitingList : list nat;
  EventType : EX_EVT_TYPE;
  Signaled : bool
}.
Record PROCESS := mkProcess { ActiveThreads : Z; TerminationStatus : Z; ProcessTerminationEvt : nat }.
(** A mutex or an event: what a thread can wait for. *)
Inductive waitable := SMutex (m : MUTEX) | SEvent (e : EX_EVENT).
Definition w_lock (w : waitable) : option nat :=
  match w with SMutex m => MutexLock m | SEvent e => EventLock e end.
Definition w_list (w : waitable) : list nat :=
  match w with SMutex m => WaitingList m | SEvent e => EventWaitingList e end.

Record SYS := mkSys {
  threads : gmap nat THREAD;
  cpus : gmap nat CPU;
  objects : gmap nat waitable;
  processes : gmap nat PROCESS;
  ReadyThreadsLock : option nat;
  ReadyThreadsList : list nat
}.

(** ** Fields *)
Definition with_State v (t : THREAD) := mkThread v (ExitStatus t) (TerminationEvt t) (Flags t) (BlockLock t)
  (TickCountCompleted t) (UninterruptedTicks t) (TickCountEarly t) (RefCnt t) (Process t) (Stack t).
Definition with_ExitStatus v (t : THREAD) := mkThread (State t) v (TerminationEvt t) (Flags t) (BlockLock t)
  (TickCountCompleted t) (UninterruptedTicks t) (TickCountEarly t) (RefCnt t) (Process t) (Stack t).
Definition with_Flags v (t : THREAD) := mkThread (State t) (ExitStatus t) (TerminationEvt t) v (BlockLock t)
  (TickCountCompleted t) (UninterruptedTicks t) (TickCountEarly t) (RefCnt t) (Process t) (Stack t).
Definition with_BlockLock v (t : THREAD) := mkThread (State t) (ExitStatus t) (TerminationEvt t) (Flags t) v
  (TickCountCompleted t) (UninterruptedTicks t) (TickCountEarly t) (RefCnt t) (Process t) (Stack t).
Definition with_Completed v (t : THREAD) := mkThread (State t) (ExitStatus t) (TerminationEvt t) (Flags t) (BlockLock t)
  v (UninterruptedTicks t) (TickCountEarly t) (RefCnt t) (Process t) (Stack t).
Definition with_Uninterrupted v (t : THREAD) := mkThread (State t) (ExitStatus t) (TerminationEvt t) (Flags t) (BlockLock t)
  (TickCountCompleted t) v (TickCountEarly t) (RefCnt t) (Process t) (Stack t).
Definition with_Early v (t : THREAD) := mkThread (State t) (ExitStatus t) (TerminationEvt t) (Flags t) (BlockLock t)
  (TickCountCompleted t) (UninterruptedTicks t) v (RefCnt t) (Process t) (Stack t).
Definition with_RefCnt v (t : THREAD) := mkThread (State t) (ExitStatus t) (TerminationEvt t) (Flags t) (BlockLock t)
  (TickCountCompleted t) (UninterruptedTicks t) (TickCountEarly t) v (Process t) (Stack t).
Definition with_Stack v (t : THREAD) := mkThread (State t) (ExitStatus t) (TerminationEvt t) (Flags t) (BlockLock t)
  (TickCountCompleted t) (UninterruptedTicks t) (TickCountEarly t) (RefCnt t) (Process t) v.

Definition with_Intr v (c : CPU) := mkCpu (RunningThreadTicks c) (IdleThread c) (CurrentThread c) (PreviousThread c)
  (YieldOnInterruptReturn c) (IdleTicks c) (KernelTicks c) v.
Definition with_Current v (c : CPU) := mkCpu (RunningThreadTicks c) (IdleThread c) v (PreviousThread c)
  (YieldOnInterruptReturn c) (IdleTicks c) (KernelTicks c) (Intr c).
Definition with_Previous v (c : CPU) := mkCpu (RunningThreadTicks c) (IdleThread c) (CurrentThread c) v
  (YieldOnInterruptReturn c) (IdleTicks c) (KernelTicks c) (Intr c).
Definition with_Yield v (c : CPU) := mkCpu (RunningThreadTicks c) (IdleThread c) (CurrentThread c) (PreviousThread c)
  v (IdleTicks c) (KernelTicks c) (Intr c).
Definition with_Running v (c : CPU) := mkCpu v (IdleThread c) (CurrentThread c) (PreviousThread c)
  (YieldOnInterruptReturn c) (IdleTicks c) (KernelTicks c) (Intr c).
Definition with_IdleTicks v (c : CPU) := mkCpu (RunningThreadTicks c) (IdleThread c) (CurrentThread c) (PreviousThread c)
  (YieldOnInterruptReturn c) v (KernelTicks c) (Intr c).
Definition with_KernelTicks v (c : CPU) := mkCpu (RunningThreadTicks c) (IdleThread c) (CurrentThread c) (PreviousThread c)
  (YieldOnInterruptReturn c) (IdleTicks c) v (Intr c).

Definition with_w_lock v (w : waitable) : waitable :=
  match w with
  | SMutex m => SMutex (mkMutex v (CurrentRecursivityDepth m) (MaxRecursivityDepth m) (WaitingList m) (Holder m))
  | SEvent e => SEvent (mkEvent v (EventWaitingList e) (EventType e) (Signaled e))
  end.
Definition with_w_list v (w : waitable) : waitable :=
  match w with
  | SMutex m => SMutex (mkMutex (MutexLock m) (CurrentRecursivityDepth m) (MaxRecursivityDepth m) v (Holder m))
  | SEvent e => SEvent (mkEvent (EventLock e) v (EventType e) (Signaled e))
  end.
Definition with_Holder h d (m : MUTEX) : MUTEX :=
  mkMutex (MutexLock m) d (MaxRecursivityDepth m) (WaitingList m) h.
Definition with_Signaled v (e : EX_EVENT) : EX_EVENT :=
  mkEvent (EventLock e) (EventWaitingList e) (EventType e) v.

Definition set_threads v (s : SYS) := mkSys v (cpus s) (objects s) (processes s) (ReadyThreadsLock s) (ReadyThreadsList s).
Definition set_cpus v (s : SYS) := mkSys (threads s) v (objects s) (processes s) (ReadyThreadsLock s) (ReadyThreadsList s).
Definition set_objects v (s : SYS) := mkSys (threads s) (cpus s) v (processes s) (ReadyThreadsLock s) (ReadyThreadsList s).
Definition set_processes v (s : SYS) := mkSys (threads s) (cpus s) (objects s) v (ReadyThreadsLock s) (ReadyThreadsList s).
Definition set_ready_lock v (s : SYS) := mkSys (threads s) (cpus s) (objects s) (processes s) v (ReadyThreadsList s).
Definition set_ready_list v (s : SYS) := mkSys (threads s) (cpus s) (objects s) (processes s) (ReadyThreadsLock s) v.

(** ** Access *)
Definition thread (t : nat) : M SYS THREAD := s ← get; from_option_fault (threads s !! t).
Definition cpu (c : nat) : M SYS CPU := s ← get; from_option_fault (cpus s !! c).
Definition object (q : nat) : M SYS waitable := s ← get; from_option_fault (objects s !! q).
Definition process (p : nat) : M SYS PROCESS := s ← get; from_option_fault (processes s !! p).
Definition upd_thread (t : nat) (f : THREAD → THREAD) : M SYS unit :=
  modify (λ s, set_threads (alter f t (threads s)) s).
Definition upd_cpu (c : nat) (f : CPU → CPU) : M SYS unit := modify (λ s, set_cpus (alter f c (cpus s)) s).
Definition upd_object (q : nat) (f : waitable → waitable) : M SYS unit :=
  modify (λ s, set_objects (alter f q (objects s)) s).
(** A pointer to a mutex or to an event. *)
Definition mutex (q : nat) : M SYS MUTEX :=
  w ← object q; match w with SMutex m => mret m | SEvent _ => fault end.
Definition event (q : nat) : M SYS EX_EVENT :=
  w ← object q; match w with SEvent e => mret e | SMutex _ => fault end.
Definition put_mutex (q : nat) (m : MUTEX) : M SYS unit := upd_object q (λ _, SMutex m).
Definition put_event (q : nat) (e : EX_EVENT) : M SYS unit := upd_object q (λ _, SEvent e).

Definition inc64 (v : Z) : Z := u64 (v + 1).

(** * Locks and interrupts *)
Inductive LOCK := L_ready | L_block (t : nat) | L_queue (q : nat).
Definition lock_holder (l : LOCK) : M SYS (option nat) :=
  match l with
  | L_ready => gets ReadyThreadsLock
  | L_block t => th ← thread t; mret (BlockLock th)
  | L_queue q => w ← object q; mret (w_lock w)
  end.
Definition set_lock (l : LOCK) (v : option nat) : M SYS unit :=
  match l with
  | L_ready => modify (set_ready_lock v)
  | L_block t => upd_thread t (with_BlockLock v)
  | L_queue q => upd_object q (with_w_lock v)
  end.

Section Code.
(** The CPU that runs the code. *)
Variable c : nat.

Definition CpuIntrGetState : M SYS bool := k ← cpu c; mret (Intr k).
Definition CpuIntrSetState (b : bool) : M SYS bool :=
  k ← cpu c; upd_cpu c (with_Intr b);; mret (Intr k).
Definition CpuIntrDisable : M SYS bool := CpuIntrSetState false.

Definition LockIsOwner (l : LOCK) : M SYS bool := h ← lock_holder l; mret (bool_decide (h = Some c)).
(** Take the lock and go on with the old interrupt state, or stay at the frame [f]. *)
Definition LockAcquire (l : LOCK) (f : frame) (k : bool → M SYS (list frame)) : M SYS (list frame) :=
  own ← LockIsOwner l;
  ASSERT (negb own);;
  h ← lock_holder l;
  match h with
  | Some _ => mret [f]
  | None => set_lock l (Some c);; old ← CpuIntrDisable; k old
  end.
Definition LockRelease (l : LOCK) (OldIntrState : bool) : M SYS unit :=
  own ← LockIsOwner l;
  ASSERT own;;
  i ← CpuIntrGetState;
  ASSERT (negb i);;
  set_lock l None;;
  CpuIntrSetState OldIntrState;; mret tt.

Definition GetCurrentThread : M SYS nat := k ← cpu c; mret (CurrentThread k).

(** * thread.c *)
Definition ThreadTick : M SYS unit :=
  k ← cpu c;
  i ← CpuIntrGetState;
  ASSERT (negb i);;
  (if bool_decide (IdleThread k = CurrentThread k)
   then upd_cpu c (with_IdleTicks (inc64 (IdleTicks k)))
   else upd_cpu c (with_KernelTicks (inc64 (KernelTicks k))));;
  th ← thread (CurrentThread k);
  upd_thread (CurrentThread k) (with_Completed (inc64 (TickCountCompleted th)));;
  let ticks := u32 (RunningThreadTicks k + 1) in
  upd_cpu c (with_Running ticks);;
  if THREAD_TIME_SLICE <=? ticks then upd_cpu c (with_Yield true) else mret tt.
Definition ThreadYieldOnInterrupt : M SYS bool := k ← cpu c; mret (YieldOnInterruptReturn k).
(** isr.c, around the tick of the timer: the thread is interrupted, yields when its time
    is over, and returns. *)
Definition Interrupt (p : interrupt_pc) : M SYS (list frame) :=
  match p with
  | T_tick =>
      CpuIntrDisable;; ThreadTick;;
      y ← ThreadYieldOnInterrupt;
      mret (if (y : bool) then [ThreadYieldAt Y_enter; InterruptAt T_return] else [InterruptAt T_return])
  | T_return => CpuIntrSetState true;; mret []
  end.

Definition _ThreadGetReadyThread : M SYS nat :=
  i ← CpuIntrGetState;
  ASSERT (negb i);;
  own ← LockIsOwner L_ready;
  ASSERT own;;
  l ← gets ReadyThreadsList;
  match l with
  | [] => k ← cpu c; mret (IdleThread k)
  | t :: l' =>
      modify (set_ready_list l');;
      th ← thread t;
      ASSERT (bool_decide (State th = ThreadStateReady));;
      mret t
  end.

(** Up to ThreadSwitch: from then on the CPU executes the next thread. *)
Definition _ThreadSchedule : M SYS (list frame) :=
  i ← CpuIntrGetState;
  ASSERT (negb i);;
  own ← LockIsOwner L_ready;
  ASSERT own;;
  pCurrentThread ← GetCurrentThread;
  upd_cpu c (with_Previous (Some pCurrentThread));;
  pNextThread ← _ThreadGetReadyThread;
  th ← thread pCurrentThread;
  if negb (bool_decide (pNextThread = pCurrentThread)) then
    upd_thread pCurrentThread (with_Uninterrupted 0);;
    upd_cpu c (with_Current pNextThread);;
    mret [ThreadScheduleAt]
  else
    upd_thread pCurrentThread (with_Uninterrupted (inc64 (UninterruptedTicks th)));;
    mret [ThreadCleanupAt C_enter].
(** Behind ThreadSwitch. *)
Definition _ThreadSchedule_switched : M SYS (list frame) :=
  i ← CpuIntrGetState;
  ASSERT (negb i);;
  own ← LockIsOwner L_ready;
  ASSERT own;;
  mret [ThreadCleanupAt C_enter].

(** The count of RfcDereference (RefCnt.v); _ThreadDestroy, which it calls at 0, is not part
    of this model. *)
Definition _ThreadDereference (t : nat) : M SYS unit :=
  th ← thread t; upd_thread t (with_RefCnt (u32 (RefCnt th - 1))).

Definition ThreadCleanupPostSchedule (p : cleanup_pc) : M SYS (list frame) :=
  match p with
  | C_enter =>
      i ← CpuIntrGetState;
      ASSERT (negb i);;
      upd_cpu c (with_Running 0);;
      k ← cpu c;
      LockRelease L_ready false;;
      mret match PreviousThread k with
           | Some prevThread => [ThreadCleanupAt (C_previous prevThread)]
           | None => []
           end
  | C_previous prevThread =>
      own ← LockIsOwner (L_block prevThread);
      th ← thread prevThread;
      k ← cpu c;
      if (own : bool) then
        ASSERT (bool_decide (State th = ThreadStateBlocked) || bool_decide (prevThread = IdleThread k));;
        LockRelease (L_block prevThread) false;;
        mret []
      else if bool_decide (State th = ThreadStateDying) then
        _ThreadDereference prevThread;;
        upd_cpu c (with_Previous None);;
        mret []
      else mret []
  end.

(** _thread.yasm: where a new thread begins when it is first switched to. *)
Definition ThreadStart (p : start_pc) : M SYS (list frame) :=
  match p with
  | S_cleanup => mret [ThreadCleanupAt C_enter; ThreadStartAt S_iretq]
  | S_iretq => CpuIntrSetState true;; mret []
  end.

(** [_InterlockedAnd(&Flags, MAX_DWORD)] reads the flags. *)
Definition terminate_pending (th : THREAD) : bool :=
  THREAD_FLAG_FORCE_TERMINATE_PENDING =? Z.land (Flags th) MAX_DWORD.
Definition STATUS_FORCED : Z := STATUS_JOB_INTERRUPTED.
Definition _ThreadForcedExit (t : nat) : M SYS (list frame) :=
  th ← thread t;
  upd_thread t (with_Flags (Z.lor (Flags th) THREAD_FLAG_FORCE_TERMINATED));;
  mret [ThreadExitAt (X_enter STATUS_FORCED)].

Definition ThreadYield (t : nat) (p : yield_pc) : M SYS (list frame) :=
  match p with
  | Y_enter =>
      oldState ← CpuIntrDisable;
      k ← cpu c;
      upd_cpu c (with_Yield false);;
      th ← thread t;
      if terminate_pending th then _ThreadForcedExit t
      else mret [ThreadYieldAt (Y_lock oldState (YieldOnInterruptReturn k))]
  | Y_lock oldState bForcedYield =>
      LockAcquire L_ready (ThreadYieldAt (Y_lock oldState bForcedYield)) (λ _,
        k ← cpu c;
        l ← gets ReadyThreadsList;
        (if negb (bool_decide (t = IdleThread k)) then modify (set_ready_list (l ++ [t])) else mret tt);;
        th ← thread t;
        (if negb bForcedYield then upd_thread t (with_Early (inc64 (TickCountEarly th))) else mret tt);;
        upd_thread t (with_State ThreadStateReady);;
        fs ← _ThreadSchedule;
        mret (fs ++ [ThreadYieldAt (Y_return oldState)]))
  | Y_return oldState =>
      own ← LockIsOwner L_ready;
      ASSERT (negb own);;
      CpuIntrSetState oldState;;
      mret []
  end.

Definition ThreadTakeBlockLock (t : nat) : M SYS (list frame) :=
  LockAcquire (L_block t) ThreadTakeBlockLockAt (λ _, mret []).

Definition ThreadBlock (t : nat) (p : block_pc) : M SYS (list frame) :=
  match p with
  | B_enter =>
      i ← CpuIntrGetState;
      ASSERT (negb i);;
      own ← LockIsOwner (L_block t);
      ASSERT own;;
      th ← thread t;
      if terminate_pending th then _ThreadForcedExit t
      else
        upd_thread t (with_Early (inc64 (TickCountEarly th)));;
        upd_thread t (with_State ThreadStateBlocked);;
        mret [ThreadBlockAt B_lock]
  | B_lock =>
      LockAcquire L_ready (ThreadBlockAt B_lock) (λ _,
        fs ← _ThreadSchedule;
        mret (fs ++ [ThreadBlockAt B_return]))
  | B_return =>
      own ← LockIsOwner L_ready;
      ASSERT (negb own);;
      mret []
  end.

Definition ThreadUnblock (Thread : nat) (p : unblock_pc) : M SYS (list frame) :=
  match p with
  | U_lock =>
      LockAcquire (L_block Thread) (ThreadUnblockAt Thread U_lock) (λ oldState,
        mret [ThreadUnblockAt Thread (U_check oldState)])
  | U_check oldState =>
      th ← thread Thread;
      ASSERT (bool_decide (State th = ThreadStateBlocked));;
      mret [ThreadUnblockAt Thread (U_ready oldState)]
  | U_ready oldState =>
      LockAcquire L_ready (ThreadUnblockAt Thread (U_ready oldState)) (λ dummyState,
        l ← gets ReadyThreadsList;
        modify (set_ready_list (l ++ [Thread]));;
        upd_thread Thread (with_State ThreadStateReady);;
        LockRelease L_ready dummyState;;
        mret [ThreadUnblockAt Thread (U_unlock oldState)])
  | U_unlock oldState => LockRelease (L_block Thread) oldState;; mret []
  end.

(** process.c *)
Definition ProcessNotifyThreadTermination (t : nat) : M SYS (list frame) :=
  th ← thread t;
  p ← process (Process th);
  let activeThreads := u32 (ActiveThreads p - 1) in
  (if activeThreads =? 0 then
     modify (λ s, set_processes (<[Process th :=
       mkProcess activeThreads (ExitStatus th) (ProcessTerminationEvt p)]> (processes s)) s);;
     mret [ExEventSignalAt (ProcessTerminationEvt p) G_lock]
   else
     modify (λ s, set_processes (<[Process th :=
       mkProcess activeThreads (TerminationStatus p) (ProcessTerminationEvt p)]> (processes s)) s);;
     mret []).

Definition ThreadExit (t : nat) (p : exit_pc) : M SYS (list frame) :=
  match p with
  | X_enter status =>
      CpuIntrDisable;;
      own ← LockIsOwner (L_block t);
      (if (own : bool) then LockRelease (L_block t) false else mret tt);;
      upd_thread t (with_State ThreadStateDying);;
      upd_thread t (with_ExitStatus status);;
      th ← thread t;
      mret [ExEventSignalAt (TerminationEvt th) G_lock; ThreadExitAt X_notify]
  | X_notify => fs ← ProcessNotifyThreadTermination t; mret (fs ++ [ThreadExitAt X_schedule])
  | X_schedule =>
      LockAcquire L_ready (ThreadExitAt X_schedule) (λ _,
        fs ← _ThreadSchedule;
        mret (fs ++ [ThreadExitAt X_return]))
  | X_return => ASSERT false;; mret []
  end.

(** The loop of _IdleThread, with ThreadTakeBlockLock in line. *)
Definition _IdleThread (t : nat) (p : idle_pc) : M SYS (list frame) :=
  match p with
  | I_loop => CpuIntrDisable;; mret [IdleThreadAt I_take]
  | I_take =>
      LockAcquire (L_block t) (IdleThreadAt I_take) (λ _, mret [ThreadBlockAt B_enter; IdleThreadAt I_halt])
  | I_halt => CpuIntrSetState true;; mret []
  end.

(** * mutex.c *)
Definition MUTEX_MAX_RECURSIVITY_DEPTH : Z := MAX_BYTE.
(** What MutexInit writes to a mutex that is not NULL. *)
Definition MutexInit (Recursive : bool) : MUTEX :=
  mkMutex None 0 (if Recursive then MUTEX_MAX_RECURSIVITY_DEPTH else 1) [] None.

Definition MutexAcquire (t m : nat) (p : acquire_pc) : M SYS (list frame) :=
  match p with
  | A_enter =>
      x ← mutex m;
      if bool_decide (Some t = Holder x) then
        ASSERT (CurrentRecursivityDepth x <? MaxRecursivityDepth x);;
        put_mutex m (with_Holder (Holder x) (u8 (CurrentRecursivityDepth x + 1)) x);;
        mret []
      else
        oldState ← CpuIntrDisable;
        mret [MutexAcquireAt m (A_lock oldState)]
  | A_lock oldState =>
      LockAcquire (L_queue m) (MutexAcquireAt m (A_lock oldState)) (λ dummyState,
        x ← mutex m;
        (if bool_decide (Holder x = None) then put_mutex m (with_Holder (Some t) 1 x) else mret tt);;
        mret [MutexAcquireAt m (A_loop oldState dummyState)])
  | A_loop oldState dummyState =>
      x ← mutex m;
      if negb (bool_decide (Holder x = Some t)) then
        upd_object m (with_w_list (WaitingList x ++ [t]));;
        mret [ThreadTakeBlockLockAt; MutexAcquireAt m (A_unlock oldState dummyState)]
      else
        LockRelease (L_queue m) dummyState;;
        CpuIntrSetState oldState;;
        mret []
  | A_unlock oldState dummyState =>
      LockRelease (L_queue m) dummyState;;
      mret [ThreadBlockAt B_enter; MutexAcquireAt m (A_again oldState)]
  | A_again oldState =>
      LockAcquire (L_queue m) (MutexAcquireAt m (A_again oldState)) (λ dummyState,
        mret [MutexAcquireAt m (A_loop oldState dummyState)])
  end.

Definition MutexRelease (t m : nat) (p : release_pc) : M SYS (list frame) :=
  match p with
  | R_enter =>
      x ← mutex m;
      ASSERT (bool_decide (Some t = Holder x));;
      if 1 <? CurrentRecursivityDepth x then
        put_mutex m (with_Holder (Holder x) (u8 (CurrentRecursivityDepth x - 1)) x);;
        mret []
      else mret [MutexReleaseAt m R_lock]
  | R_lock =>
      LockAcquire (L_queue m) (MutexReleaseAt m R_lock) (λ oldState,
        x ← mutex m;
        match WaitingList x with
        | pThread :: l =>
            upd_object m (with_w_list l);;
            y ← mutex m;
            put_mutex m (with_Holder (Some pThread) 1 y);;
            mret [ThreadUnblockAt pThread U_lock; MutexReleaseAt m (R_unlock oldState)]
        | [] =>
            put_mutex m (with_Holder None (CurrentRecursivityDepth x) x);;
            mret [MutexReleaseAt m (R_unlock oldState)]
        end)
  | R_unlock oldState => LockRelease (L_queue m) oldState;; mret []
  end.

(** * ex_event.c *)
(** [Event] is [None] for NULL; the status and the event. *)
Definition ExEventInit (Event : option EX_EVENT) (Type_ : EX_EVT_TYPE) (Signaled_ : bool) : Z * option EX_EVENT :=
  match Event, Type_ with
  | None, _ => (STATUS_INVALID_PARAMETER1, None)
  | Some e, ExEventTypeReserved => (STATUS_INVALID_PARAMETER2, Some e)
  | Some _, _ => (STATUS_SUCCESS, Some (mkEvent None [] Type_ Signaled_))
  end.

Definition ExEventSignal (e : nat) (p : signal_pc) : M SYS (list frame) :=
  match p with
  | G_lock =>
      LockAcquire (L_queue e) (ExEventSignalAt e G_lock) (λ oldState,
        x ← event e;
        put_event e (with_Signaled true x);;
        mret [ExEventSignalAt e (G_next oldState)])
  | G_next oldState =>
      x ← event e;
      match EventWaitingList x with
      | pThreadToSignal :: l =>
          upd_object e (with_w_list l);;
          mret [ThreadUnblockAt pThreadToSignal U_lock; ExEventSignalAt e (G_woken oldState)]
      | [] => LockRelease (L_queue e) oldState;; mret []
      end
  | G_woken oldState =>
      x ← event e;
      if bool_decide (EventType x = ExEventTypeSynchronization) then
        LockRelease (L_queue e) oldState;; mret []
      else mret [ExEventSignalAt e (G_next oldState)]
  end.

Definition ExEventClearSignal (e : nat) : M SYS (list frame) :=
  x ← event e; put_event e (with_Signaled false x);; mret [].

Definition ExEventWaitForSignal (t e : nat) (p : wait_pc) : M SYS (list frame) :=
  match p with
  | W_enter => oldState ← CpuIntrDisable; mret [ExEventWaitForSignalAt e (W_try oldState)]
  | W_try oldState =>
      x ← event e;
      if Signaled x then
        put_event e (with_Signaled (bool_decide (EventType x = ExEventTypeNotification)) x);;
        CpuIntrSetState oldState;;
        mret []
      else mret [ExEventWaitForSignalAt e (W_lock oldState)]
  | W_lock oldState =>
      LockAcquire (L_queue e) (ExEventWaitForSignalAt e (W_lock oldState)) (λ dummyState,
        x ← event e;
        upd_object e (with_w_list (EventWaitingList x ++ [t]));;
        mret [ThreadTakeBlockLockAt; ExEventWaitForSignalAt e (W_unlock oldState dummyState)])
  | W_unlock oldState dummyState =>
      LockRelease (L_queue e) dummyState;;
      mret [ThreadBlockAt B_enter; ExEventWaitForSignalAt e (W_woken oldState)]
  | W_woken oldState =>
      x ← event e;
      if bool_decide (EventType x = ExEventTypeNotification) then CpuIntrSetState oldState;; mret []
      else mret [ExEventWaitForSignalAt e (W_try oldState)]
  end.

(** What the topmost frame of the thread [t] executes; the frames that replace it. *)
Definition code (t : nat) (f : frame) : M SYS (list frame) :=
  match f with
  | Run held => mret [Run held]
  | ThreadYieldAt p => ThreadYield t p
  | ThreadScheduleAt => _ThreadSchedule_switched
  | ThreadCleanupAt p => ThreadCleanupPostSchedule p
  | ThreadTakeBlockLockAt => ThreadTakeBlockLock t
  | ThreadBlockAt p => ThreadBlock t p
  | ThreadUnblockAt u p => ThreadUnblock u p
  | MutexAcquireAt m p => MutexAcquire t m p
  | MutexReleaseAt m p => MutexRelease t m p
  | ExEventSignalAt e p => ExEventSignal e p
  | ExEventClearSignalAt e => ExEventClearSignal e
  | ExEventWaitForSignalAt e p => ExEventWaitForSignal t e p
  | ThreadExitAt p => ThreadExit t p
  | IdleThreadAt p => _IdleThread t p
  | InterruptAt p => Interrupt p
  | ThreadStartAt p => ThreadStart p
  end.
End Code.

(** * Steps *)
Definition T (t : nat) (f : THREAD → THREAD) (s : SYS) : SYS := set_threads (alter f t (threads s)) s.
Definition C (c : nat) (f : CPU → CPU) (s : SYS) : SYS := set_cpus (alter f c (cpus s)) s.
Definition O (q : nat) (f : waitable → waitable) (s : SYS) : SYS := set_objects (alter f q (objects s)) s.

(** [t] runs on [c], with the stack [k]. *)
Definition runs (s : SYS) (c t : nat) (k : list frame) : Prop :=
  ∃ x th, cpus s !! c = Some x ∧ CurrentThread x = t ∧ threads s !! t = Some th ∧ Stack th = k.
Definition is_idle_thread (s : SYS) (t : nat) : Prop := ∃ c x, cpus s !! c = Some x ∧ IdleThread x = t.
Definition is_mutex (s : SYS) (q : nat) (m : MUTEX) : Prop := objects s !! q = Some (SMutex m).
Definition is_event (s : SYS) (q : nat) (e : EX_EVENT) : Prop := objects s !! q = Some (SEvent e).

Fixpoint remove1 (m : nat) (l : list nat) : list nat :=
  match l with [] => [] | x :: l' => if decide (x = m) then l' else x :: remove1 m l' end.
Definition count (m : nat) (l : list nat) : nat := length (filter (eq m) l).

(** The calls a thread may make: it releases what it holds, does not exceed the depth of a
    mutex; an idle thread neither waits nor exits. *)
Inductive call (s : SYS) (t : nat) (held : list nat) : list frame → Prop :=
  | call_yield : call s t held [ThreadYieldAt Y_enter; Run held]
  | call_acquire m x : is_mutex s m x → ¬ is_idle_thread s t → Z.of_nat (count m held) < MaxRecursivityDepth x →
      call s t held [MutexAcquireAt m A_enter; Run (m :: held)]
  | call_release m x : is_mutex s m x → m ∈ held → call s t held [MutexReleaseAt m R_enter; Run (remove1 m held)]
  | call_signal e x : is_event s e x → call s t held [ExEventSignalAt e G_lock; Run held]
  | call_clear e x : is_event s e x → call s t held [ExEventClearSignalAt e; Run held]
  | call_wait e x : is_event s e x → ¬ is_idle_thread s t → call s t held [ExEventWaitForSignalAt e W_enter; Run held]
  | call_exit v : ¬ is_idle_thread s t → call s t held [ThreadExitAt (X_enter v); Run held]
  | call_idle : is_idle_thread s t → call s t held [IdleThreadAt I_loop; Run held].

(** ThreadTerminate asks a thread to end: it ends when it calls ThreadYield or ThreadBlock the next
    time. *)
Definition ThreadTerminate (Thread : nat) : M SYS unit :=
  upd_thread Thread (λ th, with_Flags (Z.lor (Flags th) THREAD_FLAG_FORCE_TERMINATE_PENDING) th).
(** At this position the thread ends in ThreadBlock. *)
Definition forced_block (s : SYS) (t : nat) (f : frame) : Prop :=
  f = ThreadBlockAt B_enter ∧ ∃ th, threads s !! t = Some th ∧ terminate_pending th = true.
#[export] Instance forced_block_dec s t f : Decision (forced_block s t f).
Proof.
  unfold forced_block. destruct (threads s !! t) as [th|] eqn:Ht.
  - destruct (decide (f = ThreadBlockAt B_enter ∧ terminate_pending th = true)); [left|right]; naive_solver.
  - right. naive_solver.
Defined.

(** The steps: a CPU executes the topmost position of its thread, calls a function, is interrupted, or
    asks a thread to end, which is none of the idle threads (process.c: ProcessTerminate asserts that
    the process is not the one of the system). *)
Inductive step : SYS → SYS → Prop :=
  | step_code s c t f k fs s' :
      runs s c t (f :: k) → ¬ forced_block s t f → code c t f s = Ret (fs, s') → step s (T t (with_Stack (fs ++ k)) s')
  | step_call s c t held k :
      runs s c t [Run held] → call s t held k → step s (T t (with_Stack k) s)
  | step_interrupt s c t x held :
      runs s c t [Run held] → cpus s !! c = Some x → Intr x = true →
      step s (T t (with_Stack [InterruptAt T_tick; Run held]) s)
  | step_terminate s c t u held s' :
      runs s c t [Run held] → ¬ is_idle_thread s u → ThreadTerminate u s = Ret (tt, s') → step s s'.
(** The one step that is left out: a thread that has put itself into a waiting list and has been asked
    to end before it tests that in ThreadBlock ends there, and stays in the list. *)
Inductive step_forced_block : SYS → SYS → Prop :=
  | step_forced s c t f k fs s' :
      runs s c t (f :: k) → forced_block s t f → code c t f s = Ret (fs, s') →
      step_forced_block s (T t (with_Stack (fs ++ k)) s').
