(* ===== verification/SchedRefine.v ===== *)
(** The code of Sched.v refines the machine of SchedSpec.v: the phase of a thread is read
    off its stack, every step of the code is a sequence of steps of the machine, and no
    assertion of the code fails on the way. *)
From stdpp Require Import relations.
From S2P Require Import Prelude SchedSpec Sched.

(** * What the code does, by weakest preconditions *)
Definition wp {A} (m : M SYS A) (s : SYS) (Q : A → SYS → Prop) : Prop :=
  ∃ a s', m s = Ret (a, s') ∧ Q a s'.

Lemma wp_ret {A} (a : A) s Q : Q a s → wp (mret a) s Q.
Proof. intros H. by exists a, s. Qed.
Lemma wp_bind {A B} (m : M SYS A) (k : A → M SYS B) s Q :
  wp m s (λ a s', wp (k a) s' Q) → wp (m ≫= k) s Q.
Proof. intros (a & s1 & E & b & s2 & E2 & H). exists b, s2. by rewrite (bind_Ret _ _ _ _ _ E). Qed.
Lemma wp_gets {A} (f : SYS → A) s Q : Q (f s) s → wp (gets f) s Q.
Proof. intros H. by exists (f s), s. Qed.
Lemma wp_modify f s (Q : unit → SYS → Prop) : Q tt (f s) → wp (modify f) s Q.
Proof. intros H. by exists tt, (f s). Qed.
Lemma wp_ASSERT b s (Q : unit → SYS → Prop) : b = true → Q tt s → wp (ASSERT b) s Q.
Proof. intros -> H. by exists tt, s. Qed.
Lemma wp_some {A} (f : SYS → gmap nat A) i (m : M SYS A) s x Q :
  m = (s ← get; from_option_fault (f s !! i)) → f s !! i = Some x → Q x s → wp m s Q.
Proof. intros -> E H. exists x, s. munfold. by rewrite E. Qed.
Lemma wp_thread t s th Q : threads s !! t = Some th → Q th s → wp (thread t) s Q.
Proof. by apply (wp_some threads t). Qed.
Lemma wp_cpu c s x Q : cpus s !! c = Some x → Q x s → wp (cpu c) s Q.
Proof. by apply (wp_some cpus c). Qed.
Lemma wp_object q s w Q : objects s !! q = Some w → Q w s → wp (object q) s Q.
Proof. by apply (wp_some objects q). Qed.
Lemma wp_process p s w Q : processes s !! p = Some w → Q w s → wp (process p) s Q.
Proof. by apply (wp_some processes p). Qed.
Lemma wp_mutex q s x Q : is_mutex s q x → Q x s → wp (mutex q) s Q.
Proof. intros E H. apply wp_bind. eapply wp_object; [exact E|]. by apply wp_ret. Qed.
Lemma wp_event q s x Q : is_event s q x → Q x s → wp (event q) s Q.
Proof. intros E H. apply wp_bind. eapply wp_object; [exact E|]. by apply wp_ret. Qed.
Lemma wp_upd_thread t f s (Q : unit → SYS → Prop) : Q tt (T t f s) → wp (upd_thread t f) s Q.
Proof. apply wp_modify. Qed.
Lemma wp_upd_cpu c f s (Q : unit → SYS → Prop) : Q tt (C c f s) → wp (upd_cpu c f) s Q.
Proof. apply wp_modify. Qed.
Lemma wp_upd_object q f s (Q : unit → SYS → Prop) : Q tt (O q f s) → wp (upd_object q f) s Q.
Proof. apply wp_modify. Qed.
Lemma wp_put_mutex q m s (Q : unit → SYS → Prop) : Q tt (O q (λ _, SMutex m) s) → wp (put_mutex q m) s Q.
Proof. apply wp_modify. Qed.
Lemma wp_put_event q e s (Q : unit → SYS → Prop) : Q tt (O q (λ _, SEvent e) s) → wp (put_event q e) s Q.
Proof. apply wp_modify. Qed.

(** The fields after an update of a thread, a CPU, an object. *)
Section Fields.
Implicit Types s : SYS.
Lemma threads_T t f s : threads (T t f s) = alter f t (threads s). Proof. done. Qed.
Lemma cpus_T t f s : cpus (T t f s) = cpus s. Proof. done. Qed.
Lemma objects_T t f s : objects (T t f s) = objects s. Proof. done. Qed.
Lemma processes_T t f s : processes (T t f s) = processes s. Proof. done. Qed.
Lemma rlock_T t f s : ReadyThreadsLock (T t f s) = ReadyThreadsLock s. Proof. done. Qed.
Lemma rlist_T t f s : ReadyThreadsList (T t f s) = ReadyThreadsList s. Proof. done. Qed.
Lemma threads_C c f s : threads (C c f s) = threads s. Proof. done. Qed.
Lemma cpus_C c f s : cpus (C c f s) = alter f c (cpus s). Proof. done. Qed.
Lemma objects_C c f s : objects (C c f s) = objects s. Proof. done. Qed.
Lemma processes_C c f s : processes (C c f s) = processes s. Proof. done. Qed.
Lemma rlock_C c f s : ReadyThreadsLock (C c f s) = ReadyThreadsLock s. Proof. done. Qed.
Lemma rlist_C c f s : ReadyThreadsList (C c f s) = ReadyThreadsList s. Proof. done. Qed.
Lemma threads_O q f s : threads (O q f s) = threads s. Proof. done. Qed.
Lemma cpus_O q f s : cpus (O q f s) = cpus s. Proof. done. Qed.
Lemma objects_O q f s : objects (O q f s) = alter f q (objects s). Proof. done. Qed.
Lemma processes_O q f s : processes (O q f s) = processes s. Proof. done. Qed.
Lemma rlock_O q f s : ReadyThreadsLock (O q f s) = ReadyThreadsLock s. Proof. done. Qed.
Lemma rlist_O q f s : ReadyThreadsList (O q f s) = ReadyThreadsList s. Proof. done. Qed.
End Fields.
Create Rewrite HintDb fields.
#[export] Hint Rewrite threads_T cpus_T objects_T processes_T rlock_T rlist_T threads_C cpus_C objects_C
  processes_C rlock_C rlist_C threads_O cpus_O objects_O processes_O rlock_O rlist_O : fields.
#[global] Arguments T : simpl never.
#[global] Arguments C : simpl never.
#[global] Arguments O : simpl never.

(** Look something up in an updated state. *)
Ltac fields :=
  repeat progress (autorewrite with fields;
    cbn [threads cpus objects processes ReadyThreadsLock ReadyThreadsList set_ready_lock set_ready_list set_processes]).
Ltac fields_in H :=
  repeat progress (autorewrite with fields in H;
    cbn [threads cpus objects processes ReadyThreadsLock ReadyThreadsList set_ready_lock set_ready_list set_processes] in H).
Ltac lk :=
  unfold is_mutex, is_event in *; fields;
  rewrite ?lookup_alter_eq, ?lookup_alter_ne, ?lookup_insert_eq by (done || congruence);
  cbn [fmap option_fmap option_map]; fields;
  repeat match goal with
  | H : ?m !! ?i = Some _ |- context [?m !! ?i] => rewrite H; cbn [fmap option_fmap option_map]
  end; cbn [w_lock w_list]; try reflexivity; try done; try congruence; eauto.

(** ** Locks *)
Definition lock_of (s : SYS) (l : LOCK) : option (option nat) :=
  match l with
  | L_ready => Some (ReadyThreadsLock s)
  | L_block t => BlockLock <$> threads s !! t
  | L_queue q => w_lock <$> objects s !! q
  end.
Definition lock_set (l : LOCK) (v : option nat) (s : SYS) : SYS :=
  match l with
  | L_ready => set_ready_lock v s
  | L_block t => T t (with_BlockLock v) s
  | L_queue q => O q (with_w_lock v) s
  end.
Lemma lock_set_cpus l v s : cpus (lock_set l v s) = cpus s.
Proof. by destruct l. Qed.

Section Locks.
Variable c : nat.
Implicit Types s : SYS.
Lemma wp_lock_holder l s h Q : lock_of s l = Some h → Q h s → wp (lock_holder l) s Q.
Proof.
  intros E H. destruct l as [|t|q]; simpl in *; simplify_eq; [by apply wp_gets|..].
  - destruct (threads s !! t) as [th|] eqn:Et; simplify_eq/=. apply wp_bind.
    eapply wp_thread; [exact Et|]. by apply wp_ret.
  - destruct (objects s !! q) as [w|] eqn:Eq; simplify_eq/=. apply wp_bind.
    eapply wp_object; [exact Eq|]. by apply wp_ret.
Qed.
Lemma wp_set_lock l v s (Q : unit → SYS → Prop) : Q tt (lock_set l v s) → wp (set_lock l v) s Q.
Proof. destruct l; apply wp_modify. Qed.
Lemma wp_LockIsOwner l s h Q : lock_of s l = Some h → Q (bool_decide (h = Some c)) s → wp (LockIsOwner c l) s Q.
Proof. intros E H. apply wp_bind. eapply wp_lock_holder; [exact E|]. by apply wp_ret. Qed.
Lemma wp_CpuIntrGetState s x Q : cpus s !! c = Some x → Q (Intr x) s → wp (CpuIntrGetState c) s Q.
Proof. intros E H. apply wp_bind. eapply wp_cpu; [exact E|]. by apply wp_ret. Qed.
Lemma wp_CpuIntrSetState b s x Q :
  cpus s !! c = Some x → Q (Intr x) (C c (with_Intr b) s) → wp (CpuIntrSetState c b) s Q.
Proof.
  intros E H. apply wp_bind. eapply wp_cpu; [exact E|]. apply wp_bind, wp_upd_cpu. by apply wp_ret.
Qed.
(** The lock is taken by another CPU: nothing changes. *)
Lemma wp_LockAcquire_busy l f k s h (Q : list frame → SYS → Prop) :
  lock_of s l = Some (Some h) → h ≠ c → Q [f] s → wp (LockAcquire c l f k) s Q.
Proof.
  intros E Hne H. apply wp_bind. eapply wp_LockIsOwner; [exact E|]. apply wp_bind, wp_ASSERT.
  { rewrite bool_decide_eq_false_2; [done|congruence]. }
  apply wp_bind. eapply wp_lock_holder; [exact E|]. by apply wp_ret.
Qed.
Lemma wp_LockAcquire_free l f k s x (Q : list frame → SYS → Prop) :
  lock_of s l = Some None → cpus s !! c = Some x →
  wp (k (Intr x)) (C c (with_Intr false) (lock_set l (Some c) s)) Q → wp (LockAcquire c l f k) s Q.
Proof.
  intros E Hx H. apply wp_bind. eapply wp_LockIsOwner; [exact E|]. apply wp_bind, wp_ASSERT; [done|].
  apply wp_bind. eapply wp_lock_holder; [exact E|]. apply wp_bind, wp_set_lock, wp_bind.
  eapply wp_CpuIntrSetState; [by rewrite lock_set_cpus|done].
Qed.
Lemma wp_LockAcquire l f k s x h (Q : list frame → SYS → Prop) :
  lock_of s l = Some h → h ≠ Some c → cpus s !! c = Some x →
  (is_Some h → Q [f] s) →
  (h = None → wp (k (Intr x)) (C c (with_Intr false) (lock_set l (Some c) s)) Q) → wp (LockAcquire c l f k) s Q.
Proof.
  intros E Hne Hx H1 H2. destruct h as [h|]; [|by eapply wp_LockAcquire_free; eauto].
  eapply wp_LockAcquire_busy; [done|congruence|eauto].
Qed.
Lemma wp_LockRelease l old s x (Q : unit → SYS → Prop) :
  lock_of s l = Some (Some c) → cpus s !! c = Some x → Intr x = false →
  Q tt (C c (with_Intr old) (lock_set l None s)) → wp (LockRelease c l old) s Q.
Proof.
  intros E Hx Hi H. apply wp_bind. eapply wp_LockIsOwner; [exact E|]. apply wp_bind, wp_ASSERT.
  { by rewrite bool_decide_eq_true_2. }
  apply wp_bind. eapply wp_CpuIntrGetState; [exact Hx|]. apply wp_bind, wp_ASSERT; [by rewrite Hi|].
  apply wp_bind, wp_set_lock, wp_bind. eapply wp_CpuIntrSetState; [by rewrite lock_set_cpus|]. by apply wp_ret.
Qed.
End Locks.

(** ** Symbolic runs *)
Ltac recs :=
  cbn [State ExitStatus TerminationEvt Flags BlockLock TickCountCompleted UninterruptedTicks TickCountEarly RefCnt
    Process Stack with_State with_ExitStatus with_Flags with_BlockLock with_Completed with_Uninterrupted with_Early
    with_RefCnt with_Stack RunningThreadTicks IdleThread CurrentThread PreviousThread YieldOnInterruptReturn
    IdleTicks KernelTicks Intr with_Intr with_Current with_Previous with_Yield with_Running with_IdleTicks
    with_KernelTicks w_lock w_list with_w_lock with_w_list with_Holder with_Signaled
    MutexLock CurrentRecursivityDepth MaxRecursivityDepth WaitingList Holder EventLock EventWaitingList EventType Signaled
    ActiveThreads TerminationStatus ProcessTerminationEvt] in *;
  try match goal with H : CurrentThread ?x = _ |- context [CurrentThread ?x] => rewrite H end.
(** One statement. *)
Ltac wp_step :=
  lazymatch goal with
  | |- wp (mret _) _ _ => apply wp_ret
  | |- wp (if bool_decide ?P then _ else _) _ _ => case_bool_decide
  | |- wp (if negb (bool_decide ?P) then _ else _) _ _ => case_bool_decide; cbn [negb]
  | |- wp (thread _) _ _ => eapply wp_thread; [lk|]
  | |- wp (cpu _) _ _ => eapply wp_cpu; [lk|]
  | |- wp (mutex _) _ _ => eapply wp_mutex; [lk|]
  | |- wp (event _) _ _ => eapply wp_event; [lk|]
  | |- wp (process _) _ _ => eapply wp_process; [lk|]
  | |- wp (upd_thread _ _) _ _ => apply wp_upd_thread
  | |- wp (upd_cpu _ _) _ _ => apply wp_upd_cpu
  | |- wp (upd_object _ _) _ _ => apply wp_upd_object
  | |- wp (put_mutex _ _) _ _ => apply wp_put_mutex
  | |- wp (put_event _ _) _ _ => apply wp_put_event
  | |- wp (gets _) _ _ => apply wp_gets
  | |- wp (modify _) _ _ => apply wp_modify
  | |- wp (ASSERT _) _ _ => apply wp_ASSERT
  | |- wp (CpuIntrDisable _) _ _ => eapply wp_CpuIntrSetState; [lk|]
  | |- wp (CpuIntrSetState _ _) _ _ => eapply wp_CpuIntrSetState; [lk|]
  | |- wp (CpuIntrGetState _) _ _ => eapply wp_CpuIntrGetState; [lk|]
  | |- wp (LockIsOwner _ _) _ _ => eapply wp_LockIsOwner; [cbn [lock_of]; lk|]
  | |- wp (LockRelease _ _ _) _ _ => eapply wp_LockRelease; [cbn [lock_of]; lk|lk| |cbn [lock_set]]
  | |- wp (GetCurrentThread _) _ _ => unfold GetCurrentThread
  | |- wp (mbind _ _) _ _ => apply wp_bind
  | |- wp (if negb ?b then _ else _) _ _ => destruct b eqn:?; cbn [negb]
  | |- wp (if ?b then _ else _) _ _ => destruct b eqn:?
  | |- wp match ?b with _ => _ end _ _ => destruct b eqn:?
  end; cbn beta iota; recs.
Ltac wps := repeat wp_step.

(** * The abstraction *)
(** The queue of the function that blocks, wakes a thread. *)
Definition frame_queue (f : frame) : nat :=
  match f with
  | MutexAcquireAt q _ | MutexReleaseAt q _ | ExEventSignalAt q _ | ExEventWaitForSignalAt q _ => q
  | _ => 0%nat
  end.
Definition phase_of (k : list frame) : phase :=
  match k with
  | ThreadScheduleAt :: _ | ThreadCleanupAt C_enter :: _ | ThreadStartAt S_cleanup :: _ => Switch
  | ThreadCleanupAt (C_previous p) :: _ => Clean p
  | ThreadTakeBlockLockAt :: f :: _ => Queued (frame_queue f)
  | ThreadBlockAt B_enter :: _ => Blk
  | ThreadBlockAt B_lock :: _ => BlkSt
  | ThreadUnblockAt u U_lock :: f :: _ => Unb1 (frame_queue f) u
  | ThreadUnblockAt u (U_check _) :: f :: _ | ThreadUnblockAt u (U_ready _) :: f :: _ => Unb2 (frame_queue f) u
  | ThreadUnblockAt u (U_unlock _) :: f :: _ => Unb3 (frame_queue f) u
  | MutexAcquireAt m (A_loop _ _) :: _ => HoldQ m
  | MutexAcquireAt m (A_unlock _ _) :: _ => QueuedBlk m
  | MutexReleaseAt m (R_unlock _) :: _ => HoldQ m
  | ExEventSignalAt e (G_next _) :: _ | ExEventSignalAt e (G_woken _) :: _ => HoldQ e
  | ExEventWaitForSignalAt e (W_unlock _ _) :: _ => QueuedBlk e
  | _ => Normal
  end.
Definition abs (s : SYS) : astate :=
  mkA (CurrentThread <$> cpus s) (omap PreviousThread (cpus s)) ((λ th, phase_of (Stack th)) <$> threads s)
    (State <$> threads s) (omap BlockLock (threads s)) (w_list <$> objects s) (omap w_lock (objects s))
    (ReadyThreadsLock s) (ReadyThreadsList s).

Section Abs.
Implicit Types s : SYS.
Lemma fmap_alter_same {A B} (g : A → B) f i (m : gmap nat A) :
  (∀ x, g (f x) = g x) → g <$> alter f i m = g <$> m.
Proof.
  intros H. apply map_eq. intros j. rewrite !lookup_fmap.
  destruct (decide (i = j)) as [->|]; [|by rewrite lookup_alter_ne]. rewrite lookup_alter_eq.
  by destruct (m !! j); simpl; rewrite ?H.
Qed.
Lemma omap_alter_same {A B} (g : A → option B) f i (m : gmap nat A) :
  (∀ x, g (f x) = g x) → omap g (alter f i m) = omap g m.
Proof.
  intros H. apply map_eq. intros j. rewrite !lookup_omap.
  destruct (decide (i = j)) as [->|]; [|by rewrite lookup_alter_ne]. rewrite lookup_alter_eq.
  by destruct (m !! j); simpl; rewrite ?H.
Qed.
Lemma fmap_alter_const {A B} (g : A → B) f i v (m : gmap nat A) :
  is_Some (m !! i) → (∀ x, g (f x) = v) → g <$> alter f i m = <[i := v]> (g <$> m).
Proof.
  intros [y Hy] H. apply map_eq. intros j. rewrite !lookup_fmap.
  destruct (decide (i = j)) as [->|]; [|by rewrite lookup_alter_ne, lookup_insert_ne, lookup_fmap].
  by rewrite lookup_alter_eq, lookup_insert_eq, Hy; simpl; rewrite H.
Qed.
Lemma omap_alter_Some {A B} (g : A → option B) f i v (m : gmap nat A) :
  is_Some (m !! i) → (∀ x, g (f x) = Some v) → omap g (alter f i m) = <[i := v]> (omap g m).
Proof.
  intros [y Hy] H. apply map_eq. intros j. rewrite !lookup_omap.
  destruct (decide (i = j)) as [->|]; [|by rewrite lookup_alter_ne, lookup_insert_ne, lookup_omap].
  by rewrite lookup_alter_eq, lookup_insert_eq, Hy; simpl; rewrite H.
Qed.
Lemma omap_alter_None {A B} (g : A → option B) f i (m : gmap nat A) :
  (∀ x, g (f x) = None) → omap g (alter f i m) = delete i (omap g m).
Proof.
  intros H. apply map_eq. intros j. rewrite !lookup_omap.
  destruct (decide (i = j)) as [->|]; [|by rewrite lookup_alter_ne, lookup_delete_ne, lookup_omap].
  rewrite lookup_alter_eq, lookup_delete_eq. by destruct (m !! j); simpl; rewrite ?H.
Qed.

Definition set_cur (p : gmap nat nat) a : astate :=
  mkA p (a_prev a) (a_phase a) (a_st a) (a_blk a) (a_q a) (a_qlk a) (a_rl a) (a_ready a).
Ltac abs_field := unfold abs, T, C, O, set_phase, set_st, set_blk, set_q, set_qlk, set_prev, set_cur; simpl; f_equal.
Lemma abs_Stack s t k : is_Some (threads s !! t) → abs (T t (with_Stack k) s) = set_phase t (phase_of k) (abs s).
Proof.
  intros H. abs_field; [|by apply fmap_alter_same|by apply omap_alter_same].
  by apply (fmap_alter_const (λ th, phase_of (Stack th))).
Qed.
Lemma abs_State s t v : is_Some (threads s !! t) → abs (T t (with_State v) s) = set_st t v (abs s).
Proof. intros H. abs_field; [by apply fmap_alter_same|by apply fmap_alter_const|by apply omap_alter_same]. Qed.
Lemma abs_Block s t c :
  is_Some (threads s !! t) → abs (T t (with_BlockLock (Some c)) s) = set_blk (<[t := c]> (a_blk (abs s))) (abs s).
Proof. intros H. abs_field; [by apply fmap_alter_same|by apply fmap_alter_same|by apply omap_alter_Some]. Qed.
Lemma abs_Unblock s t : abs (T t (with_BlockLock None) s) = set_blk (delete t (a_blk (abs s))) (abs s).
Proof. abs_field; [by apply fmap_alter_same|by apply fmap_alter_same|by apply omap_alter_None]. Qed.
Lemma abs_T s t f :
  (∀ th, State (f th) = State th ∧ BlockLock (f th) = BlockLock th ∧ Stack (f th) = Stack th) →
  abs (T t f s) = abs s.
Proof.
  intros H. abs_field; [apply fmap_alter_same|apply fmap_alter_same|apply omap_alter_same]; intros th;
    destruct (H th) as (?&?&?); congruence.
Qed.
Lemma abs_C s c f :
  (∀ x, CurrentThread (f x) = CurrentThread x ∧ PreviousThread (f x) = PreviousThread x) → abs (C c f s) = abs s.
Proof. intros H. abs_field; [apply fmap_alter_same|apply omap_alter_same]; intros x; by destruct (H x). Qed.
Lemma abs_Previous s c p :
  is_Some (cpus s !! c) → abs (C c (with_Previous (Some p)) s) = set_prev (<[c := p]> (a_prev (abs s))) (abs s).
Proof. intros H. abs_field; [by apply fmap_alter_same|by apply omap_alter_Some]. Qed.
Lemma abs_Previous_None s c : abs (C c (with_Previous None) s) = set_prev (delete c (a_prev (abs s))) (abs s).
Proof. abs_field; [by apply fmap_alter_same|by apply omap_alter_None]. Qed.
Lemma abs_Current s c n :
  is_Some (cpus s !! c) → abs (C c (with_Current n) s) = set_cur (<[c := n]> (a_cur (abs s))) (abs s).
Proof. intros H. abs_field; [by apply fmap_alter_const|by apply omap_alter_same]. Qed.
Lemma abs_lock s q c :
  is_Some (objects s !! q) → abs (O q (with_w_lock (Some c)) s) = set_qlk (<[q := c]> (a_qlk (abs s))) (abs s).
Proof. intros H. abs_field; [apply fmap_alter_same|apply omap_alter_Some]; try done; by intros []. Qed.
Lemma abs_unlock s q : abs (O q (with_w_lock None) s) = set_qlk (delete q (a_qlk (abs s))) (abs s).
Proof. abs_field; [apply fmap_alter_same|apply omap_alter_None]; by intros []. Qed.
Lemma abs_list s q l : is_Some (objects s !! q) → abs (O q (with_w_list l) s) = set_q q l (abs s).
Proof. intros H. abs_field; [apply fmap_alter_const|apply omap_alter_same]; try done; by intros []. Qed.
Lemma abs_put s q w w' :
  objects s !! q = Some w → w_lock w' = w_lock w → w_list w' = w_list w → abs (O q (λ _, w') s) = abs s.
Proof.
  intros Hw E1 E2. abs_field; apply map_eq; intros j; rewrite ?lookup_fmap, ?lookup_omap;
    (destruct (decide (q = j)) as [<-|]; [rewrite lookup_alter_eq, Hw; simpl; congruence|by rewrite lookup_alter_ne]).
Qed.
Lemma abs_ready_lock s v : abs (set_ready_lock v s) = set_rl v (abs s). Proof. done. Qed.
Lemma abs_ready_list s v : abs (set_ready_list v s) = set_ready v (abs s). Proof. done. Qed.
Lemma abs_processes s v : abs (set_processes v s) = abs s. Proof. done. Qed.
End Abs.

(** Lookups in the abstract state. *)
Section Lookups.
Implicit Types s : SYS.
Lemma abs_on s c t k : runs s c t k → on (abs s) c = Some (t, phase_of k).
Proof.
  intros (x & th & Hx & Ht & Hth & Hk). unfold on. simpl. rewrite lookup_fmap, Hx. cbn. rewrite Ht.
  rewrite lookup_fmap, Hth. cbn. by rewrite Hk.
Qed.
Lemma abs_cur s c t : a_cur (abs s) !! c = Some t ↔ ∃ x, cpus s !! c = Some x ∧ CurrentThread x = t.
Proof. simpl. rewrite lookup_fmap_Some. naive_solver. Qed.
Lemma abs_blk s t th : threads s !! t = Some th → a_blk (abs s) !! t = BlockLock th.
Proof. intros H. simpl. by rewrite lookup_omap, H. Qed.
Lemma abs_qlk s q w : objects s !! q = Some w → a_qlk (abs s) !! q = w_lock w.
Proof. intros H. simpl. by rewrite lookup_omap, H. Qed.
Lemma abs_q s q w : objects s !! q = Some w → a_q (abs s) !! q = Some (w_list w).
Proof. intros H. simpl. by rewrite lookup_fmap, H. Qed.
Lemma abs_st s t th : threads s !! t = Some th → a_st (abs s) !! t = Some (State th).
Proof. intros H. simpl. by rewrite lookup_fmap, H. Qed.
Lemma abs_prev s c x : cpus s !! c = Some x → a_prev (abs s) !! c = PreviousThread x.
Proof. intros H. simpl. by rewrite lookup_omap, H. Qed.
Lemma abs_thread s t : is_Some (a_phase (abs s) !! t) → ∃ th, threads s !! t = Some th.
Proof. simpl. rewrite lookup_fmap. destruct (threads s !! t); [eauto|by intros []]. Qed.
End Lookups.

(** * Well-formed states *)
(** The frames a frame can lie on. *)
Definition fits (f g : frame) : bool :=
  match f, g with
  | ThreadYieldAt _, (Run _ | InterruptAt T_return) => true
  | ThreadCleanupAt _, ThreadStartAt S_iretq => true
  | (ThreadScheduleAt | ThreadCleanupAt _), (ThreadYieldAt (Y_return _) | ThreadBlockAt B_return | ThreadExitAt X_return) => true
  | ThreadTakeBlockLockAt, (MutexAcquireAt _ (A_unlock _ _) | ExEventWaitForSignalAt _ (W_unlock _ _)) => true
  | ThreadBlockAt _, (MutexAcquireAt _ (A_again _) | ExEventWaitForSignalAt _ (W_woken _) | IdleThreadAt I_halt) => true
  | ThreadUnblockAt _ _, (MutexReleaseAt _ (R_unlock _) | ExEventSignalAt _ (G_woken _)) => true
  | ExEventSignalAt _ _, (Run _ | ThreadExitAt X_notify | ThreadExitAt X_schedule) => true
  | (MutexAcquireAt _ _ | MutexReleaseAt _ _ | ExEventClearSignalAt _ | ExEventWaitForSignalAt _ _
    | ThreadExitAt _ | IdleThreadAt _ | InterruptAt _ | ThreadStartAt _), Run _ => true
  | ThreadExitAt _, InterruptAt T_return => true
  | _, _ => false
  end.
Fixpoint stack_ok (k : list frame) : bool :=
  match k with
  | [] => false
  | f :: k' => match k' with [] => match f with Run _ => true | _ => false end | g :: _ => fits f g && stack_ok k' end
  end.
(** The frames whose code expects interrupts to be disabled. *)
Definition intr_off (k : list frame) : bool :=
  match k with
  | (ThreadYieldAt (Y_return _) | ThreadScheduleAt | ThreadCleanupAt _ | ThreadTakeBlockLockAt | ThreadBlockAt _
    | MutexAcquireAt _ (A_lock _ | A_loop _ _ | A_unlock _ _ | A_again _) | MutexReleaseAt _ (R_unlock _)
    | ExEventSignalAt _ (G_next _ | G_woken _)
    | ExEventWaitForSignalAt _ (W_try _ | W_lock _ | W_unlock _ _ | W_woken _) | IdleThreadAt (I_take | I_halt)
    | ThreadUnblockAt _ _ | ThreadStartAt S_cleanup) :: _ => true
  | _ => false
  end.
(** The thread is ending, has ended. *)
Definition dying (k : list frame) : bool :=
  existsb (λ f, match f with ThreadExitAt (X_notify | X_schedule | X_return) => true | _ => false end) k.
Definition exited (k : list frame) : bool :=
  existsb (λ f, match f with ThreadExitAt X_return => true | _ => false end) k.
Definition is_SMutex (w : waitable) : bool := match w with SMutex _ => true | SEvent _ => false end.

Section Refinement.
(** What never changes: which objects are mutexes, the idle threads, the events that
    signal the end of the processes, the threads. *)
Variable kinds : gmap nat bool.
Variable idle : gmap nat nat.
Variable evts : gmap nat nat.
Variable tids : gset nat.
Implicit Types s : SYS.

Definition frame_ok (t : nat) (f : frame) : Prop :=
  match f with
  | MutexAcquireAt m p => kinds !! m = Some true ∧ ¬ is_idle idle t
      ∧ match p with A_loop _ d | A_unlock _ d => d = false | _ => True end
  | MutexReleaseAt m _ => kinds !! m = Some true
  | ExEventSignalAt e _ | ExEventClearSignalAt e => kinds !! e = Some false
  | ExEventWaitForSignalAt e p => kinds !! e = Some false ∧ ¬ is_idle idle t
      ∧ match p with W_unlock _ d => d = false | _ => True end
  | ThreadUnblockAt _ (U_check d | U_ready d | U_unlock d) => d = false
  | ThreadCleanupAt (C_previous p) => p ∈ tids
  | ThreadExitAt _ => ¬ is_idle idle t
  | IdleThreadAt _ => is_idle idle t
  | _ => True
  end.
Record thread_ok (t : nat) (th : THREAD) : Prop := {
  t_stack : stack_ok (Stack th) = true;
  t_frames : Forall (frame_ok t) (Stack th);
  t_flags : is_idle idle t → terminate_pending th = false;
  t_dying : State th = ThreadStateDying ↔ dying (Stack th) = true;
  t_event : kinds !! TerminationEvt th = Some false;
  t_process : ∃ e, evts !! Process th = Some e ∧ kinds !! e = Some false
}.
Definition cpu_ok s (x : CPU) : Prop :=
  (∀ p, PreviousThread x = Some p → p ∈ tids) ∧
  ∃ th, threads s !! CurrentThread x = Some th ∧ exited (Stack th) = false
    ∧ (intr_off (Stack th) = true → Intr x = false).
Record wf s : Prop := {
  wf_thread t th : threads s !! t = Some th → thread_ok t th;
  wf_cpu c x : cpus s !! c = Some x → cpu_ok s x;
  wf_kinds : is_SMutex <$> objects s = kinds;
  wf_idle : IdleThread <$> cpus s = idle;
  wf_evts : ProcessTerminationEvt <$> processes s = evts;
  wf_tids : dom (threads s) = tids
}.

(** A step of the thread [t] on the CPU [c] leaves alone the stacks, the other CPUs, and
    whether the other threads are ending. *)
Definition mild (t u : nat) (th th' : THREAD) : Prop :=
  Stack th' = Stack th ∧ (terminate_pending th = false → terminate_pending th' = false) ∧ TerminationEvt th' = TerminationEvt th ∧ Process th' = Process th
  ∧ (u ≠ t → State th' = ThreadStateDying ↔ State th = ThreadStateDying).
Definition cpu_mild (c d : nat) (x x' : CPU) : Prop :=
  IdleThread x' = IdleThread x ∧ (d ≠ c → x' = x) ∧
  ((∀ p, PreviousThread x = Some p → p ∈ tids) → ∀ p, PreviousThread x' = Some p → p ∈ tids).
Record calm (c t : nat) s s' : Prop := {
  c_thread u : option_Forall2 (mild t u) (threads s !! u) (threads s' !! u);
  c_cpu d : option_Forall2 (cpu_mild c d) (cpus s !! d) (cpus s' !! d);
  c_kinds : is_SMutex <$> objects s' = is_SMutex <$> objects s;
  c_evts : ProcessTerminationEvt <$> processes s' = ProcessTerminationEvt <$> processes s
}.
#[local] Instance mild_refl t u : Reflexive (mild t u).
Proof. intros th. by repeat split. Qed.
#[local] Instance cpu_mild_refl c d : Reflexive (cpu_mild c d).
Proof. intros x. by repeat split. Qed.
Lemma mild_State t u th v :
  u = t ∨ State th ≠ ThreadStateDying ∧ v ≠ ThreadStateDying → mild t u th (with_State v th).
Proof. intros Hs. repeat split; simpl; [done|naive_solver|naive_solver]. Qed.
(** A thread that ends is not asked to end again. *)
Lemma forced_not_pending v th : terminate_pending (with_Flags (Z.lor v THREAD_FLAG_FORCE_TERMINATED) th) = false.
Proof.
  unfold terminate_pending, THREAD_FLAG_FORCE_TERMINATE_PENDING, THREAD_FLAG_FORCE_TERMINATED, MAX_DWORD. cbn [Flags with_Flags].
  apply Z.eqb_neq. intros E. apply (f_equal (λ z, Z.testbit z 1)) in E. rewrite Z.land_spec, Z.lor_spec in E.
  change (Z.testbit 2 1) with true in E. rewrite orb_true_r in E. done.
Qed.
#[local] Instance mild_trans t u : Transitive (mild t u).
Proof.
  intros a b d (A1 & A2 & A3 & A4 & A5) (B1 & B2 & B3 & B4 & B5). split_and!; try congruence; [by auto|].
  intros Hne. by rewrite B5, A5.
Qed.
#[local] Instance cpu_mild_trans c d : Transitive (cpu_mild c d).
Proof.
  intros a b e (A1 & A2 & A3) (B1 & B2 & B3). split_and!; [congruence| |auto].
  intros Hne. rewrite B2, A2 by done. done.
Qed.
Lemma cpu_mild_intro c x x' :
  IdleThread x' = IdleThread x →
  (PreviousThread x' = PreviousThread x ∨ PreviousThread x' = None ∨ ∃ p, PreviousThread x' = Some p ∧ p ∈ tids) →
  cpu_mild c c x x'.
Proof.
  intros E1 [E2|[E2|(p & E2 & Hp)]]; (split; [done|split; [done|]]); intros Hall p' Hp'; rewrite E2 in Hp'; [by apply Hall|done|by simplify_eq].
Qed.
Lemma calm_refl c t s : calm c t s s.
Proof. by split. Qed.
Lemma calm_trans c t s1 s2 s3 : calm c t s1 s2 → calm c t s2 s3 → calm c t s1 s3.
Proof.
  intros [A1 A2 A3 A4] [B1 B2 B3 B4]. split; [intros u; by etrans; [apply A1|apply B1]|intros d; by etrans; [apply A2|apply B2]|congruence..].
Qed.
Lemma Forall2_alter {A} (R : A → A → Prop) `{!Reflexive R} (m : gmap nat A) f i j :
  (i = j → ∀ x, m !! i = Some x → R x (f x)) → option_Forall2 R (m !! j) (alter f i m !! j).
Proof.
  intros H. destruct (decide (i = j)) as [->|]; [|by rewrite lookup_alter_ne]. rewrite lookup_alter_eq.
  destruct (m !! j) eqn:E; constructor. auto.
Qed.
Lemma calm_T c t s s' u f :
  calm c t s s' → (∀ th, threads s' !! u = Some th → mild t u th (f th)) → calm c t s (T u f s').
Proof.
  intros Hc H. apply (calm_trans _ _ _ _ _ Hc). split; try done; intros v; lk.
  apply (Forall2_alter (mild t v)). intros <- th Hth. by apply H.
Qed.
Lemma calm_C c t s s' f :
  calm c t s s' → (∀ x, cpus s' !! c = Some x → cpu_mild c c x (f x)) → calm c t s (C c f s').
Proof.
  intros Hc H. apply (calm_trans _ _ _ _ _ Hc). split; try done; intros v; lk.
  apply (Forall2_alter (cpu_mild c v)). intros <- th Hth. by apply H.
Qed.
Lemma calm_O c t s s' q f :
  calm c t s s' → (∀ w, objects s' !! q = Some w → is_SMutex (f w) = is_SMutex w) → calm c t s (O q f s').
Proof.
  intros Hc H. apply (calm_trans _ _ _ _ _ Hc). split; try done. lk. apply map_eq. intros j.
  rewrite !lookup_fmap. destruct (decide (q = j)) as [->|]; [|by rewrite lookup_alter_ne].
  rewrite lookup_alter_eq. destruct (objects s' !! j) eqn:E; [|done]. simpl. by rewrite H.
Qed.
Lemma calm_put c t s s' q w w' :
  calm c t s s' → objects s' !! q = Some w → is_SMutex w' = is_SMutex w → calm c t s (O q (λ _, w') s').
Proof. intros Hc Hw E. apply calm_O; [done|]. intros v Hv. by simplify_eq. Qed.
Lemma calm_ready_lock c t s s' v : calm c t s s' → calm c t s (set_ready_lock v s').
Proof. intros Hc. apply (calm_trans _ _ _ _ _ Hc). by split. Qed.
Lemma calm_ready_list c t s s' v : calm c t s s' → calm c t s (set_ready_list v s').
Proof. intros Hc. apply (calm_trans _ _ _ _ _ Hc). by split. Qed.
Lemma calm_process c t s s' p y y' :
  calm c t s s' → processes s' !! p = Some y → ProcessTerminationEvt y' = ProcessTerminationEvt y →
  calm c t s (set_processes (<[p := y']> (processes s')) s').
Proof.
  intros Hc Hy E. apply (calm_trans _ _ _ _ _ Hc). split; try done. simpl. rewrite fmap_insert, E.
  apply insert_id. by rewrite lookup_fmap, Hy.
Qed.

(** What a step of [t] on [c] must establish besides. *)
Definition stack_fine (t : nat) (k : list frame) : Prop := stack_ok k = true ∧ Forall (frame_ok t) k.
Lemma wf_step c t x s s' th' k' :
  wf s → (∀ c', a_cur (abs s) !! c' = Some t → c' = c) → cpus s !! c = Some x → calm c t s s' →
  threads s' !! t = Some th' → (State th' = ThreadStateDying ↔ dying k' = true) → stack_fine t k' →
  (∀ x', cpus s' !! c = Some x' →
    CurrentThread x' = t ∧ (intr_off k' = true → Intr x' = false) ∧ exited k' = false ∨
    CurrentThread x' ≠ t ∧ ∃ tn, threads s !! CurrentThread x' = Some tn ∧ exited (Stack tn) = false ∧ Intr x' = false) →
  wf (T t (with_Stack k') s').
Proof.
  intros Hw Hone Hx [C1 C2 C3 C4] Ht Hd [Hs Hf] Hc. split.
  - intros u tu. lk. specialize (C1 u). intros Hu.
    destruct (decide (t = u)) as [<-|Hne].
    + rewrite lookup_alter_eq, Ht in Hu. simplify_eq/=. rewrite Ht in C1. inversion C1 as [a b Hab E1 E2|]; subst.
      destruct (wf_thread _ Hw t a) as [W1 W2 W3 W4 W5 W6]; [done|]. destruct Hab as (M1 & M2 & M3 & M4 & _).
      split; simpl; try done; [intros Hid; by apply M2, W3|congruence|by rewrite M4].
    + rewrite lookup_alter_ne in Hu by done. rewrite Hu in C1. inversion C1 as [a b Hab E1 E2|]; subst.
      destruct (wf_thread _ Hw u a) as [W1 W2 W3 W4 W5 W6]; [done|]. destruct Hab as (M1 & M2 & M3 & M4 & M5).
      split; rewrite ?M1, ?M3, ?M4; try done; [intros Hid; by apply M2, W3|].
      rewrite M5 by done. done.
  - intros d y. lk. intros Hy. specialize (C2 d). rewrite Hy in C2. inversion C2 as [a b Hab E1 E2|]; subst.
    destruct (wf_cpu _ Hw d a) as (P1 & ta & Hta & P2 & P3); [done|]. destruct Hab as (M1 & M2 & M3).
    split; [by apply M3|].
    assert (Hlk : ∀ u tu, u ≠ t → threads s !! u = Some tu →
      ∃ tu', threads (T t (with_Stack k') s') !! u = Some tu' ∧ Stack tu' = Stack tu).
    { intros u tu Hne Hu. lk. specialize (C1 u). rewrite Hu in C1. inversion C1 as [? b' [M4 _] E3 E4|]. eauto. }
    destruct (decide (d = c)) as [->|Hdc].
    + destruct (Hc y Hy) as [(E & Q1 & Q2)|(E & tn & Htn & Q1 & Q2)].
      * rewrite E. exists (with_Stack k' th'). lk.
      * destruct (Hlk _ _ E Htn) as (tu' & Htu & Est). exists tu'. rewrite Est. split_and!; [done|done|by intros _].
    + rewrite (M2 Hdc) in *. destruct (Hlk (CurrentThread a) ta) as (tu' & Htu & Est); [|done|].
      * intros E. apply Hdc, Hone. apply abs_cur. eauto.
      * exists tu'. by rewrite Est.
  - lk. rewrite C3. apply Hw.
  - lk. rewrite <-(wf_idle _ Hw). apply map_eq. intros d. rewrite !lookup_fmap. specialize (C2 d).
    inversion C2 as [a b (M1&_) E1 E2|]; [|done]. simpl. by rewrite M1.
  - lk. rewrite C4. apply Hw.
  - lk. rewrite dom_alter_L, <-(wf_tids _ Hw). apply set_eq. intros u. rewrite !elem_of_dom.
    specialize (C1 u). inversion C1 as [a b Hab E1 E2|]; [split; eauto|done].
Qed.

Lemma T_same t k s th : threads s !! t = Some th → Stack th = k → T t (with_Stack k) s = s.
Proof.
  intros Ht <-. destruct s as [m ? ? ? ? ?]. unfold T, set_threads. simpl in *. f_equal.
  apply map_eq. intros j. destruct (decide (t = j)) as [<-|]; [|by rewrite lookup_alter_ne].
  rewrite lookup_alter_eq, Ht. by destruct th.
Qed.
Lemma set_phase_same a c t p : on a c = Some (t, p) → set_phase t p a = a.
Proof.
  intros H. destruct a as [cur prev ph st blk q qlk rl ready]. unfold on, set_phase in *. simpl in *. f_equal.
  apply insert_id. destruct (cur !! c) as [u|]; [|done]. cbn in H. destruct (ph !! u) eqn:E; cbn in H; congruence.
Qed.
Lemma exited_dying k : exited k = true → dying k = true.
Proof.
  unfold exited, dying. rewrite !existsb_exists. intros (f & Hin & Hf). exists f. split; [done|].
  by repeat case_match.
Qed.

(** ** A step of the thread [t], which runs on [c] *)
Record here s c t (x : CPU) (th : THREAD) (k : list frame) : Prop := {
  h_wf : wf s; h_inv : inv idle (abs s); h_cpu : cpus s !! c = Some x; h_cur : CurrentThread x = t;
  h_thread : threads s !! t = Some th; h_stack : Stack th = k
}.
Definition good (t : nat) (k : list frame) s (fs : list frame) s' : Prop :=
  wf (T t (with_Stack (fs ++ k)) s') ∧ rtc (astep idle) (abs s) (abs (T t (with_Stack (fs ++ k)) s')).

Section Step.
Variables (s : SYS) (c t : nat) (x : CPU) (th : THREAD) (f : frame) (k : list frame).
Hypotheses H : here s c t x th (f :: k).

Lemma st_on : on (abs s) c = Some (t, phase_of (f :: k)).
Proof using H. destruct H as [H1 H2 H3 H4 H5 H6]. apply abs_on. by exists x, th. Qed.
Lemma st_ok : thread_ok t th.
Proof using H. apply (wf_thread _ (h_wf _ _ _ _ _ _ H)), H. Qed.
Lemma st_fine : stack_fine t (f :: k).
Proof using H. rewrite <-(h_stack _ _ _ _ _ _ H). split; apply st_ok. Qed.
Lemma st_one c' : a_cur (abs s) !! c' = Some t → c' = c.
Proof using H.
  destruct H as [H1 H2 H3 H4 H5 H6]. intros Hc'. apply (i_cur _ _ (inv_who _ _ H2) _ _ t Hc').
  apply abs_cur. eauto.
Qed.
Lemma st_cpu : exited (f :: k) = false ∧ (intr_off (f :: k) = true → Intr x = false).
Proof using H.
  destruct H as [H1 H2 H3 H4 H5 H6]. destruct (wf_cpu _ H1 c x H3) as (_ & tc & Htc & Hc).
  rewrite H4, H5 in Htc. simplify_eq. by rewrite <-H6.
Qed.
Lemma st_intr : intr_off (f :: k) = true → Intr x = false.
Proof using H. apply st_cpu. Qed.
Lemma good_busy : good t k s [f] s.
Proof using H.
  destruct H as [H1 H2 H3 H4 H5 H6]. unfold good. simpl. rewrite (T_same _ _ _ th) by done. by split.
Qed.
Lemma st_dying th' k' :
  State th' = State th → dying k' = dying (f :: k) → State th' = ThreadStateDying ↔ dying k' = true.
Proof using H. intros -> ->. rewrite <-(h_stack _ _ _ _ _ _ H). apply st_ok. Qed.
Lemma good_intro fs s' th' x' :
  calm c t s s' → threads s' !! t = Some th' → (State th' = ThreadStateDying ↔ dying (fs ++ k) = true) →
  stack_fine t (fs ++ k) → cpus s' !! c = Some x' → CurrentThread x' = t → (intr_off (fs ++ k) = true → Intr x' = false) →
  exited (fs ++ k) = false → rtc (astep idle) (abs s) (set_phase t (phase_of (fs ++ k)) (abs s')) → good t k s fs s'.
Proof using H.
  intros Hc Ht' Hd Hf Hx' Hcur' Hi He Hr. split; [|by rewrite abs_Stack by eauto].
  apply (wf_step c t x s s' th' _ (h_wf _ _ _ _ _ _ H) st_one (h_cpu _ _ _ _ _ _ H) Hc Ht'); [done|done|].
  intros y Hy. simplify_eq. by left.
Qed.
(** A step the machine does not see. *)
Lemma good_silent fs s' th' x' :
  calm c t s s' → threads s' !! t = Some th' → (State th' = ThreadStateDying ↔ dying (fs ++ k) = true) →
  stack_fine t (fs ++ k) → cpus s' !! c = Some x' → CurrentThread x' = t → (intr_off (fs ++ k) = true → Intr x' = false) →
  exited (fs ++ k) = false → abs s' = abs s → phase_of (fs ++ k) = phase_of (f :: k) → good t k s fs s'.
Proof using H.
  intros ???????? E1 E2. eapply good_intro; [done..|]. rewrite E1, E2, (set_phase_same _ c t _ st_on). done.
Qed.
(** The locks the thread does not hold. *)
Lemma st_ready_lock : phase_of (f :: k) ≠ Switch → ReadyThreadsLock s ≠ Some c.
Proof using H.
  intros Hp Hr. destruct (proj1 (i_rl _ (inv_rl _ _ (h_inv _ _ _ _ _ _ H)) c) Hr) as [u Hu].
  rewrite st_on in Hu. simplify_eq.
Qed.
Lemma st_queue_lock q w : objects s !! q = Some w → held_q (phase_of (f :: k)) ≠ Some q → w_lock w ≠ Some c.
Proof using H.
  intros Hq Hp. rewrite <-(abs_qlk _ _ _ Hq). intros Hr.
  apply (i_qlk _ (inv_qlk _ _ (h_inv _ _ _ _ _ _ H))) in Hr as (u & p & Hu & Hh).
  rewrite st_on in Hu. by simplify_eq.
Qed.
Lemma st_queue_held q w : objects s !! q = Some w → held_q (phase_of (f :: k)) = Some q → w_lock w = Some c.
Proof using H.
  intros Hq Hp. rewrite <-(abs_qlk _ _ _ Hq). apply (i_qlk _ (inv_qlk _ _ (h_inv _ _ _ _ _ _ H))).
  exists t, (phase_of (f :: k)). by rewrite st_on.
Qed.
Lemma st_block_lock u tu :
  threads s !! u = Some tu → (u = t → own_blk (phase_of (f :: k)) = false) → their_blk (phase_of (f :: k)) ≠ Some u →
  behind (phase_of (f :: k)) = false → BlockLock tu ≠ Some c.
Proof using H.
  intros Hu Hp Hp' Hb. rewrite <-(abs_blk _ _ _ Hu). intros Hr.
  apply (i_blk _ _ (inv_blk _ _ (h_inv _ _ _ _ _ _ H))) in Hr
    as [(p & Hp1 & Hown)|[(v & p & Hp1 & Hth)|[(v & [[Hp1 _]|Hp1]) _]]]; rewrite st_on in Hp1.
  - simplify_eq. by rewrite Hp in Hown.
  - by simplify_eq.
  - assert (E : phase_of (f :: k) = Switch) by congruence. by rewrite E in Hb.
  - assert (E : phase_of (f :: k) = Clean u) by congruence. by rewrite E in Hb.
Qed.
Lemma st_block_own : own_blk (phase_of (f :: k)) = true → BlockLock th = Some c.
Proof using H.
  intros Hp. rewrite <-(abs_blk _ _ _ (h_thread _ _ _ _ _ _ H)).
  by apply (i_own _ _ (inv_blk _ _ (h_inv _ _ _ _ _ _ H)) _ _ (phase_of (f :: k)) st_on).
Qed.
Lemma st_block_their u tu :
  threads s !! u = Some tu → their_blk (phase_of (f :: k)) = Some u → BlockLock tu = Some c.
Proof using H.
  intros Hu Hp. rewrite <-(abs_blk _ _ _ Hu).
  by apply (i_their _ _ (inv_blk _ _ (h_inv _ _ _ _ _ _ H)) _ t (phase_of (f :: k)) u st_on).
Qed.
Lemma st_mutex m : kinds !! m = Some true → ∃ y, is_mutex s m y.
Proof using H.
  rewrite <-(wf_kinds _ (h_wf _ _ _ _ _ _ H)). rewrite lookup_fmap_Some. intros ([y|] & E & Hy); [|done].
  by exists y.
Qed.
Lemma st_event e : kinds !! e = Some false → ∃ y, is_event s e y.
Proof using H.
  rewrite <-(wf_kinds _ (h_wf _ _ _ _ _ _ H)). rewrite lookup_fmap_Some. intros ([|y] & E & Hy); [done|].
  by exists y.
Qed.
Lemma st_tid u : u ∈ tids → ∃ tu, threads s !! u = Some tu.
Proof using H. rewrite <-(wf_tids _ (h_wf _ _ _ _ _ _ H)). by rewrite elem_of_dom. Qed.
Lemma st_their u : their_blk (phase_of (f :: k)) = Some u → ∃ tu, threads s !! u = Some tu ∧ BlockLock tu = Some c.
Proof using H.
  intros Hp. pose proof (i_their _ _ (inv_blk _ _ (h_inv _ _ _ _ _ _ H)) _ t (phase_of (f :: k)) u st_on Hp) as Hb.
  simpl in Hb. rewrite lookup_omap in Hb. destruct (threads s !! u) as [tu|]; [eauto|done].
Qed.
Lemma st_target u : target (phase_of (f :: k)) = Some u → ∃ tu, threads s !! u = Some tu ∧ u ≠ t ∧
  (own_blk (phase_of (f :: k)) = false).
Proof using H.
  intros Hp. assert (Hpen : pending (abs s) c u) by (exists t, (phase_of (f :: k)); by rewrite st_on).
  pose proof (inv_wait _ _ (h_inv _ _ _ _ _ _ H)) as Hwt.
  destruct (i_waiting _ _ (inv_place _ _ (h_inv _ _ _ _ _ _ H)) u) as [_ [tu Htu]%abs_thread]; [right; eauto|].
  exists tu. split; [done|]. split; [|by destruct (phase_of (f :: k))]. intros ->.
  destruct (i_pending _ _ Hwt _ _ Hpen) as [[_ []]|(c' & p & Hp' & Hb)].
  - exists c. by eapply on_cur, st_on.
  - destruct (on_inj _ _ _ _ _ _ _ (inv_who _ _ (h_inv _ _ _ _ _ _ H)) st_on Hp') as [-> <-].
    by destruct (phase_of (f :: k)).
Qed.
End Step.

(** ** Tactics for the functions *)
(** Nothing but the acting thread and its CPU changes. *)
Ltac calm_state Hl :=
  first [by left | right; fields_in Hl; split; [intros ?; congruence|done]].
Ltac calm :=
  repeat first
    [ apply calm_refl
    | apply calm_T; [|intros ? Hl; first [by repeat split | apply mild_State; calm_state Hl | repeat split; try done; intros; apply forced_not_pending]]
    | apply calm_C; [|intros ? ?; apply cpu_mild_intro; [done|]; first [by left | by right; left | right; right; by eauto]]
    | eapply calm_put; [|lk|done]
    | apply calm_O; [|intros [] ?; done]
    | apply calm_ready_lock | apply calm_ready_list
    | eapply calm_process; [|lk|done] ].
Ltac on_abs :=
  repeat first
    [ rewrite abs_Block by (eexists; lk) | rewrite abs_Unblock | rewrite abs_State by (eexists; lk)
    | rewrite abs_lock by (eexists; lk) | rewrite abs_unlock | rewrite abs_list by (eexists; lk)
    | rewrite abs_ready_lock | rewrite abs_ready_list | rewrite abs_processes
    | rewrite abs_Previous by (eexists; lk) | rewrite abs_Previous_None | rewrite abs_Current by (eexists; lk)
    | erewrite abs_put; [|lk|done|done]
    | rewrite abs_T by done | rewrite abs_C by done ].

Lemma stack_fine_cons t f g k :
  fits f g = true → frame_ok t f → stack_fine t (g :: k) → stack_fine t (f :: g :: k).
Proof. intros H1 H2 [H3 H4]. split; [|by constructor]. change (fits f g && stack_ok (g :: k) = true). by rewrite H1, H3. Qed.
Lemma stack_fine_inv t f k :
  stack_fine t (f :: k) → frame_ok t f ∧
    (k = [] ∧ (∃ h, f = Run h) ∨ ∃ g k', k = g :: k' ∧ fits f g = true ∧ stack_fine t k ∧ frame_ok t g).
Proof.
  intros [H1 H2]. apply Forall_cons in H2 as [H2 H3]. split; [done|]. destruct k as [|g k'].
  - left. split; [done|]. destruct f; try done. eauto.
  - right. exists g, k'. change (fits f g && stack_ok (g :: k') = true) in H1. apply andb_true_iff in H1 as [H1 H4].
    split_and!; try done. by apply Forall_cons in H3 as [? _].
Qed.

(** A thread that blocks or yields is not ending. *)
Lemma alive t f k :
  stack_fine t (f :: k) → match f with ThreadBlockAt _ | ThreadYieldAt _ => dying (f :: k) = false | _ => True end.
Proof.
  intros [_ [(_ & h & ->)|(g & k1 & -> & Hg & [_ [(-> & h & ->)|(h & k2 & -> & Hh & Hk2 & _)]]%stack_fine_inv & _)]]%stack_fine_inv;
    [done|by destruct f|].
  destruct f; try done; destruct g; try done; destruct h; try done;
    apply stack_fine_inv in Hk2 as [_ [(-> & _)|(h' & k3 & -> & ? & _)]]; try done;
    by repeat match goal with p : yield_pc |- _ => destruct p | p : block_pc |- _ => destruct p
      | p : acquire_pc |- _ => destruct p | p : wait_pc |- _ => destruct p | p : idle_pc |- _ => destruct p
      | p : interrupt_pc |- _ => destruct p end.
Qed.

(** What is known where a function goes on: [g] is the frame below. *)
Ltac here H g :=
  let k' := fresh "k" in let h := fresh in
  pose proof (st_ok _ _ _ _ _ _ _ H) as Hok; pose proof (st_fine _ _ _ _ _ _ _ H) as Hfine;
  pose proof (st_cpu _ _ _ _ _ _ _ H) as [He Hi];
  pose proof (h_cpu _ _ _ _ _ _ H) as Hx; pose proof (h_thread _ _ _ _ _ _ H) as Hth;
  pose proof (h_cur _ _ _ _ _ _ H) as Hcur;
  apply stack_fine_inv in Hfine as [Hf [(-> & h & [=])|(g & k' & -> & Hg & Hfine & Hfg)]];
  try specialize (Hi eq_refl).
Ltac fine := simpl app; repeat apply stack_fine_cons; try done; try by split_and!.
Ltac quiet H := eapply (good_silent _ _ _ _ _ _ _ H); [calm|lk|by eapply (st_dying _ _ _ _ _ _ _ H)|fine|lk|done|done|done|by on_abs|done].

Lemma Interrupt_ok s c t x th p k :
  here s c t x th (InterruptAt p :: k) → wp (Interrupt c p) s (good t k s).
Proof.
  intros H. here H g. destruct p, g; try done; unfold Interrupt, ThreadTick, ThreadYieldOnInterrupt; wps; try done;
    try destruct (YieldOnInterruptReturn x); quiet H.
Qed.

Lemma astep_eq a b b' : astep idle a b → b = b' → astep idle a b'.
Proof. by intros H <-. Qed.
Lemma step_to a b b' : astep idle a b → b = b' → rtc (astep idle) a b'.
Proof. intros H <-. by apply rtc_once. Qed.
(** The machine makes one step, by [tac]. *)
Ltac moves_by H tac :=
  eapply (good_intro _ _ _ _ _ _ _ H);
  [calm|lk|try by eapply (st_dying _ _ _ _ _ _ _ H)|fine|lk|done|try done|done|on_abs; eapply step_to; [tac|try reflexivity]].
(** Take a lock; [tac] shows that the CPU does not hold it. *)
Ltac acquire H tac :=
  eapply wp_LockAcquire; [cbn [lock_of]; lk|tac|lk|intros _; apply (good_busy _ _ _ _ _ _ _ H)|intros Hfree; cbn [lock_set]; recs].

Lemma ThreadTakeBlockLock_ok s c t x th k :
  here s c t x th (ThreadTakeBlockLockAt :: k) → wp (ThreadTakeBlockLock c t) s (good t k s).
Proof.
  intros H. here H g. pose proof (st_on _ _ _ _ _ _ _ H) as Hon.
  unfold ThreadTakeBlockLock. acquire H ltac:(by apply (st_block_lock _ _ _ _ _ _ _ H t th)).
  destruct g as [| | | | | | |m []| | | |e []| | | |]; try done; wps;
    moves_by H ltac:(apply a_take_own; [done|by rewrite (abs_blk _ _ th)]).
Qed.

Lemma ThreadUnblock_ok s c t x th u p k :
  here s c t x th (ThreadUnblockAt u p :: k) → wp (ThreadUnblock c u p) s (good t k s).
Proof.
  intros H. here H g. pose proof (st_on _ _ _ _ _ _ _ H) as Hon. destruct p as [|old|old|old]; unfold ThreadUnblock.
  - destruct (st_target _ _ _ _ _ _ _ H u eq_refl) as (tu & Htu & Hne & _).
    acquire H ltac:(by apply (st_block_lock _ _ _ _ _ _ _ H u tu)). wps.
    moves_by H ltac:(eapply a_take_their; [done|by rewrite (abs_blk _ _ tu)]).
  - destruct (st_target _ _ _ _ _ _ _ H u eq_refl) as (tu & Htu & Hne & _).
    destruct (mkr_parked _ _ _ _ _ _ (h_inv _ _ _ _ _ _ H) Hon) as [Hst _]. rewrite (abs_st _ _ tu) in Hst by done.
    wps; [by apply bool_decide_eq_true_2; simplify_eq|]. quiet H.
  - destruct (st_target _ _ _ _ _ _ _ H u eq_refl) as (tu & Htu & Hne & _).
    destruct (mkr_parked _ _ _ _ _ _ (h_inv _ _ _ _ _ _ H) Hon) as [Hst _]. rewrite (abs_st _ _ tu) in Hst by done.
    acquire H ltac:(by apply (st_ready_lock _ _ _ _ _ _ _ H)). wps; [done|]. rewrite Hi.
    moves_by H ltac:(eapply a_make_ready; done).
    unfold set_phase, set_st, set_ready, set_rl. simpl. f_equal. exact Hfree.
  - destruct (st_their _ _ _ _ _ _ _ H u eq_refl) as (tu & Htu & Hb). simpl in Hf. subst old.
    destruct (decide (u = t)) as [->|Hne]; [assert (tu = th) as -> by congruence|]; wps; try done; try congruence;
      (destruct g as [| | | | | | | |m []|e []| | | | | |]; try done);
      moves_by H ltac:(eapply a_drop_their; done).
Qed.

Lemma on_set_phase a c t p : a_cur a !! c = Some t → on (set_phase t p a) c = Some (t, p).
Proof. intros H. unfold on. simpl. rewrite H. cbn. by rewrite lookup_insert_eq. Qed.
Lemma set_phase_q a t p q l : set_phase t p (set_q q l a) = set_q q l (set_phase t p a).
Proof. done. Qed.
Lemma set_phase_twice a t p p' : set_phase t p (set_phase t p' a) = set_phase t p a.
Proof. unfold set_phase. simpl. by rewrite insert_insert_eq. Qed.
(** The lock of a free mutex or event [w] is taken. *)
Ltac lock_step w := eapply a_lock_queue; [done|by rewrite (abs_qlk _ _ w)|by rewrite (abs_q _ _ w)].
(** With what the code asserts about the depth of the mutex. *)
Lemma MutexAcquire_ok s c t x th m p k :
  here s c t x th (MutexAcquireAt m p :: k) →
  (p = A_enter → ∀ y, is_mutex s m y → Holder y = Some t → CurrentRecursivityDepth y < MaxRecursivityDepth y) →
  wp (MutexAcquire c t m p) s (good t k s).
Proof.
  intros H Hdepth. here H g. pose proof (st_on _ _ _ _ _ _ _ H) as Hon. destruct Hf as (Hm & Hid & Hd).
  destruct (st_mutex _ _ _ _ _ _ _ H m Hm) as [y Hy]. destruct g; try done.
  destruct p as [|old|old dummy|old dummy|old]; try specialize (Hi eq_refl); unfold MutexAcquire.
  - wps; [by apply Z.ltb_lt, Hdepth|..].
    + quiet H.
    + quiet H.
  - acquire H ltac:(by apply (st_queue_lock _ _ _ _ _ _ _ H m (SMutex y))). wps;
      moves_by H ltac:(lock_step (SMutex y)).
  - pose proof (st_queue_held _ _ _ _ _ _ _ H m _ Hy eq_refl) as Hl. simpl in Hl. simpl in Hd. subst dummy. wps; try done.
    + moves_by H ltac:(by eapply a_unlock_queue).
    + moves_by H ltac:(by eapply a_enqueue; [| |by rewrite (abs_q _ _ (SMutex y))]).
  - pose proof (st_queue_held _ _ _ _ _ _ _ H m _ Hy eq_refl) as Hl. simpl in Hl. simpl in Hd. subst dummy. wps; try done.
    moves_by H ltac:(by eapply a_leave_queue).
  - acquire H ltac:(by apply (st_queue_lock _ _ _ _ _ _ _ H m (SMutex y))). wps.
    moves_by H ltac:(lock_step (SMutex y)).
Qed.

Lemma MutexRelease_ok s c t x th m p k :
  here s c t x th (MutexReleaseAt m p :: k) →
  (p = R_enter → ∀ y, is_mutex s m y → Holder y = Some t) →
  wp (MutexRelease c t m p) s (good t k s).
Proof.
  intros H Howner. here H g. pose proof (st_on _ _ _ _ _ _ _ H) as Hon. simpl in Hf.
  destruct (st_mutex _ _ _ _ _ _ _ H m Hf) as [y Hy]. destruct g; try done.
  destruct p as [| |old]; try specialize (Hi eq_refl); unfold MutexRelease.
  - wps; [by apply bool_decide_eq_true_2; rewrite Howner|..].
    + quiet H.
    + quiet H.
  - acquire H ltac:(by apply (st_queue_lock _ _ _ _ _ _ _ H m (SMutex y))). wps.
    + moves_by H ltac:(lock_step (SMutex y)).
    + eapply (good_intro _ _ _ _ _ _ _ H);
        [calm|lk|try by eapply (st_dying _ _ _ _ _ _ _ H)|fine|lk|done|done|done|on_abs; eapply rtc_l; [lock_step (SMutex y)|]].
      eapply step_to; [eapply a_dequeue; [by apply on_set_phase, (on_cur _ _ _ _ Hon)|]|].
      * simpl. by rewrite lookup_fmap, Hy; simpl; f_equal.
      * rewrite <-!set_phase_q, set_phase_twice. done.
  - pose proof (st_queue_held _ _ _ _ _ _ _ H m _ Hy eq_refl) as Hl. simpl in Hl. wps; try done; subst.
    moves_by H ltac:(by eapply a_unlock_queue).
Qed.

Lemma ThreadBlock_enter_ok s c t x th k :
  here s c t x th (ThreadBlockAt B_enter :: k) → terminate_pending th = false → wp (ThreadBlock c t B_enter) s (good t k s).
Proof.
  intros H Hflags. here H g. pose proof (st_on _ _ _ _ _ _ _ H) as Hon. pose proof (st_fine _ _ _ _ _ _ _ H) as Hfine'.
  pose proof (st_block_own _ _ _ _ _ _ _ H eq_refl) as Hb.
  unfold ThreadBlock. wps; try congruence; [by rewrite Hi|by apply bool_decide_eq_true_2|].
  moves_by H ltac:(by eapply a_mark_blocked). simpl State. apply alive in Hfine'. simpl in *. by rewrite Hfine'.
Qed.
Lemma _IdleThread_ok s c t x th p k :
  here s c t x th (IdleThreadAt p :: k) → wp (_IdleThread c t p) s (good t k s).
Proof.
  intros H. here H g. pose proof (st_on _ _ _ _ _ _ _ H) as Hon. destruct g; try done.
  destruct p; try specialize (Hi eq_refl); unfold _IdleThread.
  - wps. quiet H.
  - acquire H ltac:(by apply (st_block_lock _ _ _ _ _ _ _ H t th)). wps.
    moves_by H ltac:(apply a_idle_take; [done| |by rewrite (abs_blk _ _ th)]).
    destruct Hf as [c' Hc']. by rewrite (i_idle_cpu _ _ (inv_who _ _ (h_inv _ _ _ _ _ _ H)) _ c _ Hc' (on_cur _ _ _ _ Hon)) in Hc'.
  - wps. quiet H.
Qed.

Lemma ExEventSignal_ok s c t x th e p k :
  here s c t x th (ExEventSignalAt e p :: k) → wp (ExEventSignal c e p) s (good t k s).
Proof.
  intros H. here H g. pose proof (st_on _ _ _ _ _ _ _ H) as Hon. simpl in Hf.
  destruct (st_event _ _ _ _ _ _ _ H e Hf) as [y Hy].
  assert (Hp : phase_of (g :: k0) = Normal) by (destruct g; try done; by destruct p0).
  assert (Hi' : intr_off (g :: k0) = false) by (destruct g; try done; by destruct p0).
  destruct p as [|old|old]; try specialize (Hi eq_refl); unfold ExEventSignal.
  - acquire H ltac:(by apply (st_queue_lock _ _ _ _ _ _ _ H e (SEvent y))). wps.
    moves_by H ltac:(lock_step (SEvent y)).
  - pose proof (st_queue_held _ _ _ _ _ _ _ H e _ Hy eq_refl) as Hl. simpl in Hl. wps; try done.
    + moves_by H ltac:(by eapply a_unlock_queue).
      * simpl app. by rewrite Hi'.
      * simpl app. by rewrite Hp.
    + moves_by H ltac:(eapply a_dequeue; [done|]). rewrite (abs_q _ _ (SEvent y)) by done. simpl. by f_equal.
  - pose proof (st_queue_held _ _ _ _ _ _ _ H e _ Hy eq_refl) as Hl. simpl in Hl. wps; try done.
    + moves_by H ltac:(by eapply a_unlock_queue).
      * simpl app. by rewrite Hi'.
      * simpl app. by rewrite Hp.
    + quiet H.
Qed.
Lemma ExEventClearSignal_ok s c t x th e k :
  here s c t x th (ExEventClearSignalAt e :: k) → wp (ExEventClearSignal e) s (good t k s).
Proof.
  intros H. here H g. destruct g; try done. destruct (st_event _ _ _ _ _ _ _ H e Hf) as [y Hy].
  unfold ExEventClearSignal. wps. quiet H.
Qed.
Lemma ExEventWaitForSignal_ok s c t x th e p k :
  here s c t x th (ExEventWaitForSignalAt e p :: k) → wp (ExEventWaitForSignal c t e p) s (good t k s).
Proof.
  intros H. here H g. pose proof (st_on _ _ _ _ _ _ _ H) as Hon. destruct Hf as (Hm & Hid & Hd).
  destruct (st_event _ _ _ _ _ _ _ H e Hm) as [y Hy]. destruct g; try done.
  destruct p as [|old|old|old dummy|old]; try specialize (Hi eq_refl); unfold ExEventWaitForSignal.
  - wps. quiet H.
  - wps; quiet H.
  - acquire H ltac:(by apply (st_queue_lock _ _ _ _ _ _ _ H e (SEvent y))). wps.
    eapply (good_intro _ _ _ _ _ _ _ H);
      [calm|lk|by eapply (st_dying _ _ _ _ _ _ _ H)|fine|lk|done|done|done|on_abs; eapply rtc_l; [lock_step (SEvent y)|]].
    eapply step_to; [eapply a_enqueue; [by apply on_set_phase, (on_cur _ _ _ _ Hon)|done|]|].
    + simpl. by rewrite lookup_fmap, Hy.
    + rewrite <-!set_phase_q, set_phase_twice. done.
  - pose proof (st_queue_held _ _ _ _ _ _ _ H e _ Hy eq_refl) as Hl. simpl in Hl, Hd. subst dummy. wps; try done.
    moves_by H ltac:(by eapply a_leave_queue).
  - wps; quiet H.
Qed.

(** ** Switching threads *)
Lemma wp_ThreadGetReadyThread s c x (Q : nat → SYS → Prop) :
  cpus s !! c = Some x → Intr x = false → ReadyThreadsLock s = Some c → idle !! c = Some (IdleThread x) →
  (∀ u, u ∈ ReadyThreadsList s → ∃ tu, threads s !! u = Some tu ∧ State tu = ThreadStateReady) →
  (∀ n l, next_thread idle c (ReadyThreadsList s) = Some (n, l) → Q n (set_ready_list l s)) →
  wp (_ThreadGetReadyThread c) s Q.
Proof.
  intros Hx Hi Hrl Hidle Hready HQ. unfold _ThreadGetReadyThread. destruct (ReadyThreadsList s) as [|n l] eqn:Hl.
  - do 4 wp_step; [by rewrite Hi|]. do 4 wp_step; [by apply bool_decide_eq_true_2|]. do 2 wp_step. rewrite Hl. wps.
    replace s with (set_ready_list [] s) by (destruct s; simpl in *; by subst). apply HQ. simpl. by rewrite Hidle.
  - destruct (Hready n) as (tn & Htn & Hst); [by left|].
    do 4 wp_step; [by rewrite Hi|]. do 4 wp_step; [by apply bool_decide_eq_true_2|]. do 2 wp_step. rewrite Hl. wps.
    + by apply bool_decide_eq_true_2.
    + by apply HQ.
Qed.
Lemma wp_ThreadSchedule s c t x th (Q : list frame → SYS → Prop) :
  cpus s !! c = Some x → CurrentThread x = t → Intr x = false → ReadyThreadsLock s = Some c →
  threads s !! t = Some th → idle !! c = Some (IdleThread x) → t ∈ tids →
  (∀ u, u ∈ ReadyThreadsList s → ∃ tu, threads s !! u = Some tu ∧ State tu = ThreadStateReady) →
  (∀ n l fs s' x' th', next_thread idle c (ReadyThreadsList s) = Some (n, l) →
    (n = t ∧ fs = [ThreadCleanupAt C_enter] ∨ n ≠ t ∧ fs = [ThreadScheduleAt]) →
    calm c t s s' → cpus s' !! c = Some x' → CurrentThread x' = n → Intr x' = false →
    threads s' !! t = Some th' → State th' = State th →
    (∀ k, abs (T t (with_Stack (fs ++ k)) s') = switch c t n l (abs s)) → Q fs s') →
  wp (_ThreadSchedule c) s Q.
Proof.
  intros Hx Hcur Hi Hrl Hth Hidle Ht Hready HQ.
  assert (Ha : abs s = mkA (a_cur (abs s)) (a_prev (abs s)) (a_phase (abs s)) (a_st (abs s)) (a_blk (abs s))
    (a_q (abs s)) (a_qlk (abs s)) (Some c) (ReadyThreadsList s)) by (unfold abs; by rewrite Hrl).
  assert (Hid : a_cur (abs s) = <[c := t]> (a_cur (abs s))).
  { symmetry. apply insert_id, abs_cur. eauto. }
  unfold _ThreadSchedule. wps; rewrite ?Hi; try done; try by apply bool_decide_eq_true_2.
  eapply wp_ThreadGetReadyThread; [lk|done|done|done|done|]. intros n l Hn. fields. wps.
  - eapply (HQ n l); [done|by left|calm|lk|simpl; congruence|done|lk|done|].
    intros k. rewrite abs_Stack by (eexists; lk). on_abs. rewrite Ha. unfold set_prev, set_phase, switch. simpl. f_equal. subst n. done.
  - eapply (HQ n l); [done|by right|calm|lk|done|done|lk|done|].
    intros k. rewrite abs_Stack by (eexists; lk). on_abs. rewrite Ha. unfold set_prev, set_phase, switch. simpl. by f_equal.
Qed.

(** The threads a CPU can switch to are not ending. *)
Lemma next_alive s c t x th k n : here s c t x th k → n ∈ ReadyThreadsList s ∨ is_idle idle n →
  ∃ tn, threads s !! n = Some tn ∧ exited (Stack tn) = false.
Proof.
  intros [H1 H2 H3 H4 H5 H6] Hn.
  assert (is_Some (a_phase (abs s) !! n) ∧ a_st (abs s) !! n ≠ Some ThreadStateDying) as [[tn Htn]%abs_thread Hst].
  { destruct Hn as [Hn|[c' Hc']].
    - destruct (i_ready _ _ (inv_place _ _ H2) n Hn) as (E & _ & _ & _ & ?). by rewrite E.
    - split; [by eapply (i_idle_phase _ _ (inv_who _ _ H2))|]. apply (i_idle_st _ _ (inv_wait _ _ H2)). by exists c'. }
  exists tn. split; [done|]. rewrite (abs_st _ _ tn) in Hst by done.
  destruct (exited (Stack tn)) eqn:E; [|done]. apply exited_dying in E. destruct Hst. f_equal.
  by apply (t_dying _ _ (wf_thread _ H1 n tn Htn)).
Qed.
Lemma ready_state s c t x th k u :
  here s c t x th k → u ∈ ReadyThreadsList s → u ≠ t ∧ ¬ is_idle idle u ∧ ∃ tu, threads s !! u = Some tu ∧ State tu = ThreadStateReady.
Proof.
  intros [H1 H2 H3 H4 H5 H6] Hu. destruct (i_ready _ _ (inv_place _ _ H2) u Hu) as (E & Hr & Hid & _ & [tu Htu]%abs_thread).
  split; [|split; [done|]].
  - intros ->. apply Hr. exists c. apply abs_cur. eauto.
  - exists tu. split; [done|]. rewrite (abs_st _ _ tu) in E by done. by simplify_eq.
Qed.

(** The thread leaves the CPU, to go on at [g] later; [s1] is the state in which it
    has prepared for it and has taken the ready lock. *)
Lemma schedule_ok s c t x th f k s1 x1 th1 g :
  here s c t x th (f :: k) → calm c t s s1 → cpus s1 !! c = Some x1 → CurrentThread x1 = t → IdleThread x1 = IdleThread x →
  Intr x1 = false → ReadyThreadsLock s1 = Some c → threads s1 !! t = Some th1 →
  (∀ u, u ≠ t → threads s1 !! u = threads s !! u) →
  (ReadyThreadsList s1 = ReadyThreadsList s ∨
    ReadyThreadsList s1 = ReadyThreadsList s ++ [t] ∧ State th1 = ThreadStateReady) →
  (State th1 = ThreadStateDying ↔ dying (g :: k) = true) → stack_fine t (g :: k) → 
  (∃ p, g = ThreadYieldAt (Y_return p)) ∨ g = ThreadBlockAt B_return ∨ g = ThreadExitAt X_return ∧ ¬ is_idle idle t ∧ ReadyThreadsList s1 = ReadyThreadsList s →
  (∀ n l, next_thread idle c (ReadyThreadsList s1) = Some (n, l) → astep idle (abs s) (switch c t n l (abs s1))) →
  wp (_ThreadSchedule c) s1 (λ fs s', good t k s (fs ++ [g]) s').
Proof.
  intros H Hc Hx1 Hcur Hidle Hi Hrl Hth1 Hother Hlist Hd Hfine Hg Hstep. pose proof H as [H1 H2 H3 H4 H5 H6].
  assert (Hid : idle !! c = Some (IdleThread x1)) by (rewrite <-(wf_idle _ H1), lookup_fmap, H3, Hidle; done).
  assert (Hin : ∀ u, u ∈ ReadyThreadsList s1 → u ∈ ReadyThreadsList s ∨ u = t ∧ State th1 = ThreadStateReady).
  { intros u. destruct Hlist as [->|[-> E]]; [by left|]. rewrite elem_of_app, list_elem_of_singleton. naive_solver. }
  eapply (wp_ThreadSchedule _ _ t x1 th1); try done.
  { rewrite <-(wf_tids _ H1). by apply elem_of_dom. }
  { intros u [Hu|[-> E]]%Hin; [|by eauto]. destruct (ready_state _ _ _ _ _ _ _ H Hu) as (Hne & _ & tu & Htu & Hst).
    exists tu. by rewrite Hother. }
  intros n l fs s' x' th' Hn Hfs Hc' Hx' Hcur' Hi' Hth' Hst' Habs.
  assert (Hnx : n ∈ ReadyThreadsList s1 ∨ is_idle idle n).
  { destruct (ReadyThreadsList s1) as [|v l'] eqn:E; simpl in Hn.
    - rewrite Hid in Hn. cbn in Hn. right. exists c. congruence.
    - simplify_eq. left. by left. }
  assert (Hfs' : stack_fine t (fs ++ g :: k) ∧ dying (fs ++ g :: k) = dying (g :: k)
    ∧ exited (fs ++ g :: k) = exited (g :: k) ∧ phase_of (fs ++ g :: k) = Switch).
  { assert (fits ThreadScheduleAt g = true ∧ fits (ThreadCleanupAt C_enter) g = true) as [? ?].
    { destruct Hg as [[p ->]|[->|[-> _]]]; done. }
    destruct Hfs as [[_ ->]|[_ ->]]; (split_and!; [fine|done..]). }
  destruct Hfs' as (Hs1 & Hs2 & Hs3 & Hs4). unfold good. rewrite <-app_assoc. simpl app. split.
  - apply (wf_step c t x s s' th'); try done; [by eapply st_one|by eapply calm_trans|by rewrite Hst', Hs2|].
    intros y Hy. simplify_eq. destruct Hfs as [[Hnt ->]|[Hnt ->]].
    + left. split_and!; [done|done|]. rewrite Hs3. destruct Hg as [[p ->]|[->|(-> & Hni & E)]].
      * by apply not_true_iff_false; intros E%exited_dying; apply alive in Hfine; simpl in *; congruence.
      * by apply not_true_iff_false; intros E%exited_dying; apply alive in Hfine; simpl in *; congruence.
      * exfalso. rewrite Hnt in Hnx. destruct Hnx as [Hu|Hu]; [|done]. rewrite E in Hu.
        destruct (ready_state _ _ _ _ _ _ _ H Hu) as [Hne _]. congruence.
    + right. split; [done|]. destruct (next_alive _ _ _ _ _ _ (CurrentThread x') H) as (tn & Htn & He); [|eauto].
      destruct Hnx as [[?|[? _]]%Hin|?]; [by left|done|by right].
  - rewrite Habs. by apply rtc_once, Hstep.
Qed.

Lemma wp_mono {A} (m : M SYS A) s (Q Q' : A → SYS → Prop) :
  wp m s Q → (∀ a s', Q a s' → Q' a s') → wp m s Q'.
Proof. intros (a & s' & E & H) HQ. exists a, s'. eauto. Qed.

(** The thread has prepared to leave the CPU, and goes on at [g]. *)
Ltac schedules H g :=
  eapply wp_mono; [eapply (schedule_ok _ _ _ _ _ _ _ _ _ _ g H);
    [calm|lk|done|done|done|lk|lk|intros u Hu; lk|first [left; by lk|right; split; [by lk|done]]| |fine| |]
  |intros fs s' Hgood; wps; exact Hgood].

Lemma ThreadYield_ok s c t x th p k :
  here s c t x th (ThreadYieldAt p :: k) → wp (ThreadYield c t p) s (good t k s).
Proof.
  intros H. here H g. pose proof (st_on _ _ _ _ _ _ _ H) as Hon. pose proof (st_fine _ _ _ _ _ _ _ H) as Hfine'.
  apply alive in Hfine'. simpl in Hfine'.
  assert (Hid : idle !! c = Some (IdleThread x)) by by rewrite <-(wf_idle _ (h_wf _ _ _ _ _ _ H)), lookup_fmap, Hx.
  assert (Hst : a_st (abs s) !! t ≠ Some ThreadStateDying).
  { rewrite (abs_st _ _ th) by done. intros [= E%(t_dying _ _ Hok)]. rewrite (h_stack _ _ _ _ _ _ H) in E. simpl in E. congruence. }
  destruct p as [|old forced|old]; try specialize (Hi eq_refl); unfold ThreadYield.
  - (* the thread has been asked to end *)
    assert (Hforced : terminate_pending th = true → ¬ is_idle idle t) by (intros Hp Hit; by rewrite (t_flags _ _ Hok Hit) in Hp).
    unfold _ThreadForcedExit. wps; [specialize (Hforced eq_refl)|]; destruct g as [| | | | | | | | | | | | | |[]|]; try done; quiet H.
  - acquire H ltac:(by apply (st_ready_lock _ _ _ _ _ _ _ H)).
    wps; (schedules H (ThreadYieldAt (Y_return old)); [by simpl; rewrite Hfine'|left; eauto|]).
    all: intros n l Hn; on_abs; eapply astep_eq; [apply (a_yield _ _ c t n l); [done|done|done|]|done].
    all: first [rewrite decide_True by congruence|rewrite decide_False by congruence]; exact Hn.
  - wps; [by rewrite bool_decide_eq_false_2; [|apply (st_ready_lock _ _ _ _ _ _ _ H)]|].
    destruct g as [| | | | | | | | | | | | | |[]|]; try done; quiet H.
Qed.
Lemma ThreadBlock_ok s c t x th p k :
  here s c t x th (ThreadBlockAt p :: k) → (p = B_enter → terminate_pending th = false) → wp (ThreadBlock c t p) s (good t k s).
Proof.
  intros H Hflags. destruct p; [by eapply ThreadBlock_enter_ok; eauto|..]; here H g;
    pose proof (st_on _ _ _ _ _ _ _ H) as Hon; pose proof (st_fine _ _ _ _ _ _ _ H) as Hfine';
    apply alive in Hfine'; simpl in Hfine'; unfold ThreadBlock.
  - acquire H ltac:(by apply (st_ready_lock _ _ _ _ _ _ _ H)).
    pose proof (i_blocked _ _ (inv_wait _ _ (h_inv _ _ _ _ _ _ H)) _ _ Hon) as Hst. rewrite (abs_st _ _ th) in Hst by done.
    wps. schedules H (ThreadBlockAt B_return); [|by right; left|].
    + simplify_eq. simpl. by rewrite Hst, Hfine'.
    + intros n l Hn. on_abs. eapply astep_eq; [by apply (a_block _ _ c t n l)|done].
  - wps; [by rewrite bool_decide_eq_false_2; [|apply (st_ready_lock _ _ _ _ _ _ _ H)]|].
    destruct g as [| | | | | | |m []| | | |e []| |[]| |]; try done; quiet H.
Qed.
Lemma ThreadScheduleAt_ok s c t x th k :
  here s c t x th (ThreadScheduleAt :: k) → wp (_ThreadSchedule_switched c) s (good t k s).
Proof.
  intros H. here H g. pose proof (st_on _ _ _ _ _ _ _ H) as Hon.
  assert (Hr : ReadyThreadsLock s = Some c) by (apply (i_rl _ (inv_rl _ _ (h_inv _ _ _ _ _ _ H))); eauto).
  unfold _ThreadSchedule_switched. wps; [by rewrite Hi|by apply bool_decide_eq_true_2|].
  assert (fits (ThreadCleanupAt C_enter) g = true) by (destruct g; done). quiet H.
Qed.
Lemma ThreadCleanupPostSchedule_ok s c t x th p k :
  here s c t x th (ThreadCleanupAt p :: k) → wp (ThreadCleanupPostSchedule c p) s (good t k s).
Proof.
  intros H. here H g. pose proof (st_on _ _ _ _ _ _ _ H) as Hon.
  destruct p as [|prevThread]; try specialize (Hi eq_refl); unfold ThreadCleanupPostSchedule.
  - assert (Hr : ReadyThreadsLock s = Some c) by (apply (i_rl _ (inv_rl _ _ (h_inv _ _ _ _ _ _ H))); eauto).
    destruct (i_prev _ (inv_rl _ _ (h_inv _ _ _ _ _ _ H)) _ _ Hon) as [p Hp]. rewrite (abs_prev _ _ x) in Hp by done.
    assert (Hpt : p ∈ tids) by (by apply (proj1 (wf_cpu _ (h_wf _ _ _ _ _ _ H) c x Hx))).
    wps; [by rewrite Hi|done|]. rewrite Hp.
    moves_by H ltac:(eapply (a_release_ready _ _ c t p); [done|by rewrite (abs_prev _ _ x)]).
  - destruct (st_tid _ _ _ _ _ _ _ H prevThread Hf) as [tp Htp].
    assert (Hassert : BlockLock tp = Some c →
      bool_decide (State tp = ThreadStateBlocked) || bool_decide (prevThread = IdleThread x) = true).
    { intros Hb. rewrite <-(abs_blk _ _ _ Htp) in Hb. apply orb_true_iff. rewrite !bool_decide_eq_true.
      destruct (i_blk _ _ (inv_blk _ _ (h_inv _ _ _ _ _ _ H)) _ _ Hb)
        as [(p & Hp & Hown)|[(v & p & Hp & Hown)|[_ [Hid|[[Hst _] _]]]]]; try (rewrite Hon in Hp; by simplify_eq).
      - right. rewrite <-(wf_idle _ (h_wf _ _ _ _ _ _ H)), lookup_fmap, Hx in Hid. simpl in Hid. congruence.
      - left. rewrite (abs_st _ _ _ Htp) in Hst. congruence. }
    assert (Hblk : a_blk (abs s) !! prevThread = BlockLock tp) by by apply abs_blk.
    destruct g as [|[]| | | |[]| | | | | | |[]| | |[]]; try done.
    all: destruct (decide (prevThread = t)) as [->|Hne]; [assert (tp = th) as -> by congruence|];
      wps; auto; try (unfold _ThreadDereference; wps).
    all: first
      [ by moves_by H ltac:(eapply a_release_blocked; [done|by rewrite Hblk])
      | by moves_by H ltac:(eapply (a_release_none _ _ _ _ _ (delete c (a_prev (abs s)))); [done|by rewrite Hblk|intros ? ?; by rewrite lookup_delete_ne])
      | by moves_by H ltac:(eapply (a_release_none _ _ _ _ _ (a_prev (abs s))); [done|by rewrite Hblk|done]) ].
Qed.

Lemma ThreadExit_ok s c t x th p k :
  here s c t x th (ThreadExitAt p :: k) → wp (ThreadExit c t p) s (good t k s).
Proof.
  intros H. here H g. pose proof (st_on _ _ _ _ _ _ _ H) as Hon. simpl in Hf.
  destruct p as [status| | |]; unfold ThreadExit; try done.
  - assert (Hb : BlockLock th ≠ Some c) by by apply (st_block_lock _ _ _ _ _ _ _ H t th).
    pose proof (t_event _ _ Hok) as Hev. wps; try congruence.
    moves_by H ltac:(by apply (a_dying _ _ c t)); [done|].
    symmetry. apply (set_phase_same _ c t). exact Hon.
  - destruct (t_process _ _ Hok) as (e & He1 & He2). rewrite <-(wf_evts _ (h_wf _ _ _ _ _ _ H)) in He1.
    rewrite lookup_fmap_Some in He1. destruct He1 as (y & <- & Hy).
    unfold ProcessNotifyThreadTermination. wps; quiet H.
  - assert (Hst : State th = ThreadStateDying) by (apply (t_dying _ _ Hok); by rewrite (h_stack _ _ _ _ _ _ H)).
    acquire H ltac:(by apply (st_ready_lock _ _ _ _ _ _ _ H)). wps.
    schedules H (ThreadExitAt X_return); [by simpl; rewrite Hst|by right; right|].
    intros n l Hn. on_abs. eapply astep_eq; [apply (a_exit _ _ c t n l); try done; by rewrite (abs_st _ _ th), Hst|done].
Qed.

Lemma ThreadStart_ok s c t x th p k :
  here s c t x th (ThreadStartAt p :: k) → wp (ThreadStart c p) s (good t k s).
Proof.
  intros H. here H g. destruct g; try done. destruct p; try specialize (Hi eq_refl); unfold ThreadStart; wps; quiet H.
Qed.

(** ** Every position *)
(** What MutexAcquire and MutexRelease assert of the mutex. *)
Definition mutex_pre s (t : nat) (f : frame) : Prop :=
  match f with
  | MutexAcquireAt m A_enter => ∀ y, is_mutex s m y → Holder y = Some t → CurrentRecursivityDepth y < MaxRecursivityDepth y
  | MutexReleaseAt m R_enter => ∀ y, is_mutex s m y → Holder y = Some t
  | _ => True
  end.
Lemma code_ok s c t x th f k :
  here s c t x th (f :: k) → mutex_pre s t f → ¬ forced_block s t f → wp (code c t f) s (good t k s).
Proof.
  intros H Hpre Hforced. destruct f; simpl code.
  - apply wp_ret. by eapply good_busy.
  - by eapply ThreadYield_ok.
  - by eapply ThreadScheduleAt_ok.
  - by eapply ThreadCleanupPostSchedule_ok.
  - by eapply ThreadTakeBlockLock_ok.
  - eapply ThreadBlock_ok; [done|]. intros ->. apply not_true_iff_false. intros Hp. apply Hforced. split; [done|].
    exists th. by rewrite (h_thread _ _ _ _ _ _ H).
  - by eapply ThreadUnblock_ok.
  - eapply MutexAcquire_ok; [done|]. by intros ->.
  - eapply MutexRelease_ok; [done|]. by intros ->.
  - by eapply ExEventSignal_ok.
  - by eapply ExEventClearSignal_ok.
  - by eapply ExEventWaitForSignal_ok.
  - by eapply ThreadExit_ok.
  - by eapply _IdleThread_ok.
  - by eapply Interrupt_ok.
  - by eapply ThreadStart_ok.
Qed.

Lemma runs_here s c t k : wf s → inv idle (abs s) → runs s c t k → ∃ x th, here s c t x th k.
Proof. intros Hwf Hinv (x & th & Hx & Hcur & Hth & Hk). by exists x, th. Qed.
Lemma inv_steps a a' : inv idle a → rtc (astep idle) a a' → inv idle a'.
Proof. intros Hi Hs. induction Hs; [done|]. eauto using inv_step. Qed.

(** A state that satisfies the invariant. *)
Definition sane s : Prop := wf s ∧ inv idle (abs s).
Lemma call_ok s c t held k :
  sane s → runs s c t [Run held] → call s t held k → sane (T t (with_Stack k) s) ∧ abs (T t (with_Stack k) s) = abs s.
Proof.
  intros [Hwf Hinv] Hr Hcall. destruct (runs_here _ _ _ _ Hwf Hinv Hr) as (x & th & H). pose proof H as [H1 H2 H3 H4 H5 H6].
  assert (Hidle : is_idle idle t ↔ is_idle_thread s t).
  { unfold is_idle, is_idle_thread. rewrite <-(wf_idle _ Hwf). setoid_rewrite lookup_fmap_Some. naive_solver. }
  assert (Hm : ∀ m y, is_mutex s m y → kinds !! m = Some true).
  { intros m y Hy. rewrite <-(wf_kinds _ Hwf), lookup_fmap, Hy. done. }
  assert (Hev : ∀ m y, is_event s m y → kinds !! m = Some false).
  { intros m y Hy. rewrite <-(wf_kinds _ Hwf), lookup_fmap, Hy. done. }
  assert (Hk : ∃ f held', k = [f; Run held'] ∧ fits f (Run held') = true ∧ frame_ok t f ∧ phase_of k = Normal
    ∧ intr_off k = false ∧ dying k = false).
  { destruct Hcall; eexists _, _; split_and!; try done; simpl; try split_and!; try done; try (by rewrite Hidle); eauto. }
  destruct Hk as (f & held' & -> & Hk1 & Hk2 & Hk3 & Hk4 & Hk5).
  assert (Hg : good t [] s [f; Run held'] s).
  { eapply (good_intro s c t x th (Run held) [] H); [apply calm_refl|done|..|done|done| | |].
    - eapply (st_dying _ _ _ _ _ _ _ H); [done|]. simpl app. by rewrite Hk5.
    - fine. split; [done|by repeat constructor].
    - simpl app. by rewrite Hk4.
    - apply not_true_iff_false. intros E%exited_dying. simpl app in E. congruence.
    - simpl app. rewrite Hk3, (set_phase_same _ c t); [done|]. apply (st_on _ _ _ _ _ _ _ H). }
  destruct Hg as [Hg _]. assert (E : abs (T t (with_Stack [f; Run held']) s) = abs s).
  { rewrite abs_Stack by eauto. simpl app. rewrite Hk3, (set_phase_same _ c t); [done|]. apply (st_on _ _ _ _ _ _ _ H). }
  split; [|done]. split; [done|]. by rewrite E.
Qed.
End Refinement.
