(* ===== verification/SchedMutex.v ===== *)
(** Mutexes (mutex.c) over the scheduler: who holds a mutex, who waits for it, and that a
    mutex is handed over to the thread that is woken. What a thread has to do with mutexes
    is read off its stack (its [view]); the invariant relates it to the fields of the
    mutexes, pair by pair. *)
From stdpp Require Import relations.
From S2P Require Import Prelude SchedSpec Sched SchedRefine.

(** * Views of stacks and mutexes *)
Record view := mkView { v_held : list nat; v_acq : option (nat * acquire_pc); v_rel : option (nat * release_pc) }.
Record mc := mkMc { mc_holder : option nat; mc_depth : Z; mc_max : Z; mc_list : list nat }.

Fixpoint view_of (k : list frame) : view :=
  match k with
  | [] => mkView [] None None
  | Run h :: _ => mkView h None None
  | MutexAcquireAt m p :: k' => mkView (v_held (view_of k')) (Some (m, p)) (v_rel (view_of k'))
  | MutexReleaseAt m (R_unlock _) :: k' => view_of k'
  | MutexReleaseAt m p :: k' => mkView (v_held (view_of k')) (v_acq (view_of k')) (Some (m, p))
  | _ :: k' => view_of k'
  end.
Definition mc_of (w : waitable) : option mc :=
  match w with
  | SMutex m => Some (mkMc (Holder m) (CurrentRecursivityDepth m) (MaxRecursivityDepth m) (WaitingList m))
  | SEvent _ => None
  end.
Definition views (s : SYS) : gmap nat view := (λ th, view_of (Stack th)) <$> threads s.
Definition mcs (s : SYS) : gmap nat mc := omap mc_of (objects s).

(** How many times the thread has the mutex [m]: an acquisition that is under way does not
    count yet, a release that is under way still does. *)
Definition acquires (v : view) (m : nat) : bool :=
  match v_acq v with Some (m', _) => bool_decide (m' = m) | None => false end.
Definition releases (v : view) (m : nat) : bool :=
  match v_rel v with Some (m', _) => bool_decide (m' = m) | None => false end.
Definition owned (v : view) (m : nat) : Z :=
  Z.of_nat (count m (v_held v)) - (if acquires v m then 1 else 0) + (if releases v m then 1 else 0).
(** The thread has put itself into the waiting list; it may have been handed the mutex. *)
Definition parked_at (p : acquire_pc) : bool := match p with A_unlock _ _ | A_again _ => true | _ => false end.
Definition late (p : acquire_pc) : bool := match p with A_unlock _ _ | A_again _ | A_loop _ _ => true | _ => false end.

(** The invariant of the mutex [m] with the thread [t]. *)
Record pair_ok (m : nat) (x : mc) (t : nat) (v : view) : Prop := {
  p_holder : mc_holder x = Some t →
    owned v m = mc_depth x ∧ 1 ≤ mc_depth x ∧ (∀ p, v_acq v = Some (m, p) → p = A_enter)
    ∨ owned v m = 0 ∧ mc_depth x = 1 ∧ ∃ p, v_acq v = Some (m, p) ∧ late p = true;
  p_owned : 0 < owned v m → mc_holder x = Some t;
  p_range : 0 ≤ owned v m ≤ mc_max x;
  p_listed : t ∈ mc_list x → ∃ p, v_acq v = Some (m, p) ∧ parked_at p = true;
  p_parked p : v_acq v = Some (m, p) → parked_at p = true → t ∈ mc_list x ∨ mc_holder x = Some t;
  p_loop o d : v_acq v = Some (m, A_loop o d) → mc_holder x ≠ None;
  p_acq p : v_acq v = Some (m, p) → p ≠ A_enter → owned v m = 0;
  p_rel p : v_rel v = Some (m, p) → 0 < owned v m ∧ v_acq v = None ∧ (p = R_lock → mc_depth x = 1);
  p_count : Z.of_nat (count m (v_held v)) ≤ mc_max x
}.
Record mutex_ok (V : gmap nat view) (x : mc) : Prop := {
  x_holder t : mc_holder x = Some t → is_Some (V !! t);
  x_list t : t ∈ mc_list x → is_Some (V !! t);
  x_free : mc_holder x = None → mc_list x = [];
  x_max : 1 ≤ mc_max x ≤ MUTEX_MAX_RECURSIVITY_DEPTH
}.
Definition minv (M : gmap nat mc) (V : gmap nat view) : Prop :=
  ∀ m x, M !! m = Some x → mutex_ok V x ∧ ∀ t v, V !! t = Some v → pair_ok m x t v.

(** * Steps of views and mutexes *)
Section Steps.
Implicit Types (M : gmap nat mc) (V : gmap nat view).

Lemma mutex_ok_insert V t v x : mutex_ok V x → mutex_ok (<[t := v]> V) x.
Proof.
  intros [X1 X2 X3 X4]. assert (Hi : ∀ u, is_Some (V !! u) → is_Some (<[t := v]> V !! u)).
  { intros u Hu. destruct (decide (t = u)) as [->|]; [rewrite lookup_insert_eq; eauto|by rewrite lookup_insert_ne]. }
  split; eauto.
Qed.
(** The thread [t] changes its view, the mutex [m] its fields. *)
Lemma minv_step M V m x x' t v v' :
  minv M V → M !! m = Some x → V !! t = Some v → mutex_ok V x' → pair_ok m x' t v' →
  (∀ u vu, u ≠ t → pair_ok m x u vu → pair_ok m x' u vu) →
  (∀ m' y, m' ≠ m → pair_ok m' y t v → pair_ok m' y t v') → minv (<[m := x']> M) (<[t := v']> V).
Proof.
  intros Hi Hx Hv Hx' Hp Hu Hm m' y Hy.
  assert (Hu' : ∀ u vu, <[t := v']> V !! u = Some vu → u = t ∧ vu = v' ∨ u ≠ t ∧ V !! u = Some vu).
  { intros u vu. rewrite lookup_insert_Some. naive_solver. }
  apply lookup_insert_Some in Hy as [[<- <-]|[Hne Hy]].
  - split; [by apply mutex_ok_insert|]. intros u vu [[-> ->]|[Hne Hvu]]%Hu'; [done|]. apply Hu; [done|]. by eapply Hi.
  - destruct (Hi _ _ Hy) as [Hok Hpair]. split; [by apply mutex_ok_insert|].
    intros u vu [[-> ->]|[Hne' Hvu]]%Hu'; [|by apply Hpair]. apply Hm; [congruence|]. by apply Hpair.
Qed.
(** The view changes for the mutex [m] only. *)
Definition elsewhere (m : nat) (v v' : view) : Prop := ∀ m', m' ≠ m →
  count m' (v_held v') = count m' (v_held v) ∧ (∀ p, v_acq v ≠ Some (m', p) ∧ v_acq v' ≠ Some (m', p))
  ∧ ∀ p, v_rel v ≠ Some (m', p) ∧ v_rel v' ≠ Some (m', p).
Lemma acquires_not v m : (∀ p, v_acq v ≠ Some (m, p)) → acquires v m = false.
Proof.
  unfold acquires. intros H. destruct (v_acq v) as [[m' p]|]; [|done]. apply bool_decide_eq_false_2.
  intros ->. by apply (H p).
Qed.
Lemma releases_not v m : (∀ p, v_rel v ≠ Some (m, p)) → releases v m = false.
Proof.
  unfold releases. intros H. destruct (v_rel v) as [[m' p]|]; [|done]. apply bool_decide_eq_false_2.
  intros ->. by apply (H p).
Qed.
Lemma elsewhere_ok m v v' : elsewhere m v v' → ∀ t m' y, m' ≠ m → pair_ok m' y t v → pair_ok m' y t v'.
Proof.
  intros He t m' y Hne [P1 P2 P3 P4 P5 P6 P7 P8 P9]. destruct (He m' Hne) as (Hc & Ha & Hr).
  assert (Ha' : ∀ p, v_acq v' ≠ Some (m', p)) by (intros p; apply Ha).
  assert (Ha2 : ∀ p, v_acq v ≠ Some (m', p)) by (intros p; apply Ha).
  assert (Hr' : ∀ p, v_rel v' ≠ Some (m', p)) by (intros p; apply Hr).
  assert (Hr2 : ∀ p, v_rel v ≠ Some (m', p)) by (intros p; apply Hr).
  assert (Ho : owned v' m' = owned v m') by (unfold owned; rewrite Hc, !acquires_not, !releases_not by done; done).
  split; rewrite ?Ho, ?Hc; try done; try (intros; exfalso; eapply Ha'; eassumption); try (intros; exfalso; eapply Hr'; eassumption).
  - intros Hh. destruct (P1 Hh) as [(A & B & _)|(_ & _ & p & E & _)]; [left|by destruct (Ha2 p)].
    split_and!; [done|done|]. intros p E. by destruct (Ha' p).
  - intros Hl. destruct (P4 Hl) as (p & E & _). by destruct (Ha2 p).
Qed.
Lemma minv_view M V m t v v' :
  minv M V → V !! t = Some v → elsewhere m v v' →
  (∀ x, M !! m = Some x → pair_ok m x t v → pair_ok m x t v') → minv M (<[t := v']> V).
Proof.
  intros Hi Hv He Hp m' y Hy. destruct (Hi _ _ Hy) as [Hok Hpair]. split; [by apply mutex_ok_insert|].
  intros u vu [[<- <-]|[Hne Hu]]%lookup_insert_Some; [|by apply Hpair].
  destruct (decide (m' = m)) as [->|Hne]; [by apply Hp; [|apply Hpair]|]. apply (elsewhere_ok m v); [done..|]. by apply Hpair.
Qed.

Lemma owned_acq m h p r : owned (mkView h (Some (m, p)) r) m = owned (mkView h None r) m - 1.
Proof. unfold owned, acquires, releases. simpl. rewrite bool_decide_eq_true_2 by done. lia. Qed.
Lemma owned_rel m h p a : owned (mkView h a (Some (m, p))) m = owned (mkView h a None) m + 1.
Proof. unfold owned, acquires, releases. simpl. rewrite bool_decide_eq_true_2 by done. lia. Qed.
Lemma owned_none m h : owned (mkView h None None) m = Z.of_nat (count m h).
Proof. unfold owned. simpl. lia. Qed.
Lemma elsewhere_acq m h o o' : (∀ m' p, o = Some (m', p) → m' = m) → (∀ m' p, o' = Some (m', p) → m' = m) →
  elsewhere m (mkView h o None) (mkView h o' None).
Proof. intros H1 H2 m' Hne. split_and!; [done|intros p; split; intros E; simpl in E; naive_solver|done]. Qed.
Lemma elsewhere_rel m h o o' : (∀ m' p, o = Some (m', p) → m' = m) → (∀ m' p, o' = Some (m', p) → m' = m) →
  elsewhere m (mkView h None o) (mkView h None o').
Proof. intros H1 H2 m' Hne. split_and!; [done|done|intros p; split; intros E; simpl in E; naive_solver]. Qed.
Create Rewrite HintDb owned.
#[local] Hint Rewrite owned_acq owned_rel owned_none : owned.
Ltac owned := autorewrite with owned in *.
(** [pair_ok] for the views that occur: no mutex operation, MutexAcquire before and behind
    the recursive case, in the loop, parked, MutexRelease. *)
Lemma pair_idle m x t h : pair_ok m x t (mkView h None None) ↔
  (mc_holder x = Some t → Z.of_nat (count m h) = mc_depth x ∧ 1 ≤ mc_depth x) ∧ ((0 < count m h)%nat → mc_holder x = Some t)
  ∧ Z.of_nat (count m h) ≤ mc_max x ∧ t ∉ mc_list x.
Proof.
  split.
  - intros [P1 P2 P3 P4 P5 P6 P7 P8 P9]; simpl in *; owned. split_and!; [|intros; apply P2; lia|lia|].
    + intros E. destruct (P1 E) as [(? & ? & _)|(_ & _ & p & ? & _)]; [done|done].
    + intros E. by destruct (P4 E) as (p & ? & _).
  - intros (Q1 & Q2 & Q3 & Q4). split; simpl; owned; try done; [|intros; apply Q2; lia|lia].
    intros E. left. by destruct (Q1 E).
Qed.
Lemma pair_acquire m x t h p : pair_ok m x t (mkView h (Some (m, p)) None) ↔
  1 ≤ Z.of_nat (count m h) ≤ mc_max x ∧
  match p with
  | A_enter => (mc_holder x = Some t → Z.of_nat (count m h) - 1 = mc_depth x ∧ 1 ≤ mc_depth x)
      ∧ ((1 < count m h)%nat → mc_holder x = Some t) ∧ t ∉ mc_list x
  | A_lock _ => count m h = 1%nat ∧ mc_holder x ≠ Some t ∧ t ∉ mc_list x
  | A_loop _ _ => count m h = 1%nat ∧ mc_holder x ≠ None ∧ (mc_holder x = Some t → mc_depth x = 1) ∧ t ∉ mc_list x
  | A_unlock _ _ | A_again _ => count m h = 1%nat ∧ (t ∈ mc_list x ∨ mc_holder x = Some t) ∧ (mc_holder x = Some t → mc_depth x = 1)
  end.
Proof.
  split.
  - intros [P1 P2 P3 P4 P5 P6 P7 P8 P9]; simpl in *; owned. split; [lia|].
    assert (H4 : parked_at p = false → t ∉ mc_list x) by (intros E Hl; destruct (P4 Hl) as (p' & [= <-] & ?); congruence).
    assert (H7 : p ≠ A_enter → count m h = 1%nat) by (intros Hp; specialize (P7 p eq_refl Hp); lia).
    assert (H1 : p ≠ A_enter → mc_holder x = Some t → mc_depth x = 1 ∧ late p = true).
    { intros Hp E. destruct (P1 E) as [(_ & _ & Q)|(_ & ? & p' & [= <-] & ?)]; [by destruct Hp; apply Q|done]. }
    assert (H5 : parked_at p = true → t ∈ mc_list x ∨ mc_holder x = Some t) by (by apply P5).
    destruct p; split_and!; auto; try (by apply H7); try (intros E; by apply H1).
    + intros E. by destruct (P1 E) as [(? & ? & _)|(_ & _ & p' & [= <-] & ?)].
    + intros E. apply P2. lia.
    + intros E. by destruct (H1 ltac:(done) E).
    + by eapply P6.
  - intros (Q1 & Q2). split; simpl; owned.
    + intros E. destruct p; naive_solver lia.
    + intros E. destruct p; naive_solver lia.
    + lia.
    + intros E. exists p. split; [done|]. destruct p; naive_solver.
    + intros p' [= <-] E. destruct p; naive_solver.
    + intros o d [= ->]. naive_solver.
    + intros p' [= <-] E. destruct p; naive_solver lia.
    + done.
    + lia.
Qed.
Lemma pair_release m x t h p : p = R_enter ∨ p = R_lock →
  (pair_ok m x t (mkView h None (Some (m, p))) ↔
  mc_holder x = Some t ∧ Z.of_nat (count m h) + 1 = mc_depth x ∧ mc_depth x ≤ mc_max x ∧ (t ∉ mc_list x)
  ∧ (p = R_lock → mc_depth x = 1)).
Proof.
  intros Hp. split.
  - intros [P1 P2 P3 P4 P5 P6 P7 P8 P9]; simpl in *; owned. destruct (P8 _ eq_refl) as (Q1 & _ & Q2).
    specialize (P2 Q1). destruct (P1 P2) as [(E & ? & _)|(_ & _ & p' & ? & _)]; [|done].
    split_and!; try done; [lia|]. intros E'. by destruct (P4 E') as (? & ? & _).
  - intros (Q1 & Q2 & Q3 & Q4 & Q5). split; simpl; owned; try done; try lia; [|].
    + intros _. left. split_and!; [done|lia|done].
    + intros p' [= <-]. split_and!; [lia|done|done].
Qed.
(** Another thread [u], for which the change of the mutex makes no difference. *)
Lemma pair_other m x x' u v :
  pair_ok m x u v → mc_max x' = mc_max x → (mc_holder x' = Some u ↔ mc_holder x = Some u) →
  (mc_holder x = Some u → mc_depth x' = mc_depth x) → (u ∈ mc_list x' ↔ u ∈ mc_list x) →
  (∀ o d, v_acq v = Some (m, A_loop o d) → mc_holder x' = None → mc_holder x = None) → pair_ok m x' u v.
Proof.
  intros [P1 P2 P3 P4 P5 P6 P7 P8 P9] E1 E2 E3 E4 E5. split; rewrite ?E1, ?E2, ?E4; try done.
  - intros E. specialize (P1 E). by rewrite E3.
  - intros p Hp Hk. rewrite E2, E4. by eapply P5.
  - intros o d Ho Hn. by apply (P6 o d Ho), (E5 o d).
  - intros p Hp. destruct (P8 p Hp) as (Q1 & Q2 & Q3). split_and!; try done. intros ->. rewrite E3; auto.
Qed.


(** The conditions of [minv_step] and [minv_view] on the other mutexes. *)
Ltac elsewhere := first [apply elsewhere_acq|apply elsewhere_rel]; naive_solver.

(** Another thread. *)
Ltac other := apply (pair_other _ _ _ _ _ ltac:(eassumption)); simpl; try done; try congruence; try (split; congruence).

Section Mutex.
Variables (M : gmap nat mc) (V : gmap nat view) (m t : nat) (x : mc) (h : list nat).
Hypotheses (Hi : minv M V) (Hx : M !! m = Some x).
Lemma the_pair v : V !! t = Some v → pair_ok m x t v.
Proof using Hi Hx. intros Hv. by apply (Hi _ _ Hx). Qed.
Lemma the_mutex : mutex_ok V x.
Proof using Hi Hx. by apply (Hi _ _ Hx). Qed.
Lemma step_view v v' : V !! t = Some v → elsewhere m v v' → pair_ok m x t v' → minv M (<[t := v']> V).
Proof using Hi Hx. intros Hv He Hp. eapply minv_view; [done..|]. intros y Hy _. by simplify_eq. Qed.
Lemma step_both v v' x' :
  V !! t = Some v → elsewhere m v v' → mutex_ok V x' → pair_ok m x' t v' →
  (∀ u vu, u ≠ t → V !! u = Some vu → pair_ok m x u vu → pair_ok m x' u vu) → minv (<[m := x']> M) (<[t := v']> V).
Proof using Hi Hx.
  intros Hv He Hok Hp Hu m' y Hy.
  apply lookup_insert_Some in Hy as [[<- <-]|[Hne Hy]].
  - split; [by apply mutex_ok_insert|]. intros u vu [[<- <-]|[Hne Hvu]]%lookup_insert_Some; [done|].
    apply Hu; [done|done|]. by apply (Hi _ _ Hx).
  - destruct (Hi _ _ Hy) as [Hok' Hpair]. split; [by apply mutex_ok_insert|].
    intros u vu [[<- <-]|[Hne' Hvu]]%lookup_insert_Some; [|by apply Hpair].
    eapply (elsewhere_ok m v); [done|done|]. by apply Hpair.
Qed.

Lemma acquire_recursive :
  V !! t = Some (mkView h (Some (m, A_enter)) None) → mc_holder x = Some t →
  mc_depth x < mc_max x ∧
  minv (<[m := mkMc (mc_holder x) (mc_depth x + 1) (mc_max x) (mc_list x)]> M) (<[t := mkView h None None]> V).
Proof using Hi Hx.
  intros Hv Hh. pose proof (the_pair _ Hv) as (Q1 & Q2 & Q3 & Q4)%pair_acquire. destruct (Q2 Hh). split; [lia|].
  destruct the_mutex as [X1 X2 X3 X4]. eapply step_both; [done|elsewhere|by split| |].
  - apply pair_idle. simpl. split_and!; [lia|done|lia|done].
  - intros u vu Hne Hu Hp. other.
Qed.
Lemma acquire_enter old :
  V !! t = Some (mkView h (Some (m, A_enter)) None) → mc_holder x ≠ Some t →
  minv M (<[t := mkView h (Some (m, A_lock old)) None]> V).
Proof using Hi Hx.
  intros Hv Hh. pose proof (the_pair _ Hv) as (Q1 & Q2 & Q3 & Q4)%pair_acquire.
  eapply step_view; [done|elsewhere|]. apply pair_acquire. split_and!; try done; try lia.
  destruct (decide (1 < count m h)%nat) as [E|]; [|lia]. by destruct Hh; apply Q3.
Qed.
Lemma acquire_free old d :
  V !! t = Some (mkView h (Some (m, A_lock old)) None) → mc_holder x = None →
  minv (<[m := mkMc (Some t) 1 (mc_max x) (mc_list x)]> M) (<[t := mkView h (Some (m, A_loop old d)) None]> V).
Proof using Hi Hx.
  intros Hv Hh. pose proof (the_pair _ Hv) as (Q1 & Q2 & Q3 & Q4)%pair_acquire. destruct the_mutex as [X1 X2 X3 X4].
  eapply step_both; [done|elsewhere| | |].
  - split; simpl; try done. intros u [= <-]. eauto.
  - apply pair_acquire. simpl. split_and!; try done; lia.
  - intros u vu Hne Hu Hp. other.
Qed.
Lemma acquire_taken old d :
  V !! t = Some (mkView h (Some (m, A_lock old)) None) → mc_holder x ≠ None →
  minv M (<[t := mkView h (Some (m, A_loop old d)) None]> V).
Proof using Hi Hx.
  intros Hv Hh. pose proof (the_pair _ Hv) as (Q1 & Q2 & Q3 & Q4)%pair_acquire.
  eapply step_view; [done|elsewhere|]. apply pair_acquire. split_and!; try done; lia.
Qed.
Lemma acquire_wait old d :
  V !! t = Some (mkView h (Some (m, A_loop old d)) None) → mc_holder x ≠ Some t →
  minv (<[m := mkMc (mc_holder x) (mc_depth x) (mc_max x) (mc_list x ++ [t])]> M)
    (<[t := mkView h (Some (m, A_unlock old d)) None]> V).
Proof using Hi Hx.
  intros Hv Hh. pose proof (the_pair _ Hv) as (Q1 & Q2 & Q3 & Q4 & Q5)%pair_acquire. destruct the_mutex as [X1 X2 X3 X4].
  eapply step_both; [done|elsewhere| | |].
  - split; simpl; try done. intros u [?|Hs%list_elem_of_singleton]%elem_of_app; [eauto|rewrite Hs; eauto].
  - apply pair_acquire. split_and!; simpl; try done; try lia. left. apply elem_of_app. right. by left.
  - intros u vu Hne Hu Hp. other. rewrite elem_of_app, list_elem_of_singleton. naive_solver.
Qed.
Lemma acquire_done old d :
  V !! t = Some (mkView h (Some (m, A_loop old d)) None) → mc_holder x = Some t →
  minv M (<[t := mkView h None None]> V).
Proof using Hi Hx.
  intros Hv Hh. pose proof (the_pair _ Hv) as (Q1 & Q2 & Q3 & Q4 & Q5)%pair_acquire. specialize (Q4 Hh).
  eapply step_view; [done|elsewhere|]. apply pair_idle. split_and!; try done; lia.
Qed.
Lemma acquire_sleep old d :
  V !! t = Some (mkView h (Some (m, A_unlock old d)) None) →
  minv M (<[t := mkView h (Some (m, A_again old)) None]> V).
Proof using Hi Hx.
  intros Hv. pose proof (the_pair _ Hv) as (Q1 & Q2 & Q3 & Q4)%pair_acquire.
  eapply step_view; [done|elsewhere|]. apply pair_acquire. split_and!; try done; lia.
Qed.
Lemma acquire_again old d :
  V !! t = Some (mkView h (Some (m, A_again old)) None) → t ∉ mc_list x →
  mc_holder x = Some t ∧ minv M (<[t := mkView h (Some (m, A_loop old d)) None]> V).
Proof using Hi Hx.
  intros Hv Hl. pose proof (the_pair _ Hv) as (Q1 & Q2 & [?|Q3] & Q4)%pair_acquire; [done|]. split; [done|].
  eapply step_view; [done|elsewhere|]. apply pair_acquire. split_and!; try done; first [lia|congruence].
Qed.
Lemma release_recursive :
  V !! t = Some (mkView h None (Some (m, R_enter))) → 1 < mc_depth x →
  minv (<[m := mkMc (mc_holder x) (mc_depth x - 1) (mc_max x) (mc_list x)]> M) (<[t := mkView h None None]> V).
Proof using Hi Hx.
  intros Hv Hd. pose proof (the_pair _ Hv) as (Q1 & Q2 & Q3 & Q4 & _)%pair_release; [|by left].
  destruct the_mutex as [X1 X2 X3 X4]. eapply step_both; [done|elsewhere|by split| |].
  - apply pair_idle. simpl. split_and!; [lia|done|lia|done].
  - intros u vu Hne Hu Hp. other.
Qed.
Lemma release_last :
  V !! t = Some (mkView h None (Some (m, R_enter))) → mc_depth x ≤ 1 →
  minv M (<[t := mkView h None (Some (m, R_lock))]> V).
Proof using Hi Hx.
  intros Hv Hd. pose proof (the_pair _ Hv) as (Q1 & Q2 & Q3 & Q4 & _)%pair_release; [|by left].
  eapply step_view; [done|elsewhere|]. apply pair_release; [by right|]. split_and!; try done; lia.
Qed.
(** The mutex goes to the thread that has waited longest; no thread is in the loop of
    MutexAcquire, since the lock of the mutex was free. *)
Lemma release_handover p l :
  V !! t = Some (mkView h None (Some (m, R_lock))) → mc_list x = p :: l → NoDup (p :: l) →
  minv (<[m := mkMc (Some p) 1 (mc_max x) l]> M) (<[t := mkView h None None]> V).
Proof using Hi Hx.
  intros Hv Hl [Hpl Hnd]%NoDup_cons. pose proof (the_pair _ Hv) as (Q1 & Q2 & Q3 & Q4 & Q5)%pair_release; [|by right].
  destruct the_mutex as [X1 X2 X3 X4]. rewrite Hl in *. apply not_elem_of_cons in Q4 as [Htp Htl].
  eapply step_both; [done|elsewhere| | |].
  - split; simpl; try done. + intros u [= <-]. apply X2. by left. + intros u Hu. apply X2. by right.
  - apply pair_idle. simpl. specialize (Q5 eq_refl). split_and!; [congruence|lia|lia|done].
  - intros u vu Hne Hu Hp. destruct (decide (u = p)) as [->|Hup].
    + destruct (p_listed _ _ _ _ Hp) as (pc & E & Hpc); [rewrite Hl; by left|].
      assert (Ho : owned vu m = 0) by (apply (p_acq _ _ _ _ Hp pc E); by intros ->).
      destruct Hp as [P1 P2 P3 P4 P5 P6 P7 P8 P9]. split; simpl; try done.
      * intros _. right. split_and!; [done|done|]. exists pc. split; [done|]. by destruct pc.
      * intros p' _ _. by right.
      * intros p' E'. destruct (P8 p' E') as (? & ? & _). lia.
    + other. rewrite Hl. set_solver.
Qed.
Lemma release_free :
  V !! t = Some (mkView h None (Some (m, R_lock))) → mc_list x = [] →
  (∀ u vu o d, V !! u = Some vu → v_acq vu ≠ Some (m, A_loop o d)) →
  minv (<[m := mkMc None (mc_depth x) (mc_max x) (mc_list x)]> M) (<[t := mkView h None None]> V).
Proof using Hi Hx.
  intros Hv Hl Hno. pose proof (the_pair _ Hv) as (Q1 & Q2 & Q3 & Q4 & Q5)%pair_release; [|by right]. specialize (Q5 eq_refl).
  destruct the_mutex as [X1 X2 X3 X4]. eapply step_both; [done|elsewhere|by split| |].
  - apply pair_idle. simpl. split_and!; [done|lia|lia|done].
  - intros u vu Hne Hu Hp. other.
    intros o d Ho _. by destruct (Hno u vu o d Hu).
Qed.
(** The calls. *)
Lemma call_acquire_ok :
  V !! t = Some (mkView h None None) → Z.of_nat (count m h) < mc_max x →
  minv M (<[t := mkView (m :: h) (Some (m, A_enter)) None]> V).
Proof using Hi Hx.
  intros Hv Hc. pose proof (the_pair _ Hv) as (Q1 & Q2 & Q3 & Q4)%pair_idle.
  assert (Hm : count m (m :: h) = S (count m h)) by (unfold count; by rewrite filter_cons_True).
  eapply step_view; [done| |].
  - intros m' Hne. split_and!; [|intros p; split; simpl; congruence|done]. unfold count. simpl. by rewrite filter_cons_False.
  - apply pair_acquire. rewrite Hm. split_and!; [lia|lia|..].
    + intros E. destruct (Q1 E). lia.
    + intros E. apply Q2. lia.
    + done.
Qed.
Lemma count_remove1 h' m' : count m' (remove1 m h') = if decide (m' = m) then pred (count m h') else count m' h'.
Proof.
  clear. unfold count. induction h' as [|y h' IH]; simpl; [by case_decide|].
  destruct (decide (y = m)) as [->|Hy].
  - destruct (decide (m' = m)) as [->|Hne]; [by rewrite filter_cons_True|by rewrite filter_cons_False].
  - destruct (decide (m' = m)) as [->|Hne]; rewrite !filter_cons.
    + by rewrite !(decide_False (P := m = y)).
    + case_decide; simpl; by rewrite IH.
Qed.
Lemma call_release_ok :
  V !! t = Some (mkView h None None) → m ∈ h →
  minv M (<[t := mkView (remove1 m h) None (Some (m, R_enter))]> V).
Proof using Hi Hx.
  intros Hv Hm. pose proof (the_pair _ Hv) as (Q1 & Q2 & Q3 & Q4)%pair_idle.
  assert (Hc : (0 < count m h)%nat).
  { unfold count. destruct (filter (eq m) h) eqn:E; [|simpl; lia].
    exfalso. apply (filter_nil_not_elem_of _ _ m E) in Hm; done. }
  eapply step_view; [done| |].
  - intros m' Hne. split_and!; [|done|intros p; split; simpl; congruence]. simpl. rewrite count_remove1. by rewrite decide_False.
  - apply pair_release; [by left|]. rewrite count_remove1, decide_True by done. specialize (Q2 Hc). destruct (Q1 Q2).
    split_and!; try done; lia.
Qed.
End Mutex.
End Steps.

(** * The code that is not about mutexes keeps views and mutexes *)
Record same (s s' : SYS) : Prop := {
  same_mcs : mcs s' = mcs s;
  same_views : views s' = views s;
  same_kinds : is_SMutex <$> objects s' = is_SMutex <$> objects s
}.
Lemma same_refl s : same s s.
Proof. by split. Qed.
Lemma same_trans s1 s2 s3 : same s1 s2 → same s2 s3 → same s1 s3.
Proof. intros [A1 A2 A3] [B1 B2 B3]. split; congruence. Qed.
Lemma same_T s t f : (∀ th, Stack (f th) = Stack th) → same s (T t f s).
Proof. intros H. split; [done| |done]. apply fmap_alter_same. intros th. by rewrite H. Qed.
Lemma same_O s q f : (∀ w, objects s !! q = Some w → mc_of (f w) = mc_of w ∧ is_SMutex (f w) = is_SMutex w) → same s (O q f s).
Proof.
  intros H. split; [|done|]; apply map_eq; intros j; unfold O, mcs; simpl; rewrite ?lookup_omap, ?lookup_fmap;
    (destruct (decide (q = j)) as [<-|]; [|by rewrite lookup_alter_ne]); rewrite lookup_alter_eq;
    destruct (objects s !! q) as [w|] eqn:E; try done; simpl; destruct (H w); congruence.
Qed.

Section Keeps.
(** The event the code works on, if it does. *)
Variable E : option nat.
Definition is_an_event (s : SYS) : Prop := ∀ e, E = Some e → is_SMutex <$> objects s !! e = Some false.
Definition keeps {A} (m : M SYS A) (Q : A → Prop) : Prop :=
  ∀ s a s', is_an_event s → m s = Ret (a, s') → same s s' ∧ Q a.

Lemma keeps_event s s' : same s s' → is_an_event s → is_an_event s'.
Proof. intros [_ _ H] He e Hq. rewrite <-lookup_fmap, H, lookup_fmap. by apply He. Qed.
Lemma keeps_ret {A} (a : A) (Q : A → Prop) : Q a → keeps (mret a) Q.
Proof. intros H s b s' _ [= <- <-]. by split. Qed.
Lemma keeps_bind {A B} (m : M SYS A) (k : A → M SYS B) Q :
  keeps m (λ _, True) → (∀ a, keeps (k a) Q) → keeps (m ≫= k) Q.
Proof.
  intros Hm Hk s b s' He H. apply bind_Ret_inv in H as (a & s1 & H1 & H2).
  destruct (Hm _ _ _ He H1) as [S1 _]. destruct (Hk a _ _ _ (keeps_event _ _ S1 He) H2) as [S2 HQ].
  split; [by eapply same_trans|done].
Qed.
Lemma keeps_bind_Q {A B} (m : M SYS A) (k : A → M SYS B) R Q :
  keeps m R → (∀ a, R a → keeps (k a) Q) → keeps (m ≫= k) Q.
Proof.
  intros Hm Hk s b s' He H. apply bind_Ret_inv in H as (a & s1 & H1 & H2).
  destruct (Hm _ _ _ He H1) as [S1 Ha]. destruct (Hk a Ha _ _ _ (keeps_event _ _ S1 He) H2) as [S2 HQ].
  split; [by eapply same_trans|done].
Qed.
Lemma keeps_some {A} (f : SYS → gmap nat A) i : keeps (s ← get; from_option_fault (f s !! i)) (λ _, True).
Proof. intros s a s' _ H. apply bind_Ret_inv in H as (? & ? & [= <- <-] & H). unfold from_option_fault in H. by destruct (f s !! i); simplify_eq. Qed.
Lemma keeps_gets {A} (f : SYS → A) : keeps (gets f) (λ _, True).
Proof. by intros s a s' _ [= <- <-]. Qed.
Lemma keeps_ASSERT b : keeps (ASSERT b) (λ _, True).
Proof. intros s a s' _ H. apply ASSERT_inv in H as [_ ->]. by split. Qed.
Lemma keeps_upd_thread t f : (∀ th, Stack (f th) = Stack th) → keeps (upd_thread t f) (λ _, True).
Proof. intros H s a s' _ [= <- <-]. split; [by apply same_T|done]. Qed.
Lemma keeps_modify f : (∀ s, objects (f s) = objects s ∧ threads (f s) = threads s) → keeps (modify f) (λ _, True).
Proof.
  intros H s a s' _ [= <- <-]. destruct (H s) as [H1 H2]. split; [|done].
  split; unfold mcs, views; by rewrite ?H1, ?H2.
Qed.
Lemma keeps_lock l v : keeps (set_lock l v) (λ _, True).
Proof.
  destruct l; [by apply keeps_modify|by apply keeps_upd_thread|]. intros s a s' _ [= <- <-]. split; [|done].
  by apply same_O; intros [].
Qed.
Lemma keeps_object q f : E = Some q →
  (∀ e, ∃ e', f (SEvent e) = SEvent e') → keeps (upd_object q f) (λ _, True).
Proof.
  intros HE H s a s' He [= <- <-]. split; [|done]. apply same_O. intros w Hw. specialize (He q HE). rewrite Hw in He.
  destruct w as [|e]; [done|]. destruct (H e) as [e' ->]. done.
Qed.
End Keeps.

(** The frames that have no part in a view. *)
Definition plain (f : frame) : bool := match f with Run _ | MutexAcquireAt _ _ | MutexReleaseAt _ (R_enter | R_lock) => false | _ => true end.
Lemma view_of_plain fs k : forallb plain fs = true → view_of (fs ++ k) = view_of k.
Proof.
  induction fs as [|f fs IH]; [done|]. simpl. intros [Hf Hfs]%andb_true_iff.
  destruct f as [| | | | | | | |? []| | | | | | |]; try done; by apply IH.
Qed.

Ltac keeps_step0 :=
  lazymatch goal with
  | |- keeps _ (mret _) _ => apply keeps_ret
  | |- keeps _ (thread _) _ => apply (keeps_some _ threads)
  | |- keeps _ (cpu _) _ => apply (keeps_some _ cpus)
  | |- keeps _ (object _) _ => apply (keeps_some _ objects)
  | |- keeps _ (process _) _ => apply (keeps_some _ processes)
  | |- keeps _ (gets _) _ => apply keeps_gets
  | |- keeps _ (ASSERT _) _ => apply keeps_ASSERT
  | |- keeps _ (upd_thread _ _) _ => apply keeps_upd_thread; done
  | |- keeps _ (upd_cpu _ _) _ => apply keeps_modify; done
  | |- keeps _ (modify _) _ => apply keeps_modify; done
  | |- keeps _ (set_lock _ _) _ => apply keeps_lock
  | |- keeps _ (put_event _ _) _ => apply keeps_object; [done|eauto]
  | |- keeps _ (upd_object _ _) _ => apply keeps_object; [done|simpl; eauto]
  | |- keeps _ (CpuIntrGetState _) _ => unfold CpuIntrGetState
  | |- keeps _ (CpuIntrDisable _) _ => unfold CpuIntrDisable
  | |- keeps _ (CpuIntrSetState _ _) _ => unfold CpuIntrSetState
  | |- keeps _ (GetCurrentThread _) _ => unfold GetCurrentThread
  | |- keeps _ (event _) _ => unfold event
  | |- keeps _ fault _ => by intros s a s' _ H
  | |- keeps _ (lock_holder ?l) _ => destruct l; unfold lock_holder
  | |- keeps _ (LockIsOwner _ _) _ => unfold LockIsOwner
  | |- keeps _ (LockRelease _ _ _) _ => unfold LockRelease
  | |- keeps _ (LockAcquire _ _ _ _) _ => unfold LockAcquire
  | |- keeps _ (_ThreadDereference _) _ => unfold _ThreadDereference
  | |- keeps _ (_ThreadForcedExit _) _ => unfold _ThreadForcedExit
  | |- keeps _ (mbind _ _) _ => eapply keeps_bind; [|intros ?]
  | |- keeps _ (if ?b then _ else _) _ => destruct b
  | |- keeps _ match ?b with _ => _ end _ => destruct b
  end.

Lemma _ThreadSchedule_keeps E c : keeps E (_ThreadSchedule c) (λ fs, forallb plain fs = true).
Proof. unfold _ThreadSchedule, _ThreadGetReadyThread. repeat keeps_step0; done. Qed.
Lemma ProcessNotify_keeps E t : keeps E (ProcessNotifyThreadTermination t) (λ fs, forallb plain fs = true).
Proof. unfold ProcessNotifyThreadTermination. repeat keeps_step0; done. Qed.

Ltac keeps_step :=
  lazymatch goal with
  | |- keeps _ (_ThreadSchedule _ ≫= _) _ => eapply keeps_bind_Q; [apply _ThreadSchedule_keeps|intros ? ?]
  | |- keeps _ (ProcessNotifyThreadTermination _ ≫= _) _ => eapply keeps_bind_Q; [apply ProcessNotify_keeps|intros ? ?]
  | |- _ => keeps_step0
  end.
Definition event_of (f : frame) : option nat :=
  match f with ExEventSignalAt e _ | ExEventClearSignalAt e | ExEventWaitForSignalAt e _ => Some e | _ => None end.
Lemma code_keeps c t f :
  plain f = true → keeps (event_of f) (code c t f) (λ fs, forallb plain fs = true).
Proof.
  intros Hf. destruct f as [|[]| |[]| |[]|? []| |? []|? []| |? []|[]|[]|[]|[]]; try done; unfold code, ThreadYield, _ThreadSchedule_switched,
    ThreadCleanupPostSchedule, ThreadTakeBlockLock, ThreadBlock, ThreadUnblock, MutexRelease, ExEventSignal, ExEventClearSignal, ExEventWaitForSignal,
    ThreadExit, _IdleThread, Interrupt, ThreadTick, ThreadYieldOnInterrupt, ThreadStart.
  all: repeat keeps_step; try done; try (by rewrite forallb_app, H); by case_match.
Qed.

(** * The invariant of the program *)
Lemma views_T t k s : is_Some (threads s !! t) → views (T t (with_Stack k) s) = <[t := view_of k]> (views s).
Proof. intros H. by apply (fmap_alter_const (λ th, view_of (Stack th))). Qed.
Lemma views_same t k s v : views s !! t = Some v → view_of k = v → views (T t (with_Stack k) s) = views s.
Proof.
  intros Hv Hk. assert (is_Some (threads s !! t)).
  { unfold views in Hv. rewrite lookup_fmap in Hv. destruct (threads s !! t); [eauto|done]. }
  rewrite views_T by done. by rewrite Hk, insert_id.
Qed.
Lemma mcs_mutex s m x : is_mutex s m x → mcs s !! m = mc_of (SMutex x).
Proof. intros H. unfold mcs. by rewrite lookup_omap, H. Qed.
Lemma mcs_inv s m y : mcs s !! m = Some y → ∃ x, is_mutex s m x ∧ mc_of (SMutex x) = Some y.
Proof. unfold mcs. rewrite lookup_omap_Some. intros ([x|] & E & H); [|done]. by exists x. Qed.
Lemma views_lookup s t th : threads s !! t = Some th → views s !! t = Some (view_of (Stack th)).
Proof. intros H. unfold views. by rewrite lookup_fmap, H. Qed.

Section Program.
Variables (kinds : gmap nat bool) (idle evts : gmap nat nat) (tids : gset nat).
Implicit Types s : SYS.
Definition INV s : Prop := sane kinds idle evts tids s ∧ minv (mcs s) (views s).

Lemma plain_minv s c t x th f k fs s' :
  here kinds idle evts tids s c t x th (f :: k) → plain f = true → minv (mcs s) (views s) →
  code c t f s = Ret (fs, s') → minv (mcs (T t (with_Stack (fs ++ k)) s')) (views (T t (with_Stack (fs ++ k)) s')).
Proof.
  intros H Hf Hm Hc. pose proof (st_fine _ _ _ _ _ _ _ _ _ _ _ H) as [Hfr _]%stack_fine_inv.
  assert (He : is_an_event (event_of f) s).
  { intros e Hfe. rewrite <-lookup_fmap, (wf_kinds _ _ _ _ _ (h_wf _ _ _ _ _ _ _ _ _ _ H)).
    destruct f; simplify_eq/=; [done|done|apply Hfr]. }
  destruct (code_keeps c t f Hf _ _ _ He Hc) as [[E1 E2 _] Hp].
  pose proof (views_lookup _ _ _ (h_thread _ _ _ _ _ _ _ _ _ _ H)) as Hv.
  rewrite (h_stack _ _ _ _ _ _ _ _ _ _ H), <-E2 in Hv.
  rewrite (views_same _ _ _ _ Hv); [by change (mcs (T t (with_Stack (fs ++ k)) s')) with (mcs s'); rewrite E1, E2|].
  rewrite view_of_plain by done. symmetry. by apply (view_of_plain [f] k); simpl; rewrite Hf.
Qed.

Lemma mcs_lock q v s : mcs (O q (with_w_lock v) s) = mcs s.
Proof. apply same_O. by intros []. Qed.
Lemma mcs_put q y s : is_Some (objects s !! q) →
  mcs (O q (λ _, SMutex y) s) = <[q := mkMc (Holder y) (CurrentRecursivityDepth y) (MaxRecursivityDepth y) (WaitingList y)]> (mcs s).
Proof. intros H. by apply (omap_alter_Some mc_of). Qed.
Lemma mcs_list q y l s : is_mutex s q y →
  mcs (O q (with_w_list l) s) = <[q := mkMc (Holder y) (CurrentRecursivityDepth y) (MaxRecursivityDepth y) l]> (mcs s).
Proof.
  intros H. apply map_eq. intros j. unfold mcs, O. simpl. rewrite lookup_omap.
  destruct (decide (q = j)) as [<-|]; [|by rewrite lookup_alter_ne, lookup_insert_ne, lookup_omap].
  by rewrite lookup_alter_eq, lookup_insert_eq, H.
Qed.
Lemma mcs_T t f s : mcs (T t f s) = mcs s. Proof. done. Qed.
Lemma mcs_C c f s : mcs (C c f s) = mcs s. Proof. done. Qed.
Lemma views_O q f s : views (O q f s) = views s. Proof. done. Qed.
Lemma views_C c f s : views (C c f s) = views s. Proof. done. Qed.

(** Nothing lies on a frame in the loop of MutexAcquire. *)
Lemma loop_on_top k m o d : stack_ok k = true → v_acq (view_of k) = Some (m, A_loop o d) →
  ∃ k', k = MutexAcquireAt m (A_loop o d) :: k'.
Proof.
  induction k as [|f k IH]; [done|]. intros Hs Hv.
  destruct k as [|g k]; [by destruct f|]. change (fits f g && stack_ok (g :: k) = true) in Hs.
  apply andb_true_iff in Hs as [Hg Hs]. specialize (IH Hs).
  assert (Hf : (∃ p, f = MutexAcquireAt m p ∧ p = A_loop o d) ∨ v_acq (view_of (g :: k)) = Some (m, A_loop o d)).
  { destruct f as [| | | | | | | |? []| | | | | | |]; try (by right); try done. left. simpl in Hv. simplify_eq. eauto. }
  destruct Hf as [(p & -> & ->)|Hv']; [eauto|]. destruct (IH Hv') as [k' [= -> ->]]. by destruct f.
Qed.
Lemma on_phase a c t p : on a c = Some (t, p) → a_phase a !! t = Some p.
Proof. unfold on. destruct (a_cur a !! c) as [u|]; [|done]. cbn. destruct (a_phase a !! u) eqn:E; cbn; congruence. Qed.
Lemma free_no_loop s m x :
  sane kinds idle evts tids s → is_mutex s m x → MutexLock x = None →
  ∀ u vu o d, views s !! u = Some vu → v_acq vu ≠ Some (m, A_loop o d).
Proof.
  intros [Hwf Hinv] Hx Hl u vu o d Hu Ha. unfold views in Hu. rewrite lookup_fmap_Some in Hu.
  destruct Hu as (th & <- & Hth). pose proof (t_stack _ _ _ _ _ _ (wf_thread _ _ _ _ _ Hwf u th Hth)) as Hs.
  destruct (loop_on_top _ _ _ _ Hs Ha) as [k' Hk].
  assert (Hph : a_phase (abs s) !! u = Some (HoldQ m)) by (simpl; by rewrite lookup_fmap, Hth; simpl; rewrite Hk).
  assert (Hrun : running (abs s) u).
  { destruct (decide (Exists (λ c, a_cur (abs s) !! c.1 = Some u) (map_to_list (cpus s)))) as [He|He].
    - apply Exists_exists in He as (c & _ & Hc). by exists c.1.
    - exfalso. enough (HoldQ m = Switch) by done. apply (i_out _ _ (inv_who _ _ Hinv) u); [done|].
      intros [c Hc]. apply He, Exists_exists. apply abs_cur in Hc as Hc'. destruct Hc' as (y & Hy & _).
      exists (c, y). split; [by apply elem_of_map_to_list|done]. }
  destruct (running_on _ _ _ (inv_who _ _ Hinv) Hrun) as (c & p & Hon).
  assert (p = HoldQ m) as ->.
  { apply on_phase in Hon. congruence. }
  assert (Hq : a_qlk (abs s) !! m = Some c) by (apply (i_qlk _ (inv_qlk _ _ Hinv)); eauto).
  rewrite (abs_qlk _ _ _ Hx) in Hq. simpl in Hq. congruence.
Qed.
(** A thread that runs outside of the block protocol waits nowhere. *)
Lemma not_listed s c t x th f k m y :
  here kinds idle evts tids s c t x th (f :: k) → own_q (phase_of (f :: k)) = None → blocking (phase_of (f :: k)) = false →
  is_mutex s m y → t ∉ WaitingList y.
Proof.
  intros H Hq Hb Hy Hin. pose proof (h_inv _ _ _ _ _ _ _ _ _ _ H) as Hinv.
  assert (Hw : waiting (abs s) t) by (left; exists m, (WaitingList y); by rewrite (abs_q _ _ _ Hy)).
  destruct (running_waiting _ _ _ _ _ (inv_who _ _ Hinv) (inv_wait _ _ Hinv) (st_on _ _ _ _ _ _ _ _ _ _ _ H) Hw) as [[? E]|E]; congruence.
Qed.

Ltac on_mcs :=
  repeat first [rewrite views_T by (eexists; lk) | rewrite views_O | rewrite views_C | rewrite mcs_T | rewrite mcs_C | rewrite mcs_lock
    | rewrite mcs_put by (eexists; lk) | erewrite mcs_list by lk].
Ltac here H g :=
  let k' := fresh "k" in let h := fresh in
  pose proof (st_ok _ _ _ _ _ _ _ _ _ _ _ H) as Hok; pose proof (st_fine _ _ _ _ _ _ _ _ _ _ _ H) as Hfine;
  pose proof (st_cpu _ _ _ _ _ _ _ _ _ _ _ H) as [He Hi];
  pose proof (h_cpu _ _ _ _ _ _ _ _ _ _ H) as Hx; pose proof (h_thread _ _ _ _ _ _ _ _ _ _ H) as Hth;
  pose proof (h_cur _ _ _ _ _ _ _ _ _ _ H) as Hcur;
  apply stack_fine_inv in Hfine as [Hf [(-> & h & [=])|(g & k' & -> & Hg & Hfine & Hfg)]];
  try specialize (Hi eq_refl).
Lemma minv_busy s c t x th f k :
  here kinds idle evts tids s c t x th (f :: k) → minv (mcs s) (views s) →
  minv (mcs (T t (with_Stack ([f] ++ k)) s)) (views (T t (with_Stack ([f] ++ k)) s)).
Proof.
  intros H. by rewrite (T_same _ _ _ th) by apply H.
Qed.
Ltac acquire H m y Hm :=
  eapply wp_LockAcquire; [cbn [lock_of]; lk|by apply (st_queue_lock _ _ _ _ _ _ _ _ _ _ _ H m (SMutex y))|lk
    |intros _; by apply (minv_busy _ _ _ _ _ _ _ H)|intros Hfree; cbn [lock_set]; recs].
Lemma MutexAcquire_minv s c t x th m p k :
  here kinds idle evts tids s c t x th (MutexAcquireAt m p :: k) → minv (mcs s) (views s) →
  mutex_pre s t (MutexAcquireAt m p) ∧
  wp (MutexAcquire c t m p) s (λ fs s', minv (mcs (T t (with_Stack (fs ++ k)) s')) (views (T t (with_Stack (fs ++ k)) s'))).
Proof.
  intros H Hm. pose proof (views_lookup _ _ _ (h_thread _ _ _ _ _ _ _ _ _ _ H)) as Hv.
  rewrite (h_stack _ _ _ _ _ _ _ _ _ _ H) in Hv. pose proof (st_on _ _ _ _ _ _ _ _ _ _ _ H) as Hon. here H g.
  destruct Hf as (Hmk & Hid & Hd). destruct (st_mutex _ _ _ _ _ _ _ _ _ _ _ H m Hmk) as [y Hy]. destruct g; try done.
  simpl in Hv. pose proof (mcs_mutex _ _ _ Hy) as Hmy. simpl in Hmy.
  destruct p as [|old|old dummy|old dummy|old]; try specialize (Hi eq_refl); unfold MutexAcquire.
  - assert (Hrec : Holder y = Some t → CurrentRecursivityDepth y < MaxRecursivityDepth y ∧
      minv (<[m := mkMc (Holder y) (u8 (CurrentRecursivityDepth y + 1)) (MaxRecursivityDepth y) (WaitingList y)]> (mcs s))
        (<[t := mkView held None None]> (views s))).
    { intros Hh. destruct (acquire_recursive _ _ _ _ _ _ Hm Hmy Hv Hh) as [Hlt Hm']. split; [done|].
      destruct (the_mutex _ _ _ _ Hm Hmy) as [_ _ _ Hmax]. simpl in *.
      pose proof (the_pair _ _ _ _ _ Hm Hmy _ Hv) as (_ & Q2 & _)%pair_acquire. simpl in Q2. destruct (Q2 Hh).
      unfold u8, MUTEX_MAX_RECURSIVITY_DEPTH, MAX_BYTE in *. rewrite Z.mod_small by lia. done. }
    split.
    { intros y' Hy' Hh. unfold is_mutex in *. simplify_eq. by apply Hrec. }
    wps; [by apply Z.ltb_lt, Hrec|..].
    + on_mcs. by apply Hrec.
    + on_mcs. by eapply (acquire_enter _ _ m t _ held Hm Hmy).
  - split; [done|]. acquire H m y Hm. wps; on_mcs.
    + by apply (acquire_free _ _ m t _ held Hm Hmy old).
    + by apply (acquire_taken _ _ m t _ held Hm Hmy old).
  - split; [done|]. pose proof (st_queue_held _ _ _ _ _ _ _ _ _ _ _ H m _ Hy eq_refl) as Hl. simpl in Hl, Hd. subst dummy.
    wps; try done; on_mcs.
    + by apply (acquire_done _ _ m t _ held Hm Hmy old false).
    + by apply (acquire_wait _ _ m t _ held Hm Hmy old false).
  - split; [done|]. pose proof (st_queue_held _ _ _ _ _ _ _ _ _ _ _ H m _ Hy eq_refl) as Hl. simpl in Hl, Hd. subst dummy.
    wps; try done; on_mcs. by apply (acquire_sleep _ _ m t _ held Hm Hmy old false).
  - split; [done|]. acquire H m y Hm. wps; on_mcs.
    apply (acquire_again _ _ m t _ held Hm Hmy old); [done|]. by eapply not_listed.
Qed.
Lemma MutexRelease_minv s c t x th m p k :
  here kinds idle evts tids s c t x th (MutexReleaseAt m p :: k) → minv (mcs s) (views s) →
  mutex_pre s t (MutexReleaseAt m p) ∧
  wp (MutexRelease c t m p) s (λ fs s', minv (mcs (T t (with_Stack (fs ++ k)) s')) (views (T t (with_Stack (fs ++ k)) s'))).
Proof.
  intros H Hm. pose proof (views_lookup _ _ _ (h_thread _ _ _ _ _ _ _ _ _ _ H)) as Hv.
  rewrite (h_stack _ _ _ _ _ _ _ _ _ _ H) in Hv. here H g. simpl in Hf.
  destruct (st_mutex _ _ _ _ _ _ _ _ _ _ _ H m Hf) as [y Hy]. destruct g; try done.
  simpl in Hv. pose proof (mcs_mutex _ _ _ Hy) as Hmy. simpl in Hmy. destruct (the_mutex _ _ _ _ Hm Hmy) as [_ _ _ Hmax]. simpl in Hmax.
  unfold MUTEX_MAX_RECURSIVITY_DEPTH, MAX_BYTE in Hmax.
  destruct p as [| |old]; try specialize (Hi eq_refl); unfold MutexRelease.
  - pose proof (the_pair _ _ _ _ _ Hm Hmy _ Hv) as (Q1 & Q2 & Q3 & _)%pair_release; [|by left]. simpl in *.
    split. { intros y' Hy'. unfold is_mutex in *. by simplify_eq. }
    wps; [by apply bool_decide_eq_true_2|..]; on_mcs.
    + apply Z.ltb_lt in Heqb. simpl. unfold u8. rewrite Z.mod_small by lia.
      by apply (release_recursive _ _ m t _ held Hm Hmy).
    + apply Z.ltb_ge in Heqb. by apply (release_last _ _ m t _ held Hm Hmy).
  - split; [done|]. acquire H m y Hm. wps; on_mcs.
    + apply (release_free _ _ m t _ held Hm Hmy Hv eq_refl).
      by apply (free_no_loop _ _ _ (conj (h_wf _ _ _ _ _ _ _ _ _ _ H) (h_inv _ _ _ _ _ _ _ _ _ _ H)) Hy Hfree).
    + rewrite insert_insert_eq. apply (release_handover _ _ m t _ held Hm Hmy n l Hv eq_refl). rewrite <-Heql.
      apply (i_queue_nodup _ _ (inv_place _ _ (h_inv _ _ _ _ _ _ _ _ _ _ H)) m). by rewrite (abs_q _ _ _ Hy).
  - split; [done|]. pose proof (st_queue_held _ _ _ _ _ _ _ _ _ _ _ H m _ Hy eq_refl) as Hl. simpl in Hl.
    wps; try done; on_mcs. simpl. by rewrite insert_id.
Qed.

(** Every position of every function: no assertion fails, and the invariant is kept. *)
Lemma code_INV s c t x th f k :
  here kinds idle evts tids s c t x th (f :: k) → minv (mcs s) (views s) → ¬ forced_block s t f →
  ∃ fs s', code c t f s = Ret (fs, s') ∧ INV (T t (with_Stack (fs ++ k)) s')
    ∧ rtc (astep idle) (abs s) (abs (T t (with_Stack (fs ++ k)) s')).
Proof.
  intros H Hm Hforced.
  assert (Hmf : mutex_pre s t f ∧ ∀ fs s', code c t f s = Ret (fs, s') →
    minv (mcs (T t (with_Stack (fs ++ k)) s')) (views (T t (with_Stack (fs ++ k)) s'))).
  { destruct (plain f) eqn:Hf; [split; [by destruct f as [| | | | | | | |? []| | | | | | |]|intros fs s' Hc; by eapply (plain_minv _ _ _ _ _ f)]|].
    assert (Hwp : ∀ (m : M SYS (list frame)) Q, wp m s Q → ∀ fs s', m s = Ret (fs, s') → Q fs s').
    { intros m Q (fs & s' & E & HQ) fs' s'' E'. rewrite E in E'. by simplify_eq. }
    destruct f; try done.
    - split; [done|]. intros fs s' [= <- <-]. by apply (minv_busy _ _ _ _ _ _ _ H).
    - destruct (MutexAcquire_minv _ _ _ _ _ _ _ _ H Hm) as [Hpre Hrun]. split; [done|]. by apply Hwp.
    - destruct (MutexRelease_minv _ _ _ _ _ _ _ _ H Hm) as [Hpre Hrun]. split; [done|]. by apply Hwp. }
  destruct Hmf as [Hpre Hpost]. destruct (code_ok _ _ _ _ _ _ _ _ _ _ _ H Hpre Hforced) as (fs & s' & E & Hwf & Hsteps).
  exists fs, s'. split; [done|]. split; [|done]. split; [|by apply Hpost]. split; [done|].
  eapply inv_steps; [apply H|done].
Qed.
Lemma call_INV s c t held k :
  INV s → runs s c t [Run held] → call s t held k → INV (T t (with_Stack k) s).
Proof.
  intros [Hs Hm] Hr Hcall. split; [by eapply call_ok|].
  destruct Hr as (x & th & Hx & Hcur & Hth & Hk). pose proof (views_lookup _ _ _ Hth) as Hv. rewrite Hk in Hv. simpl in Hv.
  rewrite views_T by eauto. change (mcs (T t (with_Stack k) s)) with (mcs s).
  destruct Hcall as [|m y Hy _ Hc|m y Hy Hin| | | | |]; simpl; try by rewrite insert_id.
  - pose proof (mcs_mutex _ _ _ Hy) as Hmy. by apply (call_acquire_ok _ _ m t _ held Hm Hmy).
  - pose proof (mcs_mutex _ _ _ Hy) as Hmy. by apply (call_release_ok _ _ m t _ held Hm Hmy).
Qed.
Lemma interrupt_INV s c t held :
  INV s → runs s c t [Run held] →
  INV (T t (with_Stack [InterruptAt T_tick; Run held]) s) ∧ abs (T t (with_Stack [InterruptAt T_tick; Run held]) s) = abs s.
Proof.
  intros [[Hwf Hinv] Hm] Hr. destruct Hr as (x & th & Hx & Hcur & Hth & Hk).
  assert (H : here kinds idle evts tids s c t x th [Run held]) by by split.
  assert (E : abs (T t (with_Stack [InterruptAt T_tick; Run held]) s) = abs s).
  { rewrite abs_Stack by eauto. apply (set_phase_same _ c). apply (st_on _ _ _ _ _ _ _ _ _ _ _ H). }
  split; [|done]. split; [split; [|by rewrite E]|].
  - eapply (good_intro _ _ _ _ _ _ _ _ _ _ _ H [InterruptAt T_tick; Run held]);
      [apply calm_refl|done|by eapply (st_dying _ _ _ _ _ _ _ _ _ _ _ H)| |done|done|done|done|].
    + simpl app. split; [done|by repeat constructor].
    + rewrite (set_phase_same _ c); [done|]. apply (st_on _ _ _ _ _ _ _ _ _ _ _ H).
  - rewrite (views_same _ _ _ _ (views_lookup _ _ _ Hth)); [done|]. by rewrite Hk.
Qed.
(** Asking a thread to end changes nothing but its flags. *)
Lemma terminate_INV s u v :
  INV s → ¬ is_idle idle u → INV (T u (λ th, with_Flags (v th) th) s) ∧ abs (T u (λ th, with_Flags (v th) th) s) = abs s.
Proof.
  intros [[Hwf Hinv] Hm] Hid. set (s' := T u _ s).
  assert (E : abs s' = abs s) by by apply abs_T.
  assert (Hst : ∀ t, Stack <$> threads s' !! t = Stack <$> threads s !! t).
  { intros t. unfold s'. lk. destruct (decide (t = u)) as [->|]; [rewrite lookup_alter_eq|by rewrite lookup_alter_ne].
    by destruct (threads s !! u). }
  split; [|done]. split; [split; [|by rewrite E]|].
  - split; try apply Hwf.
    + intros t th Ht. unfold s' in Ht. fields_in Ht. destruct (decide (t = u)) as [->|].
      * rewrite lookup_alter_eq in Ht. destruct (threads s !! u) as [tu|] eqn:Hu; simplify_eq/=.
        destruct (wf_thread _ _ _ _ _ Hwf u tu Hu). by split.
      * rewrite lookup_alter_ne in Ht by done. by apply (wf_thread _ _ _ _ _ Hwf).
    + intros c x Hx. destruct (wf_cpu _ _ _ _ _ Hwf c x Hx) as (Hp & th & Hth & He & Hi). split; [done|].
      specialize (Hst (CurrentThread x)). rewrite Hth in Hst. destruct (threads s' !! CurrentThread x) as [th'|]; simplify_eq/=.
      exists th'. by rewrite Hst.
    + rewrite <-(wf_tids _ _ _ _ _ Hwf). unfold s'. lk. by rewrite dom_alter_L.
  - replace (views s') with (views s); [done|]. symmetry. by apply (fmap_alter_same (λ th, view_of (Stack th))).
Qed.
Lemma step_INV s s' : INV s → step s s' → INV s' ∧ rtc (astep idle) (abs s) (abs s').
Proof.
  intros HI Hs. destruct Hs as [s c t f k fs s' Hr Hforced Hc|s c t held k Hr Hcall|s c t x held Hr Hx Hi|s c t u held s' Hr Hid Ht].
  - destruct HI as [[Hwf Hinv] Hm]. destruct (runs_here _ _ _ _ _ _ _ _ Hwf Hinv Hr) as (x & th & H).
    destruct (code_INV _ _ _ _ _ _ _ H Hm Hforced) as (fs' & s'' & E & HI' & Hsteps). rewrite Hc in E. by simplify_eq.
  - split; [by eapply call_INV|]. destruct HI as [Hsane _].
    destruct (call_ok _ _ _ _ _ _ _ _ _ Hsane Hr Hcall) as [_ ->]. done.
  - destruct (interrupt_INV _ _ _ _ HI Hr) as [? ->]. done.
  - injection Ht as <-. destruct (terminate_INV s u (λ th, Z.lor (Flags th) THREAD_FLAG_FORCE_TERMINATE_PENDING) HI) as [HI' E].
    + destruct HI as [[Hwf _] _]. intros [c' Hc']. apply Hid. rewrite <-(wf_idle _ _ _ _ _ Hwf), lookup_fmap_Some in Hc'.
      destruct Hc' as (x & <- & Hx). by exists c', x.
    + split; [exact HI'|]. by rewrite <-E.
Qed.
End Program.
