(* ===== verification/SchedProps.v ===== *)
(** What threads, mutexes and events do in every run of Sched.v from a state in which
    nothing has happened yet: the theorems about the scheduler, and the runs that show
    where the code falls short. *)
From stdpp Require Import relations.
From S2P Require Import Prelude SchedSpec Sched SchedRefine SchedMutex.

(** * Where runs begin *)
Definition currents (s : SYS) : list nat := (λ p, CurrentThread p.2) <$> map_to_list (cpus s).
Definition idles (s : SYS) : list nat := (λ p, IdleThread p.2) <$> map_to_list (cpus s).
Definition event_b (s : SYS) (e : nat) : bool :=
  match objects s !! e with Some (SEvent _) => true | _ => false end.
Definition boot_thread (s : SYS) (t : nat) (th : THREAD) : Prop :=
  terminate_pending th = false ∧ State th ≠ ThreadStateDying ∧ BlockLock th = None ∧ event_b s (TerminationEvt th) = true
  ∧ match processes s !! Process th with Some p => event_b s (ProcessTerminationEvt p) = true | None => False end
  ∧ (Stack th = [Run []] ∧ t ∈ currents s
     ∨ Stack th = [ThreadStartAt S_cleanup; Run []] ∧ (t ∉ currents s) ∧ (t ∈ ReadyThreadsList s ∨ t ∈ idles s)).
Definition boot_cpu (s : SYS) (c : nat) (x : CPU) : Prop :=
  is_Some (threads s !! CurrentThread x) ∧ is_Some (threads s !! IdleThread x) ∧ PreviousThread x = None
  ∧ map_Forall (λ c' x', (CurrentThread x = CurrentThread x' ∨ IdleThread x = CurrentThread x' ∨ IdleThread x = IdleThread x') → c = c') (cpus s).
Definition boot_object (w : waitable) : Prop :=
  w_lock w = None ∧ w_list w = [] ∧
  match w with SMutex m => Holder m = None ∧ 1 ≤ MaxRecursivityDepth m ≤ MUTEX_MAX_RECURSIVITY_DEPTH | SEvent _ => True end.
Definition boot_ready (s : SYS) (t : nat) : Prop :=
  match threads s !! t with Some th => State th = ThreadStateReady | None => False end ∧ (t ∉ currents s) ∧ (t ∉ idles s).
(** The threads that run have called nothing yet, the others are new; no lock is held. *)
Record boot (s : SYS) : Prop := {
  b_threads : map_Forall (boot_thread s) (threads s);
  b_cpus : map_Forall (boot_cpu s) (cpus s);
  b_objects : map_Forall (λ _, boot_object) (objects s);
  b_ready : Forall (boot_ready s) (ReadyThreadsList s);
  b_nodup : NoDup (ReadyThreadsList s);
  b_lock : ReadyThreadsLock s = None
}.
#[export] Instance boot_thread_dec s t th : Decision (boot_thread s t th).
Proof. unfold boot_thread. destruct (processes s !! Process th); apply _. Defined.
#[export] Instance boot_cpu_dec s c x : Decision (boot_cpu s c x).
Proof. unfold boot_cpu. apply _. Defined.
#[export] Instance boot_object_dec w : Decision (boot_object w).
Proof. unfold boot_object. destruct w; apply _. Defined.
#[export] Instance boot_ready_dec s t : Decision (boot_ready s t).
Proof. unfold boot_ready. destruct (threads s !! t); apply _. Defined.
Definition reachable (s : SYS) : Prop := ∃ s0, boot s0 ∧ rtc step s0 s.
(** What stays the same in a run. *)
Definition kinds_of (s : SYS) : gmap nat bool := is_SMutex <$> objects s.
Definition idle_of (s : SYS) : gmap nat nat := IdleThread <$> cpus s.
Definition evts_of (s : SYS) : gmap nat nat := ProcessTerminationEvt <$> processes s.
Definition tids_of (s : SYS) : gset nat := dom (threads s).
Definition proper (s : SYS) : Prop := INV (kinds_of s) (idle_of s) (evts_of s) (tids_of s) s.

Section Boot.
Variable s : SYS.
Hypothesis Hb : boot s.
Lemma currents_spec t : t ∈ currents s ↔ ∃ c x, cpus s !! c = Some x ∧ CurrentThread x = t.
Proof using.
  unfold currents. rewrite list_elem_of_fmap. split.
  - intros ([c x] & -> & Hx%elem_of_map_to_list). eauto.
  - intros (c & x & Hx & <-). exists (c, x). split; [done|]. by apply elem_of_map_to_list.
Qed.
Lemma idles_spec t : t ∈ idles s ↔ is_idle (idle_of s) t.
Proof using.
  unfold idles, is_idle, idle_of. rewrite list_elem_of_fmap. setoid_rewrite lookup_fmap_Some. split.
  - intros ([c x] & -> & Hx%elem_of_map_to_list). eauto.
  - intros (c & x & <- & Hx). exists (c, x). split; [done|]. by apply elem_of_map_to_list.
Qed.
Lemma event_b_kinds e : event_b s e = true → kinds_of s !! e = Some false.
Proof using. unfold event_b, kinds_of. rewrite lookup_fmap. by destruct (objects s !! e) as [[]|]. Qed.
Lemma boot_running t : running (abs s) t ↔ t ∈ currents s.
Proof using. rewrite currents_spec. unfold running. setoid_rewrite abs_cur. done. Qed.
Lemma boot_on c t p : on (abs s) c = Some (t, p) → p = Normal.
Proof using Hb.
  intros Hon. pose proof (on_phase _ _ _ _ Hon) as Hp. pose proof (proj1 (boot_running t) (on_running _ _ _ _ Hon)) as Hc.
  simpl in Hp. rewrite lookup_fmap_Some in Hp. destruct Hp as (th & <- & Hth).
  destruct (b_threads _ Hb t th Hth) as (_ & _ & _ & _ & _ & [[-> _]|(_ & Hn & _)]); [done|done].
Qed.

Lemma boot_wf : wf (kinds_of s) (idle_of s) (evts_of s) (tids_of s) s.
Proof using Hb.
  split; try done.
  - intros t th Hth. destruct (b_threads _ Hb t th Hth) as (Hf & Hd & _ & He & Hp & Hk).
    split; try done; [..|by apply event_b_kinds|].
    + by destruct Hk as [[-> _]|[-> _]].
    + destruct Hk as [[-> _]|[-> _]]; by repeat constructor.
    + split; [done|]. by destruct Hk as [[-> _]|[-> _]].
    + unfold evts_of. destruct (processes s !! Process th) as [y|] eqn:E; [|done].
      exists (ProcessTerminationEvt y). rewrite lookup_fmap, E. split; [done|]. by apply event_b_kinds.
  - intros c x Hx. destruct (b_cpus _ Hb c x Hx) as ([th Hth] & _ & Hp & _). split; [congruence|].
    exists th. split; [done|].
    destruct (b_threads _ Hb _ th Hth) as (_ & _ & _ & _ & _ & [[-> _]|(_ & Hn & _)]); [done|].
    destruct Hn. apply currents_spec. eauto.
Qed.
Lemma boot_waiting t : ¬ waiting (abs s) t.
Proof using Hb.
  intros [(q & l & Hl & Ht)|(c & u & p & Hon & Hp)]; [|by rewrite (boot_on _ _ _ Hon) in Hp].
  simpl in Hl. rewrite lookup_fmap_Some in Hl. destruct Hl as (w & <- & Hw).
  destruct (b_objects _ Hb q w Hw) as (_ & E & _). rewrite E in Ht. by apply not_elem_of_nil in Ht.
Qed.
Lemma boot_one c c' x x' : cpus s !! c = Some x → cpus s !! c' = Some x' →
  CurrentThread x = CurrentThread x' ∨ IdleThread x = CurrentThread x' ∨ IdleThread x = IdleThread x' → c = c'.
Proof using Hb. intros Hx Hx'. destruct (b_cpus _ Hb c x Hx) as (_ & _ & _ & H). by apply H. Qed.
Lemma boot_idle c t : idle_of s !! c = Some t → ∃ x, cpus s !! c = Some x ∧ IdleThread x = t.
Proof using. unfold idle_of. rewrite lookup_fmap_Some. naive_solver. Qed.
Lemma boot_inv : inv (idle_of s) (abs s).
Proof using Hb.
  assert (Hph : ∀ t, is_Some (threads s !! t) → is_Some (a_phase (abs s) !! t)).
  { intros t [th Hth]. simpl. rewrite lookup_fmap, Hth. by eexists. }
  assert (Hnone : ∀ c t p, on (abs s) c = Some (t, p) → p ≠ Normal → False).
  { intros c t p Hon Hp. by apply Hp, (boot_on c t). }
  split.
  - split.
    + intros c c' t (x & Hx & Ht)%abs_cur (x' & Hx' & Ht')%abs_cur. eapply boot_one; [done..|]. left. congruence.
    + intros c t (x & Hx & <-)%abs_cur. apply Hph. by destruct (b_cpus _ Hb c x Hx).
    + intros t p Hp Hr. rewrite boot_running in Hr. simpl in Hp. rewrite lookup_fmap_Some in Hp.
      destruct Hp as (th & <- & Hth). by destruct (b_threads _ Hb t th Hth) as (_ & _ & _ & _ & _ & [[_ ?]|[-> _]]).
    + intros c c' t (x & Hx & Ht)%boot_idle (x' & Hx' & Ht')%abs_cur. eapply boot_one; [done..|]. right; left. congruence.
    + intros c c' t (x & Hx & Ht)%boot_idle (x' & Hx' & Ht')%boot_idle. eapply boot_one; [done..|]. right; right. congruence.
    + intros c t (x & Hx & <-)%boot_idle. apply Hph. by destruct (b_cpus _ Hb c x Hx) as (_ & ? & _).
  - split; [|intros c t Hon; by destruct (Hnone _ _ _ Hon)].
    intros c. simpl. rewrite (b_lock _ Hb). split; [done|]. intros [t Hon]. by destruct (Hnone _ _ _ Hon).
  - split; [|intros c t p q Hon Hq; by rewrite (boot_on _ _ _ Hon) in Hq].
    intros c q. split; [|intros (t & p & Hon & Hq); by rewrite (boot_on _ _ _ Hon) in Hq].
    simpl. rewrite lookup_omap_Some. intros (w & Hl & Hw). destruct (b_objects _ Hb q w Hw) as [E _]. congruence.
  - split.
    + intros c t. simpl. rewrite lookup_omap_Some. intros (th & Hl & Hth).
      destruct (b_threads _ Hb t th Hth) as (_ & _ & E & _). congruence.
    + intros c t p Hon Ho. by rewrite (boot_on _ _ _ Hon) in Ho.
    + intros c u p t Hon Ho. by rewrite (boot_on _ _ _ Hon) in Ho.
  - split.
    + apply (b_nodup _ Hb).
    + intros t Ht. pose proof (b_ready _ Hb) as Hr. rewrite Forall_forall in Hr. destruct (Hr t Ht) as (Hst & Hc & Hi).
      destruct (threads s !! t) as [th|] eqn:Hth; [|done].
      split_and!; [by rewrite (abs_st _ _ _ Hth), Hst|by rewrite boot_running|by rewrite <-idles_spec|apply boot_waiting|apply Hph; eauto].
    + intros q l Hl. simpl in Hl. rewrite lookup_fmap_Some in Hl. destruct Hl as (w & <- & Hw).
      destruct (b_objects _ Hb q w Hw) as (_ & -> & _). constructor.
    + intros t q q' Hq. destruct (boot_waiting t). left. by exists q.
    + intros c c' t Hp. destruct (boot_waiting t). right. by exists c.
    + intros c t q Hp. destruct (boot_waiting t). right. by exists c.
    + intros t Ht. by destruct (boot_waiting t).
  - split.
    + intros t q Hq. destruct (boot_waiting t). left. by exists q.
    + intros c t Hp. destruct (boot_waiting t). right. by exists c.
    + intros c t p q Hon Hq. by rewrite (boot_on _ _ _ Hon) in Hq.
    + intros c t p Hon Hq. by rewrite (boot_on _ _ _ Hon) in Hq.
    + intros c t Hon. by destruct (Hnone _ _ _ Hon).
    + intros t [c (x & Hx & <-)%boot_idle]. destruct (b_cpus _ Hb c x Hx) as (_ & [th Hth] & _).
      rewrite (abs_st _ _ _ Hth). destruct (b_threads _ Hb _ th Hth) as (_ & Hd & _). congruence.
    + intros t p Hp Hr. rewrite boot_running in Hr. simpl in Hp. rewrite lookup_fmap_Some in Hp. destruct Hp as (th & _ & Hth).
      destruct (b_threads _ Hb t th Hth) as (_ & _ & _ & _ & _ & [[_ ?]|(_ & _ & [?|?])]); [done|by left|].
      right; right; left. by apply idles_spec.
Qed.
Lemma boot_proper : proper s.
Proof using Hb.
  split; [split; [apply boot_wf|apply boot_inv]|]. intros m x Hx. apply mcs_inv in Hx as (y & Hy & [= <-]).
  destruct (b_objects _ Hb m _ Hy) as (_ & Hl & Hh & Hmax). simpl in Hl.
  split; [split; simpl; try done; rewrite ?Hl, ?Hh; [done|by intros t ?%not_elem_of_nil]|].
  intros t v Hv. unfold views in Hv. rewrite lookup_fmap_Some in Hv. destruct Hv as (th & <- & Hth).
  assert (E : view_of (Stack th) = mkView [] None None).
  { by destruct (b_threads _ Hb t th Hth) as (_ & _ & _ & _ & _ & [[-> _]|[-> _]]). }
  rewrite E. apply pair_idle. change (count m []) with 0%nat. simpl. rewrite Hh, Hl. split_and!; [done|by intros ?%Nat.lt_irrefl|lia|apply not_elem_of_nil].
Qed.
End Boot.

Lemma INV_proper kinds idle evts tids s : INV kinds idle evts tids s → proper s.
Proof. intros HI. pose proof HI as [[[? ? Hk Hid Hev Ht] _] _]. unfold proper, kinds_of, idle_of, evts_of, tids_of. by rewrite Hk, Hid, Hev, Ht. Qed.
Lemma step_proper s s' : proper s → step s s' → proper s' ∧ rtc (astep (idle_of s)) (abs s) (abs s').
Proof. intros HI Hs. destruct (step_INV _ _ _ _ _ _ HI Hs) as [HI' ?]. split; [by eapply INV_proper|done]. Qed.
Lemma reachable_proper s : reachable s → proper s.
Proof.
  intros (s0 & Hb & Hs). apply boot_proper in Hb. induction Hs as [|s1 s2 s3 Hs _ IH]; [done|]. by apply IH, (step_proper s1).
Qed.

(** * Reading the invariant *)
Lemma on_runs s c t p : on (abs s) c = Some (t, p) → ∃ k, runs s c t k ∧ phase_of k = p.
Proof.
  intros Hon. pose proof (on_phase _ _ _ _ Hon) as Hp. pose proof (on_cur _ _ _ _ Hon) as (x & Hx & Hc)%abs_cur.
  simpl in Hp. rewrite lookup_fmap_Some in Hp. destruct Hp as (th & <- & Hth). exists (Stack th). split; [|done].
  by exists x, th.
Qed.
Lemma runs_stack s c t k : proper s → runs s c t k → stack_ok k = true.
Proof.
  intros [[Hwf _] _] (x & th & _ & _ & Hth & <-). apply (t_stack _ _ _ _ _ _ (wf_thread _ _ _ _ _ Hwf t th Hth)).
Qed.
(** The thread [u] on [c] is about to make [t] ready. *)
Definition unblocks (s : SYS) (c u t : nat) : Prop :=
  ∃ p k, runs s c u (ThreadUnblockAt t p :: k) ∧ match p with U_unlock _ => False | _ => True end.
(** [t] waits for a mutex or an event, or is just being woken. *)
Definition waits (s : SYS) (t : nat) : Prop :=
  (∃ q w, objects s !! q = Some w ∧ t ∈ w_list w) ∨ ∃ c u, unblocks s c u t.
Lemma waiting_waits s t : waiting (abs s) t → waits s t.
Proof.
  intros [H|H]; [left|right].
  - destruct H as (q & l & Hl & Ht). simpl in Hl. rewrite lookup_fmap_Some in Hl. naive_solver.
  - destruct H as (c & u & p & (k & Hk & <-)%on_runs & Ht). exists c, u.
    destruct k as [|[| | | | | |v []| | | | | | | | |] [|g k]]; simplify_eq/=; try (by repeat case_match); by eexists _, _.
Qed.
Lemma waits_waiting s t : proper s → waits s t → waiting (abs s) t.
Proof.
  intros HI [(q & w & Hw & Ht)|(c & u & p & k & Hk & Hp)]; [left|right].
  - exists q, (w_list w). by rewrite (abs_q _ _ _ Hw).
  - exists c, u, (phase_of (ThreadUnblockAt t p :: k)). split; [by apply abs_on|].
    pose proof (runs_stack _ _ _ _ HI Hk) as Hs. destruct k as [|g k]; [done|]. by destruct p.
Qed.

(** ** Spinlocks *)
(** The lock a position takes. *)
Definition wants (t : nat) (f : frame) : option LOCK :=
  match f with
  | ThreadYieldAt (Y_lock _ _) | ThreadBlockAt B_lock | ThreadUnblockAt _ (U_ready _) | ThreadExitAt X_schedule => Some L_ready
  | ThreadTakeBlockLockAt | IdleThreadAt I_take => Some (L_block t)
  | ThreadUnblockAt u U_lock => Some (L_block u)
  | MutexAcquireAt q (A_lock _ | A_again _) | MutexReleaseAt q R_lock | ExEventSignalAt q G_lock
  | ExEventWaitForSignalAt q (W_lock _) => Some (L_queue q)
  | _ => None
  end.
Definition spins (s : SYS) (t : nat) (f : frame) : Prop :=
  ∃ l h, wants t f = Some l ∧ lock_of s l = Some (Some h).
Definition rank (l : LOCK) : nat := match l with L_ready => 0 | L_block _ => 1 | L_queue _ => 2 end.
(** The CPU [c] spins at a lock that the CPU [h] holds. *)
Definition waits_for (s : SYS) (c h : nat) : Prop :=
  ∃ t f k l, runs s c t (f :: k) ∧ wants t f = Some l ∧ lock_of s l = Some (Some h).
Lemma runs_inj s c t t' k k' : runs s c t k → runs s c t' k' → t = t' ∧ k = k'.
Proof. intros (x & th & Hx & Ht & Hth & Hk) (x' & th' & Hx' & Ht' & Hth' & Hk'). simplify_eq. by simplify_eq. Qed.

(** ** A position that does not wait is left *)
Definition gives {A} (m : M SYS A) (P : A → Prop) : Prop := ∀ s a s', m s = Ret (a, s') → P a.
Lemma gives_ret {A} (a : A) (P : A → Prop) : P a → gives (mret a) P.
Proof. by intros H s b s' [= <- <-]. Qed.
Lemma gives_bind {A B} (m : M SYS A) (k : A → M SYS B) P : (∀ a, gives (k a) P) → gives (m ≫= k) P.
Proof. intros H s b s' (a & s1 & _ & Hk)%bind_Ret_inv. by eapply H. Qed.
Lemma lock_holder_inv l s h s' : lock_holder l s = Ret (h, s') → s' = s ∧ lock_of s l = Some h.
Proof.
  destruct l as [|t|q]; simpl.
  - by intros [= <- <-].
  - intros (th & s1 & Hth & [= <- <-])%bind_Ret_inv. unfold thread in Hth.
    apply bind_Ret_inv in Hth as (? & ? & [= <- <-] & Hth). unfold from_option_fault in Hth.
    destruct (threads s !! t); by simplify_eq/=.
  - intros (w & s1 & Hw & [= <- <-])%bind_Ret_inv. unfold object in Hw.
    apply bind_Ret_inv in Hw as (? & ? & [= <- <-] & Hw). unfold from_option_fault in Hw.
    destruct (objects s !! q); by simplify_eq/=.
Qed.
Lemma LockAcquire_free_inv c l f k s fs s' (P : list frame → Prop) :
  LockAcquire c l f k s = Ret (fs, s') → (∀ h, lock_of s l ≠ Some (Some h)) → (∀ old, gives (k old) P) → P fs.
Proof.
  intros H Hfree HP. unfold LockAcquire, LockIsOwner in H.
  apply bind_Ret_inv in H as (own & s1 & Hown & H). apply bind_Ret_inv in Hown as (h & s2 & [-> _]%lock_holder_inv & [= <- <-]).
  apply bind_Ret_inv in H as (? & s2 & [_ ->]%ASSERT_inv & H).
  apply bind_Ret_inv in H as (h' & s2 & [-> Hh]%lock_holder_inv & H). destruct h' as [h'|]; [by destruct (Hfree h')|].
  apply bind_Ret_inv in H as (? & s2 & _ & H). apply bind_Ret_inv in H as (old & s3 & _ & H). by eapply HP.
Qed.
Ltac gives :=
  repeat lazymatch goal with
  | |- gives (mret _) _ => apply gives_ret
  | |- gives (mbind _ _) _ => apply gives_bind; intros ?
  | |- gives (if ?b then _ else _) _ => destruct b
  | |- gives match ?b with _ => _ end _ => destruct b
  end.
Lemma code_moves c t f s fs s' :
  code c t f s = Ret (fs, s') → ¬ spins s t f → (∀ held, f ≠ Run held) → fs ≠ [f].
Proof.
  intros Hc Hspin Hrun. assert (Hfree : ∀ l, wants t f = Some l → ∀ h, lock_of s l ≠ Some (Some h)).
  { intros l Hl h Hh. apply Hspin. by exists l, h. }
  destruct f as [|[]| |[]| |[]|? []|? []|? []|? []| |? []|[]|[]|[]|[]]; try (by destruct (Hrun held));
    match type of Hc with code _ _ ?f _ = _ =>
      first [ refine (LockAcquire_free_inv _ _ _ _ _ _ _ (λ fs, fs ≠ [f]) Hc (Hfree _ eq_refl) _); intros ?
            | clear Hspin Hfree; refine ((_ : gives (code c t f) (λ fs, fs ≠ [f])) _ _ _ Hc) ]
    end.
  all: unfold code, ThreadYield, _ThreadSchedule_switched, ThreadCleanupPostSchedule, ThreadBlock, ThreadUnblock, MutexAcquire,
    MutexRelease, ExEventSignal, ExEventClearSignal, ExEventWaitForSignal, ThreadExit, _IdleThread, Interrupt, ThreadStart,
    _ThreadForcedExit; gives; try done.
  all: first [intros [[_ ?]|[_ ?]]%app_eq_unit; congruence|by case_match].
Qed.
(** What a thread wants in each phase. *)
Lemma wants_phase t f k l : stack_ok (f :: k) = true → wants t f = Some l →
  match phase_of (f :: k) with
  | Normal => True | BlkSt | Unb2 _ _ => l = L_ready | Queued _ => l = L_block t | Unb1 _ u => l = L_block u | _ => False
  end.
Proof.
  intros Hs Hw. destruct k as [|g k]; [by destruct f|].
  by destruct f as [|[]| | | |[]|? []|? []|? []|? []| |? []|[]|[]| |]; simplify_eq/=.
Qed.
(** The thread that holds a lock wants a smaller one, if any. *)
Lemma lock_holder_runs s l h : proper s → lock_of s l = Some (Some h) →
  ∃ t f k, runs s h t (f :: k) ∧ (∀ held, f ≠ Run held) ∧ ∀ l', wants t f = Some l' → (rank l' < rank l)%nat.
Proof.
  intros HI Hl. pose proof HI as [[Hwf Hinv] _].
  assert (Hfrom : ∀ t p, on (abs s) h = Some (t, p) →
    ∃ f k, runs s h t (f :: k) ∧ phase_of (f :: k) = p ∧ stack_ok (f :: k) = true).
  { intros t p (k & Hk & Hp)%on_runs. pose proof (runs_stack _ _ _ _ HI Hk). destruct k as [|f k]; [done|eauto]. }
  enough (∃ t p, on (abs s) h = Some (t, p) ∧ match l with
    | L_ready => p = Switch | L_block _ => own_blk p = true ∨ is_Some (their_blk p) ∨ behind p = true
    | L_queue _ => is_Some (held_q p) end) as (t & p & Hon & Hp).
  { destruct (Hfrom _ _ Hon) as (f & k & Hk & <- & Hs). exists t, f, k. split; [done|]. split.
    { intros held ->. simpl in Hp. destruct l; naive_solver. }
    intros l' Hw. pose proof (wants_phase _ _ _ _ Hs Hw) as Hc. destruct (phase_of (f :: k)), l; simplify_eq/=; try done; try lia;
      naive_solver lia. }
  destruct l as [|u|q]; simpl in Hl.
  - assert (Hr : a_rl (abs s) = Some h) by (simpl; congruence). apply (i_rl _ (inv_rl _ _ Hinv)) in Hr as [t Hon]. eauto.
  - destruct (threads s !! u) as [tu|] eqn:Hu; simplify_eq/=. rewrite <-(abs_blk _ _ _ Hu) in Hl.
    destruct (i_blk _ _ (inv_blk _ _ Hinv) _ _ Hl) as [(p & Hon & Ho)|[(v & p & Hon & Ho)|[(v & [[Hon _]|Hon]) _]]]; eauto 10.
  - destruct (objects s !! q) as [w|] eqn:Hq; simplify_eq/=. rewrite <-(abs_qlk _ _ _ Hq) in Hl.
    apply (i_qlk _ (inv_qlk _ _ Hinv)) in Hl as (t & p & Hon & Hh). eauto 10.
Qed.
Lemma spins_dec s t f : spins s t f ∨ ¬ spins s t f.
Proof.
  unfold spins. destruct (wants t f) as [l'|]; [|right; naive_solver].
  destruct (lock_of s l') as [[h'|]|] eqn:E; [left; eauto|right; naive_solver..].
Qed.
(** A CPU that waits for [h] to release [l], and the CPUs that [h] waits for. *)
Lemma waits_chain s l h : proper s → lock_of s l = Some (Some h) →
  (∀ n e, nsteps (waits_for s) n h e → (n ≤ rank l)%nat) ∧
  ∃ e t f k, rtc (waits_for s) h e ∧ runs s e t (f :: k) ∧ (∀ held, f ≠ Run held) ∧ ¬ spins s t f.
Proof.
  intros HI. remember (rank l) as r eqn:Hr. revert l h Hr. induction r as [r IH] using lt_wf_ind. intros l h -> Hl.
  destruct (lock_holder_runs _ _ _ HI Hl) as (t & f & k & Hk & Hrun & Hlt).
  split.
  - intros [|n] e Hn; [lia|]. inversion Hn as [|? ? h' ? Hw Hn']; subst.
    destruct Hw as (t' & f' & k' & l' & Hk' & Hw & Hl'). destruct (runs_inj _ _ _ _ _ _ Hk Hk') as [<- [= <- <-]].
    destruct (IH (rank l') (Hlt _ Hw) l' h' eq_refl Hl') as [Hle _]. specialize (Hle _ _ Hn'). specialize (Hlt _ Hw). lia.
  - destruct (spins_dec s t f) as [(l' & h' & Hw & Hl')|Hno]; [|by exists h, t, f, k].
    destruct (IH (rank l') (Hlt _ Hw) l' h' eq_refl Hl') as (_ & e & t' & f' & k' & He & ?).
    exists e, t', f', k'. split; [|done]. eapply rtc_l; [|exact He]. by exists t, f, k, l'.
Qed.
Lemma ThreadBlock_returns c t s k :
  proper s → runs s c t (ThreadBlockAt B_enter :: k) → ∃ fs s', ThreadBlock c t B_enter s = Ret (fs, s').
Proof.
  intros HI Hr. pose proof HI as [[Hwf Hinv] _]. destruct (runs_here _ _ _ _ _ _ _ _ Hwf Hinv Hr) as (x & th & H).
  pose proof (st_cpu _ _ _ _ _ _ _ _ _ _ _ H) as [_ Hi]. specialize (Hi eq_refl).
  pose proof (st_block_own _ _ _ _ _ _ _ _ _ _ _ H eq_refl) as Hb.
  pose proof (h_cpu _ _ _ _ _ _ _ _ _ _ H) as Hx. pose proof (h_thread _ _ _ _ _ _ _ _ _ _ H) as Hth.
  assert (Hwp : wp (ThreadBlock c t B_enter) s (λ _ _, True)).
  { unfold ThreadBlock, _ThreadForcedExit. wps; try done; [by rewrite Hi|by apply bool_decide_eq_true_2]. }
  destruct Hwp as (fs & s' & E & _). eauto.
Qed.
Lemma code_returns s c t f k : proper s → runs s c t (f :: k) → ∃ fs s', code c t f s = Ret (fs, s').
Proof.
  intros HI Hr. destruct (decide (forced_block s t f)) as [[-> _]|Hforced]; [by eapply ThreadBlock_returns|].
  pose proof HI as [[Hwf Hinv] Hm]. destruct (runs_here _ _ _ _ _ _ _ _ Hwf Hinv Hr) as (x & th & H).
  destruct (code_INV _ _ _ _ _ _ _ _ _ _ _ H Hm Hforced) as (fs & s' & E & _). eauto.
Qed.

(** * The theorems *)
(** C4: every step of the code of the threads, mutexes and events - a position of a function that a CPU
    executes, a call, an interrupt, a request to end by ThreadTerminate and the end of a thread in
    ThreadYield that follows from it - is a sequence of steps of the abstract scheduler. The runs are all
    interleavings from a state after boot; left out is one step, in which a thread that has put itself
    into a waiting list and has been asked to end before it tests that in ThreadBlock ends there (it
    stays in the list, and an assertion can fail later). The memory of a thread is not released when
    its last reference is dropped. *)
Theorem scheduler_refines s s' :
  reachable s → step s s' → rtc (astep (idle_of s)) (abs s) (abs s').
Proof. intros Hr Hs. by apply step_proper; [apply reachable_proper|]. Qed.

(** C2: no assertion of thread.c, mutex.c and ex_event.c fails in any interleaving of calls,
    interrupts, requests to end and the steps of all CPUs from a state after boot, up to the point where
    a thread that has been asked to end finds that in ThreadBlock, between its insertion into a waiting
    list and its switch: what is on top of the stack of a running thread, that test of ThreadBlock
    included, can always be executed. The steps behind an end in ThreadBlock are not covered (there
    the assertion of ThreadUnblock can fail), and the threads are not destroyed when their last
    reference is dropped, so that nothing is said about the use of a thread that has been freed. *)
Theorem no_assertion_fails s c t f k :
  reachable s → runs s c t (f :: k) → ∃ fs s', code c t f s = Ret (fs, s').
Proof. intros HI%reachable_proper Hr. by eapply code_returns. Qed.

(** C14: a thread is in one place: no two CPUs execute the same thread, the ready list holds
    a thread once, and its threads are in the ready state, on no CPU, not idle threads, and
    wait for nothing. *)
Theorem threads_in_one_place s :
  reachable s →
  (∀ c c' t k k', runs s c t k → runs s c' t k' → c = c') ∧ NoDup (ReadyThreadsList s) ∧
  ∀ t, t ∈ ReadyThreadsList s → ¬ waits s t ∧ ¬ t ∈ currents s ∧ ¬ t ∈ idles s
    ∧ ∃ th, threads s !! t = Some th ∧ State th = ThreadStateReady.
Proof.
  intros HI%reachable_proper. pose proof HI as [[Hwf Hinv] _]. split_and!.
  - intros c c' t k k' Hk Hk'. by apply abs_on in Hk, Hk'; destruct (on_inj _ _ _ _ _ _ _ (inv_who _ _ Hinv) Hk Hk').
  - apply (i_ready_nodup _ _ (inv_place _ _ Hinv)).
  - intros t Ht. destruct (i_ready _ _ (inv_place _ _ Hinv) t Ht) as (Hst & Hr & Hid & Hw & [th Hth]%abs_thread).
    rewrite (abs_st _ _ _ Hth) in Hst. split_and!; [|by rewrite <-boot_running|by rewrite idles_spec|exists th; naive_solver].
    by intros ?%(waits_waiting _ _ HI).
Qed.

(** C13: no thread gets lost: a thread that is on no CPU is in the ready list, waits for a
    mutex or an event, is just being woken, is the idle thread of a CPU, or has ended. *)
Theorem no_thread_lost s t th :
  reachable s → threads s !! t = Some th → t ∉ currents s →
  t ∈ ReadyThreadsList s ∨ waits s t ∨ t ∈ idles s ∨ State th = ThreadStateDying.
Proof.
  intros HI%reachable_proper Hth Hc. pose proof HI as [[Hwf Hinv] _].
  assert (Hp : a_phase (abs s) !! t = Some (phase_of (Stack th))) by (simpl; by rewrite lookup_fmap, Hth).
  rewrite <-boot_running in Hc. rewrite idles_spec.
  destruct (i_live _ _ (inv_wait _ _ Hinv) t _ Hp Hc) as [?|[?%waiting_waits|[?|Hd]]]; [by left|by right; left|by right; right; left|].
  rewrite (abs_st _ _ _ Hth) in Hd. right; right; right. congruence.
Qed.

(** C40: CPUs do not wait for each other in a circle. In every reachable state the relation that a CPU
    spins at a spinlock of the scheduler, of a thread, a mutex or an event that another CPU holds has no
    cycle and no chain of more than three CPUs that spin, and every chain ends in a CPU that does not
    spin: it holds the lock that the one before it waits for, is inside of one of the functions, and
    its next step executes without a failed assertion and leaves its position. *)
Theorem spinning_ends s :
  reachable s →
  (∀ c, ¬ tc (waits_for s) c c) ∧ (∀ n c e, nsteps (waits_for s) n c e → (n ≤ 3)%nat) ∧
  ∀ c h, waits_for s c h → ∃ e t f k fs s', rtc (waits_for s) h e ∧ runs s e t (f :: k) ∧ (∀ held, f ≠ Run held)
    ∧ ¬ spins s t f ∧ code e t f s = Ret (fs, s') ∧ fs ≠ [f].
Proof.
  intros HI%reachable_proper.
  assert (Hlen : ∀ n c e, nsteps (waits_for s) n c e → (n ≤ 3)%nat).
  { intros [|n] c e Hn; [lia|]. inversion Hn as [|? ? h ? (t & f & k & l & _ & _ & Hl) Hn']; subst.
    destruct (waits_chain s l h HI Hl) as [Hle _]. specialize (Hle _ _ Hn'). destruct l; simpl in Hle; lia. }
  split; [|split; [done|]].
  - intros c Hc. apply tc_nsteps in Hc as (n & Hn & Hc).
    assert (Hmany : ∀ m, nsteps (waits_for s) (m * n) c c) by (induction m; [constructor|by eapply nsteps_trans]).
    specialize (Hlen _ _ _ (Hmany 4%nat)). lia.
  - intros c h (t & f & k & l & _ & _ & Hl). destruct (waits_chain s l h HI Hl) as (_ & e & t' & f' & k' & He & Hr & Hrun & Hno).
    destruct (code_returns _ _ _ _ _ HI Hr) as (fs & s' & Hc). exists e, t', f', k', fs, s'. split_and!; try done.
    by eapply code_moves.
Qed.

(** The thread [t] has the mutex [m]. *)
Definition has (s : SYS) (t m : nat) : Prop := ∃ th, threads s !! t = Some th ∧ 0 < owned (view_of (Stack th)) m.
(** C3: a mutex is held by one thread at a time; when the code of a thread holds a mutex,
    the thread is the holder and the depth says how often it has acquired it. *)
Theorem mutex_exclusion s m x :
  reachable s → is_mutex s m x →
  (∀ t u, has s t m → has s u m → t = u) ∧
  ∀ t th h, threads s !! t = Some th → Stack th = [Run h] → m ∈ h →
    Holder x = Some t ∧ CurrentRecursivityDepth x = Z.of_nat (count m h).
Proof.
  intros [_ Hm]%reachable_proper Hx. pose proof (mcs_mutex _ _ _ Hx) as Hmx. simpl in Hmx. split.
  - intros t u (th & Hth & Ht) (tu & Htu & Hu).
    pose proof (p_owned _ _ _ _ (the_pair _ _ _ _ _ Hm Hmx _ (views_lookup _ _ _ Hth)) Ht).
    pose proof (p_owned _ _ _ _ (the_pair _ _ _ _ _ Hm Hmx _ (views_lookup _ _ _ Htu)) Hu). simpl in *. congruence.
  - intros t th h Hth Hk Hin. pose proof (views_lookup _ _ _ Hth) as Hv. rewrite Hk in Hv.
    destruct (proj1 (pair_idle _ _ _ _) (the_pair _ _ _ _ _ Hm Hmx _ Hv)) as (Q1 & Q2 & _). simpl in *.
    assert (Hc : (0 < count m h)%nat).
    { unfold count. destruct (filter (eq m) h) eqn:E; [|simpl; lia]. exfalso. by apply (filter_nil_not_elem_of _ _ m E) in Hin. }
    specialize (Q2 Hc). by destruct (Q1 Q2).
Qed.

(** C15: a thread that has waited for a mutex is its holder when it wakes up, so the loop of
    MutexAcquire ends: the mutex is handed over, nobody can take it in between. *)
Theorem mutex_handed_over s c t m x old k :
  reachable s → runs s c t (MutexAcquireAt m (A_again old) :: k) → is_mutex s m x → 
  Holder x = Some t ∧ CurrentRecursivityDepth x = 1.
Proof.
  intros HI%reachable_proper Hr Hx. pose proof HI as [[Hwf Hinv] Hm]. pose proof (mcs_mutex _ _ _ Hx) as Hmx. simpl in Hmx.
  destruct (runs_here _ _ _ _ _ _ _ _ Hwf Hinv Hr) as (y & th & H). pose proof (views_lookup _ _ _ (h_thread _ _ _ _ _ _ _ _ _ _ H)) as Hv.
  pose proof (not_listed _ _ _ _ _ _ _ _ _ _ _ _ _ H eq_refl eq_refl Hx) as Hl.
  rewrite (h_stack _ _ _ _ _ _ _ _ _ _ H) in Hv. pose proof (the_pair _ _ _ _ _ Hm Hmx _ Hv) as Hp.
  destruct (p_parked _ _ _ _ Hp _ eq_refl eq_refl) as [|E]; [done|]. simpl in E. split; [done|].
  by destruct (p_holder _ _ _ _ Hp E) as [(_ & _ & Q)|(_ & ? & _)]; [by specialize (Q _ eq_refl)|].
Qed.
(** Nobody waits for a mutex that nobody holds. *)
Theorem mutex_free s m x : reachable s → is_mutex s m x → Holder x = None → WaitingList x = [].
Proof. intros [_ Hm]%reachable_proper Hx. by destruct (the_mutex _ _ _ _ Hm (mcs_mutex _ _ _ Hx)). Qed.
