(* ===== verification/SchedRuns.v ===== *)
(** Runs of Sched.v on a small system, computed: the witnesses of the theorems of
    SchedProps.v, and three runs in which the code does not do what it means to do. *)
From stdpp Require Import relations.
From S2P Require Import Prelude SchedSpec Sched SchedRefine SchedMutex SchedProps.

(** * Executing steps *)
Inductive action :=
  | Go (c : nat)                         (* the CPU executes the topmost position *)
  | GoForced (c : nat)                   (* ... and the thread ends in ThreadBlock *)
  | Enter (c : nat) (k : list frame)     (* the thread calls a function *)
  | Terminate (c u : nat).               (* ThreadTerminate of the thread [u] *)
Definition top (c : nat) (s : SYS) : option (nat * list frame) :=
  x ← cpus s !! c; th ← threads s !! CurrentThread x; Some (CurrentThread x, Stack th).
Definition is_mutex_b (s : SYS) (m : nat) : option MUTEX := match objects s !! m with Some (SMutex x) => Some x | _ => None end.
Definition is_event_b (s : SYS) (m : nat) : option EX_EVENT := match objects s !! m with Some (SEvent x) => Some x | _ => None end.
Definition call_b (s : SYS) (t : nat) (h : list nat) (k : list frame) : bool :=
  match k with
  | [ThreadYieldAt Y_enter; Run h'] => bool_decide (h' = h)
  | [MutexAcquireAt m A_enter; Run h'] => bool_decide (h' = m :: h) && bool_decide (t ∉ idles s) &&
      match is_mutex_b s m with Some x => Z.of_nat (count m h) <? MaxRecursivityDepth x | None => false end
  | [MutexReleaseAt m R_enter; Run h'] => bool_decide (h' = remove1 m h) && bool_decide (m ∈ h) && bool_decide (is_Some (is_mutex_b s m))
  | [ExEventSignalAt e G_lock; Run h'] => bool_decide (h' = h) && bool_decide (is_Some (is_event_b s e))
  | [ExEventWaitForSignalAt e W_enter; Run h'] => bool_decide (h' = h) && bool_decide (t ∉ idles s) && bool_decide (is_Some (is_event_b s e))
  | [ThreadExitAt (X_enter _); Run h'] => bool_decide (h' = h) && bool_decide (t ∉ idles s)
  | _ => false
  end.
Definition forced_b (s : SYS) (t : nat) (f : frame) : bool := bool_decide (forced_block s t f).
Definition go_code (c : nat) (forced : bool) (s : SYS) : option SYS :=
  '(t, k) ← top c s;
  match k with
  | f :: k' =>
      if bool_decide (forced_b s t f = forced)
      then match code c t f s with Ret (fs, s') => Some (T t (with_Stack (fs ++ k')) s') | _ => None end
      else None
  | [] => None
  end.
Definition act (a : action) (s : SYS) : option SYS :=
  match a with
  | Go c => go_code c false s
  | GoForced c => go_code c true s
  | Enter c k =>
      '(t, k0) ← top c s;
      match k0 with [Run h] => if call_b s t h k then Some (T t (with_Stack k) s) else None | _ => None end
  | Terminate c u =>
      '(t, k0) ← top c s;
      match k0 with
      | [Run h] => if bool_decide (u ∈ idles s) then None else match ThreadTerminate u s with Ret (_, s') => Some s' | _ => None end
      | _ => None
      end
  end.
Fixpoint exec (l : list action) (s : SYS) : option SYS :=
  match l with [] => Some s | a :: l' => s' ← act a s; exec l' s' end.

Definition any_step (s s' : SYS) : Prop := step s s' ∨ step_forced_block s s'.
Definition harmless (a : action) : bool := match a with GoForced _ => false | _ => true end.

Lemma top_runs c s t k : top c s = Some (t, k) → runs s c t k.
Proof.
  unfold top. destruct (cpus s !! c) as [x|] eqn:Hx; [|done]. cbn.
  destruct (threads s !! CurrentThread x) as [th|] eqn:Hth; [|done]. cbn. intros [= <- <-]. by exists x, th.
Qed.
Lemma is_mutex_b_spec s m x : is_mutex_b s m = Some x → is_mutex s m x.
Proof. unfold is_mutex_b, is_mutex. destruct (objects s !! m) as [[]|]; naive_solver. Qed.
Lemma is_event_b_spec s m x : is_event_b s m = Some x → is_event s m x.
Proof. unfold is_event_b, is_event. destruct (objects s !! m) as [[]|]; naive_solver. Qed.
Lemma idles_thread s t : t ∉ idles s → ¬ is_idle_thread s t.
Proof.
  rewrite idles_spec. intros H (c & x & Hx & Ht). apply H. exists c. unfold idle_of. by rewrite lookup_fmap, Hx; simpl; f_equal.
Qed.
Lemma call_b_spec s t h k : call_b s t h k = true → call s t h k.
Proof.
  unfold call_b. intros H.
  destruct k as [|f [|[h'| | | | | | | | | | | | | | |] [|]]]; try done; try (by destruct f as [|[]| |[]| |[]|? []|? []|? []|? []|?|? []|[]|[]|[]|[]]).
  destruct f as [|[]| | | | | |m []|m []|e []| |e []|[]| | |]; try done; repeat (apply andb_true_iff in H as [H ?]);
    repeat match goal with H : bool_decide _ = true |- _ => apply bool_decide_eq_true in H end; subst.
  - constructor.
  - destruct (is_mutex_b s m) as [x|] eqn:E; [|done]. apply (call_acquire _ _ _ m x); [by apply is_mutex_b_spec|by apply idles_thread|by apply Z.ltb_lt].
  - match goal with H : is_Some _ |- _ => destruct H as [x Hx] end. apply (call_release _ _ _ m x); [by apply is_mutex_b_spec|done].
  - match goal with H : is_Some _ |- _ => destruct H as [x Hx] end. apply (call_signal _ _ _ e x). by apply is_event_b_spec.
  - match goal with H : is_Some _ |- _ => destruct H as [x Hx] end. apply (call_wait _ _ _ e x); [by apply is_event_b_spec|by apply idles_thread].
  - apply call_exit. by apply idles_thread.
Qed.
Lemma go_code_step c forced s s' : go_code c forced s = Some s' → if forced then step_forced_block s s' else step s s'.
Proof.
  unfold go_code. destruct (top c s) as [[t k0]|] eqn:Ht; [|done]. cbn. apply top_runs in Ht.
  destruct k0 as [|f k']; [done|]. destruct (bool_decide_reflect (forced_b s t f = forced)) as [Hf|]; [|done].
  destruct (code c t f s) as [[fs s1]| | |] eqn:Hc; [|done..]. intros [= <-]. unfold forced_b in Hf.
  destruct forced; [apply bool_decide_eq_true in Hf|apply bool_decide_eq_false in Hf]; by econstructor.
Qed.
Lemma act_step a s s' : act a s = Some s' → any_step s s' ∧ (harmless a = true → step s s').
Proof.
  destruct a as [c|c|c k|c u]; simpl; intros H.
  - apply go_code_step in H. by split; [left|].
  - apply go_code_step in H. by split; [right|].
  - destruct (top c s) as [[t k0]|] eqn:Ht; try done; cbn in H; apply top_runs in Ht.
    destruct k0 as [|[h| | | | | | | | | | | | | | |] [|]]; try done. destruct (call_b s t h k) eqn:Hc; [|done]. simplify_eq.
    assert (step s (T t (with_Stack k) s)) by (by eapply step_call; [|apply call_b_spec]). by split; [left|].
  - destruct (top c s) as [[t k0]|] eqn:Ht; try done; cbn in H; apply top_runs in Ht.
    destruct k0 as [|[h| | | | | | | | | | | | | | |] [|]]; try done. case_bool_decide as Hu; [done|]. simplify_eq.
    assert (step s (T u (λ th, with_Flags (Z.lor (Flags th) THREAD_FLAG_FORCE_TERMINATE_PENDING) th) s))
      by (eapply step_terminate; [done|by apply idles_thread|done]). by split; [left|].
Qed.
Lemma exec_steps l s s' : exec l s = Some s' → rtc any_step s s' ∧ (forallb harmless l = true → rtc step s s').
Proof.
  revert s. induction l as [|a l IH]; intros s; simpl; [intros [= <-]; by split|].
  destruct (act a s) as [s1|] eqn:Ha; [|done]. cbn. intros [H1 H2]%IH. destruct (act_step _ _ _ Ha) as [A1 A2].
  split; [by eapply rtc_l|]. intros [Hh Hl]%andb_true_iff. eapply rtc_l; eauto.
Qed.

(** * A system with two CPUs *)
(** Threads 0 and 1 run on the CPUs 0 and 1, whose idle threads are 2 and 3; thread 4 is
    new and ready. 20 is a mutex, 21 an event; the events 10 to 14 and 15 signal the end of
    the threads and of the process. *)
Definition a_thread (st : THREAD_STATE) (evt : nat) (k : list frame) : THREAD := mkThread st 0 evt 0 None 0 0 0 2 0%nat k.
Definition a_cpu (idle cur : nat) : CPU := mkCpu 0 idle cur None false 0 0 true.
Definition new_stack : list frame := [ThreadStartAt S_cleanup; Run []].
Definition new_event (ty : EX_EVT_TYPE) : waitable :=
  SEvent (default (mkEvent None [] ty false) (ExEventInit (Some (mkEvent None [] ty false)) ty false).2).
Definition an_event : waitable := new_event ExEventTypeNotification.
Definition sys0 : SYS := mkSys
  (list_to_map [(0, a_thread ThreadStateRunning 10 [Run []]); (1, a_thread ThreadStateRunning 11 [Run []]);
    (2, a_thread ThreadStateBlocked 12 new_stack); (3, a_thread ThreadStateBlocked 13 new_stack);
    (4, a_thread ThreadStateReady 14 new_stack)]%nat)
  (list_to_map [(0, a_cpu 2 0); (1, a_cpu 3 1)]%nat)
  (list_to_map ([(20, SMutex (MutexInit true)); (21, new_event ExEventTypeSynchronization)]
    ++ ((λ i, (i, an_event)) <$> [10; 11; 12; 13; 14; 15]))%nat)
  (list_to_map [(0, mkProcess 5 0 15)]%nat) None [4%nat].
Lemma sys0_boot : boot sys0.
Proof. by split; apply (bool_decide_unpack _); vm_compute. Qed.
(** What [exec] computes from it is reachable. *)
Lemma exec_reachable l s : exec l sys0 = Some s → forallb harmless l = true → reachable s.
Proof. intros H Hl. exists sys0. split; [apply sys0_boot|]. by apply (exec_steps l). Qed.
Definition state (l : list action) : SYS := default sys0 (exec l sys0).
Definition ran (l : list action) : bool := match exec l sys0 with Some _ => true | None => false end.
Lemma state_exec l : ran l = true → exec l sys0 = Some (state l).
Proof. unfold ran, state. by destruct (exec l sys0). Qed.
Lemma state_reachable l : ran l = true → forallb harmless l = true → reachable (state l).
Proof. intros H%state_exec Hl. by eapply exec_reachable. Qed.
(** The fields of a computed state. *)
Definition state_of (s : SYS) (t : nat) : option THREAD_STATE := State <$> threads s !! t.
Definition refs_of (s : SYS) (t : nat) : option Z := RefCnt <$> threads s !! t.
Definition stack_of (s : SYS) (t : nat) : option (list frame) := Stack <$> threads s !! t.
Definition go (c n : nat) : list action := replicate n (Go c).

(** * Three runs *)
(** Thread 0 waits for the event 21, thread 1 signals it: the signal comes between the
    test of the event and the insertion into the waiting list. *)
Definition run_lost_wakeup : list action :=
  [Enter 0 [ExEventWaitForSignalAt 21 W_enter; Run []]] ++ go 0 2 ++
  [Enter 1 [ExEventSignalAt 21 G_lock; Run []]] ++ go 1 2 ++ go 0 8.
(** ExEventWaitForSignal can sleep although the event is signaled: the signal is given, the
    function that gave it has returned, and the thread waits, blocked, for the next one. *)
Example lost_wakeup :
  let s := state run_lost_wakeup in
  reachable s ∧ (∃ x, is_event s 21 x ∧ Signaled x = true ∧ EventWaitingList x = [0%nat])
  ∧ state_of s 0 = Some ThreadStateBlocked ∧ currents s = [1; 4]%nat ∧ stack_of s 1 = Some [Run []].
Proof.
  split; [by apply state_reachable; vm_compute|].
  split; [eexists; split; [by apply is_event_b_spec; vm_compute|by vm_compute]|by vm_compute].
Qed.

(** Thread 0 yields and is executed by CPU 1, where it exits, before CPU 0 has looked at
    the state of its previous thread. *)
Definition run_early : list action :=
  [Enter 0 [ThreadYieldAt Y_enter; Run []]] ++ go 0 4 ++ [Enter 1 [ThreadYieldAt Y_enter; Run []]] ++ go 1 6 ++
  [Enter 1 [ThreadExitAt (X_enter 0); Run []]] ++ go 1 1 ++ go 0 1.
Definition run_twice : list action := run_early ++ go 1 7.
(** ThreadCleanupPostSchedule drops the reference of a thread that is ending but still
    runs on another CPU, and drops it again when that CPU has switched. *)
Example dereferenced_twice :
  refs_of sys0 0 = Some 2 ∧
  (let s := state run_early in reachable s ∧ currents s = [0; 4]%nat ∧ refs_of s 0 = Some 1) ∧
  (let s := state run_twice in reachable s ∧ currents s = [1; 4]%nat ∧ refs_of s 0 = Some 0).
Proof.
  split; [done|]. split; (split; [by apply state_reachable; vm_compute|by vm_compute]).
Qed.

(** Thread 0 has put itself into the waiting list of the mutex 20 when it is told to
    terminate; then thread 1 releases the mutex. *)
Definition run_terminate : list action :=
  [Enter 1 [MutexAcquireAt 20 A_enter; Run [20%nat]]] ++ go 1 3 ++ [Enter 0 [MutexAcquireAt 20 A_enter; Run [20%nat]]] ++ go 0 5 ++
  [Terminate 1 0; GoForced 0; Go 0] ++ [Enter 1 [MutexReleaseAt 20 R_enter; Run []]] ++ go 1 3.
(** The thread that exits in ThreadBlock stays in the waiting list: the assertion of
    ThreadUnblock that it is blocked fails. *)
Example terminated_waiter :
  let s := state run_terminate in
  rtc any_step sys0 s ∧ runs s 1 1 [ThreadUnblockAt 0 (U_check false); MutexReleaseAt 20 (R_unlock true); Run []]
  ∧ code 1 1 (ThreadUnblockAt 0 (U_check false)) s = Panic.
Proof.
  split; [by apply (exec_steps run_terminate), state_exec; vm_compute|]. split; [by apply top_runs; vm_compute|by vm_compute].
Qed.

(** Thread 0 is asked to end while it runs: it ends in the next ThreadYield, and CPU 0 goes on with
    thread 4. *)
Definition run_forced_exit : list action :=
  [Terminate 1 0; Enter 0 [ThreadYieldAt Y_enter; Run []]; Go 0].
Definition run_ended : list action := run_forced_exit ++ go 0 11.
Example forced_exit :
  (let s := state run_forced_exit in reachable s ∧ stack_of s 0 = Some [ThreadExitAt (X_enter STATUS_FORCED); Run []]) ∧
  (let s := state run_ended in reachable s ∧ state_of s 0 = Some ThreadStateDying ∧ currents s = [1; 4]%nat
    ∧ stack_of s 4 = Some [Run []]).
Proof. split; (split; [by apply state_reachable; vm_compute|by vm_compute]). Qed.

(** * Witnesses *)
(** Thread 1 takes the mutex 20, thread 0 waits for it. *)
Definition run_wait : list action :=
  [Enter 1 [MutexAcquireAt 20 A_enter; Run [20%nat]]] ++ go 1 3 ++
  [Enter 0 [MutexAcquireAt 20 A_enter; Run [20%nat]]] ++ go 0 7.
(** Thread 1 releases it and yields to thread 0. *)
Definition run_handover : list action :=
  run_wait ++ go 0 4 ++ [Enter 1 [MutexReleaseAt 20 R_enter; Run []]] ++ go 1 7 ++
  [Enter 1 [ThreadYieldAt Y_enter; Run []]] ++ go 1 6.
(** CPU 1 spins at the ready lock, which CPU 0 holds. *)
Definition run_spin : list action := run_wait ++ [Enter 1 [ThreadYieldAt Y_enter; Run [20%nat]]; Go 1].
Lemma a_step : step (state run_wait) (state (run_wait ++ [Go 0])).
Proof.
  assert (E : act (Go 0) (state run_wait) = Some (state (run_wait ++ [Go 0]))).
  { unfold state, run_wait. by vm_compute. }
  by apply (act_step _ _ _ E).
Qed.
Lemma run_wait_reachable : reachable (state run_wait).
Proof. by apply state_reachable; vm_compute. Qed.
Lemma run_handover_reachable : reachable (state run_handover).
Proof. by apply state_reachable; vm_compute. Qed.

(** The step in which thread 0 is marked as dying, after it was asked to end. *)
Lemma exit_step : step (state run_forced_exit) (state (run_forced_exit ++ [Go 0])).
Proof.
  assert (E : act (Go 0) (state run_forced_exit) = Some (state (run_forced_exit ++ [Go 0]))).
  { unfold state, run_forced_exit. by vm_compute. }
  by apply (act_step _ _ _ E).
Qed.
Lemma scheduler_refines_witness :
  rtc (astep (idle_of (state run_wait))) (abs (state run_wait)) (abs (state (run_wait ++ [Go 0])))
  ∧ rtc (astep (idle_of (state run_forced_exit))) (abs (state run_forced_exit)) (abs (state (run_forced_exit ++ [Go 0]))).
Proof.
  split; [apply (scheduler_refines _ _ run_wait_reachable a_step)|].
  apply (scheduler_refines (state run_forced_exit)); [by apply state_reachable; vm_compute|apply exit_step].
Defined.
(** Thread 0 is asked to end before it tests that in ThreadBlock. *)
Definition run_asked : list action :=
  [Enter 1 [MutexAcquireAt 20 A_enter; Run [20%nat]]] ++ go 1 3 ++ [Enter 0 [MutexAcquireAt 20 A_enter; Run [20%nat]]] ++ go 0 5 ++
  [Terminate 1 0].
Lemma no_assertion_fails_witness :
  (∃ fs s', code 1 0 (MutexAcquireAt 20 (A_again true)) (state run_handover) = Ret (fs, s'))
  ∧ ∃ fs s', code 0 0 (ThreadBlockAt B_enter) (state run_asked) = Ret (fs, s').
Proof.
  split.
  - apply (no_assertion_fails _ 1 0 _ [Run [20%nat]] run_handover_reachable). by apply top_runs; vm_compute.
  - apply (no_assertion_fails (state run_asked) 0 0 _ [MutexAcquireAt 20 (A_again true); Run [20%nat]]);
      [by apply state_reachable; vm_compute|by apply top_runs; vm_compute].
Defined.
Lemma threads_in_one_place_witness : NoDup (ReadyThreadsList (state run_handover)) ∧ ReadyThreadsList (state run_handover) = [1%nat].
Proof. split; [apply (threads_in_one_place _ run_handover_reachable)|by vm_compute]. Defined.
Lemma no_thread_lost_witness : ∃ th, threads (state run_wait) !! 0%nat = Some th ∧
  (0%nat ∈ ReadyThreadsList (state run_wait) ∨ waits (state run_wait) 0 ∨ 0%nat ∈ idles (state run_wait) ∨ State th = ThreadStateDying).
Proof.
  destruct (threads (state run_wait) !! 0%nat) as [th|] eqn:E; [|by vm_compute in E]. exists th. split; [done|].
  apply (no_thread_lost _ _ _ run_wait_reachable E). apply (bool_decide_unpack _). by vm_compute.
Defined.
Lemma spin_waits : waits_for (state run_spin) 1 0.
Proof.
  exists 1%nat, (ThreadYieldAt (Y_lock true false)), [Run [20%nat]], L_ready.
  split; [by apply top_runs; vm_compute|]. split; [done|by vm_compute].
Qed.
Lemma spinning_ends_witness :
  ¬ tc (waits_for (state run_spin)) 1%nat 1%nat ∧ ∃ e t f k fs s', rtc (waits_for (state run_spin)) 0%nat e
    ∧ runs (state run_spin) e t (f :: k) ∧ code e t f (state run_spin) = Ret (fs, s') ∧ fs ≠ [f].
Proof.
  destruct (spinning_ends (state run_spin)) as (H1 & _ & H2); [by apply state_reachable; vm_compute|]. split; [apply H1|].
  destruct (H2 1%nat 0%nat spin_waits) as (e & t & f & k & fs & s' & He & Hr & _ & _ & Hc & Hne).
  exists e, t, f, k, fs, s'. exact (conj He (conj Hr (conj Hc Hne))).
Defined.
Lemma mutex_exclusion_witness : ∃ x, is_mutex (state run_wait) 20 x ∧ Holder x = Some 1%nat ∧ CurrentRecursivityDepth x = 1.
Proof.
  destruct (is_mutex_b (state run_wait) 20) as [x|] eqn:E; [|by vm_compute in E]. apply is_mutex_b_spec in E. exists x. split; [done|].
  destruct (threads (state run_wait) !! 1%nat) as [th|] eqn:Eth; [|by vm_compute in Eth].
  destruct (mutex_exclusion _ _ _ run_wait_reachable E) as [_ H].
  apply (H 1%nat th [20%nat] Eth); [|by left]. assert (Hs : stack_of (state run_wait) 1 = Some [Run [20%nat]]) by by vm_compute.
  unfold stack_of in Hs. rewrite Eth in Hs. by injection Hs.
Defined.
Lemma mutex_handed_over_witness : ∃ x, is_mutex (state run_handover) 20 x ∧ Holder x = Some 0%nat ∧ CurrentRecursivityDepth x = 1.
Proof.
  destruct (is_mutex_b (state run_handover) 20) as [x|] eqn:E; [|by vm_compute in E]. apply is_mutex_b_spec in E. exists x. split; [done|].
  apply (mutex_handed_over _ 1 0 20 x true [Run [20%nat]] run_handover_reachable); [by apply top_runs; vm_compute|done].
Defined.
Lemma mutex_free_witness : WaitingList (MutexInit true) = [].
Proof. apply (mutex_free sys0 20); [by exists sys0; split; [apply sys0_boot|]|by vm_compute|done]. Defined.
